(* ===== verification/_CoqProject ===== *)
-Q . S2P
Prelude.v
Interfaces.v
PagePool.v
PhysRange.v
Registry.v
InitPlan.v
ManagedPages.v
LowDma.v
Vma.v
VmaProtect.v
VmaUnmap.v
VmaFault.v
Sched.v
SchedProof.v
SchedSwitch.v
SchedSys.v
SchedClaims.v
SchedReasons.v
Locks.v
LocksProof.v
LocksStep.v
LocksClaims.v
LocksSched.v
LocksWitness.v
Futex.v
FutexWitness.v
Vtd.v
Iova.v
IovaRange.v
VtdProof.v
IovaTree.v
IovaProof.v
IovaMap.v
IovaClaims.v
VtdClaims.v
VtdEnable.v
VtdStart.v
VtdWitness.v
Dmar.v
DmarProof.v
DmarClaims.v
DmarWitness.v
PageRefs.v
FileCache.v
FileCacheProof.v
FileCacheWorld.v
FileCacheSteps.v
FileCacheClaims.v
FileCacheWitness.v
DeviceEvents.v
DeviceEventsProof.v
DeviceEventsClaims.v
DeviceEventsWitness.v
Pipe.v
PipeProof.v
PipeLists.v
PipeClaims.v
PipeWitness.v
Message.v
MessageLists.v
MessageProof.v
MessageQueues.v
MessageDrops.v
MessageSelect.v
MessageWaits.v
MessageSteps.v
MessageRecv.v
MessageInv.v
MessageClaims.v
MessageWitness.v
