(* ===== verification/Prelude.v ===== *)
(** * Verification of the Mecocoa kernel core

    Mecocoa is an operating-system kernel in C++ ([src/mecocoa], [src/include]).  This library models
    its memory management, its scheduler with the sleeping locks, futexes and pipes on top of it, its
    messages between threads and queues of device events, its cache of file pages and its DMA remapping driver as executable functions and proves what makes them
    correct.  The configuration modelled is the 64-bit x86 one ([_MCCA == 0x8664]) with paging
    ([CONFIG_ENABLE_MMU]); [stduint] is a 64-bit word.

    ** The parts and how they interact

    - [memoman-page.cpp], physical side.  [PhysRange]: half-open physical ranges and compatibility of
      memory types.  [Registry]: the global list of physical mappings behind [Memory::MapPages],
      [UnmapPages] and [ReleasePagingMappings]; a request is normalised, the records it may need are
      reserved, the page table is changed and the records are committed.  [InitPlan]: the array of
      page regions the kernel maps at boot ([build_initial_page_plan], [map_initial_page_regions]).
      [ManagedPages]: the hash table of reference-counted pages.  [PageRefs]: what the page manager
      and the pool promise to caches, as a type class with its instance.
    - [memoman.cpp], [memoman.hpp].  [LowDma]: the pool of DMA buffers below 16 MiB.  [Vma]: the sorted
      vector of virtual memory areas of a process (search, insertion, replacement, merging).
      [VmaProtect], [VmaUnmap]: [ProtectVmaRange] and [UnmapVmaRange] with plan, commit and rollback.
      [VmaFault]: demand paging, copy-on-write and preparation of user buffers.
    - [schedul.cpp].  [Sched]: the ready and expired queues with their bitmaps, [PickNext], [Block],
      [Unblock], [Schedule], [SleepAndRelease]; [SchedProof] the queues, [SchedSwitch] the choice and
      blocking, [SchedSys] the system of several processors, [SchedClaims] the theorems.
    - [taskman-lock.cpp].  [Locks]: spin locks with the interrupt flags of the processors, mutexes and
      semaphores; every thread has a position in the lock operation it executes, and a step is what it
      does between two points where others can observe anything.  The locks see the scheduler through
      the class [Sleeping] with the laws [SleepingLaws]; [LocksProof] and [LocksStep] prove the
      invariant against these laws, [LocksClaims] holds the theorems, [SchedReasons] and [LocksSched]
      prove that the scheduler model satisfies the laws, and [LocksWitness] is a run on it.
    - [threads.cpp], [Taskman::Futex].  [Futex]: waiting and waking on a user address, over the
      scheduler's operations; [FutexWitness] a run, and the interference of a futex with a mutex.
    - [filesys.cpp], pipes (with [FileDescriptor_Clone] of [fileman.cpp]).  [Pipe]: channels with
      their ring, counters and wait lists, and the calls as programs of interleaved threads over an
      interface to the scheduler; [PipeProof] the counters and the bytes, [PipeLists] the linked
      lists, [PipeClaims] the theorems, [PipeWitness] runs on the scheduler model.
    - [message.cpp], device events.  [DeviceEvents]: the queue of a driver thread with coalescing and
      overflow slots; [DeviceEventsProof] what is stored, [DeviceEventsClaims] the theorems,
      [DeviceEventsWitness] a queue.
    - [message.cpp], messages (with [DeliverWaitResultAtomically] and the severing in [Taskman::Exit]
      of [taskman.cpp]).  [Message]: the communication fields of the threads, [msg_send], [msg_recv]
      and [msg_cleanup_thread] as programs of interleaved threads, one step per section under
      [comm_lock] and per turn of a wake-up loop; what the code reads of the scheduler is an argument
      that may differ from step to step.  [MessageLists]: families of linked lists that share a link.
      [MessageProof]: the invariant; [MessageQueues], [MessageDrops], [MessageSelect], [MessageWaits]:
      what the operations do to the lists; [MessageSteps], [MessageRecv], [MessageInv]: every step keeps
      the invariant; [MessageClaims] the theorems, [MessageWitness] runs.
    - [memoman-iova.cpp].  [Dmar]: the walk over the firmware's table of remapping units
      ([Iova::ProbeVtd]) on a table of arbitrary bytes; [DmarProof] relates bytes to entries, with an
      encoder, [DmarClaims] holds the theorems and [DmarWitness] a table.  [Vtd]: the driver of the remapping unit (registers, invalidation queue,
      context tables, interrupt entries, activation and rollback).  [Iova]: the translated domains,
      [MapDeviceDma] and [UnmapDeviceDma].  [IovaRange] proves the choice of device addresses,
      [IovaTree] the four-level tables against the walk of the unit, [IovaProof] and [IovaMap] the
      operations, [VtdProof] the driver calculus, [VtdEnable] and [VtdStart] the activation;
      [IovaClaims], [VtdClaims] hold the theorems and [VtdWitness] a running instance.
    - [fileman-cache.cpp], with the content versions of [filesys.cpp].  [FileCache]: the hash table of
      clean file pages with its shared entries, and [GetCachedPage] and
      [AcquireCachedFileMappingPage] as programs of interleaved threads, one step per critical section.
      [FileCacheProof] proves the table operations against counts of owners and references,
      [FileCacheWorld] states the invariant of all threads together, [FileCacheSteps] that every step
      keeps it; [FileCacheClaims] holds the theorems and [FileCacheWitness] a run.

    Page faults use the areas ([Vma]) and the page manager ([ManagedPages]); protection and unmapping
    change areas and page table together; the registry is used by the boot plan; the remapping driver
    takes its tables from the physical pool; the file cache takes pages from the pool and hands them to
    the page manager, through the interface [PageRefs] that [ManagedPages] implements; the locks block
    and wake threads of the scheduler; the probe maps register windows through the registry and
    prepares the state in which the driver is activated.

    ** State and effects

    State is passed explicitly: a record per component, fields named after the source's.  Pointers are
    [Z] (0 is null), pointer structures are heaps ([gmap]), intrusive lists are the links themselves in
    the scheduler and Rocq lists of the chain elsewhere.  Words are [Z] with the wrap-around written
    ([+w], [-w]); tests that need wrap-around (overflow checks) keep it.  A failed [KASSERT] is [None];
    error returns are values.  The driver is a state monad, as the code is written with early returns
    over global state.  Code that runs under one lock is one step; where the code releases a lock and
    takes it again, other threads run in between: a parameter [env] in [VmaFault], step relations in
    [SchedSys], [LocksProof], [FileCache], [Pipe] and [Message].

    Code that is not in [src/] (the UNISYM library: page tables, the physical pool, bitmaps, shared
    pointers; and hardware) is a parameter: the classes of [Interfaces], with laws that state its
    documented behaviour, and [VtdUnit] for the remapping unit, which may answer anything.  Outcomes of
    small allocations ([new]) are inputs.  [Interfaces.Example], [PagePool] and [VtdWitness]
    instantiate them.

    ** What the theorems show

    - Scheduler: queues refine lists; the choice is the first eligible thread in priority order;
      wake-ups are not lost; a scheduling step always completes; over all interleavings of the
      processors no thread runs twice.  Two theorems document defects (real-time threads on an expired
      queue, destruction of a thread that is being switched out).
    - Locks: over all interleavings, with scheduling steps in between, at most one thread holds a mutex
      or a guard and holders of a guard cannot be preempted; no wake-up is lost; locks are handed over
      in the order of arrival; semaphores count exactly; no operation gets stuck.
    - Futexes: a wake-up wakes exactly the waiters it is meant for, and is not lost between the test of
      the word and the sleep.  Two theorems document defects (more than 64 waiters; address zero, which
      matches threads that wait for a kernel mutex and breaks its exclusion).
    - Pipes: over all interleavings, signals and schedules the bytes come out as they went in; no freed
      channel is used and none leaks; the wait lists implement lists.  Three theorems document defects:
      a wake-up that is lost when the reader runs on in the state [Ready], and a signal that makes a
      thread join a wait list twice, which breaks the list.
    - Messages: over all interleavings the queues hold exactly the pending senders, no step hangs or
      fails an assertion, and the check for deadlocks is exact; the order of sender and receiver does
      not matter.  This holds for threads that do not send to themselves or null messages, and that do
      not run between being dropped and being woken; six theorems document what happens otherwise, a
      message that is overwritten, a receiver that is forgotten, and senders that are.
    - Device events: events are never lost silently, the queue stays well formed, and events are
      refused only when nothing is left.
    - Address spaces: insertion, replacement, merging, protection and unmapping are all or nothing and
      change exactly the attributes of the addresses asked for; faults never install what the area does
      not allow; copy-on-write never makes a shared page writable; reference counts stay exact.
    - Physical memory: the registry translates as asked and never mixes incompatible memory types; the
      boot plan equals its specification and fits its array; the page manager refines a finite map.
    - File cache: over all interleavings no assertion fails and no entry is used after its destruction;
      a page that is mapped holds the file's content at the current version; every reference is counted
      and every unused page can be reclaimed; waiting for a page ends; a change of a file takes its old
      pages out.
    - Remapping: the probe never reads outside of the firmware's table and always ends; it accepts
      exactly the tables that encode well-formed entries.  A successful activation gives every function its own context and establishes the
      invariants; the tables in memory translate exactly the recorded ranges, before and after every
      map and unmap, on every error path; the invalidation queue never overruns; interrupt entries
      are allocated and released without interference.

    ** Bounds and fuel

    Loops over lists are structural.  [FindFreeVmaRange] has a fuel of one turn per area and page, proved
    enough.  The search for device addresses makes 49 passes, as the code does, proved enough.  The
    walks along the wait lists of pipes are fuelled by the number of threads, enough for every list of
    distinct threads; a list that is no longer one makes them end as [Hang].  So are the walks along
    the queues of messages and along chains of senders; [message_queues_sound] and
    [deadlock_check_exact] show that the fuel is enough.  Waiting
    for the unit spins 1,000,000 times, as the code does; no theorem depends on the number.  The retry
    loop of [MapCachedFileVmaPage] is fuelled because other threads may change the file forever; theorems
    hold for every fuel, and anonymous faults return with any fuel.

    ** Not modelled

    Interrupt handlers that run inside a lock operation (the guard masks them) and other users of the
    blocking reason [BR_Lock] (futexes, joining) are outside of the step relation of the locks.  Pipe
    calls run in system calls, which enter with the interrupts masked; their theorems hold for any
    scheduling.

    Assembly, boot code, context-switch stubs and interrupt entry (no semantics in the source language);
    device drivers, ACPI, USB, audio and network (they are dominated by hardware protocols and
    third-party headers); console and graphics (output); shared writable file pages, executable image
    pins, file systems and the shell of system calls that
    only marshal arguments; the ELF loader, creation and joining of threads, delivery of signals; the 32-bit and non-paging
    configurations.  Log output is left out everywhere.  The memory-map readers that feed the boot plan
    depend on firmware tables. *)
From stdpp Require Export base list numbers gmap sorting relations.
From Stdlib Require Export ZArith Lia ZifyBool.
#[global] Open Scope Z_scope.

(** ** Machine words

    The modelled configuration is the 64-bit one ([_MCCA == 0x8664]): [stduint] is an
    unsigned 64-bit integer, kept as a [Z] in [0, 2^64), with the wrap-around written out. *)

Declare Scope word_scope.
Delimit Scope word_scope with word.

Abbreviation two64 := 18446744073709551616.

(** [~_IMM0], the all-ones word; the kernel also uses it as a "no address" sentinel. *)
Definition UMAX : Z := 18446744073709551615.

Definition PAGE_SIZE : Z := 4096.

Definition is_u64 (x : Z) : Prop := 0 <= x < two64.

Definition uadd (a b : Z) : Z := (a + b) mod two64.
Definition usub (a b : Z) : Z := (a - b) mod two64.

Infix "+w" := uadd (at level 50, left associativity) : word_scope.
Infix "-w" := usub (at level 50, left associativity) : word_scope.
#[global] Open Scope word_scope.

(** [x & (PAGE_SIZE - 1)] and [x & ~(PAGE_SIZE - 1)]. *)
Definition page_offset (x : Z) : Z := Z.land x (PAGE_SIZE - 1).
Definition page_down (x : Z) : Z := Z.land x (Z.lnot (PAGE_SIZE - 1)).

Definition page_aligned (x : Z) : Prop := x mod PAGE_SIZE = 0.

(** A C truth value: a word is true when it is not zero. *)
Definition truthy (x : Z) : bool := negb (x =? 0).

(** [flags & bit], as a condition. *)
Definition has (flags bit : Z) : bool := truthy (Z.land flags bit).

(** ** Tactics *)

(** Let [lia] reason about [/] and [mod] by constants, and about boolean tests. *)
Ltac Zify.zify_post_hook ::= ZifyBool.elim_bool_cstr; Z.div_mod_to_equations.

(** Case analysis on every [if] and [match] of the goal, closing the contradictory cases. *)
Ltac crush_match :=
  repeat (case_match; simplify_eq/=; try done).

(** Open the word operations so that [lia] sees plain arithmetic. *)
Ltac unfold_word :=
  unfold uadd, usub, is_u64, UMAX, PAGE_SIZE, page_aligned in *.

Ltac word_lia := unfold_word; lia.

(** ** Word lemmas *)

Lemma uadd_small (a b : Z) : 0 <= a + b < two64 -> (a +w b) = a + b.
Proof. intros. unfold uadd. by rewrite Z.mod_small. Qed.

Lemma usub_small (a b : Z) : 0 <= a - b < two64 -> (a -w b) = a - b.
Proof. intros. unfold usub. by rewrite Z.mod_small. Qed.

Lemma uadd_range (a b : Z) : is_u64 (a +w b).
Proof. unfold uadd, is_u64. apply Z.mod_pos_bound. lia. Qed.

Lemma usub_range (a b : Z) : is_u64 (a -w b).
Proof. unfold usub, is_u64. apply Z.mod_pos_bound. lia. Qed.

Lemma land_mask (x k : Z) : 0 <= k -> Z.land x (2 ^ k - 1) = x mod 2 ^ k.
Proof. intros. rewrite <- Z.land_ones by lia. f_equal. rewrite Z.ones_equiv. lia. Qed.

Lemma land_lnot_mask (x k : Z) :
  0 <= k -> Z.land x (Z.lnot (2 ^ k - 1)) = x - x mod 2 ^ k.
Proof.
  intros Hk. rewrite <- Z.ldiff_land.
  replace (2 ^ k - 1) with (Z.ones k) by (rewrite Z.ones_equiv; lia).
  rewrite Z.ldiff_ones_r, Z.shiftl_mul_pow2, Z.shiftr_div_pow2 by lia.
  pose proof (Z.div_mod x (2 ^ k)). lia.
Qed.

Lemma page_offset_mod (x : Z) : page_offset x = x mod 4096.
Proof. exact (land_mask x 12 ltac:(lia)). Qed.

Lemma page_down_sub (x : Z) : page_down x = x - x mod 4096.
Proof. exact (land_lnot_mask x 12 ltac:(lia)). Qed.

Lemma page_down_aligned (x : Z) : page_aligned (page_down x).
Proof. unfold page_aligned, PAGE_SIZE. rewrite page_down_sub. lia. Qed.

Create HintDb word.
#[export] Hint Rewrite page_offset_mod page_down_sub : word.
#[export] Hint Resolve uadd_range usub_range page_down_aligned : word.

(** ** List lemmas *)

Lemma Forall_filter_sub {A} (P Q : A -> Prop) `{!forall x, Decision (Q x)} l :
  Forall P l -> Forall P (filter Q l).
Proof. rewrite !Forall_forall. intros HP x [_ Hx]%list_elem_of_filter. by apply HP. Qed.

Lemma ForallOrdPairs_app {A} (R : A -> A -> Prop) l1 l2 :
  ForallOrdPairs R l1 -> ForallOrdPairs R l2 ->
  (forall x y, x ∈ l1 -> y ∈ l2 -> R x y) -> ForallOrdPairs R (l1 ++ l2).
Proof.
  induction 1 as [|x l1 Hx H1 IH]; intros H2 Hc; cbn; [done|].
  constructor.
  - apply Forall_app. split; [done|]. apply Forall_forall. intros y Hy. apply Hc; [by left|done].
  - apply IH; [done|]. intros. apply Hc; [by right|done].
Qed.

Lemma ForallOrdPairs_filter {A} (R : A -> A -> Prop) (Q : A -> Prop)
    `{!forall x, Decision (Q x)} l :
  ForallOrdPairs R l -> ForallOrdPairs R (filter Q l).
Proof.
  induction 1 as [|n l Hn Hd IH]; [constructor|].
  rewrite filter_cons. case_decide; [|done]. constructor; [by apply Forall_filter_sub|done].
Qed.
