(* ===== verification/Interfaces.v ===== *)
(** * Interfaces of the code the kernel links against

    The page-table engine ([c/system/paging.h]), the physical memory pool ([c/mempool.h])
    and the property encoding belong to the UNISYM library, which is a submodule and not part
    of the repository.  They are parameters of every model that uses them: a class for the
    operations, and a separate class for each documented law a theorem relies on, so that a
    theorem's dependencies are visible in its statement.  Concrete instances at the end show
    that the laws can hold together. *)
From S2P Require Import Prelude.

(** ** Page property words *)

Class PagingConstants := {
  PGPROP_present : Z;
  PGPROP_writable : Z;
  PGPROP_user_access : Z;
  PGPROP_global : Z;
  PGPROP_nonexecutable : Z;
  PGPROP_weak : Z;
  PGPROP_MASK_TYPE : Z;
  PGTYPE_default : Z;
  PGTYPE_writeback : Z;
  PGTYPE_writethrough : Z;
  PGTYPE_uncacheable : Z;
  PGTYPE_writecombine : Z;
  PGTYPE_device : Z;
  PGTYPE_noncacheable : Z;
  PGOPTS_omit_warnings : Z;
  PAGESIZE_ANY : Z;
  PAGESIZE_4KB : Z;
  (** [NormalizePageProperties(in, out)]: the normalised word, or failure. *)
  NormalizePageProperties : Z -> option Z;
  (** [Paging::isSupportedSize] *)
  isSupportedSize : Z -> bool;
  PageTypeSupported : Z -> bool;
}.

(** The permission bits of a property word are separate, and none is empty. *)
Class PagePermissionLaws `{PagingConstants} := {
  pgprop_writable_bit : PGPROP_writable <> 0;
  pgprop_writable_user : Z.land PGPROP_user_access PGPROP_writable = 0;
  pgprop_writable_nx : Z.land PGPROP_nonexecutable PGPROP_writable = 0;
}.

(** [PAGESIZE_*] values are shifts; [PAGESIZE_4KB] names the shift of a 4 KiB page. *)
Class PageShiftLaws `{PagingConstants} := {
  pagesize_4kb_shift : PAGESIZE_4KB = 12;
}.

(** The enumerators of the page type field are distinct. *)
Class PageTypeLaws `{PagingConstants} := {
  pgtype_distinct : List.NoDup
    [PGTYPE_default; PGTYPE_writeback; PGTYPE_writethrough; PGTYPE_uncacheable;
     PGTYPE_writecombine; PGTYPE_device; PGTYPE_noncacheable];
}.

(** ** Page tables

    [pt_at] is [paging[va]], the physical address, with [UMAX] for an unmapped page;
    [pt_leaf] is [getEntry] followed by [DecodeLeafProperties]: the level of the leaf and its
    decoded properties, when both succeed. *)
Class PageTable (PT : Type) := {
  pt_at : PT -> Z -> Z;
  pt_leaf : PT -> Z -> option (Z * Z);
  (** [Map(va, pa, length, size, properties)] *)
  pt_map : PT -> Z -> Z -> Z -> Z -> Z -> bool * PT;
  (** [Unmap(va, length)] *)
  pt_unmap : PT -> Z -> Z -> bool * PT;
  (** [SetupAsLeaf(pa, level, properties)] and the store of the new raw entry, at [va]. *)
  pt_setup_ok : Z -> Z -> Z -> bool;
  pt_store : PT -> Z -> Z -> Z -> PT;
}.

(** Storing a leaf that [SetupAsLeaf] accepted: the leaf decodes to what was encoded and translates
    its page to the physical page; every other page is as before. *)
Class PageStoreLaws (PT : Type) `{PageTable PT} := {
  pt_leaf_store : forall pt va pa props page,
    va mod PAGE_SIZE = 0 -> page mod PAGE_SIZE = 0 -> pt_setup_ok pa 0 props = true ->
    pt_leaf (pt_store pt va pa props) page = if page =? va then Some (0, props) else pt_leaf pt page;
  pt_at_store : forall pt va pa props page,
    va mod PAGE_SIZE = 0 -> page mod PAGE_SIZE = 0 -> pt_setup_ok pa 0 props = true ->
    pt_at (pt_store pt va pa props) page = if page =? va then pa else pt_at pt page;
}.

(** [Unmap] of whole pages clears them and no other page. *)
Class PageUnmapLaws (PT : Type) `{PageTable PT} := {
  pt_at_unmap : forall pt va len pt' page,
    va mod PAGE_SIZE = 0 -> len mod PAGE_SIZE = 0 -> 0 < len -> page mod PAGE_SIZE = 0 ->
    pt_unmap pt va len = (true, pt') ->
    pt_at pt' page = if (va <=? page) && (page <? va + len) then UMAX else pt_at pt page;
}.

(** ** The physical memory pool *)
Class Mempool (M : Type) := {
  (** [allocate(size, alignment, boundary)]; [0] or [UMAX] stand for failure. *)
  mp_allocate : M -> Z -> Z -> Z -> Z * M;
  (** [deallocate(ptr, size)] *)
  mp_deallocate : M -> Z -> Z -> bool * M;
  (** [Reserve(slice)] *)
  mp_reserve : M -> Z -> Z -> bool * M;
}.

(** What an allocator of physical memory promises: a block of whole pages is aligned, was not
    owned, and is owned until it is given back. *)
Class MempoolLaws (M : Type) `{Mempool M} := {
  mp_owned : M -> Z -> Prop;
  mp_allocate_block : forall m size p m', 0 < size -> size mod 4096 = 0 ->
    mp_allocate m size 12 0 = (p, m') -> p <> 0 ->
    0 < p /\ p mod 4096 = 0 /\ p + size <= two64 /\
    (forall q, p <= q < p + size -> ~ mp_owned m q) /\
    (forall q, mp_owned m' q <-> mp_owned m q \/ p <= q < p + size);
  mp_allocate_none : forall m size m', mp_allocate m size 12 0 = (0, m') ->
    forall q, mp_owned m' q <-> mp_owned m q;
  mp_deallocate_block : forall m p size, 0 < size -> size mod 4096 = 0 -> p mod 4096 = 0 ->
    (forall q, p <= q < p + size -> mp_owned m q) ->
    forall q, mp_owned (mp_deallocate m p size).2 q <-> mp_owned m q /\ ~ (p <= q < p + size);
}.

(** ** Bitmaps

    [uni::Bitmap(storage, bytes)]: [bitof] reads a bit and [setof] writes it; the storage is
    zeroed by its initialiser.  [bitmap_size] is the number of bits. *)
Class Bitmap (B : Type) := {
  bitmap_zero : Z -> B;
  bitmap_size : B -> Z;
  bitof : B -> Z -> bool;
  setof : B -> Z -> bool -> B;
}.

Class BitmapLaws (B : Type) `{Bitmap B} := {
  bitmap_zero_size : forall n, 0 <= n -> bitmap_size (bitmap_zero n) = n;
  bitmap_zero_bit : forall n i, 0 <= i < n -> bitof (bitmap_zero n) i = false;
  bitmap_size_setof : forall b i v, bitmap_size (setof b i v) = bitmap_size b;
  bitof_setof : forall b i j v, 0 <= i < bitmap_size b -> 0 <= j < bitmap_size b ->
    bitof (setof b i v) j = if i =? j then v else bitof b j;
}.

(** The test the kernel makes on the result of [allocate]. *)
Definition alloc_failed (p : Z) : bool := (p =? 0) || (p =? UMAX).

(** ** Concrete instances *)
Module Example.

#[export] Instance constants : PagingConstants := {|
  PGPROP_present := 1; PGPROP_writable := 2; PGPROP_user_access := 4;
  PGPROP_global := 8; PGPROP_nonexecutable := 16; PGPROP_weak := 32;
  PGPROP_MASK_TYPE := 448;
  PGTYPE_default := 0; PGTYPE_writeback := 64; PGTYPE_writethrough := 128;
  PGTYPE_uncacheable := 192; PGTYPE_writecombine := 256; PGTYPE_device := 320;
  PGTYPE_noncacheable := 384;
  PGOPTS_omit_warnings := 512;
  PAGESIZE_ANY := 0; PAGESIZE_4KB := 12;
  NormalizePageProperties := fun p => Some (Z.land p 511);
  isSupportedSize := fun s => (s =? 12) || (s =? 21);
  PageTypeSupported := fun t => (0 <=? t) && (t <=? 384) && (t mod 64 =? 0);
|}.

#[export] Instance shift_laws : PageShiftLaws := {| pagesize_4kb_shift := eq_refl |}.

#[export] Instance type_laws : PageTypeLaws.
Proof. constructor. cbn. repeat constructor; cbn; intuition discriminate. Qed.

#[export] Instance permission_laws : PagePermissionLaws.
Proof. by constructor. Qed.

(** A bump allocator that remembers what was given back. *)
Record Pool := MkPool { pool_next : Z; pool_limit : Z; pool_freed : list Z }.

#[export] Instance pool : Mempool Pool := {|
  mp_allocate := fun m size align _ =>
    let p := (pool_next m + 2 ^ align - 1) / 2 ^ align * 2 ^ align in
    if p + size <=? pool_limit m then (p, MkPool (p + size) (pool_limit m) (pool_freed m))
    else (0, m);
  mp_deallocate := fun m p _ => (true, MkPool (pool_next m) (pool_limit m) (p :: pool_freed m));
  mp_reserve := fun m _ _ => (true, m);
|}.

(** A bitmap as the list of its bits. *)
#[export] Instance bits : Bitmap (list bool) := {|
  bitmap_zero := fun n => replicate (Z.to_nat n) false;
  bitmap_size := fun b => Z.of_nat (length b);
  bitof := fun b i => default false (b !! Z.to_nat i);
  setof := fun b i v => <[Z.to_nat i := v]> b;
|}.

#[export] Instance bits_laws : BitmapLaws (list bool).
Proof.
  constructor; cbn.
  - intros. rewrite length_replicate. lia.
  - intros n i ?. by rewrite lookup_replicate_2 by lia.
  - intros. by rewrite length_insert.
  - intros b i j v ? ?. destruct (i =? j) eqn:E.
    + assert (i = j) as -> by lia. by rewrite list_lookup_insert_eq by lia.
    + by rewrite list_lookup_insert_ne by (apply Z.eqb_neq in E; lia).
Qed.

(** A flat page table: page number to physical page address and properties. *)
Abbreviation Table := (gmap Z (Z * Z)).

Fixpoint map_range (t : Table) (va pa : Z) (n : nat) (props : Z) : Table :=
  match n with
  | O => t
  | S n => map_range (<[va / 4096 := (pa, props)]> t) (va + 4096) (pa + 4096) n props
  end.

Fixpoint unmap_range (t : Table) (va : Z) (n : nat) : Table :=
  match n with
  | O => t
  | S n => unmap_range (delete (va / 4096) t) (va + 4096) n
  end.

#[export] Instance table : PageTable Table := {|
  pt_at := fun t va => match t !! (va / 4096) with
                       | Some (pa, _) => pa + va mod 4096 | None => UMAX end;
  pt_leaf := fun t va => match t !! (va / 4096) with
                         | Some (_, props) => Some (0, props) | None => None end;
  pt_map := fun t va pa len _ props =>
    (true, map_range t (page_down va) (page_down pa) (Z.to_nat ((len + 4095) / 4096)) props);
  pt_unmap := fun t va len => (true, unmap_range t va (Z.to_nat (len / 4096)));
  pt_setup_ok := fun _ _ _ => true;
  pt_store := fun t va pa props => <[va / 4096 := (pa, props)]> t;
|}.

#[export] Instance table_store_laws : PageStoreLaws Table.
Proof.
  constructor; unfold PAGE_SIZE, pt_leaf, pt_at, pt_store, table;
    intros pt va pa props page Hv Hp _.
  - destruct (page =? va) eqn:E.
    + assert (page = va) as -> by lia. by rewrite lookup_insert_eq.
    + by rewrite (lookup_insert_ne) by lia.
  - destruct (page =? va) eqn:E.
    + assert (page = va) as -> by lia. rewrite lookup_insert_eq. lia.
    + by rewrite (lookup_insert_ne) by lia.
Qed.

Lemma lookup_unmap_range t va n k : va mod 4096 = 0 ->
  unmap_range t va n !! k =
    if (va / 4096 <=? k) && (k <? va / 4096 + Z.of_nat n) then None else t !! k.
Proof.
  revert t va. induction n as [|n IH]; intros t va Hv; cbn [unmap_range].
  { case_match; [lia|done]. }
  rewrite IH by lia. destruct (decide (k = va / 4096)) as [->|Hk].
  - rewrite (lookup_delete_eq). repeat case_match; done || lia.
  - rewrite (lookup_delete_ne) by done. repeat case_match; done || lia.
Qed.

#[export] Instance table_unmap_laws : PageUnmapLaws Table.
Proof.
  constructor. unfold PAGE_SIZE, pt_at, pt_unmap, table.
  intros pt va len pt' page Hv Hl Hp Hpg [= <-].
  rewrite lookup_unmap_range by done. repeat case_match; simplify_eq; done || lia.
Qed.

End Example.
