(* ===== verification/PagePool.v ===== *)
(** * A concrete pool of physical pages

    An instance of the memory pool and its laws that the concrete runs of several components use:
    owned pages are a list of page numbers. *)
From S2P Require Import Prelude Interfaces.

(** A pool of page numbers: pages are handed out in ascending order below 1 TiB. *)
Definition pages (k n : Z) : list Z := (fun i => k + Z.of_nat i) <$> seq 0 (Z.to_nat n).
Definition next_page (m : list Z) : Z := foldr Z.max 0 m + 1.

#[export] Instance ListPool : Mempool (list Z) := {
  mp_allocate m size _ _ := let k := next_page m in
    if 4096 * k + size <=? 2 ^ 40 then (4096 * k, pages k (size / 4096) ++ m) else (0, m);
  mp_deallocate m p size := (true, filter (fun k => ~ (p / 4096 <= k < (p + size) / 4096)) m);
  mp_reserve m _ _ := (false, m);
}.

Lemma next_page_above m k : k ∈ m -> k < next_page m.
Proof. unfold next_page. induction m as [|x m IH]; [by intros ?%elem_of_nil|]. cbn [foldr]. intros [->|?%IH]%elem_of_cons; lia. Qed.

Lemma next_page_pos m : 0 < next_page m.
Proof. unfold next_page. induction m as [|x m IH]; cbn [foldr]; lia. Qed.

Lemma elem_of_pages k n x : x ∈ pages k n <-> k <= x < k + n.
Proof.
  unfold pages. rewrite list_elem_of_fmap. split.
  - intros (i & -> & Hi%elem_of_seq). lia.
  - intros Hx. exists (Z.to_nat (x - k)). split; [lia|]. apply elem_of_seq. lia.
Qed.

#[export, refine] Instance ListPoolLaws : MempoolLaws (list Z) := { mp_owned m q := q / 4096 ∈ m }.
Proof.
  - intros m size p m' H0 Hs E Hnz. pose proof (next_page_pos m) as Hp. cbn in E. destruct (_ <=? _) eqn:El; [|congruence].
    injection E as <- <-. split_and!; [lia|lia|lia| |].
    + intros q Hq Hin%next_page_above. lia.
    + intros q. rewrite elem_of_app, elem_of_pages. split; intros [?|?]; [right; lia|by left|by right|left; lia].
  - intros m size m' E q. pose proof (next_page_pos m) as Hp. cbn in E. destruct (_ <=? _); injection E; [lia|by intros <-].
  - intros m p size H0 Hs Hp Ho q. cbn [mp_deallocate ListPool snd]. rewrite list_elem_of_filter. split; intros [? ?]; (split; [lia || done|lia || done]).
Defined.
