(* ===== verification/PhysRange.v ===== *)
(** * Physical address ranges ([mecocoa/memoman-page.cpp], lines 17-118)

    Half-open ranges of addresses, their predicates, subtraction with at most two fragments,
    and the compatibility of page types. *)
From S2P Require Import Prelude Interfaces.

Record PhysicalRange := MkRange { rbegin : Z; rend : Z }.

#[export] Instance PhysicalRange_eq_dec : EqDecision PhysicalRange.
Proof. solve_decision. Defined.

(** Build a non-empty half-open range, rejecting address overflow. *)
Definition MakePhysicalRange (begin length : Z) : option PhysicalRange :=
  if (length =? 0) || (UMAX - begin <? length) then None
  else Some (MkRange begin (begin +w length)).

Definition PhysicalRangesEqual (left right : PhysicalRange) : bool :=
  (rbegin left =? rbegin right) && (rend left =? rend right).

Definition PhysicalRangesOverlap (left right : PhysicalRange) : bool :=
  (rbegin left <? rend right) && (rbegin right <? rend left).

Definition PhysicalRangeContains (outer inner : PhysicalRange) : bool :=
  (rbegin outer <=? rbegin inner) && (rend inner <=? rend outer).

Definition PhysicalRangesPartiallyOverlap (left right : PhysicalRange) : bool :=
  PhysicalRangesOverlap left right &&
  negb (PhysicalRangeContains left right) &&
  negb (PhysicalRangeContains right left).

Definition PhysicalRangesAdjacent (left right : PhysicalRange) : bool :=
  (rend left =? rbegin right) || (rend right =? rbegin left).

(** The fragments of [source] outside [removed]; [PhysicalRangeRemainder] is the list of the
    [count] ranges that are in use. *)
Definition SubtractPhysicalRange (source removed : PhysicalRange)
  : option (list PhysicalRange) :=
  if (rend source <=? rbegin source) || (rend removed <=? rbegin removed) then None
  else if negb (PhysicalRangesOverlap source removed) then Some [source]
  else Some
    ((if rbegin source <? rbegin removed then [MkRange (rbegin source) (rbegin removed)] else [])
     ++ (if rend removed <? rend source then [MkRange (rend removed) (rend source)] else [])).

Section PageTypes.
Context `{PagingConstants}.

(** The two [switch] statements: the type is one of the seven enumerators. *)
Definition known_page_type (t : Z) : bool :=
  existsb (Z.eqb t)
    [PGTYPE_default; PGTYPE_writeback; PGTYPE_writethrough; PGTYPE_uncacheable;
     PGTYPE_writecombine; PGTYPE_device; PGTYPE_noncacheable].

(** On x86 a device type is an uncacheable one. *)
Definition x86_type (t : Z) : Z := if t =? PGTYPE_device then PGTYPE_uncacheable else t.

Definition PhysicalPageTypesCompatible (existing_type requested_type : Z) : bool :=
  if negb (known_page_type existing_type) then false
  else if negb (known_page_type requested_type) then false
  else if requested_type =? PGTYPE_default then false
  else if (existing_type =? PGTYPE_default) || (existing_type =? PGTYPE_writeback) then true
  else x86_type existing_type =? x86_type requested_type.

End PageTypes.

(** ** The set a range denotes *)

Definition in_range (r : PhysicalRange) (a : Z) : bool :=
  (rbegin r <=? a) && (a <? rend r).

Definition range_ok (r : PhysicalRange) : Prop :=
  0 <= rbegin r /\ rbegin r < rend r /\ rend r <= UMAX.

Definition range_len (r : PhysicalRange) : Z := rend r - rbegin r.

Definition ranges_disjoint (r s : PhysicalRange) : Prop :=
  rend r <= rbegin s \/ rend s <= rbegin r.

Lemma MakePhysicalRange_Some begin length r :
  0 <= begin -> 0 <= length ->
  MakePhysicalRange begin length = Some r <->
  r = MkRange begin (begin + length) /\ 0 < length /\ begin + length <= UMAX.
Proof.
  intros Hb Hl. unfold MakePhysicalRange, uadd, UMAX. case_match.
  - split; [done|]. intros (_ & ? & ?). lia.
  - split.
    + intros [= <-]. rewrite Z.mod_small by lia. split_and!; [done|lia|lia].
    + intros (-> & ? & ?). rewrite Z.mod_small by lia. done.
Qed.

Lemma MakePhysicalRange_ok begin length r :
  0 <= begin -> 0 <= length ->
  MakePhysicalRange begin length = Some r -> range_ok r /\ range_len r = length.
Proof.
  intros Hb Hl Hr. apply MakePhysicalRange_Some in Hr as (-> & ? & ?); [|done..].
  unfold range_ok, range_len. cbn. lia.
Qed.

Lemma overlap_false r s :
  PhysicalRangesOverlap r s = false <-> ranges_disjoint r s.
Proof. unfold PhysicalRangesOverlap, ranges_disjoint. lia. Qed.

Lemma overlap_sym r s : PhysicalRangesOverlap r s = PhysicalRangesOverlap s r.
Proof. unfold PhysicalRangesOverlap. apply andb_comm. Qed.

Lemma overlap_witness r s :
  range_ok r -> range_ok s ->
  PhysicalRangesOverlap r s = true <-> exists a, in_range r a = true /\ in_range s a = true.
Proof.
  unfold range_ok, PhysicalRangesOverlap, in_range. intros ? ?. split.
  - intros ?. exists (Z.max (rbegin r) (rbegin s)). lia.
  - intros (a & ?). lia.
Qed.

Ltac solve_ranges :=
  repeat case_match; cbn;
  repeat match goal with
  | |- Forall _ [] => by apply Forall_nil
  | |- Forall _ (_ :: _) => apply Forall_cons; split
  | |- ForallOrdPairs _ _ => constructor
  end;
  unfold ranges_disjoint, PhysicalRangeContains, in_range in *; cbn; intros; lia.

(** What the fragments of a subtraction are. *)
Lemma Subtract_Some source removed :
  range_ok source -> range_ok removed ->
  exists frags, SubtractPhysicalRange source removed = Some frags
    /\ (length frags <= 2)%nat
    /\ Forall range_ok frags
    /\ Forall (fun f => PhysicalRangeContains source f = true) frags
    /\ Forall (fun f => ranges_disjoint f removed) frags
    /\ ForallOrdPairs ranges_disjoint frags
    /\ (forall a, existsb (fun f => in_range f a) frags
                  = in_range source a && negb (in_range removed a)).
Proof.
  unfold range_ok. intros Hs Hr. unfold SubtractPhysicalRange.
  rewrite (proj2 (orb_false_iff _ _)) by lia.
  destruct (PhysicalRangesOverlap source removed) eqn:Ho; cbn.
  - unfold PhysicalRangesOverlap in Ho.
    eexists. split; [reflexivity|]. split_and!; solve_ranges.
  - apply overlap_false in Ho.
    eexists. split; [reflexivity|]. split_and!; solve_ranges.
Qed.
