(* ===== verification/Registry.v ===== *)
(** * The physical mapping registry ([mecocoa/memoman-page.cpp])

    [Memory::MapPages] and [Memory::UnmapPages] keep, beside the page tables, a linked list of
    records of what is mapped where.  A map or unmap first validates the request, then counts
    and reserves every list node the change needs, then changes the page table, and only then
    commits the records without allocating.  The registry is the Rocq list of the nodes (their
    own address and their content); a failed [KASSERT] is the value [None]. *)
From S2P Require Import Prelude Interfaces PhysRange.

Record PhysicalMappingRecord := MkRecord {
  paging : Z;
  virtual_range : PhysicalRange;
  physical_range : PhysicalRange;
  rtype : Z;
  permissions : Z;
}.

(** A list node: its address in the pool, and the record stored there. *)
Record RecordNode := MkNode { node_addr : Z; node_rec : PhysicalMappingRecord }.

(** [sizeof(PhysicalMappingRecord)], the [next] pointer included. *)
Definition record_size : Z := 64.

Definition MappingTypeConflicts `{PagingConstants}
  (existing requested : PhysicalMappingRecord) : bool :=
  PhysicalRangesOverlap (physical_range existing) (physical_range requested) &&
  negb (PhysicalPageTypesCompatible (rtype existing) (rtype requested)).

(** Remove a VA range from one record, keeping the matching VA-to-PA fragments. *)
Definition fragment (source : PhysicalMappingRecord) (r : PhysicalRange)
  : option PhysicalMappingRecord :=
  let offset := rbegin r -w rbegin (virtual_range source) in
  let length := rend r -w rbegin r in
  match MakePhysicalRange (rbegin (physical_range source) +w offset) length with
  | None => None
  | Some pr => Some (MkRecord (paging source) r pr (rtype source) (permissions source))
  end.

Definition SplitPhysicalMappingRecord (source : PhysicalMappingRecord) (removed : PhysicalRange)
  : option (list PhysicalMappingRecord) :=
  match SubtractPhysicalRange (virtual_range source) removed with
  | None => None
  | Some ranges => mapM (fragment source) ranges
  end.

(** The record belongs to the page table and meets the range being changed. *)
Definition touched (pg : Z) (removed : PhysicalRange) (e : PhysicalMappingRecord) : bool :=
  (paging e =? pg) && PhysicalRangesOverlap (virtual_range e) removed.

Section Requests.
Context `{PagingConstants}.

Definition NormalizeMapRequest (pg linear_address physical_address length page_size properties : Z)
  : option PhysicalMappingRecord :=
  match NormalizePageProperties properties with
  | None => None
  | Some normalized =>
    if negb (has normalized PGPROP_present) || has normalized PGPROP_weak then None else
    let type := Z.land normalized PGPROP_MASK_TYPE in
    if type =? PGTYPE_default then None else
    if negb (page_size =? PAGESIZE_ANY) && negb (isSupportedSize page_size) then None else
    let shift := if page_size =? PAGESIZE_ANY then PAGESIZE_4KB else page_size in
    if 64 <=? shift then None else
    let mask := Z.shiftl 1 shift - 1 in
    let virtual_offset := Z.land linear_address mask in
    if (page_size =? PAGESIZE_ANY) && negb (virtual_offset =? Z.land physical_address mask)
    then None else
    let linear_address := linear_address -w virtual_offset in
    let physical_address := Z.land physical_address (Z.lnot mask) in
    if UMAX - virtual_offset <? length then None else
    let length := length +w virtual_offset in
    if UMAX - mask <? length then None else
    let length := Z.land (length +w mask) (Z.lnot mask) in
    match MakePhysicalRange linear_address length, MakePhysicalRange physical_address length with
    | Some vr, Some pr =>
        Some (MkRecord pg vr pr type
          (Z.land normalized
            (Z.lor (Z.lor PGPROP_writable PGPROP_user_access)
                   (Z.lor PGPROP_global PGPROP_nonexecutable))))
    | _, _ => None
    end
  end.

Definition NormalizeUnmapRequest (linear_address length : Z) : option PhysicalRange :=
  if length =? 0 then None else
  let mask := Z.shiftl 1 PAGESIZE_4KB - 1 in
  let offset := Z.land linear_address mask in
  let linear_address := linear_address -w offset in
  if UMAX - offset <? length then None else
  let length := length +w offset in
  if UMAX - mask <? length then None else
  let length := Z.land (length +w mask) (Z.lnot mask) in
  MakePhysicalRange linear_address length.

(** The scans of [PrepareMapRecords] and [PrepareUnmapRecords]: the number of nodes the
    commit needs, or a refusal. *)
Fixpoint prepare_map_count (requested : PhysicalMappingRecord) (records : list RecordNode)
  (reserve_count : nat) : option nat :=
  match records with
  | [] => Some reserve_count
  | MkNode _ existing :: rest =>
    if touched (paging requested) (virtual_range requested) existing then
      match SplitPhysicalMappingRecord existing (virtual_range requested) with
      | None => None
      | Some fragments =>
        if existsb (fun f => MappingTypeConflicts f requested) fragments then None
        else prepare_map_count requested rest
               (if (length fragments =? 2)%nat then S reserve_count else reserve_count)
      end
    else if MappingTypeConflicts existing requested then None
    else prepare_map_count requested rest reserve_count
  end.

Fixpoint prepare_unmap_count (pg : Z) (removed : PhysicalRange) (records : list RecordNode)
  (reserve_count : nat) : option nat :=
  match records with
  | [] => Some reserve_count
  | MkNode _ existing :: rest =>
    if negb (touched pg removed existing) then prepare_unmap_count pg removed rest reserve_count
    else
      match SplitPhysicalMappingRecord existing removed with
      | None => None
      | Some fragments =>
        prepare_unmap_count pg removed rest
          (if (length fragments =? 2)%nat then S reserve_count else reserve_count)
      end
  end.

End Requests.

Section Operations.
Context `{PagingConstants} {M : Type} `{!Mempool M} {PT : Type} `{!PageTable PT}.

(** [physical_mapping_records] and the pool its nodes come from. *)
Record Registry := MkRegistry { records : list RecordNode; pool : M }.

Definition AllocatePhysicalMappingRecord (m : M) : option Z * M :=
  let '(memory, m) := mp_allocate m record_size 4 0 in
  if alloc_failed memory then (None, m) else (Some memory, m).

Fixpoint ReleasePhysicalMappingRecords (reserved : list Z) (m : M) : M :=
  match reserved with
  | [] => m
  | a :: rest => ReleasePhysicalMappingRecords rest (mp_deallocate m a record_size).2
  end.

(** [count] nodes chained in front of [acc]; on failure every node is given back. *)
Fixpoint ReservePhysicalMappingRecords (count : nat) (acc : list Z) (m : M)
  : option (list Z) * M :=
  match count with
  | O => (Some acc, m)
  | S count =>
    match AllocatePhysicalMappingRecord m with
    | (None, m) => (None, ReleasePhysicalMappingRecords acc m)
    | (Some a, m) => ReservePhysicalMappingRecords count (a :: acc) m
    end
  end.

Definition PrepareMapRecords (requested : PhysicalMappingRecord) (g : Registry)
  : option (list Z) * Registry :=
  match prepare_map_count requested (records g) 1 with
  | None => (None, g)
  | Some n => let '(r, m) := ReservePhysicalMappingRecords n [] (pool g) in
              (r, MkRegistry (records g) m)
  end.

Definition PrepareUnmapRecords (pg : Z) (removed : PhysicalRange) (g : Registry)
  : option (list Z) * Registry :=
  match prepare_unmap_count pg removed (records g) 0 with
  | None => (None, g)
  | Some n => let '(r, m) := ReservePhysicalMappingRecords n [] (pool g) in
              (r, MkRegistry (records g) m)
  end.

(** The loop both commits run: every touched record is deleted, shortened, or split in two
    with a reserved node for the second half. *)
Fixpoint carve_records (pg : Z) (removed : PhysicalRange) (l : list RecordNode)
  (reserved : list Z) (m : M) : option (list RecordNode * list Z * M) :=
  match l with
  | [] => Some ([], reserved, m)
  | existing :: rest =>
    if negb (touched pg removed (node_rec existing)) then
      '(rest', reserved, m) ← carve_records pg removed rest reserved m;
      Some (existing :: rest', reserved, m)
    else
      fragments ← SplitPhysicalMappingRecord (node_rec existing) removed;
      match fragments with
      | [] => carve_records pg removed rest reserved
                (mp_deallocate m (node_addr existing) record_size).2
      | [f0] =>
        '(rest', reserved, m) ← carve_records pg removed rest reserved m;
        Some (MkNode (node_addr existing) f0 :: rest', reserved, m)
      | f0 :: f1 :: _ =>
        match reserved with
        | [] => None
        | split :: reserved =>
          '(rest', reserved, m) ← carve_records pg removed rest reserved m;
          Some (MkNode (node_addr existing) f0 :: MkNode split f1 :: rest', reserved, m)
        end
      end
  end.

Definition CommitMapRecord (requested : PhysicalMappingRecord) (reserved : list Z) (g : Registry)
  : option Registry :=
  '(l, reserved, m) ←
    carve_records (paging requested) (virtual_range requested) (records g) reserved (pool g);
  match reserved with
  | [added] => Some (MkRegistry (MkNode added requested :: l) m)
  | _ => None
  end.

Definition CommitUnmapRecords (pg : Z) (removed : PhysicalRange) (reserved : list Z)
  (g : Registry) : option Registry :=
  '(l, reserved, m) ← carve_records pg removed (records g) reserved (pool g);
  match reserved with
  | [] => Some (MkRegistry l m)
  | _ => None
  end.

(** [Memory::MapPages] on the page table [pt] whose identity is [pg]. *)
Definition MapPages (pg : Z) (pt : PT)
  (linear_address physical_address length page_size properties : Z) (g : Registry)
  : option (bool * Registry * PT) :=
  if length =? 0 then Some (true, g, pt) else
  match NormalizeMapRequest pg linear_address physical_address length page_size properties with
  | None => Some (false, g, pt)
  | Some requested =>
    match PrepareMapRecords requested g with
    | (None, g) => Some (false, g, pt)
    | (Some reserved, g) =>
      match pt_map pt linear_address physical_address length page_size properties with
      | (false, pt) =>
        Some (false, MkRegistry (records g) (ReleasePhysicalMappingRecords reserved (pool g)), pt)
      | (true, pt) =>
        g ← CommitMapRecord requested reserved g;
        Some (true, g, pt)
      end
    end
  end.

Definition UnmapPages (pg : Z) (pt : PT) (linear_address length : Z) (g : Registry)
  : option (bool * Registry * PT) :=
  if length =? 0 then Some (true, g, pt) else
  match NormalizeUnmapRequest linear_address length with
  | None => Some (false, g, pt)
  | Some removed =>
    match PrepareUnmapRecords pg removed g with
    | (None, g) => Some (false, g, pt)
    | (Some reserved, g) =>
      match pt_unmap pt (rbegin removed) (rend removed -w rbegin removed) with
      | (false, pt) =>
        Some (false, MkRegistry (records g) (ReleasePhysicalMappingRecords reserved (pool g)), pt)
      | (true, pt) =>
        g ← CommitUnmapRecords pg removed reserved g;
        Some (true, g, pt)
      end
    end
  end.

Fixpoint release_paging_nodes (pg : Z) (l : list RecordNode) (m : M) : list RecordNode * M :=
  match l with
  | [] => ([], m)
  | record :: rest =>
    if negb (paging (node_rec record) =? pg) then
      let '(rest', m) := release_paging_nodes pg rest m in (record :: rest', m)
    else release_paging_nodes pg rest (mp_deallocate m (node_addr record) record_size).2
  end.

Definition ReleasePagingMappings (pg : Z) (g : Registry) : Registry :=
  let '(l, m) := release_paging_nodes pg (records g) (pool g) in MkRegistry l m.

End Operations.

Arguments Registry : clear implicits.
Arguments MkRegistry {M}.

(** ** What the registry says

    The abstract content of a registry: for each page table and address, the physical address
    with the memory type and the permissions it was mapped with. *)

Definition translate_rec (e : PhysicalMappingRecord) (pg va : Z) : option (Z * Z * Z) :=
  if (paging e =? pg) && in_range (virtual_range e) va
  then Some (rbegin (physical_range e) + (va - rbegin (virtual_range e)), rtype e, permissions e)
  else None.

Fixpoint translate (l : list RecordNode) (pg va : Z) : option (Z * Z * Z) :=
  match l with
  | [] => None
  | n :: rest =>
    match translate_rec (node_rec n) pg va with
    | Some r => Some r
    | None => translate rest pg va
    end
  end.

Definition rec_ok (e : PhysicalMappingRecord) : Prop :=
  range_ok (virtual_range e) /\ range_ok (physical_range e) /\
  range_len (virtual_range e) = range_len (physical_range e).

(** Two records do not claim the same address of the same page table. *)
Definition rec_apart (e f : PhysicalMappingRecord) : Prop :=
  paging e <> paging f \/ ranges_disjoint (virtual_range e) (virtual_range f).

Definition registry_ok (l : list RecordNode) : Prop :=
  Forall (fun n => rec_ok (node_rec n)) l /\
  ForallOrdPairs (fun n1 n2 => rec_apart (node_rec n1) (node_rec n2)) l.

(** How many touched records a range splits in two. *)
Fixpoint splits (pg : Z) (removed : PhysicalRange) (l : list RecordNode) : nat :=
  match l with
  | [] => 0
  | n :: rest =>
    ((if touched pg removed (node_rec n) then
        match SplitPhysicalMappingRecord (node_rec n) removed with
        | Some [_; _] => 1
        | _ => 0
        end
      else 0) + splits pg removed rest)%nat
  end.

(** [f] is a part of [e]: same page table and attributes, inside it, same translation. *)
Definition rec_part (e f : PhysicalMappingRecord) : Prop :=
  paging f = paging e /\ rtype f = rtype e /\ permissions f = permissions e /\
  PhysicalRangeContains (virtual_range e) (virtual_range f) = true /\
  rbegin (physical_range f) - rbegin (virtual_range f)
    = rbegin (physical_range e) - rbegin (virtual_range e).

(** ** Splitting one record *)

Lemma fragment_ok e r :
  rec_ok e -> range_ok r -> PhysicalRangeContains (virtual_range e) r = true ->
  exists f, fragment e r = Some f /\ rec_ok f /\ virtual_range f = r /\ rec_part e f.
Proof.
  intros (Hv & Hp & Hl) Hr Hc.
  unfold range_ok, range_len, PhysicalRangeContains, UMAX in *.
  unfold fragment. rewrite usub_small, (usub_small (rend r)), uadd_small by lia.
  set (pb := rbegin (physical_range e) + (rbegin r - rbegin (virtual_range e))).
  assert (MakePhysicalRange pb (rend r - rbegin r)
          = Some (MkRange pb (pb + (rend r - rbegin r)))) as ->.
  { apply MakePhysicalRange_Some; unfold pb, UMAX; [lia|lia|]. split_and!; [done|lia|lia]. }
  eexists. split; [done|]. unfold rec_ok, rec_part, range_ok, range_len, UMAX, pb,
    PhysicalRangeContains. cbn. split_and!; try done; lia.
Qed.

Lemma translate_rec_part e f pg va :
  rec_part e f ->
  translate_rec f pg va = if in_range (virtual_range f) va then translate_rec e pg va else None.
Proof.
  intros (Hpg & Ht & Hpm & Hc & Ho).
  unfold translate_rec, PhysicalRangeContains, in_range in *. rewrite Hpg, Ht, Hpm.
  destruct (paging e =? pg); cbn; [|by case_match].
  repeat case_match; try done; try lia. do 3 f_equal. lia.
Qed.

Lemma fragments_ok e rs :
  rec_ok e -> Forall range_ok rs ->
  Forall (fun r => PhysicalRangeContains (virtual_range e) r = true) rs ->
  exists fs, mapM (fragment e) rs = Some fs /\ virtual_range <$> fs = rs /\
    Forall rec_ok fs /\ Forall (rec_part e) fs.
Proof.
  intros He Hrs Hcs. induction rs as [|r rs IH]; [by exists []|].
  apply Forall_cons in Hrs as [Hr Hrs]. apply Forall_cons in Hcs as [Hc Hcs].
  destruct (IH Hrs Hcs) as (fs & Hm & Hv & Hok & Hpart).
  destruct (fragment_ok e r He Hr Hc) as (f & Hf & ? & ? & ?).
  exists (f :: fs). cbn. rewrite Hf. cbn. rewrite Hm. cbn. split_and!; [done| |by constructor..].
  by f_equal.
Qed.

Lemma Split_ok e removed :
  rec_ok e -> range_ok removed ->
  exists fs, SplitPhysicalMappingRecord e removed = Some fs
    /\ (length fs <= 2)%nat
    /\ Forall rec_ok fs /\ Forall (rec_part e) fs
    /\ Forall (fun f => ranges_disjoint (virtual_range f) removed) fs
    /\ ForallOrdPairs (fun f g => ranges_disjoint (virtual_range f) (virtual_range g)) fs
    /\ (forall va, existsb (fun f => in_range (virtual_range f) va) fs
                   = in_range (virtual_range e) va && negb (in_range removed va)).
Proof.
  intros He Hr.
  destruct (Subtract_Some (virtual_range e) removed) as (rs & Hs & Hlen & Hok & Hc & Hd & Hod & Hin);
    [apply He|done|].
  destruct (fragments_ok e rs He Hok Hc) as (fs & Hm & Hv & Hfok & Hpart).
  exists fs. unfold SplitPhysicalMappingRecord. rewrite Hs.
  rewrite <- Hv, length_fmap in Hlen. rewrite <- Hv, Forall_fmap in Hd.
  split_and!; try done.
  - rewrite <- Hv in Hod. clear -Hod. induction fs as [|f fs IH]; [constructor|].
    rewrite fmap_cons in Hod. inversion Hod as [|? ? Hf Hfs]; subst.
    constructor; [rewrite Forall_fmap in Hf; exact Hf|by apply IH].
  - intros va. rewrite <- Hin, <- Hv. clear. induction fs; cbn; [done|]. by rewrite IHfs.
Qed.

(** ** The commit loop *)

Lemma translate_app l1 l2 pg va :
  translate (l1 ++ l2) pg va =
  match translate l1 pg va with Some r => Some r | None => translate l2 pg va end.
Proof. induction l1 as [|n l1 IH]; cbn; [done|]. destruct (translate_rec (node_rec n) pg va); done. Qed.

(** First match over the parts of one record. *)
Lemma translate_parts e ns pg va :
  Forall (rec_part e) (node_rec <$> ns) ->
  translate ns pg va =
    if existsb (fun f => in_range (virtual_range f) va) (node_rec <$> ns)
    then translate_rec e pg va else None.
Proof.
  induction ns as [|n ns IH]; intros Hp; cbn; [done|].
  apply Forall_cons in Hp as [Hn Hp].
  rewrite (translate_rec_part e) by done. specialize (IH Hp). rewrite IH.
  destruct (in_range (virtual_range (node_rec n)) va); cbn; [|by repeat case_match].
  destruct (translate_rec e pg va); [done|by case_match].
Qed.

Section Carve.
Context {M : Type} `{!Mempool M}.

(** With enough reserved nodes the loop never trips an assertion, and uses exactly one node
    per split record. *)
Lemma carve_total pg removed l reserved (m : M) :
  Forall (fun n => rec_ok (node_rec n)) l -> range_ok removed ->
  (splits pg removed l <= length reserved)%nat ->
  exists l' m', carve_records pg removed l reserved m
    = Some (l', drop (splits pg removed l) reserved, m').
Proof.
  intros Hok Hr. revert reserved m.
  induction l as [|n l IH]; intros reserved m Hlen; cbn in *; [by eauto|].
  apply Forall_cons in Hok as [Hn Hok]. specialize (IH Hok).
  destruct (touched pg removed (node_rec n)); cbn in *.
  - destruct (Split_ok (node_rec n) removed Hn Hr) as (fs & Hs & Hf & _). rewrite Hs in *. cbn.
    destruct fs as [|f0 [|f1 [|]]]; cbn in *; [apply IH; done| | |lia].
    + destruct (IH reserved m Hlen) as (l' & m' & ->). cbn. eauto.
    + destruct reserved as [|a reserved]; cbn in *; [lia|].
      destruct (IH reserved m) as (l' & m' & ->); [lia|]. cbn. eauto.
  - destruct (IH reserved m Hlen) as (l' & m' & ->). cbn. eauto.
Qed.

(** Every case of one step of the loop, as a decomposition of the result. *)
Lemma carve_cons pg removed n l reserved (m : M) l1 r1 m1 :
  rec_ok (node_rec n) -> range_ok removed ->
  carve_records pg removed (n :: l) reserved m = Some (l1, r1, m1) ->
  exists ns l2 r2 m2, l1 = ns ++ l2 /\ carve_records pg removed l r2 m2 = Some (l2, r1, m1) /\
    Forall (rec_part (node_rec n)) (node_rec <$> ns) /\
    Forall rec_ok (node_rec <$> ns) /\
    ForallOrdPairs (fun n1 n2 => rec_apart (node_rec n1) (node_rec n2)) ns /\
    (forall va, existsb (fun f => in_range (virtual_range f) va) (node_rec <$> ns)
      = in_range (virtual_range (node_rec n)) va
        && negb ((paging (node_rec n) =? pg) && in_range removed va)).
Proof.
  intros Hn Hr Hc. cbn in Hc.
  destruct (touched pg removed (node_rec n)) eqn:Ht; cbn in Hc.
  - destruct (Split_ok (node_rec n) removed Hn Hr) as (fs & Hs & Hf & Hok & Hp & _ & Hod & Hin).
    rewrite Hs in Hc. cbn in Hc. unfold touched in Ht. apply andb_true_iff in Ht as [Hpg _].
    rewrite Hpg. cbn.
    destruct fs as [|f0 [|f1 [|]]]; cbn in Hf; [| | |lia].
    + exists [], l1, reserved, (mp_deallocate m (node_addr n) record_size).2.
      split_and!; try done; try constructor.
    + destruct (carve_records _ _ l _ _) as [[[l2 r2] m2]|] eqn:E; simplify_eq/=.
      exists [MkNode (node_addr n) f0], l2, reserved, m. split_and!; try done. by repeat constructor.
    + destruct reserved as [|a reserved]; [done|].
      destruct (carve_records _ _ l _ _) as [[[l2 r2] m2]|] eqn:E; simplify_eq/=.
      exists [MkNode (node_addr n) f0; MkNode a f1], l2, reserved, m.
      split_and!; try done.
      constructor; [constructor; [|constructor]|by repeat constructor].
      right. inversion Hod as [|? ? Hfa _]. by inversion Hfa.
  - destruct (carve_records _ _ l _ _) as [[[l2 r2] m2]|] eqn:E; simplify_eq/=.
    exists [n], l2, reserved, m. split_and!; try done.
    + repeat constructor; unfold PhysicalRangeContains; lia.
    + by apply Forall_singleton.
    + by repeat constructor.
    + intros va. cbn. unfold touched, PhysicalRangesOverlap, in_range in *.
      destruct (paging (node_rec n) =? pg); cbn in *; lia.
Qed.

Lemma carve_translate pg removed l reserved (m : M) l' r' m' :
  Forall (fun n => rec_ok (node_rec n)) l -> range_ok removed ->
  carve_records pg removed l reserved m = Some (l', r', m') ->
  forall pg' va, translate l' pg' va =
    if (pg' =? pg) && in_range removed va then None else translate l pg' va.
Proof.
  intros Hok Hr. revert reserved m l'.
  induction l as [|n l IH]; intros reserved m l' Hc pg' va.
  { cbn in Hc. simplify_eq/=. by case_match. }
  apply Forall_cons in Hok as [Hn Hok].
  apply carve_cons in Hc as (ns & l2 & r2 & m2 & -> & Hc & Hp & _ & _ & Hin); [|done..].
  rewrite translate_app, (IH Hok _ _ _ Hc), (translate_parts (node_rec n)) by done.
  rewrite Hin. cbn. unfold translate_rec.
  destruct (paging (node_rec n) =? pg) eqn:E1, (paging (node_rec n) =? pg') eqn:E2,
    (pg' =? pg) eqn:E3, (in_range removed va), (in_range (virtual_range (node_rec n)) va);
    cbn; try done; lia.
Qed.

(** What a commit keeps is made of parts of the old records. *)
Lemma carve_parts pg removed l reserved (m : M) l' r' m' :
  Forall (fun n => rec_ok (node_rec n)) l -> range_ok removed ->
  carve_records pg removed l reserved m = Some (l', r', m') ->
  Forall (fun n' => exists n, n ∈ l /\ rec_part (node_rec n) (node_rec n')) l'.
Proof.
  intros Hok Hr. revert reserved m l'.
  induction l as [|n l IH]; intros reserved m l' Hc; [cbn in Hc; by simplify_eq/=|].
  apply Forall_cons in Hok as [Hn Hok].
  apply carve_cons in Hc as (ns & l2 & r2 & m2 & -> & Hc & Hp & _); [|done..].
  apply Forall_app. split.
  - rewrite Forall_fmap in Hp. eapply Forall_impl; [exact Hp|]. intros n' ?.
    exists n. split; [by left|done].
  - eapply Forall_impl; [exact (IH Hok _ _ _ Hc)|]. intros n' (n0 & ? & ?).
    exists n0. split; [by right|done].
Qed.

Lemma rec_apart_part e e' f f' :
  rec_part e e' -> rec_part f f' -> rec_apart e f -> rec_apart e' f'.
Proof.
  intros (He & _ & _ & Hce & _) (Hf & _ & _ & Hcf & _) [?|?]; [left; congruence|right].
  unfold PhysicalRangeContains, ranges_disjoint in *. lia.
Qed.

Lemma carve_ok pg removed l reserved (m : M) l' r' m' :
  registry_ok l -> range_ok removed ->
  carve_records pg removed l reserved m = Some (l', r', m') -> registry_ok l'.
Proof.
  intros [Hok Hd] Hr. revert reserved m l'.
  induction Hd as [|n l Hn Hd IH]; intros reserved m l' Hc.
  { cbn in Hc. simplify_eq/=. split; constructor. }
  apply Forall_cons in Hok as [Hok0 Hok].
  apply carve_cons in Hc as (ns & l2 & r2 & m2 & -> & Hc & Hp & Hnok & Hnd & _); [|done..].
  destruct (IH Hok _ _ _ Hc) as [Hok2 Hd2].
  pose proof (carve_parts _ _ _ _ _ _ _ _ Hok Hr Hc) as Hparts.
  rewrite Forall_fmap in Hp, Hnok. split.
  - apply Forall_app. split; done.
  - apply ForallOrdPairs_app; [done|done|]. intros x y Hx Hy.
    rewrite Forall_forall in Hp, Hparts, Hn.
    destruct (Hparts y Hy) as (y0 & Hy0 & Hpy).
    eapply rec_apart_part; [apply (Hp x Hx)|exact Hpy|by apply Hn].
Qed.

(** After the loop nothing of the page table is left inside the removed range. *)
Lemma carve_clear pg removed l reserved (m : M) l' r' m' :
  Forall (fun n => rec_ok (node_rec n)) l -> range_ok removed ->
  carve_records pg removed l reserved m = Some (l', r', m') ->
  Forall (fun n => touched pg removed (node_rec n) = false) l'.
Proof.
  intros Hok Hr Hc.
  pose proof (carve_translate _ _ _ _ _ _ _ _ Hok Hr Hc) as Ht.
  assert (Forall (fun n => rec_ok (node_rec n)) l') as Hok'.
  { clear Ht. revert reserved m l' Hc. induction l as [|n l IH]; intros reserved m l' Hc.
    - cbn in Hc. by simplify_eq/=.
    - apply Forall_cons in Hok as [Hn Hok].
      apply carve_cons in Hc as (ns & l2 & r2 & m2 & -> & Hc & _ & Hnok & _); [|done..].
      apply Forall_app. split; [by rewrite Forall_fmap in Hnok|]. by eapply IH. }
  apply Forall_forall. intros n Hin. apply not_true_iff_false. intros Htch.
  unfold touched in Htch. apply andb_true_iff in Htch as [Hpg Ho].
  rewrite Forall_forall in Hok'. pose proof (Hok' n Hin) as (Hnv & _).
  apply overlap_witness in Ho as (va & Hv1 & Hv2); [|done..].
  specialize (Ht pg va). rewrite Z.eqb_refl, Hv2 in Ht. cbn in Ht.
  clear -Ht Hin Hpg Hv1. induction l' as [|k l' IH]; [by apply not_elem_of_nil in Hin|].
  cbn in Ht. apply elem_of_cons in Hin as [->|Hin].
  - unfold translate_rec in Ht. by rewrite Hpg, Hv1 in Ht.
  - apply IH; [|done]. by case_match.
Qed.

End Carve.

(** ** Requests and reservations *)

Section RequestFacts.
Context `{PagingConstants}.

Lemma prepare_map_splits requested l c n :
  prepare_map_count requested l c = Some n ->
  n = (c + splits (paging requested) (virtual_range requested) l)%nat.
Proof.
  revert c. induction l as [|[a e] l IH]; intros c; cbn; [intros [= ->]; lia|].
  destruct (touched _ _ e).
  - destruct (SplitPhysicalMappingRecord e _) as [fs|]; [|done].
    case_match; [done|]. intros Hn%IH. rewrite Hn.
    destruct fs as [|? [|? [|]]]; cbn; lia.
  - case_match; [done|]. intros ->%IH. lia.
Qed.

Lemma prepare_unmap_splits pg removed l c n :
  prepare_unmap_count pg removed l c = Some n -> n = (c + splits pg removed l)%nat.
Proof.
  revert c. induction l as [|[a e] l IH]; intros c; cbn; [intros [= ->]; lia|].
  destruct (touched _ _ e); cbn.
  - destruct (SplitPhysicalMappingRecord e _) as [fs|]; [|done].
    intros Hn%IH. rewrite Hn. destruct fs as [|? [|? [|]]]; cbn; lia.
  - intros ->%IH. lia.
Qed.

Lemma round_up_facts linear length k :
  is_u64 linear -> is_u64 length -> 0 <= k < 64 ->
  let mask := Z.shiftl 1 k - 1 in
  let off := Z.land linear mask in
  (UMAX - off <? length) = false ->
  (UMAX - mask <? (length +w off)) = false ->
  let len := Z.land ((length +w off) +w mask) (Z.lnot mask) in
  off = linear mod 2 ^ k /\ (linear -w off) = linear - linear mod 2 ^ k /\
  length + off <= len < length + off + 2 ^ k /\ len mod 2 ^ k = 0 /\ 0 <= len <= UMAX.
Proof.
  intros Hl Hn Hk. cbv zeta. rewrite Z.shiftl_mul_pow2, Z.mul_1_l by lia.
  rewrite land_mask, land_lnot_mask by lia.
  assert (0 < 2 ^ k) as Hp by (apply Z.pow_pos_nonneg; lia).
  assert (2 ^ k < two64) as Hp2 by (apply (Z.pow_lt_mono_r 2 k 64); lia).
  assert (0 <= linear mod 2 ^ k < 2 ^ k) by (apply Z.mod_pos_bound; lia).
  assert (linear mod 2 ^ k <= linear) by (apply Z.mod_le; unfold is_u64 in *; lia).
  unfold is_u64, UMAX in *. intros Hg1 Hg2.
  rewrite (uadd_small length) in * by lia. rewrite uadd_small, usub_small by lia.
  set (t := length + linear mod 2 ^ k + (2 ^ k - 1)).
  assert (0 <= t mod 2 ^ k < 2 ^ k) by (apply Z.mod_pos_bound; lia).
  assert ((t - t mod 2 ^ k) mod 2 ^ k = 0).
  { rewrite Zminus_mod_idemp_r, Z.sub_diag. apply Z.mod_0_l. lia. }
  assert (t mod 2 ^ k <= t) by (apply Z.mod_le; lia).
  split_and!; try done; lia.
Qed.

Lemma NormalizeMapRequest_ok `{!PageShiftLaws} pg va pa len size props r :
  is_u64 va -> is_u64 pa -> is_u64 len -> 0 <= size ->
  NormalizeMapRequest pg va pa len size props = Some r ->
  paging r = pg /\ rec_ok r /\ rtype r <> PGTYPE_default /\
  rbegin (virtual_range r) <= va /\ va + len <= rend (virtual_range r) /\
  (size = PAGESIZE_ANY ->
     rbegin (physical_range r) - rbegin (virtual_range r) = pa - va /\
     rbegin (virtual_range r) = va - va mod 4096 /\
     rend (virtual_range r) < va + len + 4096 /\ rend (virtual_range r) mod 4096 = 0).
Proof.
  intros Hva Hpa Hlen Hsize. unfold NormalizeMapRequest.
  destruct (NormalizePageProperties props) as [p|]; [|done].
  case_match; [done|]. case_match eqn:Hty; [done|]. case_match; [done|].
  set (shift := if size =? PAGESIZE_ANY then PAGESIZE_4KB else size).
  case_match eqn:Hsh; [done|]. case_match eqn:Hoff; [done|].
  case_match eqn:Hg1; [done|]. case_match eqn:Hg2; [done|].
  assert (0 <= shift < 64) as Hk.
  { split; [|lia]. unfold shift. case_match; [|done]. rewrite pagesize_4kb_shift. lia. }
  pose proof (round_up_facts va len shift Hva Hlen Hk Hg1 Hg2) as (Ho & -> & Hr1 & Hr2 & Hr3).
  case_match eqn:Hm1; [|done]. case_match eqn:Hm2; [|done].
  intros [= <-]. cbn.
  rewrite Z.shiftl_mul_pow2, Z.mul_1_l in Hm1, Hm2, Hoff, Hr1, Hr2, Hr3, Ho by lia.
  rewrite land_lnot_mask in Hm2 by lia.
  assert (0 < 2 ^ shift) as Hp by (apply Z.pow_pos_nonneg; lia).
  assert (0 <= va mod 2 ^ shift <= va) by
    (split; [apply Z.mod_pos_bound|apply Z.mod_le]; unfold is_u64 in *; lia).
  assert (0 <= pa mod 2 ^ shift <= pa) by
    (split; [apply Z.mod_pos_bound|apply Z.mod_le]; unfold is_u64 in *; lia).
  pose proof Hm1 as Hok1. apply MakePhysicalRange_ok in Hok1 as [Hv1 Hv2]; [|lia..].
  pose proof Hm2 as Hok2. apply MakePhysicalRange_ok in Hok2 as [Hp1 Hp2]; [|lia..].
  apply MakePhysicalRange_Some in Hm1 as (-> & ? & ?); [|lia..].
  apply MakePhysicalRange_Some in Hm2 as (-> & ? & ?); [|lia..].
  cbn in *. rewrite Ho in *.
  split; [done|]. split; [unfold rec_ok; cbn; split_and!; [done|done|congruence]|].
  do 3 (split; [lia|]).
  - intros ->. rewrite Z.eqb_refl in *. cbn in Hoff. rewrite land_mask in Hoff by lia.
    split; [lia|].
    assert (shift = 12) as Hs12 by (unfold shift; rewrite Z.eqb_refl; apply pagesize_4kb_shift).
    clearbody shift. subst shift. change (2 ^ 12) with 4096 in *. lia.
Qed.

Lemma NormalizeUnmapRequest_ok `{!PageShiftLaws} va len r :
  is_u64 va -> is_u64 len -> NormalizeUnmapRequest va len = Some r ->
  range_ok r /\ rbegin r = va - va mod 4096 /\
  va + len <= rend r < va + len + 4096 /\ rend r mod 4096 = 0.
Proof.
  intros Hva Hlen. unfold NormalizeUnmapRequest. rewrite pagesize_4kb_shift.
  case_match; [done|]. case_match eqn:Hg1; [done|]. case_match eqn:Hg2; [done|].
  pose proof (round_up_facts va len 12 Hva Hlen ltac:(lia) Hg1 Hg2) as (Ho & -> & Hr1 & Hr2 & Hr3).
  cbv zeta in *. unfold is_u64 in *. change (2 ^ 12) with 4096 in *.
  intros Hm. apply MakePhysicalRange_Some in Hm as (-> & ? & ?); [|lia..].
  unfold range_ok. cbn. rewrite Ho in *. lia.
Qed.

Section Pool.
Context {M : Type} `{!Mempool M}.

Lemma Reserve_length n acc (m : M) res m' :
  ReservePhysicalMappingRecords n acc m = (Some res, m') -> length res = (n + length acc)%nat.
Proof.
  revert acc m. induction n as [|n IH]; intros acc m; cbn; [by intros [= -> ->]|].
  destruct (AllocatePhysicalMappingRecord m) as [[a|] m1]; [|done].
  intros ->%IH. cbn. lia.
Qed.

Lemma PrepareMap_spec requested (g g' : Registry M) res :
  PrepareMapRecords requested g = (Some res, g') ->
  records g' = records g /\
  prepare_map_count requested (records g) 1 = Some (length res) /\
  length res = S (splits (paging requested) (virtual_range requested) (records g)).
Proof.
  unfold PrepareMapRecords. case_match eqn:Hn; [|done].
  destruct (ReservePhysicalMappingRecords n [] (pool g)) as [r m'] eqn:Hres.
  intros [= -> <-]. apply Reserve_length in Hres. cbn in *.
  rewrite Nat.add_0_r in Hres. rewrite Hres. split_and!; [done|done|].
  by apply prepare_map_splits in Hn.
Qed.

Lemma PrepareMap_fail requested (g g' : Registry M) :
  PrepareMapRecords requested g = (None, g') -> records g' = records g.
Proof. unfold PrepareMapRecords. repeat case_match; intros; by simplify_eq. Qed.

Lemma PrepareUnmap_spec pg removed (g g' : Registry M) res :
  PrepareUnmapRecords pg removed g = (Some res, g') ->
  records g' = records g /\ length res = splits pg removed (records g).
Proof.
  unfold PrepareUnmapRecords. case_match eqn:Hn; [|done].
  destruct (ReservePhysicalMappingRecords n [] (pool g)) as [r m'] eqn:Hres.
  intros [= -> <-]. apply Reserve_length in Hres. cbn in *.
  apply prepare_unmap_splits in Hn. split; [done|lia].
Qed.

Lemma PrepareUnmap_fail pg removed (g g' : Registry M) :
  PrepareUnmapRecords pg removed g = (None, g') -> records g' = records g.
Proof. unfold PrepareUnmapRecords. repeat case_match; intros; by simplify_eq. Qed.

(** The commit of a prepared map succeeds; the new record is in front of the carved list. *)
Lemma CommitMap_total requested (g : Registry M) res :
  Forall (fun n => rec_ok (node_rec n)) (records g) -> range_ok (virtual_range requested) ->
  length res = S (splits (paging requested) (virtual_range requested) (records g)) ->
  exists added l m', CommitMapRecord requested res g
      = Some (MkRegistry (MkNode added requested :: l) m') /\
    carve_records (paging requested) (virtual_range requested) (records g) res (pool g)
      = Some (l, [added], m').
Proof.
  intros Hok Hr Hlen.
  destruct (carve_total (paging requested) (virtual_range requested) (records g) res (pool g))
    as (l & m' & Hc); [done|done|lia|].
  set (k := splits (paging requested) (virtual_range requested) (records g)) in *.
  assert (exists added, drop k res = [added]) as (added & Hd).
  { assert (length (drop k res) = 1%nat) as Hd1 by (rewrite length_drop; lia).
    destruct (drop k res) as [|x [|]]; [done|by exists x|done]. }
  exists added, l, m'. unfold CommitMapRecord. rewrite Hc, Hd. done.
Qed.

Lemma CommitUnmap_total pg removed (g : Registry M) res :
  Forall (fun n => rec_ok (node_rec n)) (records g) -> range_ok removed ->
  length res = splits pg removed (records g) ->
  exists l m', CommitUnmapRecords pg removed res g = Some (MkRegistry l m') /\
    carve_records pg removed (records g) res (pool g) = Some (l, [], m').
Proof.
  intros Hok Hr Hlen.
  destruct (carve_total pg removed (records g) res (pool g)) as (l & m' & Hc); [done|done|lia|].
  rewrite <- Hlen, drop_ge in Hc by lia.
  exists l, m'. unfold CommitUnmapRecords. rewrite Hc. done.
Qed.

Lemma commit_registry_ok requested l :
  rec_ok requested -> registry_ok l ->
  Forall (fun n => touched (paging requested) (virtual_range requested) (node_rec n) = false) l ->
  forall a, registry_ok (MkNode a requested :: l).
Proof.
  intros Hr [Hok Hd] Hcl a. split; [by constructor|]. constructor; [|done].
  eapply Forall_impl; [exact Hcl|]. intros n Hn. cbn. unfold touched in Hn.
  apply andb_false_iff in Hn as [Hn|Hn]; [left; lia|right].
  rewrite overlap_sym in Hn. by apply overlap_false.
Qed.

(** The records a prepared map keeps do not conflict in memory type with the new one. *)
Lemma carve_no_conflict requested l reserved (m : M) c n l' r' m' :
  Forall (fun k => rec_ok (node_rec k)) l -> range_ok (virtual_range requested) ->
  prepare_map_count requested l c = Some n ->
  carve_records (paging requested) (virtual_range requested) l reserved m = Some (l', r', m') ->
  Forall (fun k => MappingTypeConflicts (node_rec k) requested = false) l'.
Proof.
  intros Hok Hr. revert c reserved m l'.
  induction l as [|[a e] l IH]; intros c reserved m l' Hp Hc; cbn in Hp, Hc; [by simplify_eq|].
  apply Forall_cons in Hok as [He Hok]. cbn in He.
  destruct (touched (paging requested) (virtual_range requested) e); cbn in Hc.
  - destruct (SplitPhysicalMappingRecord e _) as [fs|]; [|done]. cbn in Hc.
    destruct (existsb _ fs) eqn:Hex; [done|].
    destruct fs as [|f0 [|f1 fs]]; cbn in Hex; cbn in Hc.
    + eapply IH; eauto.
    + destruct (carve_records _ _ l _ _) as [[[l2 r2] m2]|] eqn:E; simplify_eq/=.
      constructor; [apply orb_false_iff in Hex; apply Hex|]. eapply IH; eauto.
    + destruct reserved as [|s reserved]; [done|].
      destruct (carve_records _ _ l _ _) as [[[l2 r2] m2]|] eqn:E; simplify_eq/=.
      apply orb_false_iff in Hex as [? Hex]. apply orb_false_iff in Hex as [? _].
      do 2 (constructor; [done|]). eapply IH; eauto.
  - destruct (MappingTypeConflicts e requested) eqn:Hcf; [done|].
    destruct (carve_records _ _ l _ _) as [[[l2 r2] m2]|] eqn:E; simplify_eq/=.
    constructor; [done|]. eapply IH; eauto.
Qed.

End Pool.
End RequestFacts.

(** ** Properties of the map and unmap operations *)

Section Properties.
Context `{PagingConstants} `{!PageShiftLaws} {M : Type} `{!Mempool M} {PT : Type} `{!PageTable PT}.

(** The shape of every run of [MapPages] on a well-formed registry. *)
Lemma MapPages_cases pg (pt : PT) va pa len size props (g : Registry M) :
  registry_ok (records g) -> is_u64 va -> is_u64 pa -> is_u64 len -> 0 <= size ->
  exists b g' pt', MapPages pg pt va pa len size props g = Some (b, g', pt') /\
    (len = 0 /\ b = true /\ g' = g \/
     b = false /\ records g' = records g \/
     len <> 0 /\ b = true /\ exists requested added l m1 m2 res,
       NormalizeMapRequest pg va pa len size props = Some requested /\
       prepare_map_count requested (records g) 1 = Some (length res) /\
       carve_records pg (virtual_range requested) (records g) res m1 = Some (l, [added], m2) /\
       records g' = MkNode added requested :: l).
Proof.
  intros Hok Hva Hpa Hlen Hsz. unfold MapPages.
  case_match eqn:Hz; [do 3 eexists; split; [done|]; left; split_and!; [lia|done..]|].
  destruct (NormalizeMapRequest pg va pa len size props) as [req|] eqn:Hn;
    [|do 3 eexists; split; [done|]; right; left; done].
  destruct (NormalizeMapRequest_ok _ _ _ _ _ _ _ Hva Hpa Hlen Hsz Hn)
    as (Hpg & (Hv & Hrest) & _).
  destruct (PrepareMapRecords req g) as [[res|] g1] eqn:Hp.
  2:{ do 3 eexists. split; [done|]. right; left. split; [done|]. by eapply PrepareMap_fail. }
  apply PrepareMap_spec in Hp as (Hg1 & Hcnt & Hl).
  destruct (pt_map pt va pa len size props) as [[] pt'].
  - destruct (CommitMap_total req g1 res) as (added & l & m2 & -> & Hc).
    { rewrite Hg1. apply Hok. } { done. } { by rewrite Hg1. }
    cbn. do 3 eexists. split; [done|]. right; right. split_and!; [lia|done|].
    rewrite Hpg, Hg1 in Hc. exists req, added, l, (pool g1), m2, res. done.
  - do 3 eexists. split; [done|]. right; left. split; done.
Qed.

Lemma MapPages_ok pg (pt pt' : PT) va pa len size props b (g g' : Registry M) :
  registry_ok (records g) -> is_u64 va -> is_u64 pa -> is_u64 len -> 0 <= size ->
  MapPages pg pt va pa len size props g = Some (b, g', pt') -> registry_ok (records g').
Proof.
  intros Hok Hva Hpa Hlen Hsz Hm.
  destruct (MapPages_cases pg pt va pa len size props g) as (b1 & g1 & pt1 & Hm1 & Hc); [done..|].
  rewrite Hm in Hm1. simplify_eq.
  destruct Hc as [(_ & -> & ->)|[(-> & ->)|(_ & -> & req & ad & l & m1 & m2 & res & Hn & Hp & Hcv & ->)]];
    [done|done|].
  destruct (NormalizeMapRequest_ok _ _ _ _ _ _ _ Hva Hpa Hlen Hsz Hn) as (<- & Hrok & _).
  apply commit_registry_ok; [done|by eapply carve_ok; [| |exact Hcv]; [|apply Hrok]|].
  eapply carve_clear; [apply Hok|apply Hrok|exact Hcv].
Qed.

(** Once a map request has been prepared, committing it cannot fail: on a well-formed
    registry [Memory::MapPages] never reaches a failed assertion, whatever the pool and the
    page table answer, and the registry it leaves is well formed again (every record is a
    non-empty range without overflow, with equally long virtual and physical sides, and no two
    records claim the same virtual address of one page table). *)
Theorem MapPages_total_and_ok pg (pt : PT) va pa len size props (g : Registry M) :
  registry_ok (records g) -> is_u64 va -> is_u64 pa -> is_u64 len -> 0 <= size ->
  exists b g' pt', MapPages pg pt va pa len size props g = Some (b, g', pt') /\
    registry_ok (records g') /\ (b = false -> records g' = records g).
Proof.
  intros Hok Hva Hpa Hlen Hsz.
  destruct (MapPages_cases pg pt va pa len size props g) as (b & g' & pt' & Hm & Hc); [done..|].
  exists b, g', pt'. split_and!; [done|by eapply MapPages_ok; [..|exact Hm]|].
  intros ->. by destruct Hc as [(_ & ? & _)|[(_ & ?)|(_ & ? & _)]].
Qed.

Lemma MapPages_translate_any pg (pt : PT) va pa len props (g g' : Registry M) pt' :
  registry_ok (records g) -> is_u64 va -> is_u64 pa -> is_u64 len -> 0 <= PAGESIZE_ANY ->
  len <> 0 ->
  MapPages pg pt va pa len PAGESIZE_ANY props g = Some (true, g', pt') ->
  exists requested,
    NormalizeMapRequest pg va pa len PAGESIZE_ANY props = Some requested /\
    rbegin (virtual_range requested) = va - va mod 4096 /\
    va + len <= rend (virtual_range requested) < va + len + 4096 /\
    rend (virtual_range requested) mod 4096 = 0 /\
    (forall a, va <= a < va + len ->
       translate (records g') pg a = Some (pa + (a - va), rtype requested, permissions requested)) /\
    (forall pg' a, (pg' <> pg \/ in_range (virtual_range requested) a = false) ->
       translate (records g') pg' a = translate (records g) pg' a).
Proof.
  intros Hok Hva Hpa Hlen Hsz Hne Hm.
  destruct (MapPages_cases pg pt va pa len PAGESIZE_ANY props g)
    as (b & g1 & pt1 & Hm1 & Hc); [done..|]. rewrite Hm in Hm1. simplify_eq.
  destruct Hc as [(? & _)|[(? & _)|(_ & _ & req & ad & l & m1 & m2 & res & Hn & Hp & Hcv & Hg)]];
    [done|done|].
  exists req. split; [done|]. rewrite Hg.
  destruct (NormalizeMapRequest_ok _ _ _ _ _ _ _ Hva Hpa Hlen Hsz Hn)
    as (Hpg & (Hrok & _) & _ & Hb & He & Hd).
  pose proof (carve_translate _ _ _ _ _ _ _ _ (proj1 Hok) Hrok Hcv) as Ht. cbn.
  destruct (Hd eq_refl) as (Hd1 & Hd2 & Hd3 & Hd4). do 3 (split; [done || lia|]). split.
  - intros a Ha. unfold translate_rec. rewrite Hpg, Z.eqb_refl.
    assert (in_range (virtual_range req) a = true) as -> by (unfold in_range; lia). cbn.
    do 3 f_equal. lia.
  - intros pg' a Ha. unfold translate_rec. rewrite Hpg, Ht.
    destruct (in_range (virtual_range req) a), (pg =? pg') eqn:E1, (pg' =? pg) eqn:E2;
      cbn; try done; destruct Ha; try done; lia.
Qed.


(** A successful [Memory::MapPages] never leaves two records for overlapping physical
    memory whose page types conflict: every record kept beside the new one is either physically
    apart from it or of a type compatible with the requested one. *)
Theorem MapPages_types_compatible pg (pt : PT) va pa len size props (g g' : Registry M) pt' :
  registry_ok (records g) -> is_u64 va -> is_u64 pa -> is_u64 len -> 0 <= size -> len <> 0 ->
  MapPages pg pt va pa len size props g = Some (true, g', pt') ->
  exists added requested l, records g' = MkNode added requested :: l /\
    NormalizeMapRequest pg va pa len size props = Some requested /\
    Forall (fun n => ranges_disjoint (physical_range (node_rec n)) (physical_range requested)
      \/ PhysicalPageTypesCompatible (rtype (node_rec n)) (rtype requested) = true) l.
Proof.
  intros Hok Hva Hpa Hlen Hsz Hne Hm.
  destruct (MapPages_cases pg pt va pa len size props g) as (b & g1 & pt1 & Hm1 & Hc); [done..|].
  rewrite Hm in Hm1. simplify_eq.
  destruct Hc as [(? & _)|[(? & _)|(_ & _ & req & ad & l & m1 & m2 & res & Hn & Hp & Hcv & Hg)]];
    [done|done|].
  exists ad, req, l. split_and!; [done|done|].
  destruct (NormalizeMapRequest_ok _ _ _ _ _ _ _ Hva Hpa Hlen Hsz Hn) as (<- & Hrok & _).
  eapply Forall_impl; [eapply carve_no_conflict; [apply Hok|apply Hrok|exact Hp|exact Hcv]|].
  intros n Hn'. unfold MappingTypeConflicts in Hn'. apply andb_false_iff in Hn' as [?|?].
  - left. by apply overlap_false.
  - right. by apply negb_false_iff.
Qed.

Lemma UnmapPages_core pg (pt : PT) va len (g : Registry M) :
  registry_ok (records g) -> is_u64 va -> is_u64 len -> len <> 0 ->
  exists b g' pt', UnmapPages pg pt va len g = Some (b, g', pt') /\ registry_ok (records g') /\
    if b then exists removed, NormalizeUnmapRequest va len = Some removed /\
      rbegin removed = va - va mod 4096 /\ va + len <= rend removed < va + len + 4096 /\
      rend removed mod 4096 = 0 /\
      forall pg' a, translate (records g') pg' a =
        if (pg' =? pg) && in_range removed a then None else translate (records g) pg' a
    else records g' = records g.
Proof.
  intros Hok Hva Hlen Hne. unfold UnmapPages. case_match; [lia|].
  destruct (NormalizeUnmapRequest va len) as [removed|] eqn:Hn; [|by do 3 eexists].
  destruct (NormalizeUnmapRequest_ok _ _ _ Hva Hlen Hn) as (Hr & Hb & He & Ha).
  destruct (PrepareUnmapRecords pg removed g) as [[res|] g1] eqn:Hp.
  2:{ apply PrepareUnmap_fail in Hp. do 3 eexists. split; [done|]. by rewrite Hp. }
  apply PrepareUnmap_spec in Hp as (Hg1 & Hl).
  destruct (pt_unmap pt _ _) as [[] pt'].
  - destruct (CommitUnmap_total pg removed g1 res) as (l & m2 & -> & Hc).
    { rewrite Hg1. apply Hok. } { done. } { by rewrite Hg1. }
    cbn. do 3 eexists. split; [done|]. cbn. rewrite Hg1 in Hc.
    split; [by eapply carve_ok; [| |exact Hc]|].
    exists removed. split_and!; try done; try apply He.
    intros. by eapply carve_translate; [apply Hok|done|exact Hc].
  - do 3 eexists. split; [done|]. cbn. by rewrite Hg1.
Qed.

(** The page-table side of a successful unmap. *)
Lemma UnmapPages_table pg (pt : PT) va len (g g' : Registry M) pt' :
  len <> 0 -> UnmapPages pg pt va len g = Some (true, g', pt') ->
  exists removed, NormalizeUnmapRequest va len = Some removed /\
    pt_unmap pt (rbegin removed) (rend removed -w rbegin removed) = (true, pt').
Proof.
  intros Hne. unfold UnmapPages. case_match; [lia|].
  destruct (NormalizeUnmapRequest va len) as [removed|]; [|done].
  destruct (PrepareUnmapRecords pg removed g) as [[res|] g1]; [|done].
  destruct (pt_unmap pt _ _) as [[] pt1] eqn:Hu; [|done].
  destruct (CommitUnmapRecords pg removed res g1); cbn; [|done].
  intros [= <- <-]. eauto.
Qed.

(** [Memory::UnmapPages] on a well-formed registry never reaches a failed assertion; when it
    succeeds it forgets exactly the page-aligned range around the request, in that page table
    only, and when it fails the records are unchanged.  Either way the registry is well formed. *)
Theorem UnmapPages_forgets pg (pt : PT) va len (g : Registry M) :
  registry_ok (records g) -> is_u64 va -> is_u64 len -> len <> 0 ->
  exists b g' pt', UnmapPages pg pt va len g = Some (b, g', pt') /\ registry_ok (records g') /\
    if b then exists removed, NormalizeUnmapRequest va len = Some removed /\
      rbegin removed = va - va mod 4096 /\ va + len <= rend removed < va + len + 4096 /\
      rend removed mod 4096 = 0 /\
      forall pg' a, translate (records g') pg' a =
        if (pg' =? pg) && in_range removed a then None else translate (records g) pg' a
    else records g' = records g.
Proof. apply UnmapPages_core. Qed.

Lemma release_nodes_spec pg l (m : M) :
  let l' := (release_paging_nodes pg l m).1 in
  l' = filter (fun n => paging (node_rec n) <> pg) l.
Proof.
  cbv zeta. revert m. induction l as [|n l IH]; intros m; cbn; [done|].
  destruct (paging (node_rec n) =? pg) eqn:E; cbn.
  - rewrite decide_False by lia. apply IH.
  - rewrite decide_True by lia.
    destruct (release_paging_nodes pg l m) as [l2 m2] eqn:E2. cbn.
    specialize (IH m). rewrite E2 in IH. cbn in IH. by rewrite IH.
Qed.

Lemma translate_filter pg pg' a l :
  translate (filter (fun n => paging (node_rec n) <> pg) l) pg' a =
  if pg' =? pg then None else translate l pg' a.
Proof.
  induction l as [|n l IH]; [cbn; by case_match|]. rewrite filter_cons.
  case_decide; cbn [translate]; rewrite IH; unfold translate_rec;
    destruct (paging (node_rec n) =? pg') eqn:E1, (pg' =? pg) eqn:E2; cbn; try done;
    try (case_match; done); lia.
Qed.

(** [Memory::ReleasePagingMappings] forgets every mapping of the page table that is torn
    down, keeps every mapping of the others, and keeps the registry well formed. *)
Theorem ReleasePagingMappings_spec pg (g : Registry M) :
  registry_ok (records g) ->
  registry_ok (records (ReleasePagingMappings pg g)) /\
  forall pg' a, translate (records (ReleasePagingMappings pg g)) pg' a =
    if pg' =? pg then None else translate (records g) pg' a.
Proof.
  intros [Hok Hd]. unfold ReleasePagingMappings.
  pose proof (release_nodes_spec pg (records g) (pool g)) as Hl.
  destruct (release_paging_nodes pg (records g) (pool g)) as [l m]. cbn in *. subst l.
  split; [|intros; apply translate_filter]. split; [by apply Forall_filter_sub|by apply ForallOrdPairs_filter].
Qed.

End Properties.

(** ** Witnesses: the properties at a concrete registry *)

Module Witness.
Import Interfaces.Example.

(** One write-back mapping of page table 7, VA 0x4000..0x8000 on PA 0x10000..0x14000. *)
Definition g0 : Registry Example.Pool :=
  MkRegistry
    [MkNode 0x100 (MkRecord 7 (MkRange 0x4000 0x8000) (MkRange 0x10000 0x14000) 64 2)]
    (Example.MkPool 0x1000 0x100000 []).

(** A page of the middle is mapped to device memory: the old record is split in two. *)
Example map_splits :
  (fun '(b, g, _) => (b, records g)) <$>
    MapPages (PT:=Example.Table) 7 ∅ 0x5000 0xFEE00000 0x1000 0 0x143 g0 =
  Some (true,
    [MkNode 0x1000 (MkRecord 7 (MkRange 0x5000 0x6000) (MkRange 0xFEE00000 0xFEE01000) 320 2);
     MkNode 0x100 (MkRecord 7 (MkRange 0x4000 0x5000) (MkRange 0x10000 0x11000) 64 2);
     MkNode 0x1040 (MkRecord 7 (MkRange 0x6000 0x8000) (MkRange 0x12000 0x14000) 64 2)]).
Proof. reflexivity. Qed.

Lemma g0_ok : registry_ok (records g0).
Proof.
  split; [|repeat constructor].
  apply Forall_singleton. unfold rec_ok, range_ok, range_len, UMAX. cbn. lia.
Qed.

Lemma MapPages_total_witness :
  exists b g' pt', MapPages (PT:=Example.Table) 7 ∅ 0x5000 0xFEE00000 0x1000 0 0x143 g0
      = Some (b, g', pt') /\ registry_ok (records g') /\ (b = false -> records g' = records g0).
Proof. apply MapPages_total_and_ok; [exact g0_ok|unfold is_u64; lia..]. Defined.


Lemma MapPages_types_witness : exists g' pt' added requested l,
  MapPages (PT:=Example.Table) 7 ∅ 0x5000 0xFEE00000 0x1000 0 0x143 g0 = Some (true, g', pt') /\
  records g' = MkNode added requested :: l /\
  Forall (fun n => ranges_disjoint (physical_range (node_rec n)) (physical_range requested)
      \/ PhysicalPageTypesCompatible (rtype (node_rec n)) (rtype requested) = true) l.
Proof.
  edestruct (MapPages_types_compatible 7 (∅ : Example.Table) 0x5000 0xFEE00000 0x1000 0 0x143 g0)
    as (added & req & l & Hg & _ & Hf);
    [exact g0_ok|unfold is_u64; lia..|vm_compute; reflexivity|].
  do 2 eexists. exists added, req, l. split; [vm_compute; reflexivity|]. split; [exact Hg|exact Hf].
Defined.

Lemma UnmapPages_witness : exists b g' pt',
  UnmapPages (PT:=Example.Table) 7 ∅ 0x5000 0x800 g0 = Some (b, g', pt') /\
  registry_ok (records g').
Proof.
  destruct (UnmapPages_forgets 7 (∅ : Example.Table) 0x5000 0x800 g0)
    as (b & g' & pt' & Hu & Hok & _); [exact g0_ok|unfold is_u64; lia..|].
  exists b, g', pt'. split; [exact Hu|exact Hok].
Defined.

Lemma ReleasePaging_witness :
  registry_ok (records (ReleasePagingMappings 7 g0)) /\
  translate (records (ReleasePagingMappings 7 g0)) 7 0x4000 = None.
Proof.
  destruct (ReleasePagingMappings_spec 7 g0 g0_ok) as [Hok Ht].
  split; [exact Hok|]. rewrite Ht. reflexivity.
Defined.

End Witness.
