(* ===== verification/InitPlan.v ===== *)
(** * The initial page plan ([mecocoa/memoman-page.cpp], lines 437-536 and 776-835)

    Before paging is switched on, the boot code turns the firmware's memory map into a plan: an
    array of page-aligned regions with a memory type and permissions, in address order.  Each
    source region is laid over the plan in place: overlapped regions are cut, the new region is
    inserted at its position, and equal neighbours are merged.  The array is a Rocq list of
    [plan_capacity] cells, of which the first [plan_count] are in use; an access outside the
    array, which C++ leaves undefined, is the value [None]. *)
From S2P Require Import Prelude Interfaces PhysRange Registry.

Record InitialPageRegion := MkRegion { begin : Z; end_ : Z; type : Z; perms : Z }.

Section Normalize.
Context `{PagingConstants}.

Definition permission_mask : Z :=
  Z.lor PGPROP_present (Z.lor PGPROP_writable
    (Z.lor PGPROP_user_access (Z.lor PGPROP_global PGPROP_nonexecutable))).

Definition NormalizeInitialPageRegion (source : InitialPageRegion) : option InitialPageRegion :=
  let page_mask := Z.shiftl 1 PAGESIZE_4KB - 1 in
  if (end_ source <=? begin source)
     || truthy (Z.land (begin source) page_mask)
     || truthy (Z.land (end_ source) page_mask)
     || (type source =? PGTYPE_default)
     || negb (PageTypeSupported (type source))
     || truthy (Z.land (perms source) (Z.lnot permission_mask)) then None
  else match NormalizePageProperties (Z.lor (perms source) (type source)) with
  | None => None
  | Some properties =>
    if negb (has properties PGPROP_present) || has properties PGPROP_weak
       || negb (Z.land properties PGPROP_MASK_TYPE =? type source) then None
    else Some (MkRegion (begin source) (end_ source) (type source)
                 (Z.land properties (Z.lnot PGPROP_MASK_TYPE)))
  end.

End Normalize.

Definition InitialPageRegionAttributesEqual (left right : InitialPageRegion) : bool :=
  (type left =? type right) && (perms left =? perms right).

Definition set_begin (b : Z) (r : InitialPageRegion) : InitialPageRegion :=
  MkRegion b (end_ r) (type r) (perms r).
Definition set_end (e : Z) (r : InitialPageRegion) : InitialPageRegion :=
  MkRegion (begin r) e (type r) (perms r).

(** ** The array *)

Definition store (plan : list InitialPageRegion) (i : nat) (x : InitialPageRegion)
  : option (list InitialPageRegion) :=
  if (i <? length plan)%nat then Some (<[i := x]> plan) else None.

(** [for (move = lo + n; move > lo; move--) plan[move] = plan[move - 1];] *)
Fixpoint shift_up (n lo : nat) (plan : list InitialPageRegion)
  : option (list InitialPageRegion) :=
  match n with
  | O => Some plan
  | S n =>
    x ← plan !! (lo + n)%nat;
    plan ← store plan (lo + S n) x;
    shift_up n lo plan
  end.

(** [for (; move < count; move++) plan[move - 1] = plan[move];] with [n] moves left. *)
Fixpoint shift_down (n move : nat) (plan : list InitialPageRegion)
  : option (list InitialPageRegion) :=
  match n with
  | O => Some plan
  | S n =>
    x ← plan !! move;
    plan ← store plan (move - 1) x;
    shift_down n (S move) plan
  end.

(** ** Overlay *)

Definition apart (e added : InitialPageRegion) : bool :=
  (end_ e <=? begin added) || (end_ added <=? begin e).

(** The number of cells the overlay needs, computed before anything is changed. *)
Definition required_cells (added : InitialPageRegion) (regions : list InitialPageRegion) : nat :=
  foldl (fun required e =>
    if apart e added then S required
    else
      let required := if begin e <? begin added then S required else required in
      if end_ added <? end_ e then S required else required) 1%nat regions.

(** The first loop: cut every region the added one overlaps.  Each turn brings [index] and
    [plan_count] one closer, so [plan_count] turns are enough. *)
Fixpoint cut_loop (fuel : nat) (added : InitialPageRegion) (index plan_count : nat)
  (plan : list InitialPageRegion) : option (nat * list InitialPageRegion) :=
  if negb (index <? plan_count)%nat then Some (plan_count, plan) else
  match fuel with
  | O => None
  | S fuel =>
    existing ← plan !! index;
    if apart existing added then cut_loop fuel added (S index) plan_count plan
    else
      let keep_left := begin existing <? begin added in
      let keep_right := end_ added <? end_ existing in
      if keep_left && keep_right then
        plan ← shift_up (plan_count - (index + 1)) (index + 1) plan;
        plan ← store plan index (set_end (begin added) existing);
        plan ← store plan (index + 1) (set_begin (end_ added) existing);
        cut_loop fuel added (index + 2) (S plan_count) plan
      else if keep_left then
        plan ← store plan index (set_end (begin added) existing);
        cut_loop fuel added (S index) plan_count plan
      else if keep_right then
        plan ← store plan index (set_begin (end_ added) existing);
        cut_loop fuel added (S index) plan_count plan
      else
        plan ← shift_down (plan_count - (index + 1)) (index + 1) plan;
        cut_loop fuel added index (plan_count - 1) plan
  end.

(** [while (insert < plan_count && plan[insert].begin < added.begin) insert++;] with
    [n = plan_count - insert] cells left to look at. *)
Fixpoint find_insert (n insert : nat) (added : InitialPageRegion)
  (plan : list InitialPageRegion) : option nat :=
  match n with
  | O => Some insert
  | S n =>
    e ← plan !! insert;
    if begin e <? begin added then find_insert n (S insert) added plan else Some insert
  end.

(** The last loop: merge equal neighbours, compacting the array in place. *)
Fixpoint merge_loop (n input output : nat) (plan : list InitialPageRegion)
  : option (nat * list InitialPageRegion) :=
  match n with
  | O => Some (output, plan)
  | S n =>
    x ← plan !! input;
    match output with
    | O =>
      plan ← store plan output x;
      merge_loop n (S input) (S output) plan
    | S last =>
      p ← plan !! last;
      if (end_ p =? begin x) && InitialPageRegionAttributesEqual p x then
        plan ← store plan last (set_end (end_ x) p);
        merge_loop n (S input) output plan
      else
        plan ← store plan output x;
        merge_loop n (S input) (S output) plan
    end
  end.

(** [OverlayInitialPageRegion]: the outer option is memory safety, the boolean the result. *)
Definition OverlayInitialPageRegion (plan : list InitialPageRegion) (plan_count : nat)
  (added : InitialPageRegion) : option (bool * nat * list InitialPageRegion) :=
  let plan_capacity := length plan in
  if (plan_capacity <? required_cells added (take plan_count plan))%nat
  then Some (false, plan_count, plan) else
  '(plan_count, plan) ← cut_loop plan_count added 0 plan_count plan;
  insert ← find_insert plan_count 0 added plan;
  plan ← shift_up (plan_count - insert) insert plan;
  plan ← store plan insert added;
  '(plan_count, plan) ← merge_loop (S plan_count) 0 0 plan;
  Some (true, plan_count, plan).

Section Build.
Context `{PagingConstants}.

Fixpoint build_loop (source : list InitialPageRegion) (plan_count : nat)
  (plan : list InitialPageRegion) : option (bool * nat * list InitialPageRegion) :=
  match source with
  | [] => Some (true, plan_count, plan)
  | s :: source =>
    match NormalizeInitialPageRegion s with
    | None => Some (false, O, plan)
    | Some normalized =>
      r ← OverlayInitialPageRegion plan plan_count normalized;
      match r with
      | (false, _, plan) => Some (false, O, plan)
      | (true, plan_count, plan) => build_loop source plan_count plan
      end
    end
  end.

(** [build_initial_page_plan] on a source and a plan array that exist. *)
Definition build_initial_page_plan (source plan : list InitialPageRegion)
  : option (bool * nat * list InitialPageRegion) := build_loop source 0 plan.

(** The validation pass of [map_initial_page_regions]. *)
Definition region_eqb (a b : InitialPageRegion) : bool :=
  (begin a =? begin b) && (end_ a =? end_ b) && (type a =? type b) && (perms a =? perms b).

Definition region_valid (r : InitialPageRegion) : bool :=
  match NormalizeInitialPageRegion r with
  | None => false
  | Some n => region_eqb n r
  end.

(** The order test between a region and its predecessor. *)
Definition misordered (previous r : InitialPageRegion) : bool :=
  (begin r <? end_ previous) ||
  ((end_ previous =? begin r) && InitialPageRegionAttributesEqual previous r).

Fixpoint validate_from (previous : option InitialPageRegion) (plan : list InitialPageRegion)
  : bool :=
  match plan with
  | [] => true
  | r :: rest =>
    region_valid r &&
    negb (match previous with None => false | Some p => misordered p r end) &&
    validate_from (Some r) rest
  end.

Section Map.
Context {M : Type} `{!Mempool M} {PT : Type} `{!PageTable PT}.

Fixpoint map_regions (pg : Z) (plan : list InitialPageRegion) (pt : PT) (g : Registry M)
  : option (bool * Registry M * PT) :=
  match plan with
  | [] => Some (true, g, pt)
  | r :: rest =>
    x ← MapPages pg pt (begin r) (begin r) (end_ r -w begin r) PAGESIZE_ANY
          (Z.lor (Z.lor (perms r) (type r)) PGOPTS_omit_warnings) g;
    match x with
    | (false, g, pt) => Some (false, g, pt)
    | (true, g, pt) => map_regions pg rest pt g
    end
  end.

Definition map_initial_page_regions (pg : Z) (plan : list InitialPageRegion) (pt : PT)
  (g : Registry M) : option (bool * Registry M * PT) :=
  if validate_from None plan then map_regions pg plan pt g else Some (false, g, pt).

End Map.
End Build.

(** ** Reference definitions on lists *)

Definition cut (added e : InitialPageRegion) : list InitialPageRegion :=
  if apart e added then [e]
  else (if begin e <? begin added then [set_end (begin added) e] else [])
       ++ (if end_ added <? end_ e then [set_begin (end_ added) e] else []).

Definition cut_all (added : InitialPageRegion) (l : list InitialPageRegion)
  : list InitialPageRegion := concat (cut added <$> l).

Fixpoint insert_region (added : InitialPageRegion) (l : list InitialPageRegion)
  : list InitialPageRegion :=
  match l with
  | [] => [added]
  | e :: l => if begin e <? begin added then e :: insert_region added l else added :: e :: l
  end.

Definition mergeable (p x : InitialPageRegion) : bool :=
  (end_ p =? begin x) && InitialPageRegionAttributesEqual p x.

Fixpoint merge_from (cur : InitialPageRegion) (l : list InitialPageRegion)
  : list InitialPageRegion :=
  match l with
  | [] => [cur]
  | x :: l =>
    if mergeable cur x then merge_from (set_end (end_ x) cur) l else cur :: merge_from x l
  end.

Definition merge (l : list InitialPageRegion) : list InitialPageRegion :=
  match l with [] => [] | x :: l => merge_from x l end.

Definition overlay (added : InitialPageRegion) (l : list InitialPageRegion)
  : list InitialPageRegion := merge (insert_region added (cut_all added l)).

(** What a plan says about an address: the type and permissions of its region. *)
Definition covers (r : InitialPageRegion) (a : Z) : bool := (begin r <=? a) && (a <? end_ r).

Fixpoint attr_at (l : list InitialPageRegion) (a : Z) : option (Z * Z) :=
  match l with
  | [] => None
  | r :: l => if covers r a then Some (type r, perms r) else attr_at l a
  end.

Definition nonempty_region (r : InitialPageRegion) : Prop := begin r < end_ r.
Definition region_before (r s : InitialPageRegion) : Prop := end_ r <= begin s.
Definition distinct_neighbours (r s : InitialPageRegion) : Prop := mergeable r s = false.

(** A plan in address order, without empty or overlapping regions. *)
Definition plan_sorted (l : list InitialPageRegion) : Prop :=
  Forall nonempty_region l /\ ForallOrdPairs region_before l.

(** ... and without neighbours that could be one region. *)
Definition plan_ok (l : list InitialPageRegion) : Prop :=
  plan_sorted l /\ Sorted distinct_neighbours l.

(** ** The array loops compute the reference definitions *)

Lemma store_app l1 x l2 y :
  store (l1 ++ x :: l2) (length l1) y = Some (l1 ++ y :: l2).
Proof.
  unfold store. destruct (Nat.ltb_spec (length l1) (length (l1 ++ x :: l2))) as [_|Hge].
  2:{ rewrite length_app in Hge. cbn in Hge. lia. }
  f_equal. rewrite <- (Nat.add_0_r (length l1)). by rewrite insert_app_r.
Qed.

Lemma store_at l1 x l2 y i :
  i = length l1 -> store (l1 ++ x :: l2) i y = Some (l1 ++ y :: l2).
Proof. intros ->. apply store_app. Qed.

Lemma lookup_at {A} (l1 : list A) x l2 i :
  i = length l1 -> (l1 ++ x :: l2) !! i = Some x.
Proof. intros ->. by apply list_lookup_middle. Qed.

Lemma shift_up_spec l1 mid y l3 lo n :
  lo = length l1 -> n = length mid ->
  exists z, shift_up n lo (l1 ++ mid ++ y :: l3) = Some (l1 ++ z :: mid ++ l3).
Proof.
  intros ->. revert mid y l3. induction n as [|n IH]; intros mid y l3 Hn.
  { destruct mid; [|done]. by exists y. }
  destruct mid as [|m mid _] using rev_ind; [done|].
  rewrite length_app in Hn. cbn in Hn. cbn [shift_up].
  replace (l1 ++ (mid ++ [m]) ++ y :: l3) with ((l1 ++ mid) ++ m :: y :: l3)
    by (rewrite <- !app_assoc; done).
  rewrite (lookup_at (l1 ++ mid)) by (rewrite length_app; lia). cbn.
  replace ((l1 ++ mid) ++ m :: y :: l3) with ((l1 ++ mid ++ [m]) ++ y :: l3)
    by (rewrite <- !app_assoc; done).
  rewrite store_at by (rewrite !length_app; cbn; lia). cbn.
  replace ((l1 ++ mid ++ [m]) ++ m :: l3) with (l1 ++ mid ++ m :: m :: l3)
    by (rewrite <- !app_assoc; done).
  destruct (IH mid m (m :: l3)) as (z & ->); [lia|].
  exists z. by rewrite <- app_assoc.
Qed.

Lemma shift_down_spec l1 x mid l3 move n :
  move = S (length l1) -> n = length mid ->
  exists z, shift_down n move (l1 ++ x :: mid ++ l3) = Some (l1 ++ mid ++ z :: l3).
Proof.
  revert l1 x move n. induction mid as [|m mid IH]; intros l1 x move n -> ->; [by exists x|].
  cbn [shift_down length].
  replace (l1 ++ x :: (m :: mid) ++ l3) with ((l1 ++ [x]) ++ m :: mid ++ l3)
    by (rewrite <- !app_assoc; done).
  rewrite lookup_at by (rewrite length_app; cbn; lia). cbn.
  replace ((l1 ++ [x]) ++ m :: mid ++ l3) with (l1 ++ x :: m :: mid ++ l3)
    by (rewrite <- !app_assoc; done).
  rewrite store_at by lia. cbn.
  replace (l1 ++ m :: m :: mid ++ l3) with ((l1 ++ [m]) ++ m :: mid ++ l3)
    by (rewrite <- !app_assoc; done).
  destruct (IH (l1 ++ [m]) m (S (S (length l1))) (length mid)) as (z & ->);
    [rewrite length_app; cbn; lia|done|].
  exists z. by rewrite <- !app_assoc.
Qed.

Lemma required_cells_length added l :
  required_cells added l = S (length (cut_all added l)).
Proof.
  change (S (length (cut_all added l))) with (1 + length (cut_all added l))%nat.
  unfold required_cells. generalize 1%nat as c.
  induction l as [|e l IH]; intros c; cbn [foldl]; [cbn; lia|].
  change (cut_all added (e :: l)) with (cut added e ++ cut_all added l).
  rewrite IH, length_app. unfold cut. repeat case_match; cbn; lia.
Qed.

(** When one region strictly contains the added one, it is the only one it meets. *)
Lemma cut_all_apart added l :
  Forall (fun e => apart e added = true) l -> cut_all added l = l.
Proof.
  induction 1 as [|e l He _ IH]; cbn; [done|]. unfold cut_all in IH.
  unfold cut at 1. rewrite He. cbn. by rewrite IH.
Qed.

Ltac len := repeat (progress (rewrite ?length_app in *; cbn [length app] in *)); lia.

Lemma cut_loop_spec added rem dn junk fuel i c arr :
  nonempty_region added -> plan_sorted rem ->
  arr = dn ++ rem ++ junk -> i = length dn -> c = (length dn + length rem)%nat ->
  fuel = length rem ->
  (length dn + length (cut_all added rem) <= length arr)%nat ->
  exists out, cut_loop fuel added i c arr = Some (length (dn ++ cut_all added rem), out)
    /\ take (length (dn ++ cut_all added rem)) out = dn ++ cut_all added rem
    /\ length out = length arr.
Proof.
  intros Ha. revert dn junk fuel i c arr.
  induction rem as [|e rem IH]; intros dn junk fuel i c arr [Hne Hs] -> -> -> -> Hcap.
  { change (cut_all added []) with (@nil InitialPageRegion) in *. rewrite app_nil_r.
    exists (dn ++ [] ++ junk). cbn [length cut_loop]. rewrite Nat.add_0_r, Nat.ltb_irrefl.
    split_and!; [done|by rewrite take_app_length|done]. }
  apply Forall_cons in Hne as [He Hne]. inversion Hs as [|? ? Hb Hs']; subst.
  cbn [cut_loop length]. rewrite (proj2 (Nat.ltb_lt _ _)) by lia. cbn [negb].
  change (dn ++ (e :: rem) ++ junk) with (dn ++ e :: rem ++ junk) in *.
  rewrite lookup_at by done. cbn [mbind option_bind].
  assert (plan_sorted rem) as Hrem by done.
  change (cut_all added (e :: rem)) with (cut added e ++ cut_all added rem) in *.
  unfold cut in *. destruct (apart e added) eqn:Hap.
  { destruct (IH (dn ++ [e]) junk (length rem) (S (length dn)) (length dn + S (length rem))%nat
      (dn ++ e :: rem ++ junk)) as (out & Heq & Ht & Hl); [done|by rewrite <- app_assoc|len|len|done|len|].
    rewrite <- app_assoc in *. by exists out. }
  destruct (begin e <? begin added) eqn:Hkl, (end_ added <? end_ e) eqn:Hkr; cbn [app andb] in *.
  - assert (cut_all added rem = rem) as Hcr.
    { apply cut_all_apart. eapply Forall_impl; [exact Hb|]. intros s Hs1.
      unfold region_before, apart in *. lia. }
    destruct junk as [|y junk]; [exfalso; rewrite Hcr in Hcap; clear -Hcap; len|].
    replace (dn ++ e :: rem ++ y :: junk) with ((dn ++ [e]) ++ rem ++ y :: junk)
      by (rewrite <- app_assoc; done).
    destruct (shift_up_spec (dn ++ [e]) rem y junk (length dn + 1)
      (length dn + S (length rem) - (length dn + 1))) as (z & ->); [len|lia|].
    rewrite <- app_assoc. cbn [mbind option_bind app].
    rewrite store_at by done. cbn [mbind option_bind app].
    rewrite (app_assoc dn [_] (z :: rem ++ junk) : _ ++ _ :: _ = _).
    rewrite store_at by len. cbn [mbind option_bind app].
    destruct (IH (dn ++ [set_end (begin added) e; set_begin (end_ added) e]) junk (length rem)
      (length dn + 2)%nat (S (length dn + S (length rem)))
      ((dn ++ [set_end (begin added) e]) ++ set_begin (end_ added) e :: rem ++ junk))
      as (out & Heq & Ht & Hl); [done|by rewrite <- !app_assoc|len|len|done|len|].
    rewrite <- !app_assoc in *. exists out. split_and!; [done|done|]. rewrite Hl. len.
  - rewrite store_at by done. cbn [mbind option_bind].
    destruct (IH (dn ++ [set_end (begin added) e]) junk (length rem) (S (length dn))
      (length dn + S (length rem))%nat (dn ++ set_end (begin added) e :: rem ++ junk))
      as (out & Heq & Ht & Hl); [done|by rewrite <- app_assoc|len|len|done|len|].
    rewrite <- app_assoc in *. exists out. split_and!; [done|done|]. rewrite Hl. len.
  - rewrite store_at by done. cbn [mbind option_bind].
    destruct (IH (dn ++ [set_begin (end_ added) e]) junk (length rem) (S (length dn))
      (length dn + S (length rem))%nat (dn ++ set_begin (end_ added) e :: rem ++ junk))
      as (out & Heq & Ht & Hl); [done|by rewrite <- app_assoc|len|len|done|len|].
    rewrite <- app_assoc in *. exists out. split_and!; [done|done|]. rewrite Hl. len.
  - destruct (shift_down_spec dn e rem junk (length dn + 1)
      (length dn + S (length rem) - (length dn + 1))) as (z & ->); [lia|lia|].
    cbn [mbind option_bind].
    destruct (IH dn (z :: junk) (length rem) (length dn) (length dn + S (length rem) - 1)%nat
      (dn ++ rem ++ z :: junk)) as (out & Heq & Ht & Hl); [done|done|done|lia|done|len|].
    exists out. split_and!; [done|done|]. rewrite Hl. len.
Qed.

Lemma find_insert_spec added l l1 junk i n :
  i = length l1 -> n = length l ->
  exists k, find_insert n i added (l1 ++ l ++ junk) = Some (i + k)%nat /\ (k <= length l)%nat /\
    insert_region added l = take k l ++ added :: drop k l.
Proof.
  revert l1 i n. induction l as [|e l IH]; intros l1 i n -> ->; cbn [find_insert length].
  { exists 0%nat. split_and!; [f_equal; lia|lia|done]. }
  change (l1 ++ (e :: l) ++ junk) with (l1 ++ e :: l ++ junk).
  rewrite lookup_at by done. cbn [mbind option_bind insert_region].
  destruct (begin e <? begin added) eqn:He.
  - destruct (IH (l1 ++ [e]) (S (length l1)) (length l)) as (k & Hf & Hk & Hi); [len|done|].
    rewrite <- app_assoc in Hf. exists (S k). cbn [app] in Hf. rewrite Hf, Hi.
    split_and!; [f_equal; lia|lia|done].
  - exists 0%nat. split_and!; [f_equal; lia|lia|done].
Qed.

Lemma merge_loop_spec rem o cur gap junk n input output arr :
  arr = o ++ cur :: gap ++ rem ++ junk -> output = S (length o) ->
  input = (length o + 1 + length gap)%nat -> n = length rem ->
  exists out, merge_loop n input output arr = Some (length (o ++ merge_from cur rem), out)
    /\ take (length (o ++ merge_from cur rem)) out = o ++ merge_from cur rem
    /\ length out = length arr.
Proof.
  revert o cur gap n input output arr.
  induction rem as [|x rem IH]; intros o cur gap n input output arr -> -> -> ->.
  { exists (o ++ cur :: gap ++ [] ++ junk). cbn [merge_loop merge_from length].
    split_and!; [f_equal; f_equal; len| |done].
    rewrite (app_assoc o [cur] (gap ++ [] ++ junk) : _ ++ _ :: _ = _). apply take_app_length. }
  cbn [merge_loop length merge_from].
  assert ((o ++ cur :: gap ++ (x :: rem) ++ junk) !! (length o + 1 + length gap)%nat = Some x)
    as ->.
  { replace (o ++ cur :: gap ++ (x :: rem) ++ junk) with ((o ++ cur :: gap) ++ x :: rem ++ junk)
      by (rewrite <- app_assoc; done). apply lookup_at. len. }
  cbn [mbind option_bind]. rewrite lookup_at by done.
  cbn [mbind option_bind]. fold (mergeable cur x). destruct (mergeable cur x).
  - rewrite store_at by done. cbn [mbind option_bind].
    destruct (IH o (set_end (end_ x) cur) (gap ++ [x]) (length rem)
      (S (length o + 1 + length gap)) (S (length o))
      (o ++ set_end (end_ x) cur :: gap ++ (x :: rem) ++ junk)) as (out & Heq & Ht & Hl);
      [by rewrite <- (app_assoc gap)|done|len|done|].
    exists out. split_and!; [done|done|]. rewrite Hl. len.
  - assert (exists gap', store (o ++ cur :: gap ++ (x :: rem) ++ junk) (S (length o)) x
        = Some ((o ++ [cur]) ++ x :: gap' ++ rem ++ junk) /\ length gap' = length gap)
      as (gap' & -> & Hg).
    { destruct gap as [|h gap].
      - exists []. split; [|done].
        replace (o ++ cur :: [] ++ (x :: rem) ++ junk) with ((o ++ [cur]) ++ x :: rem ++ junk)
          by (rewrite <- app_assoc; done).
        by rewrite store_at by len.
      - exists (gap ++ [x]). split; [|len].
        replace (o ++ cur :: (h :: gap) ++ (x :: rem) ++ junk)
          with ((o ++ [cur]) ++ h :: gap ++ x :: rem ++ junk) by (rewrite <- app_assoc; done).
        rewrite store_at by len. by rewrite <- (app_assoc gap [x]). }
    cbn [mbind option_bind].
    destruct (IH (o ++ [cur]) x gap' (length rem) (S (length o + 1 + length gap))
      (S (S (length o))) ((o ++ [cur]) ++ x :: gap' ++ rem ++ junk)) as (out & Heq & Ht & Hl);
      [done|len|len|done|].
    rewrite <- !(app_assoc o) in *. exists out. split_and!; [done|done|]. rewrite Hl. len.
Qed.

(** The in-place overlay computes the reference [overlay], within the array. *)
Lemma Overlay_refines plan count added :
  (count <= length plan)%nat -> nonempty_region added -> plan_sorted (take count plan) ->
  if (length plan <? required_cells added (take count plan))%nat
  then OverlayInitialPageRegion plan count added = Some (false, count, plan)
  else exists out, OverlayInitialPageRegion plan count added
      = Some (true, length (overlay added (take count plan)), out)
    /\ take (length (overlay added (take count plan))) out = overlay added (take count plan)
    /\ length out = length plan.
Proof.
  intros Hc Ha Hs. unfold OverlayInitialPageRegion.
  destruct (length plan <? required_cells added (take count plan))%nat eqn:Hcap; [done|].
  apply Nat.ltb_ge in Hcap. rewrite required_cells_length in Hcap.
  destruct (cut_loop_spec added (take count plan) [] (drop count plan) count 0 count plan)
    as (p1 & -> & Ht1 & Hl1); [done|done|by rewrite take_drop| | | | |].
  { done. } { cbn. rewrite length_take. lia. } { rewrite length_take. lia. } { cbn. lia. }
  cbn [mbind option_bind app] in *.
  set (l1 := cut_all added (take count plan)) in *.
  assert (p1 = l1 ++ drop (length l1) p1) as Hp1.
  { rewrite <- Ht1 at 1. by rewrite take_drop. }
  destruct (drop (length l1) p1) as [|y junk] eqn:Hd.
  { exfalso. assert (length p1 = length l1) by (rewrite Hp1; len). lia. }
  destruct (find_insert_spec added l1 [] (y :: junk) 0 (length l1)) as (k & Hf & Hk & Hi);
    [done|done|]. cbn [app] in Hf.
  rewrite Hp1, Hf. cbn [mbind option_bind Nat.add].
  assert (l1 ++ y :: junk = take k l1 ++ drop k l1 ++ y :: junk) as Hsp
    by (rewrite app_assoc, take_drop; done).
  rewrite Hsp.
  destruct (shift_up_spec (take k l1) (drop k l1) y junk k (length l1 - k)) as (z & ->);
    [rewrite length_take; lia|rewrite length_drop; lia|].
  cbn [mbind option_bind]. rewrite store_at by (rewrite length_take; lia).
  cbn [mbind option_bind]. 
  replace (take k l1 ++ added :: drop k l1 ++ junk) with (insert_region added l1 ++ junk)
    by (rewrite Hi, <- app_assoc; done).
  assert (length (insert_region added l1) = S (length l1)) as Hil.
  { rewrite Hi. rewrite length_app. cbn. rewrite length_take, length_drop. lia. }
  assert (length (insert_region added l1 ++ junk) = length plan) as Hlen.
  { rewrite length_app, Hil, <- Hl1, Hp1. len. }
  unfold overlay. fold l1. rewrite <- Hlen.
  destruct (insert_region added l1) as [|x rem]; [done|].
  cbn [length] in Hil. injection Hil as Hil. cbn [merge_loop merge].
  rewrite (lookup_at [] x (rem ++ junk) 0 eq_refl : ((x :: rem) ++ junk) !! 0%nat = Some x).
  cbn [mbind option_bind].
  rewrite (store_at [] x (rem ++ junk) x 0 eq_refl
           : store ((x :: rem) ++ junk) 0 x = Some ((x :: rem) ++ junk)).
  cbn [mbind option_bind].
  destruct (merge_loop_spec rem [] x [] junk (length l1) 1 1 ((x :: rem) ++ junk))
    as (out & -> & Ht & Hl); [done|done|done|done|].
  exists out. done.
Qed.

(** ** What the reference overlay does *)

Lemma attr_at_app l1 l2 a :
  attr_at (l1 ++ l2) a = match attr_at l1 a with Some x => Some x | None => attr_at l2 a end.
Proof. induction l1 as [|r l1 IH]; cbn; [done|]. destruct (covers r a); done. Qed.

Lemma cut_attr added e a :
  nonempty_region added ->
  attr_at (cut added e) a = if covers added a then None else attr_at [e] a.
Proof.
  unfold nonempty_region, cut, apart, covers. intros.
  repeat case_match; cbn; unfold covers; cbn; repeat case_match; try done; lia.
Qed.

Lemma cut_all_attr added l a :
  nonempty_region added ->
  attr_at (cut_all added l) a = if covers added a then None else attr_at l a.
Proof.
  intros Ha. induction l as [|e l IH]; [cbn; by case_match|].
  change (cut_all added (e :: l)) with (cut added e ++ cut_all added l).
  rewrite attr_at_app, cut_attr, IH by done. cbn. by repeat case_match.
Qed.

Lemma insert_attr added l a :
  (covers added a = true -> attr_at l a = None) ->
  attr_at (insert_region added l) a =
  if covers added a then Some (type added, perms added) else attr_at l a.
Proof.
  induction l as [|e l IH]; cbn; intros Hn; [done|].
  destruct (begin e <? begin added); cbn; [|done].
  destruct (covers added a) eqn:Ha.
  - specialize (Hn eq_refl). destruct (covers e a); [done|]. by rewrite IH.
  - destruct (covers e a); [done|]. by rewrite IH.
Qed.

Lemma merge_from_attr cur l a :
  nonempty_region cur -> Forall nonempty_region l ->
  attr_at (merge_from cur l) a = attr_at (cur :: l) a.
Proof.
  revert cur. induction l as [|x l IH]; intros cur Hc Hl; [done|].
  apply Forall_cons in Hl as [Hx Hl]. cbn [merge_from].
  destruct (mergeable cur x) eqn:Hm; [|cbn; by rewrite IH].
  unfold mergeable, InitialPageRegionAttributesEqual, nonempty_region in *.
  rewrite IH by (cbn; first [done|lia]). cbn. unfold covers. cbn.
  assert (type cur = type x) as -> by lia. assert (perms cur = perms x) as -> by lia.
  repeat case_match; try done; lia.
Qed.

Lemma cut_facts added e :
  nonempty_region added -> nonempty_region e ->
  Forall (fun f => nonempty_region f /\ begin e <= begin f /\ end_ f <= end_ e /\
                   apart f added = true) (cut added e) /\
  ForallOrdPairs region_before (cut added e).
Proof.
  unfold nonempty_region, cut, region_before. intros Ha He.
  unfold apart. repeat case_match; cbn; split;
    repeat (first [apply Forall_cons; split | apply Forall_nil; done | constructor]); cbn; lia.
Qed.

Lemma cut_all_in added l f :
  nonempty_region added -> Forall nonempty_region l -> f ∈ cut_all added l ->
  exists e, e ∈ l /\ begin e <= begin f /\ end_ f <= end_ e /\ nonempty_region f /\
    apart f added = true.
Proof.
  intros Ha Hl. induction Hl as [|e l He Hl IH]; [by intros ?%not_elem_of_nil|].
  change (cut_all added (e :: l)) with (cut added e ++ cut_all added l).
  intros [Hf|Hf]%elem_of_app.
  - destruct (cut_facts added e Ha He) as [Hc _]. rewrite Forall_forall in Hc.
    destruct (Hc f Hf) as (? & ? & ? & ?). exists e. split_and!; [by left|done..].
  - destruct (IH Hf) as (e' & ? & ?). exists e'. split; [by right|done].
Qed.

Lemma cut_all_sorted added l :
  nonempty_region added -> plan_sorted l ->
  plan_sorted (cut_all added l) /\ Forall (fun f => apart f added = true) (cut_all added l).
Proof.
  intros Ha [Hne Hs]. split; [split|].
  - apply Forall_forall. intros f Hf. by destruct (cut_all_in added l f Ha Hne Hf) as (? & ? & ? & ? & ? & ?).
  - induction Hs as [|e l Hb Hs IH]; [constructor|].
    apply Forall_cons in Hne as [He Hne].
    change (cut_all added (e :: l)) with (cut added e ++ cut_all added l).
    apply ForallOrdPairs_app; [by apply cut_facts|by apply IH|].
    intros x y Hx Hy. destruct (cut_facts added e Ha He) as [Hc _].
    rewrite Forall_forall in Hc, Hb. destruct (Hc x Hx) as (_ & _ & ? & _).
    destruct (cut_all_in added l y Ha Hne Hy) as (e' & He' & ? & _).
    specialize (Hb e' He'). unfold region_before in *. lia.
  - apply Forall_forall. intros f Hf. by destruct (cut_all_in added l f Ha Hne Hf) as (? & ? & ? & ? & ? & ?).
Qed.

Lemma insert_in added l x : x ∈ insert_region added l -> x = added \/ x ∈ l.
Proof.
  induction l as [|e l IH]; cbn; [by intros ->%list_elem_of_singleton; left|].
  case_match; rewrite elem_of_cons; [|rewrite elem_of_cons]; intros [->|?]; auto.
  all: rewrite ?elem_of_cons; naive_solver.
Qed.

Lemma insert_sorted added l :
  nonempty_region added -> plan_sorted l -> Forall (fun f => apart f added = true) l ->
  plan_sorted (insert_region added l).
Proof.
  intros Ha [Hne Hs] Hap. split.
  { apply Forall_forall. intros x [->|Hx]%insert_in; [done|]. by eapply Forall_forall in Hne. }
  induction Hs as [|e l Hb Hs IH]; [repeat constructor|].
  apply Forall_cons in Hne as [He Hne]. apply Forall_cons in Hap as [Hae Hap]. cbn.
  unfold nonempty_region, apart, region_before in *. rewrite Forall_forall in Hb.
  destruct (begin e <? begin added) eqn:Hbe.
  - constructor; [|by apply IH]. apply Forall_forall. intros x [->|Hx]%insert_in; [lia|by apply Hb].
  - constructor; [|by constructor; [by apply Forall_forall|]].
    apply Forall_cons. split; [lia|]. apply Forall_forall. intros x Hx.
    specialize (Hb x Hx). lia.
Qed.

Lemma merge_from_bounds cur l :
  Forall nonempty_region (cur :: l) -> ForallOrdPairs region_before (cur :: l) ->
  Forall (fun x => begin cur <= begin x) (merge_from cur l).
Proof.
  revert cur. induction l as [|y l IH]; intros cur Hne Hs; cbn; [by repeat constructor; lia|].
  apply Forall_cons in Hne as [Hc Hne]. pose proof Hne as [Hy Hne']%Forall_cons.
  inversion Hs as [|? ? Hb Hs']; subst. apply Forall_cons in Hb as [Hcy Hb].
  unfold nonempty_region, region_before in *.
  destruct (mergeable cur y) eqn:Hm.
  - apply (IH (set_end (end_ y) cur)).
    + apply Forall_cons. split; [cbn; lia|done].
    + inversion Hs' as [|? ? Hyb Hs'']; subst. constructor; [|done].
      eapply Forall_impl; [exact Hyb|]. cbn. done.
  - constructor; [lia|]. eapply Forall_impl; [by apply IH|]. cbn. intros. lia.
Qed.

Lemma merge_from_ok cur l :
  plan_sorted (cur :: l) -> plan_ok (merge_from cur l) /\
  exists r rest, merge_from cur l = r :: rest /\ begin r = begin cur /\
    type r = type cur /\ perms r = perms cur.
Proof.
  revert cur. induction l as [|y l IH]; intros cur [Hne Hs]; cbn.
  { split; [|by exists cur, []]. split; [by split|repeat constructor]. }
  pose proof Hne as [Hc Hne1]%Forall_cons. pose proof Hne1 as [Hy Hne2]%Forall_cons.
  inversion Hs as [|? ? Hb Hs']; subst. pose proof Hb as [Hcy Hb']%Forall_cons.
  inversion Hs' as [|? ? Hyb Hs'']; subst.
  unfold nonempty_region, region_before in *.
  destruct (mergeable cur y) eqn:Hm.
  - destruct (IH (set_end (end_ y) cur)) as (Hok & r & rest & Hr & ?).
    { split; [apply Forall_cons; split; [unfold nonempty_region; cbn; lia|done]|].
      constructor; [|done]. eapply Forall_impl; [exact Hyb|]. cbn. done. }
    split; [done|]. by exists r, rest.
  - destruct (IH y) as (([Hne' Hs1] & Hd) & r & rest & Hr & Hbr & Ht & Hpm); [by split|].
    split; [|by exists cur, (merge_from y l)].
    pose proof (merge_from_bounds y l Hne1 Hs') as Hlow.
    split; [split|].
    + by apply Forall_cons.
    + constructor; [|done]. eapply Forall_impl; [exact Hlow|].
      intros x Hx. cbn in Hx. unfold region_before. lia.
    + constructor; [done|]. rewrite Hr. constructor.
      unfold distinct_neighbours, mergeable, InitialPageRegionAttributesEqual in *.
      by rewrite Hbr, Ht, Hpm.
Qed.

Lemma overlay_ok added l :
  nonempty_region added -> plan_sorted l -> plan_ok (overlay added l).
Proof.
  intros Ha Hl. unfold overlay, merge.
  destruct (cut_all_sorted added l Ha Hl) as [Hs Hap].
  pose proof (insert_sorted added _ Ha Hs Hap) as Hi.
  destruct (insert_region added (cut_all added l)) as [|x rem]; [|by apply merge_from_ok].
  split; [by split; constructor|constructor].
Qed.

Lemma overlay_attr added l a :
  nonempty_region added -> plan_sorted l ->
  attr_at (overlay added l) a =
  if covers added a then Some (type added, perms added) else attr_at l a.
Proof.
  intros Ha Hl. unfold overlay, merge.
  destruct (cut_all_sorted added l Ha Hl) as [Hs Hap].
  pose proof (insert_sorted added _ Ha Hs Hap) as [Hi _].
  pose proof (insert_attr added (cut_all added l) a) as Hia.
  rewrite cut_all_attr in Hia by done.

  destruct (insert_region added (cut_all added l)) as [|x rem].
  - rewrite Hia by (by intros ->). by case_match.
  - apply Forall_cons in Hi as [? ?]. rewrite merge_from_attr by done.
    rewrite Hia by (by intros ->). by case_match.
Qed.

(** The overlay adds at most two regions, because at most one region is split. *)
Lemma cut_all_length added l :
  nonempty_region added -> plan_sorted l -> (length (cut_all added l) <= S (length l))%nat.
Proof.
  intros Ha [Hne Hs]. induction Hs as [|e l Hb Hs IH]; [cbn; lia|].
  apply Forall_cons in Hne as [He Hne]. specialize (IH Hne).
  change (cut_all added (e :: l)) with (cut added e ++ cut_all added l).
  rewrite length_app. cbn [length].
  destruct (decide (length (cut added e) <= 1)%nat) as [?|Hbig]; [lia|].
  assert (cut_all added l = l) as ->.
  { apply cut_all_apart. eapply Forall_impl; [exact Hb|]. intros s Hsb.
    unfold cut, apart, region_before, nonempty_region in *.
    repeat case_match; cbn in Hbig; lia. }
  unfold cut. repeat case_match; cbn; lia.
Qed.

Lemma overlay_length added l :
  nonempty_region added -> plan_sorted l -> (length (overlay added l) <= S (S (length l)))%nat.
Proof.
  intros Ha Hl. pose proof (cut_all_length added l Ha Hl).
  assert (forall l', length (insert_region added l') = S (length l')) as Hi.
  { intros l'. induction l'; cbn; [done|]. case_match; cbn; lia. }
  assert (forall l' c, (length (merge_from c l') <= S (length l'))%nat) as Hm.
  { intros l'. induction l' as [|x l' IH]; intros c; cbn; [lia|].
    case_match; [specialize (IH (set_end (end_ x) c))|specialize (IH x)]; cbn; lia. }
  unfold overlay. specialize (Hi (cut_all added l)).
  destruct (insert_region added (cut_all added l)) as [|x rem]; cbn in *; [lia|].
  specialize (Hm rem x). lia.
Qed.

Section BuildFacts.
Context `{PagingConstants}.

Lemma Normalize_nonempty s n :
  NormalizeInitialPageRegion s = Some n ->
  nonempty_region n /\ begin n = begin s /\ end_ n = end_ s /\ type n = type s.
Proof.
  unfold NormalizeInitialPageRegion, nonempty_region. repeat case_match; try done.
  intros [= <-]. cbn. split_and!; try done. lia.
Qed.

(** The attributes the sources give to an address: those of the last region that covers it. *)
Fixpoint source_attr (source : list InitialPageRegion) (a : Z) (acc : option (Z * Z))
  : option (Z * Z) :=
  match source with
  | [] => acc
  | s :: source =>
    source_attr source a
      (match NormalizeInitialPageRegion s with
       | Some n => if covers n a then Some (type n, perms n) else acc
       | None => acc
       end)
  end.

Lemma build_loop_spec source plan count :
  (count <= length plan)%nat -> plan_ok (take count plan) ->
  exists b n out, build_loop source count plan = Some (b, n, out) /\
    length out = length plan /\
    (b = true -> (n <= length out)%nat /\ plan_ok (take n out) /\
      forall a, attr_at (take n out) a = source_attr source a (attr_at (take count plan) a)) /\
    ((count + 2 * length source <= length plan)%nat ->
       b = forallb (fun s => bool_decide (is_Some (NormalizeInitialPageRegion s))) source).
Proof.
  revert plan count. induction source as [|s source IH]; intros plan count Hc Hok; cbn [build_loop].
  { exists true, count, plan. split_and!; done. }
  cbn [forallb]. destruct (NormalizeInitialPageRegion s) as [nr|] eqn:Hn.
  2:{ exists false, O, plan. split_and!; try done. }
  destruct (Normalize_nonempty s nr Hn) as (Hne & _).
  pose proof (Overlay_refines plan count nr Hc Hne (proj1 Hok)) as Ho.
  pose proof (cut_all_length nr _ Hne (proj1 Hok)) as Hcl.
  pose proof (overlay_length nr _ Hne (proj1 Hok)) as Hol.
  rewrite length_take in Hcl, Hol.
  destruct (length plan <? _)%nat eqn:Hcap.
  { rewrite Ho. cbn. exists false, O, plan. split_and!; try done.
    intros Hroom. rewrite required_cells_length in Hcap. apply Nat.ltb_lt in Hcap.
    cbn [length] in Hroom. lia. }
  destruct Ho as (out & -> & Ht & Hl). cbn [mbind option_bind].
  destruct (IH out (length (overlay nr (take count plan)))) as (b & n & out' & -> & Hl' & Hb & Hr).
  { rewrite <- Ht, length_take. lia. }
  { rewrite Ht. by apply overlay_ok; [|apply Hok]. }
  exists b, n, out'. split_and!; [done|congruence| |].
  - intros ->. destruct (Hb eq_refl) as (? & ? & Hat). split_and!; [done|done|].
    intros a. rewrite Hat, Ht, overlay_attr by (done || apply Hok). cbn. by rewrite Hn.
  - intros Hroom. cbn [length] in Hroom. rewrite Hr by lia.
    rewrite bool_decide_eq_true_2 by done. done.
Qed.

(** C37: The in-place overlay of one region on an ordered page plan stays inside the plan array
    and is correct: it fails, changing nothing, exactly when the array is too small for the
    fragments; otherwise the plan is ordered, without empty or overlapping regions and without
    mergeable neighbours, every address of the added region has its type and permissions, and
    every other address keeps what it had. *)
Theorem OverlayInitialPageRegion_correct plan count added :
  (count <= length plan)%nat -> nonempty_region added -> plan_sorted (take count plan) ->
  exists b n out, OverlayInitialPageRegion plan count added = Some (b, n, out) /\
    length out = length plan /\
    b = (required_cells added (take count plan) <=? length plan)%nat /\
    if b then (n <= length out)%nat /\ plan_ok (take n out) /\
      forall a, attr_at (take n out) a =
        if covers added a then Some (type added, perms added) else attr_at (take count plan) a
    else n = count /\ out = plan.
Proof.
  intros Hc Ha Hs. pose proof (Overlay_refines plan count added Hc Ha Hs) as Ho.
  destruct (length plan <? _)%nat eqn:Hcap.
  - exists false, count, plan. split_and!; try done.
    symmetry. apply Nat.leb_gt. by apply Nat.ltb_lt.
  - destruct Ho as (out & -> & Ht & Hl).
    exists true, (length (overlay added (take count plan))), out.
    split_and!; try done.
    + symmetry. apply Nat.leb_le. by apply Nat.ltb_ge.
    + rewrite <- Ht, length_take. lia.
    + rewrite Ht. by apply overlay_ok.
    + intros a. rewrite Ht. by apply overlay_attr.
Qed.

(** C38: Building the initial page plan from any source list never leaves the array; when it
    succeeds the plan is ordered and minimal, and gives every address the attributes of the last
    source region that covers it (later regions win). *)
Theorem build_initial_page_plan_correct source plan :
  exists b n out, build_initial_page_plan source plan = Some (b, n, out) /\
    length out = length plan /\
    (b = true -> (n <= length out)%nat /\ plan_ok (take n out) /\
       forall a, attr_at (take n out) a = source_attr source a None).
Proof.
  destruct (build_loop_spec source plan 0) as (b & n & out & Hb & Hl & Hr & _).
  - lia.
  - rewrite take_0. split; [by split; constructor|constructor].
  - exists b, n, out. rewrite take_0 in Hr. done.
Qed.

(** The plan array of [2 * source_count] cells that the boot code allocates is always large
    enough: with that capacity, building the plan fails only because a source region is
    invalid, never because the plan is full. *)
Theorem build_plan_capacity_suffices source plan :
  (2 * length source <= length plan)%nat ->
  exists n out, build_initial_page_plan source plan
    = Some (forallb (fun s => bool_decide (is_Some (NormalizeInitialPageRegion s))) source, n, out).
Proof.
  intros Hroom. destruct (build_loop_spec source plan 0) as (b & n & out & Hb & _ & _ & Hr).
  - lia.
  - rewrite take_0. split; [by split; constructor|constructor].
  - exists n, out. unfold build_initial_page_plan. rewrite Hb, Hr by lia. done.
Qed.

Lemma validate_sorted previous l :
  plan_ok (match previous with Some p => p :: l | None => l end) ->
  validate_from previous l = forallb region_valid l.
Proof.
  revert previous. induction l as [|r l IH]; intros previous Hok; [done|]. cbn.
  assert (plan_ok (r :: l)) as Hrl.
  { destruct previous; [|done]. destruct Hok as [[Hne Hs] Hd].
    inversion Hne; inversion Hs; inversion Hd; subst. by split. }
  rewrite IH by done. f_equal. rewrite <- (andb_true_r (region_valid r)) at 2. f_equal.
  destruct previous as [p|]; [|done]. destruct Hok as [[_ Hs] Hd].
  inversion Hs as [|? ? Hb _]; subst. apply Forall_cons in Hb as [Hb _].
  inversion Hd as [|? ? _ Hpr]; subst. inversion Hpr as [|? ? Hm]; subst.
  unfold misordered. fold (mergeable p r). rewrite Hm.
  unfold region_before in Hb. rewrite orb_false_r. lia.
Qed.

(** A plan that [build_initial_page_plan] returned passes the ordering checks of
    [map_initial_page_regions]: the mapping pass rejects it only if one of its regions is not in
    normal form. *)
Theorem built_plan_passes_order_checks source plan n out :
  build_initial_page_plan source plan = Some (true, n, out) ->
  validate_from None (take n out) = forallb region_valid (take n out).
Proof.
  intros Hb. destruct (build_loop_spec source plan 0) as (b & n' & out' & Hb' & _ & Hr & _).
  { lia. } { rewrite take_0. split; [by split; constructor|constructor]. }
  unfold build_initial_page_plan in Hb. rewrite Hb in Hb'. simplify_eq.
  apply validate_sorted. by apply Hr.
Qed.

End BuildFacts.

Section MapFacts.
Context `{PagingConstants} `{!PageShiftLaws} {M : Type} `{!Mempool M} {PT : Type} `{!PageTable PT}.

Definition region_mappable (r : InitialPageRegion) : Prop :=
  0 <= begin r /\ begin r < end_ r /\ end_ r <= UMAX /\
  begin r mod 4096 = 0 /\ end_ r mod 4096 = 0.

Lemma map_regions_identity pg l (pt pt' : PT) (g g' : Registry M) :
  0 <= PAGESIZE_ANY -> registry_ok (records g) ->
  Forall region_mappable l -> ForallOrdPairs region_before l ->
  map_regions pg l pt g = Some (true, g', pt') ->
  registry_ok (records g') /\
  (forall a, Exists (fun r => covers r a = true) l ->
     exists t p, translate (records g') pg a = Some (a, t, p)) /\
  (forall pg' a, pg' <> pg \/ Forall (fun r => covers r a = false) l ->
     translate (records g') pg' a = translate (records g) pg' a).
Proof.
  intros Hany. revert pt g. induction l as [|r l IH]; intros pt g Hok Hmp Hs Hm; cbn in Hm.
  { simplify_eq. split_and!; [done|by intros a ?%Exists_nil|done]. }
  apply Forall_cons in Hmp as [(Hb0 & Hbe & Hen & Hba & Hea) Hmp].
  inversion Hs as [|? ? Hb Hs']; subst.
  set (props := Z.lor (Z.lor (perms r) (type r)) PGOPTS_omit_warnings) in *.
  unfold UMAX in *. rewrite usub_small in Hm by lia.
  assert (is_u64 (begin r)) as Hu1 by (unfold is_u64; lia).
  assert (is_u64 (end_ r - begin r)) as Hu2 by (unfold is_u64; lia).
  destruct (MapPages_cases pg pt (begin r) (begin r) (end_ r - begin r) PAGESIZE_ANY props g)
    as (b & g1 & pt1 & Heq & _); [done..|].
  rewrite Heq in Hm. cbn in Hm. destruct b; [|done].
  assert (registry_ok (records g1)) as Hok1 by (by eapply MapPages_ok; [..|exact Heq]).
  destruct (MapPages_translate_any _ _ _ _ _ _ _ _ _ Hok Hu1 Hu1 Hu2 Hany ltac:(lia) Heq)
    as (req & _ & Hrb & Hre & Hra & Hin & Hout).
  assert (forall a, in_range (virtual_range req) a = covers r a) as Hcov.
  { intros a. unfold in_range, covers. lia. }
  destruct (IH _ _ Hok1 Hmp Hs' Hm) as (Hok' & Hin' & Hout').
  split_and!; [done| |].
  - intros a [Ha|Ha]%Exists_cons; [|by apply Hin'].
    rewrite Hout'.
    + unfold covers in Ha. rewrite Hin by lia. do 2 eexists. do 3 f_equal. lia.
    + right. eapply Forall_impl; [exact Hb|]. intros s Hsb.
      unfold region_before, covers in *. lia.
  - intros pg' a Ha. rewrite Hout', Hout; [done| |].
    + destruct Ha as [?|Ha]; [by left|right]. rewrite Hcov. by apply Forall_cons in Ha as [? _].
    + destruct Ha as [?|Ha]; [by left|right]. by apply Forall_cons in Ha as [_ ?].
Qed.

Lemma region_valid_mappable r :
  region_valid r = true -> 0 <= begin r -> end_ r <= UMAX -> region_mappable r.
Proof.
  unfold region_valid, NormalizeInitialPageRegion. rewrite pagesize_4kb_shift.
  change (Z.shiftl 1 12 - 1) with (PAGE_SIZE - 1).
  fold (page_offset (begin r)) (page_offset (end_ r)). rewrite !page_offset_mod.
  intros Hv ? ?. destruct ((end_ r <=? begin r) || _ || _ || _ || _ || _) eqn:E; [done|].
  unfold truthy in E. unfold region_mappable. lia.
Qed.

(** When [map_initial_page_regions] succeeds on a plan built for 64-bit addresses, every
    planned address is mapped to itself in that page table, every other address and every other
    page table keeps its translation, and the registry is well formed. *)
Theorem map_initial_page_regions_identity pg plan (pt pt' : PT) (g g' : Registry M) :
  0 <= PAGESIZE_ANY -> registry_ok (records g) ->
  plan_ok plan -> Forall (fun r => 0 <= begin r /\ end_ r <= UMAX) plan ->
  map_initial_page_regions pg plan pt g = Some (true, g', pt') ->
  registry_ok (records g') /\
  (forall a, Exists (fun r => covers r a = true) plan ->
     exists t p, translate (records g') pg a = Some (a, t, p)) /\
  (forall pg' a, pg' <> pg \/ Forall (fun r => covers r a = false) plan ->
     translate (records g') pg' a = translate (records g) pg' a).
Proof.
  intros Hany Hok Hplan Hb. unfold map_initial_page_regions.
  rewrite (validate_sorted None) by done. case_match eqn:Hv; [|done].
  intros Hm. eapply map_regions_identity; [done|done| |apply Hplan|exact Hm].
  apply Forall_forall. intros r Hr. rewrite Forall_forall in Hb.
  apply list_elem_of_In in Hr as Hr'. rewrite forallb_forall in Hv.
  apply region_valid_mappable; [by apply Hv|by apply Hb..].
Qed.

End MapFacts.

(** ** Witnesses *)

Module PlanWitness.
Import Interfaces.Example.

(** Low memory as write-back, with the VGA window laid over it as device memory. *)
Definition source : list InitialPageRegion :=
  [MkRegion 0 0x200000 64 3; MkRegion 0xA0000 0xC0000 320 3].

Definition empty_plan : list InitialPageRegion := replicate 4 (MkRegion 0 0 0 0).

Definition vga_plan : list InitialPageRegion :=
  [MkRegion 0 0xA0000 64 3; MkRegion 0xA0000 0xC0000 320 3; MkRegion 0xC0000 0x200000 64 3].

Example build_vga : (fun '(b, n, out) => (b, take n out)) <$> build_initial_page_plan source empty_plan
  = Some (true, vga_plan).
Proof. reflexivity. Qed.

Lemma vga_plan_ok : plan_ok vga_plan.
Proof.
  split; [split|]; repeat (first [constructor | apply Forall_cons; split]);
    unfold nonempty_region, region_before, distinct_neighbours; cbn; done || lia.
Qed.

Lemma Overlay_witness : exists b n out,
  OverlayInitialPageRegion (vga_plan ++ [MkRegion 0 0 0 0; MkRegion 0 0 0 0]) 3
    (MkRegion 0x100000 0x101000 320 3) = Some (b, n, out) /\ plan_ok (take n out).
Proof.
  destruct (OverlayInitialPageRegion_correct
    (vga_plan ++ [MkRegion 0 0 0 0; MkRegion 0 0 0 0]) 3 (MkRegion 0x100000 0x101000 320 3))
    as (b & n & out & Heq & _ & Hb & Hr).
  - cbn. lia.
  - unfold nonempty_region. cbn. lia.
  - exact (proj1 vga_plan_ok).
  - exists b, n, out. split; [exact Heq|]. rewrite Hb in Hr. exact (proj1 (proj2 Hr)).
Defined.

Lemma capacity_witness : exists n out,
  build_initial_page_plan source empty_plan = Some (true, n, out).
Proof.
  destruct (build_plan_capacity_suffices source empty_plan) as (n & out & Heq); [cbn; lia|].
  exists n, out. exact Heq.
Defined.

Lemma order_checks_witness : exists n out,
  build_initial_page_plan source empty_plan = Some (true, n, out) /\
  validate_from None (take n out) = forallb region_valid (take n out).
Proof.
  destruct (build_initial_page_plan source empty_plan) as [[[[] n] out]|] eqn:Hrun;
    [|vm_compute in Hrun; discriminate..].
  exists n, out. split; [reflexivity|].
  exact (built_plan_passes_order_checks source empty_plan n out Hrun).
Defined.

Definition small_plan : list InitialPageRegion :=
  [MkRegion 0x1000 0x3000 64 3; MkRegion 0x3000 0x4000 320 3].

Definition small_run : option (bool * Registry Pool * Table) :=
  map_initial_page_regions 7 small_plan ∅ (MkRegistry [] (MkPool 0x1000 0x100000 [])).

Lemma map_identity_witness : exists g' pt', small_run = Some (true, g', pt') /\
  exists t p, translate (records g') 7 0x3008 = Some (0x3008, t, p).
Proof.
  destruct small_run as [[[[] g'] pt']|] eqn:Hrun; [|vm_compute in Hrun; discriminate..].
  destruct (map_initial_page_regions_identity (M:=Pool) (PT:=Table) 7 small_plan ∅ pt'
    (MkRegistry [] (MkPool 0x1000 0x100000 [])) g') as (_ & Hin & _).
  - cbn. lia.
  - split; constructor.
  - split; [split|]; repeat (first [constructor | apply Forall_cons; split]);
      unfold nonempty_region, region_before, distinct_neighbours; cbn; done || lia.
  - repeat (apply Forall_cons; split); [cbn; unfold UMAX; lia..|by apply Forall_nil].
  - exact Hrun.
  - exists g', pt'. split; [reflexivity|]. apply Hin.
    apply Exists_cons_tl. by apply Exists_cons_hd.
Defined.

End PlanWitness.
