(* ===== verification/ManagedPages.v ===== *)
(** * Reference-counted physical pages ([mecocoa/memoman-page.cpp], lines 129-206, 547-611)

    A page handed to the page manager is owned by a record in a hash table of 256 buckets; the
    record counts the page-table mappings and the cache references to it, and the page goes back
    to the pool when both counts reach zero.  A bucket is the Rocq list of its linked records.
    Whether the small allocations ([new]) succeed is an input of the operations that make them;
    what the shared-pointer constructor does with the page when it fails is the library's, a
    parameter. *)
From S2P Require Import Prelude Interfaces.

Inductive ManagedPageSource := Anonymous | File | ELF.

#[export] Instance ManagedPageSource_eq_dec : EqDecision ManagedPageSource.
Proof. solve_decision. Defined.

Record ManagedPage := MkPage {
  physical_address : Z;
  source : ManagedPageSource;
  mapping_refs : Z;
  cache_refs : Z;
}.

Definition managed_page_bucket_count : Z := 256.

Definition bucket_of (pa : Z) : nat :=
  Z.to_nat (pa / PAGE_SIZE mod managed_page_bucket_count).

(** ** One bucket: the chain [FindManagedPageRecord] walks *)

Definition find_record (pa : Z) (chain : list ManagedPage) : option ManagedPage :=
  List.find (fun p => physical_address p =? pa) chain.

(** Replace, or unlink, the first record of the page. *)
Fixpoint update_record (pa : Z) (f : ManagedPage -> option ManagedPage)
  (chain : list ManagedPage) : list ManagedPage :=
  match chain with
  | [] => []
  | p :: rest =>
    if physical_address p =? pa then
      match f p with Some p' => p' :: rest | None => rest end
    else p :: update_record pa f rest
  end.

Definition refs (cache_reference : bool) (p : ManagedPage) : Z :=
  if cache_reference then cache_refs p else mapping_refs p.

Definition set_refs (cache_reference : bool) (n : Z) (p : ManagedPage) : ManagedPage :=
  if cache_reference
  then MkPage (physical_address p) (source p) (mapping_refs p) n
  else MkPage (physical_address p) (source p) n (cache_refs p).

Definition unreferenced (p : ManagedPage) : bool :=
  (mapping_refs p =? 0) && (cache_refs p =? 0).

Section Table.
Context {M : Type} `{!Mempool M}.

Record PageManager := MkManager { buckets : list (list ManagedPage); pages : M }.

Definition chain_of (pa : Z) (s : PageManager) : list ManagedPage :=
  buckets s !!! bucket_of pa.

Definition FindManagedPageRecord (pa : Z) (s : PageManager) : option ManagedPage :=
  find_record pa (chain_of pa s).

Definition set_chain (pa : Z) (chain : list ManagedPage) (s : PageManager) : PageManager :=
  MkManager (<[bucket_of pa := chain]> (buckets s)) (pages s).

(** [mempool.deallocate(pa, PAGE_SIZE)] *)
Definition free_page (pa : Z) (s : PageManager) : PageManager :=
  MkManager (buckets s) (mp_deallocate (pages s) pa PAGE_SIZE).2.

Definition RetainManagedPageReference (pa : Z) (cache_reference : bool) (s : PageManager)
  : bool * PageManager :=
  match FindManagedPageRecord pa s with
  | None => (false, s)
  | Some p =>
    if refs cache_reference p =? UMAX then (false, s)
    else (true, set_chain pa
      (update_record pa (fun p => Some (set_refs cache_reference (refs cache_reference p +w 1) p))
        (chain_of pa s)) s)
  end.

(** The record is unlinked under the lock; its page is destroyed after the lock is released,
    which gives the physical page back. *)
Definition ReleaseManagedPageReference (pa : Z) (cache_reference : bool) (s : PageManager)
  : bool * PageManager :=
  match FindManagedPageRecord pa s with
  | None => (false, s)
  | Some p =>
    if refs cache_reference p =? 0 then (false, s)
    else
      let p' := set_refs cache_reference (refs cache_reference p -w 1) p in
      if unreferenced p'
      then (true, free_page (physical_address p)
                    (set_chain pa (update_record pa (fun _ => None) (chain_of pa s)) s))
      else (true, set_chain pa (update_record pa (fun _ => Some p') (chain_of pa s)) s)
  end.

Definition RetainManagedPageMapping (pa : Z) := RetainManagedPageReference pa false.
Definition ReleaseManagedPageMapping (pa : Z) := ReleaseManagedPageReference pa false.
Definition RetainManagedPageCache (pa : Z) := RetainManagedPageReference pa true.
Definition ReleaseManagedPageCache (pa : Z) := ReleaseManagedPageReference pa true.

Definition QueryManagedPage (pa : Z) (s : PageManager) : option ManagedPage :=
  FindManagedPageRecord pa s.

(** [make_owner] is the shared-pointer constructor: it may fail, and then disposes of the page
    as the library does. *)
Definition AdoptManagedPage (make_owner : Z -> PageManager -> bool * PageManager)
  (new_page new_record : bool) (pa : Z) (src : ManagedPageSource) (s : PageManager)
  : bool * PageManager :=
  if (pa =? 0) || (pa =? UMAX) || truthy (Z.land pa (PAGE_SIZE - 1)) then
    (false, if negb (pa =? 0) && negb (pa =? UMAX) then free_page pa s else s)
  else if negb new_page then (false, free_page pa s)
  else match make_owner pa s with
  | (false, s) => (false, s)
  | (true, s) =>
    if negb new_record then (false, free_page pa s)
    else match FindManagedPageRecord pa s with
    | None => (true, set_chain pa (chain_of pa s ++ [MkPage pa src 1 0]) s)
    | Some _ => (false, s)
    end
  end.

(** ** Abstract specification: a finite map of pages *)

Definition represents (s : PageManager) (m : gmap Z ManagedPage) : Prop :=
  forall pa, FindManagedPageRecord pa s = m !! pa.

(** Every record is in the bucket of its address, addresses are unique in a chain, counts are
    words, and no record is left without a reference. *)
Definition manager_ok (s : PageManager) : Prop :=
  length (buckets s) = 256%nat /\
  forall i chain, buckets s !! i = Some chain ->
    NoDup (physical_address <$> chain) /\
    Forall (fun p => bucket_of (physical_address p) = i /\
      is_u64 (mapping_refs p) /\ is_u64 (cache_refs p) /\ unreferenced p = false) chain.

Definition spec_retain (pa : Z) (c : bool) (m : gmap Z ManagedPage)
  : bool * gmap Z ManagedPage :=
  match m !! pa with
  | None => (false, m)
  | Some p => if refs c p =? UMAX then (false, m)
              else (true, <[pa := set_refs c (refs c p + 1) p]> m)
  end.

(** The result, the map, and the page that is freed, if any. *)
Definition spec_release (pa : Z) (c : bool) (m : gmap Z ManagedPage)
  : bool * gmap Z ManagedPage * option Z :=
  match m !! pa with
  | None => (false, m, None)
  | Some p =>
    if refs c p =? 0 then (false, m, None)
    else let p' := set_refs c (refs c p - 1) p in
      if unreferenced p' then (true, delete pa m, Some pa) else (true, <[pa := p']> m, None)
  end.

End Table.

Arguments PageManager : clear implicits.
Arguments MkManager {M}.

(** ** Chains *)

Lemma find_record_pa pa chain p : find_record pa chain = Some p -> physical_address p = pa.
Proof. intros [_ H]%find_some. lia. Qed.

Lemma find_record_cons pa p chain :
  find_record pa (p :: chain) =
  if physical_address p =? pa then Some p else find_record pa chain.
Proof. done. Qed.

Lemma find_record_None pa chain :
  find_record pa chain = None <-> pa ∉ physical_address <$> chain.
Proof.
  induction chain as [|p chain IH]; cbn; [split; [by intros _ ?%not_elem_of_nil|done]|].
  rewrite not_elem_of_cons. destruct (physical_address p =? pa) eqn:E.
  - split; [done|]. intros [? _]. lia.
  - rewrite IH. split; [|by intros [_ ?]]. intros. split; [lia|done].
Qed.

Lemma find_update pa f chain pa' :
  NoDup (physical_address <$> chain) ->
  (forall p p', f p = Some p' -> physical_address p' = physical_address p) ->
  find_record pa' (update_record pa f chain) =
  if pa' =? pa then match find_record pa chain with Some p => f p | None => None end
  else find_record pa' chain.
Proof.
  intros Hnd Hf. induction chain as [|p chain IH]; cbn [update_record]; [cbn; by case_match|].
  rewrite fmap_cons in Hnd. apply NoDup_cons in Hnd as [Hni Hnd]. rewrite !find_record_cons.
  destruct (physical_address p =? pa) eqn:E.
  - assert (physical_address p = pa) as Hp by lia. rewrite Hp, (Z.eqb_sym pa pa').
    destruct (f p) as [p'|] eqn:Hfp.
    + rewrite find_record_cons, (Hf _ _ Hfp), Hp, (Z.eqb_sym pa pa'). by case_match.
    + destruct (pa' =? pa) eqn:E'; [|done].
      assert (pa' = pa) as -> by lia. apply find_record_None. by rewrite <- Hp.
  - rewrite find_record_cons, IH by done. destruct (pa' =? pa) eqn:E'; [|done].
    assert (pa' = pa) as -> by lia. by rewrite E.
Qed.

Lemma update_in pa f chain p' :
  p' ∈ update_record pa f chain ->
  p' ∈ chain \/ exists p, p ∈ chain /\ physical_address p = pa /\ f p = Some p'.
Proof.
  induction chain as [|p chain IH]; cbn; [by intros ?%not_elem_of_nil|].
  destruct (physical_address p =? pa) eqn:E.
  - assert (physical_address p = pa) by lia.
    destruct (f p) as [q|] eqn:Hf; [|by left; right].
    intros [->|?]%elem_of_cons; [right; exists p; split_and!; [by left|done..]|by left; right].
  - intros [->|Hin]%elem_of_cons; [by left; left|].
    destruct (IH Hin) as [?|(q & ? & ? & ?)]; [by left; right|].
    right. exists q. split_and!; [by right|done..].
Qed.

Lemma update_NoDup pa f chain :
  (forall p p', f p = Some p' -> physical_address p' = physical_address p) ->
  NoDup (physical_address <$> chain) ->
  NoDup (physical_address <$> update_record pa f chain).
Proof.
  intros Hf. induction chain as [|p chain IH]; cbn; [done|].
  intros [Hni Hnd]%NoDup_cons. destruct (physical_address p =? pa) eqn:E.
  - destruct (f p) as [q|] eqn:Hq; [|done]. cbn. rewrite (Hf _ _ Hq). by apply NoDup_cons.
  - cbn. apply NoDup_cons. split; [|by apply IH]. intros Hin. apply Hni.
    apply list_elem_of_fmap in Hin as (q & Hq & Hin).
    apply update_in in Hin as [Hin|(r & Hr & Hpa & Hfr)].
    + rewrite Hq. by apply list_elem_of_fmap_2.
    + rewrite Hq, (Hf _ _ Hfr). by apply list_elem_of_fmap_2.
Qed.

(** ** The table *)

Section TableFacts.
Context {M : Type} `{!Mempool M}.
Implicit Types (s : PageManager M) (m : gmap Z ManagedPage).

Lemma bucket_of_lt pa : (bucket_of pa < 256)%nat.
Proof.
  unfold bucket_of, managed_page_bucket_count.
  pose proof (Z.mod_pos_bound (pa / PAGE_SIZE) 256). lia.
Qed.

Lemma chain_of_lookup pa s :
  manager_ok s -> buckets s !! bucket_of pa = Some (chain_of pa s).
Proof.
  intros [Hlen _]. unfold chain_of. apply list_lookup_lookup_total_lt.
  rewrite Hlen. apply bucket_of_lt.
Qed.

Lemma chain_of_ok pa s :
  manager_ok s ->
  NoDup (physical_address <$> chain_of pa s) /\
  Forall (fun p => bucket_of (physical_address p) = bucket_of pa /\
    is_u64 (mapping_refs p) /\ is_u64 (cache_refs p) /\ unreferenced p = false) (chain_of pa s).
Proof. intros Hok. apply (proj2 Hok). by apply chain_of_lookup. Qed.

Lemma set_chain_find pa chain s pa' :
  manager_ok s ->
  FindManagedPageRecord pa' (set_chain pa chain s) =
  if decide (bucket_of pa' = bucket_of pa) then find_record pa' chain
  else FindManagedPageRecord pa' s.
Proof.
  intros [Hlen _]. unfold FindManagedPageRecord, chain_of, set_chain. cbn.
  case_decide as Hb.
  - rewrite Hb, list_lookup_total_insert_eq; [done|]. rewrite Hlen. apply bucket_of_lt.
  - by rewrite list_lookup_total_insert_ne.
Qed.

Lemma set_chain_ok pa chain s :
  manager_ok s -> NoDup (physical_address <$> chain) ->
  Forall (fun p => bucket_of (physical_address p) = bucket_of pa /\
    is_u64 (mapping_refs p) /\ is_u64 (cache_refs p) /\ unreferenced p = false) chain ->
  manager_ok (set_chain pa chain s).
Proof.
  intros [Hlen Hb] Hnd Hf. split; cbn; [by rewrite length_insert|].
  intros i c Hc. destruct (decide (i = bucket_of pa)) as [->|Hne].
  - rewrite list_lookup_insert_eq in Hc by (rewrite Hlen; apply bucket_of_lt). by simplify_eq.
  - rewrite list_lookup_insert_ne in Hc by done. by apply Hb.
Qed.

Lemma found_ok pa s p :
  manager_ok s -> FindManagedPageRecord pa s = Some p ->
  physical_address p = pa /\ is_u64 (mapping_refs p) /\ is_u64 (cache_refs p) /\
  unreferenced p = false.
Proof.
  intros Hok Hf. unfold FindManagedPageRecord in Hf.
  split; [by eapply find_record_pa|].
  destruct (chain_of_ok pa s Hok) as [_ Hall]. rewrite Forall_forall in Hall.
  apply find_some in Hf as [Hin _]. apply list_elem_of_In in Hin. by apply Hall.
Qed.

(** Updating the record of a page is updating the finite map. *)
Lemma update_represents pa f s m :
  manager_ok s -> represents s m ->
  (forall p p', f p = Some p' -> physical_address p' = physical_address p) ->
  represents (set_chain pa (update_record pa f (chain_of pa s)) s)
    (match m !! pa ≫= f with Some p => <[pa := p]> m | None => delete pa m end).
Proof.
  intros Hok Hrep Hf pa'. rewrite set_chain_find by done.
  destruct (chain_of_ok pa s Hok) as [Hnd _].
  destruct (decide (pa' = pa)) as [->|Hne].
  - rewrite decide_True, find_update, Z.eqb_refl by done.
    change (find_record pa (chain_of pa s)) with (FindManagedPageRecord pa s). rewrite Hrep.
    destruct (m !! pa) as [p|]; cbn; [|by rewrite lookup_delete_eq].
    destruct (f p); [by rewrite lookup_insert_eq|by rewrite lookup_delete_eq].
  - assert (match m !! pa ≫= f with Some p => <[pa := p]> m | None => delete pa m end !! pa'
            = m !! pa') as ->.
    { case_match; [by rewrite lookup_insert_ne|by rewrite lookup_delete_ne]. }
    rewrite <- Hrep. case_decide as Hb; [|done].
    rewrite find_update by done. rewrite (proj2 (Z.eqb_neq _ _) Hne).
    unfold FindManagedPageRecord, chain_of. by rewrite Hb.
Qed.

Lemma update_ok pa f s :
  manager_ok s ->
  (forall p p', f p = Some p' -> physical_address p' = physical_address p) ->
  (forall p p', FindManagedPageRecord pa s = Some p -> f p = Some p' ->
     is_u64 (mapping_refs p') /\ is_u64 (cache_refs p') /\ unreferenced p' = false) ->
  manager_ok (set_chain pa (update_record pa f (chain_of pa s)) s).
Proof.
  intros Hok Hf Hp. destruct (chain_of_ok pa s Hok) as [Hnd Hall].
  apply set_chain_ok; [done|by apply update_NoDup|].
  rewrite Forall_forall in Hall |- *. intros q [Hq|(p & Hin & Hpa & Hfp)]%update_in; [by apply Hall|].
  rewrite (Hf _ _ Hfp). split; [by apply Hall|]. apply (Hp p); [|done].
  unfold FindManagedPageRecord.
  assert (find_record pa (chain_of pa s) <> None) as Hn.
  { rewrite find_record_None. intros Hni. apply Hni. by eapply list_elem_of_fmap_2'. }
  destruct (find_record pa (chain_of pa s)) as [p'|] eqn:E; [|done]. f_equal.
  (* two records of one chain with the same address are the same *)
  clear -Hnd Hin Hpa E. revert Hnd Hin E.
  induction (chain_of pa s) as [|r l IH]; intros Hnd Hin E; [by apply not_elem_of_nil in Hin|].
  rewrite fmap_cons in Hnd. apply NoDup_cons in Hnd as [Hni Hnd].
  rewrite find_record_cons in E. apply elem_of_cons in Hin as [->|Hin].
  - rewrite Hpa, Z.eqb_refl in E. congruence.
  - destruct (physical_address r =? pa) eqn:Er; [|by apply IH].
    exfalso. apply Hni. assert (physical_address r = physical_address p) as -> by lia.
    by apply list_elem_of_fmap_2.
Qed.

Lemma retain_map pa c s m :
  manager_ok s -> represents s m ->
  let '(b, s') := RetainManagedPageReference pa c s in
  let '(b', m') := spec_retain pa c m in
  b = b' /\ represents s' m' /\ manager_ok s' /\ pages s' = pages s.
Proof.
  intros Hok Hrep. unfold RetainManagedPageReference, spec_retain. rewrite <- (Hrep pa).
  destruct (FindManagedPageRecord pa s) as [p|] eqn:Hf; [|done].
  destruct (refs c p =? UMAX) eqn:Hmax; [done|].
  destruct (found_ok pa s p Hok Hf) as (Hpa & Hm & Hc & Hu).
  assert ((refs c p +w 1) = refs c p + 1) as Hadd.
  { apply uadd_small. unfold is_u64, refs, UMAX in *. destruct c; lia. }
  set (f := fun q => Some (set_refs c (refs c q +w 1) q)).
  assert (forall q q', f q = Some q' -> physical_address q' = physical_address q) as Hfpa.
  { unfold f, set_refs. intros q q' [= <-]. by destruct c. }
  split_and!; [done| | |done].
  - pose proof (update_represents pa f s m Hok Hrep Hfpa) as Hr.
    rewrite <- (Hrep pa), Hf in Hr. cbn in Hr. by rewrite Hadd in Hr.
  - apply update_ok; [done|done|]. intros p0 p' Hp0 Hp'. rewrite Hf in Hp0. simplify_eq.
    unfold f in Hp'. injection Hp' as <-. rewrite Hadd.
    unfold is_u64, refs, UMAX, set_refs, unreferenced in *. destruct c; cbn; lia.
Qed.

(** Taking a reference on a managed page refines the map specification: it succeeds exactly
    on a managed page whose count is not at its maximum, raises that one count by one, and
    changes no other page and no memory; the table invariant holds afterwards. *)
Theorem Retain_refines pa c s m :
  manager_ok s -> represents s m ->
  let '(b, s') := RetainManagedPageReference pa c s in
  let '(b', m') := spec_retain pa c m in
  b = b' /\ represents s' m' /\ manager_ok s' /\ pages s' = pages s.
Proof. exact (retain_map pa c s m). Qed.

Lemma free_page_represents pa s m : represents s m -> represents (free_page pa s) m.
Proof. done. Qed.

Lemma release_map pa c s m :
  manager_ok s -> represents s m ->
  let '(b, s') := ReleaseManagedPageReference pa c s in
  let '(b', m', freed) := spec_release pa c m in
  b = b' /\ represents s' m' /\ manager_ok s' /\
  pages s' = match freed with
             | Some a => (mp_deallocate (pages s) a PAGE_SIZE).2
             | None => pages s
             end.
Proof.
  intros Hok Hrep. unfold ReleaseManagedPageReference, spec_release. rewrite <- (Hrep pa).
  destruct (FindManagedPageRecord pa s) as [p|] eqn:Hf; [|done].
  destruct (refs c p =? 0) eqn:Hz; [done|].
  destruct (found_ok pa s p Hok Hf) as (Hpa & Hm & Hc & Hu).
  assert ((refs c p -w 1) = refs c p - 1) as ->.
  { apply usub_small. unfold is_u64, refs in *. destruct c; lia. }
  destruct (unreferenced (set_refs c (refs c p - 1) p)) eqn:Hun.
  - split_and!; [done| | |by rewrite Hpa].
    + apply free_page_represents.
      pose proof (update_represents pa (fun _ => None) s m Hok Hrep ltac:(done)) as Hr.
      by rewrite <- (Hrep pa), Hf in Hr.
    + apply (update_ok pa (fun _ => None)); done.
  - assert (physical_address (set_refs c (refs c p - 1) p) = pa) as Hpa'
      by (unfold set_refs; destruct c; done).
    assert (manager_ok (set_chain pa
      (update_record pa (fun _ => Some (set_refs c (refs c p - 1) p)) (chain_of pa s)) s) /\
      represents (set_chain pa
      (update_record pa (fun _ => Some (set_refs c (refs c p - 1) p)) (chain_of pa s)) s)
        (<[pa := set_refs c (refs c p - 1) p]> m)) as [? ?]; [|done].
    set (q := set_refs c (refs c p - 1) p) in *.
    assert (forall ch, find_record pa ch = Some p ->
      update_record pa (fun _ => Some q) ch
      = update_record pa (fun r => if physical_address r =? pa then Some q else Some r) ch) as Heq.
    { intros ch _. induction ch as [|r ch IH]; cbn; [done|].
      destruct (physical_address r =? pa); [done|]. by rewrite IH. }
    rewrite Heq by done. set (f := fun r => if physical_address r =? pa then Some q else Some r).
    assert (forall r r', f r = Some r' -> physical_address r' = physical_address r) as Hfpa.
    { unfold f. intros r r'. case_match; intros [= <-]; [lia|done]. }
    split.
    + apply update_ok; [done|done|]. intros p0 p' Hp0 Hp'. rewrite Hf in Hp0. simplify_eq.
      unfold f in Hp'. rewrite Z.eqb_refl in Hp'. injection Hp' as <-.
      split_and!; [..|done]; unfold q, is_u64, refs, set_refs in *; destruct c; cbn; lia.
    + pose proof (update_represents pa f s m Hok Hrep Hfpa) as Hr.
      rewrite <- (Hrep pa), Hf in Hr. cbn in Hr. unfold f in Hr at 2. rewrite Hpa, Z.eqb_refl in Hr.
      exact Hr.
Qed.

(** Dropping a reference refines the map specification: it succeeds exactly on a managed
    page with a non-zero count of that kind and lowers it by one; when that was the last
    reference of either kind the page leaves the table and is given back to the pool, exactly
    once and in no other case. *)
Theorem Release_refines pa c s m :
  manager_ok s -> represents s m ->
  let '(b, s') := ReleaseManagedPageReference pa c s in
  let '(b', m', freed) := spec_release pa c m in
  b = b' /\ represents s' m' /\ manager_ok s' /\
  pages s' = match freed with
             | Some a => (mp_deallocate (pages s) a PAGE_SIZE).2
             | None => pages s
             end.
Proof. exact (release_map pa c s m). Qed.

Definition valid_page (pa : Z) : bool :=
  negb ((pa =? 0) || (pa =? UMAX) || truthy (Z.land pa (PAGE_SIZE - 1))).

Lemma append_find pa chain p pa' :
  find_record pa chain = None -> physical_address p = pa ->
  find_record pa' (chain ++ [p]) =
  if pa' =? pa then Some p else find_record pa' chain.
Proof.
  intros Hn Hp. induction chain as [|q chain IH]; cbn [app].
  - rewrite find_record_cons, Hp, Z.eqb_sym. by case_match.
  - rewrite !find_record_cons. rewrite find_record_cons in Hn.
    destruct (physical_address q =? pa) eqn:E; [done|]. rewrite IH by done.
    destruct (physical_address q =? pa') eqn:E'; [|done].
    assert ((pa' =? pa) = false) as -> by lia. done.
Qed.

Lemma adopt_map make_owner np nr pa src s m :
  manager_ok s -> represents s m -> make_owner pa s = (true, s) ->
  let '(b, s') := AdoptManagedPage make_owner np nr pa src s in
  b = valid_page pa && np && nr && bool_decide (m !! pa = None) /\
  manager_ok s' /\
  represents s' (if b then <[pa := MkPage pa src 1 0]> m else m) /\
  pages s' = if valid_page pa && np && nr then pages s
             else if (pa =? 0) || (pa =? UMAX) then pages s
             else (mp_deallocate (pages s) pa PAGE_SIZE).2.
Proof.
  intros Hok Hrep Hown. unfold AdoptManagedPage, valid_page.
  destruct ((pa =? 0) || (pa =? UMAX)) eqn:H0; cbn [orb].
  { assert (negb (pa =? 0) && negb (pa =? UMAX) = false) as -> by lia. done. }
  assert (negb (pa =? 0) && negb (pa =? UMAX) = true) as -> by lia.
  destruct (truthy (Z.land pa (PAGE_SIZE - 1))); cbn [negb andb]; [done|].
  destruct np; cbn [negb andb]; [|done]. rewrite Hown.
  destruct nr; cbn [negb andb]; [|done]. rewrite <- (Hrep pa).
  destruct (FindManagedPageRecord pa s) as [p|] eqn:Hf; [done|].
  rewrite bool_decide_eq_true_2 by done.
  destruct (chain_of_ok pa s Hok) as [Hnd Hall].
  split_and!; [done| | |done].
  - apply set_chain_ok; [done| |].
    + rewrite fmap_app. apply NoDup_app. split_and!; [done| |by apply NoDup_singleton].
      intros x Hx Hx'. apply list_elem_of_singleton in Hx'. subst x. cbn in Hx.
      by apply find_record_None in Hf.
    + apply Forall_app. split; [done|]. apply Forall_singleton. cbn. unfold is_u64, unreferenced.
      cbn. split_and!; [done|lia..].
  - intros pa'. rewrite set_chain_find by done. destruct (decide (pa' = pa)) as [->|Hne].
    + rewrite decide_True, lookup_insert_eq by done.
      rewrite (append_find pa) by done. by rewrite Z.eqb_refl.
    + rewrite lookup_insert_ne by done. rewrite <- Hrep. case_decide as Hb; [|done].
      rewrite (append_find pa) by done. rewrite (proj2 (Z.eqb_neq _ _) Hne).
      unfold FindManagedPageRecord, chain_of. by rewrite Hb.
Qed.

(** Adopting a page, with a shared-pointer constructor that succeeds, adds it to the table
    with one mapping reference and no cache reference if it is a valid page that is not managed
    yet and the allocations succeed.  Adopting a managed page again fails and leaves it alone.
    In every other case the call fails and the page that was handed over is freed, except for
    the sentinels [0] and [~0]. *)
Theorem Adopt_refines make_owner np nr pa src s m :
  manager_ok s -> represents s m -> make_owner pa s = (true, s) ->
  let '(b, s') := AdoptManagedPage make_owner np nr pa src s in
  b = valid_page pa && np && nr && bool_decide (m !! pa = None) /\
  manager_ok s' /\
  represents s' (if b then <[pa := MkPage pa src 1 0]> m else m) /\
  pages s' = if valid_page pa && np && nr then pages s
             else if (pa =? 0) || (pa =? UMAX) then pages s
             else (mp_deallocate (pages s) pa PAGE_SIZE).2.
Proof. exact (adopt_map make_owner np nr pa src s m). Qed.

(** ** Sequences of operations *)

Inductive RefOp := ORetain (cache_reference : bool) | ORelease (cache_reference : bool).

(** Run a sequence on one page; the balance is the successful retains less the successful
    releases. *)
Fixpoint run_ops (pa : Z) (ops : list RefOp) (bal : Z) (s : PageManager M) : Z * PageManager M :=
  match ops with
  | [] => (bal, s)
  | ORetain c :: ops =>
    let '(b, s) := RetainManagedPageReference pa c s in
    run_ops pa ops (if b then bal + 1 else bal) s
  | ORelease c :: ops =>
    let '(b, s) := ReleaseManagedPageReference pa c s in
    run_ops pa ops (if b then bal - 1 else bal) s
  end.

Definition total_refs (o : option ManagedPage) : Z :=
  match o with Some p => mapping_refs p + cache_refs p | None => 0 end.

Lemma manager_represents s : manager_ok s ->
  exists m, represents s m.
Proof.
  intros Hok.
  exists (list_to_map ((fun p => (physical_address p, p)) <$> concat (buckets s))).
  intros pa.
  set (all := concat (buckets s)).
  assert (forall p, p ∈ all -> p ∈ chain_of (physical_address p) s) as Hin.
  { intros p [chain [Hp Hc]]%list_elem_of_In%in_concat. apply list_elem_of_In in Hp, Hc.
    apply list_elem_of_lookup in Hp as [i Hi]. destruct (proj2 Hok i chain Hi) as [_ Hall].
    rewrite Forall_forall in Hall. destruct (Hall p Hc) as [Hb _].
    unfold chain_of. rewrite Hb. by rewrite (list_lookup_total_correct _ _ _ Hi). }
  destruct (FindManagedPageRecord pa s) as [p|] eqn:Hf.
  - symmetry. apply elem_of_list_to_map_1'.
    + intros q Hq. apply list_elem_of_fmap in Hq as (r & Heq & Hr). simplify_eq.
      specialize (Hin r Hr).
      destruct (chain_of_ok (physical_address r) s Hok) as [Hnd _].
      clear -Hnd Hin Hf. unfold FindManagedPageRecord in Hf.
      revert Hnd Hin Hf. generalize (chain_of (physical_address r) s) as l.
      induction l as [|x l IH]; intros Hnd Hin Hf; [by apply not_elem_of_nil in Hin|].
      rewrite fmap_cons in Hnd. apply NoDup_cons in Hnd as [Hni Hnd].
      rewrite find_record_cons in Hf. apply elem_of_cons in Hin as [->|Hin].
      * rewrite Z.eqb_refl in Hf. congruence.
      * destruct (physical_address x =? physical_address r) eqn:Ex; [|by apply IH].
        exfalso. apply Hni. eapply list_elem_of_fmap_2'; [exact Hin|lia].
    + apply list_elem_of_fmap. exists p. split; [by rewrite (find_record_pa _ _ _ Hf)|].
      apply find_some in Hf as [Hp _]. unfold all. apply list_elem_of_In, in_concat.
      exists (chain_of pa s). split; [|done]. apply list_elem_of_In.
      eapply list_elem_of_lookup_2. by apply chain_of_lookup.
  - symmetry. apply not_elem_of_list_to_map_1. intros Hc.
    apply list_elem_of_fmap in Hc as ([pa' p] & Heq & Hc). cbn in Heq. subst pa'.
    apply list_elem_of_fmap in Hc as (r & Hr & Hc). simplify_eq.
    apply find_record_None in Hf. apply Hf. eapply list_elem_of_fmap_2'; [by apply Hin|done].
Qed.


End TableFacts.

(** ** Witnesses *)

Module PageWitness.
Import Interfaces.Example.

Definition empty_manager : PageManager Pool :=
  MkManager (replicate 256 []) (MkPool 0x1000 0x100000 []).

(** A page adopted for a file. *)
Definition adopted : PageManager Pool :=
  (AdoptManagedPage (fun _ s => (true, s)) true true 0x7000 File empty_manager).2.

Lemma empty_manager_ok : manager_ok empty_manager.
Proof.
  split; [done|]. intros i chain Hc. apply lookup_replicate in Hc as [-> _].
  split; constructor.
Qed.

Lemma empty_represents : represents empty_manager ∅.
Proof.
  intros pa. rewrite lookup_empty. unfold FindManagedPageRecord, chain_of, empty_manager. cbn [buckets].
  rewrite lookup_total_replicate_2 by apply bucket_of_lt. done.
Qed.

Lemma adopted_ok :
  manager_ok adopted /\ represents adopted {[0x7000 := MkPage 0x7000 File 1 0]}.
Proof.
  pose proof (adopt_map (fun _ s => (true, s)) true true 0x7000 File empty_manager ∅
    empty_manager_ok empty_represents eq_refl) as H.
  unfold adopted. destruct (AdoptManagedPage _ _ _ _ _ _) as [b s'].
  destruct H as (Hb & Hok & Hrep & _).
  assert (b = true) as -> by (rewrite Hb; vm_compute; reflexivity). split; [done|exact Hrep].
Qed.

Lemma Adopt_witness :
  let '(b, s') := AdoptManagedPage (fun _ s => (true, s)) true true 0x7000 File empty_manager in
  b = true /\ manager_ok s'.
Proof.
  pose proof (Adopt_refines (fun _ s => (true, s)) true true 0x7000 File empty_manager ∅
    empty_manager_ok empty_represents eq_refl) as H.
  destruct (AdoptManagedPage _ _ _ _ _ _) as [b s'].
  destruct H as (Hb & Hok & _). split; [rewrite Hb; vm_compute; reflexivity|exact Hok].
Defined.

Lemma Retain_witness :
  let '(b, s') := RetainManagedPageReference 0x7000 true adopted in
  b = true /\ represents s' {[0x7000 := MkPage 0x7000 File 1 1]}.
Proof.
  pose proof (Retain_refines 0x7000 true adopted _ (proj1 adopted_ok) (proj2 adopted_ok)) as H.
  destruct (RetainManagedPageReference _ _ _) as [b s'].
  unfold spec_retain in H. rewrite lookup_singleton_eq in H.
  destruct H as (Hb & Hr & _). split; [exact Hb|].
  rewrite insert_singleton_eq in Hr. exact Hr.
Defined.

Lemma Release_witness :
  let '(b, s') := ReleaseManagedPageReference 0x7000 false adopted in
  b = true /\ represents s' ∅ /\ pages s' = (mp_deallocate (pages adopted) 0x7000 PAGE_SIZE).2.
Proof.
  pose proof (Release_refines 0x7000 false adopted _ (proj1 adopted_ok) (proj2 adopted_ok)) as H.
  destruct (ReleaseManagedPageReference _ _ _) as [b s'].
  unfold spec_release in H. rewrite lookup_singleton_eq in H. cbn in H.
  destruct H as (Hb & Hr & _ & Hp). split; [exact Hb|]. split; [|exact Hp].
  rewrite delete_singleton_eq in Hr. exact Hr.
Defined.


End PageWitness.
