(* ===== verification/LowDma.v ===== *)
(** * The low DMA pool ([include/memoman.hpp], [MempoolLowdma]; [mecocoa/memoman.cpp])

    ISA DMA needs buffers below 16 MiB that do not cross a 64 KiB boundary.  The pool keeps two
    bitmaps of 2048 pages: the pages it owns, and the pages in use.  [uni::Bitmap]
    is a parameter ([Interfaces.Bitmap]); windows of 16 pages are searched in order. *)
From S2P Require Import Prelude Interfaces.

Record MempoolLowdma (B : Type) := MkDma {
  base_phys : Z;
  page_bitmap : B;
  pool_page_bits : B;
  page_count : Z;
  reserved_bytes : Z;
}.
Arguments MkDma {B}.
Arguments base_phys {B}.
Arguments page_bitmap {B}.
Arguments pool_page_bits {B}.
Arguments page_count {B}.
Arguments reserved_bytes {B}.

Section Pool.
Context {B : Type} `{!Bitmap B}.

(** [for0(page, n) bits.setof(first + page, b)] *)
Fixpoint set_run (bits : B) (first : Z) (n : nat) (b : bool) : B :=
  match n with
  | O => bits
  | S n => set_run (setof bits first b) (first + 1) n b
  end.

Definition with_used (used : B) (s : MempoolLowdma B) : MempoolLowdma B :=
  MkDma (base_phys s) used (pool_page_bits s) (page_count s) (reserved_bytes s).

(** The object before [Initialize]: empty bitmaps of 0x800000 / 0x1000 bits. *)
Definition fresh_pool : MempoolLowdma B :=
  MkDma 0 (bitmap_zero 2048) (bitmap_zero 2048) 16 0.

Definition Initialize (base : Z) (s : MempoolLowdma B) : MempoolLowdma B :=
  if base =? 0 then MkDma base (page_bitmap s) (pool_page_bits s) (page_count s) (reserved_bytes s)
  else MkDma base (page_bitmap s) (set_run (pool_page_bits s) 0 16 true) (page_count s) 0x10000.

Definition IsInRange (addr : Z) (s : MempoolLowdma B) : bool :=
  if (base_phys s =? 0) || (addr <? base_phys s)
     || (page_count s <=? Z.shiftr (addr -w base_phys s) 12) then false
  else bitof (pool_page_bits s) (Z.shiftr (addr -w base_phys s) 12).

Section Expand.
Context {M : Type} `{!Mempool M}.

(** One page of the expansion loop: reserve it in the main pool, or skip it. *)
Fixpoint expand_loop (n : nat) (page : Z) (s : MempoolLowdma B) (total_memsize : Z) (m : M)
  : MempoolLowdma B * Z * M :=
  match n with
  | O => (s, total_memsize, m)
  | S n =>
    match mp_reserve m (base_phys s +w Z.shiftl page 12) 0x1000 with
    | (false, m) => expand_loop n (page + 1) s total_memsize m
    | (true, m) =>
      expand_loop n (page + 1)
        (MkDma (base_phys s) (page_bitmap s) (setof (pool_page_bits s) page true)
          (page_count s) (reserved_bytes s +w 0x1000))
        (total_memsize -w 0x1000) m
    end
  end.

Definition Expand (s : MempoolLowdma B) (total_memsize : Z) (m : M)
  : Z * (MempoolLowdma B * Z * M) :=
  if base_phys s =? 0 then (0, (s, total_memsize, m))
  else if total_memsize +w reserved_bytes s <=? 0x02000000
  then (reserved_bytes s, (s, total_memsize, m))
  else
    let limit := Z.min (base_phys s +w 0x00800000) 0x01000000 in
    let count := Z.shiftr (limit -w base_phys s) 12 in
    let s := MkDma (base_phys s) (page_bitmap s) (pool_page_bits s) count (reserved_bytes s) in
    let r := expand_loop (Z.to_nat (count -w 16)) 16 s total_memsize m in
    (reserved_bytes r.1.1, r).

End Expand.

(** [while (count < pages && pool.bitof(first + count) && !used.bitof(first + count)) ++count;]
    ends with [count == pages]. *)
Fixpoint run_free (s : MempoolLowdma B) (first : Z) (n : nat) : bool :=
  match n with
  | O => true
  | S n => bitof (pool_page_bits s) first && negb (bitof (page_bitmap s) first)
           && run_free s (first + 1) n
  end.

(** [for0(i, 17 - pages)] in one window, [n] starts left. *)
Fixpoint scan_window (s : MempoolLowdma B) (window : Z) (pages : nat) (n : nat) (i : Z) : option Z :=
  match n with
  | O => None
  | S n =>
    let first := Z.shiftl window 4 + i in
    if run_free s first pages then Some first else scan_window s window pages n (i + 1)
  end.

(** [for0(window, page_count >> 4)], [n] windows left. *)
Fixpoint scan_windows (s : MempoolLowdma B) (pages : nat) (n : nat) (window : Z) : option Z :=
  match n with
  | O => None
  | S n =>
    match scan_window s window pages (17 - pages) 0 with
    | Some first => Some first
    | None => scan_windows s pages n (window + 1)
    end
  end.

Definition dma_pages (bytes : Z) : Z := Z.shiftr (bytes + 0xFFF) 12.

(** [Allocate]: [0] stands for the null pointer. *)
Definition Allocate (bytes : Z) (s : MempoolLowdma B) : Z * MempoolLowdma B :=
  if (base_phys s =? 0) || (bytes =? 0) || (0x10000 <? bytes) then (0, s)
  else
    let pages := Z.to_nat (dma_pages bytes) in
    match scan_windows s pages (Z.to_nat (Z.shiftr (page_count s) 4)) 0 with
    | None => (0, s)
    | Some first =>
      (base_phys s +w Z.shiftl first 12, with_used (set_run (page_bitmap s) first pages true) s)
    end.

(** [for0(page, pages) if (!pool || !used) return false;] *)
Fixpoint run_used (s : MempoolLowdma B) (first : Z) (n : nat) : bool :=
  match n with
  | O => true
  | S n => bitof (pool_page_bits s) first && bitof (page_bitmap s) first
           && run_used s (first + 1) n
  end.

Definition Deallocate (addr bytes : Z) (s : MempoolLowdma B) : bool * MempoolLowdma B :=
  if (base_phys s =? 0) || (addr <? base_phys s) || truthy (Z.land addr 0xFFF)
     || (0x10000 <? bytes) then (false, s)
  else
    let start_page := Z.shiftr (addr -w base_phys s) 12 in
    let pages := if bytes =? 0 then 1 else dma_pages bytes in
    if (page_count s <=? start_page) || (page_count s - start_page <? pages)
       || (16 <? Z.land start_page 15 + pages) then (false, s)
    else if negb (run_used s start_page (Z.to_nat pages)) then (false, s)
    else (true, with_used (set_run (page_bitmap s) start_page (Z.to_nat pages) false) s).

(** ** Invariant *)

Definition dma_ok (s : MempoolLowdma B) : Prop :=
  bitmap_size (page_bitmap s) = 2048 /\ bitmap_size (pool_page_bits s) = 2048 /\
  0 <= page_count s <= 2048 /\
  0 <= base_phys s /\ base_phys s mod 4096 = 0 /\
  base_phys s + page_count s * 4096 <= 0x1000000 /\
  (forall i, 0 <= i < 2048 -> bitof (page_bitmap s) i = true -> bitof (pool_page_bits s) i = true).

(** The pages [first .. first + n). *)
Definition in_run (first : Z) (n : nat) (i : Z) : bool :=
  (first <=? i) && (i <? first + Z.of_nat n).

(** ** Bits *)
Context `{!BitmapLaws B}.

Lemma size_set_run (bits : B) first n b : bitmap_size (set_run bits first n b) = bitmap_size bits.
Proof.
  revert bits first. induction n as [|n IH]; intros bits first; cbn; [done|].
  rewrite IH. apply bitmap_size_setof.
Qed.

Lemma bitof_set_run (bits : B) first n b j :
  0 <= first -> first + Z.of_nat n <= bitmap_size bits -> 0 <= j < bitmap_size bits ->
  bitof (set_run bits first n b) j = if in_run first n j then b else bitof bits j.
Proof.
  revert bits first. induction n as [|n IH]; intros bits first Hf Hl Hj; cbn [set_run].
  - assert (in_run first 0 j = false) as -> by (unfold in_run; lia). done.
  - rewrite IH by (rewrite ?bitmap_size_setof; lia). rewrite bitof_setof by lia.
    unfold in_run. repeat case_match; try done; lia.
Qed.

Lemma run_free_spec s first n :
  run_free s first n = true <->
  forall i, in_run first n i = true ->
    bitof (pool_page_bits s) i = true /\ bitof (page_bitmap s) i = false.
Proof.
  revert first. induction n as [|n IH]; intros first; cbn [run_free].
  - split; [|done]. intros _ i Hi. unfold in_run in Hi. lia.
  - rewrite !andb_true_iff, negb_true_iff, IH. unfold in_run. split.
    + intros [[? ?] Hr] i Hi. destruct (decide (i = first)) as [->|]; [done|]. apply Hr. lia.
    + intros Hr. split; [apply Hr; lia|]. intros i Hi. apply Hr. lia.
Qed.

Lemma run_free_false s first n : run_free s first n = false ->
  exists i, in_run first n i = true /\
    (bitof (pool_page_bits s) i = false \/ bitof (page_bitmap s) i = true).
Proof.
  revert first. induction n as [|n IH]; intros first; cbn [run_free]; [done|].
  rewrite !andb_false_iff, negb_false_iff. intros [[?|?]|Hr].
  - exists first. unfold in_run. split; [lia|by left].
  - exists first. unfold in_run. split; [lia|by right].
  - destruct (IH _ Hr) as (i & Hi & ?). exists i. unfold in_run in *. split; [lia|done].
Qed.

Lemma run_used_spec s first n :
  run_used s first n = true <->
  forall i, in_run first n i = true ->
    bitof (pool_page_bits s) i = true /\ bitof (page_bitmap s) i = true.
Proof.
  revert first. induction n as [|n IH]; intros first; cbn [run_used].
  - split; [|done]. intros _ i Hi. unfold in_run in Hi. lia.
  - rewrite !andb_true_iff, IH. unfold in_run. split.
    + intros [[? ?] Hr] i Hi. destruct (decide (i = first)) as [->|]; [done|]. apply Hr. lia.
    + intros Hr. split; [apply Hr; lia|]. intros i Hi. apply Hr. lia.
Qed.

(** ** The search *)

Lemma scan_window_spec s w pages n i :
  match scan_window s w pages n i with
  | Some first => exists k, i <= k < i + Z.of_nat n /\ first = Z.shiftl w 4 + k /\
                            run_free s first pages = true
  | None => forall k, i <= k < i + Z.of_nat n -> run_free s (Z.shiftl w 4 + k) pages = false
  end.
Proof.
  revert i. induction n as [|n IH]; intros i; cbn [scan_window].
  { intros k ?. lia. }
  destruct (run_free s (Z.shiftl w 4 + i) pages) eqn:E.
  - exists i. split_and!; [lia|lia|done|done].
  - specialize (IH (i + 1)). destruct (scan_window s w pages n (i + 1)).
    + destruct IH as (k & ? & ? & ?). exists k. split; [lia|done].
    + intros k Hk. destruct (decide (k = i)) as [->|]; [done|]. apply IH. lia.
Qed.

(** A start page and length inside one 64 KiB window of the pool. *)
Definition window_run (s : MempoolLowdma B) (first : Z) (pages : nat) : Prop :=
  0 <= first /\ first / 16 < Z.shiftr (page_count s) 4 /\ first mod 16 + Z.of_nat pages <= 16.

Lemma scan_windows_spec s pages n w :
  (1 <= pages <= 16)%nat -> 0 <= w ->
  match scan_windows s pages n w with
  | Some first => w <= first / 16 < w + Z.of_nat n /\ first mod 16 + Z.of_nat pages <= 16 /\
                  run_free s first pages = true
  | None => forall first, w <= first / 16 < w + Z.of_nat n ->
              first mod 16 + Z.of_nat pages <= 16 -> run_free s first pages = false
  end.
Proof.
  intros Hp. revert w. induction n as [|n IH]; intros w Hw; cbn [scan_windows].
  { intros first ?. lia. }
  pose proof (scan_window_spec s w pages (17 - pages) 0) as Hs.
  rewrite Z.shiftl_mul_pow2 in Hs by lia. change (2 ^ 4) with 16 in Hs.
  destruct (scan_window s w pages (17 - pages) 0) as [first|].
  - destruct Hs as (k & Hk & -> & Hr).
    assert ((w * 16 + k) / 16 = w) as -> by lia.
    assert ((w * 16 + k) mod 16 = k) as -> by lia. split_and!; [lia|lia|lia|done].
  - specialize (IH (w + 1) ltac:(lia)). destruct (scan_windows s pages n (w + 1)).
    + destruct IH as (? & ? & ?). split_and!; try done; lia.
    + intros first Hf Hm. destruct (decide (first / 16 = w)) as [Hw'|].
      * replace first with (w * 16 + first mod 16) by lia. apply Hs. lia.
      * apply IH; [lia|done].
Qed.

Lemma dma_pages_range bytes : 0 < bytes <= 0x10000 ->
  1 <= dma_pages bytes <= 16 /\ bytes <= dma_pages bytes * 4096 < bytes + 4096.
Proof.
  intros. unfold dma_pages. rewrite Z.shiftr_div_pow2 by lia. change (2 ^ 12) with 4096. lia.
Qed.

Lemma shiftr4 x : Z.shiftr x 4 = x / 16.
Proof. by rewrite Z.shiftr_div_pow2 by lia. Qed.

Lemma shiftr12 x : Z.shiftr x 12 = x / 4096.
Proof. by rewrite Z.shiftr_div_pow2 by lia. Qed.

Lemma shiftl12 x : Z.shiftl x 12 = x * 4096.
Proof. by rewrite Z.shiftl_mul_pow2 by lia. Qed.

Lemma window_run_fits s first pages : dma_ok s -> window_run s first pages ->
  first + Z.of_nat pages <= page_count s.
Proof. intros Hs (? & Hw & ?). rewrite shiftr4 in Hw. lia. Qed.

(** What [Allocate] does once its argument checks pass. *)
Lemma Allocate_search bytes s :
  dma_ok s -> base_phys s <> 0 -> 0 < bytes <= 0x10000 ->
  let pages := Z.to_nat (dma_pages bytes) in
  match Allocate bytes s with
  | (addr, s') =>
    (exists first, window_run s first pages /\ run_free s first pages = true /\
       addr = base_phys s + first * 4096 /\
       s' = with_used (set_run (page_bitmap s) first pages true) s) \/
    (addr = 0 /\ s' = s /\
     forall first, window_run s first pages -> run_free s first pages = false)
  end.
Proof.
  intros Hs Hb Hn pages. pose proof (dma_pages_range bytes Hn) as [Hp _].
  pose proof (scan_windows_spec s pages (Z.to_nat (Z.shiftr (page_count s) 4)) 0) as Hw.
  assert (0 <= Z.shiftr (page_count s) 4) by (rewrite shiftr4; unfold dma_ok in Hs; lia).
  specialize (Hw ltac:(lia) ltac:(lia)).
  unfold Allocate. fold pages.
  rewrite (proj2 (Z.eqb_neq _ _) Hb), (proj2 (Z.eqb_neq bytes 0)), (proj2 (Z.ltb_ge _ _)) by lia.
  cbn [orb]. destruct (scan_windows _ _ _ _) as [first|].
  - left. exists first. destruct Hw as (Hw & Hm & Hf).
    assert (window_run s first pages) as Hr by (unfold window_run; lia).
    split_and!; try done. pose proof (window_run_fits s first pages Hs Hr).
    unfold dma_ok in Hs. rewrite shiftl12, uadd_small by lia. lia.
  - right. split_and!; [done..|]. intros first (? & ? & ?). apply Hw; lia.
Qed.

Lemma set_run_ok s first pages b :
  dma_ok s -> 0 <= first -> first + Z.of_nat pages <= page_count s ->
  (b = true -> forall i, in_run first pages i = true -> bitof (pool_page_bits s) i = true) ->
  dma_ok (with_used (set_run (page_bitmap s) first pages b) s).
Proof.
  intros (Hu & Hpool & Hc & ? & ? & ? & Hsub) Hf Hl Hb. unfold dma_ok, with_used.
  cbn [page_bitmap pool_page_bits page_count base_phys]. rewrite size_set_run.
  split_and!; try done; try lia. intros i Hi.
  rewrite bitof_set_run by lia. destruct (in_run first pages i) eqn:E; auto.
Qed.

(** the pages a buffer of the low DMA pool gets.  On a well-formed pool a request of 1 to
    64 KiB either fails, and then no free run of that many pages exists in any 64 KiB window of
    the pool and the pool is unchanged; or it returns a page-aligned buffer below 16 MiB that lies
    inside one 64 KiB window and covers the request, made of pages the pool owns that were free,
    and exactly these pages become used. *)
Theorem Allocate_correct bytes s addr s' :
  dma_ok s -> base_phys s <> 0 -> 0 < bytes <= 0x10000 ->
  Allocate bytes s = (addr, s') ->
  dma_ok s' /\
  (addr <> 0 ->
   exists first pages,
     addr = base_phys s + first * 4096 /\ window_run s first pages /\
     bytes <= Z.of_nat pages * 4096 < bytes + 4096 /\ addr + bytes <= 0x1000000 /\
     (forall i, in_run first pages i = true ->
        bitof (pool_page_bits s) i = true /\ bitof (page_bitmap s) i = false) /\
     (forall i, 0 <= i < 2048 ->
        bitof (page_bitmap s') i = in_run first pages i || bitof (page_bitmap s) i)) /\
  (addr = 0 -> s' = s /\
   forall first, window_run s first (Z.to_nat (dma_pages bytes)) ->
     exists i, in_run first (Z.to_nat (dma_pages bytes)) i = true /\
       (bitof (pool_page_bits s) i = false \/ bitof (page_bitmap s) i = true)).
Proof.
  intros Hs Hb Hn HA. pose proof (Allocate_search bytes s Hs Hb Hn) as H. cbv zeta in H.
  rewrite HA in H. pose proof (dma_pages_range bytes Hn) as Hp.
  destruct H as [(first & Hr & Hf & -> & ->)|(-> & -> & Hnone)].
  - pose proof (window_run_fits _ _ _ Hs Hr). pose proof Hr as (H0 & _).
    rewrite run_free_spec in Hf. pose proof Hs as (? & _ & ? & ? & _ & ? & _).
    split; [apply set_run_ok; [done..|intros; by apply Hf]|].
    split; [intros _|lia]. exists first, (Z.to_nat (dma_pages bytes)).
    split_and!; try done; try lia. intros i Hi. cbn [with_used page_bitmap].
    rewrite bitof_set_run by lia. by destruct (in_run _ _ _).
  - split; [done|]. split; [done|]. intros _. split; [done|]. intros first Hr.
    apply Hnone in Hr. by apply run_free_false.
Qed.

(** The checks of [Deallocate] for a run of pages the pool handed out. *)
Lemma Deallocate_run s first bytes :
  dma_ok s -> base_phys s <> 0 -> 0 < bytes <= 0x10000 ->
  let pages := Z.to_nat (dma_pages bytes) in
  window_run s first pages -> run_used s first pages = true ->
  Deallocate (base_phys s + first * 4096) bytes s =
    (true, with_used (set_run (page_bitmap s) first pages false) s).
Proof.
  intros Hs Hb Hn pages Hr Hu. pose proof (dma_pages_range bytes Hn) as Hp.
  pose proof (window_run_fits _ _ _ Hs Hr). pose proof Hr as (Hf & _ & Hm).
  pose proof Hs as (_ & _ & ? & ? & ? & ? & _). unfold Deallocate.
  change 0xFFF with (2 ^ 12 - 1). rewrite land_mask by lia. change (2 ^ 12) with 4096.
  replace ((base_phys s + first * 4096) mod 4096) with 0 by lia.
  rewrite (proj2 (Z.eqb_neq _ _) Hb), !(proj2 (Z.ltb_ge _ _)) by lia. cbn [orb truthy negb Z.eqb].
  rewrite usub_small by lia.
  rewrite shiftr12. replace ((base_phys s + first * 4096 - base_phys s) / 4096) with first by lia.
  rewrite (proj2 (Z.eqb_neq bytes 0)) by lia. cbv zeta. fold pages.
  change 15 with (2 ^ 4 - 1). rewrite land_mask by lia. change (2 ^ 4) with 16.
  rewrite (proj2 (Z.leb_gt _ _)), !(proj2 (Z.ltb_ge _ _)) by lia. cbn [orb].
  by rewrite Hu.
Qed.

Lemma Deallocate_refuses s first bytes :
  dma_ok s -> base_phys s <> 0 -> 0 < bytes <= 0x10000 ->
  let pages := Z.to_nat (dma_pages bytes) in
  window_run s first pages ->
  forall i, in_run first pages i = true -> bitof (page_bitmap s) i = false ->
  Deallocate (base_phys s + first * 4096) bytes s = (false, s).
Proof.
  intros Hs Hb Hn pages Hr i Hi Hu. pose proof (dma_pages_range bytes Hn) as Hp.
  pose proof (window_run_fits _ _ _ Hs Hr). pose proof Hr as (Hf & _ & Hm).
  pose proof Hs as (_ & _ & ? & ? & ? & ? & _). unfold Deallocate.
  case_match; [done|]. rewrite usub_small by lia.
  rewrite shiftr12. replace ((base_phys s + first * 4096 - base_phys s) / 4096) with first by lia.
  rewrite (proj2 (Z.eqb_neq bytes 0)) by lia. cbv zeta. fold pages.
  case_match; [done|]. destruct (run_used s first pages) eqn:E; [|done].
  rewrite run_used_spec in E. destruct (E i Hi) as [_ E']. congruence.
Qed.

(** allocate then free.  Giving a buffer back with the size it was requested with succeeds and
    leaves every page bit of the pool as it was before the allocation; a second free of the same
    buffer is refused and changes nothing. *)
Theorem Allocate_Deallocate_roundtrip bytes s addr s' :
  dma_ok s -> base_phys s <> 0 -> 0 < bytes <= 0x10000 ->
  Allocate bytes s = (addr, s') -> addr <> 0 ->
  exists s'', Deallocate addr bytes s' = (true, s'') /\ dma_ok s'' /\
    (forall i, 0 <= i < 2048 -> bitof (page_bitmap s'') i = bitof (page_bitmap s) i) /\
    pool_page_bits s'' = pool_page_bits s /\
    Deallocate addr bytes s'' = (false, s'').
Proof.
  intros Hs Hb Hn HA Ha. pose proof (Allocate_search bytes s Hs Hb Hn) as H. cbv zeta in H.
  rewrite HA in H. pose proof (dma_pages_range bytes Hn) as Hp.
  destruct H as [(first & Hr & Hf & -> & ->)|(-> & _)]; [|done].
  set (pages := Z.to_nat (dma_pages bytes)) in *.
  pose proof (window_run_fits _ _ _ Hs Hr) as Hfit. pose proof Hr as (H0 & _).
  rewrite run_free_spec in Hf. pose proof Hs as (Hsz & _ & Hc & _).
  set (s1 := with_used _ s).
  assert (dma_ok s1) as Hs1 by (apply set_run_ok; [done..|intros; by apply Hf]).
  assert (forall i, 0 <= i < 2048 ->
    bitof (page_bitmap s1) i = in_run first pages i || bitof (page_bitmap s) i) as Hb1.
  { intros i Hi. unfold s1. cbn. rewrite bitof_set_run by lia. by destruct (in_run _ _ _). }
  eexists. split.
  { apply (Deallocate_run s1 first bytes Hs1 Hb Hn Hr). apply run_used_spec. intros i Hi. fold pages in Hi.
    split; [by apply Hf|]. rewrite Hb1, Hi; [done|]. unfold in_run in Hi. lia. }
  set (s2 := with_used _ s1). assert (dma_ok s2) as Hs2 by (apply set_run_ok; done).
  assert (forall i, 0 <= i < 2048 ->
    bitof (page_bitmap s2) i = if in_run first pages i then false else bitof (page_bitmap s) i)
    as Hb2.
  { intros i Hi. unfold s2. cbn. pose proof Hs1 as (? & _).
    rewrite bitof_set_run by (done || (cbn in *; lia)).
    specialize (Hb1 i Hi). cbn in Hb1. rewrite Hb1. by destruct (in_run _ _ _). }
  split_and!; [done| |done|].
  - intros i Hi. rewrite Hb2 by done. destruct (in_run first pages i) eqn:E; [|done].
    symmetry. by apply Hf.
  - apply (Deallocate_refuses s2 first bytes Hs2 Hb Hn Hr first).
    + unfold in_run. lia.
    + rewrite Hb2 by lia. destruct (in_run first pages first) eqn:E; [done|].
      unfold in_run in E. lia.
Qed.

(** ** Building the pool at boot *)

(** The number of bits set among the first [n]. *)
Fixpoint popcount (b : B) (n : nat) : Z :=
  match n with
  | O => 0
  | S n => popcount b n + Z.b2z (bitof b (Z.of_nat n))
  end.

Lemma popcount_setof b i n : 0 <= i < bitmap_size b -> Z.of_nat n <= bitmap_size b ->
  bitof b i = false ->
  popcount (setof b i true) n = popcount b n + Z.b2z (i <? Z.of_nat n).
Proof.
  intros Hi Hn Hb. induction n as [|n IH]; cbn [popcount]; [cbn; lia|].
  rewrite IH, bitof_setof by lia. destruct (i =? Z.of_nat n) eqn:E.
  - assert (i = Z.of_nat n) as -> by lia. rewrite Hb. cbn [Z.b2z]. lia.
  - lia.
Qed.

Lemma popcount_zero n m : 0 <= n -> Z.of_nat m <= n -> popcount (bitmap_zero n) m = 0.
Proof.
  intros Hn. induction m as [|m IH]; intros Hm; cbn; [done|].
  rewrite bitmap_zero_bit by lia. cbn. rewrite IH; lia.
Qed.

Lemma popcount_set_run b first n : 0 <= first -> first + Z.of_nat n <= bitmap_size b ->
  bitmap_size b = 2048 -> (forall i, first <= i < 2048 -> bitof b i = false) ->
  popcount (set_run b first n true) 2048 = popcount b 2048 + Z.of_nat n.
Proof.
  revert b first. induction n as [|n IH]; intros b first Hf Hl Hs Hb; cbn [set_run]; [lia|].
  rewrite IH; [rewrite popcount_setof by (try apply Hb; lia); lia|lia| | |];
    rewrite ?bitmap_size_setof; try lia.
  intros i Hi. rewrite bitof_setof by lia. rewrite (proj2 (Z.eqb_neq _ _)) by lia. apply Hb. lia.
Qed.

(** A pool under construction: nothing is used, the pages from [page] on are not owned yet, and
    [reserved_bytes] counts the owned ones. *)
Definition building (page : Z) (s : MempoolLowdma B) : Prop :=
  dma_ok s /\ (forall i, 0 <= i < 2048 -> bitof (page_bitmap s) i = false) /\
  (forall i, page <= i < 2048 -> bitof (pool_page_bits s) i = false) /\
  reserved_bytes s = 4096 * popcount (pool_page_bits s) 2048 /\
  0 <= popcount (pool_page_bits s) 2048 <= page.

Lemma building_skip page s : building page s -> building (page + 1) s.
Proof.
  intros (? & ? & Hp & ? & ?). unfold building. split_and!; try done; try lia.
  intros i Hi. apply Hp. lia.
Qed.

Lemma building_take page s : 0 <= page < page_count s -> building page s ->
  building (page + 1)
    (MkDma (base_phys s) (page_bitmap s) (setof (pool_page_bits s) page true) (page_count s)
       (reserved_bytes s +w 0x1000)).
Proof.
  intros Hpg (Hok & Hu & Hp & Hr & Hc).
  pose proof Hok as (Hl1 & Hl2 & ? & ? & ? & ? & Hsub).
  assert (popcount (setof (pool_page_bits s) page true) 2048
          = popcount (pool_page_bits s) 2048 + 1) as Hpc.
  { rewrite popcount_setof; [lia|lia|lia|]. apply Hp. lia. }
  unfold building, dma_ok.
  cbn [base_phys page_bitmap pool_page_bits page_count reserved_bytes].
  rewrite bitmap_size_setof, Hpc, uadd_small by lia.
  split_and!; try done; try lia.
  - intros i Hi Hi'. rewrite Hu in Hi' by lia. done.
  - intros i Hi. rewrite bitof_setof by lia. rewrite (proj2 (Z.eqb_neq _ _)) by lia.
    apply Hp. lia.
Qed.

Lemma Initialize_building base : 0 < base -> base mod 4096 = 0 -> base + 0x10000 <= 0x1000000 ->
  building 16 (Initialize base fresh_pool).
Proof.
  intros Hb Hm Hl. unfold Initialize, fresh_pool. rewrite (proj2 (Z.eqb_neq _ _)) by lia.
  unfold building, dma_ok.
  cbn [base_phys page_bitmap pool_page_bits page_count reserved_bytes].
  rewrite size_set_run, bitmap_zero_size by lia.
  assert (popcount (set_run (bitmap_zero 2048 : B) 0 16 true) 2048 = 16) as ->.
  { rewrite popcount_set_run; rewrite ?bitmap_zero_size, ?popcount_zero; try lia.
    intros. by apply bitmap_zero_bit; lia. }
  split_and!; try done; try lia.
  - intros i Hi. rewrite bitmap_zero_bit by lia. done.
  - intros i Hi. by apply bitmap_zero_bit.
  - intros i Hi. rewrite bitof_set_run; rewrite ?bitmap_zero_size; try lia.
    rewrite bitmap_zero_bit by lia. unfold in_run. by case_match; [lia|].
Qed.

Section ExpandSpec.
Context {M : Type} `{!Mempool M}.

Lemma expand_loop_building n page s t (m : M) s' t' m' :
  building page s -> 0 <= page -> page + Z.of_nat n <= page_count s ->
  expand_loop n page s t m = (s', t', m') ->
  building (page + Z.of_nat n) s' /\ (t' +w reserved_bytes s') = (t +w reserved_bytes s) /\
  base_phys s' = base_phys s /\ page_count s' = page_count s /\
  (forall i, 0 <= i < page ->
     bitof (pool_page_bits s') i = bitof (pool_page_bits s) i).
Proof.
  revert page s t m. induction n as [|n IH]; intros page s t m Hb Hp Hn; cbn [expand_loop].
  { intros [= <- <- <-]. rewrite Z.add_0_r. done. }
  replace (page + Z.of_nat (S n)) with (page + 1 + Z.of_nat n) by lia.
  destruct (mp_reserve m (base_phys s +w Z.shiftl page 12) 4096) as [[] m1].
  - intros He. apply IH in He; [|by apply building_take; [lia|]|lia|cbn [page_count]; lia].
    destruct He as (? & Ht & ? & ? & Hbits). cbn [page_count base_phys reserved_bytes pool_page_bits] in *.
    split_and!; try done.
    + rewrite Ht. unfold uadd, usub. lia.
    + intros i Hi. rewrite Hbits by lia. destruct Hb as ((? & ? & ? & _) & _).
      rewrite bitof_setof by lia. by rewrite (proj2 (Z.eqb_neq _ _)) by lia.
  - intros He. apply IH in He; [|by apply building_skip|lia|lia].
    destruct He as (? & ? & ? & ? & Hbits). split_and!; try done. intros i Hi. apply Hbits. lia.
Qed.

(** the boot-time construction of the pool.  After [Initialize] at a page-aligned base whose
    first 64 KiB lie below 16 MiB, [Expand] yields a well-formed pool with every page free,
    the first 64 KiB still owned, no owned page at or above 16 MiB, [reserved_bytes] equal to
    4 KiB times the number of owned pages, and the sum of [total_memsize] and
    [reserved_bytes] unchanged, whatever pages the main pool agrees to give up. *)
Theorem Initialize_Expand_correct base total (m : M) r s' total' m' :
  0 < base -> base mod 4096 = 0 -> base + 0x10000 <= 0x1000000 ->
  Expand (Initialize base fresh_pool) total m = (r, (s', total', m')) ->
  dma_ok s' /\ base_phys s' = base /\ r = reserved_bytes s' /\
  reserved_bytes s' = 4096 * popcount (pool_page_bits s') 2048 /\
  (total' +w reserved_bytes s') = (total +w 0x10000) /\
  (forall i, 0 <= i < 16 -> bitof (pool_page_bits s') i = true) /\
  (forall i, 0 <= i < 2048 -> bitof (page_bitmap s') i = false) /\
  (forall i, 0 <= i < 2048 -> bitof (pool_page_bits s') i = true -> base + (i + 1) * 4096 <= 0x1000000).
Proof.
  intros Hb Hm Hl He. pose proof (Initialize_building base Hb Hm Hl) as HI.
  assert (base_phys (Initialize base fresh_pool) = base) as Hbase
    by (unfold Initialize; by case_match).
  assert (reserved_bytes (Initialize base fresh_pool) = 0x10000) as Hres
    by (unfold Initialize; case_match; [lia|done]).
  assert (page_count (Initialize base fresh_pool) = 16) as Hcount
    by (unfold Initialize; by case_match).
  assert (forall i, 0 <= i < 16 -> bitof (pool_page_bits (Initialize base fresh_pool)) i = true)
    as Hown.
  { intros i Hi. unfold Initialize. case_match; [lia|]. cbn [pool_page_bits fresh_pool].
    rewrite bitof_set_run by (rewrite ?bitmap_zero_size; lia). unfold in_run.
    by case_match; [|lia]. }
  unfold Expand in He. set (s0 := Initialize base fresh_pool) in *.
  rewrite Hbase, Hres in He. rewrite (proj2 (Z.eqb_neq _ _)) in He by lia.
  destruct (_ <=? _) in He.
  - injection He as <- <- <- <-. destruct HI as (? & Hu & Hp & ? & ?). rewrite <- Hres.
    split_and!; try done. intros i Hi Hi'. destruct (decide (i < 16)); [lia|].
    rewrite Hp in Hi' by lia. done.
  - cbv zeta in He.
    set (count := Z.shiftr _ 12) in He.
    assert (16 <= count <= 2048 /\ base + count * 4096 <= 0x1000000) as Hc.
    { unfold count. rewrite shiftr12, (uadd_small base) by lia. rewrite usub_small by lia. lia. }
    set (s1 := MkDma base (page_bitmap s0) (pool_page_bits s0) count 0x10000) in *.
    assert (building 16 s1) as H1.
    { destruct HI as ((? & ? & ? & ? & ? & ? & ?) & ? & ? & ? & ?).
      unfold building, dma_ok, s1. cbn [base_phys page_bitmap pool_page_bits page_count reserved_bytes].
      split_and!; try done; lia. }
    destruct (expand_loop _ _ _ _ _) as [[s2 t2] m2] eqn:E.
    injection He as <- <- <- <-. cbn [fst].
    apply expand_loop_building in E; [|done|lia|].
    2:{ unfold s1. cbn [page_count]. rewrite usub_small by lia. lia. }
    destruct E as ((Hok & Hu & Hp & Hr & _) & Ht & Hb2 & Hc2 & Hbits).
    rewrite usub_small in Hp by lia.
    split_and!; try done.
    + intros i Hi. rewrite Hbits by lia. by apply Hown.
    + intros i Hi Hi'. destruct (decide (i < count)) as [|Hge]; [lia|].
      rewrite Hp in Hi' by lia. done.
Qed.

End ExpandSpec.
End Pool.

(** ** Witnesses *)
Module DmaWitness.
Import Interfaces.Example.

Definition pool0 : MempoolLowdma (list bool) := Initialize 0x10000 fresh_pool.

Lemma pool0_ok : dma_ok pool0.
Proof. unfold pool0. apply Initialize_building; done || lia. Qed.

(** Three pages from the first window of a fresh pool. *)
Lemma Allocate_witness :
  0 < 9000 <= 0x10000 /\ (Allocate 9000 pool0).1 = 0x10000 /\
  dma_ok (Allocate 9000 pool0).2.
Proof.
  split; [lia|]. split; [vm_compute; reflexivity|].
  destruct (Allocate 9000 pool0) as [addr s'] eqn:E.
  apply (Allocate_correct 9000 pool0 addr s' pool0_ok ltac:(done) ltac:(lia) E).
Defined.

Lemma roundtrip_witness :
  exists s'', Deallocate 0x10000 9000 (Allocate 9000 pool0).2 = (true, s'') /\
    Deallocate 0x10000 9000 s'' = (false, s'').
Proof.
  assert (E : Allocate 9000 pool0 = (0x10000, (Allocate 9000 pool0).2)) by (vm_compute; reflexivity).
  destruct (Allocate_Deallocate_roundtrip 9000 pool0 0x10000 _ pool0_ok ltac:(done) ltac:(lia) E
    ltac:(done)) as (s'' & H1 & _ & _ & _ & H2).
  exists s''. split; [exact H1|exact H2].
Defined.

Lemma Expand_witness :
  exists r s' t' m', Expand (Initialize 0x10000 fresh_pool) 0x4000000 (MkPool 0 0 [])
    = (r, (s', t', m')) /\ dma_ok (B := list bool) s'.
Proof.
  destruct (Expand (Initialize 0x10000 fresh_pool) 0x4000000 (MkPool 0 0 []))
    as [r [[s' t'] m']] eqn:E.
  exists r, s', t', m'. split; [reflexivity|].
  apply (Initialize_Expand_correct (B := list bool) 0x10000 0x4000000 (MkPool 0 0 []) r s' t' m'
    ltac:(lia) ltac:(done) ltac:(lia) E).
Defined.

End DmaWitness.
