(* ===== verification/Vma.v ===== *)
(** * Virtual memory areas of a process ([mecocoa/memoman.cpp], [include/taskman.hpp])

    A process keeps its areas in a vector sorted by start address.  The vector is the Rocq list
    of its elements; whether [Append] finds room is the parameter [append_ok].  A file pointer is
    its address, 0 for null.  Each operation is related to what the list means: the attributes of
    the page at every address ([attr]). *)
From S2P Require Import Prelude Interfaces.

Module VirtualMemoryAreaType.
Inductive t := Anonymous | File | Device.
#[global] Instance eq_dec : EqDecision t.
Proof. solve_decision. Defined.
End VirtualMemoryAreaType.

Module VirtualMemoryAreaMode.
Inductive t := Private | Shared.
#[global] Instance eq_dec : EqDecision t.
Proof. solve_decision. Defined.
End VirtualMemoryAreaMode.

Record VirtualMemoryArea := MkVma {
  vm_start : Z;
  vm_end : Z;
  vm_flags : Z;
  vm_reservation : bool;
  vm_type : VirtualMemoryAreaType.t;
  vm_mode : VirtualMemoryAreaMode.t;
  vfile : Z;
  file_offset : Z;
}.

Definition set_start (x : Z) (v : VirtualMemoryArea) : VirtualMemoryArea :=
  MkVma x (vm_end v) (vm_flags v) (vm_reservation v) (vm_type v) (vm_mode v) (vfile v)
    (file_offset v).
Definition set_end (x : Z) (v : VirtualMemoryArea) : VirtualMemoryArea :=
  MkVma (vm_start v) x (vm_flags v) (vm_reservation v) (vm_type v) (vm_mode v) (vfile v)
    (file_offset v).
Definition set_backing (file offset : Z) (v : VirtualMemoryArea) : VirtualMemoryArea :=
  MkVma (vm_start v) (vm_end v) (vm_flags v) (vm_reservation v) (vm_type v) (vm_mode v)
    file offset.
Definition set_protection (flags : Z) (reservation : bool) (v : VirtualMemoryArea)
  : VirtualMemoryArea :=
  MkVma (vm_start v) (vm_end v) flags reservation (vm_type v) (vm_mode v) (vfile v)
    (file_offset v).

(** [vmas.Exchange(i, j)] and [vmas.Remove(i, 1)]. *)
Definition exchange {A} (l : list A) (i j : nat) : list A :=
  match l !! i, l !! j with
  | Some x, Some y => <[i := y]> (<[j := x]> l)
  | _, _ => l
  end.

Definition remove_at {A} (i : nat) (l : list A) : list A := delete i l.

(** The pages of [for (page = b; page < e; page += PAGE_SIZE)]. *)
Definition pages_between (b e : Z) : list Z :=
  (fun k => b + Z.of_nat k * PAGE_SIZE) <$> seq 0 (Z.to_nat ((e - b + (PAGE_SIZE - 1)) / PAGE_SIZE)).

(** [_MCCA == 0x8664] *)
Definition user_end : Z := 0x0000800000000000.

Section Operations.
Context {PT : Type} `{!PageTable PT} (append_ok : list VirtualMemoryArea -> bool).

Definition mapped (pt : PT) (page : Z) : bool := negb (pt_at pt page =? UMAX).

(** One round of the search: the area or the mapped page in the way gives the next candidate. *)
Definition blocking_vma (vmas : list VirtualMemoryArea) (candidate length : Z) : option Z :=
  vm_end <$> List.find (fun v => (candidate <? vm_end v) && (vm_start v <? candidate + length)) vmas.

Definition blocking_page (pt : PT) (candidate length : Z) : option Z :=
  (fun page => page + 0x1000) <$> List.find (mapped pt) (pages_between candidate (candidate + length)).

(** The [while] loop: [None] when the fuel runs out, else the function's result. *)
Fixpoint find_free_loop (fuel : nat) (vmas : list VirtualMemoryArea) (pt : PT)
  (candidate length : Z) : option (option Z) :=
  match fuel with
  | O => None
  | S fuel =>
    if (candidate <? user_end) && (length <=? user_end - candidate) then
      match blocking_vma vmas candidate length with
      | Some next => find_free_loop fuel vmas pt next length
      | None =>
        match blocking_page pt candidate length with
        | Some next => find_free_loop fuel vmas pt next length
        | None => Some (Some candidate)
        end
      end
    else Some None
  end.

Definition FindFreeVmaRange (fuel : nat) (heapbtm : Z) (vmas : list VirtualMemoryArea) (pt : PT)
  (length : Z) : option (option Z) :=
  if (length =? 0) || truthy (Z.land length 0xFFF) || (heapbtm <? 0x1000)
     || (user_end - 0xFFF <? heapbtm) then Some None
  else find_free_loop fuel vmas pt (Z.land (heapbtm +w 0xFFF) (Z.lnot 0xFFF)) length.

(** [for (i = Count() - 1; i && vmas[i].vm_start < vmas[i - 1].vm_start; --i) Exchange(i, i - 1)] *)
Fixpoint sift_back (i : nat) (vmas : list VirtualMemoryArea) : list VirtualMemoryArea :=
  match i with
  | O => vmas
  | S j =>
    match vmas !! i, vmas !! j with
    | Some v, Some p =>
      if vm_start v <? vm_start p then sift_back j (exchange vmas i j) else vmas
    | _, _ => vmas
    end
  end.

Definition vmas_overlap (v existing : VirtualMemoryArea) : bool :=
  (vm_start v <? vm_end existing) && (vm_start existing <? vm_end v).

Definition InsertVmaSorted (vma : VirtualMemoryArea) (vmas : list VirtualMemoryArea)
  : bool * list VirtualMemoryArea :=
  if (vm_end vma <=? vm_start vma) || truthy (Z.land (Z.lor (vm_start vma) (vm_end vma)) 0xFFF)
  then (false, vmas)
  else if existsb (vmas_overlap vma) vmas then (false, vmas)
  else if negb (append_ok vmas) then (false, vmas)
  else (true, sift_back (length vmas) (vmas ++ [vma])).

(** A reserved span that contains the replacement. *)
Definition reserved_for (replacement reserved : VirtualMemoryArea) : bool :=
  negb ((vm_start replacement <? vm_start reserved) || (vm_end reserved <? vm_end replacement)
        || negb (vm_reservation reserved)
        || negb (bool_decide (vm_type reserved = VirtualMemoryAreaType.Anonymous))
        || truthy (vm_flags reserved) || truthy (vfile reserved)).

(** The first index the [for] loop does not [continue] past. *)
Fixpoint find_index (f : VirtualMemoryArea -> bool) (vmas : list VirtualMemoryArea) (i : nat)
  : option (nat * VirtualMemoryArea) :=
  match vmas with
  | [] => None
  | v :: rest => if f v then Some (i, v) else find_index f rest (S i)
  end.

Definition ReplaceReservedVmaRange (replacement : VirtualMemoryArea) (pt : PT)
  (vmas : list VirtualMemoryArea) : bool * list VirtualMemoryArea :=
  if (vm_end replacement <=? vm_start replacement)
     || truthy (Z.land (Z.lor (vm_start replacement) (vm_end replacement)) (PAGE_SIZE - 1))
     || vm_reservation replacement then (false, vmas)
  else match find_index (reserved_for replacement) vmas 0 with
  | None => (false, vmas)
  | Some (i, reserved) =>
    if existsb (mapped pt) (pages_between (vm_start replacement) (vm_end replacement))
    then (false, vmas)
    else if (vm_start replacement =? vm_start reserved) && (vm_end replacement =? vm_end reserved)
    then (true, <[i := replacement]> vmas)
    else if vm_start replacement =? vm_start reserved then
      match InsertVmaSorted replacement (alter (set_start (vm_end replacement)) i vmas) with
      | (true, vmas) => (true, vmas)
      | (false, vmas) => (false, alter (set_start (vm_start reserved)) i vmas)
      end
    else if vm_end replacement =? vm_end reserved then
      match InsertVmaSorted replacement (alter (set_end (vm_start replacement)) i vmas) with
      | (true, vmas) => (true, vmas)
      | (false, vmas) => (false, alter (set_end (vm_end reserved)) i vmas)
      end
    else
      let right := set_start (vm_end replacement) reserved in
      match InsertVmaSorted right (alter (set_end (vm_start replacement)) i vmas) with
      | (false, vmas) => (false, alter (set_end (vm_end reserved)) i vmas)
      | (true, vmas) =>
        match InsertVmaSorted replacement vmas with
        | (true, vmas) => (true, vmas)
        | (false, vmas) =>
          (false, alter (set_end (vm_end reserved)) i (remove_at (i + 1) vmas))
        end
      end
  end.

End Operations.

(** The test of [MergeAdjacentAnonymousVmas]. *)
Definition mergeable (left right : VirtualMemoryArea) : bool :=
  bool_decide (vm_type left = VirtualMemoryAreaType.Anonymous) &&
  bool_decide (vm_type right = VirtualMemoryAreaType.Anonymous) &&
  (vm_end left =? vm_start right) && (vm_flags left =? vm_flags right) &&
  bool_decide (vm_mode left = vm_mode right) &&
  Bool.eqb (vm_reservation left) (vm_reservation right).

(** The loop keeps the index on a merged area: [left] is the area at the index. *)
Fixpoint merge_from (left : VirtualMemoryArea) (rest : list VirtualMemoryArea)
  : list VirtualMemoryArea :=
  match rest with
  | [] => [left]
  | next :: rest =>
    if mergeable left next then merge_from (set_end (vm_end next) left) rest
    else left :: merge_from next rest
  end.

Definition MergeAdjacentAnonymousVmas (vmas : list VirtualMemoryArea) : list VirtualMemoryArea :=
  match vmas with
  | [] => []
  | first :: rest => merge_from first rest
  end.

(** ** The meaning of an area list *)

Record vfs_file := MkFile { f_inode : Z; f_mode : Z }.

Definition covers (a : Z) (v : VirtualMemoryArea) : bool := (vm_start v <=? a) && (a <? vm_end v).

Definition vma_at (vmas : list VirtualMemoryArea) (a : Z) : option VirtualMemoryArea :=
  List.find (covers a) vmas.

(** What a process may observe of the page at an address: protection, kind, and for a file area
    the inode and the position in it. *)
Record Attr := MkAttr {
  a_flags : Z;
  a_reserved : bool;
  a_type : VirtualMemoryAreaType.t;
  a_mode : VirtualMemoryAreaMode.t;
  a_backing : option (Z * Z);
}.

Definition attr_of (files : gmap Z vfs_file) (a : Z) (v : VirtualMemoryArea) : Attr :=
  MkAttr (vm_flags v) (vm_reservation v) (vm_type v) (vm_mode v)
    (match vm_type v, files !! vfile v with
     | VirtualMemoryAreaType.File, Some f => Some (f_inode f, file_offset v +w (a -w vm_start v))
     | _, _ => None
     end).

Definition attr (files : gmap Z vfs_file) (vmas : list VirtualMemoryArea) (a : Z) : option Attr :=
  attr_of files a <$> vma_at vmas a.

(** ** Invariant: page-aligned, non-empty, sorted and disjoint *)

Definition vma_wf (v : VirtualMemoryArea) : Prop :=
  0 <= vm_start v < vm_end v /\ vm_end v < two64 /\
  vm_start v mod PAGE_SIZE = 0 /\ vm_end v mod PAGE_SIZE = 0.

#[global] Instance vma_wf_dec v : Decision (vma_wf v).
Proof. unfold vma_wf. apply _. Defined.

Definition before (v w : VirtualMemoryArea) : Prop := vm_end v <= vm_start w.

Definition vmas_ok (vmas : list VirtualMemoryArea) : Prop :=
  Forall vma_wf vmas /\ StronglySorted before vmas.

(** ** Lists of areas *)

Lemma vmas_ok_app l1 l2 :
  vmas_ok (l1 ++ l2) <-> vmas_ok l1 /\ vmas_ok l2 /\ (forall v w, v ∈ l1 -> w ∈ l2 -> before v w).
Proof. unfold vmas_ok. rewrite Forall_app, StronglySorted_app. tauto. Qed.

Lemma vmas_ok_cons v l :
  vmas_ok (v :: l) <-> vma_wf v /\ vmas_ok l /\ (forall w, w ∈ l -> before v w).
Proof.
  change (v :: l) with ([v] ++ l). rewrite vmas_ok_app. unfold vmas_ok at 1.
  rewrite Forall_singleton. split.
  - intros ([? _] & ? & Hb). split_and!; try done. intros. apply Hb; [by left|done].
  - intros (? & ? & Hb). split_and!; try done.
    + repeat constructor.
    + intros ? ? ->%list_elem_of_singleton ?. by apply Hb.
Qed.

Lemma vmas_ok_mid l1 v l2 : vmas_ok (l1 ++ v :: l2) -> vma_wf v.
Proof. rewrite vmas_ok_app, vmas_ok_cons. tauto. Qed.

Lemma vmas_ok_nil : vmas_ok [].
Proof. split; constructor. Qed.

Lemma vmas_ok_cons_2 v l : vma_wf v -> Forall (before v) l -> vmas_ok l -> vmas_ok (v :: l).
Proof. rewrite vmas_ok_cons, Forall_forall. auto. Qed.

(** [w] lies inside [v]. *)
Definition within (v w : VirtualMemoryArea) : Prop :=
  vm_start v <= vm_start w /\ vm_end w <= vm_end v.

(** A short explicit list of areas. *)
Ltac vmas_list :=
  repeat first [apply vmas_ok_nil | apply vmas_ok_cons_2 | apply Forall_cons_2 | apply Forall_nil_2];
  unfold vma_wf, before, within, PAGE_SIZE in *; destruct_and?;
  cbn [vm_start vm_end set_start set_end]; split_and?; first [assumption | lia].

(** Replacing one area by areas inside it. *)
Lemma vmas_ok_subst l1 v mid l2 :
  vmas_ok (l1 ++ v :: l2) -> vmas_ok mid -> Forall (within v) mid -> vmas_ok (l1 ++ mid ++ l2).
Proof.
  rewrite !vmas_ok_app, vmas_ok_cons. intros (? & (? & ? & Hv) & Hlt) Hm Hw.
  rewrite Forall_forall in Hw. split_and!; try done.
  - intros x y Hx Hy. apply Hw in Hx as [_ ?]. specialize (Hv y Hy). unfold before in *. lia.
  - intros x y Hx [Hy|Hy]%elem_of_app.
    + apply Hw in Hy as [? _]. specialize (Hlt x v Hx ltac:(by left)). unfold before in *. lia.
    + apply Hlt; [done|by right].
Qed.

Lemma vma_at_app l1 l2 a :
  vma_at (l1 ++ l2) a = match vma_at l1 a with Some v => Some v | None => vma_at l2 a end.
Proof. induction l1 as [|v l1 IH]; cbn; [done|]. by destruct (covers a v). Qed.

Lemma vma_at_none l a : (forall v, v ∈ l -> covers a v = false) -> vma_at l a = None.
Proof.
  intros Hnc. induction l as [|v l IH]; cbn; [done|]. rewrite Hnc by (by left).
  apply IH. intros. apply Hnc. by right.
Qed.

Lemma vma_at_Some l a v : vma_at l a = Some v -> v ∈ l /\ covers a v = true.
Proof. intros [? ?]%List.find_some. split; [by apply list_elem_of_In|done]. Qed.

(** An area of the list is the one found at its addresses. *)
Lemma vma_at_mid l1 v l2 a : vmas_ok (l1 ++ v :: l2) -> covers a v = true ->
  vma_at l1 a = None /\ vma_at l2 a = None.
Proof.
  rewrite vmas_ok_app, vmas_ok_cons. intros (_ & (? & _ & Hgt) & Hlt) Hc.
  split; apply vma_at_none; intros w Hw.
  - specialize (Hlt w v Hw ltac:(by left)). unfold before, covers in *. lia.
  - specialize (Hgt w Hw). unfold before, covers in *. lia.
Qed.

Lemma attr_subst files l1 v mid l2 a :
  vmas_ok (l1 ++ v :: l2) -> Forall (within v) mid ->
  attr files (l1 ++ mid ++ l2) a =
    if covers a v then attr files mid a else attr files (l1 ++ v :: l2) a.
Proof.
  intros Hok Hw. unfold attr. rewrite !vma_at_app. cbn [vma_at List.find].
  destruct (covers a v) eqn:Hc.
  - destruct (vma_at_mid _ _ _ _ Hok Hc) as [-> Hn]. by rewrite Hn; destruct (vma_at mid a).
  - rewrite (vma_at_none mid); [done|]. intros w Hi. rewrite Forall_forall in Hw.
    destruct (Hw w Hi). unfold covers in *. lia.
Qed.

(** Adding an area to the list. *)
Lemma attr_insert files l1 v l2 a : vmas_ok (l1 ++ v :: l2) ->
  attr files (l1 ++ v :: l2) a =
    if covers a v then Some (attr_of files a v) else attr files (l1 ++ l2) a.
Proof.
  intros Hok. unfold attr. rewrite !vma_at_app. cbn [vma_at List.find].
  destruct (covers a v) eqn:Hc; [|done]. by destruct (vma_at_mid _ _ _ _ Hok Hc) as [-> _].
Qed.

Lemma attr_singleton files v a :
  attr files [v] a = if covers a v then Some (attr_of files a v) else None.
Proof. unfold attr, vma_at. cbn. by destruct (covers a v). Qed.

(** ** Sorted insertion *)

Lemma lookup_second {A} (l1 : list A) p v l2 : (l1 ++ p :: v :: l2) !! S (length l1) = Some v.
Proof.
  rewrite lookup_app_r by lia. by replace (S (length l1) - length l1)%nat with 1%nat by lia.
Qed.

Lemma lookup_first {A} (l1 : list A) p l2 : (l1 ++ p :: l2) !! length l1 = Some p.
Proof. by apply list_lookup_middle. Qed.

Lemma exchange_mid {A} (l1 : list A) p v l2 :
  exchange (l1 ++ p :: v :: l2) (S (length l1)) (length l1) = l1 ++ v :: p :: l2.
Proof.
  unfold exchange.
  rewrite lookup_second, lookup_first.
  rewrite insert_app_r_alt by lia. rewrite Nat.sub_diag. cbn.
  rewrite insert_app_r_alt by lia. by replace (S (length l1) - length l1)%nat with 1%nat by lia.
Qed.

(** The exchange loop moves the last area over the areas that start after it. *)
Lemma sift_back_spec l1 m v l2 :
  (forall x, x ∈ m -> vm_start v < vm_start x) ->
  (forall x, last l1 = Some x -> vm_start x <= vm_start v) ->
  sift_back (length (l1 ++ m)) (l1 ++ m ++ v :: l2) = l1 ++ v :: m ++ l2.
Proof.
  revert l2. induction m as [|p m IH] using rev_ind; intros l2 Hm Hl.
  - rewrite app_nil_r. cbn [app]. destruct l1 as [|x l1 _] using rev_ind; [done|].
    rewrite length_app, Nat.add_1_r. cbn [sift_back]. rewrite <- app_assoc. cbn [app].
    rewrite lookup_second, lookup_first.
    rewrite (proj2 (Z.ltb_ge _ _)); [done|]. apply Hl. apply last_snoc.
  - replace (length (l1 ++ m ++ [p])) with (S (length (l1 ++ m))) by (rewrite !length_app; cbn; lia).
    replace (l1 ++ (m ++ [p]) ++ v :: l2) with ((l1 ++ m) ++ p :: v :: l2)
      by (by rewrite <- !app_assoc).
    cbn [sift_back]. rewrite lookup_second, lookup_first.
    rewrite (proj2 (Z.ltb_lt _ _)) by (apply Hm; set_solver).
    rewrite exchange_mid, <- app_assoc. rewrite IH; [by rewrite <- app_assoc| |done].
    intros x Hx. apply Hm. set_solver.
Qed.

Lemma aligned_or s e :
  truthy (Z.land (Z.lor s e) 0xFFF) = false <-> s mod PAGE_SIZE = 0 /\ e mod PAGE_SIZE = 0.
Proof.
  unfold truthy, PAGE_SIZE. change 0xFFF with (Z.ones 12). change 4096 with (2 ^ 12).
  rewrite Z.land_lor_distr_l, !Z.land_ones, negb_false_iff, Z.eqb_eq, Z.lor_eq_0_iff by lia. done.
Qed.

Lemma vmas_overlap_before v w : vma_wf v -> vma_wf w ->
  vmas_overlap v w = false <-> before v w \/ before w v.
Proof. unfold vma_wf, vmas_overlap, before. lia. Qed.

(** Where the list says the area goes, the code puts it. *)
Lemma InsertVmaSorted_at append_ok v l1 l2 :
  vmas_ok (l1 ++ v :: l2) ->
  InsertVmaSorted append_ok v (l1 ++ l2) =
    if append_ok (l1 ++ l2) then (true, l1 ++ v :: l2) else (false, l1 ++ l2).
Proof.
  intros Hok. pose proof Hok as (Hok1 & (Hv & Hok2 & Hgt)%vmas_ok_cons & Hlt)%vmas_ok_app.
  unfold InsertVmaSorted. pose proof Hv as (? & ? & ? & ?).
  rewrite (proj2 (Z.leb_gt _ _)) by lia. rewrite (proj2 (aligned_or _ _)) by done.
  cbn [orb]. replace (existsb (vmas_overlap v) (l1 ++ l2)) with false.
  2:{ symmetry. apply not_true_iff_false. intros (w & Hi%list_elem_of_In & Ho)%existsb_exists.
      apply elem_of_app in Hi. unfold vmas_overlap in Ho.
      destruct Hi as [Hi|Hi]; [specialize (Hlt w v Hi ltac:(by left))|specialize (Hgt w Hi)];
        unfold before in *; lia. }
  destruct (append_ok (l1 ++ l2)); cbn [negb]; [|done]. f_equal.
  rewrite <- app_assoc. rewrite (sift_back_spec l1 l2 v []).
  - by rewrite app_nil_r.
  - intros x Hx. specialize (Hgt x Hx). unfold before in Hgt. lia.
  - intros x Hx. apply last_Some_elem_of in Hx. specialize (Hlt x v Hx ltac:(by left)).
    destruct Hok1 as [Hf _]. rewrite Forall_forall in Hf. specialize (Hf x Hx).
    unfold before, vma_wf in *. lia.
Qed.

(** A list free of overlaps has a place for the area. *)
Lemma vmas_position v l : vmas_ok l -> vma_wf v -> existsb (vmas_overlap v) l = false ->
  exists l1 l2, l = l1 ++ l2 /\ vmas_ok (l1 ++ v :: l2).
Proof.
  intros Hok Hv. induction l as [|w l IH]; intros Ho.
  - exists [], []. split; [done|]. cbn. apply vmas_ok_cons. split_and!; try done. set_solver.
  - cbn in Ho. apply orb_false_iff in Ho as [Hw Ho]. apply vmas_ok_cons in Hok as (Hww & Hok & Hb).
    apply vmas_overlap_before in Hw as [Hw|Hw]; [| |done..].
    + exists [], (w :: l). split; [done|]. cbn. apply vmas_ok_cons. split_and!; try done.
      * by apply vmas_ok_cons.
      * intros x [->|Hx]%elem_of_cons; [done|]. specialize (Hb x Hx).
        unfold before, vma_wf in *. lia.
    + destruct (IH Hok Ho) as (l1 & l2 & -> & Hok').
      exists (w :: l1), l2. split; [done|]. cbn. apply vmas_ok_cons. split_and!; try done.
      intros x. rewrite elem_of_app, elem_of_cons. intros [Hx|[->|Hx]]; [|done|];
        apply Hb; set_solver.
Qed.


(** sorted insertion.  On a sorted, disjoint area list [InsertVmaSorted] either inserts the
    area at its place, keeps the list sorted and disjoint, and gives the new area's attributes to
    exactly the addresses it covers, which had none before; or it changes nothing, and
    then the area was empty or unaligned, overlapped an existing one, or the vector could not
    grow. *)
Theorem InsertVmaSorted_correct append_ok files v l :
  vmas_ok l -> 0 <= vm_start v -> vm_end v < two64 ->
  match InsertVmaSorted append_ok v l with
  | (true, l') =>
    vmas_ok l' /\ l' ≡ₚ v :: l /\
    forall a, attr files l' a = if covers a v then Some (attr_of files a v) else attr files l a
  | (false, l') =>
    l' = l /\ (~ vma_wf v \/ (exists w, w ∈ l /\ vmas_overlap v w = true) \/ append_ok l = false)
  end.
Proof.
  intros Hok Hs He. destruct (decide (vma_wf v)) as [Hv|Hv].
  - destruct (existsb (vmas_overlap v) l) eqn:Ho.
    + unfold InsertVmaSorted. rewrite Ho.
      apply existsb_exists in Ho as (w & Hi%list_elem_of_In & Hw). destruct (_ || _); (split; [done|]; right; left; by exists w).
    + destruct (vmas_position v l Hok Hv Ho) as (l1 & l2 & -> & Hok').
      rewrite InsertVmaSorted_at by done. destruct (append_ok (l1 ++ l2)) eqn:Ha; cbv beta iota.
      * split_and!; [done|symmetry; apply Permutation_middle|]. intros a. by apply attr_insert.
      * split; [done|]. by right; right.
  - unfold InsertVmaSorted. destruct ((vm_end v <=? vm_start v) || _) eqn:Hg; [split; [done|by left]|].
    exfalso. apply Hv. apply orb_false_iff in Hg as [Hlt [? ?]%aligned_or].
    unfold vma_wf. lia.
Qed.

(** ** First fit *)

Section FindFree.
Context {PT : Type} `{!PageTable PT} (vmas : list VirtualMemoryArea) (pt : PT).

(** No area and no mapped page in [a, a + len). *)
Definition free_range (a len : Z) : Prop :=
  (forall v, v ∈ vmas -> vm_end v <= a \/ a + len <= vm_start v) /\
  (forall page, a <= page < a + len -> page mod PAGE_SIZE = 0 -> mapped pt page = false).

Lemma elem_of_pages_between b e page : b mod PAGE_SIZE = 0 -> b <= e ->
  page ∈ pages_between b e <-> b <= page < e /\ page mod PAGE_SIZE = 0.
Proof.
  unfold PAGE_SIZE. intros Hb Hl. unfold pages_between. rewrite list_elem_of_fmap.
  setoid_rewrite elem_of_seq. unfold PAGE_SIZE. split.
  - intros (k & -> & Hk). lia.
  - intros [Hp Hm]. exists (Z.to_nat ((page - b) / 4096)). lia.
Qed.

Lemma blocking_vma_Some c len next : vmas_ok vmas -> c mod PAGE_SIZE = 0 ->
  blocking_vma vmas c len = Some next ->
  c + PAGE_SIZE <= next /\ next mod PAGE_SIZE = 0 /\
  forall b, c <= b < next -> ~ free_range b len.
Proof.
  intros [Hf _] Hc (v & [Hv%list_elem_of_In Hb]%List.find_some & ->)%fmap_Some.
  rewrite Forall_forall in Hf. destruct (Hf v Hv) as (? & ? & ? & ?). unfold PAGE_SIZE in *.
  split_and!; [lia|done|]. intros b Hb' [Hfree _]. specialize (Hfree v Hv). lia.
Qed.

Lemma blocking_page_Some c len next : 0 <= len -> c mod PAGE_SIZE = 0 ->
  blocking_page pt c len = Some next ->
  c + PAGE_SIZE <= next /\ next mod PAGE_SIZE = 0 /\
  forall b, c <= b < next -> b mod PAGE_SIZE = 0 -> ~ free_range b len.
Proof.
  intros Hl Hc (page & [Hp%list_elem_of_In Hm]%List.find_some & ->)%fmap_Some.
  apply elem_of_pages_between in Hp; [|done|lia]. unfold PAGE_SIZE in *.
  split_and!; [lia|lia|]. intros b Hb Hbm [_ Hfree]. rewrite Hfree in Hm; [done|lia|apply Hp].
Qed.

Lemma unblocked_free c len : 0 <= len -> c mod PAGE_SIZE = 0 ->
  blocking_vma vmas c len = None -> blocking_page pt c len = None -> free_range c len.
Proof.
  unfold blocking_vma, blocking_page. rewrite !fmap_None. intros Hl Hc Hv Hp. split.
  - intros v Hi%list_elem_of_In. pose proof (List.find_none _ _ Hv v Hi). lia.
  - intros page Hr Hm. apply (List.find_none _ _ Hp). apply list_elem_of_In.
    by apply elem_of_pages_between; [|lia|].
Qed.

Lemma find_free_loop_spec fuel c len : vmas_ok vmas -> 0 < len ->
  len mod PAGE_SIZE = 0 -> c mod PAGE_SIZE = 0 -> (0 < fuel)%nat ->
  user_end - c < Z.of_nat fuel * PAGE_SIZE ->
  exists r, find_free_loop fuel vmas pt c len = Some r /\
  match r with
  | Some a => c <= a /\ a + len <= user_end /\ a mod PAGE_SIZE = 0 /\ free_range a len /\
      forall b, c <= b < a -> b mod PAGE_SIZE = 0 -> ~ free_range b len
  | None => forall b, c <= b -> b + len <= user_end -> b mod PAGE_SIZE = 0 -> ~ free_range b len
  end.
Proof.
  intros Hok Hl Hlm. revert c. induction fuel as [|fuel IH]; intros c Hc Hf0 Hf; [lia|].
  cbn [find_free_loop]. destruct (_ && _) eqn:Hguard; [|exists None; split; [done|lia]].
  assert (forall next, c + PAGE_SIZE <= next -> next mod PAGE_SIZE = 0 ->
    (forall b, c <= b < next -> b mod PAGE_SIZE = 0 -> ~ free_range b len) ->
    exists r, find_free_loop fuel vmas pt next len = Some r /\
    match r with
    | Some a => c <= a /\ a + len <= user_end /\ a mod PAGE_SIZE = 0 /\ free_range a len /\
        forall b, c <= b < a -> b mod PAGE_SIZE = 0 -> ~ free_range b len
    | None => forall b, c <= b -> b + len <= user_end -> b mod PAGE_SIZE = 0 -> ~ free_range b len
    end) as Hstep.
  { intros next Hn Hnm Hskip. destruct (IH next) as (r & -> & Hr); [done|..];
      [unfold PAGE_SIZE in *; lia..|].
    exists r. split; [done|]. destruct r as [a|].
    - destruct Hr as (? & ? & ? & ? & Hr). split_and!; try done; [unfold PAGE_SIZE in *; lia|].
      intros b Hb Hbm. destruct (decide (b < next)); [apply Hskip|apply Hr]; done || lia.
    - intros b Hb Hbl Hbm. destruct (decide (b < next)); [apply Hskip|apply Hr]; done || lia. }
  destruct (blocking_vma vmas c len) as [next|] eqn:Hv.
  - apply blocking_vma_Some in Hv as (? & ? & Hskip); [|done..]. apply Hstep; auto.
  - destruct (blocking_page pt c len) as [next|] eqn:Hp.
    + apply blocking_page_Some in Hp as (? & ? & Hskip); [|lia|done]. by apply Hstep.
    + exists (Some c). split; [done|]. split_and!; try lia.
      * by apply unblocked_free; [lia|..].
Qed.

Definition find_arguments_ok (heapbtm len : Z) : Prop :=
  len <> 0 /\ len mod PAGE_SIZE = 0 /\ 0x1000 <= heapbtm <= user_end - 0xFFF.

(** C40: first fit.  With as many rounds as there are pages above the heap, [FindFreeVmaRange]
    terminates; an address it returns is page aligned, the range fits below the end of user
    space and meets no area and no mapped page, and it is the lowest such address above the heap
    bottom; when it fails on a legal request, no such address exists. *)
Theorem FindFreeVmaRange_first_fit fuel heapbtm len :
  vmas_ok vmas -> is_u64 heapbtm -> is_u64 len ->
  user_end - heapbtm < Z.of_nat fuel * PAGE_SIZE ->
  exists r, FindFreeVmaRange fuel heapbtm vmas pt len = Some r /\
  match r with
  | Some a => find_arguments_ok heapbtm len /\
      heapbtm <= a /\ a + len <= user_end /\ a mod PAGE_SIZE = 0 /\ free_range a len /\
      forall b, heapbtm <= b < a -> b mod PAGE_SIZE = 0 -> ~ free_range b len
  | None => find_arguments_ok heapbtm len ->
      forall b, heapbtm <= b -> b + len <= user_end -> b mod PAGE_SIZE = 0 -> ~ free_range b len
  end.
Proof.
  intros Hok Hh Hlen Hf. unfold FindFreeVmaRange.
  assert (Z.land len 0xFFF = len mod PAGE_SIZE) as -> by apply page_offset_mod.
  destruct (_ || _) eqn:Hg.
  { exists None. split; [done|]. unfold find_arguments_ok, truthy in *. lia. }
  assert (find_arguments_ok heapbtm len) as Harg
    by (unfold find_arguments_ok, truthy in *; lia).
  destruct Harg as (Hl0 & Hlm & Hhr). unfold user_end in *.
  rewrite uadd_small by lia. change (Z.land (heapbtm + 0xFFF) (Z.lnot 0xFFF))
    with (page_down (heapbtm + 0xFFF)). rewrite page_down_sub.
  set (c := heapbtm + 0xFFF - (heapbtm + 0xFFF) mod 4096).
  assert (heapbtm <= c < heapbtm + 4096 /\ c mod PAGE_SIZE = 0) as [Hc Hcm]
    by (unfold c, PAGE_SIZE; lia).
  destruct (find_free_loop_spec fuel c len) as (r & -> & Hr);
    [done|unfold is_u64 in *; lia|done|done|unfold PAGE_SIZE in *; lia|unfold user_end, PAGE_SIZE in *; lia|].
  exists r. split; [done|]. destruct r as [a|].
  - destruct Hr as (? & ? & ? & ? & Hr). split_and!; try done; try lia.
    intros b Hb Hbm. apply Hr; [unfold PAGE_SIZE in *; lia|done].
  - intros _ b Hb Hbl Hbm. apply Hr; [unfold PAGE_SIZE in *; lia|done|done].
Qed.

End FindFree.

(** ** Merging *)

Definition no_mergeable (l : list VirtualMemoryArea) : Prop :=
  forall i v w, l !! i = Some v -> l !! S i = Some w -> mergeable v w = false.

Lemma mergeable_spec v w : mergeable v w = true ->
  vm_type v = VirtualMemoryAreaType.Anonymous /\ vm_type w = VirtualMemoryAreaType.Anonymous /\
  vm_end v = vm_start w /\ vm_flags v = vm_flags w /\ vm_mode v = vm_mode w /\
  vm_reservation v = vm_reservation w.
Proof.
  unfold mergeable. rewrite !andb_true_iff, !bool_decide_eq_true, Bool.eqb_true_iff, !Z.eqb_eq.
  tauto.
Qed.

Lemma merge_from_head v l : exists e rest, merge_from v l = set_end e v :: rest.
Proof.
  revert v. induction l as [|w l IH]; intros v; cbn [merge_from].
  - exists (vm_end v), []. by destruct v.
  - destruct (mergeable v w).
    + destruct (IH (set_end (vm_end w) v)) as (e & rest & ->). by exists e, rest.
    + exists (vm_end v), (merge_from w l). by destruct v.
Qed.

Lemma merge_from_no_mergeable v l : no_mergeable (merge_from v l).
Proof.
  revert v. induction l as [|w l IH]; intros v; cbn [merge_from].
  - intros [|i] ? ?; done.
  - destruct (mergeable v w) eqn:Hm; [apply IH|].
    intros [|i] x y Hx Hy; [|by eapply IH].
    destruct (merge_from_head w l) as (e & rest & E). rewrite E in Hy.
    cbn in Hx, Hy. by simplify_eq.
Qed.

(** The merged area is well formed and means what the two areas meant. *)
Lemma merge_pair files v w l : mergeable v w = true -> vmas_ok (v :: w :: l) ->
  vmas_ok (set_end (vm_end w) v :: l) /\
  forall a, attr files (set_end (vm_end w) v :: l) a = attr files (v :: w :: l) a.
Proof.
  intros (Ht & Ht' & He & Hf & Hm & Hr)%mergeable_spec.
  rewrite !vmas_ok_cons. intros (Hv & (Hw & Hok & Hb) & Hc). split.
  - split_and!; [|done|].
    + unfold vma_wf in *. cbn. lia.
    + intros x Hx. by apply Hb.
  - intros a. unfold attr, vma_at. cbn [List.find].
    assert (covers a (set_end (vm_end w) v) = covers a v || covers a w) as ->
      by (unfold covers, vma_wf in *; cbn; lia).
    destruct (covers a v), (covers a w); cbn [orb fmap option_fmap option_map]; try done;
      unfold attr_of; cbn; rewrite ?Ht, ?Ht'; cbn; congruence.
Qed.

Lemma merge_from_spec files v l : vmas_ok (v :: l) ->
  vmas_ok (merge_from v l) /\ forall a, attr files (merge_from v l) a = attr files (v :: l) a.
Proof.
  revert v. induction l as [|w l IH]; intros v Hok; cbn [merge_from]; [done|].
  destruct (mergeable v w) eqn:Hm.
  - destruct (merge_pair files _ _ _ Hm Hok) as [Hok' Ha]. destruct (IH _ Hok') as [? Ha'].
    split; [done|]. intros a. by rewrite Ha', Ha.
  - apply vmas_ok_cons in Hok as (Hv & Hok & Hb). destruct (IH _ Hok) as [Hok' Ha]. split.
    + apply vmas_ok_cons. split_and!; [done|done|]. intros x Hx.
      destruct (merge_from_head w l) as (e & rest & E). rewrite E in Hx, Hok'.
      apply vmas_ok_cons in Hok' as (Hw' & _ & Hb'). specialize (Hb w ltac:(by left)).
      apply elem_of_cons in Hx as [->|Hx]; [done|]. specialize (Hb' x Hx).
      unfold before, vma_wf in *. cbn in *. lia.
    + intros a. unfold attr, vma_at in *. cbn [List.find]. destruct (covers a v); [done|apply Ha].
Qed.

Lemma Merge_spec files l : vmas_ok l ->
  vmas_ok (MergeAdjacentAnonymousVmas l) /\
  forall a, attr files (MergeAdjacentAnonymousVmas l) a = attr files l a.
Proof. destruct l as [|v l]; cbn; [done|]. apply merge_from_spec. Qed.

(** [MergeAdjacentAnonymousVmas] is invisible: on a sorted, disjoint list it keeps the list
    sorted and disjoint and the attributes of every address, and no two neighbours of the result
    can be merged any further. *)
Theorem MergeAdjacentAnonymousVmas_correct files l : vmas_ok l ->
  vmas_ok (MergeAdjacentAnonymousVmas l) /\
  (forall a, attr files (MergeAdjacentAnonymousVmas l) a = attr files l a) /\
  no_mergeable (MergeAdjacentAnonymousVmas l).
Proof.
  intros Hok. destruct (Merge_spec files l Hok) as [? ?]. split_and!; [done..|].
  destruct l; [intros ? ? ?; done|apply merge_from_no_mergeable].
Qed.

(** ** Replacing part of a reservation *)

Lemma find_index_Some f l k i v : find_index f l k = Some (i, v) ->
  exists l1 l2, l = l1 ++ v :: l2 /\ i = (k + length l1)%nat /\ f v = true.
Proof.
  revert k. induction l as [|w l IH]; intros k; cbn [find_index]; [done|].
  destruct (f w) eqn:Hf.
  - intros [= <- <-]. exists [], l. cbn. split_and!; [done|lia|done].
  - intros (l1 & l2 & -> & -> & ?)%IH. exists (w :: l1), l2. cbn. split_and!; [done|lia|done].
Qed.

Lemma alter_mid {A} (f : A -> A) l1 v l2 : alter f (length l1) (l1 ++ v :: l2) = l1 ++ f v :: l2.
Proof. rewrite alter_app_r_alt, Nat.sub_diag by lia. done. Qed.

Lemma set_start_back x v : set_start (vm_start v) (set_start x v) = v.
Proof. by destruct v. Qed.
Lemma set_end_back x v : set_end (vm_end v) (set_end x v) = v.
Proof. by destruct v. Qed.

(** A piece of an area without a file keeps its attributes. *)
Lemma attr_of_piece files a v s e : vm_type v <> VirtualMemoryAreaType.File ->
  attr_of files a (set_start s v) = attr_of files a v /\
  attr_of files a (set_end e v) = attr_of files a v.
Proof. intros. unfold attr_of. cbn. by destruct (vm_type v). Qed.

Lemma reserved_for_spec r v : reserved_for r v = true ->
  within v r /\ vm_reservation v = true /\ vm_type v = VirtualMemoryAreaType.Anonymous /\
  vm_flags v = 0 /\ vfile v = 0.
Proof.
  unfold reserved_for, within, truthy. rewrite negb_true_iff, !orb_false_iff, !negb_false_iff,
    bool_decide_eq_true, !Z.ltb_ge, !Z.eqb_eq. tauto.
Qed.

(** What replacing [v] by the areas [mid] around [r] means. *)
Lemma replace_attr files l1 v mid r l2 :
  vmas_ok (l1 ++ v :: l2) -> Forall (within v) mid -> within v r ->
  (forall a, covers a v = true ->
     attr files mid a = if covers a r then Some (attr_of files a r) else Some (attr_of files a v)) ->
  forall a, attr files (l1 ++ mid ++ l2) a =
    if covers a r then Some (attr_of files a r) else attr files (l1 ++ v :: l2) a.
Proof.
  intros Hok Hw Hr Hmid a. rewrite (attr_subst _ _ v) by done.
  rewrite (attr_insert _ _ v) by done. destruct (covers a v) eqn:Hc; [by apply Hmid|].
  replace (covers a r) with false; [done|]. unfold within, covers in *. lia.
Qed.

(** The areas left of [v] when [r] takes its part of it. *)
Definition pieces (r v : VirtualMemoryArea) : list VirtualMemoryArea :=
  (if vm_start r =? vm_start v then [] else [set_end (vm_start r) v]) ++ r ::
  (if vm_end r =? vm_end v then [] else [set_start (vm_end r) v]).

Lemma pieces_ok r v : vma_wf v -> vma_wf r -> within v r ->
  vmas_ok (pieces r v) /\ Forall (within v) (pieces r v).
Proof.
  unfold pieces, within. intros Hv Hr Hw.
  destruct (vm_start r =? vm_start v) eqn:E1, (vm_end r =? vm_end v) eqn:E2; cbn [app];
    (split; vmas_list).
Qed.

Lemma attr_pieces files r v a : vma_wf v -> vma_wf r -> within v r ->
  vm_type v <> VirtualMemoryAreaType.File -> covers a v = true ->
  attr files (pieces r v) a =
    if covers a r then Some (attr_of files a r) else Some (attr_of files a v).
Proof.
  intros Hv Hr Hw Ht Hc. destruct (pieces_ok r v Hv Hr Hw) as [Hok _].
  unfold pieces in *. rewrite attr_insert by done. destruct (covers a r) eqn:Hcr; [done|].
  unfold attr. rewrite vma_at_app. unfold vma_wf, within, covers in *.
  destruct (vm_start r =? vm_start v) eqn:E1, (vm_end r =? vm_end v) eqn:E2; cbn;
    unfold covers; cbn [set_start set_end vm_start vm_end]; try lia;
    repeat (case_match; simplify_eq; try lia); cbn [fmap option_fmap option_map];
    f_equal; first [apply (proj1 (attr_of_piece files a v _ 0 Ht))
                   |apply (proj2 (attr_of_piece files a v 0 _ Ht))].
Qed.

(** The branches of [ReplaceReservedVmaRange] after its tests: all the pieces, or nothing. *)
Lemma replace_body append_ok l1 v l2 r :
  vmas_ok (l1 ++ v :: l2) -> vma_wf r -> within v r ->
  let res :=
    if (vm_start r =? vm_start v) && (vm_end r =? vm_end v)
    then (true, <[length l1 := r]> (l1 ++ v :: l2))
    else if vm_start r =? vm_start v then
      match InsertVmaSorted append_ok r (alter (set_start (vm_end r)) (length l1) (l1 ++ v :: l2)) with
      | (true, vmas) => (true, vmas)
      | (false, vmas) => (false, alter (set_start (vm_start v)) (length l1) vmas)
      end
    else if vm_end r =? vm_end v then
      match InsertVmaSorted append_ok r (alter (set_end (vm_start r)) (length l1) (l1 ++ v :: l2)) with
      | (true, vmas) => (true, vmas)
      | (false, vmas) => (false, alter (set_end (vm_end v)) (length l1) vmas)
      end
    else
      match InsertVmaSorted append_ok (set_start (vm_end r) v)
              (alter (set_end (vm_start r)) (length l1) (l1 ++ v :: l2)) with
      | (false, vmas) => (false, alter (set_end (vm_end v)) (length l1) vmas)
      | (true, vmas) =>
        match InsertVmaSorted append_ok r vmas with
        | (true, vmas) => (true, vmas)
        | (false, vmas) =>
          (false, alter (set_end (vm_end v)) (length l1) (remove_at (length l1 + 1) vmas))
        end
      end in
  res = (true, l1 ++ pieces r v ++ l2) \/ res = (false, l1 ++ v :: l2).
Proof.
  intros Hok Hr Hw.
  assert (vma_wf v) as Hv by (by eapply vmas_ok_mid).
  destruct (pieces_ok r v Hv Hr Hw) as [Hp Hpw].
  pose proof (vmas_ok_subst _ _ _ _ Hok Hp Hpw) as Hnew. unfold pieces in *.
  rewrite !alter_mid. unfold vma_wf, within in *.
  destruct (vm_start r =? vm_start v) eqn:E1, (vm_end r =? vm_end v) eqn:E2; cbn [andb app] in *.
  - left. by rewrite insert_app_r_alt, Nat.sub_diag by lia.
  - rewrite InsertVmaSorted_at by done. destruct (append_ok _); [by left|right].
    by rewrite alter_mid, set_start_back.
  - replace (l1 ++ set_end (vm_start r) v :: l2) with ((l1 ++ [set_end (vm_start r) v]) ++ l2)
      by (by rewrite <- app_assoc).
    rewrite InsertVmaSorted_at by (by rewrite <- app_assoc).
    rewrite <- !app_assoc. destruct (append_ok _); [by left|right]. cbn. by rewrite alter_mid, set_end_back.
  - set (lv := set_end (vm_start r) v) in *. set (rv := set_start (vm_end r) v) in *.
    assert (vmas_ok (l1 ++ lv :: rv :: l2)) as Hmid.
    { apply (vmas_ok_subst l1 v [lv; rv] l2 Hok).
      - unfold lv, rv. vmas_list.
      - unfold lv, rv. vmas_list. }
    replace (l1 ++ lv :: l2) with ((l1 ++ [lv]) ++ l2) by (by rewrite <- app_assoc).
    rewrite InsertVmaSorted_at by (by rewrite <- app_assoc).
    destruct (append_ok _).
    2:{ right. rewrite <- app_assoc. cbn. rewrite alter_mid. unfold lv. by rewrite set_end_back. }
    rewrite InsertVmaSorted_at by (by rewrite <- app_assoc).
    rewrite <- !app_assoc. destruct (append_ok _); [by left|right]. cbn [app].
    unfold remove_at. replace (length l1 + 1)%nat with (length (l1 ++ [lv])) by (rewrite length_app; done).
    replace (l1 ++ lv :: rv :: l2) with ((l1 ++ [lv]) ++ rv :: l2) by (by rewrite <- app_assoc).
    rewrite delete_middle, <- app_assoc. cbn. rewrite alter_mid. unfold lv. by rewrite set_end_back.
Qed.

(** [ReplaceReservedVmaRange] installs a fixed mapping only inside a reserved anonymous
    span none of whose covered pages is mapped; then the new area's attributes hold exactly
    where it lies, every other address keeps its own, and the list stays sorted and disjoint.
    When it fails, also half way through a split, the list is exactly as before. *)
Theorem ReplaceReservedVmaRange_correct `{!PageTable PT} append_ok files r (pt : PT) l :
  vmas_ok l -> 0 <= vm_start r -> vm_end r < two64 ->
  match ReplaceReservedVmaRange append_ok r pt l with
  | (true, l') =>
    vmas_ok l' /\ (exists v, v ∈ l /\ reserved_for r v = true) /\
    (forall page, vm_start r <= page < vm_end r -> page mod PAGE_SIZE = 0 ->
       mapped pt page = false) /\
    forall a, attr files l' a = if covers a r then Some (attr_of files a r) else attr files l a
  | (false, l') => l' = l
  end.
Proof.
  intros Hok Hs He. unfold ReplaceReservedVmaRange.
  destruct ((_ || _) || _) eqn:Hg; [done|].
  apply orb_false_iff in Hg as [[Hlt [Ha1 Ha2]%aligned_or]%orb_false_iff _].
  assert (vma_wf r) as Hr by (unfold vma_wf; lia).
  destruct (find_index _ _ _) as [[i v]|] eqn:Hi; [|done].
  apply find_index_Some in Hi as (l1 & l2 & -> & -> & Hres). cbn [Nat.add].
  destruct (existsb _ _) eqn:Hx; [done|].
  assert (forall page, vm_start r <= page < vm_end r -> page mod PAGE_SIZE = 0 ->
    mapped pt page = false) as Hun.
  { intros page Hp Hm. apply not_true_iff_false. intros Ht. revert Hx. apply not_false_iff_true.
    apply existsb_exists. exists page. split; [|done]. apply list_elem_of_In.
    by apply elem_of_pages_between; [|lia|]. }
  destruct (reserved_for_spec _ _ Hres) as (Hwin & _ & Hty & _).
  assert (vma_wf v) as Hv by (by eapply vmas_ok_mid).
  destruct (pieces_ok r v Hv Hr Hwin) as [Hp Hpw].
  destruct (replace_body append_ok l1 v l2 r Hok Hr Hwin) as [E|E]; cbv zeta in E; rewrite E; [|done].
  split_and!; [by eapply vmas_ok_subst|exists v; set_solver|done|].
  apply replace_attr; [done..|]. intros a Ha. apply attr_pieces; try done. by rewrite Hty.
Qed.

(** ** Witnesses *)
Module VmaWitness.
Import Interfaces.Example.

Definition anon (s e flags : Z) (reserved : bool) : VirtualMemoryArea :=
  MkVma s e flags reserved VirtualMemoryAreaType.Anonymous VirtualMemoryAreaMode.Private 0 0.

Definition areas : list VirtualMemoryArea :=
  [anon 0x1000 0x3000 7 false; anon 0x8000 0xC000 0 true].

Lemma areas_ok : vmas_ok areas.
Proof. unfold areas, anon. vmas_list. Qed.

Lemma Insert_witness :
  InsertVmaSorted (fun _ => true) (anon 0x4000 0x5000 7 false) areas =
    (true, [anon 0x1000 0x3000 7 false; anon 0x4000 0x5000 7 false; anon 0x8000 0xC000 0 true]) /\
  vmas_ok [anon 0x1000 0x3000 7 false; anon 0x4000 0x5000 7 false; anon 0x8000 0xC000 0 true].
Proof.
  split; [reflexivity|].
  pose proof (InsertVmaSorted_correct (fun _ => true) ∅ (anon 0x4000 0x5000 7 false) areas
    areas_ok ltac:(done) ltac:(done)) as W.
  apply W.
Defined.

(** The page at [user_end - 0x4000] is mapped, so the search skips it. *)
Lemma FindFree_witness :
  FindFreeVmaRange 6 0x00007FFFFFFFC000 areas (<[0x7FFFFFFFC := (0x5000, 7)]> ∅ : Table) 0x1000
    = Some (Some 0x00007FFFFFFFD000) /\
  free_range areas (<[0x7FFFFFFFC := (0x5000, 7)]> ∅ : Table) 0x00007FFFFFFFD000 0x1000.
Proof.
  split; [reflexivity|].
  destruct (FindFreeVmaRange_first_fit areas (<[0x7FFFFFFFC := (0x5000, 7)]> ∅ : Table) 6
    0x00007FFFFFFFC000 0x1000 areas_ok ltac:(done) ltac:(done) ltac:(done)) as (r & E & W).
  vm_compute in E. injection E as <-. destruct W as (_ & _ & _ & _ & W & _). exact W.
Defined.

Lemma Merge_witness :
  MergeAdjacentAnonymousVmas [anon 0x1000 0x2000 7 false; anon 0x2000 0x3000 7 false; anon 0x8000 0xC000 0 true]
    = areas /\ no_mergeable areas.
Proof.
  split; [reflexivity|].
  destruct (MergeAdjacentAnonymousVmas_correct ∅
    [anon 0x1000 0x2000 7 false; anon 0x2000 0x3000 7 false; anon 0x8000 0xC000 0 true]
    ltac:(unfold anon; vmas_list)) as (_ & _ & W).
  exact W.
Defined.

(** A fixed mapping in the middle of a reservation splits it in three. *)
Lemma Replace_witness :
  (ReplaceReservedVmaRange (fun _ => true) (anon 0x9000 0xA000 7 false) (∅ : Table) areas).1 = true /\
  vmas_ok (ReplaceReservedVmaRange (fun _ => true) (anon 0x9000 0xA000 7 false) (∅ : Table) areas).2.
Proof.
  split; [reflexivity|].
  pose proof (ReplaceReservedVmaRange_correct (fun _ => true) ∅ (anon 0x9000 0xA000 7 false)
    (∅ : Table) areas areas_ok ltac:(done) ltac:(done)) as W.
  apply W.
Defined.

End VmaWitness.
