(* ===== verification/VmaProtect.v ===== *)
(** * Changing the protection of a range ([ProcessBlock::ProtectVmaRange], [mecocoa/memoman.cpp])

    The operation checks that areas cover the range, clones the files of the areas it must
    split, preflights every resident leaf, splits the areas at both ends, and only then rewrites
    flags and leaves and merges neighbours.  Local TLB invalidations are recorded in order
    ([flushed]).  The allocations ([new], [make_unique]) are inputs: the address they return, or
    failure. *)
From S2P Require Import Prelude Interfaces Vma.

(** The open-mode constants of the C library. *)
Class OpenModes := { O_ACCMODE : Z; O_WRONLY : Z; O_RDWR : Z }.

Record Space (PT : Type) := MkSpace {
  vmas : list VirtualMemoryArea;
  ptable : PT;
  files : gmap Z vfs_file;
  flushed : list Z;
}.
Arguments MkSpace {PT}.
Arguments vmas {PT}.
Arguments ptable {PT}.
Arguments files {PT}.
Arguments flushed {PT}.

(** [new uni::vfs_file( *source)], at the address [memory] when the allocation succeeds. *)
Definition CloneVmaFile (source : Z) (memory : option Z) (fs : gmap Z vfs_file)
  : Z * gmap Z vfs_file :=
  if source =? 0 then (0, fs) else
  match memory, fs !! source with
  | Some clone, Some f => (clone, <[clone := f]> fs)
  | _, _ => (0, fs)
  end.

(** [VmaFileDeleter]: a clone that was not released goes away. *)
Definition drop_file (file : Z) (fs : gmap Z vfs_file) : gmap Z vfs_file :=
  if file =? 0 then fs else delete file fs.

Definition file_mode (fs : gmap Z vfs_file) (file : Z) : Z := default 0 (f_mode <$> fs !! file).

(** The area strictly contains the boundary. *)
Definition straddles (boundary : Z) (v : VirtualMemoryArea) : bool :=
  negb ((boundary <=? vm_start v) || (vm_end v <=? boundary)).

(** [ProtectedVmaSplit] is the index that was split and its old end. *)
Definition SplitProtectedVmaAt (append_ok : list VirtualMemoryArea -> bool) (boundary clone : Z)
  (l : list VirtualMemoryArea) : bool * list VirtualMemoryArea * option (nat * Z) :=
  match find_index (straddles boundary) l 0 with
  | None => (true, l, None)
  | Some (i, original) =>
    if truthy (vfile original) && (clone =? 0) then (false, l, None) else
    let right_vma := set_start boundary original in
    let right_vma :=
      if truthy (vfile original)
      then set_backing clone (file_offset original +w (boundary -w vm_start original)) right_vma
      else right_vma in
    match InsertVmaSorted append_ok right_vma (alter (set_end boundary) i l) with
    | (false, l) => (false, alter (set_end (vm_end original)) i l, None)
    | (true, l) => (true, l, Some (i, vm_end original))
    end
  end.

Section Protect.
Context `{PagingConstants} `{OpenModes} {PT : Type} `{!PageTable PT}.
Context (append_ok : list VirtualMemoryArea -> bool).

Definition protectable (fs : gmap Z vfs_file) (flags : Z) (vma : VirtualMemoryArea) : bool :=
  negb (bool_decide (vm_type vma = VirtualMemoryAreaType.Device)) &&
  negb (bool_decide (vm_type vma = VirtualMemoryAreaType.File) &&
        ((vfile vma =? 0)
         || (has flags PGPROP_present &&
             (Z.land (file_mode fs (vfile vma)) O_ACCMODE =? O_WRONLY))
         || (has flags PGPROP_writable &&
             bool_decide (vm_mode vma = VirtualMemoryAreaMode.Shared) &&
             negb (Z.land (file_mode fs (vfile vma)) O_ACCMODE =? O_RDWR)))).

(** The scan that checks the cover and finds the files of the areas to split; [None] is the early
    return. *)
Fixpoint protect_scan (fs : gmap Z vfs_file) (flags address end_ : Z)
  (l : list VirtualMemoryArea) (covered start_file end_file : Z) : option (Z * Z * Z) :=
  match l with
  | [] => Some (covered, start_file, end_file)
  | vma :: rest =>
    if negb (covered <? end_) then Some (covered, start_file, end_file)
    else if vm_end vma <=? covered
    then protect_scan fs flags address end_ rest covered start_file end_file
    else if (covered <? vm_start vma) || negb (protectable fs flags vma) then None
    else
      protect_scan fs flags address end_ rest (Z.min end_ (vm_end vma))
        (if (vm_start vma <? address) && (address <? vm_end vma) then vfile vma else start_file)
        (if (vm_start vma <? end_) && (end_ <? vm_end vma) then vfile vma else end_file)
  end.

Definition next_properties (flags current : Z) : Z :=
  let next := Z.land current
    (Z.lnot (Z.lor (Z.lor PGPROP_writable PGPROP_user_access) PGPROP_nonexecutable)) in
  let next := Z.lor next (Z.land flags (Z.lor PGPROP_user_access PGPROP_nonexecutable)) in
  if has flags PGPROP_writable && has current PGPROP_writable
  then Z.lor next PGPROP_writable else next.

(** The preflight of one page: [None] refuses, [Some None] is a page that is not resident,
    else the leaf to store. *)
Definition preflight_page (multicore : bool) (pt : PT) (flags page : Z)
  : option (option (Z * Z * Z)) :=
  let physical := pt_at pt page in
  if physical =? UMAX then Some None else
  match pt_leaf pt page with
  | None => None
  | Some (level, current) =>
    if negb (level =? 0) then None else
    let next := next_properties flags current in
    if multicore && truthy (Z.land (Z.lxor current next)
         (Z.lor (Z.lor PGPROP_writable PGPROP_user_access) PGPROP_nonexecutable)) then None
    else if negb (pt_setup_ok physical level next) then None
    else Some (Some (page, physical, next))
  end.

Definition set_range_flags (address end_ flags : Z) (vma : VirtualMemoryArea) : VirtualMemoryArea :=
  if (address <=? vm_start vma) && (vm_end vma <=? end_)
  then set_protection flags (if truthy flags then false else vm_reservation vma) vma
  else vma.

Definition store_leaf (pt : PT) (leaf : Z * Z * Z) : PT :=
  pt_store pt leaf.1.1 leaf.1.2 leaf.2.

(** [sizeof(ProtectionPage)] *)
Definition protection_page_size : Z := 16.

Definition protect_arguments_ok (address length flags : Z) : bool :=
  negb ((length =? 0) || truthy (Z.land (Z.lor address length) (PAGE_SIZE - 1))
    || (UMAX - address <? length)
    || truthy (Z.land flags (Z.lnot (Z.lor (Z.lor PGPROP_present PGPROP_user_access)
         (Z.lor PGPROP_writable PGPROP_nonexecutable))))
    || negb (Bool.eqb (has flags PGPROP_present) (has flags PGPROP_user_access))).

(** The second locked block: splits, then flags, leaves and merge. *)
Definition protect_commit (address end_ flags : Z) (start_clone end_clone : Z)
  (leaves : list (Z * Z * Z)) (s : Space PT) : bool * Space PT :=
  let fail l := (false, MkSpace l (ptable s) (drop_file end_clone (drop_file start_clone (files s)))
                          (flushed s)) in
  match SplitProtectedVmaAt append_ok address start_clone (vmas s) with
  | (false, l, _) => fail l
  | (true, l, start_split) =>
    match SplitProtectedVmaAt append_ok end_ end_clone l with
    | (false, l, _) =>
      match start_split with
      | Some (i, original_end) => fail (alter (set_end original_end) i (remove_at (i + 1) l))
      | None => fail l
      end
    | (true, l, _) =>
      (true, MkSpace (MergeAdjacentAnonymousVmas (set_range_flags address end_ flags <$> l))
               (foldl store_leaf (ptable s) leaves) (files s)
               (flushed s ++ pages_between address end_))
    end
  end.

Definition ProtectVmaRange (multicore pages_allocated : bool) (start_memory end_memory : option Z)
  (address length flags : Z) (s : Space PT) : bool * Space PT :=
  if negb (protect_arguments_ok address length flags) then (false, s) else
  let end_ := address +w length in
  let page_count := length / PAGE_SIZE in
  if UMAX / protection_page_size <? page_count then (false, s) else
  if negb pages_allocated then (false, s) else
  match protect_scan (files s) flags address end_ (vmas s) address 0 0 with
  | None => (false, s)
  | Some (covered, start_file, end_file) =>
    if negb (covered =? end_) then (false, s) else
    let '(start_clone, fs) := CloneVmaFile start_file start_memory (files s) in
    let '(end_clone, fs) := CloneVmaFile end_file end_memory fs in
    let fail := (false, MkSpace (vmas s) (ptable s)
                   (drop_file end_clone (drop_file start_clone fs)) (flushed s)) in
    if (truthy start_file && (start_clone =? 0)) || (truthy end_file && (end_clone =? 0)) then fail
    else match mapM (preflight_page multicore (ptable s) flags) (pages_between address end_) with
    | None => fail
    | Some leaves =>
      protect_commit address end_ flags start_clone end_clone (omap id leaves)
        (MkSpace (vmas s) (ptable s) fs (flushed s))
    end
  end.

End Protect.

(** ** Splitting *)

(** The right part of an area cut at a boundary; [clone] is its file when it has one. *)
Definition right_part (boundary clone : Z) (v : VirtualMemoryArea) : VirtualMemoryArea :=
  if truthy (vfile v)
  then set_backing clone (file_offset v +w (boundary -w vm_start v)) (set_start boundary v)
  else set_start boundary v.

Definition no_straddle (b : Z) (l : list VirtualMemoryArea) : Prop :=
  Forall (fun v => straddles b v = false) l.

(** The clone reads the same file as the area it comes from. *)
Definition clone_of (fs : gmap Z vfs_file) (clone : Z) (v : VirtualMemoryArea) : Prop :=
  vfile v <> 0 -> fs !! clone = fs !! vfile v.

Lemma right_part_fields b clone v :
  vm_start (right_part b clone v) = b /\ vm_end (right_part b clone v) = vm_end v.
Proof. unfold right_part. by case_match. Qed.

Lemma attr_of_right fs a b clone v : fs !! 0 = None -> clone_of fs clone v ->
  attr_of fs a (right_part b clone v) = attr_of fs a v.
Proof.
  intros H0 Hc. unfold right_part, truthy. destruct (vfile v =? 0) eqn:E; cbn [negb].
  - apply Z.eqb_eq in E. unfold attr_of. cbn. by rewrite E, H0; destruct (vm_type v).
  - apply Z.eqb_neq in E. unfold attr_of. cbn. rewrite (Hc E).
    replace ((file_offset v +w (b -w vm_start v)) +w (a -w b))
      with (file_offset v +w (a -w vm_start v)); [done|]. unfold uadd, usub.
    clear. lia.
Qed.

Lemma attr_of_left fs a e v : attr_of fs a (set_end e v) = attr_of fs a v.
Proof. done. Qed.

Lemma find_index_None f l k : find_index f l k = None -> Forall (fun v => f v = false) l.
Proof.
  revert k. induction l as [|v l IH]; intros k; cbn; [constructor|].
  destruct (f v) eqn:E; [done|]. intros. constructor; [done|by eapply IH].
Qed.

(** The two parts of [v] cut at [b]. *)
Definition halves (b clone : Z) (v : VirtualMemoryArea) : list VirtualMemoryArea :=
  [set_end b v; right_part b clone v].

Lemma halves_ok b clone v : vma_wf v -> straddles b v = true -> b mod PAGE_SIZE = 0 ->
  vmas_ok (halves b clone v) /\ Forall (within v) (halves b clone v).
Proof.
  intros Hv Hs Hb. destruct (right_part_fields b clone v) as [Es Ee].
  assert (vm_start v < b < vm_end v) as Hr by (unfold straddles in Hs; lia).
  unfold halves. split.
  - apply vmas_ok_cons_2; [|apply Forall_singleton|apply vmas_ok_cons_2];
      [| | |constructor|apply vmas_ok_nil]; unfold vma_wf, before in *; cbn [vm_start vm_end set_end];
      rewrite ?Es, ?Ee; destruct_and!; split_and?; done || lia.
  - repeat constructor; unfold within; rewrite ?Es, ?Ee; cbn [vm_start vm_end set_end];
      unfold vma_wf in Hv; lia.
Qed.

Lemma attr_halves fs b clone v a : fs !! 0 = None -> clone_of fs clone v ->
  straddles b v = true -> covers a v = true ->
  attr fs (halves b clone v) a = Some (attr_of fs a v).
Proof.
  intros H0 Hc Hs Ha. unfold attr, halves, vma_at. cbn [List.find].
  destruct (right_part_fields b clone v) as [Es Ee].
  destruct (covers a (set_end b v)) eqn:E1; [done|].
  replace (covers a (right_part b clone v)) with true.
  2:{ unfold straddles, covers in *. rewrite Es, Ee. cbn in E1. lia. }
  cbn. by rewrite attr_of_right.
Qed.

(** What a split does to a sorted list: nothing, a refusal, or the two halves in place. *)
Lemma Split_cases append_ok b clone l : vmas_ok l -> b mod PAGE_SIZE = 0 ->
  (no_straddle b l /\ SplitProtectedVmaAt append_ok b clone l = (true, l, None)) \/
  exists l1 v l2, l = l1 ++ v :: l2 /\ straddles b v = true /\
    (SplitProtectedVmaAt append_ok b clone l = (false, l, None) \/
     (vfile v <> 0 -> clone <> 0) /\
     SplitProtectedVmaAt append_ok b clone l =
       (true, l1 ++ halves b clone v ++ l2, Some (length l1, vm_end v))).
Proof.
  intros Hok Hb. unfold SplitProtectedVmaAt.
  destruct (find_index (straddles b) l 0) as [[i v]|] eqn:Hi; [|left; split; [by eapply find_index_None|done]].
  right. apply find_index_Some in Hi as (l1 & l2 & -> & -> & Hs). exists l1, v, l2.
  split_and!; [done|done|]. destruct (truthy (vfile v) && (clone =? 0)) eqn:Hg; [by left|].
  pose proof (vmas_ok_mid _ _ _ Hok) as Hv. destruct (halves_ok b clone v Hv Hs Hb) as [Hh Hw].
  cbn [Nat.add]. rewrite alter_mid.
  assert (SplitRight : InsertVmaSorted append_ok (right_part b clone v) (l1 ++ set_end b v :: l2) =
    if append_ok (l1 ++ set_end b v :: l2) then (true, l1 ++ halves b clone v ++ l2)
    else (false, l1 ++ set_end b v :: l2)).
  { replace (l1 ++ set_end b v :: l2) with ((l1 ++ [set_end b v]) ++ l2) by (by rewrite <- app_assoc).
    rewrite InsertVmaSorted_at; [by rewrite <- !app_assoc|]. rewrite <- app_assoc.
    by apply (vmas_ok_subst l1 v (halves b clone v) l2). }
  unfold right_part in SplitRight at 1. rewrite SplitRight.
  destruct (append_ok _).
  - right. split; [|done]. unfold truthy in Hg. lia.
  - left. by rewrite alter_mid, set_end_back.
Qed.

Lemma Split_attr fs l1 v l2 b clone : fs !! 0 = None -> clone_of fs clone v ->
  vmas_ok (l1 ++ v :: l2) -> straddles b v = true -> b mod PAGE_SIZE = 0 ->
  vmas_ok (l1 ++ halves b clone v ++ l2) /\
  (forall a, attr fs (l1 ++ halves b clone v ++ l2) a = attr fs (l1 ++ v :: l2) a) /\
  no_straddle b (l1 ++ halves b clone v ++ l2).
Proof.
  intros H0 Hc Hok Hs Hb. pose proof (vmas_ok_mid _ _ _ Hok) as Hv.
  destruct (halves_ok b clone v Hv Hs Hb) as [Hh Hw].
  split_and!; [by eapply vmas_ok_subst| |].
  - intros a. rewrite (attr_subst _ _ v) by done. rewrite (attr_insert _ _ v) by done.
    destruct (covers a v) eqn:Ha; [|done]. by rewrite attr_halves.
  - unfold no_straddle. rewrite !Forall_app, !Forall_forall.
    apply vmas_ok_app in Hok as (_ & (_ & _ & Hgt)%vmas_ok_cons & Hlt).
    destruct (right_part_fields b clone v) as [Es Ee]. unfold straddles, before in *.
    split_and!; intros w Hw'.
    + specialize (Hlt w v Hw' ltac:(by left)). lia.
    + unfold halves in Hw'. rewrite !elem_of_cons, elem_of_nil in Hw'.
      destruct Hw' as [->|[->|[]]]; rewrite ?Es; cbn; lia.
    + specialize (Hgt w Hw'). lia.
Qed.

(** ** The commit *)

Definition protect_attr (flags : Z) (x : Attr) : Attr :=
  MkAttr flags (if truthy flags then false else a_reserved x) (a_type x) (a_mode x) (a_backing x).

Definition in_range (address end_ a : Z) : bool := (address <=? a) && (a <? end_).

Lemma set_range_flags_fields address e flags v :
  vm_start (set_range_flags address e flags v) = vm_start v /\
  vm_end (set_range_flags address e flags v) = vm_end v.
Proof. unfold set_range_flags. by case_match. Qed.

Lemma set_range_flags_ok address e flags l : vmas_ok l ->
  vmas_ok (set_range_flags address e flags <$> l).
Proof.
  intros [Hf Hs]. split.
  - rewrite Forall_fmap. eapply Forall_impl; [done|]. intros v Hv. unfold vma_wf. cbn.
    by destruct (set_range_flags_fields address e flags v) as [-> ->].
  - induction Hs as [|v l Hl IH Hb]; cbn; [constructor|]. inversion Hf; subst.
    constructor; [auto|]. rewrite Forall_fmap. eapply Forall_impl; [exact Hb|]. intros w.
    unfold before. cbn. destruct (set_range_flags_fields address e flags v) as [_ ->].
    by destruct (set_range_flags_fields address e flags w) as [-> _].
Qed.

Lemma set_range_flags_attr fs address e flags l a :
  no_straddle address l -> no_straddle e l -> vmas_ok l ->
  attr fs (set_range_flags address e flags <$> l) a =
    if in_range address e a then protect_attr flags <$> attr fs l a else attr fs l a.
Proof.
  intros Ha He [Hf _]. unfold attr. induction l as [|v l IH]; [by case_match|].
  inversion Ha; inversion He; inversion Hf; subst. cbn [fmap list_fmap vma_at List.find].
  assert (covers a (set_range_flags address e flags v) = covers a v) as ->.
  { unfold covers. by destruct (set_range_flags_fields address e flags v) as [-> ->]. }
  destruct (covers a v) eqn:Hc; [|by apply IH].
  unfold set_range_flags, in_range, covers, straddles, vma_wf in *.
  destruct ((address <=? vm_start v) && (vm_end v <=? e)) eqn:E.
  - assert ((address <=? a) && (a <? e) = true) as -> by lia. done.
  - assert ((address <=? a) && (a <? e) = false) as -> by lia. done.
Qed.

Section CommitSpec.
Context `{PagingConstants} `{OpenModes} {PT : Type} `{!PageTable PT}.
Context (append_ok : list VirtualMemoryArea -> bool).

(** The clones are those of the areas that must be split. *)
Definition clones_for (fs : gmap Z vfs_file) (address end_ start_clone end_clone : Z)
  (l : list VirtualMemoryArea) : Prop :=
  fs !! 0 = None /\
  Forall (fun v => straddles address v = true -> clone_of fs start_clone v) l /\
  Forall (fun v => straddles end_ v = true -> clone_of fs end_clone v) l.

Lemma clone_of_right fs address end_ sc ec v : address < end_ ->
  clone_of fs sc v -> (straddles end_ v = true -> clone_of fs ec v) ->
  straddles end_ (right_part address sc v) = true -> straddles address v = true ->
  clone_of fs ec (right_part address sc v).
Proof.
  intros Hae Hs He Hst Hsa. destruct (right_part_fields address sc v) as [Es Ee].
  assert (straddles end_ v = true) as Hv.
  { unfold straddles in *. rewrite Es, Ee in Hst. lia. }
  specialize (He Hv). unfold right_part, truthy, clone_of in *. destruct (vfile v =? 0) eqn:E; cbn.
  - done.
  - intros _. apply Z.eqb_neq in E. by rewrite Hs, He.
Qed.

(** Flags and merge, after both splits. *)
Lemma flags_and_merge fs address end_ flags l0 l :
  vmas_ok l -> no_straddle address l -> no_straddle end_ l ->
  (forall a, attr fs l a = attr fs l0 a) ->
  vmas_ok (MergeAdjacentAnonymousVmas (set_range_flags address end_ flags <$> l)) /\
  forall a, attr fs (MergeAdjacentAnonymousVmas (set_range_flags address end_ flags <$> l)) a =
    if in_range address end_ a then protect_attr flags <$> attr fs l0 a else attr fs l0 a.
Proof.
  intros Hl Hna Hne Hattr. pose proof (set_range_flags_ok address end_ flags l Hl) as Hl'.
  destruct (Merge_spec fs _ Hl') as [? Hm]. split; [done|].
  intros a. by rewrite Hm, set_range_flags_attr, Hattr.
Qed.

(** The second split, from a list that means the same as the first one. *)
Lemma second_split fs address end_ ec l0 l :
  fs !! 0 = None -> end_ mod PAGE_SIZE = 0 -> vmas_ok l -> no_straddle address l ->
  (forall a, attr fs l a = attr fs l0 a) ->
  Forall (fun v => straddles end_ v = true -> clone_of fs ec v) l ->
  match SplitProtectedVmaAt append_ok end_ ec l with
  | (false, l', _) => l' = l
  | (true, l', _) => vmas_ok l' /\ no_straddle address l' /\ no_straddle end_ l' /\
      forall a, attr fs l' a = attr fs l0 a
  end.
Proof.
  intros Hnull He Hl Hna Hattr Hc.
  destruct (Split_cases append_ok end_ ec l Hl He)
    as [(Hne & ->)|(l1 & v & l2 & -> & Hs & [->|[_ ->]])]; [done|done|].
  rewrite Forall_app, Forall_cons in Hc. destruct Hc as (_ & Hcv & _).
  destruct (Split_attr fs l1 v l2 end_ ec) as (Hl' & Hattr' & Hne); [auto..|].
  split_and!; [done| |done|intros a; by rewrite Hattr', Hattr].
  unfold no_straddle in *. rewrite !Forall_app in *. rewrite Forall_cons in Hna.
  destruct Hna as (? & Hv & ?). split_and!; [done| |done].
  destruct (right_part_fields end_ ec v) as [Es Ee].
  unfold halves. repeat constructor; unfold straddles in *; rewrite ?Es, ?Ee; cbn; lia.
Qed.

Lemma protect_commit_spec address end_ flags sc ec leaves s :
  vmas_ok (vmas s) -> address < end_ -> address mod PAGE_SIZE = 0 -> end_ mod PAGE_SIZE = 0 ->
  clones_for (files s) address end_ sc ec (vmas s) ->
  match protect_commit append_ok address end_ flags sc ec leaves s with
  | (true, s') =>
    vmas_ok (vmas s') /\ files s' = files s /\ ptable s' = foldl store_leaf (ptable s) leaves /\
    flushed s' = flushed s ++ pages_between address end_ /\
    forall a, attr (files s) (vmas s') a =
      if in_range address end_ a then protect_attr flags <$> attr (files s) (vmas s) a
      else attr (files s) (vmas s) a
  | (false, s') =>
    vmas s' = vmas s /\ ptable s' = ptable s /\ flushed s' = flushed s /\
    files s' = drop_file ec (drop_file sc (files s))
  end.
Proof.
  intros Hok Hae Ha He (Hnull & Hsc & Hec). unfold protect_commit.
  destruct (Split_cases append_ok address sc (vmas s) Hok Ha)
    as [(Hna & ->)|(l1 & v & l2 & E & Hs & [->|[_ ->]])]; [|done|].
  - pose proof (second_split (files s) address end_ ec _ (vmas s) Hnull He Hok Hna ltac:(done) Hec) as H2.
    destruct (SplitProtectedVmaAt append_ok end_ ec (vmas s)) as [[[] l'] sp]; cbn [vmas files ptable flushed].
    + destruct H2 as (Hl & Hn1 & Hn2 & Hat).
      destruct (flags_and_merge _ _ _ flags _ _ Hl Hn1 Hn2 Hat). done.
    + by subst.
  - rewrite E in *. rewrite Forall_app, Forall_cons in Hsc, Hec.
    destruct Hsc as (_ & Hsc & _), Hec as (He1 & Hev & He2).
    destruct (Split_attr (files s) l1 v l2 address sc) as (Hl' & Hattr' & Hna); [auto..|].
    assert (Forall (fun w => straddles end_ w = true -> clone_of (files s) ec w)
      (l1 ++ halves address sc v ++ l2)) as Hcl.
    { rewrite !Forall_app. split_and!; [done| |done]. unfold halves. repeat constructor.
      - unfold straddles. cbn. lia.
      - intros. apply (clone_of_right _ address end_); auto. }
    pose proof (second_split _ address end_ ec _ _ Hnull He Hl' Hna Hattr' Hcl) as H2.
    destruct (SplitProtectedVmaAt append_ok end_ ec _) as [[[] l'] sp]; cbn [vmas files ptable flushed].
    + destruct H2 as (Hl & Hn1 & Hn2 & Hat).
      destruct (flags_and_merge _ _ _ flags _ _ Hl Hn1 Hn2 Hat). done.
    + rewrite H2. split_and!; try done. unfold halves, remove_at. cbn [app].
      replace (length l1 + 1)%nat with (length (l1 ++ [set_end address v])) by (rewrite length_app; done).
      replace (l1 ++ set_end address v :: right_part address sc v :: l2)
        with ((l1 ++ [set_end address v]) ++ right_part address sc v :: l2) by (by rewrite <- app_assoc).
      rewrite delete_middle, <- app_assoc. cbn [app]. by rewrite alter_mid, set_end_back.
Qed.

End CommitSpec.

(** ** The scan *)

Section ScanSpec.
Context `{PagingConstants} `{OpenModes}.

Lemma protect_scan_spec fs flags address end_ l covered sf ef sf' ef' :
  vmas_ok l -> address <= covered <= end_ -> address < end_ ->
  (covered = address \/ Forall (fun v => covered <= vm_start v) l) ->
  protect_scan fs flags address end_ l covered sf ef = Some (end_, sf', ef') ->
  (forall a, covered <= a < end_ -> exists v, v ∈ l /\ covers a v = true /\ protectable fs flags v = true) /\
  sf' = default sf (vfile <$> List.find (straddles address) l) /\
  ef' = default ef (vfile <$> List.find (straddles end_) l).
Proof.
  revert covered sf ef. induction l as [|v l IH]; intros covered sf ef Hok Hc Hae Hinv; cbn [protect_scan].
  { intros [= -> <- <-]. split; [lia|done]. }
  pose proof Hok as (Hv & Hok' & Hb)%vmas_ok_cons. unfold vma_wf in Hv. cbn [List.find].
  destruct (covered <? end_) eqn:E1; cbn [negb].
  2:{ (* The cover is complete: no later area crosses either end. *)
      intros [= -> <- <-]. split; [lia|].
      destruct Hinv as [->|Hinv]; [lia|]. rewrite Forall_cons, Forall_forall in Hinv.
      destruct Hinv as [Hvs Hls].
      assert (forall b, b <= end_ -> straddles b v = false /\ List.find (straddles b) l = None) as Hno.
      { intros b Hbe. split; [unfold straddles; lia|]. destruct (List.find (straddles b) l) eqn:F; [|done].
        apply List.find_some in F as [Hi%list_elem_of_In F]. specialize (Hls _ Hi).
        unfold straddles in F. lia. }
      destruct (Hno address ltac:(lia)) as [-> ->], (Hno end_ ltac:(lia)) as [-> ->]. done. }
  destruct (vm_end v <=? covered) eqn:E2.
  - (* An area below the range is skipped. *)
    destruct Hinv as [->|Hinv]; [|rewrite Forall_cons in Hinv; lia].
    intros HR. apply IH in HR as (Hcov & -> & ->); [|done|lia|done|by left].
    assert (straddles address v = false /\ straddles end_ v = false) as [-> ->]
      by (unfold straddles; lia).
    split_and!; try done. intros a Ha. destruct (Hcov a Ha) as (w & ? & ?). exists w. set_solver.
  - destruct ((covered <? vm_start v) || negb (protectable fs flags v)) eqn:E3; [done|].
    apply orb_false_iff in E3 as [E3 Ep]. rewrite negb_false_iff in Ep. intros HR.
    apply IH in HR as (Hcov & -> & ->); [|done|lia|done|].
    2:{ right. apply Forall_forall. intros w Hw. specialize (Hb w Hw). unfold before in Hb. lia. }
    assert (forall b, b = address \/ b = end_ ->
      straddles b v = (vm_start v <? b) && (b <? vm_end v)) as Hst by (unfold straddles; lia).
    rewrite <- !Hst by auto.
    assert (forall b, straddles b v = true -> List.find (straddles b) l = None) as Hone.
    { intros b Hb'. destruct (List.find (straddles b) l) eqn:F; [|done].
      apply List.find_some in F as [Hi%list_elem_of_In F]. specialize (Hb _ Hi).
      unfold straddles, before in *. lia. }
    split_and!.
    + intros a Ha. destruct (decide (a < vm_end v)).
      * exists v. split_and!; [by left|unfold covers; lia|done].
      * destruct (Hcov a ltac:(lia)) as (w & ? & ?). exists w. set_solver.
    + destruct (straddles address v) eqn:Es; [by rewrite Hone|done].
    + destruct (straddles end_ v) eqn:Es; [by rewrite Hone|done].
Qed.

End ScanSpec.

(** ** File clones *)

Definition fresh_memory (fs : gmap Z vfs_file) (m : option Z) : Prop :=
  match m with Some a => a <> 0 /\ fs !! a = None | None => True end.

(** Every file pointer of an area is live. *)
Definition files_ok (fs : gmap Z vfs_file) (l : list VirtualMemoryArea) : Prop :=
  fs !! 0 = None /\ Forall (fun v => vfile v <> 0 -> is_Some (fs !! vfile v)) l.

Lemma CloneVmaFile_spec src m fs c fs' :
  fs !! 0 = None -> fresh_memory fs m -> CloneVmaFile src m fs = (c, fs') ->
  fs' !! 0 = None /\ drop_file c fs' = fs /\
  (forall x, is_Some (fs !! x) -> fs' !! x = fs !! x) /\
  (truthy src && (c =? 0) = false -> src <> 0 -> fs' !! c = fs !! src) /\
  (c = 0 /\ fs' = fs \/ m = Some c /\ exists f, fs' = <[c := f]> fs).
Proof.
  intros Hn Hf. unfold CloneVmaFile, drop_file, truthy. destruct (src =? 0) eqn:E.
  { intros [= <- <-]. split_and!; try done; [lia|by left]. }
  assert (fs !! 0 = None /\ (if 0 =? 0 then fs else delete 0 fs) = fs /\
    (forall x, is_Some (fs !! x) -> fs !! x = fs !! x) /\
    (negb false && (0 =? 0) = false -> src <> 0 -> fs !! 0 = fs !! src) /\
    (0 = 0 /\ fs = fs \/ m = Some 0 /\ exists f, fs = <[0 := f]> fs)) as Hfail
    by (split_and!; try done; by left).
  destruct m as [a|]; [|intros [= <- <-]; exact Hfail].
  destruct (fs !! src) as [f|] eqn:Es; [|intros [= <- <-]; exact Hfail].
  cbn in Hf. destruct Hf as [Ha Hf]. intros [= <- <-]. split_and!.
  - by rewrite lookup_insert_ne.
  - rewrite (proj2 (Z.eqb_neq _ _)) by done. by rewrite delete_insert_id.
  - intros x [g Hx]. rewrite lookup_insert_ne; [done|]. intros ->. congruence.
  - intros _ _. by rewrite lookup_insert_eq.
  - right. eauto.
Qed.

Lemma attr_ext fs fs' l a : Forall (fun v => fs' !! vfile v = fs !! vfile v) l ->
  attr fs' l a = attr fs l a.
Proof.
  intros Hf. unfold attr. destruct (vma_at l a) as [v|] eqn:E; [|done].
  apply vma_at_Some in E as [Hv _]. rewrite Forall_forall in Hf. cbn. unfold attr_of.
  by rewrite Hf.
Qed.

(** ** The operation *)

Lemma find_straddles b l v : vmas_ok l -> v ∈ l -> straddles b v = true ->
  List.find (straddles b) l = Some v.
Proof.
  intros Hok Hv Hs. induction l as [|w l IH]; [by apply elem_of_nil in Hv|].
  apply vmas_ok_cons in Hok as (_ & Hok & Hb). cbn. apply elem_of_cons in Hv as [->|Hv].
  - by rewrite Hs.
  - specialize (Hb v Hv). replace (straddles b w) with false; [by apply IH|].
    unfold straddles, before in *. lia.
Qed.

Section ProtectSpec.
Context `{PagingConstants} `{OpenModes} {PT : Type} `{!PageTable PT}.
Context (append_ok : list VirtualMemoryArea -> bool).

Lemma protect_arguments_spec address len flags : is_u64 address -> is_u64 len ->
  protect_arguments_ok address len flags = true ->
  0 < len /\ address mod PAGE_SIZE = 0 /\ len mod PAGE_SIZE = 0 /\ address + len < two64 /\
  (address +w len) = address + len.
Proof.
  unfold protect_arguments_ok, is_u64. rewrite negb_true_iff, !orb_false_iff. intros Ha Hl Hg.
  destruct Hg as ((((H1 & H2) & H3) & _) & _).
  pose proof (aligned_or address len) as Hal. change 0xFFF with (PAGE_SIZE - 1) in Hal.
  apply Hal in H2 as [? ?]. unfold UMAX in H3. split_and!; try done; try lia.
  apply uadd_small. lia.
Qed.

(** What is left after the tests and the clones. *)
Lemma Protect_reduces mc pa sm em address len flags s :
  let r := ProtectVmaRange append_ok mc pa sm em address len flags s in
  is_u64 address -> is_u64 len -> vmas_ok (vmas s) -> files_ok (files s) (vmas s) ->
  fresh_memory (files s) sm -> fresh_memory (files s) em -> (sm = None \/ sm <> em) ->
  (r.1 = false /\ vmas r.2 = vmas s /\ ptable r.2 = ptable s /\ files r.2 = files s /\
   flushed r.2 = flushed s) \/
  exists sc ec fs leaves,
    protect_arguments_ok address len flags = true /\
    mapM (preflight_page mc (ptable s) flags) (pages_between address (address + len)) = Some leaves /\
    r = protect_commit append_ok address (address + len) flags sc ec (omap id leaves)
          (MkSpace (vmas s) (ptable s) fs (flushed s)) /\
    clones_for fs address (address + len) sc ec (vmas s) /\
    drop_file ec (drop_file sc fs) = files s /\
    (forall x, is_Some (files s !! x) \/ x = 0 -> fs !! x = files s !! x) /\
    (forall a, address <= a < address + len ->
       exists v, v ∈ vmas s /\ covers a v = true /\ protectable (files s) flags v = true).
Proof.
  intros r Ha Hl Hok [Hnull Hlive] Hfs Hfe Hne. subst r. unfold ProtectVmaRange.
  destruct (protect_arguments_ok address len flags) eqn:Harg; cbn [negb]; [|by left].
  destruct (protect_arguments_spec _ _ _ Ha Hl Harg) as (? & ? & ? & ? & Hend). rewrite Hend.
  destruct (_ <? _); [by left|]. destruct pa; cbn [negb]; [|by left].
  destruct (protect_scan _ _ _ _ _ _ _ _) as [[[covered sf] ef]|] eqn:Hscan; [|by left].
  destruct (covered =? address + len) eqn:Hcov; cbn [negb]; [|by left].
  apply Z.eqb_eq in Hcov. rewrite Hcov in Hscan.
  apply protect_scan_spec in Hscan as (Hcover & Hsf & Hef); [|done|lia|lia|by left].
  destruct (CloneVmaFile sf sm (files s)) as [sc fs1] eqn:Hc1.
  destruct (CloneVmaFile_spec _ _ _ _ _ Hnull Hfs Hc1) as (Hn1 & Hd1 & Hk1 & He1 & Hcase).
  assert (fresh_memory fs1 em) as Hfe1.
  { destruct em as [b|]; [|done]. cbn in Hfe |- *. destruct Hfe as [? Hb]. split; [done|].
    destruct Hcase as [[_ ->]|[-> [f ->]]]; [done|]. rewrite lookup_insert_ne; [done|].
    intros ->. by destruct Hne. }
  destruct (CloneVmaFile ef em fs1) as [ec fs2] eqn:Hc2.
  destruct (CloneVmaFile_spec _ _ _ _ _ Hn1 Hfe1 Hc2) as (Hn2 & Hd2 & Hk2 & He2 & Hcase2).
  assert (drop_file ec (drop_file sc fs2) = files s) as Hdrop.
  { transitivity (drop_file sc (drop_file ec fs2)); [|by rewrite Hd2]. unfold drop_file.
    destruct (sc =? 0), (ec =? 0); try done. apply delete_delete. }
  destruct (_ || _) eqn:Hg; [by left|].
  destruct (mapM _ _) as [leaves|] eqn:Hpre; [|by left].
  right. apply orb_false_iff in Hg as [Hg1 Hg2].
  assert (forall x, is_Some (files s !! x) \/ x = 0 -> fs2 !! x = files s !! x) as Hkeep.
  { intros x [Hx| ->]; [|congruence]. rewrite <- (Hk1 x Hx). apply Hk2. by rewrite Hk1. }
  exists sc, ec, fs2, leaves. split_and!; try done. split_and!; [done| |].
  - apply Forall_forall. intros v Hv Hst Hf.
    rewrite (find_straddles _ _ _ Hok Hv Hst) in Hsf. cbn in Hsf. subst sf.
    rewrite Forall_forall in Hlive. specialize (Hlive v Hv Hf).
    rewrite (Hkeep (vfile v)) by (by left). rewrite <- (He1 Hg1 Hf). apply Hk2.
    by rewrite (He1 Hg1 Hf).
  - apply Forall_forall. intros v Hv Hst Hf.
    rewrite (find_straddles _ _ _ Hok Hv Hst) in Hef. cbn in Hef. subst ef.
    rewrite Forall_forall in Hlive. specialize (Hlive v Hv Hf).
    rewrite (Hkeep (vfile v)) by (by left). rewrite <- (Hk1 _ Hlive). by apply He2.
Qed.

(** C6: [ProtectVmaRange] is all or nothing.  On success the whole range was covered by areas
    that may take the new flags, every address in the range gets the new flags and keeps its kind,
    its mode and its file position, every address outside keeps all its attributes, and
    the areas stay sorted and disjoint.  On failure, wherever it happens, areas, page table, files
    and flush log are exactly as before. *)
Theorem ProtectVmaRange_correct mc pa sm em address len flags s :
  is_u64 address -> is_u64 len -> vmas_ok (vmas s) -> files_ok (files s) (vmas s) ->
  fresh_memory (files s) sm -> fresh_memory (files s) em -> (sm = None \/ sm <> em) ->
  match ProtectVmaRange append_ok mc pa sm em address len flags s with
  | (true, s') =>
    (forall a, address <= a < address + len ->
       exists v, v ∈ vmas s /\ covers a v = true /\ protectable (files s) flags v = true) /\
    vmas_ok (vmas s') /\
    (forall a, attr (files s') (vmas s') a =
      if in_range address (address + len) a then protect_attr flags <$> attr (files s) (vmas s) a
      else attr (files s) (vmas s) a)
  | (false, s') =>
    vmas s' = vmas s /\ ptable s' = ptable s /\ files s' = files s /\ flushed s' = flushed s
  end.
Proof.
  intros Ha Hl Hok Hfiles Hfs Hfe Hne.
  destruct (Protect_reduces mc pa sm em address len flags s Ha Hl Hok Hfiles Hfs Hfe Hne)
    as [Hfail|(sc & ec & fs & leaves & Harg & _ & -> & Hcl & Hdrop & Hkeep & Hcover)].
  { destruct (ProtectVmaRange _ _ _ _ _ _ _ _ _) as [[] s']; cbn in Hfail; [by destruct Hfail|tauto]. }
  destruct (protect_arguments_spec _ _ _ Ha Hl Harg) as (? & ? & ? & ? & _).
  pose proof (protect_commit_spec append_ok address (address + len) flags sc ec (omap id leaves)
    (MkSpace (vmas s) (ptable s) fs (flushed s)) Hok ltac:(lia) ltac:(done)) as Hspec.
  specialize (Hspec ltac:(unfold PAGE_SIZE in *; lia) Hcl).
  destruct (protect_commit _ _ _ _ _ _ _ _) as [[] s']; cbn [vmas files ptable flushed] in Hspec.
  - destruct Hspec as (? & -> & _ & _ & Hattr). split_and!; [done|done|].
    intros a. rewrite Hattr, (attr_ext (files s)); [done|].
    destruct Hfiles as [_ Hlive]. eapply Forall_impl; [exact Hlive|]. intros v Hv. apply Hkeep.
    destruct (decide (vfile v = 0)); [by right|left; auto].
  - destruct Hspec as (? & ? & ? & ->). done.
Qed.

(** *** The page table *)

Context `{!PagePermissionLaws} `{!PageStoreLaws PT}.

(** A mapping becomes writable only if it already was and the flags allow it. *)
Lemma next_properties_writable flags current :
  has (next_properties flags current) PGPROP_writable =
    has flags PGPROP_writable && has current PGPROP_writable.
Proof.
  unfold next_properties, has at 1. set (base := Z.lor (Z.land current _) _).
  assert (Z.land base PGPROP_writable = 0) as Hb.
  { unfold base. rewrite Z.land_lor_distr_l, <- !Z.land_assoc, Z.land_lor_distr_l.
    rewrite pgprop_writable_user, pgprop_writable_nx, Z.lor_0_r, !Z.land_0_r, Z.lor_0_r.
    apply Z.bits_inj'. intros n Hn. rewrite Z.bits_0, !Z.land_spec, Z.lnot_spec, !Z.lor_spec by done.
    by destruct (Z.testbit current n), (Z.testbit PGPROP_writable n), (Z.testbit PGPROP_user_access n),
      (Z.testbit PGPROP_nonexecutable n). }
  destruct (has flags _ && has current _).
  - rewrite Z.land_lor_distr_l, Hb, Z.land_diag, Z.lor_0_l. unfold truthy.
    rewrite (proj2 (Z.eqb_neq _ _)); [done|apply pgprop_writable_bit].
  - by rewrite Hb.
Qed.

(** The leaves the preflight accepted. *)
Definition leaf_ok (mc : bool) (pt : PT) (flags : Z) (leaf : Z * Z * Z) : Prop :=
  leaf.1.1 mod PAGE_SIZE = 0 /\ (leaf.1.2 = pt_at pt leaf.1.1 /\ mapped pt leaf.1.1 = true) /\
  pt_setup_ok leaf.1.2 0 leaf.2 = true /\
  exists current, pt_leaf pt leaf.1.1 = Some (0, current) /\ leaf.2 = next_properties flags current.

Lemma foldl_store mc flags pt0 leaves pt page : page mod PAGE_SIZE = 0 ->
  Forall (leaf_ok mc pt0 flags) leaves ->
  pt_leaf (foldl store_leaf pt leaves) page =
    match List.find (fun leaf => page =? leaf.1.1) (rev leaves) with
    | Some leaf => Some (0, leaf.2) | None => pt_leaf pt page end /\
  pt_at (foldl store_leaf pt leaves) page =
    match List.find (fun leaf => page =? leaf.1.1) (rev leaves) with
    | Some leaf => leaf.1.2 | None => pt_at pt page end.
Proof.
  intros Hp. induction leaves as [|leaf leaves IH] using rev_ind; intros Hf; [done|].
  rewrite Forall_app, Forall_singleton in Hf. destruct Hf as [Hf (Ha & _ & Hok & _)].
  rewrite foldl_app, rev_unit. cbn [foldl List.find]. unfold store_leaf at 1 3.
  rewrite pt_leaf_store, pt_at_store by done. destruct (page =? leaf.1.1); [done|by apply IH].
Qed.

Lemma preflight_Some mc pt flags pages leaves :
  Forall (fun page => page mod PAGE_SIZE = 0) pages ->
  mapM (preflight_page mc pt flags) pages = Some leaves ->
  Forall (leaf_ok mc pt flags) (omap id leaves) /\
  (forall leaf, leaf ∈ omap id leaves -> leaf.1.1 ∈ pages) /\
  (forall page, page ∈ pages -> mapped pt page = true ->
     exists leaf, leaf ∈ omap id leaves /\ leaf.1.1 = page).
Proof.
  intros Hal HM. apply mapM_Some in HM. revert Hal. induction HM as [|page o pages leaves Hpg HM IH]; intros Hal.
  { split_and!; [constructor|intros ? []%elem_of_nil|intros ? []%elem_of_nil]. }
  rewrite Forall_cons in Hal. destruct Hal as [Hp Hal]. destruct (IH Hal) as (Hok & Hin & Hall).
  unfold preflight_page in Hpg. destruct (pt_at pt page =? UMAX) eqn:Eat.
  - injection Hpg as <-. cbn. split_and!; [done|set_solver|].
    intros q [->|Hq]%elem_of_cons Hm; [unfold mapped in Hm; rewrite Eat in Hm; done|by apply Hall].
  - destruct (pt_leaf pt page) as [[level current]|] eqn:El; [|done].
    destruct (level =? 0) eqn:Elv; cbn [negb] in Hpg; [|done]. destruct (mc && _); [done|].
    destruct (pt_setup_ok _ _ _) eqn:Es; cbn [negb] in Hpg; [|done]. injection Hpg as <-.
    apply Z.eqb_eq in Elv as ->. cbn. split_and!.
    + constructor; [|done]. unfold leaf_ok, mapped. cbn. rewrite Eat. split_and!; [done..|]. eauto.
    + intros leaf [->|Hl]%elem_of_cons; [by left|right; by apply Hin].
    + intros q [->|Hq]%elem_of_cons Hm; [eexists; split; [by left|done]|].
      destruct (Hall q Hq Hm) as (leaf & ? & ?). exists leaf. set_solver.
Qed.

(** the page-table side of [ProtectVmaRange].  A successful change keeps the translation of
    every page; it leaves the leaves outside the range alone; inside the range a resident leaf
    gets the requested user and no-execute bits, and is writable afterwards only if it was writable
    before and the new flags allow writing, so private copy-on-write pages stay protected; and
    every page of the range is invalidated. *)
Theorem ProtectVmaRange_leaves mc pa sm em address len flags s s' :
  is_u64 address -> is_u64 len -> vmas_ok (vmas s) -> files_ok (files s) (vmas s) ->
  fresh_memory (files s) sm -> fresh_memory (files s) em -> (sm = None \/ sm <> em) ->
  ProtectVmaRange append_ok mc pa sm em address len flags s = (true, s') ->
  flushed s' = flushed s ++ pages_between address (address + len) /\
  forall page, page mod PAGE_SIZE = 0 ->
    pt_at (ptable s') page = pt_at (ptable s) page /\
    if in_range address (address + len) page && mapped (ptable s) page then
      exists current, pt_leaf (ptable s) page = Some (0, current) /\
        pt_leaf (ptable s') page = Some (0, next_properties flags current) /\
        has (next_properties flags current) PGPROP_writable =
          has flags PGPROP_writable && has current PGPROP_writable
    else pt_leaf (ptable s') page = pt_leaf (ptable s) page.
Proof.
  intros Ha Hl Hok Hfiles Hfs Hfe Hne HP.
  destruct (Protect_reduces mc pa sm em address len flags s Ha Hl Hok Hfiles Hfs Hfe Hne)
    as [(Hf & _)|(sc & ec & fs & leaves & Harg & Hpre & HR & Hcl & _)]; [by rewrite HP in Hf|].
  destruct (protect_arguments_spec _ _ _ Ha Hl Harg) as (? & ? & ? & ? & _).
  rewrite HP in HR. symmetry in HR.
  assert ((address + len) mod PAGE_SIZE = 0) as Hend by (unfold PAGE_SIZE in *; lia).
  pose proof (protect_commit_spec append_ok address (address + len) flags sc ec (omap id leaves)
    (MkSpace (vmas s) (ptable s) fs (flushed s)) Hok ltac:(lia) ltac:(done) Hend Hcl) as Hspec.
  rewrite HR in Hspec. destruct Hspec as (_ & _ & Ht & Hfl & _). cbn [flushed ptable] in *.
  split; [done|]. intros page Hpg. rewrite Ht.
  apply preflight_Some in Hpre as (Hlo & Hin & Hall).
  2:{ apply Forall_forall. intros q Hq. apply elem_of_pages_between in Hq; [tauto|done|lia]. }
  destruct (foldl_store mc flags (ptable s) _ (ptable s) page Hpg Hlo) as [-> ->].
  destruct (List.find _ _) as [leaf|] eqn:F.
  - apply List.find_some in F as [Hl1 Hl2]. apply Z.eqb_eq in Hl2 as ->.
    rewrite <- in_rev, <- list_elem_of_In in Hl1. rewrite Forall_forall in Hlo.
    destruct (Hlo leaf Hl1) as (_ & [-> Hm] & _ & current & Hcur & ->).
    split; [done|]. apply Hin in Hl1. rewrite elem_of_pages_between in Hl1 by (done || lia).
    replace (in_range _ _ _ && _) with true by (unfold in_range; rewrite Hm; lia).
    exists current. split_and!; [done|done|apply next_properties_writable].
  - split; [done|]. destruct (in_range _ _ _ && _) eqn:Em; [|done].
    apply andb_true_iff in Em as [Er Em]. destruct (Hall page) as (leaf & Hl1 & <-); [|done|].
    + apply elem_of_pages_between; [done|lia|]. unfold in_range in Er. lia.
    + apply list_elem_of_In in Hl1. rewrite in_rev in Hl1.
      pose proof (List.find_none _ _ F leaf Hl1) as Hn. cbn in Hn. lia.
Qed.

End ProtectSpec.

(** ** Witnesses *)
Module ProtectWitness.
Import Interfaces.Example.

#[local] Instance modes : OpenModes := {| O_ACCMODE := 3; O_WRONLY := 1; O_RDWR := 2 |}.

(** A private file area of four pages, two of them resident. *)
Definition area : VirtualMemoryArea :=
  MkVma 0x1000 0x5000 7 false VirtualMemoryAreaType.File VirtualMemoryAreaMode.Private 9 0x2000.

Definition space : Space Table :=
  MkSpace [area] (<[2 := (0x7000, 71)]> (<[3 := (0x8000, 69)]> ∅)) {[9 := MkFile 5 2]} [].

Lemma space_ok : vmas_ok (vmas space) /\ files_ok (files space) (vmas space).
Proof.
  split.
  - unfold space, area. cbn [vmas]. vmas_list.
  - split; [done|]. apply Forall_singleton. intros _. cbn. by eexists.
Qed.

(** Making the two middle pages read-only cuts the area in three. *)
Definition run : bool * Space Table :=
  ProtectVmaRange (fun _ => true) false true (Some 10) (Some 11) 0x2000 0x2000 5 space.

Lemma Protect_witness : run.1 = true /\ length (vmas run.2) = 3%nat /\ vmas_ok (vmas run.2).
Proof.
  split; [vm_compute; reflexivity|]. split; [vm_compute; reflexivity|].
  pose proof (ProtectVmaRange_correct (fun _ => true) false true (Some 10) (Some 11)
    0x2000 0x2000 5 space ltac:(done) ltac:(done) (proj1 space_ok) (proj2 space_ok)
    ltac:(done) ltac:(done) ltac:(by right)) as W.
  fold run in W. assert (run.1 = true) as E by (vm_compute; reflexivity).
  destruct run as [[] s']; [apply W|discriminate E].
Defined.

Lemma Protect_leaves_witness :
  run.1 = true /\ pt_leaf (ptable run.2) 0x2000 = Some (0, 69) /\
  flushed run.2 = [0x2000; 0x3000].
Proof.
  split; [vm_compute; reflexivity|]. split; [vm_compute; reflexivity|].
  assert (E : run = (true, run.2)) by (vm_compute; reflexivity).
  destruct (ProtectVmaRange_leaves (fun _ => true) false true (Some 10) (Some 11)
    0x2000 0x2000 5 space run.2 ltac:(done) ltac:(done) (proj1 space_ok) (proj2 space_ok)
    ltac:(done) ltac:(done) ltac:(by right) E) as [W _].
  rewrite W. reflexivity.
Defined.

End ProtectWitness.
