(* ===== verification/VmaUnmap.v ===== *)
(** * Unmapping a range of a process ([ProcessBlock::UnmapVmaRange], [mecocoa/memoman.cpp])

    The operation counts what the change needs, allocates its plan, writes dirty shared pages
    back, unmaps device pages through the mapping registry, then unmaps the other pages, trims the
    areas and merges them; when a step fails it maps the pages back.  Only then are page
    references, file aliases, executable pins and file handles given up.

    The shared-file cache is behind the interface [SharedFiles].  A failed [KASSERT] is [None]. *)
From S2P Require Import Prelude Interfaces PhysRange Registry ManagedPages Vma VmaProtect.

(** What the shared-file cache does for the address space. *)
Class SharedFiles (W : Type) := {
  (** [inode->identity] *)
  sf_identity : W -> Z -> Z;
  (** [FlushSharedFilePageWithCopyLock(identity, offset)] *)
  sf_flush : W -> Z -> Z -> bool * W;
  (** [UnregisterSharedFileAlias(identity, offset, pb, address)] *)
  sf_unregister : W -> Z -> Z -> Z -> W;
  (** [UnpinMappedExecutableImage(pb, inode)] *)
  sf_unpin : W -> Z -> W;
}.

(** The process's address space with the kernel state the operation touches.  The registry's nodes
    and the pages come from one pool, kept in [manager]. *)
Record World (PT M W : Type) := MkWorld {
  space : Space PT;
  mappings : list RecordNode;
  manager : PageManager M;
  shared : W;
}.
Arguments MkWorld {PT M W}.
Arguments space {PT M W}.
Arguments mappings {PT M W}.
Arguments manager {PT M W}.
Arguments shared {PT M W}.

Record VmaPageReleasePlan := MkPlan {
  p_address : Z;
  p_physical : Z;
  p_properties : Z;
  p_file_offset : Z;
  p_shared_identity : Z;
  p_release_physical : bool;
  p_unmapped : bool;
}.

Definition is_file (v : VirtualMemoryArea) : bool :=
  bool_decide (vm_type v = VirtualMemoryAreaType.File) && truthy (vfile v).
Definition is_device (v : VirtualMemoryArea) : bool :=
  bool_decide (vm_type v = VirtualMemoryAreaType.Device).

(** How an area lies to the range: inside it, around it, across its begin, across its end. *)
Definition inside (address end_ : Z) (v : VirtualMemoryArea) : bool :=
  (address <=? vm_start v) && (vm_end v <=? end_).
Definition around (address end_ : Z) (v : VirtualMemoryArea) : bool :=
  (vm_start v <? address) && (end_ <? vm_end v).
Definition overlap_begin (address : Z) (v : VirtualMemoryArea) : Z := Z.max address (vm_start v).
Definition overlap_end (end_ : Z) (v : VirtualMemoryArea) : Z := Z.min end_ (vm_end v).
Definition overlaps (address end_ : Z) (v : VirtualMemoryArea) : bool :=
  overlap_begin address v <? overlap_end end_ v.

(** The counts of the first scan: pages, files to release, device areas, and whether a file area
    is split. *)
Fixpoint unmap_count (address end_ : Z) (l : list VirtualMemoryArea)
  (page_capacity file_capacity device_capacity : Z) (split_required : bool)
  : option (Z * Z * Z * bool) :=
  match l with
  | [] => Some (page_capacity, file_capacity, device_capacity, split_required)
  | v :: rest =>
    if negb (overlaps address end_ v)
    then unmap_count address end_ rest page_capacity file_capacity device_capacity split_required
    else
      let pages := (overlap_end end_ v - overlap_begin address v) / PAGE_SIZE in
      if UMAX - page_capacity <? pages then None
      else unmap_count address end_ rest (page_capacity + pages)
             (if inside address end_ v && is_file v then file_capacity + 1 else file_capacity)
             (if is_device v then device_capacity + 1 else device_capacity)
             (split_required || (around address end_ v && is_file v))
  end.

Section Unmap.
Context `{PagingConstants} {PT : Type} `{!PageTable PT} {M : Type} `{!Mempool M}
  {W : Type} `{!SharedFiles W} (append_ok : list VirtualMemoryArea -> bool).

(** The plan of one page. *)
Definition plan_page (w : W) (fs : gmap Z vfs_file) (v : VirtualMemoryArea) (page : Z)
  : VmaPageReleasePlan :=
  MkPlan page 0
    (Z.land (vm_flags v) (Z.lor (Z.lor PGPROP_present PGPROP_writable)
                                (Z.lor PGPROP_user_access PGPROP_nonexecutable)))
    (file_offset v +w page -w vm_start v)
    (if is_file v && bool_decide (vm_mode v = VirtualMemoryAreaMode.Shared) then
       match fs !! vfile v with
       | Some f => if truthy (f_inode f) then sf_identity w (f_inode f) else 0
       | None => 0
       end
     else 0)
    (negb (is_device v)) false.

(** The second scan: the plan of every page, the device ranges, and the clone for a split. *)
Fixpoint unmap_plan (w : W) (address end_ : Z) (split_required : bool) (memory : option Z)
  (l : list VirtualMemoryArea) (fs : gmap Z vfs_file) (split_file : Z)
  (items : list VmaPageReleasePlan) (devices : list (Z * Z))
  : bool * gmap Z vfs_file * Z * list VmaPageReleasePlan * list (Z * Z) :=
  match l with
  | [] => (true, fs, split_file, items, devices)
  | v :: rest =>
    if negb (overlaps address end_ v)
    then unmap_plan w address end_ split_required memory rest fs split_file items devices
    else
      let b := overlap_begin address v in
      let e := overlap_end end_ v in
      let devices := if is_device v then devices ++ [(b, e - b)] else devices in
      let items := items ++ (plan_page w fs v <$> pages_between b e) in
      if split_required && (split_file =? 0) && around address end_ v && is_file v then
        let '(clone, fs) := CloneVmaFile (vfile v) memory fs in
        if clone =? 0 then (false, fs, 0, items, devices)
        else unmap_plan w address end_ split_required memory rest fs clone items devices
      else unmap_plan w address end_ split_required memory rest fs split_file items devices
  end.

(** Write dirty shared pages back; a failure counts only when the release is not forced. *)
Fixpoint flush_shared (force : bool) (pt : PT) (items : list VmaPageReleasePlan) (w : W)
  : bool * W :=
  match items with
  | [] => (true, w)
  | item :: rest =>
    if negb (truthy (p_shared_identity item)) || negb (mapped pt (p_address item))
    then flush_shared force pt rest w
    else match sf_flush w (p_shared_identity item) (p_file_offset item) with
    | (true, w) => flush_shared force pt rest w
    | (false, w) => if force then flush_shared force pt rest w else (false, w)
    end
  end.

Fixpoint unmap_devices (pg : Z) (devices : list (Z * Z)) (pt : PT) (g : Registry M)
  : option (bool * Registry M * PT) :=
  match devices with
  | [] => Some (true, g, pt)
  | (b, len) :: rest =>
    match UnmapPages pg pt b len g with
    | None => None
    | Some (false, g, pt) => Some (false, g, pt)
    | Some (true, g, pt) => unmap_devices pg rest pt g
    end
  end.

(** [item.physical = paging[item.address]] for the pages to release. *)
Definition capture (pt : PT) (item : VmaPageReleasePlan) : VmaPageReleasePlan :=
  if p_release_physical item then
    MkPlan (p_address item) (pt_at pt (p_address item)) (p_properties item) (p_file_offset item)
      (p_shared_identity item) true (p_unmapped item)
  else item.

Fixpoint unmap_items (pt : PT) (items : list VmaPageReleasePlan)
  : bool * PT * list VmaPageReleasePlan :=
  match items with
  | [] => (true, pt, [])
  | item :: rest =>
    if negb (p_release_physical item) || (p_physical item =? UMAX) then
      let '(ok, pt, rest) := unmap_items pt rest in (ok, pt, item :: rest)
    else match pt_leaf pt (p_address item) with
    | None => (false, pt, item :: rest)
    | Some (_, properties) =>
      let item' unmapped := MkPlan (p_address item) (p_physical item) properties
        (p_file_offset item) (p_shared_identity item) true unmapped in
      match pt_unmap pt (p_address item) PAGE_SIZE with
      | (false, pt) => (false, pt, item' false :: rest)
      | (true, pt) =>
        let '(ok, pt, rest) := unmap_items pt rest in (ok, pt, item' true :: rest)
      end
    end
  end.

(** What is left of an area after its part below [e] is cut off. *)
Definition tail_part (e file : Z) (v : VirtualMemoryArea) : VirtualMemoryArea :=
  if is_file v
  then set_backing file (file_offset v +w e -w vm_start v) (set_start e v)
  else set_start e v.

(** The trimming loop at index [i]; [None] when the fuel runs out before the end of the vector. *)
Fixpoint trim_loop (fuel : nat) (address end_ : Z) (i : nat) (l : list VirtualMemoryArea)
  (released : list Z) (split_file : Z) : option (bool * list VirtualMemoryArea * list Z * Z) :=
  match l !! i with
  | None => Some (true, l, released, split_file)
  | Some v =>
    match fuel with
    | O => None
    | S fuel =>
      if inside address end_ v then
        trim_loop fuel address end_ i (remove_at i l)
          (if is_file v then released ++ [vfile v] else released) split_file
      else if around address end_ v then
        let right_vma := tail_part end_ split_file v in
        match InsertVmaSorted append_ok right_vma (alter (set_end address) i l) with
        | (false, l) => Some (false, alter (set_end (vm_end v)) i l, released, split_file)
        | (true, l) =>
          trim_loop fuel address end_ (i + 2) l released
            (if truthy (vfile right_vma) then 0 else split_file)
        end
      else if (vm_start v <? address) && (address <? vm_end v) then
        trim_loop fuel address end_ (i + 1) (alter (set_end address) i l) released split_file
      else if (vm_start v <? end_) && (end_ <? vm_end v) then
        trim_loop fuel address end_ (i + 1) (alter (tail_part end_ (vfile v)) i l) released split_file
      else trim_loop fuel address end_ (i + 1) l released split_file
    end
  end.

(** Undo: map the unmapped pages back. *)
Definition remap_item (pt : PT) (item : VmaPageReleasePlan) : PT :=
  if negb (p_unmapped item) || (p_physical item =? 0) || (p_physical item =? UMAX) then pt
  else (pt_map pt (p_address item) (p_physical item) PAGE_SIZE PAGESIZE_4KB
          (Z.lor (p_properties item) PGOPTS_omit_warnings)).2.

Definition resident (item : VmaPageReleasePlan) : bool :=
  truthy (p_physical item) && negb (p_physical item =? UMAX).

Definition unregister_item (w : W) (item : VmaPageReleasePlan) : W :=
  if truthy (p_shared_identity item) && resident item
  then sf_unregister w (p_shared_identity item) (p_file_offset item) (p_address item) else w.

Definition release_item (m : PageManager M) (item : VmaPageReleasePlan) : PageManager M :=
  if resident item && p_release_physical item
  then (ReleaseManagedPageMapping (p_physical item) m).2 else m.

Definition file_inode (fs : gmap Z vfs_file) (file : Z) : Z := default 0 (f_inode <$> fs !! file).

(** Drop the executable pin of a released file that no area maps any more. *)
Definition unpin_file (fs : gmap Z vfs_file) (l : list VirtualMemoryArea) (w : W) (file : Z) : W :=
  let inode := file_inode fs file in
  if existsb (fun v => is_file v && (file_inode fs (vfile v) =? inode)) l then w
  else sf_unpin w inode.

(** The sizes of the three plan entries. *)
Definition release_plan_size : Z := 48.
Definition file_owner_size : Z := 8.
Definition device_plan_size : Z := 16.

(** From the unmapping of the pages on. *)
Definition unmap_commit (address end_ : Z) (file_capacity : Z) (split_file : Z)
  (items : list VmaPageReleasePlan) (x : World PT M W) : option (bool * World PT M W) :=
  let s := space x in
  let items := capture (ptable s) <$> items in
  let '(ok, pt, items) := unmap_items (ptable s) items in
  '(ok, l, released, split_file) ←
    (if ok then trim_loop (length (vmas s)) address end_ 0 (vmas s) [] split_file
     else Some (false, vmas s, [], split_file));
  let log := flushed s ++ (p_address <$> items) in
  if negb (ok : bool) then
    Some (false, MkWorld (MkSpace l (foldl remap_item pt items) (drop_file split_file (files s)) log)
                   (mappings x) (manager x) (shared x))
  else
    let l := MergeAdjacentAnonymousVmas l in
    let w := foldl unregister_item (shared x) items in
    let m := foldl release_item (manager x) items in
    if negb (Z.of_nat (length released) =? file_capacity) then None
    else
      let w := foldl (unpin_file (files s) l) w released in
      let fs := foldl (fun fs file => drop_file file fs) (files s) released in
      Some (true, MkWorld (MkSpace l pt (drop_file split_file fs) log) (mappings x) m w).

Definition UnmapVmaRange (force allocated : bool) (memory : option Z) (pg address length_ : Z)
  (x : World PT M W) : option (bool * World PT M W) :=
  if (length_ =? 0) || truthy (Z.land address (PAGE_SIZE - 1))
     || truthy (Z.land length_ (PAGE_SIZE - 1)) || (UMAX - address <? length_)
  then Some (false, x)
  else
    let end_ := address +w length_ in
    let s := space x in
    match unmap_count address end_ (vmas s) 0 0 0 false with
    | None => Some (false, x)
    | Some (page_capacity, file_capacity, device_capacity, split_required) =>
      if (UMAX / release_plan_size <? page_capacity) || (UMAX / file_owner_size <? file_capacity)
         || (UMAX / device_plan_size <? device_capacity) || negb allocated
      then Some (false, x)
      else
        let '(prepared, fs, split_file, items, devices) :=
          unmap_plan (shared x) address end_ split_required memory (vmas s) (files s) 0 [] [] in
        let undo pt g m w := Some (false,
          MkWorld (MkSpace (vmas s) pt (drop_file split_file fs) (flushed s)) g m w) in
        if negb prepared || negb (Z.of_nat (length items) =? page_capacity)
           || negb (Z.of_nat (length devices) =? device_capacity)
           || (split_required && (split_file =? 0))
        then undo (ptable s) (mappings x) (manager x) (shared x)
        else match flush_shared force (ptable s) items (shared x) with
        | (false, w) => undo (ptable s) (mappings x) (manager x) w
        | (true, w) =>
          '(ok, g, pt) ← unmap_devices pg devices (ptable s)
                            (MkRegistry (mappings x) (pages (manager x)));
          let m := MkManager (buckets (manager x)) (pool g) in
          if negb (ok : bool) then undo pt (records g) m w
          else unmap_commit address end_ file_capacity split_file items
                 (MkWorld (MkSpace (vmas s) pt fs (flushed s)) (records g) m w)
        end
    end.

(** [force_vma_release] is set only during the call. *)
Definition ReleaseAllVmas (allocated : bool) (memory : option Z) (pg : Z) (x : World PT M W)
  : option (bool * World PT M W) :=
  match vmas (space x) with
  | [] => Some (true, x)
  | v :: rest =>
    let begin := foldl (fun b v => Z.min b (vm_start v)) (vm_start v) rest in
    let end_ := foldl (fun e v => Z.max e (vm_end v)) (vm_end v) rest in
    if begin <? end_ then UnmapVmaRange true allocated memory pg begin (end_ - begin) x
    else Some (false, x)
  end.

End Unmap.

(** ** Trimming *)

Section Trim.
Context (address end_ : Z).
Context (Hrange : address < end_) (Ha : address mod PAGE_SIZE = 0) (He : end_ mod PAGE_SIZE = 0).

(** What the loop leaves of one area. *)
Definition trimmed (clone : Z) (v : VirtualMemoryArea) : list VirtualMemoryArea :=
  if inside address end_ v then []
  else if around address end_ v then [set_end address v; tail_part end_ clone v]
  else if (vm_start v <? address) && (address <? vm_end v) then [set_end address v]
  else if (vm_start v <? end_) && (end_ <? vm_end v) then [tail_part end_ (vfile v) v]
  else [v].

Definition released_of (l : list VirtualMemoryArea) : list Z :=
  vfile <$> List.filter (fun v => inside address end_ v && is_file v) l.

Definition untouched (v : VirtualMemoryArea) : Prop := vm_end v <= address \/ end_ <= vm_start v.

Lemma tail_part_fields file v :
  vm_start (tail_part end_ file v) = end_ /\ vm_end (tail_part end_ file v) = vm_end v.
Proof. unfold tail_part. by case_match. Qed.

Lemma attr_of_tail fs a file v : fs !! 0 = None ->
  (is_file v = true -> fs !! file = fs !! vfile v) ->
  attr_of fs a (tail_part end_ file v) = attr_of fs a v.
Proof.
  intros H0 Hf. unfold tail_part, is_file in *. destruct (bool_decide _ && _) eqn:E.
  - unfold attr_of. cbn. rewrite Hf by done.
    replace ((file_offset v +w end_ -w vm_start v) +w (a -w end_))
      with (file_offset v +w (a -w vm_start v)) by (unfold uadd, usub; clear; lia). done.
  - unfold attr_of. cbn. apply andb_false_iff in E as [E|E].
    + apply bool_decide_eq_false in E. by destruct (vm_type v).
    + unfold truthy in E. apply negb_false_iff, Z.eqb_eq in E. rewrite E, H0.
      by destruct (vm_type v).
Qed.

Lemma trimmed_ok clone v : vma_wf v ->
  vmas_ok (trimmed clone v) /\ Forall (within v) (trimmed clone v).
Proof.
  intros Hv. destruct (tail_part_fields clone v) as [S1 E1], (tail_part_fields (vfile v) v) as [S2 E2].
  unfold trimmed, inside, around. unfold vma_wf in Hv. destruct Hv as (Hv1 & Hv2 & Hv3 & Hv4).
  repeat case_match; (split; [|repeat constructor]); unfold within; rewrite ?S1, ?E1, ?S2, ?E2;
    cbn [vm_start vm_end set_end]; try (clear He Ha Hv3 Hv4; lia); try apply vmas_ok_nil;
    repeat (apply vmas_ok_cons_2 || apply vmas_ok_nil || apply Forall_nil_2 || apply Forall_cons_2);
    unfold vma_wf, before; rewrite ?S1, ?E1, ?S2, ?E2; cbn [vm_start vm_end set_end];
    split_and?; first [assumption | clear He Ha Hv3 Hv4; lia].
Qed.

Lemma attr_trimmed fs clone v a : vma_wf v -> fs !! 0 = None ->
  (around address end_ v = true -> is_file v = true -> fs !! clone = fs !! vfile v) ->
  attr fs (trimmed clone v) a =
    if in_range address end_ a then None else attr fs [v] a.
Proof.
  intros (Hv1 & Hv2 & _) H0 Hc. rewrite attr_singleton. unfold attr, vma_at.
  destruct (tail_part_fields clone v) as [S1 E1], (tail_part_fields (vfile v) v) as [S2 E2].
  unfold trimmed. destruct (inside address end_ v) eqn:Ei.
  { cbn. unfold inside, in_range, covers in *. repeat case_match; try done. clear He Ha. lia. }
  destruct (around address end_ v) eqn:Ew.
  { cbn [List.find]. unfold covers, in_range, around in *. rewrite S1, E1. cbn [set_end vm_start vm_end].
    repeat case_match; cbn; rewrite ?attr_of_tail by auto; try done; clear He Ha; lia. }
  repeat case_match; cbn [List.find] in *; unfold covers, in_range, inside, around in *;
    rewrite ?S2, ?E2 in *; cbn [set_end vm_start vm_end] in *;
    repeat case_match; simplify_eq; cbn; rewrite ?attr_of_tail by auto; try done; clear He Ha; lia.
Qed.

Lemma elem_of_trimmed_list clone l w : vmas_ok l ->
  w ∈ concat (trimmed clone <$> l) -> exists v, v ∈ l /\ within v w.
Proof.
  intros [Hf _] Hw. apply list_elem_of_In, in_concat in Hw as (p & Hp & Hw).
  apply list_elem_of_In, list_elem_of_fmap in Hp as (v & -> & Hv). exists v. split; [done|].
  rewrite Forall_forall in Hf. destruct (trimmed_ok clone v (Hf v Hv)) as [_ Hin].
  rewrite Forall_forall in Hin. apply Hin. by apply list_elem_of_In.
Qed.

Lemma trimmed_list_ok clone l : vmas_ok l -> vmas_ok (concat (trimmed clone <$> l)).
Proof.
  induction l as [|v l IH]; intros Hok; [apply vmas_ok_nil|].
  apply vmas_ok_cons in Hok as (Hv & Hok & Hb). cbn. apply vmas_ok_app.
  destruct (trimmed_ok clone v Hv) as [Ht Hw]. split_and!; [done|by apply IH|].
  intros x y Hx Hy. rewrite Forall_forall in Hw. apply Hw in Hx as [_ Hx].
  apply elem_of_trimmed_list in Hy as (z & Hz & [Hy _]); [|done].
  specialize (Hb z Hz). unfold before in *. lia.
Qed.

Lemma attr_trimmed_list fs clone l a : vmas_ok l -> fs !! 0 = None ->
  Forall (fun v => around address end_ v = true -> is_file v = true -> fs !! clone = fs !! vfile v) l ->
  attr fs (concat (trimmed clone <$> l)) a = if in_range address end_ a then None else attr fs l a.
Proof.
  intros Hok H0 Hc. induction l as [|v l IH]; [by case_match|].
  apply vmas_ok_cons in Hok as (Hv & Hok & _). rewrite Forall_cons in Hc. destruct Hc as [Hcv Hc].
  specialize (IH Hok Hc). pose proof (attr_trimmed fs clone v a Hv H0 Hcv) as Hat.
  rewrite attr_singleton in Hat. unfold attr in *. cbn [fmap list_fmap concat]. rewrite vma_at_app.
  cbn [vma_at List.find]. destruct (vma_at (trimmed clone v) a) as [w|] eqn:Ew; cbn in Hat |- *.
  - destruct (in_range address end_ a); [done|]. by destruct (covers a v).
  - destruct (in_range address end_ a); [done|]. by destruct (covers a v).
Qed.

Lemma around_neighbours l1 v l2 : vmas_ok (l1 ++ v :: l2) -> around address end_ v = true ->
  Forall untouched l1 /\ Forall untouched l2.
Proof.
  clear Hrange Ha He. rewrite vmas_ok_app, vmas_ok_cons. intros (_ & (_ & _ & Hgt) & Hlt) Hv.
  unfold around, untouched, before in *. rewrite !Forall_forall. split; intros w Hw.
  - specialize (Hlt w v Hw ltac:(by left)). lia.
  - specialize (Hgt w Hw). lia.
Qed.

(** ** The trimming loop *)

Context (append_ok : list VirtualMemoryArea -> bool).

Abbreviation loop fuel i l rel sp := (trim_loop append_ok fuel address end_ i l rel sp).

Lemma untouched_cases v : vma_wf v -> untouched v ->
  inside address end_ v = false /\ around address end_ v = false /\
  (vm_start v <? address) && (address <? vm_end v) = false /\
  (vm_start v <? end_) && (end_ <? vm_end v) = false.
Proof. unfold vma_wf, untouched, inside, around. intros (? & _) ?. clear He Ha. lia. Qed.

Lemma trimmed_untouched clone v : vma_wf v -> untouched v -> trimmed clone v = [v].
Proof.
  intros Hv Hu. unfold trimmed. by destruct (untouched_cases v Hv Hu) as (-> & -> & -> & ->).
Qed.

(** Areas away from the range are passed over. *)
Lemma loop_skip fuel pre mid post rel sp : Forall vma_wf mid -> Forall untouched mid ->
  loop (length mid + fuel) (length pre) (pre ++ mid ++ post) rel sp =
  loop fuel (length (pre ++ mid)) (pre ++ mid ++ post) rel sp.
Proof.
  revert pre. induction mid as [|v mid IH]; intros pre Hw Hu.
  { cbn. by rewrite app_nil_r. }
  rewrite Forall_cons in Hw, Hu. destruct Hw as [Hv Hw], Hu as [Huv Hu].
  cbn [length Nat.add trim_loop]. cbn [app]. rewrite lookup_first.
  destruct (untouched_cases v Hv Huv) as (-> & -> & -> & ->).
  replace (length pre + 1)%nat with (length (pre ++ [v])) by (rewrite length_app; done).
  replace (pre ++ v :: mid ++ post) with ((pre ++ [v]) ++ mid ++ post) by (by rewrite <- app_assoc).
  rewrite IH by done. by rewrite <- app_assoc.
Qed.

Lemma loop_end fuel l rel sp : loop fuel (length l) l rel sp = Some (true, l, rel, sp).
Proof. destruct fuel; cbn [trim_loop]; by rewrite lookup_ge_None_2 by lia. Qed.

Lemma released_of_app l1 l2 : released_of (l1 ++ l2) = released_of l1 ++ released_of l2.
Proof. unfold released_of. by rewrite List.filter_app, fmap_app. Qed.

Lemma released_untouched l : Forall vma_wf l -> Forall untouched l -> released_of l = [].
Proof.
  intros Hw Hu. induction l as [|v l IH]; [done|]. rewrite Forall_cons in Hw, Hu.
  destruct Hw as [Hv Hw], Hu as [Huv Hu].
  unfold released_of in *. cbn. destruct (untouched_cases v Hv Huv) as (-> & _). cbn. by apply IH.
Qed.

Lemma trimmed_list_untouched clone l : Forall vma_wf l -> Forall untouched l ->
  concat (trimmed clone <$> l) = l.
Proof.
  intros Hw Hu. induction l as [|v l IH]; [done|]. rewrite Forall_cons in Hw, Hu.
  destruct Hw as [Hv Hw], Hu as [Huv Hu]. cbn. rewrite trimmed_untouched, IH by done. done.
Qed.

(** With no area around the range the loop cannot fail. *)
Lemma loop_plain fuel pre post rel sp : (length post <= fuel)%nat ->
  Forall (fun v => around address end_ v = false) post ->
  loop fuel (length pre) (pre ++ post) rel sp =
    Some (true, pre ++ concat (trimmed sp <$> post), rel ++ released_of post, sp).
Proof.
  revert fuel pre rel. induction post as [|v post IH]; intros fuel pre rel Hf Hp.
  { rewrite !app_nil_r. apply loop_end. }
  rewrite Forall_cons in Hp. destruct Hp as [Hv Hp]. destruct fuel as [|fuel]; cbn in Hf; [lia|].
  cbn [trim_loop]. rewrite lookup_first.
  assert (forall x, loop fuel (length pre + 1) (pre ++ x :: post) rel sp =
    Some (true, pre ++ x :: concat (trimmed sp <$> post), rel ++ released_of post, sp)) as Hstep.
  { intros x. pose proof (IH fuel (pre ++ [x]) rel ltac:(lia) Hp) as IH'.
    rewrite length_app, <- !app_assoc in IH'. exact IH'. }
  destruct (inside address end_ v) eqn:Ei.
  - unfold remove_at. rewrite delete_middle, IH by (done || lia). f_equal.
    cbn [fmap list_fmap concat]. unfold trimmed at 2. rewrite Ei. cbn [app].
    unfold released_of at 2. cbn [List.filter]. rewrite Ei. cbn [andb].
    destruct (is_file v); cbn [fmap list_fmap]; [|done]. by rewrite <- app_assoc.
  - assert (released_of (v :: post) = released_of post) as ->
      by (unfold released_of; cbn [List.filter]; by rewrite Ei).
    cbn [fmap list_fmap concat]. unfold trimmed at 1. rewrite Hv, Ei. rewrite !alter_mid.
    destruct ((vm_start v <? address) && (address <? vm_end v)); [apply Hstep|].
    destruct ((vm_start v <? end_) && (end_ <? vm_end v)); apply Hstep.
Qed.

(** An area around the range: the only one that can meet it, and it is split. *)
Lemma loop_around l1 v l2 sp : vmas_ok (l1 ++ v :: l2) -> around address end_ v = true ->
  exists ok : bool, loop (length (l1 ++ v :: l2)) 0 (l1 ++ v :: l2) [] sp =
    Some (ok, if ok then concat (trimmed sp <$> (l1 ++ v :: l2)) else l1 ++ v :: l2,
          if ok then released_of (l1 ++ v :: l2) else [],
          if ok && truthy (vfile (tail_part end_ sp v)) then 0 else sp).
Proof.
  intros Hok Hw. destruct (around_neighbours _ _ _ Hok Hw) as [Hu1 Hu2].
  pose proof (vmas_ok_mid _ _ _ Hok) as Hwf.
  pose proof (proj1 (vmas_ok_app _ _) Hok) as ([Hf1 _] & Hok2 & _).
  apply vmas_ok_cons in Hok2 as (_ & [Hf2 _] & _).
  assert (inside address end_ v = false) as Hi by (unfold inside, around in *; clear Ha He; lia).
  assert (trimmed sp v = [set_end address v; tail_part end_ sp v]) as Htr
    by (unfold trimmed; by rewrite Hi, Hw).
  destruct (trimmed_ok sp v Hwf) as [Hto Htw].
  pose proof (vmas_ok_subst _ _ _ _ Hok Hto Htw) as Hnew. rewrite Htr in Hnew. cbn [app] in Hnew.
  rewrite fmap_app, concat_app. cbn [fmap list_fmap concat].
  rewrite Htr, !(trimmed_list_untouched sp), released_of_app, (released_untouched l1) by done.
  replace (released_of (v :: l2)) with ([] : list Z).
  2:{ symmetry. unfold released_of. cbn [List.filter]. rewrite Hi. cbn [andb].
      by apply (released_untouched l2). }
  rewrite length_app. cbn [length].
  pose proof (loop_skip (S (length l2)) [] l1 (v :: l2) [] sp Hf1 Hu1) as Hs.
  cbn [app length] in Hs. rewrite Hs. clear Hs.
  cbn [trim_loop]. rewrite lookup_first, Hi, Hw, alter_mid.
  replace (l1 ++ set_end address v :: l2) with ((l1 ++ [set_end address v]) ++ l2) by (by rewrite <- app_assoc).
  rewrite InsertVmaSorted_at by (by rewrite <- app_assoc). rewrite <- !app_assoc. cbn [app].
  destruct (append_ok _).
  - exists true. set (sp' := if truthy _ then 0 else sp). cbn [andb].
    replace (length l1 + 2)%nat with (length (l1 ++ [set_end address v; tail_part end_ sp v]))
      by (by rewrite length_app).
    pose proof (loop_skip 0 (l1 ++ [set_end address v; tail_part end_ sp v]) l2 [] [] sp' Hf2 Hu2) as Hs.
    rewrite app_nil_r, Nat.add_0_r, <- !app_assoc in Hs. cbn [app] in Hs. rewrite Hs.
    apply loop_end.
  - exists false. by rewrite alter_mid, set_end_back.
Qed.

(** The whole loop: it trims every area, or fails and leaves the vector as it was; it terminates
    within as many rounds as there are areas; a split consumes the clone. *)
Lemma trim_loop_spec l sp : vmas_ok l ->
  exists (ok : bool) (sp' : Z), loop (length l) 0 l [] sp =
      Some (ok, if ok then concat (trimmed sp <$> l) else l, if ok then released_of l else [], sp') /\
    (ok = false -> sp' = sp) /\
    (sp = 0 -> sp' = 0) /\
    (ok = true -> forall v, v ∈ l -> around address end_ v = true -> is_file v = true ->
       sp <> 0 -> sp' = 0).
Proof.
  intros Hok. destruct (decide (Exists (fun v => around address end_ v = true) l)) as [Hex|Hno].
  - apply Exists_exists in Hex as (v & Hv & Hw). apply list_elem_of_split in Hv as (l1 & l2 & ->).
    destruct (loop_around l1 v l2 sp Hok Hw) as [ok Hl]. eexists ok, _. split; [exact Hl|].
    destruct (around_neighbours _ _ _ Hok Hw) as [Hu1 Hu2]. rewrite Forall_forall in Hu1, Hu2.
    split_and!; [by intros ->| |].
    + intros ->. by destruct (_ && _).
    + intros -> u Hu Hau Hfu Hsp. rewrite elem_of_app, elem_of_cons in Hu.
      assert (is_file v = true) as Hfv.
      { destruct Hu as [Hu|[->|Hu]]; [apply Hu1 in Hu|done|apply Hu2 in Hu];
          unfold untouched, around in *; clear Ha He; lia. }
      unfold tail_part. rewrite Hfv. cbn. unfold truthy. by rewrite (proj2 (Z.eqb_neq _ _)).
  - assert (Forall (fun v => around address end_ v = false) l) as Hp.
    { apply Forall_forall. intros v Hv. apply not_true_iff_false. intros Ht. apply Hno.
      apply Exists_exists. eauto. }
    exists true, sp. split_and!; [|done|done|].
    + by apply (loop_plain (length l) [] l [] sp).
    + intros _ v Hv Hav. rewrite Forall_forall in Hp. by rewrite Hp in Hav.
Qed.

End Trim.

(** ** The plan *)

Lemma unmap_count_spec address end_ l pc fc dc sr pc' fc' dc' sr' :
  address < end_ -> Forall vma_wf l ->
  unmap_count address end_ l pc fc dc sr = Some (pc', fc', dc', sr') ->
  fc' = fc + Z.of_nat (length (released_of address end_ l)) /\
  sr' = sr || existsb (fun v => around address end_ v && is_file v) l.
Proof.
  intros Hr. revert pc fc dc sr. induction l as [|v l IH]; intros pc fc dc sr Hf; cbn [unmap_count].
  { intros [= <- <- <- <-]. cbn. rewrite orb_false_r. split; [lia|done]. }
  rewrite Forall_cons in Hf. destruct Hf as [(Hv & _) Hf].
  unfold released_of. cbn [List.filter existsb].
  destruct (overlaps address end_ v) eqn:Eo; cbn [negb].
  - destruct (_ <? _); [done|]. intros (-> & ->)%IH; [|done]. split.
    + destruct (inside address end_ v && is_file v); cbn [fmap list_fmap length]; unfold released_of; lia.
    + by rewrite orb_assoc.
  - assert (inside address end_ v = false /\ around address end_ v = false) as [-> ->]
      by (unfold overlaps, overlap_begin, overlap_end, inside, around in *; lia).
    intros (-> & ->)%IH; [|done]. done.
Qed.

(** The pages and device ranges of a list of areas. *)
Definition range_pages (address end_ : Z) (v : VirtualMemoryArea) : list (Z * bool) :=
  if overlaps address end_ v
  then (fun page => (page, negb (is_device v))) <$>
         pages_between (overlap_begin address v) (overlap_end end_ v)
  else [].

Definition device_range (address end_ : Z) (v : VirtualMemoryArea) : list (Z * Z) :=
  if overlaps address end_ v && is_device v
  then [(overlap_begin address v, overlap_end end_ v - overlap_begin address v)] else [].

Definition plan_key (item : VmaPageReleasePlan) : Z * bool :=
  (p_address item, p_release_physical item).

Section PlanSpec.
Context `{PagingConstants} {W : Type} `{!SharedFiles W} (w : W) (address end_ : Z).
Context (Hrange : address < end_).

Lemma unmap_plan_items sr memory l fs sp items devices ok fs' sp' items' devices' :
  unmap_plan w address end_ sr memory l fs sp items devices = (ok, fs', sp', items', devices') ->
  ok = true ->
  plan_key <$> items' = (plan_key <$> items) ++ concat (range_pages address end_ <$> l) /\
  devices' = devices ++ concat (device_range address end_ <$> l).
Proof.
  intros HP ->. revert fs sp items devices HP.
  induction l as [|v l IH]; intros fs sp items devices; cbn [unmap_plan].
  { intros [= <- <- <- <-]. by rewrite !app_nil_r. }
  unfold range_pages at 1, device_range at 1. cbn [fmap list_fmap concat].
  destruct (overlaps address end_ v) eqn:Eo; cbn [negb andb]; [|by intros HP%IH].
  assert (forall fs,
    plan_key <$> (items ++ (plan_page w fs v <$> pages_between (overlap_begin address v) (overlap_end end_ v)))
    = (plan_key <$> items) ++ range_pages address end_ v) as Hk.
  { intros fs0. unfold range_pages. rewrite Eo, fmap_app, <- list_fmap_compose. done. }
  unfold range_pages at 1 in Hk. rewrite Eo in Hk.
  assert (forall fs1 sp1, unmap_plan w address end_ sr memory l fs1 sp1
      (items ++ (plan_page w fs v <$> pages_between (overlap_begin address v) (overlap_end end_ v)))
      (if is_device v then devices ++ [(overlap_begin address v, overlap_end end_ v - overlap_begin address v)]
       else devices) = (true, fs', sp', items', devices') ->
    plan_key <$> items' = (plan_key <$> items) ++
      ((fun page => (page, negb (is_device v))) <$>
         pages_between (overlap_begin address v) (overlap_end end_ v)) ++
      concat (range_pages address end_ <$> l) /\
    devices' = devices ++ (if is_device v
      then [(overlap_begin address v, overlap_end end_ v - overlap_begin address v)] else []) ++
      concat (device_range address end_ <$> l)) as Hgo.
  { intros fs1 sp1 [E1 E2]%IH. rewrite E1, E2, Hk, <- app_assoc. split; [done|].
    destruct (is_device v); [by rewrite <- app_assoc|done]. }
  destruct (_ && is_file v); [|apply Hgo].
  destruct (CloneVmaFile (vfile v) memory fs) as [clone fs1]. destruct (clone =? 0); [done|apply Hgo].
Qed.

(** The clone: made for the one file area around the range, if there is one. *)
Lemma unmap_plan_clone sr memory l fs sp items devices ok fs' sp' items' devices' :
  unmap_plan w address end_ sr memory l fs sp items devices = (ok, fs', sp', items', devices') ->
  (ok = true /\ sp <> 0 /\ sp' = sp /\ fs' = fs) \/
  (ok = true /\ sp = 0 /\ sp' = 0 /\ fs' = fs /\
     (sr = true -> existsb (fun v => around address end_ v && is_file v) l = false)) \/
  (sp = 0 /\ ok = truthy sp' /\ exists v, v ∈ l /\ around address end_ v = true /\ is_file v = true /\
     CloneVmaFile (vfile v) memory fs = (sp', fs')).
Proof.
  revert fs sp items devices. induction l as [|v l IH]; intros fs sp items devices; cbn [unmap_plan].
  { intros [= <- <- <- <- <-]. destruct (decide (sp = 0)); [right; left|left]; done. }
  intros HP. destruct (overlaps address end_ v) eqn:Eo; cbn [negb] in HP.
  - destruct (sr && (sp =? 0) && around address end_ v && is_file v) eqn:Eg.
    + apply andb_true_iff in Eg as [[[_ Es]%andb_true_iff Ew]%andb_true_iff Ef].
      destruct (CloneVmaFile (vfile v) memory fs) as [clone fs1] eqn:Ec.
      right; right. destruct (clone =? 0) eqn:E0.
      * injection HP as <- <- <- <- <-. apply Z.eqb_eq in E0 as ->.
        split_and!; [lia|done|]. exists v. split_and!; [by left|done..].
      * apply IH in HP as [(-> & ? & -> & ->)|[(-> & ? & _)|(? & _)]]; [|lia|lia].
        split_and!; [lia| |].
        { unfold truthy. by rewrite E0. } exists v. split_and!; [by left|done..].
    + apply IH in HP as [?|[(-> & -> & -> & -> & Hx)|(? & ? & u & Hu & ?)]]; [by left| |].
      * right; left. split_and!; try done. intros ->. cbn [existsb]. rewrite Hx by done.
        cbn in Eg. by rewrite Eg.
      * right; right. split_and!; try done. exists u. split; [by right|done].
  - apply IH in HP as [?|[(-> & -> & -> & -> & Hx)|(? & ? & u & Hu & ?)]]; [by left| |].
    + right; left. split_and!; try done. intros Hsr. cbn [existsb]. rewrite Hx by done.
      replace (around address end_ v) with false; [done|].
      unfold overlaps, overlap_begin, overlap_end, around in *. lia.
    + right; right. split_and!; try done. exists u. split; [by right|done].
Qed.

End PlanSpec.

(** ** The page table *)

Section TableSpec.
Context `{PagingConstants} `{!PageShiftLaws} {PT : Type} `{!PageTable PT} `{!PageUnmapLaws PT}
  {M : Type} `{!Mempool M}.

(** The page is one of those the plan releases. *)
Definition planned (keys : list (Z * bool)) (page : Z) : bool :=
  existsb (fun k => (k.1 =? page) && k.2) keys.

(** A page table that has lost the pages [gone], and no other. *)
Definition cleared (gone : Z -> bool) (pt pt' : PT) : Prop :=
  forall page, page mod PAGE_SIZE = 0 ->
    pt_at pt' page = if gone page then UMAX else pt_at pt page.

Lemma unmap_items_keys pt items ok pt' items' :
  unmap_items pt items = (ok, pt', items') -> plan_key <$> items' = plan_key <$> items.
Proof.
  revert pt ok pt' items'. induction items as [|item items IH]; intros pt ok pt' items'; cbn [unmap_items].
  { by intros [= <- <- <-]. }
  destruct (negb (p_release_physical item) || (p_physical item =? UMAX)) eqn:Eg.
  - destruct (unmap_items pt items) as [[ok1 pt1] rest1] eqn:E. intros [= <- <- <-].
    cbn. by rewrite (IH _ _ _ _ E).
  - apply orb_false_iff in Eg as [Eg _]. rewrite negb_false_iff in Eg.
    destruct (pt_leaf pt _) as [[lv pr]|]; [|by intros [= <- <- <-]].
    destruct (pt_unmap pt _ _) as [[] pt1].
    + destruct (unmap_items pt1 items) as [[ok1 pt2] rest1] eqn:E. intros [= <- <- <-].
      cbn. rewrite (IH _ _ _ _ E). unfold plan_key. by rewrite Eg.
    + intros [= <- <- <-]. cbn. unfold plan_key. by rewrite Eg.
Qed.

(** Unmapping the plan: [base] is the table the physical addresses were read from. *)
Lemma unmap_items_clears base pt items pt' items' :
  Forall (fun i => p_address i mod PAGE_SIZE = 0 /\
    (p_release_physical i = true -> p_physical i = pt_at base (p_address i))) items ->
  (forall page, page mod PAGE_SIZE = 0 -> pt_at base page = UMAX -> pt_at pt page = UMAX) ->
  unmap_items pt items = (true, pt', items') ->
  cleared (planned (plan_key <$> items)) pt pt'.
Proof.
  revert pt pt' items'. induction items as [|item items IH]; intros pt pt' items' Hf Hb; cbn [unmap_items].
  { by intros [= <- <-] page _. }
  rewrite Forall_cons in Hf. destruct Hf as [[Hal Hph] Hf].
  destruct (negb (p_release_physical item) || (p_physical item =? UMAX)) eqn:Eg.
  - destruct (unmap_items pt items) as [[ok1 pt1] rest1] eqn:E. intros [= -> <- <-].
    specialize (IH _ _ _ Hf Hb E). intros page Hpg. cbn. rewrite (IH page Hpg). unfold planned.
    cbn [fmap existsb]. destruct (existsb _ _); [by rewrite orb_true_r|]. rewrite orb_false_r.
    destruct ((p_address item =? page) && p_release_physical item) eqn:Ep; [|done].
    apply andb_true_iff in Ep as [Ep Er]. apply Z.eqb_eq in Ep as <-.
    apply Hb; [done|]. rewrite <- Hph by done. rewrite Er in Eg. cbn in Eg. lia.
  - apply orb_false_iff in Eg as [Er _]. rewrite negb_false_iff in Er.
    destruct (pt_leaf pt _) as [[lv pr]|]; [|done].
    destruct (pt_unmap pt _ _) as [[] pt1] eqn:Eu; [|done].
    destruct (unmap_items pt1 items) as [[ok1 pt2] rest1] eqn:E. intros [= -> <- <-].
    assert (forall page, page mod PAGE_SIZE = 0 ->
      pt_at pt1 page = if p_address item =? page then UMAX else pt_at pt page) as H1.
    { intros page Hpg. rewrite (pt_at_unmap _ _ PAGE_SIZE _ page Hal eq_refl eq_refl Hpg Eu).
      unfold PAGE_SIZE in *.
      destruct (p_address item =? page) eqn:Ep, ((p_address item <=? page) && _) eqn:Eq; done || lia. }
    assert (cleared (planned (plan_key <$> items)) pt1 pt2) as Hc.
    { apply (IH _ _ _ Hf) in E; [done|]. intros page Hpg Hbp. rewrite H1 by done.
      destruct (_ =? _); [done|by apply Hb]. }
    intros page Hpg. rewrite (Hc page Hpg), H1 by done. unfold planned.
    rewrite fmap_cons. cbn [existsb]. replace ((plan_key item).2) with true by (symmetry; exact Er). rewrite andb_true_r.
    change ((plan_key item).1) with (p_address item). by destruct (existsb _ _), (_ =? _).
Qed.

(** Device ranges go through the registry: no assertion fails, and the table loses the ranges. *)
Lemma unmap_devices_spec pg devices pt (g : Registry M) :
  registry_ok (records g) ->
  Forall (fun d => is_u64 d.1 /\ 0 < d.2 /\ d.1 + d.2 < two64 /\
                   d.1 mod PAGE_SIZE = 0 /\ d.2 mod PAGE_SIZE = 0) devices ->
  exists ok g' pt', unmap_devices pg devices pt g = Some (ok, g', pt') /\ registry_ok (records g') /\
    (ok = true -> cleared (fun page => existsb (fun d => (d.1 <=? page) && (page <? d.1 + d.2)) devices) pt pt').
Proof.
  intros Hg Hf. revert pt g Hg. induction devices as [|[b len] devices IH]; intros pt g Hg; cbn [unmap_devices].
  { do 3 eexists. split; [done|]. split; [done|]. by intros _ page _. }
  rewrite Forall_cons in Hf. destruct Hf as [(Hb & Hl & Hend & Hba & Hla) Hf]. cbn [fst snd] in *.
  assert (is_u64 len) as Hlen by (unfold is_u64 in *; lia).
  destruct (UnmapPages_core pg pt b len g Hg Hb Hlen ltac:(lia))
    as (ok & g1 & pt1 & E & Hg1 & Hspec). rewrite E. destruct ok.
  2:{ do 3 eexists. split; [done|]. split; [done|]. done. }
  apply UnmapPages_table in E as (removed & Hn & Hu); [|lia].
  destruct (NormalizeUnmapRequest_ok _ _ _ Hb Hlen Hn) as (_ & Eb & Ee & Ea).
  assert (rbegin removed = b /\ rend removed = b + len) as [Eb' Ee'] by (unfold PAGE_SIZE in *; lia).
  rewrite Eb', Ee' in Hu. rewrite usub_small in Hu by (unfold is_u64 in *; lia).
  replace (b + len - b) with len in Hu by lia.
  destruct (IH Hf pt1 g1 Hg1) as (ok & g2 & pt2 & E2 & Hg2 & Hc). rewrite E2.
  do 3 eexists. split; [done|]. split; [done|]. intros Hok page Hpg.
  rewrite (Hc Hok page Hpg). cbn [existsb fst snd].
  rewrite (pt_at_unmap _ _ _ _ page Hba Hla Hl Hpg Hu). by destruct (_ && _), (existsb _ _).
Qed.

End TableSpec.

(** ** The operation *)

(** Every file area has a handle of its own. *)
Definition handles_unique (l : list VirtualMemoryArea) : Prop :=
  forall v w, v ∈ l -> w ∈ l -> vfile v <> 0 -> vfile v = vfile w -> v = w.

Section UnmapSpec.
Context `{PagingConstants} `{!PageShiftLaws} {PT : Type} `{!PageTable PT} `{!PageUnmapLaws PT}
  {M : Type} `{!Mempool M} {W : Type} `{!SharedFiles W}
  (append_ok : list VirtualMemoryArea -> bool).

(** The clone is there exactly for the file area around the range. *)
Definition clone_ready (fs : gmap Z vfs_file) (address end_ sp : Z) (l : list VirtualMemoryArea) : Prop :=
  Forall (fun v => around address end_ v = true -> is_file v = true -> fs !! sp = fs !! vfile v) l /\
  (sp = 0 \/ exists v, v ∈ l /\ around address end_ v = true /\ is_file v = true).

Lemma range_pages_aligned address end_ l k :
  address mod PAGE_SIZE = 0 -> Forall vma_wf l ->
  k ∈ concat (range_pages address end_ <$> l) -> k.1 mod PAGE_SIZE = 0.
Proof.
  intros Ha Hf Hk. apply list_elem_of_In, in_concat in Hk as (p & Hp & Hk).
  apply list_elem_of_In, list_elem_of_fmap in Hp as (v & -> & Hv).
  rewrite Forall_forall in Hf. specialize (Hf v Hv). destruct Hf as (_ & _ & Hs & _).
  unfold range_pages in Hk. destruct (overlaps address end_ v) eqn:Eo; [|done].
  apply list_elem_of_In, list_elem_of_fmap in Hk as (page & -> & Hpg).
  apply elem_of_pages_between in Hpg; [tauto| |].
  - unfold overlap_begin. by destruct (Z.max_spec address (vm_start v)) as [[_ ->]|[_ ->]].
  - unfold overlaps in Eo. lia.
Qed.

Lemma unmap_commit_spec address end_ fc sp items (x : World PT M W) :
  let s := space x in
  address < end_ -> address mod PAGE_SIZE = 0 -> end_ mod PAGE_SIZE = 0 -> vmas_ok (vmas s) ->
  fc = Z.of_nat (length (released_of address end_ (vmas s))) ->
  plan_key <$> items = concat (range_pages address end_ <$> vmas s) ->
  clone_ready (files s) address end_ sp (vmas s) ->
  exists ok x', unmap_commit append_ok address end_ fc sp items x = Some (ok, x') /\
    mappings x' = mappings x /\
    if (ok : bool) then
      vmas (space x') = MergeAdjacentAnonymousVmas (concat (trimmed address end_ sp <$> vmas s)) /\
      files (space x') =
        foldl (fun fs file => drop_file file fs) (files s) (released_of address end_ (vmas s)) /\
      cleared (planned (concat (range_pages address end_ <$> vmas s))) (ptable s) (ptable (space x'))
    else vmas (space x') = vmas s /\ files (space x') = drop_file sp (files s).
Proof.
  intros s Hr Ha He Hok -> Hkeys [Hclone Hsp]. unfold unmap_commit. fold s.
  set (caught := capture (ptable s) <$> items).
  assert (plan_key <$> caught = plan_key <$> items) as Hck.
  { unfold caught. rewrite <- list_fmap_compose. apply list_fmap_ext. intros _ item _. cbn.
    unfold capture, plan_key. by destruct (p_release_physical item) eqn:E; cbn; rewrite ?E. }
  assert (Forall (fun i => p_address i mod PAGE_SIZE = 0 /\
    (p_release_physical i = true -> p_physical i = pt_at (ptable s) (p_address i))) caught) as Hcaught.
  { apply Forall_forall. intros i Hi. split.
    - change (p_address i) with ((plan_key i).1). destruct Hok as [Hf _].
      apply (range_pages_aligned address end_ (vmas s)); [done..|]. rewrite <- Hkeys, <- Hck.
      by apply list_elem_of_fmap_2.
    - unfold caught in Hi. apply list_elem_of_fmap in Hi as (j & -> & _). unfold capture.
      destruct (p_release_physical j) eqn:E; cbn; [done|congruence]. }
  destruct (unmap_items (ptable s) caught) as [[ok pt] items'] eqn:Eu. destruct ok; cbn [mbind option_bind].
  2:{ do 2 eexists. split; [done|]. done. }
  destruct (trim_loop_spec address end_ Hr Ha He append_ok (vmas s) sp Hok)
    as (ok & sp' & -> & Hfail & Hnone & Hused).
  cbn [mbind option_bind]. destruct ok; cbn [negb].
  - rewrite Z.eqb_refl. cbn [negb]. do 2 eexists. split; [done|]. cbn. split; [done|].
    assert (sp' = 0) as ->.
    { destruct Hsp as [->|(v & Hv & Hw & Hf)]; [by apply Hnone|].
      destruct (decide (sp = 0)); [by apply Hnone|by eapply Hused]. }
    split_and!; [done|done|]. rewrite <- Hkeys, <- Hck.
    eapply unmap_items_clears; [exact Hcaught|done|exact Eu].
  - do 2 eexists. split; [done|]. cbn. by rewrite Hfail.
Qed.

Lemma foldl_drop_lookup (released : list Z) (fs : gmap Z vfs_file) y :
  y ∉ released -> foldl (fun fs file => drop_file file fs) fs released !! y = fs !! y.
Proof.
  revert fs. induction released as [|r released IH]; intros fs Hy; [done|]. cbn.
  rewrite not_elem_of_cons in Hy. destruct Hy as [Hne Hy]. rewrite IH by done.
  unfold drop_file. case_match; [done|]. by rewrite lookup_delete_ne.
Qed.

Lemma elem_of_released address end_ l y : y ∈ released_of address end_ l ->
  exists v, v ∈ l /\ y = vfile v /\ inside address end_ v = true /\ vfile v <> 0.
Proof.
  unfold released_of. intros (v & -> & Hv)%list_elem_of_fmap.
  apply list_elem_of_In, filter_In in Hv as [Hv%list_elem_of_In [Hi Hf]%andb_true_iff].
  exists v. unfold is_file, truthy in Hf. split_and!; [done..|lia].
Qed.

(** No area that is left uses a file that is released. *)
Lemma survivors_keep_files address end_ sp l w : address < end_ -> vmas_ok l -> handles_unique l ->
  w ∈ concat (trimmed address end_ sp <$> l) -> vfile w ∉ released_of address end_ l.
Proof.
  intros Hr Hok Hu Hw Hrel. apply elem_of_released in Hrel as (u & Hul & Eu & Hin & Hne).
  apply list_elem_of_In, in_concat in Hw as (p & Hp & Hw).
  apply list_elem_of_In, list_elem_of_fmap in Hp as (v & -> & Hv). apply list_elem_of_In in Hw.
  assert (around address end_ v = false) as Hnw.
  { apply not_true_iff_false. intros Haw. apply list_elem_of_split in Hv as (l1 & l2 & ->).
    destruct (around_neighbours _ _ _ _ _ Hok Haw) as [Hu1 Hu2].
    rewrite Forall_forall in Hu1, Hu2. destruct Hok as [Hf _]. rewrite Forall_forall in Hf.
    specialize (Hf u Hul) as (? & _). rewrite elem_of_app, elem_of_cons in Hul.
    destruct Hul as [Hul|[->|Hul]]; [apply Hu1 in Hul| |apply Hu2 in Hul];
      unfold untouched, inside, around in *; lia. }
  unfold trimmed in Hw. rewrite Hnw in Hw. destruct (inside address end_ v) eqn:Hi.
  { by apply elem_of_nil in Hw. }
  assert (vfile w = vfile v) as Ew.
  { repeat case_match; apply list_elem_of_singleton in Hw as ->; try done.
    unfold tail_part. by case_match. }
  assert (u = v) as -> by (apply Hu; congruence). congruence.
Qed.

(** The attributes after a successful unmap. *)
Lemma unmapped_attr address end_ sp l fs : address < end_ ->
  address mod PAGE_SIZE = 0 -> end_ mod PAGE_SIZE = 0 -> vmas_ok l -> handles_unique l ->
  fs !! 0 = None -> clone_ready fs address end_ sp l ->
  let l' := MergeAdjacentAnonymousVmas (concat (trimmed address end_ sp <$> l)) in
  let fs' := foldl (fun fs file => drop_file file fs) fs (released_of address end_ l) in
  vmas_ok l' /\ forall a, attr fs' l' a = if in_range address end_ a then None else attr fs l a.
Proof.
  intros Hr Ha He Hok Hu Hn [Hclone _] l' fs'.
  pose proof (trimmed_list_ok address end_ Hr Ha He sp l Hok) as Ht.
  destruct (Merge_spec fs' _ Ht) as [Hm Hattr]. split; [done|]. intros a.
  unfold l'. rewrite Hattr, (attr_ext fs).
  - by apply attr_trimmed_list.
  - apply Forall_forall. intros w Hw. apply foldl_drop_lookup. by eapply survivors_keep_files.
Qed.

(** The pages the plan and the device ranges name are those of the areas in the range. *)
Lemma gone_pages address end_ l page : address mod PAGE_SIZE = 0 -> Forall vma_wf l ->
  page mod PAGE_SIZE = 0 ->
  planned (concat (range_pages address end_ <$> l)) page ||
  existsb (fun d => (d.1 <=? page) && (page <? d.1 + d.2)) (concat (device_range address end_ <$> l))
  = in_range address end_ page && existsb (covers page) l.
Proof.
  intros Ha Hf Hp. induction l as [|v l IH]; [cbn; by rewrite andb_false_r|].
  rewrite Forall_cons in Hf. destruct Hf as [(Hv & _ & Hs & _) Hf]. specialize (IH Hf).
  cbn [fmap list_fmap concat existsb]. unfold planned in *. rewrite !existsb_app.
  assert (existsb (fun k => (k.1 =? page) && k.2) (range_pages address end_ v) ||
    existsb (fun d => (d.1 <=? page) && (page <? d.1 + d.2)) (device_range address end_ v)
    = in_range address end_ page && covers page v) as Hone.
  { unfold range_pages, device_range, in_range, covers, overlaps.
    destruct (overlap_begin address v <? overlap_end end_ v) eqn:Eo.
    2:{ cbn. unfold overlap_begin, overlap_end in Eo. lia. }
    assert (overlap_begin address v mod PAGE_SIZE = 0) as Hb.
    { unfold overlap_begin. by destruct (Z.max_spec address (vm_start v)) as [[_ ->]|[_ ->]]. }
    assert (existsb (fun k : Z * bool => (k.1 =? page) && k.2)
      ((fun page0 => (page0, negb (is_device v))) <$>
        pages_between (overlap_begin address v) (overlap_end end_ v)) =
      negb (is_device v) && ((overlap_begin address v <=? page) && (page <? overlap_end end_ v))) as ->.
    { apply eq_true_iff_eq. rewrite existsb_exists. split.
      - intros (k & Hk & [Ek Ed]%andb_true_iff). apply list_elem_of_In, list_elem_of_fmap in Hk as (q & -> & Hq).
        cbn in Ek, Ed. apply Z.eqb_eq in Ek as ->. rewrite Ed.
        apply elem_of_pages_between in Hq; [|done|lia]. cbn. lia.
      - intros [Ed Hq]%andb_true_iff. exists (page, true). split; [|cbn; by rewrite Z.eqb_refl].
        apply list_elem_of_In, list_elem_of_fmap. exists page. rewrite Ed. split; [done|].
        apply elem_of_pages_between; [done|lia|]. lia. }
    clear - Hv Eo. unfold overlap_begin, overlap_end in *.
    destruct (is_device v); cbn [negb andb orb existsb fst snd]; lia. }
  destruct (in_range address end_ page), (covers page v), (existsb (covers page) l),
    (existsb _ (range_pages _ _ v)), (existsb _ (device_range _ _ v)),
    (existsb _ (concat (range_pages _ _ <$> l))), (existsb _ (concat (device_range _ _ <$> l)));
    cbn in *; congruence.
Qed.

Definition world_ok (x : World PT M W) : Prop :=
  vmas_ok (vmas (space x)) /\ files_ok (files (space x)) (vmas (space x)) /\
  handles_unique (vmas (space x)) /\ registry_ok (mappings x).

(** The plan's clone, checked against the areas. *)
Lemma plan_clone_ready w address end_ memory l fs ok fs' sp items devices :
  address < end_ -> vmas_ok l -> files_ok fs l -> fresh_memory fs memory ->
  unmap_plan w address end_ (existsb (fun v => around address end_ v && is_file v) l) memory l fs 0 [] []
    = (ok, fs', sp, items, devices) ->
  drop_file sp fs' = fs /\ (ok = true -> fs' !! 0 = None /\ clone_ready fs' address end_ sp l /\
    (forall y, is_Some (fs !! y) \/ y = 0 -> fs' !! y = fs !! y)).
Proof.
  intros Hr Hok [Hn Hlive] Hm HP. apply unmap_plan_clone in HP; [|done].
  destruct HP as [(_ & ? & _)|[(-> & _ & -> & -> & Hx)|(_ & Eok & v & Hv & Hw & Hf & HC)]]; [lia| |].
  - split; [done|]. intros _. split_and!; [done| |done]. split; [|by left].
    apply Forall_forall. intros v Hv Hw Hf. exfalso.
    assert (existsb (fun v => around address end_ v && is_file v) l = true) as Ht.
    { apply existsb_exists. exists v. rewrite Hw, Hf. split; [by apply list_elem_of_In|done]. }
    rewrite Hx in Ht; done.
  - destruct (CloneVmaFile_spec _ _ _ _ _ Hn Hm HC) as (Hn' & Hd & Hk & He & _).
    split; [done|]. intros ->. symmetry in Eok. split_and!; [done| |].
    + split; [|right; eauto]. apply Forall_forall. intros u Hu Hwu Hfu.
      assert (u = v) as ->.
      { apply list_elem_of_split in Hv as (l1 & l2 & ->).
        destruct (around_neighbours _ _ _ _ _ Hok Hw) as [Hu1 Hu2].
        rewrite Forall_forall in Hu1, Hu2. rewrite elem_of_app, elem_of_cons in Hu.
        destruct Hu as [Hu|[->|Hu]]; [apply Hu1 in Hu|done|apply Hu2 in Hu];
          unfold untouched, around in *; lia. }
      assert (vfile v <> 0) as Hne by (unfold is_file, truthy in Hf; lia).
      rewrite Forall_forall in Hlive. specialize (Hlive v Hv Hne).
      rewrite He, Hk; [done|done| |done]. unfold truthy in *. lia.
    + intros y [Hy| ->]; [by apply Hk|congruence].
Qed.

Lemma device_ranges_ok address end_ l : address mod PAGE_SIZE = 0 -> end_ mod PAGE_SIZE = 0 ->
  0 <= address -> end_ < two64 -> Forall vma_wf l ->
  Forall (fun d => is_u64 d.1 /\ 0 < d.2 /\ d.1 + d.2 < two64 /\
                   d.1 mod PAGE_SIZE = 0 /\ d.2 mod PAGE_SIZE = 0)
    (concat (device_range address end_ <$> l)).
Proof.
  intros Ha He Hnn He2 Hf. induction l as [|v l IH]; cbn; [constructor|].
  rewrite Forall_cons in Hf. destruct Hf as [(Hv & Hv2 & Hs & Hve) Hf].
  apply Forall_app. split; [|by apply IH].
  unfold device_range, overlaps, overlap_begin, overlap_end, is_u64, PAGE_SIZE in *.
  destruct (_ && _) eqn:E; [|constructor]. apply andb_true_iff in E as [E _].
  apply Forall_singleton. cbn [fst snd]. clear IH Hf.
  destruct (Z.max_spec address (vm_start v)) as [[? ->]|[? ->]],
    (Z.min_spec end_ (vm_end v)) as [[? ->]|[? ->]]; lia.
Qed.

(** What the operation does, with the pages it clears. *)
Lemma UnmapVmaRange_spec force allocated memory pg address len (x : World PT M W) :
  is_u64 address -> is_u64 len -> world_ok x -> fresh_memory (files (space x)) memory ->
  exists ok x', UnmapVmaRange append_ok force allocated memory pg address len x = Some (ok, x') /\
    registry_ok (mappings x') /\
    if (ok : bool) then
      vmas_ok (vmas (space x')) /\
      (forall a, attr (files (space x')) (vmas (space x')) a =
        if in_range address (address + len) a then None else attr (files (space x)) (vmas (space x)) a) /\
      cleared (fun page => in_range address (address + len) page && existsb (covers page) (vmas (space x)))
        (ptable (space x)) (ptable (space x'))
    else vmas (space x') = vmas (space x) /\ files (space x') = files (space x).
Proof.
  intros Ha Hl (Hok & Hfiles & Huni & Hreg) Hmem. unfold UnmapVmaRange.
  destruct (_ || _) eqn:Hg; [by do 2 eexists|].
  apply orb_false_iff in Hg as [[[Hg0 Hg1]%orb_false_iff Hg2]%orb_false_iff Hg3].
  unfold truthy in Hg1, Hg2. apply negb_false_iff, Z.eqb_eq in Hg1, Hg2.
  change (page_offset address = 0) in Hg1. change (page_offset len = 0) in Hg2.
  rewrite page_offset_mod in Hg1, Hg2. unfold is_u64, UMAX in *.
  rewrite uadd_small by lia. set (end_ := address + len).
  assert (address < end_ /\ end_ < two64) as [Hr He2] by lia.
  assert (end_ mod PAGE_SIZE = 0) as He by (unfold PAGE_SIZE; lia).
  assert (address mod PAGE_SIZE = 0) as Ha' by done. pose proof Hok as [Hwf _].
  destruct (unmap_count _ _ _ _ _ _ _) as [[[[pc fc] dc] sr]|] eqn:Hcnt; [|by do 2 eexists].
  apply unmap_count_spec in Hcnt as [Hfc Hsr]; [|done|done]. cbn [orb] in Hsr.
  destruct (_ || _); [by do 2 eexists|].
  destruct (unmap_plan _ _ _ _ _ _ _ _ _ _) as [[[[ok fs] sp] items] devices] eqn:Hplan.
  pose proof Hplan as Hcl. rewrite Hsr in Hcl. apply plan_clone_ready in Hcl as [Hdrop Hready]; [|done..].
  destruct (negb ok || _ || _ || _) eqn:Hg.
  { do 2 eexists. split; [done|]. cbn. by rewrite Hdrop. }
  destruct ok; [|done]. destruct (Hready eq_refl) as (Hn & Hcr & Hkeep).
  apply unmap_plan_items in Hplan as [Hkeys Hdev]; [|done]. cbn in Hkeys, Hdev.
  destruct (flush_shared _ _ _ _) as [[] w]; [|do 2 eexists; split; [done|]; cbn; by rewrite Hdrop].
  destruct (unmap_devices_spec pg devices (ptable (space x)) (MkRegistry (mappings x) (pages (manager x))) Hreg)
    as (ok & g & pt & -> & Hreg' & Hclr); [rewrite Hdev; apply device_ranges_ok; done || lia|].
  cbn [mbind option_bind]. destruct ok; cbn [negb];
    [|do 2 eexists; split; [done|]; cbn; by rewrite Hdrop].
  edestruct (unmap_commit_spec address end_ fc sp items) as (ok & x' & -> & Hmap & Hspec);
    [done|done|done|exact Hok|exact Hfc|exact Hkeys|exact Hcr|].
  do 2 eexists. split; [done|]. rewrite Hmap. split; [done|]. cbn [space vmas files ptable] in Hspec.
  destruct ok; [|by rewrite Hdrop in Hspec]. destruct Hspec as (-> & -> & Hclr2).
  edestruct (unmapped_attr address end_ sp (vmas (space x)) fs) as [Hvok Hattr]; [done..|].
  split_and!; [exact Hvok| |].
  - intros a. rewrite Hattr. destruct (in_range address end_ a); [done|]. apply attr_ext.
    destruct Hfiles as [_ Hlive]. eapply Forall_impl; [exact Hlive|]. intros v Hv. apply Hkeep.
    destruct (decide (vfile v = 0)); [by right|left; auto].
  - intros page Hp. rewrite (Hclr2 page Hp), (Hclr eq_refl page Hp), Hdev.
    rewrite <- (gone_pages address end_ (vmas (space x)) page Ha' Hwf Hp).
    by destruct (planned _ _), (existsb _ _).
Qed.

(** C5: [UnmapVmaRange], on a consistent address space, never fails an assertion and is all or
    nothing for the areas.  When it succeeds no address of the range has an area, every other
    address keeps its attributes, file position included, the areas stay sorted and disjoint, and the
    page table has lost exactly the pages of the range that areas covered.  When it fails, at
    any point, the areas and the file handles are exactly as before.  The mapping registry
    stays well formed throughout. *)
Theorem UnmapVmaRange_correct force allocated memory pg address len (x : World PT M W) :
  is_u64 address -> is_u64 len -> world_ok x -> fresh_memory (files (space x)) memory ->
  exists ok x', UnmapVmaRange append_ok force allocated memory pg address len x = Some (ok, x') /\
    registry_ok (mappings x') /\
    if (ok : bool) then
      vmas_ok (vmas (space x')) /\
      (forall a, attr (files (space x')) (vmas (space x')) a =
        if in_range address (address + len) a then None else attr (files (space x)) (vmas (space x)) a) /\
      cleared (fun page => in_range address (address + len) page && existsb (covers page) (vmas (space x)))
        (ptable (space x)) (ptable (space x'))
    else vmas (space x') = vmas (space x) /\ files (space x') = files (space x).
Proof. apply UnmapVmaRange_spec. Qed.

(** The hull of the areas. *)
Lemma foldl_min_hull l b : 0 <= b -> Forall vma_wf l ->
  0 <= foldl (fun b v => Z.min b (vm_start v)) b l <= b /\
  Forall (fun v => foldl (fun b v => Z.min b (vm_start v)) b l <= vm_start v) l.
Proof.
  revert b. induction l as [|v l IH]; intros b Hb Hf; cbn [foldl]; [split; [lia|constructor]|].
  rewrite Forall_cons in Hf. destruct Hf as [[Hv _] Hf].
  destruct (IH (Z.min b (vm_start v)) ltac:(lia) Hf) as [Hm1 Hm2]. split; [lia|]. constructor; [lia|done].
Qed.

Lemma foldl_max_hull l e : e < two64 -> Forall vma_wf l ->
  e <= foldl (fun e v => Z.max e (vm_end v)) e l < two64 /\
  Forall (fun v => vm_end v <= foldl (fun e v => Z.max e (vm_end v)) e l) l.
Proof.
  revert e. induction l as [|v l IH]; intros e He Hf; cbn [foldl]; [split; [lia|constructor]|].
  rewrite Forall_cons in Hf. destruct Hf as [(_ & Hv & _) Hf].
  destruct (IH (Z.max e (vm_end v)) ltac:(lia) Hf) as [Hm1 Hm2]. split; [lia|]. constructor; [lia|done].
Qed.

(** A list without attributes is empty. *)
Lemma attr_none_nil fs l : vmas_ok l -> (forall a, attr fs l a = None) -> l = [].
Proof.
  destruct l as [|v l]; [done|]. intros ([Hv _] & _)%vmas_ok_cons Hn.
  specialize (Hn (vm_start v)). unfold attr, vma_at in Hn. cbn in Hn.
  replace (covers (vm_start v) v) with true in Hn; [done|]. unfold covers. lia.
Qed.

(** process exit.  [ReleaseAllVmas], when it succeeds, leaves no area at all, and no page that
    an area covered is still mapped. *)
Theorem ReleaseAllVmas_empties allocated memory pg (x x' : World PT M W) :
  world_ok x -> fresh_memory (files (space x)) memory ->
  ReleaseAllVmas append_ok allocated memory pg x = Some (true, x') ->
  vmas (space x') = [] /\
  forall page, page mod PAGE_SIZE = 0 -> existsb (covers page) (vmas (space x)) = true ->
    pt_at (ptable (space x')) page = UMAX.
Proof.
  intros Hx Hmem. pose proof Hx as ([Hwf _] & _). unfold ReleaseAllVmas.
  destruct (vmas (space x)) as [|v rest] eqn:El.
  { intros [= <-]. rewrite El. done. }
  set (b := foldl (fun b v => Z.min b (vm_start v)) (vm_start v) rest).
  set (e := foldl (fun e v => Z.max e (vm_end v)) (vm_end v) rest).
  rewrite Forall_cons in Hwf. destruct Hwf as [(Hv & Hv2 & _) Hwf].
  destruct (foldl_min_hull rest (vm_start v) ltac:(lia) Hwf) as [Hb1 Hb2].
  destruct (foldl_max_hull rest (vm_end v) Hv2 Hwf) as [He1 He2]. fold b in Hb1, Hb2. fold e in He1, He2.
  destruct (b <? e) eqn:Ebe; [|done]. intros HU.
  assert (forall a, existsb (covers a) (v :: rest) = true -> in_range b (b + (e - b)) a = true) as Hin.
  { intros a (w & Hw%list_elem_of_In & Hc)%existsb_exists. rewrite Forall_forall in Hb2, He2.
    unfold in_range, covers in *. apply elem_of_cons in Hw as [->|Hw]; [lia|].
    specialize (Hb2 w Hw). specialize (He2 w Hw). cbn in Hb2, He2. lia. }
  destruct (UnmapVmaRange_spec true allocated memory pg b (e - b) x) as (ok & y & E & _ & Hs);
    [unfold is_u64; lia|unfold is_u64; lia|done|done|].
  rewrite HU in E. injection E as <- <-. destruct Hs as (Hok' & Hattr & Hclr). rewrite El in Hattr, Hclr.
  split.
  - eapply attr_none_nil; [done|]. intros a. rewrite Hattr.
    destruct (in_range _ _ a) eqn:Er; [done|]. unfold attr.
    destruct (vma_at (v :: rest) a) as [w|] eqn:Ew; [|done]. exfalso.
    apply vma_at_Some in Ew as [Hw Hc]. rewrite Hin in Er; [done|].
    apply existsb_exists. exists w. split; [by apply list_elem_of_In|done].
  - intros page Hp Hc. rewrite (Hclr page Hp). by rewrite Hin, Hc.
Qed.

End UnmapSpec.

(** ** Witnesses *)
Module UnmapWitness.
Import Interfaces.Example.

#[local] Instance no_shared : SharedFiles unit := {|
  sf_identity := fun _ inode => inode; sf_flush := fun w _ _ => (true, w);
  sf_unregister := fun w _ _ _ => w; sf_unpin := fun w _ => w |}.

(** A private file area of four pages, one of them resident and counted, and an empty registry. *)
Definition world : World Table Pool unit :=
  MkWorld
    (MkSpace [MkVma 0x1000 0x5000 7 false VirtualMemoryAreaType.File VirtualMemoryAreaMode.Private 9 0x2000]
       (<[2 := (0x7000, 71)]> ∅) {[9 := MkFile 5 2]} [])
    [] (MkManager (<[7%nat := [MkPage 0x7000 ManagedPages.File 1 0]]> (replicate 256 [])) (MkPool 0 0 [])) tt.

Lemma world_is_ok : world_ok world.
Proof.
  unfold world_ok, world. cbn [space vmas files mappings]. split_and!.
  - vmas_list.
  - split; [done|]. apply Forall_singleton. intros _. cbn. by eexists.
  - intros v w ->%list_elem_of_singleton ->%list_elem_of_singleton. done.
  - by repeat constructor.
Qed.

Definition unmapped : option (bool * World Table Pool unit) :=
  UnmapVmaRange (fun _ => true) false true (Some 10) 1 0x2000 0x2000 world.

(** The hole splits the area in two and frees the resident page. *)
Lemma Unmap_witness :
  exists x', unmapped = Some (true, x') /\ vmas_ok (vmas (space x')) /\
    length (vmas (space x')) = 2%nat /\ pt_at (ptable (space x')) 0x2000 = UMAX /\
    pool_freed (pages (manager x')) = [0x7000].
Proof.
  destruct (UnmapVmaRange_correct (fun _ => true) false true (Some 10) 1 0x2000 0x2000 world
    ltac:(done) ltac:(done) world_is_ok ltac:(done)) as (ok & x' & E & _ & W).
  fold unmapped in E. exists x'. rewrite E.
  assert (E2 : unmapped = Some (true, match unmapped with Some (_, y) => y | None => world end))
    by (vm_compute; reflexivity).
  rewrite E in E2. injection E2 as ->. split; [reflexivity|]. split; [apply W|].
  assert (E3 : Some (true, x') = unmapped) by (symmetry; exact E).
  vm_compute in E3. injection E3 as ->. split; [reflexivity|split; reflexivity].
Defined.

Lemma ReleaseAll_witness :
  exists x', ReleaseAllVmas (fun _ => true) true None 1 world = Some (true, x') /\
    vmas (space x') = [].
Proof.
  eexists. split; [vm_compute; reflexivity|].
  refine (proj1 (ReleaseAllVmas_empties (fun _ => true) true None 1 world _ world_is_ok I _)).
  vm_compute. reflexivity.
Defined.

End UnmapWitness.
