(* ===== verification/VmaFault.v ===== *)
(** * Page faults and copy-on-write ([mecocoa/memoman.cpp])

    [EnsureVmaPage] looks the area up under the area lock, releases the lock to allocate and fill
    a page, then takes the lock again and re-checks everything before it maps the page.  What other
    threads do while the lock is free is the parameter [env]: [env n] is applied at the n-th
    point where the code has released the lock.  The contents of physical pages are a function
    from page address to content.  The file cache is behind the interface [FileBacking]. *)
From S2P Require Import Prelude Interfaces ManagedPages Vma VmaProtect.

Module VirtualMemoryAccess.
Inductive t := Read | Write | Execute.
#[global] Instance eq_dec : EqDecision t.
Proof. solve_decision. Defined.
End VirtualMemoryAccess.

(** Installing a 4 KiB page maps that page, with the properties given, and no other. *)
Class PageMapLaws (PT : Type) `{PagingConstants} `{PageTable PT} := {
  pt_at_map : forall pt va pa props pt' page,
    va mod PAGE_SIZE = 0 -> pa mod PAGE_SIZE = 0 -> page mod PAGE_SIZE = 0 ->
    pt_map pt va pa PAGE_SIZE PAGESIZE_4KB props = (true, pt') ->
    pt_at pt' page = if page =? va then pa else pt_at pt page;
  pt_leaf_map : forall pt va pa props pt' page,
    va mod PAGE_SIZE = 0 -> page mod PAGE_SIZE = 0 ->
    pt_map pt va pa PAGE_SIZE PAGESIZE_4KB props = (true, pt') ->
    pt_leaf pt' page = if page =? va then Some (0, props) else pt_leaf pt page;
  pt_map_failed : forall pt va pa props pt' page,
    pt_map pt va pa PAGE_SIZE PAGESIZE_4KB props = (false, pt') ->
    pt_at pt' page = pt_at pt page /\ pt_leaf pt' page = pt_leaf pt page;
}.

(** The state a fault works on. *)
Record State (PT M W C : Type) := MkState {
  space : Space PT;
  manager : PageManager M;
  memory : Z -> C;
  cache : W;
}.
Arguments MkState {PT M W C}.
Arguments space {PT M W C}.
Arguments manager {PT M W C}.
Arguments memory {PT M W C}.
Arguments cache {PT M W C}.

(** The file cache: [FlushSharedFilePage], [AcquireCachedFileMappingPage] (version and physical
    page, 0 when the page lies beyond the cached content; it may add a reference to the page),
    [content_version], [MapSharedFileVmaPage] and [ResolveSharedFileWrite]. *)
Class FileBacking (PT M W C : Type) := {
  fb_identity : W -> Z -> Z;
  fb_flush : State PT M W C -> Z -> Z -> bool * State PT M W C;
  fb_acquire : State PT M W C -> Z -> Z -> option (Z * Z) * State PT M W C;
  fb_version : W -> Z -> Z;
  fb_map_shared : State PT M W C -> Z -> VirtualMemoryAccess.t -> Z -> Z -> Z -> Z * State PT M W C;
  fb_resolve_write : State PT M W C -> Z -> Z * State PT M W C;
}.

Section Access.
Context `{PagingConstants} {PT : Type} `{!PageTable PT}.

Definition VmaAllowsAccess (vma : VirtualMemoryArea) (access : VirtualMemoryAccess.t) : bool :=
  if negb (has (vm_flags vma) PGPROP_present) || negb (has (vm_flags vma) PGPROP_user_access)
  then false
  else match access with
  | VirtualMemoryAccess.Write => has (vm_flags vma) PGPROP_writable
  | VirtualMemoryAccess.Execute => negb (has (vm_flags vma) PGPROP_nonexecutable)
  | VirtualMemoryAccess.Read => true
  end.

(** The permission test on the decoded properties of a leaf. *)
Definition leaf_allows (access : VirtualMemoryAccess.t) (properties : Z) : bool :=
  negb (negb (has properties PGPROP_present) || negb (has properties PGPROP_user_access)
    || (bool_decide (access = VirtualMemoryAccess.Write) && negb (has properties PGPROP_writable))
    || (bool_decide (access = VirtualMemoryAccess.Execute) && has properties PGPROP_nonexecutable)).

(** The physical address when the resident page allows the access. *)
Definition PageAllowsAccess (pt : PT) (address : Z) (access : VirtualMemoryAccess.t) : option Z :=
  match pt_leaf pt address with
  | None => None
  | Some (_, properties) =>
    if negb (leaf_allows access properties) then None
    else if pt_at pt address =? UMAX then None else Some (pt_at pt address)
  end.

End Access.

Section Fault.
Context `{PagingConstants} {PT : Type} `{!PageTable PT} {M : Type} `{!Mempool M} {W C : Type}
  `{!FileBacking PT M W C} (zero_page : C).

(** The small allocations of one run: [new vfs_file], the managed page, its owner and its record. *)
Context (new_file new_page new_record : bool) (make_owner : Z -> PageManager M -> bool * PageManager M).

(** What other threads do while the locks are free. *)
Context (env : nat -> State PT M W C -> State PT M W C).

Abbreviation St := (State PT M W C).

Definition with_table (pt : PT) (s : St) : St :=
  MkState (MkSpace (vmas (space s)) pt (files (space s)) (flushed (space s))) (manager s) (memory s) (cache s).
(** [RefreshVirtualAddress] *)
Definition invalidate (page : Z) (s : St) : St :=
  MkState (MkSpace (vmas (space s)) (ptable (space s)) (files (space s)) (flushed (space s) ++ [page]))
    (manager s) (memory s) (cache s).
Definition with_manager (m : PageManager M) (s : St) : St := MkState (space s) m (memory s) (cache s).
(** Fill a physical page. *)
Definition fill (page : Z) (c : C) (s : St) : St :=
  MkState (space s) (manager s) (fun p => if p =? page then c else memory s p) (cache s).

Definition release (pa : Z) (s : St) : bool * St :=
  let '(ok, m) := ReleaseManagedPageMapping pa (manager s) in (ok, with_manager m s).
Definition adopt (pa : Z) (src : ManagedPageSource) (s : St) : bool * St :=
  let '(ok, m) := AdoptManagedPage make_owner new_page new_record pa src (manager s) in
  (ok, with_manager m s).

(** [mempool.allocate(PAGE_SIZE, 12)]; [None] for a null or all-ones pointer. *)
Definition allocate_page (s : St) : option Z * St :=
  let '(p, pl) := mp_allocate (pages (manager s)) PAGE_SIZE 12 0 in
  let s := with_manager (MkManager (buckets (manager s)) pl) s in
  if alloc_failed p then (None, s) else (Some p, s).

Definition leaf_properties (flags : Z) : Z :=
  Z.land flags (Z.lor (Z.lor PGPROP_present PGPROP_writable)
                      (Z.lor PGPROP_user_access PGPROP_nonexecutable)).
Definition read_only_properties (flags : Z) : Z :=
  Z.land flags (Z.lor PGPROP_present (Z.lor PGPROP_user_access PGPROP_nonexecutable)).

Definition inode_of (s : St) (file : Z) : Z := default 0 (f_inode <$> files (space s) !! file).

(** The locked block of [MapCachedFileVmaPage]: the result and whether the page was installed. *)
Definition install_cached (address : Z) (access : VirtualMemoryAccess.t) (expected_flags : Z)
  (expected_mode : VirtualMemoryAreaMode.t) (offset inode physical : Z) (s : St) : Z * bool * St :=
  match vma_at (vmas (space s)) address with
  | None => (0, false, s)
  | Some vma =>
    if negb (bool_decide (vm_type vma = VirtualMemoryAreaType.File))
       || negb (bool_decide (vm_mode vma = expected_mode)) || negb (vm_flags vma =? expected_flags)
       || (has (vm_flags vma) PGPROP_writable && negb (bool_decide (vm_mode vma = VirtualMemoryAreaMode.Private)))
       || negb (VmaAllowsAccess vma access) || negb (truthy (vfile vma))
       || negb (inode_of s (vfile vma) =? inode)
       || negb ((address -w vm_start vma +w file_offset vma) =? offset)
    then (0, false, s)
    else if mapped (ptable (space s)) address then
      (default 0 (PageAllowsAccess (ptable (space s)) address access), false, s)
    else match pt_map (ptable (space s)) address physical PAGE_SIZE PAGESIZE_4KB
                 (read_only_properties (vm_flags vma)) with
    | (false, pt) => (0, false, with_table pt s)
    | (true, pt) =>
      (if bool_decide (access = VirtualMemoryAccess.Write) then 0 else physical, true,
       invalidate address (with_table pt s))
    end
  end.

(** [MapCachedFileVmaPage]; [None] when the fuel for its retry loop runs out, or the [KASSERT] on
    the release fails. *)
Fixpoint MapCachedFileVmaPage (fuel : nat) (address : Z) (access : VirtualMemoryAccess.t)
  (expected_flags : Z) (expected_mode : VirtualMemoryAreaMode.t) (offset inode : Z) (s : St)
  : option (Z * St) :=
  match fuel with
  | O => None
  | S fuel =>
    if inode =? 0 then Some (0, s) else
    match fb_flush s (fb_identity (cache s) inode) offset with
    | (false, s) => Some (0, s)
    | (true, s) =>
      match fb_acquire s inode offset with
      | (None, s) => Some (0, s)
      | (Some (version, cached), s) =>
        let '(page, s) :=
          if truthy cached then (Some cached, s)
          else match allocate_page s with
          | (None, s) => (None, s)
          | (Some p, s) =>
            match adopt p File (fill p zero_page s) with
            | (false, s) => (None, s)
            | (true, s) => (Some p, s)
            end
          end in
        match page with
        | None => Some (0, s)
        | Some physical =>
          let s := env 3 s in
          let stale := negb (fb_version (cache s) inode =? version) in
          let '(result, installed, s) :=
            if stale then (0, false, s)
            else install_cached address access expected_flags expected_mode offset inode physical s in
          let '(ok, s) := if installed then (true, s) else release physical s in
          if negb (ok : bool) then None
          else if stale
          then MapCachedFileVmaPage fuel address access expected_flags expected_mode offset inode s
          else Some (result, s)
        end
      end
    end
  end.

(** The last locked block of [EnsureVmaPage], for an anonymous area: the result, and whether the
    page was mapped. *)
Definition install_anonymous (address : Z) (access : VirtualMemoryAccess.t)
  (expected : VirtualMemoryArea) (physical : Z) (s : St) : Z * bool * St :=
  match vma_at (vmas (space s)) address with
  | None => (0, false, s)
  | Some vma =>
    if negb (VmaAllowsAccess vma access) then (0, false, s)
    else if mapped (ptable (space s)) address then
      (default 0 (PageAllowsAccess (ptable (space s)) address access), false, s)
    else if negb (bool_decide (vm_type vma = vm_type expected))
            || negb (bool_decide (vm_mode vma = vm_mode expected))
            || negb (vm_flags vma =? vm_flags expected) then (0, false, s)
    else match pt_map (ptable (space s)) address physical PAGE_SIZE PAGESIZE_4KB
                 (leaf_properties (vm_flags vma)) with
    | (false, pt) => (0, false, with_table pt s)
    | (true, pt) => (physical, true, invalidate address (with_table pt s))
    end
  end.

(** The rest of [EnsureVmaPage] for an anonymous area (a file area has returned before it). *)
Definition ensure_anonymous (address : Z) (access : VirtualMemoryAccess.t)
  (expected : VirtualMemoryArea) (s : St) : Z * St :=
  match allocate_page s with
  | (None, s) => (0, s)
  | (Some physical, s) =>
    match adopt physical Anonymous (fill physical zero_page s) with
    | (false, s) => (0, s)
    | (true, s) =>
      let '(result, installed, s) :=
        install_anonymous address access expected physical (env 2 s) in
      (result, if installed then s else (release physical s).2)
    end
  end.

(** The file path: the area is looked up again, its file copied, and the page taken from the cache
    or from the shared-file table. *)
Definition ensure_file (fuel : nat) (address : Z) (access : VirtualMemoryAccess.t)
  (expected : VirtualMemoryArea) (offset : Z) (s : St) : option (Z * St) :=
  if negb new_file then Some (0, s) else
  match vma_at (vmas (space s)) address with
  | None => Some (0, s)
  | Some vma =>
    if mapped (ptable (space s)) address then
      Some (default 0 (PageAllowsAccess (ptable (space s)) address access), s)
    else if negb (bool_decide (vm_type vma = vm_type expected))
            || negb (bool_decide (vm_mode vma = vm_mode expected))
            || negb (vm_flags vma =? vm_flags expected)
            || negb (VmaAllowsAccess vma access) || negb (truthy (vfile vma))
            || negb ((address -w vm_start vma +w file_offset vma) =? offset)
    then Some (0, s)
    else
      let inode := inode_of s (vfile vma) in
      match vm_mode expected with
      | VirtualMemoryAreaMode.Private =>
        MapCachedFileVmaPage fuel address access (vm_flags expected) (vm_mode expected) offset inode
          (env 2 s)
      | VirtualMemoryAreaMode.Shared =>
        Some (fb_map_shared (env 2 s) address access (vm_flags expected) offset inode)
      end
  end.

Definition EnsureVmaPage (fuel : nat) (address : Z) (access : VirtualMemoryAccess.t) (s : St)
  : option (Z * St) :=
  let address := page_down address in
  match vma_at (vmas (space s)) address with
  | None => Some (0, s)
  | Some vma =>
    if bool_decide (vm_type vma = VirtualMemoryAreaType.Device)
       || negb (VmaAllowsAccess vma access) then Some (0, s)
    else if mapped (ptable (space s)) address then
      Some (default 0 (PageAllowsAccess (ptable (space s)) address access), s)
    else match vm_type vma with
    | VirtualMemoryAreaType.File =>
      if vfile vma =? 0 then Some (0, s)
      else ensure_file fuel address access vma (address -w vm_start vma +w file_offset vma) (env 1 s)
    | _ => Some (ensure_anonymous address access vma (env 1 s))
    end
  end.

(** ** Copy-on-write *)

Definition ReadPrivateCowPage (address : Z) (s : St) : option (Z * Z * VirtualMemoryAreaType.t) :=
  match vma_at (vmas (space s)) address with
  | None => None
  | Some vma =>
    if negb (bool_decide (vm_mode vma = VirtualMemoryAreaMode.Private))
       || bool_decide (vm_type vma = VirtualMemoryAreaType.Device)
       || negb (VmaAllowsAccess vma VirtualMemoryAccess.Write) then None
    else match pt_leaf (ptable (space s)) address with
    | None => None
    | Some (level, properties) =>
      if negb (level =? 0) || negb (has properties PGPROP_present)
         || negb (has properties PGPROP_user_access) || has properties PGPROP_writable then None
      else if pt_at (ptable (space s)) address =? UMAX then None
      else Some (pt_at (ptable (space s)) address, properties, vm_type vma)
    end
  end.

Definition ReplacePrivateCowPage (address : Z) (expected_type : VirtualMemoryAreaType.t)
  (expected_physical expected_properties replacement : Z) (s : St) : bool * St :=
  match vma_at (vmas (space s)) address with
  | None => (false, s)
  | Some vma =>
    if negb (bool_decide (vm_type vma = expected_type))
       || negb (bool_decide (vm_mode vma = VirtualMemoryAreaMode.Private))
       || negb (VmaAllowsAccess vma VirtualMemoryAccess.Write) then (false, s)
    else match pt_leaf (ptable (space s)) address with
    | None => (false, s)
    | Some (level, current) =>
      if negb (level =? 0) || negb (current =? expected_properties)
         || negb (pt_at (ptable (space s)) address =? expected_physical) then (false, s)
      else if negb (pt_setup_ok replacement level (Z.lor expected_properties PGPROP_writable))
      then (false, s)
      else (true, with_table (pt_store (ptable (space s)) address replacement
                                (Z.lor expected_properties PGPROP_writable)) s)
    end
  end.

(** The page may be turned writable in place: nobody else refers to it, and it is not a file page. *)
Definition sole_owner (page : ManagedPage) : bool :=
  bool_decide (source page = Anonymous) && (mapping_refs page =? 1) && (cache_refs page =? 0).

(** The page is of a kind that belongs into the area. *)
Definition cow_source_ok (type : VirtualMemoryAreaType.t) (page : ManagedPage) : bool :=
  match type with
  | VirtualMemoryAreaType.Anonymous => bool_decide (source page = Anonymous)
  | VirtualMemoryAreaType.File =>
      bool_decide (source page = File) || bool_decide (source page = Anonymous)
  | VirtualMemoryAreaType.Device => true
  end.

(** [ResolvePrivateCowPage]; [copy_ok] says whether [MemCopyP] copies the page; a failed [KASSERT]
    is [None]. *)
Definition ResolvePrivateCowPage (copy_ok : bool) (address : Z) (s : St) : option (Z * St) :=
  match ReadPrivateCowPage address s with
  | None => Some (0, s)
  | Some (old_physical, old_properties, type) =>
    let s := env 4 s in
    match QueryManagedPage old_physical (manager s) with
    | None => Some (0, s)
    | Some old_page =>
      if negb (cow_source_ok type old_page) || (mapping_refs old_page =? 0) then Some (0, s)
      else if sole_owner old_page then
        match ReplacePrivateCowPage address type old_physical old_properties old_physical (env 5 s) with
        | (false, s) => Some (0, s)
        | (true, s) => Some (old_physical, invalidate address s)
        end
      else match allocate_page s with
      | (None, s) => Some (0, s)
      | (Some new_physical, s) =>
        if negb copy_ok then
          Some (0, with_manager (free_page new_physical (manager s)) s)
        else match adopt new_physical Anonymous (fill new_physical (memory s old_physical) s) with
        | (false, s) => Some (0, s)
        | (true, s) =>
          match ReplacePrivateCowPage address type old_physical old_properties new_physical (env 5 s) with
          | (false, s) => Some (0, (release new_physical s).2)
          | (true, s) =>
            match release old_physical (invalidate address s) with
            | (false, _) => None
            | (true, s) => Some (new_physical, s)
            end
          end
        end
      end
    end
  end.

Definition ResolveVmaFault (fuel : nat) (copy_ok : bool) (address : Z)
  (access : VirtualMemoryAccess.t) (protection_fault : bool) (s : St) : option (Z * St) :=
  let address := page_down address in
  '(physical, s) ← (if protection_fault then Some (0, s) else EnsureVmaPage fuel address access s);
  if negb protection_fault && (truthy physical || negb (bool_decide (access = VirtualMemoryAccess.Write)))
  then Some (physical, s)
  else if negb (bool_decide (access = VirtualMemoryAccess.Write)) then Some (0, s)
  else
    let '(shared, s) := fb_resolve_write s address in
    if truthy shared then Some (shared, s) else ResolvePrivateCowPage copy_ok address s.

(** ** User buffers *)

(** The test on the leaf of one page; it reads the leaf twice when the page must become writable. *)
Definition user_leaf (write : bool) (pt : PT) (page : Z) : bool :=
  match pt_leaf pt page with
  | None => false
  | Some (_, properties) =>
    has properties PGPROP_present && has properties PGPROP_user_access
    && (negb write || has properties PGPROP_writable)
  end.

Definition prepare_page (fuel : nat) (copy_ok write : bool) (page : Z) (s : St) : option (bool * St) :=
  '(resident, s) ←
    (if mapped (ptable (space s)) page then Some (true, s)
     else
       '(physical, s) ← EnsureVmaPage fuel page
          (if write then VirtualMemoryAccess.Write else VirtualMemoryAccess.Read) s;
       Some (truthy physical || (write && mapped (ptable (space s)) page), s));
  if negb (resident : bool) then Some (false, s)
  else if negb (user_leaf false (ptable (space s)) page) then Some (false, s)
  else if write && negb (user_leaf true (ptable (space s)) page) then
    let '(shared, s) := fb_resolve_write s page in
    '(physical, s) ← (if truthy shared then Some (shared, s) else ResolvePrivateCowPage copy_ok page s);
    if physical =? 0 then Some (false, s)
    else Some (user_leaf true (ptable (space s)) page, s)
  else Some (true, s).

Fixpoint prepare_pages (fuel : nat) (copy_ok write : bool) (pgs : list Z) (s : St) : option (bool * St) :=
  match pgs with
  | [] => Some (true, s)
  | page :: rest =>
    '(ok, s) ← prepare_page fuel copy_ok write page s;
    if ok : bool then prepare_pages fuel copy_ok write rest s else Some (false, s)
  end.

(** [PrepareUserBuffer] on a process. *)
Definition PrepareUserBuffer (fuel : nat) (copy_ok : bool) (address length_ : Z) (write : bool) (s : St)
  : option (bool * St) :=
  if ((address =? 0) && truthy length_) || (UMAX - address <? length_) then Some (false, s)
  else if length_ =? 0 then Some (true, s)
  else
    let first_page := page_down address in
    let last_page := page_down (address +w length_ -w 1) in
    prepare_pages fuel copy_ok write (pages_between first_page (last_page + PAGE_SIZE)) s.

End Fault.

(** ** Permissions *)

Section AccessFacts.
Context `{PagingConstants}.

(** [(x & mask) & b] for a bit of the mask. *)
Lemma has_mask x mask b : Z.land mask b = b -> has (Z.land x mask) b = has x b.
Proof. intros Hm. unfold has. by rewrite <- Z.land_assoc, Hm. Qed.

(** The page an area asks for allows what the area allows. *)
Lemma leaf_allows_area vma access : VmaAllowsAccess vma access = true ->
  leaf_allows access (leaf_properties (vm_flags vma)) = true.
Proof.
  unfold leaf_allows, leaf_properties, VmaAllowsAccess.
  rewrite !has_mask by (apply Z.bits_inj'; intros n _; rewrite Z.land_spec, !Z.lor_spec;
    repeat match goal with |- context [Z.testbit ?x n] => destruct (Z.testbit x n) end; done).
  destruct access; repeat case_bool_decide; try done;
    destruct (has _ PGPROP_present), (has _ PGPROP_user_access), (has _ PGPROP_writable),
      (has _ PGPROP_nonexecutable); done.
Qed.

Context {PT : Type} `{!PageTable PT}.

(** What the leaf of a page must say for an access of the user. *)
Definition leaf_grants (access : VirtualMemoryAccess.t) (props : Z) : Prop :=
  has props PGPROP_present = true /\ has props PGPROP_user_access = true /\
  (access = VirtualMemoryAccess.Write -> has props PGPROP_writable = true) /\
  (access = VirtualMemoryAccess.Execute -> has props PGPROP_nonexecutable = false).

Lemma leaf_allows_grants access props : leaf_allows access props = true -> leaf_grants access props.
Proof.
  unfold leaf_allows, leaf_grants. destruct (has props PGPROP_present), (has props PGPROP_user_access); try done.
  destruct access, (has props PGPROP_writable), (has props PGPROP_nonexecutable); cbn; try done; by repeat split.
Qed.

Lemma PageAllowsAccess_Some (pt : PT) a access p : PageAllowsAccess pt a access = Some p ->
  pt_at pt a = p /\ exists level props, pt_leaf pt a = Some (level, props) /\ leaf_grants access props.
Proof.
  unfold PageAllowsAccess. destruct (pt_leaf pt a) as [[level props]|]; [|done].
  destruct (leaf_allows access props) eqn:E; [|done]. cbn. destruct (_ =? _); [done|].
  intros [= <-]. apply leaf_allows_grants in E. eauto.
Qed.

End AccessFacts.

(** The page at [a] is mapped to [p] and both the area and the leaf allow the access. *)
Definition accessible `{PagingConstants} `{!PageTable PT} {M W C}
  (a : Z) (access : VirtualMemoryAccess.t) (p : Z) (s : State PT M W C) : Prop :=
  pt_at (ptable (space s)) a = p /\
  (exists vma, vma_at (vmas (space s)) a = Some vma /\ VmaAllowsAccess vma access = true) /\
  exists level props, pt_leaf (ptable (space s)) a = Some (level, props) /\ leaf_grants access props.

Section EnsureSpec.
Context `{PagingConstants} {PT : Type} `{!PageTable PT} `{!PageMapLaws PT} {M : Type} `{!Mempool M}
  {W C : Type} `{!FileBacking PT M W C} (zero_page : C).
Context (new_file new_page new_record : bool) (make_owner : Z -> PageManager M -> bool * PageManager M).
Context (env : nat -> State PT M W C -> State PT M W C).

Lemma allocate_page_Some s p (s' : State PT M W C) :
  allocate_page s = (Some p, s') -> p <> 0 /\ p <> UMAX /\ space s' = space s /\ memory s' = memory s.
Proof.
  unfold allocate_page. destruct (mp_allocate _ _ _ _) as [q pl]. unfold alloc_failed.
  destruct (_ || _) eqn:E; [done|]. intros [= <- <-]. cbn. split_and!; done || lia.
Qed.

Lemma install_anonymous_sound a access expected physical (s : State PT M W C) r inst s' :
  a mod PAGE_SIZE = 0 -> physical <> 0 -> physical mod PAGE_SIZE = 0 ->
  install_anonymous a access expected physical s = (r, inst, s') -> r <> 0 ->
  accessible a access r s' /\ (inst = true -> r = physical).
Proof.
  intros Ha Hp Hpa. unfold install_anonymous.
  destruct (vma_at (vmas (space s)) a) as [vma|] eqn:Ev; [|by intros [= <- <- <-]].
  destruct (VmaAllowsAccess vma access) eqn:Eal; cbn [negb]; [|by intros [= <- <- <-]].
  destruct (mapped _ a) eqn:Em.
  - intros [= <- <- <-]. destruct (PageAllowsAccess _ a access) as [q|] eqn:Eq; [|done].
    cbn. intros _. apply PageAllowsAccess_Some in Eq as [Hat Hl]. split; [|done].
    split_and!; [done|eauto|done].
  - destruct (_ || _); [by intros [= <- <- <-]|].
    destruct (pt_map _ _ _ _ _ _) as [[] pt] eqn:Emap; [|by intros [= <- <- <-]].
    intros [= <- <- <-] _. split; [|done]. split_and!; cbn.
    + rewrite (pt_at_map _ _ _ _ _ a Ha Hpa Ha Emap). by rewrite Z.eqb_refl.
    + eauto.
    + exists 0, (leaf_properties (vm_flags vma)). split; [|by apply leaf_allows_grants, leaf_allows_area].
      rewrite (pt_leaf_map _ _ _ _ _ a Ha Ha Emap). by rewrite Z.eqb_refl.
Qed.

Lemma release_space pa (s : State PT M W C) : space (release pa s).2 = space s.
Proof. unfold release. by destruct (ReleaseManagedPageMapping pa (manager s)). Qed.

(** The page manager takes page-aligned pages only. *)
Lemma adopt_aligned pa src (s s' : State PT M W C) :
  adopt new_page new_record make_owner pa src s = (true, s') -> pa mod PAGE_SIZE = 0.
Proof.
  unfold adopt, AdoptManagedPage. change (Z.land pa (PAGE_SIZE - 1)) with (page_offset pa).
  rewrite page_offset_mod. unfold PAGE_SIZE, truthy.
  destruct (pa mod 4096 =? 0) eqn:E; [lia|]. rewrite orb_true_r. by intros [= _].
Qed.


End EnsureSpec.

(** ** Reference accounting and copy-on-write, without interference *)

Section Accounting.
Context `{PagingConstants} {PT : Type} `{!PageTable PT} {M : Type} `{!Mempool M}
  {W C : Type} `{!FileBacking PT M W C} (zero_page : C).
Context (new_file new_page new_record : bool) (make_owner : Z -> PageManager M -> bool * PageManager M).
Context (Howner : forall pa m, make_owner pa m = (true, m)).
Implicit Types (s : State PT M W C) (m : gmap Z ManagedPage).

(** The pool returns page-aligned pages nobody manages. *)
Definition fresh_page (s : State PT M W C) (m : gmap Z ManagedPage) : Prop :=
  let p := (mp_allocate (pages (manager s)) PAGE_SIZE 12 0).1 in
  alloc_failed p = false -> p mod PAGE_SIZE = 0 /\ m !! p = None.

Definition tracks (s : State PT M W C) (m : gmap Z ManagedPage) : Prop :=
  manager_ok (manager s) /\ represents (manager s) m.

Lemma tracks_ext s s' m : buckets (manager s') = buckets (manager s) -> tracks s m -> tracks s' m.
Proof.
  intros Hb [Hok Hr]. unfold tracks, manager_ok, represents, FindManagedPageRecord, chain_of in *.
  rewrite Hb. done.
Qed.

Lemma valid_page_aligned p : valid_page p = true -> p mod PAGE_SIZE = 0.
Proof.
  unfold valid_page. change (Z.land p (PAGE_SIZE - 1)) with (page_offset p).
  rewrite page_offset_mod. unfold truthy, PAGE_SIZE. lia.
Qed.

Lemma allocate_page_tracks s m o s' : tracks s m -> fresh_page s m -> allocate_page s = (o, s') ->
  tracks s' m /\ space s' = space s /\ memory s' = memory s /\ cache s' = cache s /\
  forall p, o = Some p -> p <> 0 /\ valid_page p = true /\ m !! p = None.
Proof.
  intros Ht Hf. unfold allocate_page, fresh_page in *.
  destruct (mp_allocate _ _ _ _) as [q pl]. cbn [fst] in Hf.
  destruct (alloc_failed q) eqn:E; intros [= <- <-]; cbn.
  - split_and!; [by eapply tracks_ext; [|exact Ht]|done..].
  - destruct (Hf eq_refl) as [Hal Hn]. split_and!; [by eapply tracks_ext; [|exact Ht]|done..|].
    intros ? [= <-]. unfold alloc_failed in E. split_and!; [lia| |done].
    unfold valid_page. change (Z.land q (PAGE_SIZE - 1)) with (page_offset q).
    rewrite page_offset_mod. unfold PAGE_SIZE, truthy in *. rewrite Hal. cbn. lia.
Qed.

Lemma adopt_tracks pa src s m ok s' : tracks s m -> adopt new_page new_record make_owner pa src s = (ok, s') ->
  valid_page pa = true -> m !! pa = None ->
  space s' = space s /\ memory s' = memory s /\ cache s' = cache s /\
  tracks s' (if ok then <[pa := MkPage pa src 1 0]> m else m).
Proof.
  intros [Hok Hr] HA Hv Hn. unfold adopt in HA.
  pose proof (adopt_map make_owner new_page new_record pa src (manager s) m Hok Hr (Howner _ _)) as Hm.
  destruct (AdoptManagedPage _ _ _ _ _ _) as [b mm]. injection HA as <- <-. cbn.
  destruct Hm as (_ & ? & ? & _). done.
Qed.

Lemma release_tracks pa s m ok s' : tracks s m -> release pa s = (ok, s') ->
  space s' = space s /\ memory s' = memory s /\ cache s' = cache s /\
  ok = (spec_release pa false m).1.1 /\ tracks s' (spec_release pa false m).1.2.
Proof.
  intros [Hok Hr] HA. unfold release in HA.
  pose proof (release_map pa false (manager s) m Hok Hr) as Hm. unfold ReleaseManagedPageMapping in HA.
  destruct (ReleaseManagedPageReference _ _ _) as [b mm], (spec_release _ _ _) as [[b' m'] fr].
  injection HA as <- <-. cbn. destruct Hm as (-> & ? & ? & _). done.
Qed.

(** Releasing the only reference of a page that was just adopted. *)
Lemma release_adopted pa src m : m !! pa = None ->
  (spec_release pa false (<[pa := MkPage pa src 1 0]> m)).1 = (true, m).
Proof.
  intros Hn. unfold spec_release. rewrite lookup_insert_eq. cbn. by rewrite delete_insert_id.
Qed.

Context `{!PageMapLaws PT}.

Definition no_env : nat -> State PT M W C -> State PT M W C := fun _ s => s.

(** The page table, seen page by page. *)
Definition same_pages (pt pt' : PT) : Prop :=
  forall page, page mod PAGE_SIZE = 0 -> pt_at pt' page = pt_at pt page.


Context `{!PageStoreLaws PT}.

Lemma ReadPrivateCowPage_Some a s old props ty :
  ReadPrivateCowPage a s = Some (old, props, ty) ->
  pt_at (ptable (space s)) a = old /\ pt_leaf (ptable (space s)) a = Some (0, props) /\
  has props PGPROP_writable = false.
Proof.
  unfold ReadPrivateCowPage. destruct (vma_at _ _) as [vma|]; [|done]. destruct (_ || _); [done|].
  destruct (pt_leaf _ _) as [[level pr]|]; [|done]. destruct (_ || _) eqn:E; [done|].
  destruct (_ =? UMAX); [done|]. intros [= <- <- <-].
  apply orb_false_iff in E as [[[E1 _]%orb_false_iff _]%orb_false_iff E2].
  apply negb_false_iff, Z.eqb_eq in E1 as ->. done.
Qed.

(** The leaf at [a] now maps [p] with the write bit added; nothing else changed. *)
Definition made_writable (pt pt' : PT) (a p props : Z) : Prop :=
  forall page, page mod PAGE_SIZE = 0 ->
    pt_at pt' page = (if page =? a then p else pt_at pt page) /\
    pt_leaf pt' page = if page =? a then Some (0, Z.lor props PGPROP_writable) else pt_leaf pt page.

Lemma ReplacePrivateCowPage_spec a ty old props new s ok s' : a mod PAGE_SIZE = 0 ->
  ReplacePrivateCowPage a ty old props new s = (ok, s') ->
  manager s' = manager s /\ memory s' = memory s /\ vmas (space s') = vmas (space s) /\
  if ok then made_writable (ptable (space s)) (ptable (space s')) a new props else s' = s.
Proof.
  intros Ha. unfold ReplacePrivateCowPage. destruct (vma_at _ _) as [vma|]; [|by intros [= <- <-]].
  destruct (_ || _); [by intros [= <- <-]|].
  destruct (pt_leaf _ _) as [[level pr]|] eqn:El; [|by intros [= <- <-]].
  destruct (_ || _) eqn:E; [by intros [= <- <-]|].
  destruct (pt_setup_ok _ _ _) eqn:Es; cbn [negb]; [|by intros [= <- <-]]. intros [= <- <-]. cbn.
  apply orb_false_iff in E as [[E1 _]%orb_false_iff _]. apply negb_false_iff, Z.eqb_eq in E1 as ->.
  split_and!; [done..|]. intros page Hp. by rewrite pt_at_store, pt_leaf_store.
Qed.

(** The record of a page nobody else refers to. *)
Definition exclusive (m : gmap Z ManagedPage) (p : Z) : Prop :=
  exists page, m !! p = Some page /\ source page = Anonymous /\ mapping_refs page = 1 /\ cache_refs page = 0.

Lemma release_other old p m : old <> p ->
  (spec_release old false m).1.2 !! p = m !! p.
Proof.
  intros Hne. unfold spec_release. destruct (m !! old) as [q|]; [|done].
  destruct (_ =? 0); [done|]. destruct (unreferenced _); cbn.
  - by rewrite lookup_delete_ne.
  - by rewrite lookup_insert_ne.
Qed.

(** The outcome of a write fault on a private page. *)
Definition cow_done (a p : Z) (s s' : State PT M W C) (m : gmap Z ManagedPage) : Prop :=
  exists old props m', pt_at (ptable (space s)) a = old /\
    pt_leaf (ptable (space s)) a = Some (0, props) /\ has props PGPROP_writable = false /\
    made_writable (ptable (space s)) (ptable (space s')) a p props /\
    memory s' p = memory s old /\ (forall q, q <> p -> memory s' q = memory s q) /\
    tracks s' m' /\ exclusive m' p /\
    (p = old /\ m' = m \/
     m !! p = None /\ m' = (spec_release old false (<[p := MkPage p Anonymous 1 0]> m)).1.2).

(** The copying branch, from the allocation on. *)
Lemma cow_copy a s m old props ty page q s1 ok s2 : a mod PAGE_SIZE = 0 ->
  ReadPrivateCowPage a s = Some (old, props, ty) -> m !! old = Some page -> mapping_refs page <> 0 ->
  tracks s1 m -> space s1 = space s -> memory s1 = memory s ->
  q <> 0 -> valid_page q = true -> m !! q = None ->
  adopt new_page new_record make_owner q Anonymous (fill q (memory s1 old) s1) = (ok, s2) ->
  exists p s',
    (if ok then
       match ReplacePrivateCowPage a ty old props q s2 with
       | (false, s) => Some (0, (release q s).2)
       | (true, s) =>
         match release old (invalidate a s) with (false, _) => None | (true, s) => Some (q, s) end
       end
     else Some (0, s2)) = Some (p, s') /\ vmas (space s') = vmas (space s) /\
    (p = 0 -> tracks s' m /\ ptable (space s') = ptable (space s)) /\
    (p <> 0 -> cow_done a p s s' m).
Proof.
  intros Ha HR Hold Hmr Ht1 Hs1 Hm1 Hq0 Hqv Hqn Ead.
  assert (old <> q) as Hne by congruence.
  apply adopt_tracks with (m := m) in Ead as (Hs2 & Hm2 & _ & Ht2); [|by eapply tracks_ext; [|exact Ht1]|done..].
  cbn in Hs2, Hm2. destruct ok.
  2:{ do 2 eexists. split; [done|]. rewrite Hs2, Hs1. done. }
  destruct (ReplacePrivateCowPage a ty old props q s2) as [ok s3] eqn:ERp.
  apply ReplacePrivateCowPage_spec in ERp as (Hg3 & Hm3 & Hv3 & Hc3); [|done]. rewrite Hs2, Hs1 in Hv3.
  destruct ok.
  - destruct (release old (invalidate a s3)) as [ok4 s4] eqn:Erel.
    apply release_tracks with (m := <[q := MkPage q Anonymous 1 0]> m) in Erel
      as (Hs4 & Hm4 & _ & Hok4 & Ht4); [|eapply tracks_ext; [|exact Ht2]; cbn; by rewrite Hg3].
    assert (ok4 = true) as ->.
    { rewrite Hok4. unfold spec_release. rewrite lookup_insert_ne, Hold by done. cbn.
      rewrite (proj2 (Z.eqb_neq _ _)) by done. by destruct (unreferenced _). }
    do 2 eexists. split; [done|]. rewrite Hs4. cbn [space invalidate vmas]. split_and!; [done|done|].
    intros _. destruct (ReadPrivateCowPage_Some _ _ _ _ _ HR) as (Hat & Hlf & Hnw).
    rewrite Hs2, Hs1 in Hc3.
    exists old, props, (spec_release old false (<[q := MkPage q Anonymous 1 0]> m)).1.2. rewrite Hs4, Hm4. cbn [space memory invalidate ptable].
    split_and!; [done|done|done|exact Hc3| | |exact Ht4| |by right].
    + rewrite Hm3, Hm2, Z.eqb_refl. by rewrite Hm1.
    + intros r Hr. rewrite Hm3, Hm2, (proj2 (Z.eqb_neq _ _)), Hm1 by done. done.
    + eexists. rewrite release_other, lookup_insert_eq by done. done.
  - do 2 eexists. split; [done|]. rewrite release_space, Hc3, Hs2, Hs1.
    split_and!; [done| |done]. intros _. split; [|done].
    destruct (release q s2) as [ok4 s4] eqn:Erel.
    apply release_tracks with (m := <[q := MkPage q Anonymous 1 0]> m) in Erel as (_ & _ & _ & _ & Ht4); [|done].
    by rewrite release_adopted in Ht4.
Qed.


End Accounting.

(** ** User buffers *)

(** The leaves of all pages but [a] are the same. *)
Definition leaf_frame `{!PageTable PT} (a : Z) (pt pt' : PT) : Prop :=
  forall page, page mod PAGE_SIZE = 0 -> page <> a -> pt_leaf pt' page = pt_leaf pt page.

(** The file cache touches no leaf, except the one it is asked to map or make writable. *)
Class FileBackingFrame (PT M W C : Type) `{PageTable PT} `{FileBacking PT M W C} := {
  fb_flush_frame : forall s i o, ptable (space (fb_flush s i o).2) = ptable (space s);
  fb_acquire_frame : forall s i o, ptable (space (fb_acquire s i o).2) = ptable (space s);
  fb_map_shared_frame : forall s a access flags o i,
    leaf_frame a (ptable (space s)) (ptable (space (fb_map_shared s a access flags o i).2));
  fb_resolve_write_frame : forall s a,
    leaf_frame a (ptable (space s)) (ptable (space (fb_resolve_write s a).2));
}.

Section Buffers.
Context `{PagingConstants} {PT : Type} `{!PageTable PT} `{!PageMapLaws PT} `{!PageStoreLaws PT}
  {M : Type} `{!Mempool M} {W C : Type} `{!FileBacking PT M W C} `{!FileBackingFrame PT M W C} (zero_page : C).
Context (new_file new_page new_record : bool) (make_owner : Z -> PageManager M -> bool * PageManager M).
Implicit Types (s : State PT M W C).

Abbreviation frame a s s' := (leaf_frame a (ptable (space s)) (ptable (space s'))).

Lemma frame_refl a s : frame a s s.
Proof. by intros page _ _. Qed.

Lemma frame_same a s s' : space s' = space s -> frame a s s'.
Proof. intros ->. by intros page _ _. Qed.

Lemma frame_trans a s1 s2 s3 : frame a s1 s2 -> frame a s2 s3 -> frame a s1 s3.
Proof. intros H1 H2 page Hp Hne. by rewrite H2, H1. Qed.

Lemma frame_map a s pa props b pt : a mod PAGE_SIZE = 0 ->
  pt_map (ptable (space s)) a pa PAGE_SIZE PAGESIZE_4KB props = (b, pt) ->
  leaf_frame a (ptable (space s)) pt.
Proof.
  intros Ha Hm page Hp Hne. destruct b.
  - rewrite (pt_leaf_map _ _ _ _ _ page Ha Hp Hm). by rewrite (proj2 (Z.eqb_neq _ _)).
  - by apply (pt_map_failed _ _ _ _ _ page Hm).
Qed.

Lemma allocate_page_space s : space (allocate_page s).2 = space s.
Proof. unfold allocate_page. destruct (mp_allocate _ _ _ _). by destruct (alloc_failed _). Qed.

Lemma adopt_space pa src s : space (adopt new_page new_record make_owner pa src s).2 = space s.
Proof. unfold adopt. by destruct (AdoptManagedPage _ _ _ _ _ _). Qed.

Lemma install_cached_frame a access flags mode o i pa s : a mod PAGE_SIZE = 0 ->
  frame a s (install_cached a access flags mode o i pa s).2.
Proof.
  intros Ha. unfold install_cached. destruct (vma_at _ _); [|apply frame_refl].
  destruct (_ || _); [apply frame_refl|]. destruct (mapped _ _); [apply frame_refl|].
  destruct (pt_map _ _ _ _ _ _) as [[] pt] eqn:E; cbn; by eapply frame_map.
Qed.

Lemma install_anonymous_frame a access e pa s : a mod PAGE_SIZE = 0 ->
  frame a s (install_anonymous a access e pa s).2.
Proof.
  intros Ha. unfold install_anonymous. destruct (vma_at _ _); [|apply frame_refl].
  destruct (negb _); [apply frame_refl|]. destruct (mapped _ _); [apply frame_refl|].
  destruct (_ || _); [apply frame_refl|].
  destruct (pt_map _ _ _ _ _ _) as [[] pt] eqn:E; cbn; by eapply frame_map.
Qed.

Lemma MapCached_frame fuel a access flags mode o i s p s' : a mod PAGE_SIZE = 0 ->
  MapCachedFileVmaPage zero_page new_page new_record make_owner no_env fuel a access flags mode o i s
    = Some (p, s') -> frame a s s'.
Proof.
  intros Ha. revert s. induction fuel as [|fuel IH]; intros s; cbn [MapCachedFileVmaPage]; [done|].
  destruct (i =? 0); [intros [= <- <-]; apply frame_refl|].
  pose proof (fb_flush_frame s (fb_identity (cache s) i) o) as Hfl.
  destruct (fb_flush s _ o) as [[] s1]; cbn in Hfl; [|intros [= <- <-]; intros ? ? ?; by rewrite Hfl].
  pose proof (fb_acquire_frame s1 i o) as Hac.
  destruct (fb_acquire s1 i o) as [[[version cached]|] s2]; cbn in Hac;
    [|intros [= <- <-]; intros ? ? ?; by rewrite Hac, Hfl].
  set (got := if truthy cached then _ else _).
  assert (space got.2 = space s2) as Hgot.
  { unfold got. destruct (truthy cached); [done|]. pose proof (allocate_page_space s2) as Hal.
    destruct (allocate_page s2) as [[q|] s3]; cbn in Hal; [|done].
    pose proof (adopt_space q File (fill q zero_page s3)) as Had.
    destruct (adopt _ _ _ _ _ _) as [[] s4]; cbn in Had |- *; congruence. }
  assert (frame a s got.2) as Hfr by (intros ? ? ?; by rewrite Hgot, Hac, Hfl).
  destruct got as [[pa|] s3]; cbn in Hfr; [|by intros [= <- <-]]. unfold no_env.
  set (res := if negb (fb_version (cache s3) i =? version) then (0, false, s3) else _).
  assert (frame a s3 res.2) as Hres.
  { unfold res. destruct (negb _); [apply frame_refl|by apply install_cached_frame]. }
  destruct res as [[r inst] s4]. cbn in Hres.
  set (rel := if inst then (true, s4) else _).
  assert (space rel.2 = space s4) as Hrel by (unfold rel; destruct inst; [done|apply release_space]).
  destruct rel as [ok s5]. cbn in Hrel.
  assert (frame a s s5) as Hfin.
  { eapply frame_trans; [exact Hfr|]. eapply frame_trans; [exact Hres|]. by apply frame_same. }
  destruct ok; cbn; [|done]. destruct (negb _); [|by intros [= <- <-]].
  intros HR. eapply frame_trans; [exact Hfin|]. by apply IH.
Qed.

Lemma ensure_anonymous_frame a access v s : a mod PAGE_SIZE = 0 ->
  frame a s (ensure_anonymous zero_page new_page new_record make_owner no_env a access v s).2.
Proof.
  intros Ha. unfold ensure_anonymous, no_env. pose proof (allocate_page_space s) as Hal.
  destruct (allocate_page s) as [[q|] s1]; cbn in Hal; [|by apply frame_same].
  pose proof (adopt_space q Anonymous (fill q zero_page s1)) as Had.
  destruct (adopt _ _ _ _ _ _) as [[] s2]; cbn in Had; [|apply frame_same; cbn; congruence].
  pose proof (install_anonymous_frame a access v q s2 Ha) as Hin.
  destruct (install_anonymous _ _ _ _ _) as [[r inst] s3]; cbn in Hin |- *.
  eapply frame_trans; [apply frame_same; rewrite Had; exact Hal|].
  eapply frame_trans; [exact Hin|]. apply frame_same. destruct inst; [done|apply release_space].
Qed.

Lemma EnsureVmaPage_frame fuel address access s p s' :
  EnsureVmaPage zero_page new_file new_page new_record make_owner no_env fuel address access s = Some (p, s') ->
  frame (page_down address) s s'.
Proof.
  unfold EnsureVmaPage. pose proof (page_down_aligned address) as Ha. set (a := page_down address) in *.
  destruct (vma_at _ _) as [v|]; [|intros [= <- <-]; apply frame_refl].
  destruct (_ || _); [intros [= <- <-]; apply frame_refl|].
  destruct (mapped _ _); [intros [= <- <-]; apply frame_refl|].
  assert (forall e, Some (ensure_anonymous zero_page new_page new_record make_owner no_env a access e (no_env 1 s))
    = Some (p, s') -> frame a s s') as Hanon.
  { intros e [= HE]. pose proof (ensure_anonymous_frame a access e s Ha) as Hf.
    unfold no_env in HE at 2. by rewrite HE in Hf. }
  destruct (vm_type v); [apply Hanon| |apply Hanon].
  destruct (vfile v =? 0); [intros [= <- <-]; apply frame_refl|].
  unfold ensure_file. destruct (negb new_file); [intros [= <- <-]; apply frame_refl|].
  destruct (vma_at _ _) as [u|]; [|intros [= <- <-]; apply frame_refl].
  destruct (mapped _ _); [intros [= <- <-]; apply frame_refl|].
  destruct (_ || _); [intros [= <- <-]; apply frame_refl|].
  destruct (vm_mode v); [by apply MapCached_frame|].
  intros [= HE]. pose proof (fb_map_shared_frame (no_env 2 (no_env 1 s)) a access (vm_flags v)
    (a -w vm_start v +w file_offset v) (inode_of (no_env 1 s) (vfile u))) as Hf.
  rewrite HE in Hf. exact Hf.
Qed.

Lemma Replace_frame a ty old props new s : a mod PAGE_SIZE = 0 ->
  frame a s (ReplacePrivateCowPage a ty old props new s).2.
Proof.
  intros Ha. destruct (ReplacePrivateCowPage a ty old props new s) as [ok s'] eqn:E.
  apply ReplacePrivateCowPage_spec in E as (_ & _ & _ & Hc); [|done]. cbn. destruct ok.
  - intros page Hp Hne. destruct (Hc page Hp) as [_ ->]. by rewrite (proj2 (Z.eqb_neq _ _)).
  - subst. apply frame_refl.
Qed.

Lemma ResolvePrivateCow_frame copy_ok a s p s' : a mod PAGE_SIZE = 0 ->
  ResolvePrivateCowPage new_page new_record make_owner no_env copy_ok a s = Some (p, s') -> frame a s s'.
Proof.
  intros Ha. unfold ResolvePrivateCowPage, no_env.
  destruct (ReadPrivateCowPage a s) as [[[old props] ty]|]; [|intros [= <- <-]; apply frame_refl].
  destruct (QueryManagedPage _ _) as [page|]; [|intros [= <- <-]; apply frame_refl].
  destruct (_ || _); [intros [= <- <-]; apply frame_refl|]. destruct (sole_owner page).
  { pose proof (Replace_frame a ty old props old s Ha) as Hr.
    destruct (ReplacePrivateCowPage _ _ _ _ _ _) as [[] s1]; by intros [= <- <-]. }
  pose proof (allocate_page_space s) as Hal.
  destruct (allocate_page s) as [[q|] s1]; cbn in Hal; [|intros [= <- <-]; by apply frame_same].
  destruct copy_ok; cbn [negb]; [|intros [= <- <-]; by apply frame_same].
  pose proof (adopt_space q Anonymous (fill q (memory s1 old) s1)) as Had.
  destruct (adopt _ _ _ _ _ _) as [[] s2]; cbn in Had; [|intros [= <- <-]; apply frame_same; congruence].
  pose proof (Replace_frame a ty old props q s2 Ha) as Hr.
  assert (frame a s s2) as H2 by (apply frame_same; congruence).
  destruct (ReplacePrivateCowPage _ _ _ _ _ _) as [[] s3]; cbn in Hr.
  - pose proof (release_space old (invalidate a s3)) as Hrel.
    destruct (release old (invalidate a s3)) as [[] s4]; [|done]. intros [= <- <-].
    eapply frame_trans; [exact H2|]. intros g Hp Hne. cbn in Hrel. rewrite Hrel. by apply Hr.
  - intros [= <- <-]. eapply frame_trans; [exact H2|]. intros g Hp Hne.
    rewrite release_space. by apply Hr.
Qed.

(** One page of a buffer: the others keep their leaves, and success makes this one usable. *)
Lemma prepare_page_spec fuel copy_ok write page s ok s' : page mod PAGE_SIZE = 0 ->
  prepare_page zero_page new_file new_page new_record make_owner no_env fuel copy_ok write page s = Some (ok, s') ->
  frame page s s' /\ (ok = true -> user_leaf write (ptable (space s')) page = true).
Proof.
  intros Hp. unfold prepare_page.
  set (first := if mapped (ptable (space s)) page then _ else _).
  destruct first as [[resident s1]|] eqn:Ef; cbn [mbind option_bind]; [|done].
  assert (frame page s s1) as H1.
  { unfold first in Ef. destruct (mapped _ page); [injection Ef as <- <-; apply frame_refl|].
    destruct (EnsureVmaPage _ _ _ _ _ _ _ _ _ _) as [[p s2]|] eqn:EE; cbn in Ef; [|done].
    injection Ef as _ <-. apply EnsureVmaPage_frame in EE. rewrite page_down_sub in EE.
    unfold PAGE_SIZE in Hp. by rewrite Hp, Z.sub_0_r in EE. }
  destruct resident; cbn [negb]; [|by intros [= <- <-]].
  destruct (user_leaf false _ page) eqn:Eu; cbn [negb]; [|by intros [= <- <-]].
  destruct (write && negb (user_leaf true (ptable (space s1)) page)) eqn:Ew.
  - apply andb_true_iff in Ew as [-> _]. pose proof (fb_resolve_write_frame s1 page) as Hr.
    destruct (fb_resolve_write s1 page) as [sh s2]; cbn in Hr.
    assert (frame page s s2) as H2 by (eapply frame_trans; [exact H1|exact Hr]).
    destruct (truthy sh); cbn [mbind option_bind].
    + destruct (sh =? 0); intros [= <- <-]; done.
    + destruct (ResolvePrivateCowPage _ _ _ _ _ _ _) as [[p s3]|] eqn:ER; cbn [mbind option_bind]; [|done].
      apply ResolvePrivateCow_frame in ER; [|done].
      assert (frame page s s3) as H3 by (eapply frame_trans; [exact H2|exact ER]).
      destruct (p =? 0); by intros [= <- <-].
  - intros [= <- <-]. split; [done|]. intros _. destruct write; cbn in Ew; [|done].
    by apply negb_false_iff in Ew.
Qed.

Lemma prepare_pages_spec fuel copy_ok write pgs s s' :
  NoDup pgs -> Forall (fun page => page mod PAGE_SIZE = 0) pgs ->
  prepare_pages zero_page new_file new_page new_record make_owner no_env fuel copy_ok write pgs s = Some (true, s') ->
  (forall page, page ∈ pgs -> user_leaf write (ptable (space s')) page = true) /\
  (forall page, page mod PAGE_SIZE = 0 -> page ∉ pgs ->
     pt_leaf (ptable (space s')) page = pt_leaf (ptable (space s)) page).
Proof.
  revert s. induction pgs as [|page pgs IH]; intros s Hnd Hal; cbn [prepare_pages].
  { intros [= <-]. split; [by intros ? ?%elem_of_nil|done]. }
  apply NoDup_cons in Hnd as [Hni Hnd]. rewrite Forall_cons in Hal. destruct Hal as [Hp Hal].
  destruct (prepare_page _ _ _ _ _ _ _ _ _ page s) as [[[] s1]|] eqn:E; cbn [mbind option_bind]; [|done..].
  apply prepare_page_spec in E as [Hf Hu]; [|done]. intros HR. apply IH in HR as [Hall Hrest]; [|done..].
  split.
  - intros q [->|Hq]%elem_of_cons; [|by apply Hall]. unfold user_leaf in *. rewrite Hrest by done.
    by apply Hu.
  - intros q Hq [Hne Hni']%not_elem_of_cons. by rewrite Hrest, Hf.
Qed.

Lemma NoDup_pages_between b e : NoDup (pages_between b e).
Proof.
  unfold pages_between. apply NoDup_fmap; [|apply NoDup_seq].
  intros x y Hxy. unfold PAGE_SIZE in Hxy. lia.
Qed.


End Buffers.

(** ** Witnesses *)
Module FaultWitness.
Import Interfaces.Example.

#[local] Instance map_laws : PageMapLaws Table.
Proof.
  constructor; unfold PAGE_SIZE, pt_at, pt_leaf, pt_map, table;
    intros pt va pa props pt' page.
  - intros Hv Hpa Hp [= <-]. cbn [map_range Z.to_nat]. rewrite !page_down_sub, Hv, Hpa, !Z.sub_0_r.
    destruct (page =? va) eqn:E.
    + assert (page = va) as -> by lia. cbn -[lookup insert Z.div Z.modulo].
      rewrite lookup_insert_eq. lia.
    + cbn -[lookup insert Z.div Z.modulo]. by rewrite lookup_insert_ne by lia.
  - intros Hv Hp [= <-]. cbn [map_range Z.to_nat]. rewrite !page_down_sub, Hv, !Z.sub_0_r.
    destruct (page =? va) eqn:E.
    + assert (page = va) as -> by lia. cbn -[lookup insert Z.div Z.modulo].
      by rewrite lookup_insert_eq.
    + cbn -[lookup insert Z.div Z.modulo]. by rewrite lookup_insert_ne by lia.
  - done.
Qed.

(** No file is mapped. *)
#[local] Instance no_files : FileBacking Table Pool unit Z := {|
  fb_identity := fun _ i => i; fb_flush := fun s _ _ => (true, s); fb_acquire := fun s _ _ => (None, s);
  fb_version := fun _ _ => 0; fb_map_shared := fun s _ _ _ _ _ => (0, s);
  fb_resolve_write := fun s _ => (0, s) |}.

#[local] Instance no_files_frame : FileBackingFrame Table Pool unit Z.
Proof. by constructor. Qed.

Definition owner (pa : Z) (m : PageManager Pool) : bool * PageManager Pool := (true, m).

(** A writable anonymous area of two pages; its first page is resident, read-only, and shared with
    one other mapping. *)
Definition st : State Table Pool unit Z :=
  MkState
    (MkSpace [MkVma 0x1000 0x3000 7 false VirtualMemoryAreaType.Anonymous VirtualMemoryAreaMode.Private 0 0]
       (<[1 := (0x7000, 5)]> ∅) ∅ [])
    (MkManager (<[7%nat := [MkPage 0x7000 Anonymous 2 0]]> (replicate 256 [])) (MkPool 0x9000 0xF000 []))
    (fun p => p) tt.

Definition pages0 : gmap Z ManagedPage := {[0x7000 := MkPage 0x7000 Anonymous 2 0]}.

Lemma st_tracks : tracks st pages0.
Proof.
  split.
  - split; [done|]. intros i chain Hi. apply list_lookup_insert_Some in Hi as [(<- & <- & _)|[Hne Hi]].
    + split; [apply NoDup_singleton|]. apply Forall_singleton. unfold is_u64.
      split_and!; [reflexivity|cbn; lia..|reflexivity].
    + apply lookup_replicate_1 in Hi as [-> _]. split; constructor.
  - intros pa. unfold FindManagedPageRecord, chain_of. cbn [buckets manager st].
    destruct (decide (bucket_of pa = 7%nat)) as [E|E].
    + rewrite E, list_lookup_total_insert_eq by (rewrite length_replicate; lia).
      rewrite find_record_cons. cbn [physical_address]. unfold pages0. destruct (0x7000 =? pa) eqn:Ep.
      * apply Z.eqb_eq in Ep as <-. by rewrite lookup_singleton_eq.
      * by rewrite lookup_singleton_ne by lia.
    + rewrite list_lookup_total_insert_ne by done.
      rewrite list_lookup_total_alt.
      assert (replicate 256 ([] : list ManagedPage) !! bucket_of pa = Some []) as ->.
      { apply lookup_replicate_2. unfold bucket_of, managed_page_bucket_count. lia. }
      cbn. unfold pages0. rewrite lookup_singleton_ne; [done|]. intros <-. by vm_compute in E.
Qed.

Definition zero : Z := 0.





End FaultWitness.
