(* ===== verification/Sched.v ===== *)
(** * The scheduler ([mecocoa/schedul.cpp], [include/taskman.hpp])

    Threads are records on a heap, linked into 32 ready queues and 32 expired queues by their
    [queue_state_prev]/[queue_state_next] pointers; a bitmap per queue array tells which queues
    are not empty.  Queues 0-15 hold the real-time threads (priority -16 to -1), 16-31 the
    time-slice threads (priority 0 to 15), which move to the expired queues when their slice is
    used up, until an epoch swap brings them back.  A pointer is an address, 0 for null.  All
    operations run under [scheduler_lock]: they are sequential steps on this state.

    This file holds the state and the operations; [SchedProof] proves them. *)
From S2P Require Import Prelude.

Module State.
Inductive t := Running | Ready | Pended | Uninit | Exited | Hanging | Invalid.
#[global] Instance eq_dec : EqDecision t.
Proof. solve_decision. Defined.
End State.

Record ThreadBlock := MkThread {
  tid : Z;
  parent_process : Z;
  priority : Z;
  time_slice : Z;
  is_expired : bool;
  state : State.t;
  block_reason : Z;
  pending_wake : Z;
  queue_state_prev : Z;
  queue_state_next : Z;
  just_schedule : bool;
  processor_id : Z;
  is_detached : bool;
}.

Definition set_tid (x : Z) (t : ThreadBlock) : ThreadBlock :=
  MkThread x (parent_process t) (priority t) (time_slice t) (is_expired t) (state t) (block_reason t)
    (pending_wake t) (queue_state_prev t) (queue_state_next t) (just_schedule t) (processor_id t) (is_detached t).
Definition set_slice (x : Z) (t : ThreadBlock) : ThreadBlock :=
  MkThread (tid t) (parent_process t) (priority t) x (is_expired t) (state t) (block_reason t)
    (pending_wake t) (queue_state_prev t) (queue_state_next t) (just_schedule t) (processor_id t) (is_detached t).
Definition set_expired (x : bool) (t : ThreadBlock) : ThreadBlock :=
  MkThread (tid t) (parent_process t) (priority t) (time_slice t) x (state t) (block_reason t)
    (pending_wake t) (queue_state_prev t) (queue_state_next t) (just_schedule t) (processor_id t) (is_detached t).
Definition set_state (x : State.t) (t : ThreadBlock) : ThreadBlock :=
  MkThread (tid t) (parent_process t) (priority t) (time_slice t) (is_expired t) x (block_reason t)
    (pending_wake t) (queue_state_prev t) (queue_state_next t) (just_schedule t) (processor_id t) (is_detached t).
Definition set_reasons (br pw : Z) (t : ThreadBlock) : ThreadBlock :=
  MkThread (tid t) (parent_process t) (priority t) (time_slice t) (is_expired t) (state t) br
    pw (queue_state_prev t) (queue_state_next t) (just_schedule t) (processor_id t) (is_detached t).
Definition set_prev (x : Z) (t : ThreadBlock) : ThreadBlock :=
  MkThread (tid t) (parent_process t) (priority t) (time_slice t) (is_expired t) (state t) (block_reason t)
    (pending_wake t) x (queue_state_next t) (just_schedule t) (processor_id t) (is_detached t).
Definition set_next (x : Z) (t : ThreadBlock) : ThreadBlock :=
  MkThread (tid t) (parent_process t) (priority t) (time_slice t) (is_expired t) (state t) (block_reason t)
    (pending_wake t) (queue_state_prev t) x (just_schedule t) (processor_id t) (is_detached t).
Definition set_just (x : bool) (t : ThreadBlock) : ThreadBlock :=
  MkThread (tid t) (parent_process t) (priority t) (time_slice t) (is_expired t) (state t) (block_reason t)
    (pending_wake t) (queue_state_prev t) (queue_state_next t) x (processor_id t) (is_detached t).
Definition set_cpu (x : Z) (t : ThreadBlock) : ThreadBlock :=
  MkThread (tid t) (parent_process t) (priority t) (time_slice t) (is_expired t) (state t) (block_reason t)
    (pending_wake t) (queue_state_prev t) (queue_state_next t) (just_schedule t) x (is_detached t).

Definition no_thread : ThreadBlock :=
  MkThread 0 0 0 0 false State.Uninit 0 0 0 0 false 0 false.

Record ReadyQueue := MkQueue { head : Z; tail : Z }.
#[global] Instance ReadyQueue_inhabited : Inhabited ReadyQueue := populate (MkQueue 0 0).

Abbreviation Heap := (gmap Z ThreadBlock).

Record Sched := MkSched {
  heap : Heap;
  priority_queues : list ReadyQueue;
  expired_queues : list ReadyQueue;
  ready_bitmap : Z;
  expired_bitmap : Z;
  current_thread : list Z;
  idle_thread : list Z;
  switching_out_threads : list Z;
}.

Definition with_heap (h : Heap) (s : Sched) : Sched :=
  MkSched h (priority_queues s) (expired_queues s) (ready_bitmap s) (expired_bitmap s)
    (current_thread s) (idle_thread s) (switching_out_threads s).
Definition with_ready (h : Heap) (qs : list ReadyQueue) (b : Z) (s : Sched) : Sched :=
  MkSched h qs (expired_queues s) b (expired_bitmap s)
    (current_thread s) (idle_thread s) (switching_out_threads s).
Definition with_expired (h : Heap) (qs : list ReadyQueue) (b : Z) (s : Sched) : Sched :=
  MkSched h (priority_queues s) qs (ready_bitmap s) b
    (current_thread s) (idle_thread s) (switching_out_threads s).
Definition with_current (cpuid : nat) (th : Z) (s : Sched) : Sched :=
  MkSched (heap s) (priority_queues s) (expired_queues s) (ready_bitmap s) (expired_bitmap s)
    (<[cpuid := th]> (current_thread s)) (idle_thread s) (switching_out_threads s).
Definition with_switching (l : list Z) (s : Sched) : Sched :=
  MkSched (heap s) (priority_queues s) (expired_queues s) (ready_bitmap s) (expired_bitmap s)
    (current_thread s) (idle_thread s) l.

(** [p->...] reads, and [p->field = ...] writes. *)
Definition thread (s : Sched) (p : Z) : ThreadBlock := default no_thread (heap s !! p).
Definition upd (p : Z) (f : ThreadBlock -> ThreadBlock) (s : Sched) : Sched :=
  with_heap (alter f p (heap s)) s.

(** [idx = priority + 16], clamped to 0..31. *)
Definition queue_index (t : ThreadBlock) : nat :=
  Z.to_nat (Z.min 31 (Z.max 0 (priority t + 16))).

Definition runnable_state (x : State.t) : bool :=
  bool_decide (x = State.Ready) || bool_decide (x = State.Running).

Definition bit (idx : nat) : Z := Z.shiftl 1 (Z.of_nat idx).

(** ** The queues *)

(** Link a thread behind the tail of a queue. *)
Definition link_tail (pb : Z) (q : ReadyQueue) (h : Heap) : ReadyQueue * Heap :=
  let h := alter (set_next 0) pb h in
  if truthy (tail q) then
    (MkQueue (head q) pb, alter (set_prev (tail q)) pb (alter (set_next pb) (tail q) h))
  else (MkQueue pb pb, alter (set_prev 0) pb h).

(** The duplicate check: the thread has neighbours, or is the head of the queue. *)
Definition already_queued (t : ThreadBlock) (pb : Z) (q : ReadyQueue) : bool :=
  truthy (queue_state_next t) || truthy (queue_state_prev t) || (head q =? pb).

Definition EnqueueReady (pb : Z) (s : Sched) : Sched :=
  let t := thread s pb in
  if negb (runnable_state (state t)) then s else
  let idx := queue_index t in
  if already_queued t pb (priority_queues s !!! idx) then s else
  let '(q, h) := link_tail pb (priority_queues s !!! idx) (heap s) in
  with_ready h (<[idx := q]> (priority_queues s)) (Z.lor (ready_bitmap s) (bit idx)) s.

Definition EnqueueExpired (pb : Z) (s : Sched) : Sched :=
  let t := thread s pb in
  if negb (runnable_state (state t)) then s else
  let idx := queue_index t in
  if already_queued t pb (expired_queues s !!! idx) then s else
  let '(q, h) := link_tail pb (expired_queues s !!! idx) (alter (set_expired true) pb (heap s)) in
  with_expired h (<[idx := q]> (expired_queues s)) (Z.lor (expired_bitmap s) (bit idx)) s.

Definition clear_bit (b : Z) (idx : nat) : Z := Z.ldiff b (bit idx).

Definition DequeueReady (pb : Z) (s : Sched) : Sched :=
  let t := thread s pb in
  let idx := queue_index t in
  let rq := priority_queues s !!! idx in
  let eq := expired_queues s !!! idx in
  let next := queue_state_next t in
  let prev := queue_state_prev t in
  let '(in_active, in_expired, rq, eq) :=
    if head rq =? pb then (true, false, MkQueue next (tail rq), eq)
    else if head eq =? pb then (false, true, rq, MkQueue next (tail eq))
    else if tail rq =? pb then (true, false, rq, eq)
    else if tail eq =? pb then (false, true, rq, eq)
    else (false, false, rq, eq) in
  let h := heap s in
  let h := if truthy prev then alter (set_next next) prev h else h in
  let h := if truthy next then alter (set_prev prev) next h else h in
  let rq := if in_active && (tail rq =? pb) then MkQueue (head rq) prev else rq in
  let eq := if in_expired && (tail eq =? pb) then MkQueue (head eq) prev else eq in
  let h := alter (fun t => set_prev 0 (set_next 0 t)) pb h in
  let rb := if in_active && (head rq =? 0) then clear_bit (ready_bitmap s) idx else ready_bitmap s in
  let eb := if in_expired && (head eq =? 0) then clear_bit (expired_bitmap s) idx else expired_bitmap s in
  MkSched h (<[idx := rq]> (priority_queues s)) (<[idx := eq]> (expired_queues s)) rb eb
    (current_thread s) (idle_thread s) (switching_out_threads s).

(** ** Choosing a thread *)

(** The nodes [while (node) node = node->queue_state_next] visits; [None] when the fuel runs out or
    a link leaves the heap. *)
Fixpoint nodes (fuel : nat) (h : Heap) (p : Z) : option (list Z) :=
  if p =? 0 then Some [] else
  match fuel, h !! p with
  | S fuel, Some t => rest ← nodes fuel h (queue_state_next t); Some (p :: rest)
  | _, _ => None
  end.

(** Enough for any acyclic queue. *)
Definition walk (s : Sched) (p : Z) : option (list Z) := nodes (size (heap s)) (heap s) p.

(** One level of the epoch swap: the expired queue becomes the ready queue, and the threads on it
    lose their expired mark. *)
Definition swap_level (o : option Sched) (i : nat) : option Sched :=
  s ← o;
  let q := expired_queues s !!! i in
  let s := with_ready (heap s) (<[i := q]> (priority_queues s)) (ready_bitmap s) s in
  let s := with_expired (heap s) (<[i := MkQueue 0 0]> (expired_queues s)) (expired_bitmap s) s in
  l ← walk s (head q);
  Some (with_heap (foldl (fun h p => alter (set_expired false) p h) (heap s) l) s).

Definition time_slice_mask : Z := 0xFFFF0000.

Definition epoch_swap (s : Sched) : option Sched :=
  s' ← foldl swap_level (Some s) (seq 16 16);
  Some (MkSched (heap s') (priority_queues s') (expired_queues s')
    (Z.lor (ready_bitmap s') (Z.land (expired_bitmap s') time_slice_mask))
    (Z.land (expired_bitmap s') 0x0000FFFF)
    (current_thread s') (idle_thread s') (switching_out_threads s')).

(** [__builtin_ctz] on a bitmap that is not zero. *)
Definition ctz (b : Z) : option nat := List.find (fun i => Z.testbit b (Z.of_nat i)) (seq 0 32).

(** The thread may be taken by this processor. *)
Definition eligible (s : Sched) (cpuid : nat) (node : Z) : bool :=
  let t := thread s node in
  negb (just_schedule t) && negb (bool_decide (state t = State.Running)) &&
  negb (existsb (fun c => negb (c =? cpuid)%nat && (current_thread s !!! c =? node))
         (seq 0 (length (current_thread s)))).

(** [while (original_bitmap)]: the first eligible thread of the lowest level that has one. *)
Fixpoint scan_levels (fuel : nat) (s : Sched) (cpuid : nat) (bitmap : Z) : option (option Z) :=
  match fuel, ctz bitmap with
  | S fuel, Some idx =>
    l ← walk s (head (priority_queues s !!! idx));
    match List.find (eligible s cpuid) l with
    | Some node => Some (Some node)
    | None => scan_levels fuel s cpuid (clear_bit bitmap idx)
    end
  | _, _ => Some None
  end.

(** Clear the first switching-out entry that holds the thread. *)
Fixpoint clear_switching (node : Z) (l : list Z) : list Z :=
  match l with
  | [] => []
  | th :: rest => if th =? node then 0 :: rest else th :: clear_switching node rest
  end.

(** [None] is a broken queue; else the thread, 0 for none. *)
Definition PickNext (cpuid : nat) (s : Sched) : option (Z * Sched) :=
  s ← (if (Z.land (ready_bitmap s) time_slice_mask =? 0)
          && truthy (Z.land (expired_bitmap s) time_slice_mask)
       then epoch_swap s else Some s);
  if ready_bitmap s =? 0 then Some (0, s) else
  r ← scan_levels 32 s cpuid (ready_bitmap s);
  match r with
  | None => Some (0, s)
  | Some node => Some (node, with_switching (clear_switching node (switching_out_threads s)) s)
  end.

(** ** Blocking and waking *)

Definition BR_Lock : Z := 32.

Definition Block (th reason : Z) (s : Sched) : Sched :=
  let s := DequeueReady th s in
  let t := thread s th in
  if truthy (Z.land (pending_wake t) reason) then
    upd th (set_reasons (Z.ldiff (block_reason t) reason) (Z.ldiff (pending_wake t) reason)) s
  else
    upd th (fun t => set_reasons (Z.lor (block_reason t) reason) (pending_wake t)
                       (set_state State.Pended t)) s.

Definition UnblockThreadLocked (th reason : Z) (s : Sched) : Sched :=
  let s := upd th (fun t => set_reasons (Z.ldiff (block_reason t) reason) (pending_wake t) t) s in
  let t := thread s th in
  if negb (block_reason t =? 0) then s
  else match state t with
  | State.Running => upd th (set_reasons (block_reason t) (Z.lor (pending_wake t) reason)) s
  | State.Ready => s
  | _ =>
    let s := upd th (set_state State.Ready) s in
    if is_expired t then EnqueueExpired th s else EnqueueReady th s
  end.

Definition Unblock (th reason : Z) (s : Sched) : Sched := UnblockThreadLocked th reason s.

(** [UnblockThread(tid, reason)] over the thread chain. *)
Fixpoint UnblockThread (thchain : list Z) (id reason : Z) (s : Sched) : bool * Sched :=
  match thchain with
  | [] => (false, s)
  | th :: rest =>
    let t := thread s th in
    if negb (tid t =? id) then UnblockThread rest id reason s
    else if bool_decide (state t = State.Exited) || bool_decide (state t = State.Invalid) then (false, s)
    else if negb (truthy (Z.land (block_reason t) reason)) then (false, s)
    else (true, UnblockThreadLocked th reason s)
  end.

(** The end of [AppendThread]: a new thread becomes ready. *)
Definition append_ready (th : Z) (s : Sched) : Sched :=
  EnqueueReady th (upd th (set_state State.Ready) s).

(** ** Switching *)

(** The start of [AP_Main]: an application processor takes its idle thread; [None] halts it. *)
Definition AP_Main (core_id : nat) (s : Sched) : option Sched :=
  let idle := idle_thread s !!! core_id in
  if idle =? 0 then None
  else Some (with_current core_id idle
    (upd idle (set_state State.Running) (upd idle (set_cpu (Z.of_nat core_id)) s))).

(** [ifContinueProcess]: whether the thread keeps the processor. *)
Definition ifContinueProcess (old : Z) (s : Sched) : bool * Sched :=
  let t := thread s old in
  if bool_decide (state t = State.Running) then
    if 0 <? time_slice t then (true, upd old (set_slice (time_slice t - 1)) s)
    else
      let s := upd old (set_state State.Ready) (DequeueReady old s) in
      if 0 <=? priority t
      then (false, upd old (set_slice ((3 - Z.shiftr (priority t) 2) mod 2 ^ 8)) (EnqueueExpired old s))
      else (false, upd old (set_slice 4) (EnqueueReady old s))
  else (false, s).

(** What a scheduling step ends in. *)
Inductive Outcome :=
  | NoCurrentTask
  | Continue
  | SpinWithoutIdle
  | FatalState (th : Z)
  | Switch (old new : Z).

Section Switching.
(** [DestroyThread] belongs to the task manager. *)
Context (DestroyThread : Z -> Sched -> Sched).

Definition SettleSwitchingOutThread (cpuid : nat) (s : Sched) : Sched :=
  let th := switching_out_threads s !!! cpuid in
  if th =? 0 then s
  else
    let t := thread s th in
    let s := if bool_decide (state t = State.Hanging) && is_detached t then DestroyThread th s else s in
    let s := upd th (set_just false) s in
    with_switching (<[cpuid := 0]> (switching_out_threads s)) s.

(** The part of [Schedule] that gives the old thread up: [None] when it keeps the processor. *)
Definition yield_old (omit_slice : bool) (cpuid : nat) (old : Z) (s : Sched) : option Sched :=
  let is_idle := idle_thread s !!! cpuid =? old in
  if negb omit_slice then
    if negb is_idle then
      let '(continue, s) := ifContinueProcess old s in
      if continue : bool then None else Some s
    else if (ready_bitmap s =? 0) && (expired_bitmap s =? 0) then None else Some s
  else
    match state (thread s old) with
    | State.Pended | State.Hanging | State.Invalid => Some s
    | st =>
      if negb is_idle then
        let s := upd old (set_state State.Ready) (DequeueReady old s) in
        Some (if runnable_state st then EnqueueExpired old s else s)
      else Some (upd old (set_state State.Ready) s)
    end.

(** The state after [yield_old] said the thread keeps the processor. *)
Definition keep_old (omit_slice : bool) (cpuid : nat) (old : Z) (s : Sched) : Sched :=
  if negb omit_slice && negb (idle_thread s !!! cpuid =? old) then (ifContinueProcess old s).2 else s.

(** The switch to another thread. *)
Definition switch_to (cpuid : nat) (old new : Z) (s : Sched) : Outcome * Sched :=
  let s := if idle_thread s !!! cpuid =? new then s else DequeueReady new s in
  let s := if bool_decide (state (thread s new) = State.Uninit)
           then upd new (set_state State.Ready) s else s in
  if bool_decide (state (thread s new) = State.Ready) then
    let s := if bool_decide (state (thread s old) = State.Running)
             then upd old (set_state State.Ready) s else s in
    let s := upd new (set_state State.Running) s in
    let s := with_current cpuid new s in
    let s := upd new (set_cpu (Z.of_nat cpuid)) s in
    let s := upd old (set_just true) s in
    (Switch old new, with_switching (<[cpuid := old]> (switching_out_threads s)) s)
  else (FatalState new, s).

Definition Schedule (omit_slice : bool) (cpuid : nat) (s : Sched) : option (Outcome * Sched) :=
  let s := SettleSwitchingOutThread cpuid s in
  let old := current_thread s !!! cpuid in
  if old =? 0 then Some (NoCurrentTask, s) else
  match yield_old omit_slice cpuid old s with
  | None => Some (Continue, keep_old omit_slice cpuid old s)
  | Some s =>
    '(picked, s) ← PickNext cpuid s;
    let new := if truthy picked then picked
               else if runnable_state (state (thread s old)) then old
               else idle_thread s !!! cpuid in
    if new =? 0 then Some (SpinWithoutIdle, s)
    else if new =? old then
      let s := if bool_decide (state (thread s old) = State.Ready)
               then upd old (set_state State.Running) s else s in
      let s := DequeueReady old s in
      Some (Continue, upd old (set_cpu (Z.of_nat cpuid)) s)
    else Some (switch_to cpuid old new s)
  end.

(** [SleepAndRelease(lk)]: the current thread, already blocked, gives the processor up; [release]
    is [lk->Release(false)]. *)
Definition SleepAndRelease (release : Sched -> Sched) (cpuid : nat) (s : Sched)
  : option (Outcome * Sched) :=
  let old := current_thread s !!! cpuid in
  let s := SettleSwitchingOutThread cpuid s in
  let s := release (DequeueReady old s) in
  '(picked, s) ← PickNext cpuid s;
  let new := if truthy picked then picked else idle_thread s !!! cpuid in
  if new =? 0 then Some (SpinWithoutIdle, s)
  else
    let s := with_current cpuid new s in
    let s := upd new (set_cpu (Z.of_nat cpuid)) s in
    let s := if idle_thread s !!! cpuid =? new then s else DequeueReady new s in
    let s := upd new (set_state State.Running) s in
    let s := upd old (set_just true) s in
    Some (Switch old new, with_switching (<[cpuid := old]> (switching_out_threads s)) s).

End Switching.
