(* ===== verification/SchedProof.v ===== *)
(** * Correctness of the scheduler

    The abstract state of a queue is the list of its threads.  The invariant says that the pointer
    structure represents 32 ready lists and 32 expired lists ([rq], [eq]): every queue is a proper
    doubly linked list, the bitmaps tell which lists are empty, a thread is on at most one list, at
    the level of its priority and in state [Ready], and threads on no list have null links. *)
From S2P Require Import Prelude Sched.

Definition hdz (d : Z) (l : list Z) : Z := match l with [] => d | p :: _ => p end.
Definition lastz (d : Z) (l : list Z) : Z := default d (last l).

(** The links of a thread, and everything but the links. *)
Definition links (h : Heap) (p : Z) : option (Z * Z) :=
  (fun t => (queue_state_prev t, queue_state_next t)) <$> h !! p.
Definition core (t : ThreadBlock) : ThreadBlock := set_prev 0 (set_next 0 t).
Definition cores (h : Heap) (p : Z) : option ThreadBlock := core <$> h !! p.

(** A doubly linked segment. *)
Fixpoint dseg (h : Heap) (prev : Z) (l : list Z) (nxt : Z) : Prop :=
  match l with
  | [] => True
  | p :: rest => p <> 0 /\ links h p = Some (prev, hdz nxt rest) /\ dseg h p rest nxt
  end.

Definition queue_rep (h : Heap) (q : ReadyQueue) (l : list Z) : Prop :=
  head q = hdz 0 l /\ tail q = lastz 0 l /\ dseg h 0 l 0 /\ NoDup l.

(** ** Segments *)

Lemma hdz_app d l1 l2 : hdz d (l1 ++ l2) = hdz (hdz d l2) l1.
Proof. by destruct l1. Qed.

Lemma lastz_snoc d l x : lastz d (l ++ [x]) = x.
Proof. unfold lastz. by rewrite last_snoc. Qed.

Lemma lastz_cons d p l : lastz d (p :: l) = lastz p l.
Proof. unfold lastz. rewrite last_cons. by destruct (last l). Qed.

Lemma lastz_app d l1 l2 : lastz d (l1 ++ l2) = lastz (lastz d l1) l2.
Proof.
  unfold lastz. rewrite last_app. by destruct (last l2).
Qed.

Lemma dseg_app h prev l1 l2 nxt :
  dseg h prev (l1 ++ l2) nxt <-> dseg h prev l1 (hdz nxt l2) /\ dseg h (lastz prev l1) l2 nxt.
Proof.
  revert prev. induction l1 as [|p l1 IH]; intros prev; cbn [app dseg]; [by split; [|intros [_ ?]]|].
  rewrite IH, hdz_app, lastz_cons. tauto.
Qed.

Lemma dseg_ext h h' prev l nxt : (forall p, p ∈ l -> links h' p = links h p) ->
  dseg h prev l nxt -> dseg h' prev l nxt.
Proof.
  revert prev. induction l as [|p l IH]; intros prev He; cbn [dseg]; [done|].
  intros (? & ? & ?). split_and!; [done|by rewrite He by (by left)|].
  apply IH; [|done]. intros q Hq. apply He. by right.
Qed.

Lemma dseg_nonzero h prev l nxt p : dseg h prev l nxt -> p ∈ l -> p <> 0 /\ is_Some (h !! p).
Proof.
  revert prev. induction l as [|q l IH]; intros prev; cbn [dseg]; [by intros _ ?%elem_of_nil|].
  intros (? & Hl & ?) [->|Hp]%elem_of_cons; [|by eapply IH].
  split; [done|]. unfold links in Hl. destruct (h !! q); [by eexists|done].
Qed.

(** ** Heap updates *)

Lemma links_alter_other f p h q : q <> p -> links (alter f p h) q = links h q.
Proof. intros. unfold links. by rewrite lookup_alter_ne. Qed.

Lemma links_alter f p h : (forall t, queue_state_prev (f t) = queue_state_prev t /\
    queue_state_next (f t) = queue_state_next t) ->
  forall q, links (alter f p h) q = links h q.
Proof.
  intros Hf q. destruct (decide (q = p)) as [->|]; [|by apply links_alter_other].
  unfold links. rewrite lookup_alter_eq. destruct (h !! p) as [t|]; [|done]. cbn.
  by destruct (Hf t) as [-> ->].
Qed.

Lemma links_set_next x p h : links (alter (set_next x) p h) p = (fun l => (l.1, x)) <$> links h p.
Proof. unfold links. rewrite lookup_alter_eq. by destruct (h !! p). Qed.
Lemma links_set_prev x p h : links (alter (set_prev x) p h) p = (fun l => (x, l.2)) <$> links h p.
Proof. unfold links. rewrite lookup_alter_eq. by destruct (h !! p). Qed.

Lemma cores_alter f p h : (forall t, core (f t) = core t) -> forall q, cores (alter f p h) q = cores h q.
Proof.
  intros Hf q. unfold cores. destruct (decide (q = p)) as [->|].
  - rewrite lookup_alter_eq. destruct (h !! p); [|done]. cbn. by rewrite Hf.
  - by rewrite lookup_alter_ne.
Qed.

(** Change the [next] of the last node of a segment, or the [prev] of its first. *)
Lemma dseg_set_last h prev l p nxt x : NoDup (l ++ [p]) -> dseg h prev (l ++ [p]) nxt ->
  dseg (alter (set_next x) p h) prev (l ++ [p]) x.
Proof.
  rewrite NoDup_app. intros (_ & Hni & _). rewrite !dseg_app. cbn [dseg hdz].
  intros (Hl & ? & Hp & _). split_and!; [|done| |done].
  - eapply dseg_ext; [|exact Hl]. intros q Hq. apply links_alter_other.
    intros ->. by apply (Hni p Hq), list_elem_of_singleton.
  - rewrite links_set_next, Hp. done.
Qed.

Lemma dseg_set_first h prev p l nxt x : NoDup (p :: l) -> dseg h prev (p :: l) nxt ->
  dseg (alter (set_prev x) p h) x (p :: l) nxt.
Proof.
  rewrite NoDup_cons. intros [Hni _]. cbn [dseg]. intros (? & Hp & Hl). split_and!; [done| |].
  - by rewrite links_set_prev, Hp.
  - eapply dseg_ext; [|exact Hl]. intros q Hq. apply links_alter_other. by intros ->.
Qed.

(** *** Appending *)

Lemma link_tail_spec pb q h l q' h' :
  queue_rep h q l -> pb ∉ l -> pb <> 0 -> is_Some (h !! pb) -> link_tail pb q h = (q', h') ->
  queue_rep h' q' (l ++ [pb]) /\
  (forall p, p <> pb -> p ∉ l -> links h' p = links h p) /\ (forall p, cores h' p = cores h p).
Proof.
  intros (Hh & Ht & Hd & Hnd) Hni Hpb [t Hs]. unfold link_tail. rewrite Hh, Ht.
  assert (NoDup (l ++ [pb])) as Hnd'.
  { apply NoDup_app. split_and!; [done| |apply NoDup_singleton]. intros p Hp ->%list_elem_of_singleton. done. }
  destruct l as [|x l _] using rev_ind.
  - cbn. intros [= <- <-]. split_and!.
    + split_and!; [done|done| |done]. cbn. split_and!; [done| |done].
      rewrite links_set_prev, links_set_next. unfold links. by rewrite Hs.
    + intros p Hp _. by rewrite !links_alter_other.
    + intros p. by rewrite !cores_alter.
  - rewrite lastz_snoc. assert (x <> 0) as Hx.
    { eapply dseg_nonzero; [exact Hd|]. set_solver. }
    unfold truthy. rewrite (proj2 (Z.eqb_neq _ _) Hx). cbn [negb]. intros [= <- <-].
    assert (x <> pb) as Hxp by set_solver. split_and!.
    + split_and!; cbn [head tail]; [by rewrite !hdz_app; destruct l|by rewrite lastz_snoc| |done].
      rewrite dseg_app. cbn [hdz dseg]. rewrite lastz_snoc. split_and!; [|done| |done].
      * eapply dseg_ext, (dseg_set_last h 0 l x 0 pb); [|done|done].
        intros p Hp. destruct (decide (p = pb)) as [->|]; [done|].
        rewrite links_alter_other by done. destruct (decide (p = x)) as [->|].
        -- rewrite !links_set_next, links_alter_other by done. done.
        -- by rewrite !links_alter_other.
      * rewrite links_set_prev, links_alter_other, links_set_next by done. unfold links. by rewrite Hs.
    + intros p Hp Hpl. rewrite !links_alter_other; [done|done|set_solver|done].
    + intros p. by rewrite !cores_alter.
Qed.

(** *** Unlinking *)

Definition unlink (pb prev next : Z) (h : Heap) : Heap :=
  let h := if truthy prev then alter (set_next next) prev h else h in
  let h := if truthy next then alter (set_prev prev) next h else h in
  alter (fun t => set_prev 0 (set_next 0 t)) pb h.

Lemma unlink_spec h l1 pb l2 : dseg h 0 (l1 ++ pb :: l2) 0 -> NoDup (l1 ++ pb :: l2) ->
  let h' := unlink pb (lastz 0 l1) (hdz 0 l2) h in
  dseg h' 0 (l1 ++ l2) 0 /\ links h' pb = Some (0, 0) /\
  (forall p, p ∉ l1 ++ pb :: l2 -> links h' p = links h p) /\ (forall p, cores h' p = cores h p).
Proof.
  intros Hd Hnd h'. pose proof Hd as (Hd1 & Hpb & Hl & Hd2)%dseg_app. cbn [hdz] in Hd1.
  apply NoDup_app in Hnd as (Hn1 & Hsep & (Hni & Hn2)%NoDup_cons).
  assert (pb ∉ l1) as Hni1 by (intros Hi; apply (Hsep pb Hi); by left).
  assert (forall p, p ∈ l1 -> p ∉ l2) as Hsep2 by (intros p Hp Hp2; apply (Hsep p Hp); by right).
  assert (forall p, p ∈ l1 ++ l2 -> p <> 0) as Hnz.
  { intros p Hp. eapply dseg_nonzero; [exact Hd|]. set_solver. }
  (* First the left part, then the right part, then the node itself. *)
  set (h1 := if truthy (lastz 0 l1) then alter (set_next (hdz 0 l2)) (lastz 0 l1) h else h).
  assert (dseg h1 0 l1 (hdz 0 l2) /\ dseg h1 pb l2 0 /\ links h1 pb = links h pb /\
    (forall p, p ∉ l1 -> links h1 p = links h p) /\ (forall p, cores h1 p = cores h p)) as (D1 & D2 & Lp & Lo & C1).
  { unfold h1. destruct l1 as [|x l1 _] using rev_ind; [done|]. rewrite lastz_snoc.
    unfold truthy. rewrite (proj2 (Z.eqb_neq x 0)) by (apply Hnz; set_solver). cbn [negb]. split_and!.
    - by apply dseg_set_last with pb.
    - eapply dseg_ext; [|exact Hd2]. intros p Hp. apply links_alter_other. intros ->.
      apply (Hsep2 x); [set_solver|done].
    - apply links_alter_other. set_solver.
    - intros p Hp. apply links_alter_other. set_solver.
    - intros p. by rewrite cores_alter. }
  set (h2 := if truthy (hdz 0 l2) then alter (set_prev (lastz 0 l1)) (hdz 0 l2) h1 else h1).
  assert (dseg h2 0 l1 (hdz 0 l2) /\ dseg h2 (lastz 0 l1) l2 0 /\ links h2 pb = links h1 pb /\
    (forall p, p ∉ l2 -> links h2 p = links h1 p) /\ (forall p, cores h2 p = cores h1 p)) as (D3 & D4 & Lp2 & Lo2 & C2).
  { unfold h2. destruct l2 as [|y l2]; [done|]. cbn [hdz].
    unfold truthy. rewrite (proj2 (Z.eqb_neq y 0)) by (apply Hnz; set_solver). cbn [negb]. split_and!.
    - eapply dseg_ext; [|exact D1]. intros p Hp. apply links_alter_other. intros ->.
      apply (Hsep2 y Hp). by left.
    - by apply dseg_set_first with pb.
    - apply links_alter_other. set_solver.
    - intros p Hp. apply links_alter_other. set_solver.
    - intros p. by rewrite cores_alter. }
  assert (h' = alter (fun t => set_prev 0 (set_next 0 t)) pb h2) as -> by done.
  split_and!.
  - apply dseg_app. split; (eapply dseg_ext; [|eassumption]); intros p Hp; apply links_alter_other; by intros ->.
  - assert (links h2 pb = Some (lastz 0 l1, hdz 0 l2)) as E by congruence.
    unfold links in E |- *. rewrite lookup_alter_eq. by destruct (h2 !! pb).
  - intros p Hp. rewrite elem_of_app, elem_of_cons in Hp. rewrite links_alter_other by tauto.
    rewrite Lo2, Lo; [done|tauto|tauto].
  - intros p. rewrite cores_alter by done. by rewrite C2, C1.
Qed.

(** Reduce the projections of the scheduler state. *)
Ltac sred :=
  cbn [heap priority_queues expired_queues ready_bitmap expired_bitmap current_thread idle_thread
       switching_out_threads with_heap with_ready with_expired with_current with_switching upd].

(** ** The invariant *)

Record Inv (s : Sched) (rq eq : nat -> list Z) : Prop := {
  inv_len_r : length (priority_queues s) = 32%nat;
  inv_len_e : length (expired_queues s) = 32%nat;
  inv_r : forall i, (i < 32)%nat -> queue_rep (heap s) (priority_queues s !!! i) (rq i);
  inv_e : forall i, (i < 32)%nat -> queue_rep (heap s) (expired_queues s !!! i) (eq i);
  inv_home : forall i p, (i < 32)%nat -> p ∈ rq i \/ p ∈ eq i ->
    queue_index (thread s p) = i /\ state (thread s p) = State.Ready;
  inv_disj : forall i p, (i < 32)%nat -> p ∈ rq i -> p ∈ eq i -> False;
  inv_rbit : forall i, (i < 32)%nat ->
    Z.testbit (ready_bitmap s) (Z.of_nat i) = negb (bool_decide (rq i = []));
  inv_ebit : forall i, (i < 32)%nat ->
    Z.testbit (expired_bitmap s) (Z.of_nat i) = negb (bool_decide (eq i = []));
  inv_range : 0 <= ready_bitmap s < 2 ^ 32 /\ 0 <= expired_bitmap s < 2 ^ 32;
  inv_free : forall p, is_Some (heap s !! p) ->
    (forall i, (i < 32)%nat -> p ∉ rq i /\ p ∉ eq i) -> links (heap s) p = Some (0, 0);
}.

(** The thread is on one of the lists. *)
Definition queued (rq eq : nat -> list Z) (p : Z) : Prop :=
  exists i, (i < 32)%nat /\ (p ∈ rq i \/ p ∈ eq i).

Definition upd_q (g : nat -> list Z) (i : nat) (l : list Z) : nat -> list Z :=
  fun j => if (j =? i)%nat then l else g j.

Definition remove_q (pb : Z) (g : nat -> list Z) : nat -> list Z :=
  fun j => filter (fun p => p <> pb) (g j).

Lemma queue_index_lt t : (queue_index t < 32)%nat.
Proof. unfold queue_index. lia. Qed.

Lemma core_thread s s' p : cores (heap s') p = cores (heap s) p -> core (thread s' p) = core (thread s p).
Proof.
  unfold cores, thread. destruct (heap s' !! p), (heap s !! p); cbn; intros; congruence.
Qed.

Lemma core_fields t t' : core t = core t' ->
  queue_index t = queue_index t' /\ state t = state t' /\ just_schedule t = just_schedule t' /\
  priority t = priority t' /\ is_expired t = is_expired t'.
Proof. intros [= ]. unfold queue_index. split_and!; congruence. Qed.

Lemma thread_alter s f p q : is_Some (heap s !! p) ->
  thread (upd p f s) q = if q =? p then f (thread s p) else thread s q.
Proof.
  intros [t Ht]. unfold thread, upd. cbn. destruct (q =? p) eqn:E.
  - apply Z.eqb_eq in E as ->. by rewrite lookup_alter_eq, Ht.
  - apply Z.eqb_neq in E. by rewrite lookup_alter_ne by done.
Qed.

Lemma thread_alter_other s f p q : q <> p -> thread (upd p f s) q = thread s q.
Proof. intros. unfold thread, upd. cbn. by rewrite lookup_alter_ne. Qed.

Lemma is_Some_alter (h : Heap) f p q : is_Some (alter f p h !! q) <-> is_Some (h !! q).
Proof.
  destruct (decide (q = p)) as [->|]; [|by rewrite lookup_alter_ne].
  rewrite lookup_alter_eq. destruct (h !! p); cbn; split; intros []; eauto; done.
Qed.

Lemma is_Some_links h p : is_Some (h !! p) <-> is_Some (links h p).
Proof. unfold links. destruct (h !! p); cbn; split; intros []; eauto; done. Qed.

(** *** Changes that leave the queues alone *)

Lemma queue_rep_ext h h' q l : (forall p, p ∈ l -> links h' p = links h p) ->
  queue_rep h q l -> queue_rep h' q l.
Proof. intros He (? & ? & ? & ?). split_and!; try done. by eapply dseg_ext. Qed.

(** The queues see only the links, the level and the state. *)
Lemma Inv_heap s rq eq h : Inv s rq eq ->
  (forall p, links h p = links (heap s) p) ->
  (forall p, queued rq eq p -> queue_index (thread (with_heap h s) p) = queue_index (thread s p) /\
     state (thread (with_heap h s) p) = state (thread s p)) ->
  Inv (with_heap h s) rq eq.
Proof.
  intros I Hl Ht. constructor; try apply I.
  - intros i Hi. eapply queue_rep_ext; [|by apply I]. auto.
  - intros i Hi. eapply queue_rep_ext; [|by apply I]. auto.
  - intros i p Hi Hp. destruct (Ht p) as [-> ->]; [by exists i|]. by apply I.
  - intros p Hp Hf. cbn. rewrite Hl. apply I; [|done]. cbn in Hp. by rewrite is_Some_links, <- Hl, <- is_Some_links.
Qed.

Lemma Inv_upd s rq eq p f : Inv s rq eq ->
  (forall t, queue_state_prev (f t) = queue_state_prev t /\ queue_state_next (f t) = queue_state_next t /\
             priority (f t) = priority t) ->
  ((forall t, state (f t) = state t) \/ ~ queued rq eq p) -> Inv (upd p f s) rq eq.
Proof.
  intros I Hf Hs. apply Inv_heap; [done| |].
  - apply links_alter. intros t. by destruct (Hf t) as (-> & -> & _).
  - intros q Hq. destruct (decide (q = p)) as [->|].
    + destruct Hs as [Hs|Hs]; [|done]. unfold thread. cbn. rewrite lookup_alter_eq.
      destruct (heap s !! p) as [t|]; [|done]. cbn. unfold queue_index. by destruct (Hf t) as (_ & _ & ->).
    + change (with_heap (alter f p (heap s)) s) with (upd p f s). by rewrite thread_alter_other.
Qed.

Lemma Inv_ext s rq eq rq' eq' : Inv s rq eq -> (forall i, (i < 32)%nat -> rq' i = rq i /\ eq' i = eq i) ->
  Inv s rq' eq'.
Proof.
  intros I He. constructor; try apply I.
  - intros i Hi. destruct (He i Hi) as [-> _]. by apply I.
  - intros i Hi. destruct (He i Hi) as [_ ->]. by apply I.
  - intros i p Hi. destruct (He i Hi) as [-> ->]. by apply I.
  - intros i p Hi. destruct (He i Hi) as [-> ->]. by apply I.
  - intros i Hi. destruct (He i Hi) as [-> _]. by apply I.
  - intros i Hi. destruct (He i Hi) as [_ ->]. by apply I.
  - intros p Hp Hf. apply I; [done|]. intros i Hi. destruct (He i Hi) as [<- <-]. by apply Hf.
Qed.

(** Other fields of the state do not matter. *)
Lemma Inv_cpu s rq eq cur sw : Inv s rq eq ->
  Inv (MkSched (heap s) (priority_queues s) (expired_queues s) (ready_bitmap s) (expired_bitmap s)
         cur (idle_thread s) sw) rq eq.
Proof. intros I. constructor; apply I. Qed.

(** *** Bits *)

Lemma testbit_bit i j : Z.testbit (bit i) (Z.of_nat j) = (j =? i)%nat.
Proof.
  unfold bit. rewrite Z.shiftl_1_l, Z.pow2_bits_eqb by lia.
  destruct (j =? i)%nat eqn:E; [apply Nat.eqb_eq in E as ->; lia|apply Nat.eqb_neq in E; lia].
Qed.

Lemma testbit_set b i j : Z.testbit (Z.lor b (bit i)) (Z.of_nat j) = Z.testbit b (Z.of_nat j) || (j =? i)%nat.
Proof. by rewrite Z.lor_spec, testbit_bit. Qed.

Lemma testbit_clear b i j : Z.testbit (clear_bit b i) (Z.of_nat j) = Z.testbit b (Z.of_nat j) && negb (j =? i)%nat.
Proof. unfold clear_bit. by rewrite Z.ldiff_spec, testbit_bit. Qed.

(** A word below [2^32] has no bit above 31, and the operations stay below. *)
Lemma below_32 b : 0 <= b < 2 ^ 32 <-> 0 <= b /\ Z.shiftr b 32 = 0.
Proof. rewrite Z.shiftr_div_pow2 by lia. lia. Qed.

Lemma set_range_32 b i : (i < 32)%nat -> 0 <= b < 2 ^ 32 -> 0 <= Z.lor b (bit i) < 2 ^ 32.
Proof.
  intros Hi. rewrite !below_32. intros [Hb Hs]. split.
  - apply Z.lor_nonneg. split; [done|]. unfold bit. apply Z.shiftl_nonneg. lia.
  - rewrite Z.shiftr_lor, Hs, Z.lor_0_l. unfold bit. rewrite Z.shiftr_shiftl_r by lia.
    rewrite Z.shiftr_div_pow2 by lia. apply Z.div_small.
    pose proof (Z.pow_gt_1 2 (32 - Z.of_nat i)). lia.
Qed.

Lemma clear_range_32 b i : 0 <= b < 2 ^ 32 -> 0 <= clear_bit b i < 2 ^ 32.
Proof.
  rewrite !below_32. intros [Hb Hs]. unfold clear_bit. split.
  - rewrite Z.ldiff_nonneg. by left.
  - by rewrite Z.shiftr_ldiff, Hs, Z.ldiff_0_l.
Qed.

(** ** The two queue arrays play the same part *)

Definition flip (s : Sched) : Sched :=
  MkSched (heap s) (expired_queues s) (priority_queues s) (expired_bitmap s) (ready_bitmap s)
    (current_thread s) (idle_thread s) (switching_out_threads s).

Lemma flip_flip s : flip (flip s) = s.
Proof. by destruct s. Qed.

Lemma Inv_flip s rq eq : Inv s rq eq -> Inv (flip s) eq rq.
Proof.
  intros I. constructor; try apply I.
  - intros i p Hi Hp. apply I; tauto.
  - intros i p Hi H1 H2. by eapply (inv_disj _ _ _ I).
  - cbn. destruct (inv_range _ _ _ I). done.
  - intros p Hp Hf. apply I; [done|]. intros i Hi. destruct (Hf i Hi). done.
Qed.

Lemma queued_flip rq eq p : queued eq rq p <-> queued rq eq p.
Proof. unfold queued. split; intros (i & ? & ?); exists i; tauto. Qed.

(** What the operations on the queues leave alone. *)
Definition frame (s s' : Sched) : Prop :=
  current_thread s' = current_thread s /\ idle_thread s' = idle_thread s /\
  switching_out_threads s' = switching_out_threads s /\
  (forall p, is_Some (heap s' !! p) <-> is_Some (heap s !! p)).

Lemma cores_is_Some h h' : (forall p, cores h' p = cores h p) ->
  forall p, is_Some (h' !! p) <-> is_Some (h !! p).
Proof.
  intros Hc p. specialize (Hc p). unfold cores in Hc.
  destruct (h' !! p), (h !! p); cbn in Hc; try done; split; intros []; done.
Qed.

(** *** Enqueueing *)

Lemma not_queued_elem s rq eq p i : Inv s rq eq -> (i < 32)%nat -> ~ queued rq eq p -> p ∉ rq i /\ p ∉ eq i.
Proof. intros _ Hi Hn. split; intros Hp; apply Hn; exists i; tauto. Qed.

Lemma not_already_queued s rq eq pb : Inv s rq eq -> pb <> 0 -> is_Some (heap s !! pb) ->
  ~ queued rq eq pb ->
  already_queued (thread s pb) pb (priority_queues s !!! queue_index (thread s pb)) = false.
Proof.
  intros I Hpb Hs Hn. pose proof (queue_index_lt (thread s pb)) as Hi.
  assert (links (heap s) pb = Some (0, 0)) as Hl.
  { apply I; [done|]. intros i Hi'. by eapply not_queued_elem. }
  unfold already_queued, links, thread in *. destruct (heap s !! pb) as [t|]; [|done]. cbn in *.
  injection Hl as -> ->. cbn. apply Z.eqb_neq. intros Hh.
  destruct (inv_r _ _ _ I _ Hi) as (Hh' & _). rewrite Hh' in Hh.
  destruct (not_queued_elem _ _ _ pb _ I Hi Hn) as [Hni _].
  destruct (rq (queue_index t)); cbn in Hh; [done|]. subst. by apply Hni; left.
Qed.

Lemma lookup_total_insert_queue (qs : list ReadyQueue) i j q : length qs = 32%nat -> (i < 32)%nat ->
  <[i := q]> qs !!! j = if (j =? i)%nat then q else qs !!! j.
Proof.
  intros Hl Hi. destruct (j =? i)%nat eqn:E.
  - apply Nat.eqb_eq in E as ->. apply list_lookup_total_insert_eq. lia.
  - apply Nat.eqb_neq in E. apply list_lookup_total_insert_ne. done.
Qed.

Lemma EnqueueReady_spec s rq eq pb : Inv s rq eq -> pb <> 0 -> is_Some (heap s !! pb) ->
  state (thread s pb) = State.Ready -> ~ queued rq eq pb ->
  let i := queue_index (thread s pb) in let s' := EnqueueReady pb s in
  Inv s' (upd_q rq i (rq i ++ [pb])) eq /\ frame s s' /\ (forall p, cores (heap s') p = cores (heap s) p).
Proof.
  intros I Hpb Hsome Hst Hnq i s'. pose proof (queue_index_lt (thread s pb)) as Hi. fold i in Hi.
  unfold s', EnqueueReady. rewrite Hst. change (negb (runnable_state State.Ready)) with false.
  rewrite (not_already_queued s rq eq) by done. fold i.
  destruct (not_queued_elem _ _ _ pb i I Hi Hnq) as [Hni Hne].
  destruct (link_tail pb _ (heap s)) as [q h] eqn:El.
  apply (link_tail_spec pb _ _ (rq i)) in El as (Hq & Hlk & Hc); [|by apply I|done|done|done].
  set (s1 := with_ready h _ _ s). pose proof (cores_is_Some _ _ Hc) as Hsm.
  assert (forall p, core (thread s1 p) = core (thread s p)) as Hcore by (intros p; apply core_thread, Hc).
  split_and!; [|split_and!; try done; exact Hsm|exact Hc].
  assert (forall j p, (j < 32)%nat -> p ∈ rq j \/ p ∈ eq j -> j <> i \/ p ∈ eq j -> p <> pb /\ p ∉ rq i) as Hother.
  { intros j p Hj Hp Hd. split.
    - intros ->. apply Hnq. by exists j.
    - intros Hpi. destruct Hd as [Hd|Hd].
      + destruct (inv_home _ _ _ I j p Hj Hp) as [Ej _], (inv_home _ _ _ I i p Hi (or_introl Hpi)) as [Ei _]. lia.
      + destruct (inv_home _ _ _ I j p Hj (or_intror Hd)) as [Ej _], (inv_home _ _ _ I i p Hi (or_introl Hpi)) as [Ei _].
        assert (j = i) as -> by lia. by eapply (inv_disj _ _ _ I i p). }
  constructor.
  - unfold s1; sred. rewrite length_insert. apply I.
  - apply I.
  - intros j Hj. unfold s1; sred. rewrite lookup_total_insert_queue by (done || apply I). unfold upd_q.
    destruct (j =? i)%nat eqn:E; [done|]. apply Nat.eqb_neq in E.
    eapply queue_rep_ext; [|by apply I]. intros p Hp. destruct (Hother j p Hj (or_introl Hp) (or_introl E)). by apply Hlk.
  - intros j Hj. unfold s1; sred. eapply queue_rep_ext; [|by apply I]. intros p Hp.
    destruct (Hother j p Hj (or_intror Hp) (or_intror Hp)). by apply Hlk.
  - intros j p Hj Hp. destruct (core_fields _ _ (Hcore p)) as (-> & -> & _).
    unfold upd_q in Hp. destruct (j =? i)%nat eqn:E; [|by apply I].
    apply Nat.eqb_eq in E as ->. rewrite elem_of_app, list_elem_of_singleton in Hp.
    destruct Hp as [[Hp| ->]|Hp]; [apply I; auto|done|apply I; auto].
  - intros j p Hj Hp He. unfold upd_q in Hp. destruct (j =? i)%nat eqn:E; [|by eapply (inv_disj _ _ _ I)].
    apply Nat.eqb_eq in E as ->. rewrite elem_of_app, list_elem_of_singleton in Hp.
    destruct Hp as [Hp| ->]; [by eapply (inv_disj _ _ _ I)|done].
  - intros j Hj. unfold s1; sred. rewrite testbit_set, (inv_rbit _ _ _ I) by done. unfold upd_q.
    destruct (j =? i)%nat eqn:E; [|by rewrite orb_false_r]. rewrite orb_true_r.
    rewrite bool_decide_eq_false_2; [done|]. by destruct (rq i).
  - apply I.
  - unfold s1; sred. destruct (inv_range _ _ _ I). split; [by apply set_range_32|done].
  - intros p Hp Hf. unfold s1; sred. destruct (Hf i Hi) as [Hpi _]. unfold upd_q in Hpi. rewrite Nat.eqb_refl in Hpi.
    rewrite elem_of_app, list_elem_of_singleton in Hpi. rewrite Hlk by tauto.
    apply I; [by apply Hsm|]. intros j Hj. destruct (Hf j Hj) as [Hpj Hej]. split; [|done].
    unfold upd_q in Hpj. destruct (j =? i)%nat eqn:E; [|done]. apply Nat.eqb_eq in E as ->. tauto.
Qed.

(** The expired queues: the same operation on the other array, after marking the thread. *)
Lemma EnqueueExpired_flip pb s : is_Some (heap s !! pb) ->
  state (thread s pb) = State.Ready ->
  already_queued (thread s pb) pb (expired_queues s !!! queue_index (thread s pb)) = false ->
  EnqueueExpired pb s = flip (EnqueueReady pb (flip (upd pb (set_expired true) s))).
Proof.
  intros [t Ht] Hst Hq. unfold EnqueueExpired, EnqueueReady. rewrite Hst, Hq.
  assert (thread (flip (upd pb (set_expired true) s)) pb = set_expired true (thread s pb)) as ->.
  { unfold thread. cbn. by rewrite lookup_alter_eq, Ht. }
  cbn [state set_expired]. rewrite Hst.
  change (queue_index (set_expired true (thread s pb))) with (queue_index (thread s pb)).
  change (already_queued (set_expired true (thread s pb)) pb) with (already_queued (thread s pb) pb).
  cbn [flip priority_queues upd with_heap expired_queues heap]. rewrite Hq.
  change (negb (runnable_state State.Ready)) with false. cbv iota.
  destruct (link_tail _ _ _) as [q h]. done.
Qed.

Lemma EnqueueExpired_spec s rq eq pb : Inv s rq eq -> pb <> 0 -> is_Some (heap s !! pb) ->
  state (thread s pb) = State.Ready -> ~ queued rq eq pb ->
  let i := queue_index (thread s pb) in let s' := EnqueueExpired pb s in
  Inv s' rq (upd_q eq i (eq i ++ [pb])) /\ frame s s' /\
  (forall p, cores (heap s') p = cores (alter (set_expired true) pb (heap s)) p).
Proof.
  intros I Hpb Hsome Hst Hnq i s'. unfold s'.
  rewrite EnqueueExpired_flip; [|done|done|].
  2:{ apply (not_already_queued (flip s) eq rq); [by apply Inv_flip|done|done|by rewrite queued_flip]. }
  set (s1 := upd pb (set_expired true) s).
  assert (Inv s1 rq eq) as I1 by (apply Inv_upd; [done|done|by left]).
  assert (thread s1 pb = set_expired true (thread s pb)) as Ht by (unfold s1; by rewrite thread_alter, Z.eqb_refl).
  destruct (EnqueueReady_spec (flip s1) eq rq pb) as (I2 & (F1 & F2 & F3 & F4) & C).
  - by apply Inv_flip.
  - done.
  - unfold s1. cbn. by apply is_Some_alter.
  - change (thread (flip s1) pb) with (thread s1 pb). by rewrite Ht.
  - by rewrite queued_flip.
  - change (thread (flip s1) pb) with (thread s1 pb) in I2. rewrite Ht in I2.
    split_and!; [by apply (Inv_flip _ _ _ I2)| |exact C].
    split_and!; [done..|]. intros p. cbn. rewrite F4. cbn. apply is_Some_alter.
Qed.

(** *** Dequeueing *)

Lemma filter_not_in (pb : Z) (l : list Z) : pb ∉ l -> filter (fun p => p <> pb) l = l.
Proof.
  induction l as [|p l IH]; [done|]. rewrite not_elem_of_cons. intros [Hp Hl].
  rewrite filter_cons_True by auto. by rewrite IH.
Qed.

Lemma filter_out l1 pb (l2 : list Z) : NoDup (l1 ++ pb :: l2) ->
  filter (fun p => p <> pb) (l1 ++ pb :: l2) = l1 ++ l2.
Proof.
  intros (_ & Hs & (Hni & _)%NoDup_cons)%NoDup_app.
  rewrite filter_app, filter_cons_False by (intros Hn; by apply Hn).
  rewrite !filter_not_in; [done|done|]. intros Hp. by apply (Hs pb Hp); left.
Qed.

(** Replace the ready list of one level by a list with fewer threads. *)
Lemma Inv_shrink s rq eq i h q l b : Inv s rq eq -> (i < 32)%nat ->
  queue_rep h q l -> (forall p, p ∈ l -> p ∈ rq i) ->
  (forall p, p ∉ rq i -> links h p = links (heap s) p) ->
  (forall p, p ∈ rq i -> p ∉ l -> links h p = Some (0, 0)) ->
  (forall p, cores h p = cores (heap s) p) ->
  b = (if bool_decide (l = []) then clear_bit (ready_bitmap s) i else ready_bitmap s) -> rq i <> [] ->
  Inv (with_ready h (<[i := q]> (priority_queues s)) b s) (upd_q rq i l) eq.
Proof.
  intros I Hi Hq Hsub Hlk Hout Hc Hb Hne. set (s1 := with_ready _ _ _ s).
  assert (forall p, core (thread s1 p) = core (thread s p)) as Hcore by (intros p; apply core_thread, Hc).
  assert (forall j p, (j < 32)%nat -> p ∈ rq j \/ p ∈ eq j -> j <> i \/ p ∈ eq j -> p ∉ rq i) as Hother.
  { intros j p Hj Hp Hd Hpi. destruct (inv_home _ _ _ I j p Hj Hp) as [Ej _],
      (inv_home _ _ _ I i p Hi (or_introl Hpi)) as [Ei _].
    destruct Hd as [Hd|Hd]; [lia|]. assert (j = i) as -> by lia. by eapply (inv_disj _ _ _ I i p). }
  assert (forall j p, p ∈ upd_q rq i l j -> p ∈ rq j) as Hin.
  { intros j p. unfold upd_q. destruct (j =? i)%nat eqn:E; [|done]. apply Nat.eqb_eq in E as ->. auto. }
  constructor; try apply I.
  - unfold s1; sred. rewrite length_insert. apply I.
  - intros j Hj. unfold s1; sred. rewrite lookup_total_insert_queue by (done || apply I). unfold upd_q.
    destruct (j =? i)%nat eqn:E; [done|]. apply Nat.eqb_neq in E.
    eapply queue_rep_ext; [|by apply I]. intros p Hp. apply Hlk. by eapply (Hother j); auto.
  - intros j Hj. unfold s1; sred. eapply queue_rep_ext; [|by apply I]. intros p Hp.
    apply Hlk. by eapply (Hother j); auto.
  - intros j p Hj Hp. destruct (core_fields _ _ (Hcore p)) as (-> & -> & _). apply I; [done|].
    destruct Hp; auto.
  - intros j p Hj Hp He. by eapply (inv_disj _ _ _ I j p); auto.
  - intros j Hj. unfold s1; sred. rewrite Hb. unfold upd_q.
    pose proof (inv_rbit _ _ _ I j Hj) as Hbit.
    destruct (bool_decide (l = [])) eqn:El; rewrite ?testbit_clear, Hbit;
      destruct (j =? i)%nat eqn:E; rewrite ?andb_true_r, ?andb_false_r; try done; [by rewrite El|].
    apply Nat.eqb_eq in E as ->. rewrite El. by rewrite bool_decide_eq_false_2.
  - unfold s1; sred. destruct (inv_range _ _ _ I). split; [|done]. rewrite Hb.
    case_bool_decide; [by apply clear_range_32|done].
  - intros p Hp Hf. unfold s1; sred. destruct (decide (p ∈ rq i)) as [Hpi|Hpi].
    + apply Hout; [done|]. destruct (Hf i Hi) as [Hpl _]. unfold upd_q in Hpl. by rewrite Nat.eqb_refl in Hpl.
    + rewrite Hlk by done. apply I; [by apply (cores_is_Some _ _ Hc)|]. intros j Hj.
      destruct (Hf j Hj) as [Hpj Hej]. split; [|done]. unfold upd_q in Hpj.
      destruct (j =? i)%nat eqn:E; [|done]. by apply Nat.eqb_eq in E as ->.
Qed.

Lemma queue_ends h q l pb : queue_rep h q l -> pb <> 0 -> pb ∉ l ->
  (head q =? pb) = false /\ (tail q =? pb) = false.
Proof.
  intros (Hh & Ht & _ & _) Hz Hn. rewrite Hh, Ht, !Z.eqb_neq. unfold lastz. split.
  - destruct l; cbn; [done|]. intros ->. by apply Hn; left.
  - destruct (last l) as [x|] eqn:E; cbn; [|done]. intros ->. by apply Hn, last_Some_elem_of.
Qed.

Lemma insert_same (qs : list ReadyQueue) i : <[i := qs !!! i]> qs = qs.
Proof.
  apply list_eq. intros j. destruct (decide (i < length qs)%nat).
  - destruct (decide (j = i)) as [->|]; [|by rewrite list_lookup_insert_ne].
    rewrite list_lookup_insert_eq by done. symmetry. by apply list_lookup_lookup_total_lt.
  - by rewrite list_insert_ge by lia.
Qed.

Lemma lastz_head_ne0 h l : dseg h 0 l 0 -> l <> [] -> (hdz 0 l =? 0) = false.
Proof. destruct l; [done|]. intros (? & _) _. by apply Z.eqb_neq. Qed.

(** What [DequeueReady] computes for a thread on a ready list. *)
Lemma DequeueReady_active s rq eq pb l1 l2 : Inv s rq eq ->
  let i := queue_index (thread s pb) in rq i = l1 ++ pb :: l2 ->
  DequeueReady pb s =
  with_ready (unlink pb (lastz 0 l1) (hdz 0 l2) (heap s))
    (<[i := MkQueue (hdz 0 (l1 ++ l2)) (lastz 0 (l1 ++ l2))]> (priority_queues s))
    (if bool_decide (l1 ++ l2 = []) then clear_bit (ready_bitmap s) i else ready_bitmap s) s.
Proof.
  intros I i Hl. pose proof (queue_index_lt (thread s pb)) as Hi. fold i in Hi.
  destruct (inv_r _ _ _ I i Hi) as (Hh & Ht & Hd & Hnd). rewrite Hl in Hh, Ht, Hd, Hnd.
  assert (pb ∈ rq i) as Hin by (rewrite Hl; set_solver).
  assert (pb <> 0) as Hz by (eapply dseg_nonzero; [exact Hd|set_solver]).
  destruct (queue_ends _ _ _ pb (inv_e _ _ _ I i Hi) Hz) as [He1 He2].
  { intros He. by eapply (inv_disj _ _ _ I i pb). }
  pose proof Hd as (_ & _ & Hlk & _)%dseg_app.
  assert (queue_state_prev (thread s pb) = lastz 0 l1 /\ queue_state_next (thread s pb) = hdz 0 l2) as [Hp Hn].
  { unfold links, thread in *. destruct (heap s !! pb); [|done]. cbn in *. by injection Hlk as -> ->. }
  unfold DequeueReady. fold i. rewrite Hp, Hn. destruct (priority_queues s !!! i) as [hd tl] eqn:Eq. cbn [head tail] in Hh, Ht |- *.
  rewrite Hh, Ht, He1, He2, hdz_app, lastz_app, lastz_cons. cbn [hdz].
  set (eqq := expired_queues s !!! i). unfold with_ready.
  change (alter _ pb _) with (unlink pb (lastz 0 l1) (hdz 0 l2) (heap s)).
  replace (<[i := eqq]> (expired_queues s)) with (expired_queues s) by (unfold eqq; by rewrite insert_same).
  apply NoDup_app in Hnd as (Hn1 & Hsep & (Hni & Hn2)%NoDup_cons).
  assert (forall x l1', l1 = x :: l1' -> (x =? pb) = false /\ (x =? 0) = false) as Hx.
  { intros x l1' ->. rewrite !Z.eqb_neq. split; [intros ->; apply (Hsep pb); by left|].
    eapply dseg_nonzero; [exact Hd|by left]. }
  assert (l2 <> [] -> (lastz pb l2 =? pb) = false) as Hlast.
  { destruct l2 as [|y l2 _] using rev_ind; [done|]. intros _. rewrite lastz_snoc. apply Z.eqb_neq. intros ->. set_solver. }
  destruct l1 as [|x l1].
  - cbn [hdz app lastz]. rewrite Z.eqb_refl. cbn [head tail andb].
    unfold eqq. rewrite insert_same. destruct l2 as [|y l2].
    + unfold lastz. cbn. by rewrite Z.eqb_refl.
    + rewrite Hlast by done. cbn [head hdz]. rewrite (proj2 (Z.eqb_neq y 0)), lastz_cons, lastz_cons; [done|].
      eapply (dseg_nonzero _ _ _ _ _ Hd). set_solver.
  - cbn [hdz app]. destruct (Hx x l1 eq_refl) as [-> Hx0]. rewrite bool_decide_eq_false_2 by done.
    unfold eqq. destruct l2 as [|y l2].
    + change (lastz pb []) with pb. rewrite Z.eqb_refl. cbn [head tail andb]. rewrite Z.eqb_refl. cbn [head]. by rewrite insert_same, app_nil_r, Hx0.
    + rewrite Hlast by done. cbn [andb]. rewrite insert_same. f_equal. f_equal. f_equal.
      by rewrite app_comm_cons, lastz_app, !lastz_cons.
Qed.

(** The thread is taken off the lists; nothing else changes. *)
Definition DequeueOk (s : Sched) (rq eq : nat -> list Z) (pb : Z) (s' : Sched) : Prop :=
  Inv s' (remove_q pb rq) (remove_q pb eq) /\ frame s s' /\ (forall p, cores (heap s') p = cores (heap s) p).

Lemma frame_cores s s' : current_thread s' = current_thread s -> idle_thread s' = idle_thread s ->
  switching_out_threads s' = switching_out_threads s -> (forall p, cores (heap s') p = cores (heap s) p) -> frame s s'.
Proof. intros. split_and!; try done. by apply cores_is_Some. Qed.

Lemma remove_q_other pb g i : pb ∉ g i -> remove_q pb g i = g i.
Proof. apply filter_not_in. Qed.

Lemma DequeueReady_on_ready s rq eq pb : Inv s rq eq ->
  pb ∈ rq (queue_index (thread s pb)) -> DequeueOk s rq eq pb (DequeueReady pb s).
Proof.
  intros I Hin. set (i := queue_index (thread s pb)) in *.
  pose proof (queue_index_lt (thread s pb)) as Hi. fold i in Hi.
  apply list_elem_of_split in Hin as (l1 & l2 & Hl).
  destruct (inv_r _ _ _ I i Hi) as (Hh & Ht & Hd & Hnd). rewrite Hl in Hh, Ht, Hd, Hnd.
  rewrite (DequeueReady_active s rq eq pb l1 l2) by done. fold i.
  destruct (unlink_spec _ _ _ _ Hd Hnd) as (D & Lp & Lo & C).
  split_and!; [|by apply frame_cores|done].
  eapply Inv_ext; [eapply (Inv_shrink s rq eq i _ _ (l1 ++ l2))|]; try done.
  - split_and!; [done|done|done|].
    apply NoDup_app in Hnd as (? & Hs & (? & ?)%NoDup_cons). apply NoDup_app. split_and!; try done.
    intros p Hp Hp2. apply (Hs p Hp). by right.
  - intros p. rewrite Hl. set_solver.
  - intros p. rewrite Hl. apply Lo.
  - intros p. rewrite Hl. intros Hp Hn. assert (p = pb) as -> by set_solver. done.
  - rewrite Hl. by destruct l1.
  - intros j Hj. split.
    + unfold upd_q. destruct (j =? i)%nat eqn:E.
      * apply Nat.eqb_eq in E as ->. unfold remove_q. rewrite Hl. by apply filter_out.
      * apply Nat.eqb_neq in E. apply remove_q_other. intros Hp. apply E. symmetry. by apply (inv_home _ _ _ I j pb); auto.
    + apply remove_q_other. intros Hp. assert (i = j) as <- by (apply (inv_home _ _ _ I j pb); auto).
      eapply (inv_disj _ _ _ I i pb); [done|rewrite Hl; set_solver|done].
Qed.

(** With the ready queue out of the way, dequeueing treats the two arrays alike. *)
Lemma DequeueReady_flip pb s : let i := queue_index (thread s pb) in
  (head (priority_queues s !!! i) =? pb) = false -> (tail (priority_queues s !!! i) =? pb) = false ->
  DequeueReady pb s = flip (DequeueReady pb (flip s)).
Proof.
  intros i Hh Ht. unfold DequeueReady. change (thread (flip s) pb) with (thread s pb). fold i.
  cbn [flip priority_queues expired_queues heap ready_bitmap expired_bitmap]. rewrite Hh, Ht.
  destruct (head (expired_queues s !!! i) =? pb); [done|].
  by destruct (tail (expired_queues s !!! i) =? pb).
Qed.

Lemma DequeueReady_spec s rq eq pb : Inv s rq eq -> pb <> 0 -> is_Some (heap s !! pb) ->
  DequeueOk s rq eq pb (DequeueReady pb s).
Proof.
  intros I Hz Hs. set (i := queue_index (thread s pb)).
  pose proof (queue_index_lt (thread s pb)) as Hi. fold i in Hi.
  destruct (decide (pb ∈ rq i)) as [Hr|Hr]; [by apply DequeueReady_on_ready|].
  destruct (queue_ends _ _ _ pb (inv_r _ _ _ I i Hi) Hz Hr) as [Hh Ht].
  destruct (decide (pb ∈ eq i)) as [He|He].
  - rewrite DequeueReady_flip by done.
    destruct (DequeueReady_on_ready (flip s) eq rq pb (Inv_flip _ _ _ I) He) as (I' & (? & ? & ? & ?) & C).
    split_and!; [by apply (Inv_flip _ _ _ I')|split_and!; done|done].
  - destruct (queue_ends _ _ _ pb (inv_e _ _ _ I i Hi) Hz He) as [Hh2 Ht2].
    assert (forall j, (j < 32)%nat -> pb ∉ rq j /\ pb ∉ eq j) as Hno.
    { intros j Hj. split; intros Hp; assert (i = j) as <- by (apply (inv_home _ _ _ I j pb); auto); done. }
    assert (links (heap s) pb = Some (0, 0)) as Hl by (by apply I).
    assert (DequeueReady pb s = upd pb (fun t => set_prev 0 (set_next 0 t)) s) as ->.
    { unfold DequeueReady. fold i. rewrite Hh, Hh2, Ht, Ht2. cbn [andb]. rewrite !insert_same.
      unfold links, thread in *. destruct (heap s !! pb); [|done]. cbn in Hl. injection Hl as E1 E2. cbn [default from_option id]. by rewrite E1, E2. }
    assert (forall p, cores (alter (λ t, set_prev 0 (set_next 0 t)) pb (heap s)) p = cores (heap s) p) as C.
    { by apply cores_alter. }
    split_and!; [|by apply frame_cores|done].
    eapply Inv_ext; [apply Inv_heap; [exact I| |]|].
    + intros p. destruct (decide (p = pb)) as [->|]; [|by rewrite links_alter_other].
      rewrite Hl. unfold links in *. rewrite lookup_alter_eq. by destruct (heap s !! pb).
    + intros p _. destruct (core_fields _ _ (core_thread s (upd pb (λ t, set_prev 0 (set_next 0 t)) s) p (C p))) as (? & ? & _). done.
    + intros j Hj. destruct (Hno j Hj). by rewrite !remove_q_other.
Qed.

Lemma queued_remove pb rq eq p : queued (remove_q pb rq) (remove_q pb eq) p <-> p <> pb /\ queued rq eq p.
Proof.
  unfold queued, remove_q. split.
  - intros (i & Hi & Hp). rewrite !list_elem_of_filter in Hp. split; [tauto|]. exists i. tauto.
  - intros (Hn & i & Hi & Hp). exists i. rewrite !list_elem_of_filter. tauto.
Qed.

Lemma queued_enqueue rq eq i pb p : (i < 32)%nat ->
  queued (upd_q rq i (rq i ++ [pb])) eq p <-> p = pb \/ queued rq eq p.
Proof.
  intros Hi. unfold queued, upd_q. split.
  - intros (j & Hj & Hp). destruct (j =? i)%nat eqn:E; [|right; by exists j].
    apply Nat.eqb_eq in E as ->. rewrite elem_of_app, list_elem_of_singleton in Hp.
    destruct Hp as [[Hp|Hp]|Hp]; [right; exists i; tauto|by left|right; exists i; tauto].
  - intros [->|(j & Hj & Hp)]; [exists i|exists j].
    + rewrite Nat.eqb_refl. set_solver.
    + split; [done|]. destruct (j =? i)%nat eqn:E; [|done]. apply Nat.eqb_eq in E as ->. set_solver.
Qed.
