(* ===== verification/SchedSwitch.v ===== *)
(** * Choosing the next thread and switching to it

    The scheduling decisions of [Sched], proved on the lists of [SchedProof]: [PickNext] takes the
    first eligible thread in priority order, [Block] and [Unblock] move one thread, and [Schedule]
    and [SleepAndRelease] keep the queues well formed, leave a running thread on the processor and
    lose no thread that is ready. *)
From S2P Require Import Prelude Sched SchedProof.

(** ** Walking a queue *)

Lemma nodes_dseg h prev l fuel : dseg h prev l 0 -> (length l <= fuel)%nat -> nodes fuel h (hdz 0 l) = Some l.
Proof.
  revert prev fuel. induction l as [|p l IH]; intros prev fuel Hd Hf; [by destruct fuel|].
  destruct Hd as (Hp & Hl & Hd). destruct fuel as [|fuel]; [cbn in Hf; lia|].
  cbn [hdz nodes]. rewrite (proj2 (Z.eqb_neq p 0) Hp).
  unfold links in Hl. destruct (h !! p) as [t|]; [|done]. cbn in Hl. injection Hl as _ ->.
  rewrite (IH p fuel) by (done || (cbn in Hf; lia)). done.
Qed.

Lemma dseg_size h prev l nxt : dseg h prev l nxt -> NoDup l -> (length l <= size h)%nat.
Proof.
  intros Hd Hn. rewrite <- size_dom, <- (size_list_to_set (C := gset Z) l) by done.
  apply subseteq_size. intros p Hp%elem_of_list_to_set. apply elem_of_dom.
  by eapply dseg_nonzero.
Qed.

Lemma walk_queue s q l : queue_rep (heap s) q l -> walk s (head q) = Some l.
Proof.
  intros (-> & _ & Hd & Hn). unfold walk. eapply nodes_dseg; [done|]. by eapply dseg_size.
Qed.

(** ** The epoch swap *)

Definition with_bits (rb eb : Z) (s : Sched) : Sched :=
  MkSched (heap s) (priority_queues s) (expired_queues s) rb eb
    (current_thread s) (idle_thread s) (switching_out_threads s).

(** A state that differs only in the expired marks and the queues. *)
Definition marks_only (s s' : Sched) : Prop :=
  current_thread s' = current_thread s /\ idle_thread s' = idle_thread s /\
  switching_out_threads s' = switching_out_threads s /\
  ready_bitmap s' = ready_bitmap s /\ expired_bitmap s' = expired_bitmap s /\
  (forall p, is_Some (heap s' !! p) <-> is_Some (heap s !! p)) /\
  (forall p, set_expired false (thread s' p) = set_expired false (thread s p)).

#[global] Instance marks_only_preorder : PreOrder marks_only.
Proof.
  split.
  - intros s. by split_and!.
  - intros s1 s2 s3 (? & ? & ? & ? & ? & Hs & Ht) (? & ? & ? & ? & ? & Hs' & Ht').
    split_and!; try congruence. intros p. by rewrite Hs', Hs.
Qed.

Definition unmark (l : list Z) (h : Heap) : Heap := foldl (fun h p => alter (set_expired false) p h) h l.

Lemma unmark_spec l h : (forall p, links (unmark l h) p = links h p) /\
  (forall p, set_expired false <$> unmark l h !! p = set_expired false <$> h !! p) /\
  (forall p, p ∈ l -> unmark l h !! p = set_expired false <$> h !! p).
Proof.
  revert h. induction l as [|x l IH]; intros h; [split_and!; try done; by intros p ?%elem_of_nil|].
  cbn [unmark foldl]. fold (unmark l (alter (set_expired false) x h)).
  destruct (IH (alter (set_expired false) x h)) as (L & T & E). split_and!.
  - intros p. rewrite L. by apply links_alter.
  - intros p. rewrite T. destruct (decide (p = x)) as [->|]; [|by rewrite lookup_alter_ne].
    rewrite lookup_alter_eq. by destruct (h !! x).
  - intros p Hp. destruct (decide (p ∈ l)) as [Hl|Hl].
    + rewrite E by done. destruct (decide (p = x)) as [->|]; [|by rewrite lookup_alter_ne].
      rewrite lookup_alter_eq. by destruct (h !! x).
    + apply elem_of_cons in Hp as [->|]; [|done].
      assert (forall l h, x ∉ l -> unmark l h !! x = h !! x) as Ho; [|by rewrite Ho, lookup_alter_eq].
      clear. induction l as [|y l IH]; intros h Hx; [done|]. apply not_elem_of_cons in Hx as [Hx Hl].
      cbn. fold (unmark l (alter (set_expired false) y h)). by rewrite IH, lookup_alter_ne.
Qed.

Lemma swap_lists_Inv s rq eq rb eb i : Inv (with_bits rb eb s) rq eq -> (i < 32)%nat -> rq i = [] ->
  exists rb' eb',
  Inv (MkSched (heap s) (<[i := expired_queues s !!! i]> (priority_queues s))
         (<[i := MkQueue 0 0]> (expired_queues s)) rb' eb' (current_thread s) (idle_thread s)
         (switching_out_threads s)) (upd_q rq i (eq i)) (upd_q eq i []).
Proof.
  intros I Hi Hr.
  pose proof (inv_len_r _ _ _ I) as Lr. pose proof (inv_len_e _ _ _ I) as Le.
  cbn [with_bits priority_queues expired_queues] in Lr, Le.
  exists (if bool_decide (eq i = []) then rb else Z.lor rb (bit i)), (clear_bit eb i).
  set (s1 := MkSched _ _ _ _ _ _ _ _).
  assert (forall j p, p ∈ upd_q rq i (eq i) j \/ p ∈ upd_q eq i [] j -> p ∈ rq j \/ p ∈ eq j) as Hin.
  { intros j p. unfold upd_q. destruct (j =? i)%nat eqn:E; [|done]. apply Nat.eqb_eq in E as ->.
    rewrite elem_of_nil. tauto. }
  constructor.
  - unfold s1; sred. by rewrite length_insert.
  - unfold s1; sred. by rewrite length_insert.
  - intros j Hj. unfold s1, upd_q; sred. rewrite lookup_total_insert_queue by done.
    destruct (j =? i)%nat eqn:E; [by apply (inv_e _ _ _ I i)|by apply (inv_r _ _ _ I j)].
  - intros j Hj. unfold s1, upd_q; sred. rewrite lookup_total_insert_queue by done.
    destruct (j =? i)%nat eqn:E; [|by apply (inv_e _ _ _ I j)]. split_and!; try done. constructor.
  - intros j p Hj Hp. apply (inv_home _ _ _ I j p Hj). by apply Hin.
  - intros j p Hj. unfold upd_q. destruct (j =? i)%nat; [by intros _ ?%elem_of_nil|]. by apply I.
  - intros j Hj. unfold s1, upd_q; sred. pose proof (inv_rbit _ _ _ I j Hj) as Hb. cbn [with_bits ready_bitmap] in Hb.
    destruct (j =? i)%nat eqn:E.
    + apply Nat.eqb_eq in E as ->. rewrite Hr in Hb. cbn in Hb.
      case_bool_decide; [done|]. by rewrite testbit_set, Nat.eqb_refl, orb_true_r.
    + rewrite <- Hb. destruct (bool_decide (eq i = [])); [done|]. by rewrite testbit_set, E, orb_false_r.
  - intros j Hj. unfold s1, upd_q; sred. pose proof (inv_ebit _ _ _ I j Hj) as Hb. cbn [with_bits expired_bitmap] in Hb.
    rewrite testbit_clear, Hb. destruct (j =? i)%nat; [by rewrite andb_false_r|by rewrite andb_true_r].
  - unfold s1; sred. destruct (inv_range _ _ _ I) as [R E]. split; [|by apply clear_range_32].
    case_bool_decide; [done|by apply set_range_32].
  - intros p Hp Hf. apply (inv_free _ _ _ I); [done|]. intros j Hj. destruct (Hf j Hj) as [Hpr Hpe].
    unfold upd_q in Hpr, Hpe. destruct (j =? i)%nat eqn:E; [|done].
    apply Nat.eqb_eq in E as ->. rewrite Hr. split; [by apply not_elem_of_nil|done].
Qed.

Lemma swap_level_spec s rq eq rb eb i : Inv (with_bits rb eb s) rq eq -> (i < 32)%nat -> rq i = [] ->
  exists s' rb' eb', swap_level (Some s) i = Some s' /\
    Inv (with_bits rb' eb' s') (upd_q rq i (eq i)) (upd_q eq i []) /\ marks_only s s'.
Proof.
  intros I Hi Hr. destruct (swap_lists_Inv _ _ _ _ _ i I Hi Hr) as (rb' & eb' & I1).
  unfold swap_level. cbn [mbind option_bind].
  set (s1 := with_expired _ _ _ _).
  rewrite (walk_queue s1 (expired_queues s !!! i) (eq i)) by (apply (inv_e _ _ _ I i Hi)).
  cbn [option_bind]. exists (with_heap (unmark (eq i) (heap s1)) s1), rb', eb'.
  destruct (unmark_spec (eq i) (heap s1)) as (L & T & _).
  assert (forall p, set_expired false (thread (with_heap (unmark (eq i) (heap s1)) s1) p)
    = set_expired false (thread s p)) as Ht.
  { intros p. specialize (T p). unfold thread. cbn [with_heap heap] in *. cbn [s1 with_expired with_ready heap] in *.
    destruct (unmark (eq i) (heap s) !! p), (heap s !! p); cbn in *; congruence. }
  split_and!; [done| |].
  - apply (Inv_heap _ _ _ (unmark (eq i) (heap s1))) in I1; [exact I1|exact L|].
    intros p _. specialize (Ht p). split; [|by apply (f_equal state) in Ht].
    apply (f_equal queue_index) in Ht. done.
  - split_and!; try done. intros p. specialize (T p). cbn [with_heap heap] in *. cbn [s1 with_expired with_ready heap] in *.
    destruct (unmark (eq i) (heap s) !! p), (heap s !! p); cbn in T; try done; split; intros []; eauto; done.
Qed.

(** The ready and expired lists once the first [n] time-slice levels are swapped. *)
Definition swapped (n : nat) (rq eq : nat -> list Z) : nat -> list Z :=
  fun i => if (16 <=? i)%nat && (i <? 16 + n)%nat then eq i else rq i.
Definition no_list : nat -> list Z := fun _ => [].

Lemma swapped_S n rq eq i : upd_q (swapped n rq eq) (16 + n) (eq (16 + n)%nat) i = swapped (S n) rq eq i.
Proof.
  unfold upd_q, swapped. destruct (i =? 16 + n)%nat eqn:E.
  - apply Nat.eqb_eq in E as ->. by rewrite (proj2 (Nat.leb_le _ _)), (proj2 (Nat.ltb_lt _ _)) by lia.
  - apply Nat.eqb_neq in E. destruct (16 <=? i)%nat; [|done]. cbn [andb].
    destruct (i <? 16 + n)%nat eqn:E1, (i <? 16 + S n)%nat eqn:E2; try done; lia.
Qed.

Lemma swap_levels_spec n s rq eq : Inv s rq eq -> (n <= 16)%nat ->
  (forall i, (16 <= i < 32)%nat -> rq i = []) ->
  exists s' rb eb, foldl swap_level (Some s) (seq 16 n) = Some s' /\
    Inv (with_bits rb eb s') (swapped n rq eq) (swapped n eq no_list) /\ marks_only s s'.
Proof.
  intros I Hn Hr. induction n as [|n IH].
  - exists s, (ready_bitmap s), (expired_bitmap s). split_and!; [done| |done].
    eapply Inv_ext; [destruct s; exact I|]. intros i _. unfold swapped.
    destruct (16 <=? i)%nat eqn:E1, (i <? 16 + 0)%nat eqn:E2; try done; lia.
  - destruct IH as (s1 & rb & eb & E1 & I1 & M1); [lia|]. rewrite seq_S, foldl_snoc, E1.
    destruct (swap_level_spec s1 _ _ rb eb (16 + n)%nat I1) as (s2 & rb' & eb' & E2 & I2 & M2); [lia| |].
    { unfold swapped. rewrite (proj2 (Nat.ltb_ge _ _)) by lia. rewrite andb_false_r. apply Hr. lia. }
    exists s2, rb', eb'. split_and!; [done| |by etrans].
    eapply Inv_ext; [exact I2|]. intros i Hi. rewrite <- !swapped_S. split; [|done].
    unfold upd_q. destruct (i =? 16 + n)%nat; [|done]. unfold swapped.
    by rewrite (proj2 (Nat.ltb_ge (16 + n) (16 + n))), andb_false_r by lia.
Qed.

Lemma mask_bit j : (j < 32)%nat -> Z.testbit time_slice_mask (Z.of_nat j) = (16 <=? j)%nat.
Proof. intros Hj. do 32 (destruct j as [|j]; [reflexivity|]). lia. Qed.
Lemma low_mask_bit j : (j < 32)%nat -> Z.testbit 0x0000FFFF (Z.of_nat j) = negb (16 <=? j)%nat.
Proof. intros Hj. do 32 (destruct j as [|j]; [reflexivity|]). lia. Qed.

Lemma lor_range_32 a b : 0 <= a < 2 ^ 32 -> 0 <= b < 2 ^ 32 -> 0 <= Z.lor a b < 2 ^ 32.
Proof.
  rewrite !below_32, Z.lor_nonneg, Z.shiftr_lor. intros [? ->] [? ->]. done.
Qed.
Lemma land_range_32 a b : 0 <= a < 2 ^ 32 -> 0 <= Z.land a b < 2 ^ 32.
Proof.
  rewrite !below_32, Z.land_nonneg, Z.shiftr_land. intros [? ->]. split; [by left|apply Z.land_0_l].
Qed.

Lemma epoch_swap_spec s rq eq : Inv s rq eq -> (forall i, (16 <= i < 32)%nat -> rq i = []) ->
  exists s', epoch_swap s = Some s' /\ Inv s' (swapped 16 rq eq) (swapped 16 eq no_list) /\
    marks_only s (with_bits (ready_bitmap s) (expired_bitmap s) s').
Proof.
  intros I Hr. destruct (swap_levels_spec 16 s rq eq I (le_n _) Hr) as (s1 & rb & eb & E & I1 & M).
  unfold epoch_swap. rewrite E. cbn [mbind option_bind].
  destruct M as (? & ? & ? & Mr & Me & ? & ?). rewrite Mr, Me.
  eexists. split_and!; [done| |by split_and!].
  destruct (inv_range _ _ _ I) as [Rr Re].
  assert (forall j, (j < 32)%nat -> (16 <=? j)%nat && (j <? 16 + 16)%nat = (16 <=? j)%nat) as Hj16.
  { intros j Hj. rewrite (proj2 (Nat.ltb_lt j (16 + 16))) by lia. apply andb_true_r. }
  constructor; try apply I1.
  - intros j Hj. sred. rewrite Z.lor_spec, Z.land_spec, mask_bit, (inv_rbit _ _ _ I), (inv_ebit _ _ _ I) by done.
    unfold swapped. rewrite Hj16 by done. destruct (16 <=? j)%nat eqn:E16; [|by rewrite andb_false_r, orb_false_r].
    rewrite (Hr j) by lia. by rewrite andb_true_r.
  - intros j Hj. sred. rewrite Z.land_spec, low_mask_bit, (inv_ebit _ _ _ I) by done.
    unfold swapped. rewrite Hj16 by done. by destruct (16 <=? j)%nat; rewrite ?andb_true_r, ?andb_false_r.
  - sred. split; [apply lor_range_32; [done|]|]; by apply land_range_32.
Qed.

(** ** Scanning the levels *)

Definition level_list (g : nat -> list Z) (k : nat) : list Z := concat (map g (seq k (32 - k))).

Lemma level_list_skip g k idx : (k <= idx < 32)%nat -> (forall j, (k <= j < idx)%nat -> g j = []) ->
  level_list g k = g idx ++ level_list g (S idx).
Proof.
  intros Hk He. remember (idx - k)%nat as n eqn:En. revert k Hk He En. induction n as [|n IH]; intros k Hk He En.
  - assert (k = idx) as -> by lia. unfold level_list. replace (32 - idx)%nat with (S (32 - S idx)) by lia. done.
  - unfold level_list. replace (32 - k)%nat with (S (32 - S k)) by lia. cbn [seq map concat].
    rewrite (He k) by lia. cbn [app]. apply (IH (S k)); [lia| |lia]. intros j Hj. apply He. lia.
Qed.

Lemma level_list_empty g k : (forall j, (k <= j < 32)%nat -> g j = []) -> level_list g k = [].
Proof.
  intros He. destruct (decide (k < 32)%nat) as [Hk|Hk].
  - rewrite (level_list_skip g k 31) by (lia || (intros; apply He; lia)). rewrite He by lia. done.
  - unfold level_list. by replace (32 - k)%nat with 0%nat by lia.
Qed.

Lemma find_seq_first f a n i : List.find f (seq a n) = Some i ->
  (a <= i < a + n)%nat /\ f i = true /\ forall j, (a <= j < i)%nat -> f j = false.
Proof.
  revert a. induction n as [|n IH]; intros a; [done|]. cbn [seq List.find].
  destruct (f a) eqn:Ef.
  - intros [= <-]. split_and!; [lia|lia|done|intros; lia].
  - intros (Hi & Hf & Hj)%IH. split_and!; [lia|lia|done|]. intros j Hja.
    destruct (decide (j = a)) as [->|]; [done|apply Hj; lia].
Qed.

Lemma find_app_dec {A} (f : A -> bool) l1 l2 :
  List.find f (l1 ++ l2) = match List.find f l1 with Some x => Some x | None => List.find f l2 end.
Proof. induction l1 as [|x l1 IH]; [done|]. cbn. by destruct (f x). Qed.

Lemma scan_levels_spec fuel s rq eq cpuid b k : Inv s rq eq -> (32 - k <= fuel)%nat ->
  (forall j, (j < 32)%nat -> Z.testbit b (Z.of_nat j) = (k <=? j)%nat && negb (bool_decide (rq j = []))) ->
  scan_levels fuel s cpuid b = Some (List.find (eligible s cpuid) (level_list rq k)).
Proof.
  intros I. revert b k. induction fuel as [|fuel IH]; intros b k Hf Hb.
  { cbn. rewrite level_list_empty by (intros; lia). done. }
  cbn [scan_levels]. destruct (ctz b) as [idx|] eqn:Ec.
  - apply find_seq_first in Ec as (Hi & Hbit & Hlow). cbn in Hi.
    rewrite Hb in Hbit by lia. apply andb_true_iff in Hbit as [Hk Hne].
    rewrite (walk_queue s _ (rq idx)) by (apply I; lia). cbn [mbind option_bind].
    rewrite (level_list_skip rq k idx), find_app_dec; [|lia|].
    + destruct (List.find (eligible s cpuid) (rq idx)); [done|].
      apply IH; [lia|]. intros j Hj. rewrite testbit_clear, Hb by done.
      destruct (j =? idx)%nat eqn:E.
      * apply Nat.eqb_eq in E as ->. rewrite (proj2 (Nat.leb_gt (S idx) idx)) by lia. by rewrite andb_false_r.
      * apply Nat.eqb_neq in E. rewrite andb_true_r. destruct (decide (j < idx)%nat) as [Hjl|Hjl].
        -- rewrite <- Hb, Hlow by lia. by rewrite (proj2 (Nat.leb_gt (S idx) j)) by lia.
        -- by rewrite (proj2 (Nat.leb_le k j)), (proj2 (Nat.leb_le (S idx) j)) by lia.
    + intros j Hj. specialize (Hlow j). rewrite Hb in Hlow by lia.
      rewrite (proj2 (Nat.leb_le _ _)) in Hlow by lia. cbn [andb] in Hlow.
      apply negb_false_iff, bool_decide_eq_true in Hlow; [done|lia].
  - rewrite level_list_empty; [done|]. intros j Hj.
    apply (List.find_none _ _) with (x := j) in Ec; [|apply in_seq; lia].
    cbn beta in Ec. rewrite Hb, (proj2 (Nat.leb_le _ _)) in Ec by lia.
    by apply negb_false_iff, bool_decide_eq_true in Ec.
Qed.

(** ** Picking *)

Lemma word_zero_bits m w : 0 <= w < 2 ^ 32 ->
  Z.land w m = 0 <-> forall j, (j < 32)%nat -> Z.testbit m (Z.of_nat j) = true -> Z.testbit w (Z.of_nat j) = false.
Proof.
  intros Hw. split.
  - intros H0 j _ Hm. apply (f_equal (fun x => Z.testbit x (Z.of_nat j))) in H0.
    by rewrite Z.land_spec, Hm, andb_true_r, Z.bits_0 in H0.
  - intros Hj. apply Z.bits_inj'. intros n Hn. rewrite Z.land_spec, Z.bits_0.
    destruct (decide (n < 32)) as [Hl|Hl].
    + specialize (Hj (Z.to_nat n)). rewrite Z2Nat.id in Hj by done.
      destruct (Z.testbit m n); [|apply andb_false_r]. rewrite Hj by (done || lia). done.
    + apply below_32 in Hw as [_ Hs]. replace n with ((n - 32) + 32) by lia.
      by rewrite <- (Z.shiftr_spec w 32) by lia; rewrite Hs, Z.bits_0.
Qed.

Definition all_empty (g : nat -> list Z) : bool := forallb (fun i => bool_decide (g i = [])) (seq 16 16).

Lemma all_empty_spec g : all_empty g = true <-> forall i, (16 <= i < 32)%nat -> g i = [].
Proof.
  unfold all_empty. rewrite forallb_forall. split.
  - intros Hf i Hi. apply (bool_decide_eq_true_1 _), Hf, in_seq. lia.
  - intros Hf i Hi%in_seq. apply bool_decide_eq_true_2, Hf. lia.
Qed.

Lemma mask_empty w g : 0 <= w < 2 ^ 32 ->
  (forall i, (i < 32)%nat -> Z.testbit w (Z.of_nat i) = negb (bool_decide (g i = []))) ->
  (Z.land w time_slice_mask =? 0) = all_empty g.
Proof.
  intros Hw Hb. apply eq_true_iff_eq. rewrite Z.eqb_eq, word_zero_bits, all_empty_spec by done. split.
  - intros Hz i Hi. apply (bool_decide_eq_true_1 _), negb_false_iff. rewrite <- Hb by lia.
    apply Hz; [lia|]. rewrite mask_bit by lia. apply Nat.leb_le. lia.
  - intros He i Hi. rewrite mask_bit, Hb by done. intros Hle%Nat.leb_le. by rewrite He by lia.
Qed.

(** Time-slice threads are waiting for the next epoch, and none is left in this one. *)
Definition epoch_due (rq eq : nat -> list Z) : bool := all_empty rq && negb (all_empty eq).

(** The lists [PickNext] chooses from. *)
Definition ready_lists (rq eq : nat -> list Z) : nat -> list Z :=
  if epoch_due rq eq then swapped 16 rq eq else rq.
Definition expired_lists (rq eq : nat -> list Z) : nat -> list Z :=
  if epoch_due rq eq then swapped 16 eq no_list else eq.

Lemma queued_lists rq eq p : queued (ready_lists rq eq) (expired_lists rq eq) p <-> queued rq eq p.
Proof.
  unfold ready_lists, expired_lists. destruct (epoch_due rq eq) eqn:E; [|done].
  apply andb_true_iff in E as [Hr _]. rewrite all_empty_spec in Hr. unfold queued, swapped, no_list.
  split; intros (i & Hi & Hp); exists i; (split; [done|]);
    destruct (16 <=? i)%nat eqn:E1, (i <? 16 + 16)%nat eqn:E2; cbn [andb] in *; rewrite ?elem_of_nil in *; try tauto; try lia.
  rewrite Hr, elem_of_nil in Hp by lia. tauto.
Qed.

(** A state that differs only in the expired marks, the queues and the switching-out table. *)
Definition picked (s s' : Sched) : Prop :=
  current_thread s' = current_thread s /\ idle_thread s' = idle_thread s /\
  (forall p, is_Some (heap s' !! p) <-> is_Some (heap s !! p)) /\
  (forall p, set_expired false (thread s' p) = set_expired false (thread s p)).

Lemma eligible_marks s s' cpuid p : picked s s' -> eligible s' cpuid p = eligible s cpuid p.
Proof.
  intros (Hc & _ & _ & Ht). unfold eligible. rewrite Hc. specialize (Ht p).
  pose proof (f_equal just_schedule Ht) as Hj. pose proof (f_equal state Ht) as Hs. cbn in Hj, Hs.
  by rewrite Hj, Hs.
Qed.

Lemma find_ext {A} (f g : A -> bool) l : (forall x, f x = g x) -> List.find f l = List.find g l.
Proof. intros E. induction l as [|x l IH]; [done|]. cbn. by rewrite E, IH. Qed.

Lemma bitmap_zero s rq eq : Inv s rq eq -> ready_bitmap s = 0 -> level_list rq 0 = [].
Proof.
  intros I Hz. apply level_list_empty. intros j Hj.
  pose proof (inv_rbit _ _ _ I j ltac:(lia)) as Hb. rewrite Hz, Z.bits_0 in Hb.
  by destruct (bool_decide_reflect (rq j = [])).
Qed.

Lemma PickNext_spec s rq eq cpuid : Inv s rq eq ->
  let rq' := ready_lists rq eq in let eq' := expired_lists rq eq in
  let choice := List.find (eligible s cpuid) (level_list rq' 0) in
  exists s', PickNext cpuid s = Some (default 0 choice, s') /\ Inv s' rq' eq' /\ picked s s' /\
    switching_out_threads s' = from_option (fun p => clear_switching p (switching_out_threads s))
                                 (switching_out_threads s) choice.
Proof.
  intros I rq' eq' choice. destruct (inv_range _ _ _ I) as [Rr Re].
  assert (exists s1, (if (Z.land (ready_bitmap s) time_slice_mask =? 0)
          && truthy (Z.land (expired_bitmap s) time_slice_mask)
       then epoch_swap s else Some s) = Some s1 /\ Inv s1 rq' eq' /\ picked s s1 /\
       switching_out_threads s1 = switching_out_threads s) as (s1 & E1 & I1 & P1 & S1).
  { unfold truthy. rewrite (mask_empty _ rq Rr (inv_rbit _ _ _ I)), (mask_empty _ eq Re (inv_ebit _ _ _ I)).
    fold (epoch_due rq eq). unfold rq', eq', ready_lists, expired_lists. destruct (epoch_due rq eq) eqn:Ed.
    - apply andb_true_iff in Ed as [Hr _]. rewrite all_empty_spec in Hr.
      destruct (epoch_swap_spec s rq eq I Hr) as (s1 & E1 & I1 & (? & ? & ? & _ & _ & ? & ?)).
      exists s1. split_and!; try done.
    - exists s. by split_and!. }
  unfold PickNext. rewrite E1. cbn [mbind option_bind].
  assert (List.find (eligible s1 cpuid) (level_list rq' 0) = choice) as Ec.
  { apply find_ext. intros p. by apply eligible_marks. }
  destruct (ready_bitmap s1 =? 0) eqn:Ez.
  - apply Z.eqb_eq in Ez. exists s1. unfold choice. rewrite (bitmap_zero s1 rq' eq') by done. by split_and!.
  - rewrite (scan_levels_spec 32 s1 rq' eq' cpuid _ 0%nat I1), Ec; [|lia|].
    + cbn [option_bind]. destruct choice as [node|]; cbn [default from_option id].
      * eexists. split_and!; [done| | |by rewrite S1]; [by apply Inv_cpu|].
        destruct P1 as (? & ? & ? & ?). by split_and!.
      * exists s1. by split_and!.
    + intros j Hj. by apply I1.
Qed.

(** ** Blocking and waking *)

(** What the processors see of a thread: everything but its place in the queues. *)
Definition body (t : ThreadBlock) : ThreadBlock := set_expired false (core t).

(** A change of the queues alone. *)
Definition quiet (s s' : Sched) : Prop :=
  current_thread s' = current_thread s /\ idle_thread s' = idle_thread s /\
  switching_out_threads s' = switching_out_threads s /\
  (forall p, is_Some (heap s' !! p) <-> is_Some (heap s !! p)) /\
  (forall p, body (thread s' p) = body (thread s p)).

#[global] Instance quiet_preorder : PreOrder quiet.
Proof.
  split.
  - intros s. by split_and!.
  - intros s1 s2 s3 (? & ? & ? & Hs & Ht) (? & ? & ? & Hs' & Ht').
    split_and!; try congruence. intros p. by rewrite Hs', Hs.
Qed.

Lemma body_fields t t' : body t = body t' -> state t = state t' /\ just_schedule t = just_schedule t' /\
  priority t = priority t' /\ queue_index t = queue_index t' /\ block_reason t = block_reason t' /\
  pending_wake t = pending_wake t' /\ time_slice t = time_slice t' /\ is_detached t = is_detached t' /\ tid t = tid t'.
Proof. intros [= ]. unfold queue_index. split_and!; congruence. Qed.

Lemma frame_quiet s s' : frame s s' -> (forall p, cores (heap s') p = cores (heap s) p) -> quiet s s'.
Proof.
  intros (? & ? & ? & ?) Hc. split_and!; try done. intros p. unfold body. f_equal. by apply core_thread.
Qed.

Lemma Dequeue_quiet s rq eq pb : Inv s rq eq -> pb <> 0 -> is_Some (heap s !! pb) ->
  Inv (DequeueReady pb s) (remove_q pb rq) (remove_q pb eq) /\ quiet s (DequeueReady pb s).
Proof.
  intros I Hp Hs. destruct (DequeueReady_spec s rq eq pb I Hp Hs) as (I' & F & C).
  split; [done|]. by apply frame_quiet.
Qed.

Lemma EnqueueReady_quiet s rq eq pb : Inv s rq eq -> pb <> 0 -> is_Some (heap s !! pb) ->
  state (thread s pb) = State.Ready -> ~ queued rq eq pb ->
  let i := queue_index (thread s pb) in
  Inv (EnqueueReady pb s) (upd_q rq i (rq i ++ [pb])) eq /\ quiet s (EnqueueReady pb s).
Proof.
  intros I Hp Hs Hst Hq. destruct (EnqueueReady_spec s rq eq pb I Hp Hs Hst Hq) as (I' & F & C).
  split; [done|]. by apply frame_quiet.
Qed.

Lemma EnqueueExpired_quiet s rq eq pb : Inv s rq eq -> pb <> 0 -> is_Some (heap s !! pb) ->
  state (thread s pb) = State.Ready -> ~ queued rq eq pb ->
  let i := queue_index (thread s pb) in
  Inv (EnqueueExpired pb s) rq (upd_q eq i (eq i ++ [pb])) /\ quiet s (EnqueueExpired pb s).
Proof.
  intros I Hp Hs Hst Hq. destruct (EnqueueExpired_spec s rq eq pb I Hp Hs Hst Hq) as (I' & (F1 & F2 & F3 & F4) & C).
  split; [done|]. split_and!; try done. intros p. specialize (C p).
  unfold body, thread, cores in *. destruct (decide (p = pb)) as [->|Hn].
  - rewrite lookup_alter_eq in C. destruct (heap (EnqueueExpired pb s) !! pb), (heap s !! pb); try done.
    apply (inj Some) in C. by apply (f_equal (set_expired false)) in C.
  - rewrite lookup_alter_ne in C by done. destruct (heap (EnqueueExpired pb s) !! p), (heap s !! p); try done.
    apply (inj Some) in C. by apply (f_equal (set_expired false)) in C.
Qed.

Lemma upd_ext s p f g : f (thread s p) = g (thread s p) -> upd p f s = upd p g s.
Proof.
  intros E. unfold upd, with_heap. f_equal. apply map_eq. intros q.
  destruct (decide (q = p)) as [->|]; [|by rewrite !lookup_alter_ne].
  rewrite !lookup_alter_eq. unfold thread in E. destruct (heap s !! p); [|done]. cbn in *. by rewrite E.
Qed.

Lemma upd_upd s p f g : upd p f (upd p g s) = upd p (fun t => f (g t)) s.
Proof.
  unfold upd, with_heap; cbn. f_equal. apply map_eq. intros q.
  destruct (decide (q = p)) as [->|]; [|by rewrite !lookup_alter_ne].
  rewrite !lookup_alter_eq. by destruct (heap s !! p).
Qed.

(** The thread changes its state while it is on no list. *)
Lemma Inv_set_state s rq eq p x : Inv s rq eq -> ~ queued rq eq p -> Inv (upd p (set_state x) s) rq eq.
Proof. intros I Hq. apply Inv_upd; [done|done|by right]. Qed.

Lemma not_ready_unqueued s rq eq p : Inv s rq eq -> state (thread s p) <> State.Ready -> ~ queued rq eq p.
Proof. intros I Hs (i & Hi & Hp). by apply Hs, (inv_home _ _ _ I i p Hi). Qed.

Lemma not_queued_removed pb rq eq : ~ queued (remove_q pb rq) (remove_q pb eq) pb.
Proof. rewrite queued_remove. by intros [? _]. Qed.

Lemma queued_enqueue_expired rq eq i pb p : (i < 32)%nat ->
  queued rq (upd_q eq i (eq i ++ [pb])) p <-> p = pb \/ queued rq eq p.
Proof. intros Hi. rewrite <- (queued_flip rq), queued_enqueue by done. by rewrite queued_flip. Qed.

Lemma upd_exists s p f q : is_Some (heap (upd p f s) !! q) <-> is_Some (heap s !! q).
Proof. apply is_Some_alter. Qed.

Lemma Block_spec s rq eq th reason : Inv s rq eq -> th <> 0 -> is_Some (heap s !! th) ->
  let s' := Block th reason s in let t := thread s th in
  Inv s' (remove_q th rq) (remove_q th eq) /\
  (exists s1, quiet s s1 /\ s' = upd th (if truthy (Z.land (pending_wake t) reason)
     then set_reasons (Z.ldiff (block_reason t) reason) (Z.ldiff (pending_wake t) reason)
     else fun t => set_reasons (Z.lor (block_reason t) reason) (pending_wake t) (set_state State.Pended t)) s1).
Proof.
  intros I Hp Hs s' t. destruct (Dequeue_quiet s rq eq th I Hp Hs) as [I1 Q1].
  unfold s', Block. pose proof Q1 as (_ & _ & _ & _ & Hb). specialize (Hb th).
  apply body_fields in Hb as (_ & _ & _ & _ & -> & -> & _). fold t.
  destruct (truthy _); (split; [apply Inv_upd; [done|done|]|by exists (DequeueReady th s)]).
  - by left.
  - right. apply not_queued_removed.
Qed.

(** Waking: the reason is gone; the last reason of a thread that is neither running nor ready puts
    it at the end of the list it belongs to. *)
Definition wakes (t : ThreadBlock) (reason : Z) : bool :=
  (Z.ldiff (block_reason t) reason =? 0) &&
  negb (bool_decide (state t = State.Running)) && negb (bool_decide (state t = State.Ready)).

Definition wake_lists (t : ThreadBlock) (th : Z) (rq eq : nat -> list Z) : (nat -> list Z) * (nat -> list Z) :=
  let i := queue_index t in
  if is_expired t then (rq, upd_q eq i (eq i ++ [th])) else (upd_q rq i (rq i ++ [th]), eq).

Definition unblocked (reason : Z) (t : ThreadBlock) : ThreadBlock :=
  let br := Z.ldiff (block_reason t) reason in
  set_reasons br
    (if (br =? 0) && bool_decide (state t = State.Running) then Z.lor (pending_wake t) reason else pending_wake t)
    (set_state (if wakes t reason then State.Ready else state t) t).

Lemma wake_enqueue s rq eq th t : Inv s rq eq -> th <> 0 -> is_Some (heap s !! th) ->
  state (thread s th) = State.Ready -> ~ queued rq eq th -> queue_index (thread s th) = queue_index t ->
  let s' := if is_expired t then EnqueueExpired th s else EnqueueReady th s in
  Inv s' (wake_lists t th rq eq).1 (wake_lists t th rq eq).2 /\ quiet s s'.
Proof.
  intros I Hp Hs Hst Hq Hi. unfold wake_lists. rewrite <- Hi.
  destruct (is_expired t); [by apply EnqueueExpired_quiet|by apply EnqueueReady_quiet].
Qed.

Lemma Unblock_spec s rq eq th reason : Inv s rq eq -> th <> 0 -> is_Some (heap s !! th) ->
  let s' := UnblockThreadLocked th reason s in let t := thread s th in
  let lists := if wakes t reason then wake_lists t th rq eq else (rq, eq) in
  Inv s' lists.1 lists.2 /\ quiet (upd th (unblocked reason) s) s'.
Proof.
  intros I Hp Hs s' t lists. unfold s', UnblockThreadLocked.
  set (br := Z.ldiff (block_reason t) reason). set (s1 := upd th _ s).
  assert (Inv s1 rq eq) as I1 by (apply Inv_upd; [done|done|by left]).
  assert (thread s1 th = set_reasons br (pending_wake t) t) as Ht by (unfold s1; by rewrite thread_alter, Z.eqb_refl).
  assert (forall g, g (set_reasons br (pending_wake t) t) = unblocked reason t ->
    upd th g s1 = upd th (unblocked reason) s) as Hu.
  { intros g Hg. unfold s1. rewrite upd_upd. by apply upd_ext. }
  assert (unblocked reason t = set_reasons br (pending_wake t) t -> s1 = upd th (unblocked reason) s) as Hs1.
  { intros E. apply upd_ext. change (thread s th) with t. by rewrite E. }
  rewrite Ht. cbn [block_reason set_reasons state pending_wake is_expired].
  assert (unblocked reason t = set_reasons br
    (if (br =? 0) && bool_decide (state t = State.Running) then Z.lor (pending_wake t) reason else pending_wake t)
    (set_state (if wakes t reason then State.Ready else state t) t)) as Eu by done.
  rewrite Eu in Hu, Hs1. clear Eu.
  destruct (wakes t reason) eqn:Ew; unfold wakes in Ew; fold br in Ew.
  - apply andb_true_iff in Ew as [[Eb Er%negb_true_iff]%andb_true_iff Ey%negb_true_iff].
    rewrite Eb, Er in *. cbn [negb andb] in *. apply bool_decide_eq_false in Er, Ey.
    assert (~ queued rq eq th) as Hq by (eapply not_ready_unqueued; [exact I|done]).
    set (s2 := upd th (set_state State.Ready) s1).
    assert (s2 = upd th (unblocked reason) s) as Es2 by (by apply Hu).
    destruct (wake_enqueue s2 rq eq th t) as [I3 Q3]; try done.
    { by apply Inv_set_state. }
    { unfold s2. by apply upd_exists, upd_exists. }
    { unfold s2. rewrite thread_alter, Z.eqb_refl; [done|by apply upd_exists]. }
    { unfold s2. rewrite thread_alter, Z.eqb_refl, Ht; [done|by apply upd_exists]. }
    unfold lists. rewrite <- Es2. destruct (state t); try done; by split.
  - unfold lists. destruct (br =? 0) eqn:Eb; cbn [negb andb] in *.
    + destruct (state t) eqn:Est; try done.
      * split; [apply Inv_upd; [done|done|by left]|]. rewrite Hu; [done|]. by destruct t; cbn in *; subst.
      * split; [done|]. rewrite <- Hs1; [done|]. by destruct t; cbn in *; subst.
    + split; [done|]. rewrite <- Hs1; [done|]. by destruct t.
Qed.
