(* ===== verification/SchedSys.v ===== *)
(** * The processors

    The invariant of the whole scheduler: besides the queues, the per-processor tables.  Every
    operation of [Sched] keeps it on every processor, so that in every reachable state no thread
    runs on two processors, a running thread is the current thread of a processor, and a thread
    whose context is still being saved is not resumed anywhere. *)
From S2P Require Import Prelude Sched SchedProof SchedSwitch.

Definition st (s : Sched) (p : Z) : State.t := state (thread s p).
Definition js (s : Sched) (p : Z) : bool := just_schedule (thread s p).
Definition cur (s : Sched) (c : nat) : Z := current_thread s !!! c.
Definition idl (s : Sched) (c : nat) : Z := idle_thread s !!! c.
Definition out (s : Sched) (c : nat) : Z := switching_out_threads s !!! c.
Definition has (s : Sched) (p : Z) : Prop := p <> 0 /\ is_Some (heap s !! p).

Definition idle_state (x : State.t) : Prop := x = State.Ready \/ x = State.Uninit \/ x = State.Running.

Record Cpus (n : nat) (s : Sched) : Prop := {
  cp_len : length (current_thread s) = n /\ length (idle_thread s) = n /\ length (switching_out_threads s) = n;
  cp_cur : forall c, (c < n)%nat -> cur s c = 0 \/ has s (cur s c);
  cp_cur_inj : forall c d, (c < n)%nat -> (d < n)%nat -> cur s c = cur s d -> cur s c <> 0 -> c = d;
  cp_idle : forall c, (c < n)%nat -> has s (idl s c) /\ idle_state (st s (idl s c));
  cp_idle_inj : forall c d, (c < n)%nat -> (d < n)%nat -> idl s c = idl s d -> c = d;
  cp_cur_idle : forall c d, (c < n)%nat -> (d < n)%nat -> cur s c = idl s d -> c = d;
  cp_running : forall p, has s p -> st s p = State.Running -> exists c, (c < n)%nat /\ cur s c = p;
  cp_out : forall c, (c < n)%nat -> out s c <> 0 ->
    js s (out s c) = true /\ forall d, (d < n)%nat -> cur s d <> out s c /\
      (d <> c -> idl s d <> out s c /\ out s d <> out s c);
}.

(** The queues, the processors, and idle threads that are never queued. *)
Record Sys (n : nat) (s : Sched) (rq eq : nat -> list Z) : Prop := {
  sys_inv : Inv s rq eq;
  sys_cpus : Cpus n s;
  sys_idle : forall c, (c < n)%nat -> ~ queued rq eq (idl s c);
}.

(** ** What keeps it *)

(** The processors see the tables, the heap's domain, the states and the switching marks. *)
Lemma Cpus_ext n s s' :
  current_thread s' = current_thread s -> idle_thread s' = idle_thread s ->
  switching_out_threads s' = switching_out_threads s ->
  (forall p, is_Some (heap s' !! p) <-> is_Some (heap s !! p)) ->
  (forall p, has s p -> st s' p = st s p /\ js s' p = js s p) -> (forall p, ~ has s p -> js s' p = js s p) ->
  Cpus n s -> Cpus n s'.
Proof.
  intros Ec Ei Eo Hh Hst Hjs [L C CI I II CI2 R O].
  assert (forall c, cur s' c = cur s c) as Hc by (intros; unfold cur; by rewrite Ec).
  assert (forall c, idl s' c = idl s c) as Hi by (intros; unfold idl; by rewrite Ei).
  assert (forall c, out s' c = out s c) as Ho by (intros; unfold out; by rewrite Eo).
  assert (forall p, has s' p <-> has s p) as Hhas by (intros; unfold has; by rewrite Hh).
  constructor.
  - by rewrite Ec, Ei, Eo.
  - intros c. rewrite Hc, Hhas. auto.
  - intros c d. rewrite !Hc. auto.
  - intros c Hlt. rewrite Hi, Hhas. destruct (I c Hlt) as [H1 H2]. by rewrite (proj1 (Hst _ H1)).
  - intros c d. rewrite !Hi. auto.
  - intros c d. rewrite Hc, Hi. auto.
  - intros p Hp%Hhas. rewrite (proj1 (Hst _ Hp)). intros Hr. destruct (R p Hp Hr) as (c & ? & ?).
    exists c. by rewrite Hc.
  - intros c Hlt Hnz. rewrite Ho in *. destruct (O c Hlt Hnz) as [H1 H2]. split.
    + rewrite <- H1. destruct (decide (is_Some (heap s !! out s c))); [by apply Hst|].
      apply Hjs. by intros [_ ?].
    + intros d Hd. rewrite Hc, Hi, Ho. by apply H2.
Qed.

Lemma Cpus_quiet n s s' : quiet s s' -> Cpus n s -> Cpus n s'.
Proof.
  intros (? & ? & ? & ? & Hb). apply Cpus_ext; try done.
  - intros p _. destruct (body_fields _ _ (Hb p)) as (E1 & E2 & _). by unfold st, js.
  - intros p _. by destruct (body_fields _ _ (Hb p)) as (_ & E2 & _).
Qed.

Lemma Cpus_upd n s p f : (forall t, state (f t) = state t /\ just_schedule (f t) = just_schedule t) ->
  Cpus n s -> Cpus n (upd p f s).
Proof.
  intros Hf. assert (forall q, st (upd p f s) q = st s q /\ js (upd p f s) q = js s q) as Hq.
  { intros q. unfold st, js. destruct (decide (q = p)) as [->|]; [|by rewrite thread_alter_other].
    unfold thread, upd; cbn. rewrite lookup_alter_eq. destruct (heap s !! p); [|done]. cbn. apply Hf. }
  apply Cpus_ext; try done; [intros q; apply upd_exists|intros q _; apply Hq..].
Qed.

(** A thread that is not idle, or an idle thread within its states, changes its state. *)
Lemma Cpus_set_state n s p x : has s p ->
  (x = State.Running -> exists c, (c < n)%nat /\ cur s c = p) ->
  ((forall c, (c < n)%nat -> idl s c <> p) \/ idle_state x) ->
  Cpus n s -> Cpus n (upd p (set_state x) s).
Proof.
  intros [Hp Hs] Hx Hid [L C CI I II CI2 R O].
  assert (forall q, has (upd p (set_state x) s) q <-> has s q) as Hhas.
  { intros q. unfold has. by rewrite upd_exists. }
  assert (forall q, js (upd p (set_state x) s) q = js s q /\
    st (upd p (set_state x) s) q = if q =? p then x else st s q) as Hq.
  { intros q. unfold st, js. rewrite thread_alter by done. destruct (q =? p) eqn:E; [|done].
    by apply Z.eqb_eq in E as ->. }
  constructor; try done.
  - intros c Hc. rewrite Hhas. by apply C.
  - intros c Hc. rewrite Hhas. destruct (I c Hc) as [H1 H2]. split; [done|].
    destruct (Hq (idl s c)) as [_ E]. change (idl (upd p (set_state x) s) c) with (idl s c). rewrite E.
    destruct (idl s c =? p) eqn:Ep; [|done]. apply Z.eqb_eq in Ep.
    destruct Hid as [Hid|]; [|done]. by destruct (Hid c Hc).
  - intros q Hh%Hhas. rewrite (proj2 (Hq q)). destruct (q =? p) eqn:Ep; [|by apply R].
    apply Z.eqb_eq in Ep as ->. auto.
  - intros c Hc. change (out (upd p (set_state x) s) c) with (out s c). rewrite (proj1 (Hq _)). by apply O.
Qed.

(** [SettleSwitchingOutThread] with nothing to destroy. *)
Definition settles (s : Sched) (c : nat) : Prop :=
  let t := thread s (out s c) in (state t = State.Hanging /\ is_detached t = true) -> out s c = 0.

Lemma Settle_eq D s c : settles s c -> SettleSwitchingOutThread D c s =
  if out s c =? 0 then s
  else with_switching (<[c := 0]> (switching_out_threads s)) (upd (out s c) (set_just false) s).
Proof.
  intros Hs. unfold SettleSwitchingOutThread. fold (out s c). destruct (out s c =? 0) eqn:E; [done|].
  destruct (_ && _) eqn:Ed; [|done]. apply andb_true_iff in Ed as [Eh%bool_decide_eq_true Ed].
  apply Z.eqb_neq in E. by destruct E; apply Hs.
Qed.

Lemma lookup_total_insert_z (l : list Z) c d x : (c < length l)%nat ->
  <[c := x]> l !!! d = if (d =? c)%nat then x else l !!! d.
Proof.
  intros Hc. destruct (d =? c)%nat eqn:E.
  - apply Nat.eqb_eq in E as ->. by apply list_lookup_total_insert_eq.
  - apply Nat.eqb_neq in E. by apply list_lookup_total_insert_ne.
Qed.

Lemma Settle_Cpus n D s c : (c < n)%nat -> settles s c -> Cpus n s ->
  let s' := SettleSwitchingOutThread D c s in Cpus n s' /\ out s' c = 0.
Proof.
  intros Hc Hset K s'. unfold s'. rewrite (Settle_eq D s c Hset). destruct (out s c =? 0) eqn:E; [by apply Z.eqb_eq in E|].
  apply Z.eqb_neq in E. destruct K as [(L1 & L2 & L3) C CI I II CI2 R O].
  set (p := out s c) in *. set (s1 := with_switching _ _).
  destruct (O c Hc E) as [_ Oc].
  assert (forall q, has s1 q <-> has s q) as Hhas.
  { intros q. unfold has. change (heap s1) with (heap (upd p (set_just false) s)). by rewrite upd_exists. }
  assert (forall q, st s1 q = st s q /\ (q <> p -> js s1 q = js s q)) as Hq.
  { intros q. unfold st, js. change (thread s1 q) with (thread (upd p (set_just false) s) q).
    destruct (decide (q = p)) as [->|]; [|by rewrite thread_alter_other].
    unfold thread, upd; cbn. rewrite lookup_alter_eq. by destruct (heap s !! p). }
  assert (forall d, out s1 d = if (d =? c)%nat then 0 else out s d) as Ho.
  { intros d. unfold out, s1. sred. apply lookup_total_insert_z. lia. }
  split; [|by rewrite Ho, Nat.eqb_refl]. constructor; try done.
  - unfold s1; sred. by rewrite length_insert.
  - intros d Hd. rewrite Hhas. by apply C.
  - intros d Hd. rewrite Hhas, (proj1 (Hq _)). by apply I.
  - intros q Hh%Hhas. rewrite (proj1 (Hq q)). by apply R.
  - intros d Hd. rewrite Ho. destruct (d =? c)%nat eqn:Ed; [done|]. apply Nat.eqb_neq in Ed. intros Hnz.
    destruct (O d Hd Hnz) as [J1 J2]. split.
    + rewrite (proj2 (Hq _)); [done|]. by apply (Oc d Hd).
    + intros e He. destruct (J2 e He) as [K1 K2]. split; [done|]. intros Hne. rewrite Ho.
      destruct (K2 Hne) as [K3 K4]. split; [done|]. destruct (e =? c)%nat; [by apply not_eq_sym|done].
Qed.

(** The processor takes [new] and lets [old] go. *)
Lemma Cpus_switch n s s' c old new : Cpus n s -> (c < n)%nat -> cur s c = old -> old <> 0 -> out s c = 0 ->
  st s old <> State.Running -> has s new -> new <> old ->
  (forall d, (d < n)%nat -> cur s d <> new /\ out s d <> new /\ (d <> c -> idl s d <> new)) ->
  current_thread s' = <[c := new]> (current_thread s) -> idle_thread s' = idle_thread s ->
  switching_out_threads s' = <[c := old]> (switching_out_threads s) ->
  (forall p, is_Some (heap s' !! p) <-> is_Some (heap s !! p)) ->
  (forall p, st s' p = if p =? new then State.Running else st s p) ->
  (forall p, js s' p = if p =? old then true else js s p) -> Cpus n s'.
Proof.
  intros [(L1 & L2 & L3) C CI I II CI2 R O] Hc Hcur Hold Hout Hst Hnew Hne Hfree Ec Ei Eo Hh Hst' Hjs'.
  assert (forall d, cur s' d = if (d =? c)%nat then new else cur s d) as Hc'.
  { intros d. unfold cur. rewrite Ec. apply lookup_total_insert_z. lia. }
  assert (forall d, idl s' d = idl s d) as Hi' by (intros; unfold idl; by rewrite Ei).
  assert (forall d, out s' d = if (d =? c)%nat then old else out s d) as Ho'.
  { intros d. unfold out. rewrite Eo. apply lookup_total_insert_z. lia. }
  assert (forall q, has s' q <-> has s q) as Hhas by (intros; unfold has; by rewrite Hh).
  constructor.
  - rewrite Ec, Ei, Eo, !length_insert. done.
  - intros d Hd. rewrite Hc', Hhas. destruct (d =? c)%nat; [by right|by apply C].
  - intros d e Hd He. rewrite !Hc'. destruct (d =? c)%nat eqn:E1, (e =? c)%nat eqn:E2; [lia| | |by apply CI].
    + intros Heq. by destruct (Hfree e He) as [[] _].
    + intros Heq. by destruct (Hfree d Hd) as [[] _].
  - intros d Hd. rewrite Hi', Hhas, Hst'. destruct (I d Hd) as [I1 I2]. split; [done|].
    destruct (idl s d =? new); [unfold idle_state; tauto|done].
  - intros d e Hd He. rewrite !Hi'. by apply II.
  - intros d e Hd He. rewrite Hc', Hi'. destruct (d =? c)%nat eqn:E1; [|by apply CI2].
    apply Nat.eqb_eq in E1 as ->. intros Heq. destruct (Hfree e He) as (_ & _ & Hf).
    destruct (decide (e = c)) as [->|Hn]; [done|]. by destruct (Hf Hn).
  - intros p Hp%Hhas. rewrite Hst'. destruct (p =? new) eqn:E.
    + apply Z.eqb_eq in E as ->. intros _. exists c. by rewrite Hc', Nat.eqb_refl.
    + intros Hr. destruct (R p Hp Hr) as (d & Hd & Hcd). exists d. rewrite Hc'.
      destruct (d =? c)%nat eqn:Ed; [|done]. apply Nat.eqb_eq in Ed as ->. congruence.
  - intros d Hd. rewrite Ho'. destruct (d =? c)%nat eqn:Ed.
    + apply Nat.eqb_eq in Ed as ->. intros _. rewrite Hjs', Z.eqb_refl. split; [done|].
      intros e He. rewrite Hc', Hi', Ho'. destruct (e =? c)%nat eqn:Ee.
      { apply Nat.eqb_eq in Ee as ->. done. }
      apply Nat.eqb_neq in Ee. split; [|intros _; split].
      * intros Heq. apply Ee, CI; congruence.
      * intros Heq. apply Ee. symmetry. apply (CI2 c e); congruence.
      * destruct (decide (out s e = 0)) as [->|Hz]; [by apply not_eq_sym|].
        intros Heq. by destruct (O e He Hz) as [_ [K _]%(fun f => f c Hc)]; congruence.
    + apply Nat.eqb_neq in Ed. intros Hnz. destruct (O d Hd Hnz) as [J1 J2].
      rewrite Hjs'. split; [by destruct (_ =? old)|]. intros e He. destruct (J2 e He) as [K1 K2].
      rewrite Hc', Hi', Ho'. destruct (e =? c)%nat eqn:Ee; [|by split].
      apply Nat.eqb_eq in Ee as ->. destruct (J2 c Hc) as [K _]. destruct (Hfree d Hd) as (_ & Hf & _).
      split; [by apply not_eq_sym|]. intros _. split; [by apply K2|]. congruence.
Qed.

(** ** Steps on the whole invariant *)

Lemma Sys_quiet n s s' rq eq rq' eq' : Sys n s rq eq -> quiet s s' -> Inv s' rq' eq' ->
  (forall p, queued rq' eq' p -> queued rq eq p \/ forall c, (c < n)%nat -> idl s c <> p) -> Sys n s' rq' eq'.
Proof.
  intros [I K Q] Hq I' Hsub. split; [done|by eapply Cpus_quiet|]. intros c Hc Hqd.
  destruct Hq as (_ & Ei & _). unfold idl in *. rewrite Ei in Hqd.
  destruct (Hsub _ Hqd) as [Hold|Hnew]; [by apply (Q c Hc)|by apply (Hnew c Hc)].
Qed.

Lemma Sys_upd n s rq eq p f : (forall t, queue_state_prev (f t) = queue_state_prev t /\
    queue_state_next (f t) = queue_state_next t /\ priority (f t) = priority t) ->
  (forall t, state (f t) = state t /\ just_schedule (f t) = just_schedule t) ->
  Sys n s rq eq -> Sys n (upd p f s) rq eq.
Proof.
  intros H1 H2 [I K Q]. split; [apply Inv_upd; [done|done|left; apply H2]|by apply Cpus_upd|done].
Qed.

Lemma Sys_set_state n s rq eq p x : Sys n s rq eq -> has s p -> ~ queued rq eq p ->
  (x = State.Running -> exists c, (c < n)%nat /\ cur s c = p) ->
  ((forall c, (c < n)%nat -> idl s c <> p) \/ idle_state x) -> Sys n (upd p (set_state x) s) rq eq.
Proof.
  intros [I K Q] Hp Hq Hx Hid. split; [by apply Inv_set_state|by apply Cpus_set_state|done].
Qed.

Lemma Sys_dequeue n s rq eq p : Sys n s rq eq -> has s p ->
  Sys n (DequeueReady p s) (remove_q p rq) (remove_q p eq) /\ quiet s (DequeueReady p s).
Proof.
  intros S [Hp Hs]. destruct (Dequeue_quiet s rq eq p (sys_inv _ _ _ _ S) Hp Hs) as [I Q].
  split; [|done]. eapply Sys_quiet; [exact S|done|done|]. intros q. rewrite queued_remove. tauto.
Qed.

(** An operation that puts a ready thread at the end of one of the lists. *)
Definition enqueues (n : nat) (enq : Z -> Sched -> Sched) : Prop :=
  forall s rq eq p, Sys n s rq eq -> has s p -> st s p = State.Ready -> ~ queued rq eq p ->
  (forall c, (c < n)%nat -> idl s c <> p) ->
  exists rq' eq', Sys n (enq p s) rq' eq' /\ quiet s (enq p s) /\
    (forall q, queued rq' eq' q <-> q = p \/ queued rq eq q).

Lemma EnqueueExpired_enqueues n : enqueues n EnqueueExpired.
Proof.
  intros s rq eq p S [Hp Hs] Hst Hq Hid.
  destruct (EnqueueExpired_quiet s rq eq p (sys_inv _ _ _ _ S) Hp Hs Hst Hq) as [I Q].
  eexists _, _. split_and!; [|done|intros q; apply queued_enqueue_expired, queue_index_lt].
  eapply Sys_quiet; [exact S|done|done|].
  intros q [->|]%queued_enqueue_expired; [by right|by left|apply queue_index_lt].
Qed.

Lemma EnqueueReady_enqueues n : enqueues n EnqueueReady.
Proof.
  intros s rq eq p S [Hp Hs] Hst Hq Hid.
  destruct (EnqueueReady_quiet s rq eq p (sys_inv _ _ _ _ S) Hp Hs Hst Hq) as [I Q].
  eexists _, _. split_and!; [|done|intros q; apply queued_enqueue, queue_index_lt].
  eapply Sys_quiet; [exact S|done|done|].
  intros q [->|]%queued_enqueue; [by right|by left|apply queue_index_lt].
Qed.

Lemma has_quiet s s' p : quiet s s' -> has s' p <-> has s p.
Proof. intros (_ & _ & _ & Hh & _). unfold has. by rewrite Hh. Qed.
Lemma st_quiet s s' p : quiet s s' -> st s' p = st s p.
Proof. intros (_ & _ & _ & _ & Hb). by destruct (body_fields _ _ (Hb p)) as (E & _). Qed.
Lemma has_upd s p f q : has (upd p f s) q <-> has s q.
Proof. unfold has. by rewrite upd_exists. Qed.
Lemma st_set_state s p x q : has s p -> st (upd p (set_state x) s) q = if q =? p then x else st s q.
Proof. intros [_ Hs]. unfold st. rewrite thread_alter by done. by destruct (q =? p). Qed.

Lemma js_upd s p f q : (forall t, just_schedule (f t) = just_schedule t) -> js (upd p f s) q = js s q.
Proof.
  intros Hf. unfold js. destruct (decide (q = p)) as [->|]; [|by rewrite thread_alter_other].
  unfold thread, upd; cbn. rewrite lookup_alter_eq. destruct (heap s !! p); [|done]. cbn. apply Hf.
Qed.
Lemma st_upd s p f q : (forall t, state (f t) = state t) -> st (upd p f s) q = st s q.
Proof.
  intros Hf. unfold st. destruct (decide (q = p)) as [->|]; [|by rewrite thread_alter_other].
  unfold thread, upd; cbn. rewrite lookup_alter_eq. destruct (heap s !! p); [|done]. cbn. apply Hf.
Qed.
Lemma js_set_just s p x q : has s p -> js (upd p (set_just x) s) q = if q =? p then x else js s q.
Proof. intros [_ Hs]. unfold js. rewrite thread_alter by done. by destruct (q =? p). Qed.

(** ** Giving the processor up *)

Definition tables (s s' : Sched) : Prop :=
  current_thread s' = current_thread s /\ idle_thread s' = idle_thread s /\
  switching_out_threads s' = switching_out_threads s /\ forall p, has s' p <-> has s p.

#[global] Instance tables_preorder : PreOrder tables.
Proof.
  split; [intros s; by split_and!|].
  intros s1 s2 s3 (? & ? & ? & Ha) (? & ? & ? & Hb). split_and!; try congruence. intros p. by rewrite Hb.
Qed.

Lemma quiet_tables s s' : quiet s s' -> tables s s'.
Proof. intros Q. pose proof Q as (? & ? & ? & _). split_and!; try done. intros p. by apply has_quiet. Qed.
Lemma upd_tables s p f : tables s (upd p f s).
Proof. split_and!; try done. intros q. apply has_upd. Qed.

Record Yielded (n : nat) (s : Sched) (rq eq : nat -> list Z) (c : nat) (s1 : Sched) (rq1 eq1 : nat -> list Z) : Prop := {
  y_sys : Sys n s1 rq1 eq1;
  y_tables : tables s s1;
  y_queued : forall p, queued rq eq p -> queued rq1 eq1 p;
  y_old : cur s c <> idl s c -> st s1 (cur s c) <> State.Running /\
    (st s (cur s c) = State.Running -> queued rq1 eq1 (cur s c));
  y_state : forall p, p <> cur s c -> st s1 p = st s p;
  y_idle : cur s c = idl s c -> st s (cur s c) = State.Running -> runnable_state (st s1 (cur s c)) = true;
}.

(** The thread is taken off the queues, made ready and put at the end of one of its lists. *)
Lemma Sys_requeue n s rq eq p : Sys n s rq eq -> has s p -> (forall c, (c < n)%nat -> idl s c <> p) ->
  let s1 := upd p (set_state State.Ready) (DequeueReady p s) in
  Sys n s1 (remove_q p rq) (remove_q p eq) /\ has s1 p /\ st s1 p = State.Ready /\ tables s s1 /\
  (forall q, q <> p -> st s1 q = st s q).
Proof.
  intros S Hp Hid s1. destruct (Sys_dequeue _ _ _ _ p S Hp) as [S1 Q1].
  assert (has (DequeueReady p s) p) as Hp1 by (by apply (has_quiet _ _ _ Q1)).
  assert (forall c, (c < n)%nat -> idl (DequeueReady p s) c <> p) as Hid1.
  { intros c Hc. destruct Q1 as (_ & Ei & _). unfold idl. rewrite Ei. by apply Hid. }
  split_and!.
  - apply Sys_set_state; [done|done|apply not_queued_removed|done|by left].
  - by apply has_upd.
  - unfold s1. by rewrite st_set_state, Z.eqb_refl.
  - etrans; [by apply quiet_tables|apply upd_tables].
  - intros q Hn. unfold s1. rewrite st_set_state by done. rewrite (proj2 (Z.eqb_neq _ _) Hn). by apply st_quiet.
Qed.

Lemma requeue n enq s rq eq c p f : enqueues n enq -> Sys n s rq eq -> (c < n)%nat -> has s p ->
  (forall c, (c < n)%nat -> idl s c <> p) -> cur s c = p -> (f = (fun t => t) \/ exists x, f = set_slice x) ->
  exists rq1 eq1, Yielded n s rq eq c (upd p f (enq p (upd p (set_state State.Ready) (DequeueReady p s)))) rq1 eq1.
Proof.
  intros He S Hcn Hp Hid Hc Hf. destruct (Sys_requeue n s rq eq p S Hp Hid) as (S1 & Hp1 & Hst1 & T1 & O1).
  destruct (He _ _ _ p S1 Hp1 Hst1) as (rq' & eq' & S2 & Q2 & Hq).
  { apply not_queued_removed. } { intros d Hd. destruct T1 as (_ & Ei & _). unfold idl. rewrite Ei. by apply Hid. }
  exists rq', eq'. split.
  - apply Sys_upd; [..|exact S2]; by destruct Hf as [->|[x ->]].
  - etrans; [exact T1|]. etrans; [by apply quiet_tables|apply upd_tables].
  - intros q Hqd. apply Hq. rewrite queued_remove. destruct (decide (q = p)); tauto.
  - rewrite Hc. intros _. split; [|intros _; apply Hq; by left].
    pose proof (st_quiet _ _ p Q2) as E. rewrite Hst1 in E. unfold st in *.
    rewrite thread_alter, Z.eqb_refl by (by apply (has_quiet _ _ p Q2)).
    destruct Hf as [->|[x ->]]; cbn; by rewrite E.
  - intros q Hn. rewrite Hc in Hn. rewrite st_upd by (by destruct Hf as [->|[x ->]]).
    rewrite (st_quiet _ _ _ Q2). by apply O1.
  - intros E. destruct (Hid c Hcn). congruence.
Qed.

Lemma upd_id s p : upd p (fun t => t) s = s.
Proof.
  unfold upd, with_heap. destruct s as [h ? ? ? ? ? ? ?]; cbn. f_equal. apply map_eq. intros q.
  destruct (decide (q = p)) as [->|]; [|by rewrite lookup_alter_ne].
  rewrite lookup_alter_eq. by destruct (h !! p).
Qed.

Lemma Yielded_refl n s rq eq c : Sys n s rq eq -> (cur s c <> idl s c -> st s (cur s c) <> State.Running) ->
  Yielded n s rq eq c s rq eq.
Proof.
  intros S Hs. split; try done.
  - intros Hn. split; [by apply Hs|]. intros E. by destruct (Hs Hn).
  - by intros _ ->.
Qed.

Lemma not_idle n s c : Cpus n s -> (c < n)%nat -> cur s c <> idl s c ->
  forall d, (d < n)%nat -> idl s d <> cur s c.
Proof.
  intros K Hc Hn d Hd E. assert (c = d) as <- by (apply (cp_cur_idle _ _ K); done). done.
Qed.

(** A current thread that is neither running nor ready is only made ready. *)
Lemma unqueued_requeue n s rq eq c : Sys n s rq eq -> (c < n)%nat -> has s (cur s c) -> cur s c <> idl s c ->
  st s (cur s c) <> State.Ready -> st s (cur s c) <> State.Running ->
  exists rq1 eq1, Yielded n s rq eq c (upd (cur s c) (set_state State.Ready) (DequeueReady (cur s c) s)) rq1 eq1.
Proof.
  intros S Hc Hp Hn Hs1 Hs2. pose proof (not_idle n s c (sys_cpus _ _ _ _ S) Hc Hn) as Hid.
  destruct (Sys_requeue n s rq eq _ S Hp Hid) as (S1 & Hp1 & Hst1 & T1 & O1).
  eexists _, _. split; [done|done| | |exact O1|done].
  - intros q Hq. apply queued_remove. split; [|done]. intros ->.
    by eapply not_ready_unqueued; [apply S|exact Hs1|exact Hq].
  - intros _. rewrite Hst1. split; [done|]. intros E. by destruct Hs2.
Qed.

Lemma ifContinueProcess_spec n s rq eq c : Sys n s rq eq -> (c < n)%nat -> has s (cur s c) -> cur s c <> idl s c ->
  match ifContinueProcess (cur s c) s with
  | (true, s1) => Sys n s1 rq eq /\ tables s s1 /\ st s1 (cur s c) = State.Running /\ forall p, st s1 p = st s p
  | (false, s1) => exists rq1 eq1, Yielded n s rq eq c s1 rq1 eq1
  end.
Proof.
  intros S Hc Hp Hn. pose proof (not_idle n s c (sys_cpus _ _ _ _ S) Hc Hn) as Hid.
  unfold ifContinueProcess. set (p := cur s c) in *. case_bool_decide as Hr.
  2: { exists rq, eq. apply Yielded_refl; [done|]. intros _. exact Hr. }
  destruct (0 <? time_slice (thread s p)).
  - split_and!; [by apply Sys_upd|apply upd_tables|by rewrite st_upd|intros q; by apply st_upd].
  - destruct (0 <=? priority (thread s p)).
    + apply requeue; try done; [apply EnqueueExpired_enqueues|right; by eexists].
    + apply requeue; try done; [apply EnqueueReady_enqueues|right; by eexists].
Qed.

Lemma yield_old_spec n s rq eq c omit : Sys n s rq eq -> (c < n)%nat -> has s (cur s c) ->
  match yield_old omit c (cur s c) s with
  | None => Sys n (keep_old omit c (cur s c) s) rq eq /\ tables s (keep_old omit c (cur s c) s) /\
      (cur s c <> idl s c -> st (keep_old omit c (cur s c) s) (cur s c) = State.Running) /\
      (cur s c = idl s c -> keep_old omit c (cur s c) s = s) /\
      (forall p, p <> cur s c -> st (keep_old omit c (cur s c) s) p = st s p)
  | Some s1 => exists rq1 eq1, Yielded n s rq eq c s1 rq1 eq1
  end.
Proof.
  intros S Hc Hp. unfold yield_old, keep_old. fold (idl s c). set (p := cur s c) in *.
  destruct (idl s c =? p) eqn:Ei; [apply Z.eqb_eq in Ei|apply Z.eqb_neq, not_eq_sym in Ei].
  - (* the idle thread *) destruct omit; cbn [negb andb].
    + destruct (state (thread s p)) eqn:Est.
      all: try (exists rq, eq; apply Yielded_refl; [done|intros Hn; by destruct Hn]).
      all: exists rq, eq; split; try done; try apply upd_tables; try (intros Hn; by destruct Hn).
      all: try (intros _ _; fold p; by rewrite st_set_state, Z.eqb_refl).
      all: try (intros q Hn; fold p in Hn; rewrite st_set_state by done; by rewrite (proj2 (Z.eqb_neq _ _) Hn)).
      all: apply Sys_set_state; try done; [rewrite <- Ei; by apply (sys_idle _ _ _ _ S)|right; by left].
    + destruct (_ && _); [by split_and!|]. exists rq, eq. apply Yielded_refl; [done|intros Hn; by destruct Hn].
  - pose proof (not_idle n s c (sys_cpus _ _ _ _ S) Hc Ei) as Hid. destruct omit; cbn [negb andb].
    + destruct (state (thread s p)) eqn:Est; cbn [runnable_state].
      all: try (exists rq, eq; apply Yielded_refl; [done|]; intros _; unfold st; fold p; by rewrite Est).
      all: rewrite ?bool_decide_eq_true_2, ?bool_decide_eq_false_2 by done; cbn [orb].
      1,2: rewrite <- (upd_id (EnqueueExpired _ _) p); apply requeue; try done; [apply EnqueueExpired_enqueues|by left].
      all: apply unqueued_requeue; try done; unfold st; fold p; by rewrite Est.
    + pose proof (ifContinueProcess_spec n s rq eq c S Hc Hp Ei) as H. fold p in H.
      destruct (ifContinueProcess p s) as [[|] s1]; [|done]. destruct H as (? & ? & ? & ?). by split_and!.
Qed.

(** ** Choosing and switching *)

Lemma clear_switching_id p l : p ∉ l -> clear_switching p l = l.
Proof.
  induction l as [|x l IH]; [done|]. rewrite not_elem_of_cons. intros [Hn Hl]. cbn.
  rewrite (proj2 (Z.eqb_neq x p)) by auto. by rewrite IH.
Qed.

Lemma level_list_elem g p : In p (level_list g 0) -> exists i, (i < 32)%nat /\ p ∈ g i.
Proof.
  unfold level_list. rewrite in_concat. intros (l & (i & <- & Hi%in_seq)%in_map_iff & Hp).
  exists i. split; [lia|]. by apply list_elem_of_In.
Qed.

Lemma eligible_spec s c p : eligible s c p = true ->
  js s p = false /\ st s p <> State.Running /\
  forall d, (d < length (current_thread s))%nat -> d <> c -> cur s d <> p.
Proof.
  unfold eligible. rewrite !andb_true_iff, !negb_true_iff. intros [[Hj Hr] He].
  split_and!; [done|by apply bool_decide_eq_false in Hr|].
  intros d Hd Hn Hc. assert (existsb (fun c0 => negb (c0 =? c)%nat && (current_thread s !!! c0 =? p))
    (seq 0 (length (current_thread s))) = true) as E; [|congruence].
  apply existsb_exists. exists d. split; [apply in_seq; lia|]. fold (cur s d). rewrite Hc, Z.eqb_refl.
  by rewrite (proj2 (Nat.eqb_neq d c)).
Qed.

(** A thread that this processor may take. *)
Record Pick (n : nat) (s : Sched) (rq eq : nat -> list Z) (c : nat) (p : Z) : Prop := {
  pk_has : has s p;
  pk_state : st s p = State.Ready \/ (p = idl s c /\ st s p = State.Uninit);
  pk_free : forall d, (d < n)%nat -> out s d <> p /\ (d <> c -> cur s d <> p /\ idl s d <> p);
}.

Lemma queued_pick n s rq eq c p : Sys n s rq eq -> queued rq eq p -> eligible s c p = true -> Pick n s rq eq c p.
Proof.
  intros S Hq He. pose proof S as [I K Q]. destruct (eligible_spec s c p He) as (Hj & Hr & Hc).
  assert (has s p) as Hp.
  { destruct Hq as (i & Hi & [Hp|Hp]); eapply dseg_nonzero; try exact Hp.
    - by apply (inv_r _ _ _ I i Hi).
    - by apply (inv_e _ _ _ I i Hi). }
  split; [done|left|].
  - destruct Hq as (i & Hi & Hpi). by apply (inv_home _ _ _ I i p Hi).
  - intros d Hd. split.
    + intros E. destruct Hp as [Hz _]. destruct (cp_out _ _ K d Hd) as [J _]; congruence.
    + intros Hn. split; [apply Hc; [|done]; by rewrite (proj1 (cp_len _ _ K))|].
      intros E. apply (Q d Hd). by rewrite E.
Qed.

Lemma PickNext_Sys n s rq eq c : Sys n s rq eq -> (c < n)%nat ->
  exists p s', PickNext c s = Some (p, s') /\ quiet s s' /\
    Sys n s' (ready_lists rq eq) (expired_lists rq eq) /\
    (p = 0 \/ Pick n s' (ready_lists rq eq) (expired_lists rq eq) c p /\ queued rq eq p).
Proof.
  intros S Hc. pose proof S as [I K Q].
  destruct (PickNext_spec s rq eq c I) as (s' & E & I' & (P1 & P2 & P3 & P4) & Ho).
  set (choice := List.find _ _) in *.
  assert (forall p, choice = Some p -> queued (ready_lists rq eq) (expired_lists rq eq) p /\ eligible s c p = true) as Hch.
  { intros p Hp. apply find_some in Hp as [Hin He]. split; [|done].
    apply level_list_elem in Hin as (i & Hi & Hpi). exists i. tauto. }
  assert (quiet s s') as Hqt.
  { split_and!; try done.
    - rewrite Ho. destruct choice as [p|]; [|done]. cbn [from_option]. apply clear_switching_id.
      destruct (Hch p eq_refl) as [Hq He]. rewrite queued_lists in Hq.
      intros (d & Hd)%list_elem_of_lookup. pose proof (queued_pick n s rq eq c p S Hq He) as PK.
      assert (d < n)%nat as Hdn by (rewrite <- (proj2 (proj2 (cp_len _ _ K))); by eapply lookup_lt_Some).
      destruct (pk_free _ _ _ _ _ _ PK d Hdn) as [Hf _]. apply Hf. unfold out. by apply list_lookup_total_correct.
    - intros p. specialize (P4 p). unfold body.
      apply (f_equal (fun t => set_prev 0 (set_next 0 t))) in P4. exact P4. }
  assert (Sys n s' (ready_lists rq eq) (expired_lists rq eq)) as S'.
  { eapply Sys_quiet; [exact S|done|done|]. intros p Hp. left. by rewrite queued_lists in Hp. }
  exists (default 0 choice), s'. split_and!; try done.
  destruct choice as [p|]; [right|by left]. cbn [default from_option id]. destruct (Hch p eq_refl) as [Hq He].
  split; [|by rewrite queued_lists in Hq]. apply queued_pick; [done|done|].
  erewrite eligible_marks; [exact He|]. by split_and!.
Qed.

(** Before the switch the thread leaves the queues, unless it is the idle thread. *)
Lemma unqueue_new n s rq eq c new : Sys n s rq eq -> (c < n)%nat -> has s new ->
  exists rq' eq', let s' := if idle_thread s !!! c =? new then s else DequeueReady new s in
    Sys n s' rq' eq' /\ quiet s s' /\ (forall q, queued rq' eq' q <-> q <> new /\ queued rq eq q).
Proof.
  intros S Hc Hp. fold (idl s c). destruct (idl s c =? new) eqn:E.
  - apply Z.eqb_eq in E as <-. exists rq, eq. split_and!; try done. intros q. split; [|tauto].
    intros Hq. split; [|done]. intros ->. by apply (sys_idle _ _ _ _ S c Hc).
  - destruct (Sys_dequeue _ _ _ _ _ S Hp) as [S1 Q1]. eexists _, _. split_and!; [done|done|].
    intros q. apply queued_remove.
Qed.

(** The common end of [Schedule] and [SleepAndRelease]. *)
Lemma Sys_switch n s s' rq eq c old new : Sys n s rq eq -> (c < n)%nat -> cur s c = old -> has s old ->
  out s c = 0 -> st s old <> State.Running -> has s new -> new <> old ->
  (forall d, (d < n)%nat -> out s d <> new /\ (d <> c -> cur s d <> new /\ idl s d <> new)) ->
  Inv s' rq eq ->
  current_thread s' = <[c := new]> (current_thread s) -> idle_thread s' = idle_thread s ->
  switching_out_threads s' = <[c := old]> (switching_out_threads s) ->
  (forall p, is_Some (heap s' !! p) <-> is_Some (heap s !! p)) ->
  (forall p, st s' p = if p =? new then State.Running else st s p) ->
  (forall p, js s' p = if p =? old then true else js s p) -> Sys n s' rq eq.
Proof.
  intros [I K Q] Hc Hcur [Hold Hos] Hout Hst Hnew Hne Hfree I' Ec Ei Eo Hh Hst' Hjs'. split; [done| |].
  - eapply (Cpus_switch n s s' c old new); try done. intros d Hd. destruct (Hfree d Hd) as [F1 F2].
    split_and!; [|done|intros Hn; by apply F2].
    destruct (decide (d = c)) as [->|Hn]; [congruence|by apply F2].
  - intros d Hd. unfold idl. rewrite Ei. by apply Q.
Qed.

Lemma idle_pick n s rq eq c : Sys n s rq eq -> (c < n)%nat -> cur s c <> idl s c -> out s c = 0 ->
  Pick n s rq eq c (idl s c).
Proof.
  intros [I K Q] Hc Hn Hout. destruct (cp_idle _ _ K c Hc) as [Hp Hs]. split; [done| |].
  - destruct Hs as [Hs|[Hs|Hs]]; [by left|by right|].
    destruct (cp_running _ _ K _ Hp Hs) as (d & Hd & E).
    assert (d = c) as -> by (by apply (cp_cur_idle _ _ K)). done.
  - intros d Hd. split.
    + destruct (decide (d = c)) as [->|Hne]; [rewrite Hout; by destruct Hp|].
      intros E. destruct Hp as [Hz _]. destruct (cp_out _ _ K d Hd) as [_ J]; [congruence|].
      destruct (J c Hc) as [_ J2]. destruct J2 as [J2 _]; [congruence|]. by apply J2.
    + intros Hne. split; intros E; apply Hne; [by apply (cp_cur_idle _ _ K)|by apply (cp_idle_inj _ _ K)].
Qed.

(** What a switch changes, whatever the order of the updates. *)
Definition switched (c : nat) (old new : Z) (s : Sched) : Sched :=
  with_switching (<[c := old]> (switching_out_threads s))
    (upd old (set_just true) (upd new (set_cpu (Z.of_nat c)) (with_current c new (upd new (set_state State.Running) s)))).

Lemma switched_Sys n s rq eq c old new : Sys n s rq eq -> (c < n)%nat -> cur s c = old -> has s old ->
  out s c = 0 -> st s old <> State.Running -> new <> old -> Pick n s rq eq c new -> ~ queued rq eq new ->
  let s' := switched c old new s in
  Sys n s' rq eq /\ cur s' c = new /\ st s' new = State.Running /\ (forall d, d <> c -> cur s' d = cur s d) /\
  (forall p, p <> new -> st s' p = st s p).
Proof.
  intros S Hc Hcur Hold Hout Hst Hne PK Hq s'. pose proof (pk_has _ _ _ _ _ _ PK) as Hnew.
  set (s1 := upd new (set_state State.Running) s).
  set (s2 := upd old (set_just true) (upd new (set_cpu (Z.of_nat c)) s1)).
  assert (Inv s2 rq eq) as I2.
  { apply Inv_upd; [|done|by left]. apply Inv_upd; [|done|by left]. apply Inv_set_state; [apply S|done]. }
  assert (forall q, has s2 q <-> has s q) as Hhas by (intros q; unfold s2, s1; by rewrite !has_upd).
  assert (forall p, thread s' p = thread s2 p) as Ht by done.
  assert (forall p, st s' p = if p =? new then State.Running else st s p) as Hst'.
  { intros p. unfold st at 1. rewrite Ht. fold (st s2 p). unfold s2. rewrite !st_upd by done. by apply st_set_state. }
  assert (forall p, js s' p = if p =? old then true else js s p) as Hjs'.
  { intros p. unfold js at 1. rewrite Ht. fold (js s2 p). unfold s2.
    rewrite js_set_just by (by apply has_upd, has_upd). unfold s1. by rewrite !js_upd. }
  assert (Inv s' rq eq) as I' by exact (Inv_cpu s2 rq eq _ _ I2).
  split_and!.
  - apply (Sys_switch n s s' rq eq c old new); try done; [by apply (pk_free _ _ _ _ _ _ PK)|].
    intros p. unfold s', switched; sred. by rewrite !is_Some_alter.
  - unfold cur, s', switched; sred. apply list_lookup_total_insert_eq.
    by rewrite (proj1 (cp_len _ _ (sys_cpus _ _ _ _ S))).
  - by rewrite Hst', Z.eqb_refl.
  - intros d Hd. unfold cur, s', switched; sred. by apply list_lookup_total_insert_ne.
  - intros p Hn. by rewrite Hst', (proj2 (Z.eqb_neq _ _) Hn).
Qed.

Lemma Pick_quiet n s s' rq eq rq' eq' c p : quiet s s' -> Pick n s rq eq c p -> Pick n s' rq' eq' c p.
Proof.
  intros Q [P1 P2 P3]. pose proof Q as (Ec & Ei & Eo & _ & _). split.
  - by apply (has_quiet _ _ _ Q).
  - rewrite (st_quiet _ _ _ Q). unfold idl. rewrite Ei. done.
  - intros d Hd. unfold cur, idl, out. rewrite Ec, Ei, Eo. by apply P3.
Qed.

(** The old thread, if it is still marked running, becomes ready. *)
Lemma demote_old n s rq eq c : Sys n s rq eq -> has s (cur s c) ->
  (cur s c <> idl s c -> st s (cur s c) <> State.Running) ->
  let s' := if bool_decide (state (thread s (cur s c)) = State.Running)
            then upd (cur s c) (set_state State.Ready) s else s in
  Sys n s' rq eq /\ tables s s' /\ st s' (cur s c) <> State.Running /\
  (forall p, p <> cur s c -> st s' p = st s p).
Proof.
  intros S Hp Hr s'. unfold s'. case_bool_decide as Hs.
  - split_and!; [|apply upd_tables| |].
    + apply Sys_set_state; [done|done| |done|right; by left].
      apply (not_ready_unqueued s); [apply S|]. unfold st in *. by rewrite Hs.
    + by rewrite st_set_state, Z.eqb_refl.
    + intros p Hn. rewrite st_set_state by done. by rewrite (proj2 (Z.eqb_neq _ _) Hn).
  - by split_and!.
Qed.

Lemma switch_to_spec n s rq eq c new : Sys n s rq eq -> (c < n)%nat -> has s (cur s c) -> out s c = 0 ->
  (cur s c <> idl s c -> st s (cur s c) <> State.Running) -> new <> cur s c -> Pick n s rq eq c new ->
  exists s' rq' eq', switch_to c (cur s c) new s = (Switch (cur s c) new, s') /\ Sys n s' rq' eq' /\
    cur s' c = new /\ st s' new = State.Running /\ (forall d, d <> c -> cur s' d = cur s d) /\
    (forall q, queued rq' eq' q <-> q <> new /\ queued rq eq q) /\
    (forall p, p <> cur s c -> p <> new -> st s' p = st s p) /\ idle_thread s' = idle_thread s.
Proof.
  intros S Hc Hold Hout Hr Hne PK. unfold switch_to. set (old := cur s c) in *.
  destruct (unqueue_new n s rq eq c new S Hc (pk_has _ _ _ _ _ _ PK)) as (rq' & eq' & S1 & Q1 & Hq).
  set (s1 := if idle_thread s !!! c =? new then s else DequeueReady new s) in *.
  pose proof (Pick_quiet n s s1 rq eq rq' eq' c new Q1 PK) as PK1.
  assert (cur s1 c = old) as Hcur1 by (destruct Q1 as (E & _); unfold cur; by rewrite E).
  assert (~ queued rq' eq' new) as Hnq by (rewrite Hq; tauto).
  set (s2 := if bool_decide (state (thread s1 new) = State.Uninit) then upd new (set_state State.Ready) s1 else s1).
  assert (Sys n s2 rq' eq' /\ tables s1 s2 /\ st s2 new = State.Ready /\ (forall p, p <> new -> st s2 p = st s1 p))
    as (S2 & T2 & Hst2 & Ho2).
  { unfold s2. destruct (pk_state _ _ _ _ _ _ PK1) as [Es|[Ei Es]]; unfold st in Es.
    - rewrite Es. by split_and!.
    - rewrite Es. rewrite bool_decide_eq_true_2 by done. pose proof (pk_has _ _ _ _ _ _ PK1). split_and!.
      + apply Sys_set_state; [done|done|done|done|right; by left].
      + apply upd_tables.
      + by rewrite st_set_state, Z.eqb_refl.
      + intros p Hn. rewrite st_set_state by done. by rewrite (proj2 (Z.eqb_neq _ _) Hn). }
  pose proof T2 as (Tc & Ti & To & Th). pose proof Q1 as (Qc & Qi & Qo & _ & _).
  assert (cur s2 c = old) as Hcur2 by (unfold cur; by rewrite Tc).
  unfold st in Hst2. rewrite Hst2. rewrite bool_decide_eq_true_2 by done.
  destruct (demote_old n s2 rq' eq' c S2) as (S3 & T3 & Hr3 & Ho3).
  { rewrite Hcur2. apply Th. by apply (has_quiet _ _ _ Q1). }
  { unfold idl. rewrite Hcur2, Ti, Qi. intros Hn. rewrite Ho2 by auto. rewrite (st_quiet _ _ _ Q1). by apply Hr. }
  rewrite Hcur2 in S3, T3, Hr3, Ho3.
  set (s3 := if bool_decide (state (thread s2 old) = State.Running) then _ else _) in *.
  pose proof T3 as (Uc & Ui & Uo & Uh).
  destruct (switched_Sys n s3 rq' eq' c old new S3 Hc) as (S4 & C4 & R4 & D4 & P4); try done.
  { unfold cur. by rewrite Uc. } { by apply Uh, Th, (has_quiet _ _ _ Q1). }
  { unfold out. by rewrite Uo, To, Qo. }
  { destruct PK1 as [P1 P2 P3]. split.
    - by apply Uh, Th.
    - left. rewrite Ho3 by done. exact Hst2.
    - intros d Hd. unfold cur, idl, out. rewrite Uc, Ui, Uo, Tc, Ti, To. by apply P3. }
  exists (switched c old new s3), rq', eq'. split_and!; try done.
  - intros d Hd. rewrite D4 by done. unfold cur. by rewrite Uc, Tc, Qc.
  - intros p Hp Hn. by rewrite P4, Ho3, Ho2, (st_quiet _ _ _ Q1).
  - unfold switched; sred. by rewrite Ui, Ti, Qi.
Qed.

(** ** The scheduler *)

Lemma alter_comm (f g : ThreadBlock -> ThreadBlock) p q (h : Heap) : (forall t, f (g t) = g (f t)) ->
  alter f p (alter g q h) = alter g q (alter f p h).
Proof.
  intros Hc. destruct (decide (p = q)) as [->|Hn]; [|by apply alter_alter_ne].
  rewrite !alter_alter_eq. apply map_eq. intros x. destruct (decide (x = q)) as [->|]; [|by rewrite !lookup_alter_ne].
  rewrite !lookup_alter_eq. destruct (h !! q); [|done]. cbn. by rewrite Hc.
Qed.

(** The queue operation looks only at the links and the priority. *)
Lemma Dequeue_upd p f s : has s p ->
  (forall t x, f (set_prev x t) = set_prev x (f t) /\ f (set_next x t) = set_next x (f t)) ->
  (forall t, priority (f t) = priority t /\ queue_state_prev (f t) = queue_state_prev t /\
             queue_state_next (f t) = queue_state_next t) ->
  DequeueReady p (upd p f s) = upd p f (DequeueReady p s).
Proof.
  intros [_ [t Ht]] Hc Hf. unfold DequeueReady.
  assert (thread (upd p f s) p = f (thread s p)) as ->.
  { rewrite thread_alter, Z.eqb_refl by (by eexists). done. }
  unfold queue_index. destruct (Hf (thread s p)) as (-> & -> & ->). fold (queue_index (thread s p)). sred.
  set (i := queue_index (thread s p)).
  destruct (if head (priority_queues s !!! i) =? p then _ else _) as [[[? ?] ?] ?].
  unfold upd, with_heap; sred. f_equal.
  assert (forall t, set_prev 0 (set_next 0 (f t)) = f (set_prev 0 (set_next 0 t))) as Hpn.
  { intros t0. by rewrite (proj1 (Hc _ _)), (proj2 (Hc _ _)). }
  assert (forall x t, set_prev x (f t) = f (set_prev x t)) as Hp by (intros; symmetry; apply Hc).
  assert (forall x t, set_next x (f t) = f (set_next x t)) as Hn by (intros; symmetry; apply Hc).
  destruct (truthy (queue_state_prev (thread s p))), (truthy (queue_state_next (thread s p)));
    rewrite ?(alter_comm _ f) by done; done.
Qed.

Lemma Dequeue_set_state p x s : has s p ->
  DequeueReady p (upd p (set_state x) s) = upd p (set_state x) (DequeueReady p s).
Proof. intros Hp. by apply Dequeue_upd. Qed.

Lemma Dequeue_with_current p c x s : DequeueReady p (with_current c x s) = with_current c x (DequeueReady p s).
Proof.
  unfold DequeueReady. change (thread (with_current c x s) p) with (thread s p). sred.
  by destruct (if head _ =? p then _ else _) as [[[? ?] ?] ?].
Qed.

Record Scheduled (n : nat) (s : Sched) (rq eq : nat -> list Z) (c : nat)
    (o : Outcome) (s' : Sched) (rq' eq' : nat -> list Z) : Prop := {
  sd_sys : Sys n s' rq' eq';
  sd_outcome : o = Continue /\ cur s' c = cur s c \/ o = Switch (cur s c) (cur s' c);
  sd_running : st s' (cur s' c) = State.Running;
  sd_others : forall d, d <> c -> cur s' d = cur s d;
  sd_queued : forall p, queued rq eq p -> p = cur s' c \/ queued rq' eq' p;
  sd_idle : idle_thread s' = idle_thread s;
  sd_state : forall p, p <> cur s c -> p <> cur s' c -> st s' p = st s p;
  sd_old : st s (cur s c) = State.Running -> cur s c <> idl s c ->
    cur s c = cur s' c \/ queued rq' eq' (cur s c);
}.

(** The processor goes on with the thread it has. *)
Lemma keep_current n s rq eq c : Sys n s rq eq -> (c < n)%nat -> has s (cur s c) ->
  runnable_state (st s (cur s c)) = true ->
  let s1 := if bool_decide (state (thread s (cur s c)) = State.Ready)
            then upd (cur s c) (set_state State.Running) s else s in
  let s' := upd (cur s c) (set_cpu (Z.of_nat c)) (DequeueReady (cur s c) s1) in
  exists rq' eq', Sys n s' rq' eq' /\ tables s s' /\ st s' (cur s c) = State.Running /\
    (forall q, queued rq' eq' q <-> q <> cur s c /\ queued rq eq q) /\
    (forall q, q <> cur s c -> st s' q = st s q).
Proof.
  intros S Hc Hp Hr s1 s'. destruct (Sys_dequeue _ _ _ _ _ S Hp) as [S1 Q1]. set (p := cur s c) in *.
  assert (has (DequeueReady p s) p) as Hp1 by (by apply (has_quiet _ _ _ Q1)).
  assert (exists c0, (c0 < n)%nat /\ cur (DequeueReady p s) c0 = p) as Hcur.
  { exists c. destruct Q1 as (Ec & _). unfold cur. by rewrite Ec. }
  exists (remove_q p rq), (remove_q p eq). split_and!; [| | |intros q; apply queued_remove|].
  - apply Sys_upd; [done|done|]. unfold s1. case_bool_decide; [|done]. rewrite Dequeue_set_state by done.
    apply Sys_set_state; try done; [apply not_queued_removed|right; unfold idle_state; tauto].
  - etrans; [|apply upd_tables]. unfold s1. case_bool_decide; [|by apply quiet_tables].
    rewrite Dequeue_set_state by done. etrans; [by apply quiet_tables|apply upd_tables].
  - unfold s'. rewrite st_upd by done. unfold s1. case_bool_decide as Hs.
    + by rewrite Dequeue_set_state, st_set_state, Z.eqb_refl.
    + rewrite (st_quiet _ _ _ Q1). unfold runnable_state, st in *.
      rewrite bool_decide_eq_false_2 in Hr by done. by apply bool_decide_eq_true in Hr.
  - intros q Hn. unfold s'. rewrite st_upd by done. unfold s1. case_bool_decide; [|by apply st_quiet].
    rewrite Dequeue_set_state, st_set_state by done. rewrite (proj2 (Z.eqb_neq _ _) Hn). by apply st_quiet.
Qed.

(** After the old thread was given up: choose, and continue or switch. *)
Lemma choose_and_switch n s rq eq c old : cur s c = old -> Sys n s rq eq -> (c < n)%nat -> has s (cur s c) -> out s c = 0 ->
  (cur s c <> idl s c -> st s (cur s c) <> State.Running) ->
  (cur s c = idl s c -> runnable_state (st s (cur s c)) = true) ->
  exists o s' rq' eq',
    ('(picked, s) ← PickNext c s;
     let new := if truthy picked then picked
                else if runnable_state (state (thread s old)) then old
                else idle_thread s !!! c in
     if new =? 0 then Some (SpinWithoutIdle, s)
     else if new =? old then
       let s := if bool_decide (state (thread s old) = State.Ready)
                then upd old (set_state State.Running) s else s in
       let s := DequeueReady old s in
       Some (Continue, upd old (set_cpu (Z.of_nat c)) s)
     else Some (switch_to c old new s)) = Some (o, s') /\
    Sys n s' rq' eq' /\ (o = Continue /\ cur s' c = cur s c \/ o = Switch (cur s c) (cur s' c)) /\
    st s' (cur s' c) = State.Running /\ (forall d, d <> c -> cur s' d = cur s d) /\
    (forall q, queued rq eq q -> q = cur s' c \/ queued rq' eq' q) /\
    (forall p, p <> cur s c -> p <> cur s' c -> st s' p = st s p) /\ idle_thread s' = idle_thread s.
Proof.
  intros <- S Hc Hp Hout Hr Hidle.
  destruct (PickNext_Sys n s rq eq c S Hc) as (pk & s1 & E & Q1 & S1 & HP). rewrite E. cbn [mbind option_bind].
  pose proof Q1 as (Qc & Qi & Qo & _ & _). fold (idl s1 c).
  assert (cur s1 c = cur s c) as Hcur by (unfold cur; by rewrite Qc). rewrite <- Hcur.
  assert (idl s1 c = idl s c) as Hidl by (unfold idl; by rewrite Qi).
  assert (out s1 c = 0) as Hout1 by (unfold out; by rewrite Qo).
  assert (has s1 (cur s1 c)) as Hp1 by (rewrite Hcur; by apply (has_quiet _ _ _ Q1)).
  assert (forall q, queued rq eq q <-> queued (ready_lists rq eq) (expired_lists rq eq) q) as Hlists.
  { intros q. by rewrite queued_lists. }
  set (rq1 := ready_lists rq eq) in *. set (eq1 := expired_lists rq eq) in *.
  set (new := if truthy pk then pk else _).
  assert (new = cur s1 c /\ runnable_state (st s1 (cur s1 c)) = true \/
          new <> cur s1 c /\ Pick n s1 rq1 eq1 c new) as Hnew.
  { unfold new, truthy. destruct HP as [->|[PK Hqd]].
    - cbn [Z.eqb negb]. change (state (thread s1 (cur s1 c))) with (st s1 (cur s1 c)). destruct (runnable_state (st s1 (cur s1 c))) eqn:Er; [by left|right].
      assert (cur s1 c <> idl s1 c) as Hn.
      { intros Hci. rewrite Hcur, (st_quiet _ _ _ Q1), Hidle in Er; [done|congruence]. }
      split; [by apply not_eq_sym|by apply idle_pick].
    - pose proof (pk_has _ _ _ _ _ _ PK) as [Hz _]. rewrite (proj2 (Z.eqb_neq pk 0) Hz). cbn [negb].
      destruct (decide (pk = cur s1 c)) as [->|]; [left|by right]. split; [done|].
      destruct Hqd as (i & Hi & Hq). unfold runnable_state. rewrite (st_quiet _ _ _ Q1).
      destruct (inv_home _ _ _ (sys_inv _ _ _ _ S) i _ Hi Hq) as [_ Hst]. unfold st. by rewrite Hst. }
  assert (new <> 0) as Hz.
  { destruct Hnew as [[-> _]|[_ PK]]; [by destruct Hp1|by destruct (pk_has _ _ _ _ _ _ PK)]. }
  rewrite (proj2 (Z.eqb_neq new 0) Hz). destruct Hnew as [[-> Hrun]|[Hne PK]].
  - rewrite Z.eqb_refl. destruct (keep_current n s1 rq1 eq1 c S1 Hc Hp1 Hrun) as (rq' & eq' & S2 & T2 & R2 & Hq & P2).
    destruct T2 as (Tc & Ti & _). eexists _, _, rq', eq'. unfold cur in *. rewrite Tc in *.
    split_and!; try done; [by left|intros d Hd; by rewrite Qc| | |by rewrite Ti].
    + intros q Hqd%Hlists. rewrite Hq. destruct (decide (q = current_thread s1 !!! c)); [by left|by right].
    + intros p Hn _. by rewrite P2, (st_quiet _ _ _ Q1).
  - rewrite (proj2 (Z.eqb_neq _ _) Hne).
    destruct (switch_to_spec n s1 rq1 eq1 c new S1 Hc Hp1 Hout1) as (s' & rq' & eq' & Es & S2 & C2 & R2 & D2 & Hq & P2 & I2);
      [rewrite Hcur, Hidl, (st_quiet _ _ _ Q1); done|done|done|].
    rewrite Es. exists (Switch (cur s1 c) new), s', rq', eq'. rewrite C2.
    split_and!; try done; [by right|intros d Hd; rewrite D2 by done; unfold cur; by rewrite Qc| | |by rewrite I2].
    + intros q Hqd%Hlists. rewrite Hq. destruct (decide (q = new)); [by left|by right].
    + intros p Hn Hn'. by rewrite P2, (st_quiet _ _ _ Q1).
Qed.

Lemma Settle_Sys n D s rq eq c : Sys n s rq eq -> (c < n)%nat -> settles s c ->
  let s' := SettleSwitchingOutThread D c s in
  Sys n s' rq eq /\ out s' c = 0 /\ current_thread s' = current_thread s /\ idle_thread s' = idle_thread s /\
  (forall p, has s' p <-> has s p) /\ (forall p, st s' p = st s p).
Proof.
  intros [I K Q] Hc Hset s'. destruct (Settle_Cpus n D s c Hc Hset K) as [K' O'].
  unfold s' in *. rewrite (Settle_eq D s c Hset) in *. destruct (out s c =? 0); [by split_and!|].
  split_and!; try done; [|intros p; apply has_upd|intros p; by apply st_upd].
  split; [|done|done]. set (s1 := upd (out s c) (set_just false) s).
  assert (Inv s1 rq eq) as I1 by (apply Inv_upd; [done|done|by left]). exact (Inv_cpu s1 rq eq _ _ I1).
Qed.

Lemma Schedule_spec n D s rq eq c omit : Sys n s rq eq -> (c < n)%nat -> cur s c <> 0 -> settles s c ->
  (cur s c = idl s c -> st s (cur s c) = State.Running) ->
  exists o s' rq' eq', Schedule D omit c s = Some (o, s') /\ Scheduled n s rq eq c o s' rq' eq'.
Proof.
  intros S Hc Hz Hset Hid.
  destruct (Settle_Sys n D s rq eq c S Hc Hset) as (S0 & O0 & Ec0 & Ei0 & H0 & St0).
  unfold Schedule. set (s0 := SettleSwitchingOutThread D c s) in *. clearbody s0.
  assert (cur s0 c = cur s c) as Hcur by (unfold cur; by rewrite Ec0).
  assert (idl s0 c = idl s c) as Hidl by (unfold idl; by rewrite Ei0).
  assert (has s0 (cur s0 c)) as Hp.
  { destruct (cp_cur _ _ (sys_cpus _ _ _ _ S0) c Hc); [congruence|done]. }
  fold (cur s0 c). rewrite (proj2 (Z.eqb_neq (cur s0 c) 0)) by congruence.
  pose proof (yield_old_spec n s0 rq eq c omit S0 Hc Hp) as HY. destruct (yield_old omit c (cur s0 c) s0) as [s1|].
  - destruct HY as (rq1 & eq1 & [S1 T1 Q1 O1 P1 O1b]). pose proof T1 as (Ec1 & Ei1 & Eo1 & H1).
    assert (cur s1 c = cur s0 c) as Hcur1 by (unfold cur; by rewrite Ec1).
    assert (idl s1 c = idl s0 c) as Hidl1 by (unfold idl; by rewrite Ei1).
    destruct (choose_and_switch n s1 rq1 eq1 c _ Hcur1 S1 Hc) as (o & s' & rq' & eq' & E & S' & Ho & R' & D' & Q' & P' & I').
    + rewrite Hcur1. by apply H1.
    + unfold out. by rewrite Eo1.
    + rewrite Hcur1, Hidl1. intros Hn. by apply O1.
    + rewrite Hcur1, Hidl1. intros Hn. apply O1b; [done|]. rewrite St0, Hcur. apply Hid. congruence.
    + exists o, s', rq', eq'. split; [exact E|]. split; [done| |done| |by intros p Hq%Q1%Q'|by rewrite I', Ei1| |].
      * rewrite <- Hcur, <- Hcur1. exact Ho.
      * intros d Hd. rewrite D' by done. unfold cur. by rewrite Ec1, Ec0.
      * intros p Hn Hn'. rewrite P', P1, St0 by congruence. done.
      * intros Hr Hn. rewrite <- Hcur. apply Q'. destruct O1 as [_ Hq]; [congruence|]. apply Hq.
        by rewrite St0, Hcur.
  - destruct HY as (S1 & T1 & R1 & E1 & K1). pose proof T1 as (Ec1 & Ei1 & _).
    eexists _, _, rq, eq. split; [done|]. set (s1 := keep_old omit c (cur s0 c) s0) in *.
    assert (cur s1 c = cur s c) as Hcur1 by (unfold cur; rewrite Ec1; by fold (cur s0 c)).
    split; [done|by left| | |by right|by rewrite Ei1| |].
    + rewrite Hcur1, <- Hcur. destruct (decide (cur s0 c = idl s0 c)) as [Heq|Hne]; [|by apply R1].
      rewrite E1 by done. rewrite St0, Hcur. apply Hid. congruence.
    + intros d Hd. unfold cur. by rewrite Ec1, Ec0.
    + intros p Hn _. unfold s1. rewrite <- Hcur in Hn. rewrite K1 by done. apply St0.
    + intros _ _. left. by rewrite Hcur1.
Qed.

(** [SleepAndRelease] makes the same changes as [Schedule], in another order. *)
Lemma sleep_order c old new s : has s new ->
  (let s := with_current c new s in
   let s := upd new (set_cpu (Z.of_nat c)) s in
   let s := if idle_thread s !!! c =? new then s else DequeueReady new s in
   let s := upd new (set_state State.Running) s in
   let s := upd old (set_just true) s in
   with_switching (<[c := old]> (switching_out_threads s)) s) =
  switched c old new (if idle_thread s !!! c =? new then s else DequeueReady new s).
Proof.
  intros Hp. cbv zeta. change (idle_thread (upd new (set_cpu (Z.of_nat c)) (with_current c new s))) with (idle_thread s).
  assert ((if idle_thread s !!! c =? new then upd new (set_cpu (Z.of_nat c)) (with_current c new s)
           else DequeueReady new (upd new (set_cpu (Z.of_nat c)) (with_current c new s))) =
          upd new (set_cpu (Z.of_nat c)) (with_current c new (if idle_thread s !!! c =? new then s else DequeueReady new s))) as ->.
  { destruct (idle_thread s !!! c =? new); [done|]. by rewrite Dequeue_upd, Dequeue_with_current. }
  set (s1 := if idle_thread s !!! c =? new then s else _). unfold switched.
  change (with_current c new (upd new (set_state State.Running) s1)) with (upd new (set_state State.Running) (with_current c new s1)).
  by rewrite !(upd_upd _ new).
Qed.

Lemma SleepAndRelease_spec n D s rq eq c : Sys n s rq eq -> (c < n)%nat -> cur s c <> 0 -> settles s c ->
  cur s c <> idl s c -> st s (cur s c) <> State.Running ->
  exists s' rq' eq', SleepAndRelease D (fun s => s) c s = Some (Switch (cur s c) (cur s' c), s') /\
    Sys n s' rq' eq' /\ cur s' c <> cur s c /\ st s' (cur s' c) = State.Running /\
    (forall d, d <> c -> cur s' d = cur s d) /\
    (forall p, queued rq eq p -> p = cur s c \/ p = cur s' c \/ queued rq' eq' p) /\
    (forall p, p <> cur s' c -> st s' p = st s p) /\ idle_thread s' = idle_thread s.
Proof.
  intros S Hc Hz Hset Hn Hst.
  destruct (Settle_Sys n D s rq eq c S Hc Hset) as (S0 & O0 & Ec0 & Ei0 & H0 & St0).
  unfold SleepAndRelease. set (s0 := SettleSwitchingOutThread D c s) in *. clearbody s0. fold (cur s c).
  assert (has s (cur s c)) as Hp by (by destruct (cp_cur _ _ (sys_cpus _ _ _ _ S) c Hc)).
  destruct (Sys_dequeue n s0 rq eq (cur s c) S0) as [S1 Q1]; [by apply H0|].
  set (s1 := DequeueReady (cur s c) s0) in *.
  destruct (PickNext_Sys n s1 _ _ c S1 Hc) as (pk & s2 & E & Q2 & S2 & HP). rewrite E. cbn [mbind option_bind].
  set (rq2 := ready_lists _ _) in *. set (eq2 := expired_lists _ _) in *.
  assert (quiet s0 s2) as Q by (by etrans). pose proof Q as (Qc & Qi & Qo & _ & _).
  assert (cur s2 c = cur s c) as Hcur by (unfold cur; by rewrite Qc, Ec0).
  assert (idl s2 c = idl s c) as Hidl by (unfold idl; by rewrite Qi, Ei0).
  assert (out s2 c = 0) as Hout by (unfold out in *; by rewrite Qo).
  fold (idl s2 c). set (new := if truthy pk then pk else idl s2 c).
  assert (Pick n s2 rq2 eq2 c new /\ new <> cur s c) as [PK Hne].
  { unfold new, truthy. destruct HP as [->|[PK Hqd]].
    - cbn [Z.eqb negb]. split; [apply idle_pick; [done|done|congruence|done]|congruence].
    - pose proof (pk_has _ _ _ _ _ _ PK) as [Hpz _]. rewrite (proj2 (Z.eqb_neq pk 0) Hpz). cbn [negb].
      split; [done|]. intros ->. by apply not_queued_removed in Hqd. }
  clearbody new. destruct (pk_has _ _ _ _ _ _ PK) as [Hnz Hns].
  rewrite (proj2 (Z.eqb_neq new 0) Hnz).
  destruct (unqueue_new n s2 rq2 eq2 c new S2 Hc (pk_has _ _ _ _ _ _ PK)) as (rq3 & eq3 & S3 & Q3 & Hq3).
  set (s3 := if idle_thread s2 !!! c =? new then s2 else DequeueReady new s2) in *.
  pose proof Q3 as (Rc & Ri & Ro & _ & _).
  destruct (switched_Sys n s3 rq3 eq3 c (cur s c) new S3 Hc) as (S4 & C4 & R4 & D4 & P4); try done.
  { unfold cur in *. by rewrite Rc. } { by apply (has_quiet _ _ _ Q3), (has_quiet _ _ _ Q), H0. }
  { unfold out in *. by rewrite Ro. } { by rewrite (st_quiet _ _ _ Q3), (st_quiet _ _ _ Q), St0. }
  { by apply (Pick_quiet n s2 s3 rq2 eq2). } { rewrite Hq3. tauto. }
  exists (switched c (cur s c) new s3), rq3, eq3. rewrite C4. split_and!; try done.
  - do 2 f_equal. apply (sleep_order c (cur s c) new s2). by split.
  - intros d Hd. rewrite D4 by done. unfold cur. by rewrite Rc, Qc, Ec0.
  - intros p Hq. destruct (decide (p = cur s c)); [by left|]. right.
    destruct (decide (p = new)); [by left|]. right. apply Hq3. split; [done|].
    apply queued_lists, queued_remove. by split.
  - intros p Hn'. by rewrite P4, (st_quiet _ _ _ Q3), (st_quiet _ _ _ Q), St0.
  - unfold switched; sred. by rewrite Ri, Qi.
Qed.

(** ** Every sequence of operations *)

Definition not_idle_thread (n : nat) (s : Sched) (p : Z) : Prop := forall c, (c < n)%nat -> idl s c <> p.

(** The operations as the kernel calls them, on any processor and in any order.  [settles] says that
    the thread switched out last is not a detached thread that has exited. *)
Inductive sys_step (n : nat) (D : Z -> Sched -> Sched) : Sched -> Sched -> Prop :=
  | step_schedule c omit o s s' : (c < n)%nat -> cur s c <> 0 -> settles s c ->
      Schedule D omit c s = Some (o, s') -> sys_step n D s s'
  | step_sleep c o s s' : (c < n)%nat -> cur s c <> 0 -> settles s c -> cur s c <> idl s c ->
      st s (cur s c) <> State.Running ->
      SleepAndRelease D (fun s => s) c s = Some (o, s') -> sys_step n D s s'
  | step_block th reason s : has s th -> not_idle_thread n s th -> sys_step n D s (Block th reason s)
  | step_unblock th reason s : has s th -> not_idle_thread n s th -> sys_step n D s (Unblock th reason s)
  | step_append th s : has s th -> not_idle_thread n s th -> st s th = State.Uninit ->
      sys_step n D s (append_ready th s)
  | step_start c s s' : (c < n)%nat -> cur s c = 0 -> out s c = 0 -> AP_Main c s = Some s' -> sys_step n D s s'.

Definition SysI (n : nat) (s : Sched) : Prop :=
  exists rq eq, Sys n s rq eq /\ forall c, (c < n)%nat -> cur s c = idl s c -> st s (cur s c) = State.Running.

Lemma SysI_other n s s' : SysI n s -> (exists rq' eq', Sys n s' rq' eq') -> tables s s' ->
  (forall c, (c < n)%nat -> st s' (idl s c) = st s (idl s c)) -> SysI n s'.
Proof.
  intros (rq & eq & S & R) (rq' & eq' & S') (Ec & Ei & _) Hst. exists rq', eq'. split; [done|].
  unfold cur, idl in *. rewrite Ec, Ei. intros c Hc E. rewrite E, Hst, <- E by done. by apply R.
Qed.

Lemma Block_step n s th reason : SysI n s -> has s th -> not_idle_thread n s th -> SysI n (Block th reason s).
Proof.
  intros SI Hp Hid. pose proof SI as (rq & eq & S & R).
  destruct (Sys_dequeue n s rq eq th S Hp) as [S1 Q1]. unfold Block. set (s1 := DequeueReady th s) in *.
  assert (has s1 th) as Hp1 by (by apply (has_quiet _ _ _ Q1)).
  assert (not_idle_thread n s1 th) as Hid1.
  { intros c Hc. destruct Q1 as (_ & Ei & _). unfold idl. rewrite Ei. by apply Hid. }
  destruct (truthy _).
  - eapply SysI_other; [exact SI| | |].
    + eexists _, _. by apply Sys_upd.
    + etrans; [by apply quiet_tables|apply upd_tables].
    + intros c Hc. rewrite st_upd by done. by apply st_quiet.
  - eapply SysI_other; [exact SI| | |].
    + exists (remove_q th rq), (remove_q th eq).
      pose proof (upd_upd s1 th (fun t => set_reasons (Z.lor (block_reason t) reason) (pending_wake t) t)
                    (set_state State.Pended)) as Eu.
      cbn [block_reason pending_wake set_state] in Eu. rewrite <- Eu.
      apply Sys_upd; [done|done|]. apply Sys_set_state; [done|done|apply not_queued_removed|done|by left].
    + etrans; [by apply quiet_tables|apply upd_tables].
    + intros c Hc. unfold st at 1. rewrite thread_alter_other by (by apply Hid). by apply st_quiet.
Qed.

Lemma Unblock_step n s th reason : SysI n s -> has s th -> not_idle_thread n s th -> SysI n (Unblock th reason s).
Proof.
  intros SI Hp Hid. pose proof SI as (rq & eq & S & R). pose proof Hp as [Hz Hs].
  destruct (Unblock_spec s rq eq th reason (sys_inv _ _ _ _ S) Hz Hs) as [I' Q']. unfold Unblock.
  set (s' := UnblockThreadLocked th reason s) in *. set (s1 := upd th (unblocked reason) s) in *.
  assert (forall q, q <> th -> st s1 q = st s q) as Hst1.
  { intros q Hn. unfold st, s1. by rewrite thread_alter_other. }
  assert (Cpus n s1) as K1.
  { unfold s1. rewrite (upd_ext s th (unblocked reason)
      (fun t => set_reasons (block_reason (unblocked reason (thread s th))) (pending_wake (unblocked reason (thread s th)))
                 (set_state (state (unblocked reason (thread s th))) t))) by (by destruct (thread s th)).
    rewrite <- upd_upd. apply Cpus_upd; [done|]. apply Cpus_set_state; [done| |by left|apply S].
    cbn [unblocked set_reasons set_state state]. destruct (wakes _ _); [done|]. by apply (cp_running _ _ (sys_cpus _ _ _ _ S)). }
  eapply SysI_other; [exact SI| | |].
  - eexists _, _. split; [exact I'|by eapply Cpus_quiet|]. intros c Hc.
    assert (idl s' c = idl s c) as -> by (destruct Q' as (_ & Ei & _); unfold idl; by rewrite Ei).
    destruct (wakes _ _); [|by apply S]. unfold wake_lists. pose proof (queue_index_lt (thread s th)) as Hlt.
    destruct (is_expired _); cbn [fst snd];
      [rewrite queued_enqueue_expired by done|rewrite queued_enqueue by done];
      (intros [E|Hq]; [by apply (Hid c Hc)|by apply (sys_idle _ _ _ _ S c Hc)]).
  - etrans; [apply upd_tables|by apply quiet_tables].
  - intros c Hc. rewrite (st_quiet _ _ _ Q'). apply Hst1. by apply Hid.
Qed.

Lemma append_step n s th : SysI n s -> has s th -> not_idle_thread n s th -> st s th = State.Uninit ->
  SysI n (append_ready th s).
Proof.
  intros SI Hp Hid Hst. pose proof SI as (rq & eq & S & R). unfold append_ready.
  set (s1 := upd th (set_state State.Ready) s).
  assert (~ queued rq eq th) as Hq.
  { eapply not_ready_unqueued; [apply S|]. unfold st in Hst. by rewrite Hst. }
  destruct (EnqueueReady_enqueues n s1 rq eq th) as (rq' & eq' & S' & Q' & _).
  - apply Sys_set_state; try done. by left.
  - by apply has_upd.
  - unfold s1. by rewrite st_set_state, Z.eqb_refl.
  - done.
  - exact Hid.
  - eapply SysI_other; [exact SI|by exists rq', eq'| |].
    + etrans; [apply upd_tables|by apply quiet_tables].
    + intros c Hc. rewrite (st_quiet _ _ _ Q'). unfold s1. rewrite st_set_state by done.
      by rewrite (proj2 (Z.eqb_neq _ _) (Hid c Hc)).
Qed.

Lemma start_step n s s' c : SysI n s -> (c < n)%nat -> cur s c = 0 -> out s c = 0 -> AP_Main c s = Some s' -> SysI n s'.
Proof.
  intros (rq & eq & [I K Q] & R) Hc Hcur Hout. unfold AP_Main. fold (idl s c).
  destruct (cp_idle _ _ K c Hc) as [[Hz Hs] _]. rewrite (proj2 (Z.eqb_neq _ _) Hz). intros [= <-].
  set (i := idl s c) in *. set (s1 := upd i (set_state State.Running) (upd i (set_cpu (Z.of_nat c)) s)).
  assert (Inv s1 rq eq) as I1.
  { apply Inv_set_state; [apply Inv_upd; [done|done|by left]|by apply Q]. }
  destruct K as [(L1 & L2 & L3) C CI ID II CI2 RU O].
  assert (forall d, cur (with_current c i s1) d = if (d =? c)%nat then i else cur s d) as Hc'.
  { intros d. unfold cur, with_current; sred. apply lookup_total_insert_z. unfold s1; sred. lia. }
  assert (forall q, has (with_current c i s1) q <-> has s q) as Hhas by (intros q; unfold has; cbn; by rewrite !is_Some_alter).
  assert (forall q, st (with_current c i s1) q = if q =? i then State.Running else st s q) as Hst'.
  { intros q. change (st (with_current c i s1) q) with (st s1 q). unfold s1.
    rewrite st_set_state by (by apply has_upd). by rewrite st_upd. }
  assert (forall q, js (with_current c i s1) q = js s q) as Hjs'.
  { intros q. change (js (with_current c i s1) q) with (js s1 q). unfold s1. by rewrite !js_upd. }
  exists rq, eq. split.
  - split; [exact (Inv_cpu s1 rq eq _ _ I1)| |exact Q]. constructor.
    + unfold with_current; sred. by rewrite length_insert.
    + intros d Hd. rewrite Hc', Hhas. destruct (d =? c)%nat; [by right|by apply C].
    + intros d e Hd He. rewrite !Hc'. destruct (d =? c)%nat eqn:E1, (e =? c)%nat eqn:E2; [lia| | |by apply CI].
      * intros E _. assert (e = c) by (apply CI2; [done|done|by symmetry]). lia.
      * intros E _. assert (d = c) by (by apply CI2). lia.
    + intros d Hd. rewrite Hhas, Hst'. change (idl (with_current c i s1) d) with (idl s d).
      destruct (ID d Hd). split; [done|]. destruct (_ =? i); [unfold idle_state; tauto|done].
    + exact II.
    + intros d e Hd He. rewrite Hc'. change (idl (with_current c i s1) e) with (idl s e).
      destruct (d =? c)%nat eqn:E1; [|by apply CI2]. apply Nat.eqb_eq in E1 as ->. by apply II.
    + intros p Hp%Hhas. rewrite Hst'. destruct (p =? i) eqn:E.
      * apply Z.eqb_eq in E as ->. intros _. exists c. by rewrite Hc', Nat.eqb_refl.
      * intros Hr. destruct (RU p Hp Hr) as (d & Hd & Hcd). exists d. rewrite Hc'.
        destruct (d =? c)%nat eqn:Ed; [|done]. apply Nat.eqb_eq in Ed as ->. destruct Hp. congruence.
    + intros d Hd Hnz. change (out (with_current c i s1) d) with (out s d) in *. rewrite Hjs'.
      destruct (O d Hd Hnz) as [J1 J2]. split; [done|]. intros e He. rewrite Hc'.
      destruct (J2 e He) as [K1 K2]. split; [|done]. destruct (e =? c)%nat eqn:Ee; [|done].
      apply Nat.eqb_eq in Ee as ->. apply K2. intros ->. congruence.
  - intros d Hd. rewrite Hc'. change (idl (with_current c i s1) d) with (idl s d).
    destruct (d =? c)%nat eqn:Ed; [by rewrite Hst', Z.eqb_refl|].
    intros E. rewrite Hst'. destruct (_ =? i); [done|]. by apply R.
Qed.

(** After a switch every idle thread that is current runs. *)
Lemma idle_runs n s s' c : (forall d, (d < n)%nat -> cur s d = idl s d -> st s (cur s d) = State.Running) ->
  (forall d, d <> c -> cur s' d = cur s d) -> idle_thread s' = idle_thread s -> st s' (cur s' c) = State.Running ->
  (forall p, p <> cur s c -> p <> cur s' c -> st s' p = st s p) ->
  (forall d, (d < n)%nat -> d <> c -> cur s d <> 0 -> cur s d <> cur s c) -> (forall d, (d < n)%nat -> idl s d <> 0) ->
  forall d, (d < n)%nat -> cur s' d = idl s' d -> st s' (cur s' d) = State.Running.
Proof.
  intros R Ho Hi Hr Hs Hinj Hz d Hd. unfold idl at 1. rewrite Hi. fold (idl s d). intros E.
  destruct (decide (d = c)) as [->|Hn]; [done|]. rewrite Ho in * by done.
  destruct (decide (cur s d = cur s' c)) as [->|Hd2]; [done|]. rewrite Hs; [by apply R| |done].
  apply Hinj; try done. rewrite E. by apply Hz.
Qed.

Lemma Schedule_step n D s s' o c omit : SysI n s -> (c < n)%nat -> cur s c <> 0 -> settles s c ->
  Schedule D omit c s = Some (o, s') -> SysI n s'.
Proof.
  intros (rq & eq & S & R) Hc Hz Hset E.
  destruct (Schedule_spec n D s rq eq c omit S Hc Hz Hset (R c Hc)) as (o' & s'' & rq' & eq' & E' & X).
  rewrite E in E'. injection E' as <- <-. exists rq', eq'. split; [apply X|]. pose proof (sys_cpus _ _ _ _ S) as K.
  apply (idle_runs n s s' c R); try apply X.
  - intros d Hd Hn Hd0 E0. apply Hn. by apply (cp_cur_inj _ _ K).
  - intros d Hd. by destruct (cp_idle _ _ K d Hd) as [[? _] _].
Qed.

Lemma Sleep_step n D s s' o c : SysI n s -> (c < n)%nat -> cur s c <> 0 -> settles s c -> cur s c <> idl s c ->
  st s (cur s c) <> State.Running -> SleepAndRelease D (fun s => s) c s = Some (o, s') -> SysI n s'.
Proof.
  intros (rq & eq & S & R) Hc Hz Hset Hn Hst E.
  destruct (SleepAndRelease_spec n D s rq eq c S Hc Hz Hset Hn Hst) as (s'' & rq' & eq' & E' & S' & Hne & Rn & Ho & Hq & Hs & Hi).
  rewrite E in E'. injection E' as -> <-. exists rq', eq'. split; [done|]. pose proof (sys_cpus _ _ _ _ S) as K.
  apply (idle_runs n s s' c R); try done.
  - auto.
  - intros d Hd Hn0 Hd0 E0. apply Hn0. by apply (cp_cur_inj _ _ K).
  - intros d Hd. by destruct (cp_idle _ _ K d Hd) as [[? _] _].
Qed.

Lemma sys_step_keeps n D s s' : SysI n s -> sys_step n D s s' -> SysI n s'.
Proof.
  intros SI. destruct 1; [by eapply Schedule_step|by eapply Sleep_step|by apply Block_step|
    by apply Unblock_step|by apply append_step|by eapply start_step].
Qed.

(** ** Boot *)

Definition empty_queues : list ReadyQueue := replicate 32 (MkQueue 0 0).

(** The state before the first thread is appended: empty queues, unlinked threads that do not run,
    an idle thread per processor, and at most one thread that is current. *)
Record booted (n : nat) (s : Sched) : Prop := {
  bt_queues : priority_queues s = empty_queues /\ expired_queues s = empty_queues /\
    ready_bitmap s = 0 /\ expired_bitmap s = 0;
  bt_len : length (current_thread s) = n /\ length (idle_thread s) = n /\ length (switching_out_threads s) = n;
  bt_links : forall p t, heap s !! p = Some t -> queue_state_prev t = 0 /\ queue_state_next t = 0 /\ state t = State.Uninit;
  bt_cur : forall c, (c < n)%nat -> out s c = 0 /\
    (cur s c = 0 \/ (c = 0%nat /\ has s (cur s c) /\ forall d, (d < n)%nat -> idl s d <> cur s c));
  bt_idle : forall c, (c < n)%nat -> has s (idl s c);
  bt_idle_inj : forall c d, (c < n)%nat -> (d < n)%nat -> idl s c = idl s d -> c = d;
}.

Lemma booted_Sys n s : booted n s -> SysI n s.
Proof.
  intros [(Qr & Qe & Br & Be) L Lk C I II].
  assert (forall p, has s p -> st s p = State.Uninit) as Hst.
  { intros p [_ [t Ht]]. unfold st, thread. rewrite Ht. by apply (Lk p t). }
  assert (forall i, (i < 32)%nat -> queue_rep (heap s) (empty_queues !!! i) []) as Hq.
  { intros i Hi. unfold empty_queues. rewrite lookup_total_replicate_2 by done. by split_and!; try constructor. }
  assert (forall c, (c < n)%nat -> cur s c = idl s c -> False) as Hno.
  { intros c Hc E. destruct (C c Hc) as [_ [Hz|(_ & _ & Hz)]]; [|by apply (Hz c Hc)].
    destruct (I c Hc) as [Hi _]. congruence. }
  exists no_list, no_list. split; [|intros c Hc E; by destruct (Hno c Hc E)]. split.
  - constructor; rewrite ?Qr, ?Qe, ?Br, ?Be; try done.
    + intros i p _ Hp. unfold no_list in Hp. rewrite elem_of_nil in Hp. tauto.
    + intros i p _ Hp. by apply elem_of_nil in Hp.
    + intros i _. by rewrite Z.bits_0.
    + intros i _. by rewrite Z.bits_0.
    + intros p [t Ht] _. unfold links. rewrite Ht. cbn. destruct (Lk p t Ht) as (-> & -> & _). done.
  - constructor; try done.
    + intros c Hc. destruct (C c Hc) as [_ [?|(_ & ? & _)]]; auto.
    + intros c d Hc Hd E Hz. destruct (C c Hc) as [_ [?|(Ec & _)]]; [done|].
      destruct (C d Hd) as [_ [?|(Ed & _)]]; congruence.
    + intros c Hc. split; [by apply I|]. rewrite Hst by (by apply I). right; by left.
    + intros c d Hc Hd E. destruct (C c Hc) as [_ [Hz|(_ & _ & Hz)]].
      * destruct (I d Hd) as [Hi _]. congruence.
      * by destruct (Hz d Hd).
    + intros p Hp. rewrite Hst by done. done.
    + intros c Hc Hnz. by destruct (C c Hc).
  - intros c Hc (i & _ & Hp). unfold no_list in Hp. rewrite elem_of_nil in Hp. tauto.
Qed.
