(* ===== verification/SchedClaims.v ===== *)
(** * What the scheduler promises

    The theorems about the scheduler, on the concrete state: the pointer queues implement lists, the
    choice follows the priorities, wake-ups are not lost, a scheduling step never fails or loses a
    thread, and the safety of every run from boot. *)
From S2P Require Import Prelude Sched SchedProof SchedSwitch SchedSys.

(** The thread is on a ready or expired queue, by following the pointers. *)
Definition on_queue (s : Sched) (p : Z) : Prop :=
  exists i l, (i < 32)%nat /\ p ∈ l /\
    (walk s (head (priority_queues s !!! i)) = Some l \/ walk s (head (expired_queues s !!! i)) = Some l).

Lemma on_queue_queued s rq eq p : Inv s rq eq -> on_queue s p <-> queued rq eq p.
Proof.
  intros I. split.
  - intros (i & l & Hi & Hp & Hw). exists i. split; [done|].
    rewrite (walk_queue s _ (rq i)), (walk_queue s _ (eq i)) in Hw by (by apply I).
    destruct Hw as [[= ->]|[= ->]]; tauto.
  - intros (i & Hi & [Hp|Hp]); [exists i, (rq i)|exists i, (eq i)]; (split_and!; [done|done|]);
      rewrite (walk_queue s _ (rq i)), (walk_queue s _ (eq i)) by (by apply I); tauto.
Qed.

(** C19: the queue operations refine list operations.  On a state whose queues represent the lists
    [rq] and [eq], [EnqueueReady] and [EnqueueExpired] append a ready thread that is on no queue to
    the list of its level, [DequeueReady] removes the thread from whatever list holds it, and each
    keeps the whole representation: doubly linked queues, heads, tails, bitmaps, null links of
    threads on no queue; no other field of any thread changes, except the expired mark. *)
Theorem queues_refine_lists s rq eq pb : Inv s rq eq -> pb <> 0 -> is_Some (heap s !! pb) ->
  let i := queue_index (thread s pb) in
  (state (thread s pb) = State.Ready -> ~ on_queue s pb ->
   (Inv (EnqueueReady pb s) (upd_q rq i (rq i ++ [pb])) eq /\ quiet s (EnqueueReady pb s)) /\
   (Inv (EnqueueExpired pb s) rq (upd_q eq i (eq i ++ [pb])) /\ quiet s (EnqueueExpired pb s))) /\
  Inv (DequeueReady pb s) (remove_q pb rq) (remove_q pb eq) /\ quiet s (DequeueReady pb s).
Proof.
  intros I Hp Hs i. split.
  - intros Hst Hq. rewrite (on_queue_queued s rq eq) in Hq by done.
    split; [by apply EnqueueReady_quiet|by apply EnqueueExpired_quiet].
  - by apply Dequeue_quiet.
Qed.

(** C18: [PickNext] always returns; it gives the first thread, by level and then by position in the
    queue, that is not running, not being switched out and not current on another processor, or
    null when no ready thread qualifies.  When the time-slice levels are empty and expired threads
    of these levels exist, the choice is made after moving all of them back, in order; otherwise
    the lists are unchanged. *)
Theorem PickNext_correct s rq eq cpuid : Inv s rq eq ->
  let rq' := ready_lists rq eq in let eq' := expired_lists rq eq in
  let choice := List.find (eligible s cpuid) (level_list rq' 0) in
  exists s', PickNext cpuid s = Some (default 0 choice, s') /\ Inv s' rq' eq' /\
    (forall p, on_queue s' p <-> on_queue s p) /\
    (forall p, state (thread s' p) = state (thread s p)) /\
    current_thread s' = current_thread s /\ idle_thread s' = idle_thread s.
Proof.
  intros I rq' eq' choice. destruct (PickNext_spec s rq eq cpuid I) as (s' & E & I' & (P1 & P2 & _ & P4) & _).
  exists s'. split_and!; try done.
  - intros p. rewrite (on_queue_queued s' rq' eq'), (on_queue_queued s rq eq) by done. apply queued_lists.
  - intros p. by apply (f_equal state (P4 p)).
Qed.

(** no wake-up is lost between two threads.  If the wake-up comes first, [Block] returns with
    the thread still running; if [Block] comes first (and no earlier wake-up is pending), the thread
    sleeps, and the wake-up leaves it ready, on a queue, with the reason cleared. *)
Theorem wakeup_not_lost s rq eq th reason : Inv s rq eq -> th <> 0 -> is_Some (heap s !! th) ->
  state (thread s th) = State.Running -> block_reason (thread s th) = 0 -> 0 < reason ->
  state (thread (Block th reason (Unblock th reason s)) th) = State.Running /\
  (Z.land (pending_wake (thread s th)) reason = 0 ->
   state (thread (Block th reason s) th) = State.Pended /\
   let s' := Unblock th reason (Block th reason s) in
   state (thread s' th) = State.Ready /\ on_queue s' th /\ block_reason (thread s' th) = 0).
Proof.
  intros I Hp Hs Hr Hb Hre. split.
  - destruct (Unblock_spec s rq eq th reason I Hp Hs) as [I1 Q1]. fold (Unblock th reason s) in *.
    set (s1 := Unblock th reason s) in *. pose proof Q1 as (_ & _ & _ & Hh & Hbd).
    assert (is_Some (heap s1 !! th)) as Hs1 by (by apply Hh, upd_exists).
    specialize (Hbd th). rewrite thread_alter, Z.eqb_refl in Hbd by done.
    apply body_fields in Hbd as (Est & _ & _ & _ & _ & Epw & _). unfold unblocked, wakes in Est, Epw.
    rewrite Hb, Z.ldiff_0_l, Hr in Est, Epw. cbn [set_reasons set_state state pending_wake andb negb Z.eqb] in Est, Epw.
    rewrite bool_decide_eq_true_2 in Epw by done.
    destruct (Block_spec s1 _ _ th reason I1 Hp Hs1) as (_ & s2 & (_ & _ & _ & Hh2 & Hb2) & ->).
    rewrite thread_alter, Z.eqb_refl by (by apply Hh2). rewrite Epw.
    assert (truthy (Z.land (Z.lor (pending_wake (thread s th)) reason) reason) = true) as ->.
    { unfold truthy. apply negb_true_iff, Z.eqb_neq. rewrite Z.land_lor_distr_l, Z.land_diag. intros [_ ?]%Z.lor_eq_0_iff. lia. }
    cbn [set_reasons state]. destruct (body_fields _ _ (Hb2 th)) as (E & _). by rewrite E, Est.
  - intros Hpw. destruct (Block_spec s rq eq th reason I Hp Hs) as (I1 & s1 & (_ & _ & _ & Hh1 & Hb1) & E1).
    rewrite Hpw in E1. cbn [truthy Z.eqb negb] in E1. set (s2 := Block th reason s) in *.
    destruct (body_fields _ _ (Hb1 th)) as (_ & _ & _ & _ & Ebr & _).
    assert (thread s2 th = set_reasons (Z.lor 0 reason) (pending_wake (thread s1 th)) (set_state State.Pended (thread s1 th))) as Et.
    { rewrite E1, thread_alter, Z.eqb_refl by (by apply Hh1). by rewrite Ebr, Hb. }
    split; [by rewrite Et|]. assert (is_Some (heap s2 !! th)) as Hs2 by (rewrite E1; by apply upd_exists, Hh1).
    destruct (Unblock_spec s2 _ _ th reason I1 Hp Hs2) as [I3 (_ & _ & _ & Hh3 & Hb3)].
    fold (Unblock th reason s2) in *. specialize (Hb3 th). rewrite thread_alter, Z.eqb_refl in Hb3 by done.
    apply body_fields in Hb3 as (Est & _ & _ & _ & Ebr3 & _).
    assert (wakes (thread s2 th) reason = true) as Hw.
    { unfold wakes. rewrite Et. cbn [set_reasons set_state state block_reason].
      by rewrite Z.lor_0_l, Z.ldiff_diag. }
    rewrite Hw in I3. unfold unblocked in Est, Ebr3. rewrite Hw in Est. rewrite Et in Ebr3. cbn in Est, Ebr3.
    split_and!; [done| |by rewrite Ebr3, Z.ldiff_diag].
    apply (on_queue_queued _ _ _ _ I3). unfold wake_lists. pose proof (queue_index_lt (thread s2 th)).
    destruct (is_expired _); [apply queued_enqueue_expired|apply queued_enqueue]; auto.
Qed.


(** a thread that has blocked on a lock gives its processor up.  [SleepAndRelease] always
    switches, to a thread other than the caller, which then runs; no other thread leaves the queues
    and no state but that of the chosen thread changes. *)
Theorem SleepAndRelease_correct n D s c : SysI n s -> (c < n)%nat -> cur s c <> 0 -> settles s c ->
  cur s c <> idl s c -> st s (cur s c) <> State.Running ->
  exists s', SleepAndRelease D (fun s => s) c s = Some (Switch (cur s c) (cur s' c), s') /\
    cur s' c <> cur s c /\ st s' (cur s' c) = State.Running /\
    (forall d, d <> c -> cur s' d = cur s d) /\
    (forall p, on_queue s p -> p = cur s c \/ p = cur s' c \/ on_queue s' p) /\
    (forall p, p <> cur s' c -> st s' p = st s p).
Proof.
  intros (rq & eq & S & R) Hc Hz Hset Hn Hst.
  destruct (SleepAndRelease_spec n D s rq eq c S Hc Hz Hset Hn Hst) as (s' & rq' & eq' & E & S' & Hne & Rn & Ho & Hq & Hs & _).
  exists s'. split_and!; try done. intros p.
  rewrite (on_queue_queued s' rq' eq'), (on_queue_queued s rq eq) by (apply S' || apply S). apply Hq.
Qed.

(** C1: safety of the scheduler on several processors.  From boot, after any sequence of scheduling
    steps, sleeps, blocks, wake-ups, new threads and processor starts, no thread is current on two
    processors, a thread in state [Running] is current on one, a thread whose context is still being
    saved by one processor is current on none, and the queues are well formed: only ready threads
    are queued, each once, and never the idle thread of a processor. *)
Theorem scheduler_safe n D s0 s : booted n s0 -> rtc (sys_step n D) s0 s ->
  (forall c d, (c < n)%nat -> (d < n)%nat -> cur s c = cur s d -> cur s c <> 0 -> c = d) /\
  (forall p, has s p -> st s p = State.Running -> exists c, (c < n)%nat /\ cur s c = p) /\
  (forall c d, (c < n)%nat -> (d < n)%nat -> out s c <> 0 -> cur s d <> out s c) /\
  (exists rq eq, Inv s rq eq) /\ (forall p, on_queue s p -> st s p = State.Ready) /\
  (forall c, (c < n)%nat -> ~ on_queue s (idl s c)).
Proof.
  intros B Hst. assert (SysI n s) as (rq & eq & [I K Q] & _).
  { apply booted_Sys in B. clear -B Hst. induction Hst; [done|]. apply IHHst. by eapply sys_step_keeps. }
  split_and!; try apply K; [|by exists rq, eq| |].
  - intros c d Hc Hd Hz. by apply (cp_out _ _ K c Hc Hz).
  - intros p. rewrite (on_queue_queued s rq eq) by done. intros (i & Hi & Hp). by apply (inv_home _ _ _ I i p Hi).
  - intros c Hc. rewrite (on_queue_queued s rq eq) by done. by apply Q.
Qed.

(** ** Real-time threads that yield *)

(** a real-time thread on an expired queue is never chosen again by the scheduler: [PickNext]
    moves and scans only the time-slice levels, so the thread stays where it is and another thread
    (or none) is returned, on every processor. *)
Theorem realtime_expired_not_picked s rq eq i p cpuid : Inv s rq eq -> (i < 16)%nat -> p ∈ eq i ->
  exists q s' rq' eq', PickNext cpuid s = Some (q, s') /\ q <> p /\ Inv s' rq' eq' /\ p ∈ eq' i.
Proof.
  intros I Hi Hp. destruct (PickNext_spec s rq eq cpuid I) as (s' & E & I' & _ & _).
  assert (p ∈ expired_lists rq eq i) as Hp'.
  { unfold expired_lists, swapped. destruct (epoch_due rq eq); [|done]. by rewrite (proj2 (Nat.leb_gt 16 i)) by lia. }
  eexists _, s', _, _. split_and!; [exact E| |exact I'|exact Hp'].
  destruct (List.find _ _) as [q|] eqn:Ef; cbn [default from_option id].
  - apply find_some in Ef as [(j & Hj & Hq)%level_list_elem _]. intros ->.
    assert (j = i) as ->.
    { destruct (inv_home _ _ _ I' j p Hj (or_introl Hq)), (inv_home _ _ _ I' i p ltac:(lia) (or_intror Hp')). congruence. }
    eapply (inv_disj _ _ _ I' i p); [lia|done|done].
  - intros <-. destruct (inv_e _ _ _ I i ltac:(lia)) as (_ & _ & Hd & _). by eapply dseg_nonzero in Hd as [? _].
Qed.

(** What [Schedule(true)] does to the running thread: it ends on the expired list of its level. *)
Lemma yield_expires n s s' rq eq p : s' = EnqueueExpired p (upd p (set_state State.Ready) (DequeueReady p s)) ->
  Sys n s rq eq -> has s p -> not_idle_thread n s p ->
  exists rq' eq', Inv s' rq' eq' /\
    p ∈ eq' (queue_index (thread s p)).
Proof.
  intros -> S Hp Hid. destruct (Sys_requeue n s rq eq p S Hp Hid) as (S1 & [Hz Hs] & Hst & _).
  destruct (EnqueueExpired_quiet _ _ _ p (sys_inv _ _ _ _ S1) Hz Hs Hst (not_queued_removed _ _ _)) as [I _].
  eexists _, _. split; [exact I|].
  assert (queue_index (thread (upd p (set_state State.Ready) (DequeueReady p s)) p) = queue_index (thread s p)) as ->.
  { destruct (Sys_dequeue n s rq eq p S Hp) as [_ (_ & _ & _ & Hh & Hb)]. destruct Hp as [_ Hs0].
    rewrite thread_alter, Z.eqb_refl by (by apply Hh).
    change (queue_index (set_state State.Ready (thread (DequeueReady p s) p))) with (queue_index (thread (DequeueReady p s) p)).
    apply (body_fields _ _ (Hb p)). }
  unfold upd_q. rewrite Nat.eqb_refl. apply elem_of_app. right. by left.
Qed.

(** [DestroyThread] waits, by calling [Schedule(true)], while this holds. *)
Definition DestroyThread_waits (th : Z) (s : Sched) : bool :=
  bool_decide (st s th = State.Running) ||
  existsb (fun i => (cur s i =? th) || (out s i =? th)) (seq 0 (length (current_thread s))).

(** [SettleSwitchingOutThread] calls [DestroyThread] while the thread is still in the
    switching-out table, the condition under which [DestroyThread] calls [Schedule(true)] again,
    which acquires the [scheduler_lock] the caller holds. *)
Theorem settle_destroys_active_thread s c : (c < length (current_thread s))%nat -> out s c <> 0 ->
  DestroyThread_waits (out s c) s = true.
Proof.
  intros Hc Hz. unfold DestroyThread_waits. apply orb_true_iff. right. apply existsb_exists.
  exists c. split; [apply in_seq; lia|]. by rewrite Z.eqb_refl, orb_true_r.
Qed.

(** ** Concrete runs *)

Module SchedWitness.

Definition new_thread (id prio slice : Z) : ThreadBlock :=
  MkThread id 0 prio slice false State.Uninit 0 0 0 0 false 0 false.

(** Two processors, the kernel thread 1 on the first, threads 2 and 5, idle threads 3 and 4. *)
Definition boot : Sched :=
  MkSched (<[1 := new_thread 0 12 4]> (<[2 := new_thread 1 3 2]> (<[3 := new_thread (-1) 12 1]>
            (<[4 := new_thread (-1) 12 1]> (<[5 := new_thread 2 (-3) 0]> ∅)))))
    empty_queues empty_queues 0 0 [1; 0] [3; 4] [0; 0].

Definition D (p : Z) (s : Sched) : Sched := s.

Lemma lookup_boot p t : heap boot !! p = Some t -> queue_state_prev t = 0 /\ queue_state_next t = 0 /\ state t = State.Uninit.
Proof.
  unfold boot; cbn [heap]. rewrite !lookup_insert_Some, lookup_empty.
  intros [[_ <-]|[_ [[_ <-]|[_ [[_ <-]|[_ [[_ <-]|[_ [[_ <-]|[_ ?]]]]]]]]]]; by cbn.
Qed.

Lemma boot_ok : booted 2 boot.
Proof.
  constructor; try done.
  - intros p t Ht. by apply lookup_boot in Ht.
  - intros [|[|c]] Hc; [| |lia]; (split; [done|]); [right|by left]. split_and!; [done|by split; [done|eexists]|].
    intros [|[|d]] Hd; [done|done|lia].
  - intros [|[|c]] Hc; [| |lia]; (split; [done|by eexists]).
  - intros [|[|c]] [|[|d]] Hc Hd; try done; lia.
Qed.

Definition result {A} (d : Sched) (o : option (A * Sched)) : Sched := match o with Some (_, s) => s | None => d end.

Definition s1 := append_ready 2 (append_ready 1 boot).
Definition s2 := result boot (Schedule D true 0 s1).
Definition s3 := append_ready 5 (default boot (AP_Main 1 s2)).
Definition s4 := result boot (Schedule D false 1 s3).

Lemma SysI_boot : SysI 2 boot.
Proof. apply booted_Sys, boot_ok. Qed.

(** Facts about a concrete state, by evaluation. *)
Lemma has_eval s p : negb (p =? 0) && (match heap s !! p with Some _ => true | None => false end) = true -> has s p.
Proof.
  intros [Hz%negb_true_iff%Z.eqb_neq Hh]%andb_true_iff. split; [done|]. destruct (heap s !! p); [by eexists|done].
Qed.
Lemma not_idle_eval n s p : forallb (fun c => negb (idl s c =? p)) (seq 0 n) = true -> not_idle_thread n s p.
Proof.
  rewrite forallb_forall. intros Hf c Hc. apply Z.eqb_neq, negb_true_iff, Hf, in_seq. lia.
Qed.
Lemma not_settling c s : bool_decide (state (thread s (out s c)) = State.Hanging) = false -> settles s c.
Proof. intros Hb [Hh _]. by apply bool_decide_eq_false in Hb. Qed.

Ltac evaluate :=
  lazymatch goal with
  | |- has _ _ => apply has_eval; vm_compute; reflexivity
  | |- not_idle_thread _ _ _ => apply not_idle_eval; vm_compute; reflexivity
  | |- settles _ _ => apply not_settling; vm_compute; reflexivity
  | |- (_ < _)%nat => lia
  | |- _ <> _ => vm_compute; discriminate
  | |- _ => vm_compute; reflexivity
  end.

Lemma step_s1 : rtc (sys_step 2 D) boot s1.
Proof.
  eapply rtc_l; [apply (step_append 2 D 1 boot)|eapply rtc_once, (step_append 2 D 2)]; evaluate.
Qed.

Lemma step_s4 : rtc (sys_step 2 D) boot s4.
Proof.
  etrans; [exact step_s1|].
  eapply rtc_l with s2; [apply (step_schedule 2 D 0 true (Switch 1 2)); evaluate|].
  eapply rtc_l with (default boot (AP_Main 1 s2)); [apply (step_start 2 D 1); evaluate|].
  eapply rtc_l with s3; [apply (step_append 2 D 5); evaluate|].
  apply rtc_once, (step_schedule 2 D 1 false (Switch 4 5)); evaluate.
Qed.

Lemma safe_witness : cur s4 0 = 2 /\ cur s4 1 = 5 /\ out s4 0 = 1 /\ on_queue s4 1 /\ forall p, on_queue s4 p -> st s4 p = State.Ready.
Proof.
  split_and!; [evaluate|evaluate|evaluate| |].
  - exists 28%nat, [1]. split_and!; [lia|by left|left; vm_compute; reflexivity].
  - apply (scheduler_safe 2 D boot s4); [exact boot_ok|exact step_s4].
Defined.

Lemma SysI_run s : rtc (sys_step 2 D) boot s -> SysI 2 s.
Proof.
  intros Hst. pose proof SysI_boot as B. revert B. induction Hst; [done|]. intros B. by eapply IHHst, sys_step_keeps.
Qed.


(** Thread 2 blocks on a lock and sleeps; the kernel thread is still being switched out, so the idle
    thread runs. *)
Definition s5 := Block 2 BR_Lock s4.

Lemma Sleep_witness : exists s', SleepAndRelease D (fun s => s) 0 s5 = Some (Switch 2 (cur s' 0), s') /\ cur s' 0 <> 2.
Proof.
  destruct (SleepAndRelease_correct 2 D s5 0) as (s' & E & Hn & _).
  - apply SysI_run. etrans; [exact step_s4|]. apply rtc_once, step_block; evaluate.
  - evaluate.
  - evaluate.
  - evaluate.
  - evaluate.
  - evaluate.
  - exists s'. assert (cur s5 0 = 2) as Hc by evaluate. rewrite Hc in E, Hn. exact (conj E Hn).
Defined.

Lemma Inv_run s : rtc (sys_step 2 D) boot s -> exists rq eq, Inv s rq eq.
Proof. intros Hst. destruct (SysI_run s Hst) as (rq & eq & [I _ _] & _). by exists rq, eq. Qed.

Lemma refine_witness : exists rq eq, Inv (DequeueReady 1 s4) (remove_q 1 rq) (remove_q 1 eq).
Proof.
  destruct (Inv_run s4 step_s4) as (rq & eq & I). exists rq, eq.
  apply (queues_refine_lists s4 rq eq 1 I); [done|]. eapply has_eval with (p := 1); vm_compute; reflexivity.
Defined.

Lemma pick_witness : exists node s', PickNext 0 s1 = Some (node, s') /\ forall p, on_queue s' p <-> on_queue s1 p.
Proof.
  destruct (Inv_run s1 step_s1) as (rq & eq & I).
  destruct (PickNext_correct s1 rq eq 0 I) as (s' & E & _ & Hq & _).
  eexists _, s'. exact (conj E Hq).
Defined.

Lemma wakeup_witness : state (thread (Block 2 BR_Lock (Unblock 2 BR_Lock s4)) 2) = State.Running.
Proof.
  destruct (Inv_run s4 step_s4) as (rq & eq & I).
  apply (wakeup_not_lost s4 rq eq 2 BR_Lock I); [done| |evaluate|evaluate|evaluate].
  eapply has_eval with (p := 2); vm_compute; reflexivity.
Defined.

(** Thread 5 (priority -3) runs on the second processor and yields: it goes to the expired queue 13
    and is stranded there. *)
Definition s6 := EnqueueExpired 5 (upd 5 (set_state State.Ready) (DequeueReady 5 s4)).

Lemma stranded_witness : exists q s', PickNext 1 s6 = Some (q, s') /\ q <> 5.
Proof.
  destruct (SysI_run s4 step_s4) as (rq & eq & S & _).
  destruct (yield_expires 2 s4 s6 rq eq 5) as (rq' & eq' & I & Hp); [by unfold s6|exact S|evaluate|evaluate|].
  assert (queue_index (thread s4 5) = 13%nat) as Ei by evaluate. rewrite Ei in Hp.
  destruct (realtime_expired_not_picked s6 rq' eq' 13 5 1 I) as (q & s' & _ & _ & E & Hn & _); [lia|exact Hp|].
  exists q, s'. exact (conj E Hn).
Defined.

Lemma settle_witness : DestroyThread_waits 1 s4 = true.
Proof. apply (settle_destroys_active_thread s4 0); [apply Nat.ltb_lt|]; evaluate. Defined.

End SchedWitness.
