(* ===== verification/SchedReasons.v ===== *)
(** * What scheduling leaves alone

    Queue operations and scheduling steps change neither the reasons a thread is blocked for nor its
    pending wake-ups, and they neither block a thread nor resume one that is blocked. *)
From S2P Require Import Prelude Sched SchedProof SchedSwitch SchedSys.

Definition rs (t : ThreadBlock) : Z * Z := (block_reason t, pending_wake t).
Definition vis (t : ThreadBlock) : State.t * (Z * Z) := (state t, rs t).

Lemma field_alter {A} (f : ThreadBlock -> A) g p (h : Heap) q : (forall t, f (g t) = f t) ->
  f (default no_thread (alter g p h !! q)) = f (default no_thread (h !! q)).
Proof.
  intros Hg. destruct (decide (p = q)) as [->|]; [|by rewrite lookup_alter_ne]. rewrite lookup_alter_eq. by destruct (h !! q); cbn.
Qed.

(** A thread that was started and has not ended. *)
Definition live (x : State.t) : Prop := x = State.Running \/ x = State.Ready \/ x = State.Pended.

(** The relation kept: the reasons of every thread, and which threads are blocked. *)
Definition calm (s s' : Sched) : Prop := forall q,
  rs (thread s' q) = rs (thread s q) /\ (st s' q = State.Pended <-> st s q = State.Pended) /\ (live (st s q) -> live (st s' q)).
#[global] Instance calm_preorder : PreOrder calm.
Proof.
  split; [by intros s q|]. intros s1 s2 s3 H1 H2 q. destruct (H1 q) as (A & B & C), (H2 q) as (D & E & F). split; [congruence|]. split; [by rewrite E|auto].
Qed.

Lemma calm_vis s s' : (forall q, vis (thread s' q) = vis (thread s q)) -> calm s s'.
Proof. intros Hv q. specialize (Hv q). unfold vis in Hv. injection Hv as E1 E2. unfold st, rs in *. rewrite E1. by split; [congruence|]. Qed.

Lemma calm_upd s p f : (forall t, vis (f t) = vis t) -> calm s (upd p f s).
Proof. intros Hf. apply calm_vis. intros q. by apply field_alter. Qed.

Lemma calm_state s p x : st s p <> State.Pended -> x = State.Ready \/ x = State.Running -> calm s (upd p (set_state x) s).
Proof.
  intros Hp Hx q. split; [by apply (field_alter rs)|]. unfold st, thread, upd; cbn. destruct (decide (p = q)) as [->|]; [|by rewrite lookup_alter_ne].
  rewrite lookup_alter_eq. unfold st, thread, live in *. destruct (heap s !! q); cbn in *; [|done]. destruct Hx as [-> | ->]; split; try done; tauto.
Qed.

Lemma EnqueueReady_vis p s q : vis (thread (EnqueueReady p s) q) = vis (thread s q).
Proof.
  unfold EnqueueReady. destruct (negb _); [done|]. destruct (already_queued _ _ _); [done|]. unfold link_tail.
  destruct (truthy _); unfold thread, with_ready; cbn [heap]; by rewrite !(field_alter vis) by done.
Qed.
Lemma EnqueueExpired_vis p s q : vis (thread (EnqueueExpired p s) q) = vis (thread s q).
Proof.
  unfold EnqueueExpired. destruct (negb _); [done|]. destruct (already_queued _ _ _); [done|]. unfold link_tail.
  destruct (truthy _); unfold thread, with_expired; cbn [heap]; by rewrite !(field_alter vis) by done.
Qed.
Lemma DequeueReady_vis p s q : vis (thread (DequeueReady p s) q) = vis (thread s q).
Proof.
  unfold DequeueReady. destruct (if head _ =? p then _ else _) as [[[? ?] ?] ?].
  unfold thread; cbn [heap]. rewrite (field_alter vis) by done. destruct (truthy (queue_state_prev _)), (truthy (queue_state_next _)); by rewrite ?(field_alter vis) by done.
Qed.

Lemma unmark_vis l : forall (h : Heap) q, vis (default no_thread (foldl (fun h p => alter (set_expired false) p h) h l !! q)) = vis (default no_thread (h !! q)).
Proof. induction l as [|p l IH]; intros h q; [done|]. cbn. rewrite IH. by apply field_alter. Qed.

Lemma swap_levels_vis l : forall s s', foldl swap_level (Some s) l = Some s' -> forall q, vis (thread s' q) = vis (thread s q).
Proof.
  induction l as [|i l IH]; intros s s' E q; [by injection E as <-|]. cbn [foldl] in E. destruct (swap_level (Some s) i) as [s1|] eqn:E1.
  - rewrite (IH s1 s' E q). unfold swap_level in E1. cbn [mbind option_bind] in E1. destruct (walk _ _) as [nodes|]; [|done]. injection E1 as <-. apply unmark_vis.
  - assert (forall l, foldl swap_level None l = None) as Hn by (induction l0; done). by rewrite Hn in E.
Qed.

Lemma PickNext_calm c s p s' : PickNext c s = Some (p, s') -> calm s s'.
Proof.
  intros E. apply calm_vis. intros q. unfold PickNext in E.
  destruct (if _ && _ then epoch_swap s else Some s) as [s1|] eqn:E1; [|done]. cbn [mbind option_bind] in E.
  assert (vis (thread s1 q) = vis (thread s q)) as <-.
  { destruct (_ && _); [|by injection E1 as <-]. unfold epoch_swap in E1. destruct (foldl _ _ _) as [s2|] eqn:E2; [|done]. cbn in E1. injection E1 as <-.
    exact (swap_levels_vis _ s s2 E2 q). }
  destruct (ready_bitmap s1 =? 0); [by injection E as _ <-|]. destruct (scan_levels _ _ _ _) as [[node|]|]; [| |done]; cbn in E; by injection E as _ <-.
Qed.

Lemma Dequeue_calm p s : calm s (DequeueReady p s).
Proof. apply calm_vis. apply DequeueReady_vis. Qed.
Lemma Dequeue_st p s q : st (DequeueReady p s) q = st s q.
Proof. pose proof (DequeueReady_vis p s q) as E. unfold vis in E. by injection E. Qed.

(** A thread that is not blocked is made ready and put on a queue. *)
Lemma requeue_calm enq p s : (forall s q, vis (thread (enq p s) q) = vis (thread s q)) -> st s p <> State.Pended ->
  calm s (enq p (upd p (set_state State.Ready) (DequeueReady p s))).
Proof.
  intros He Hp. etrans; [apply (Dequeue_calm p)|]. etrans; [apply (calm_state _ p State.Ready); [by rewrite Dequeue_st|by left]|]. apply calm_vis. apply He.
Qed.

Lemma ifContinueProcess_calm p s : calm s (ifContinueProcess p s).2.
Proof.
  unfold ifContinueProcess. case_bool_decide as Er; [|done]. assert (st s p <> State.Pended) as Hn by (unfold st; by rewrite Er).
  destruct (0 <? _); [by apply calm_upd|]. destruct (0 <=? _); cbn [snd]; (etrans; [|by apply calm_upd]).
  - apply (requeue_calm EnqueueExpired); [intros; apply EnqueueExpired_vis|done].
  - apply (requeue_calm EnqueueReady); [intros; apply EnqueueReady_vis|done].
Qed.

Lemma yield_calm omit c p s s' : yield_old omit c p s = Some s' -> calm s s'.
Proof.
  unfold yield_old. destruct omit; cbn [negb].
  - destruct (state (thread s p)) eqn:Es; try (intros [= <-]; done); (destruct (_ =? p); cbn [negb]; intros [= <-]).
    all: assert (st s p <> State.Pended) as Hn by (unfold st; by rewrite Es).
    all: try (apply calm_state; [done|by left]; done). all: cbn [runnable_state]; try (destruct (runnable_state _)).
    all: try (apply (requeue_calm EnqueueExpired); [intros; apply EnqueueExpired_vis|done]).
    all: etrans; [apply (Dequeue_calm p)|]; apply calm_state; [by rewrite Dequeue_st|by left].
  - destruct (_ =? p); cbn [negb]; [destruct (_ && _); by intros [= <-]|]. pose proof (ifContinueProcess_calm p s) as Hc.
    destruct (ifContinueProcess p s) as [[|] s1]; intros [= <-]. exact Hc.
Qed.

Lemma keep_calm omit c p s : calm s (keep_old omit c p s).
Proof. unfold keep_old. destruct (_ && _); [apply ifContinueProcess_calm|done]. Qed.

Lemma switch_calm c old new s o s' : switch_to c old new s = (o, s') -> calm s s'.
Proof.
  unfold switch_to. set (s1 := if _ =? new then s else _). assert (calm s s1) as C1 by (unfold s1; destruct (_ =? new); [done|apply Dequeue_calm]).
  set (s2 := if bool_decide (state (thread s1 new) = State.Uninit) then _ else s1).
  assert (calm s1 s2) as C2.
  { unfold s2. destruct (bool_decide (state (thread s1 new) = State.Uninit)) eqn:Eu; [|done]. apply bool_decide_eq_true in Eu. apply calm_state; [unfold st; by rewrite Eu|by left]. }
  destruct (bool_decide (state (thread s2 new) = State.Ready)) eqn:Er; [|intros [= _ <-]; by etrans]. apply bool_decide_eq_true in Er.
  set (s3 := if bool_decide (state (thread s2 old) = State.Running) then _ else s2).
  assert (calm s2 s3) as C3.
  { unfold s3. destruct (bool_decide (state (thread s2 old) = State.Running)) eqn:Eo; [|done]. apply bool_decide_eq_true in Eo. apply calm_state; [unfold st; by rewrite Eo|by left]. }
  assert (st s3 new <> State.Pended) as Hn.
  { intros E. apply (C3 new) in E. unfold st in E. congruence. }
  intros [= _ <-]. etrans; [exact C1|]. etrans; [exact C2|]. etrans; [exact C3|].
  etrans; [apply (calm_state s3 new State.Running); [exact Hn|by right]|].
  set (s4 := upd new (set_state State.Running) s3).
  etrans; [|apply (calm_upd _ old (set_just true)); done]. change (calm s4 (upd new (set_cpu (Z.of_nat c)) (with_current c new s4))).
  apply calm_vis. intros q. by apply field_alter.
Qed.

Lemma Settle_calm D c s : settles s c -> calm s (SettleSwitchingOutThread D c s).
Proof. intros Hs. rewrite Settle_eq by done. destruct (out s c =? 0); [done|]. apply calm_vis. intros q. by apply field_alter. Qed.

(** A scheduling step. *)
Lemma Schedule_calm D omit c s o s' : settles s c -> Schedule D omit c s = Some (o, s') -> calm s s'.
Proof.
  intros Hset E. unfold Schedule in E. pose proof (Settle_calm D c s Hset) as C0. set (s0 := SettleSwitchingOutThread D c s) in *. clearbody s0.
  destruct (_ =? 0); [by injection E as _ <-|]. etrans; [exact C0|]. destruct (yield_old omit c _ s0) as [s1|] eqn:Ey; [|injection E as _ <-; apply keep_calm].
  etrans; [by eapply yield_calm|]. destruct (PickNext c s1) as [[pk s2]|] eqn:Ep; [|done]. cbn [mbind option_bind] in E. etrans; [by eapply PickNext_calm|].
  set (new := if truthy pk then pk else _) in *. destruct (new =? 0); [by injection E as _ <-|]. destruct (new =? _); [|injection E as E; by eapply switch_calm].
  injection E as _ <-. etrans; [|by apply calm_upd]. etrans; [|apply Dequeue_calm]. set (old := current_thread s0 !!! c).
  destruct (bool_decide (state (thread s2 old) = State.Ready)) eqn:Er; [|done]. apply bool_decide_eq_true in Er. apply calm_state; [unfold st; by rewrite Er|by right].
Qed.

(** A thread that sleeps gives its processor to one that is not blocked. *)
Lemma Sleep_calm n D c s o s' : SysI n s -> (c < n)%nat -> settles s c -> cur s c <> 0 -> cur s c <> idl s c ->
  SleepAndRelease D (fun s => s) c s = Some (o, s') -> calm s s'.
Proof.
  intros (rq & eq & SY & R) Hc Hset Hz Hni E. unfold SleepAndRelease in E. pose proof (Settle_calm D c s Hset) as C0.
  destruct (Settle_Sys n D s rq eq c SY Hc Hset) as (S0 & _ & Ec0 & Ei0 & H0 & _). set (s0 := SettleSwitchingOutThread D c s) in *. clearbody s0.
  fold (cur s c) in E. assert (has s (cur s c)) as Hp by (by destruct (cp_cur _ _ (sys_cpus _ _ _ _ SY) c Hc)).
  destruct (Sys_dequeue n s0 rq eq (cur s c) S0) as [S1 Q1]; [by apply H0|]. set (s1 := DequeueReady (cur s c) s0) in *.
  destruct (PickNext_Sys n s1 _ _ c S1 Hc) as (pk & s2 & E2 & Q2 & S2 & HP). rewrite E2 in E. cbn [mbind option_bind] in E.
  etrans; [exact C0|]. etrans; [apply (Dequeue_calm (cur s c))|]. fold s1. etrans; [by eapply PickNext_calm|].
  set (new := if truthy pk then pk else _) in *. assert (st s2 new <> State.Pended) as Hn.
  { unfold new, truthy. destruct HP as [->|[PK _]].
    - cbn [Z.eqb negb]. fold (idl s2 c). destruct (cp_idle _ _ (sys_cpus _ _ _ _ S2) c Hc) as [_ [E3|[E3|E3]]]; by rewrite E3.
    - pose proof (pk_has _ _ _ _ _ _ PK) as [Hz' _]. rewrite (proj2 (Z.eqb_neq pk 0) Hz'). cbn [negb]. destruct (pk_state _ _ _ _ _ _ PK) as [E3|[_ E3]]; by rewrite E3. }
  destruct (new =? 0); [by injection E as _ <-|]. injection E as _ <-. set (s3 := upd new (set_cpu (Z.of_nat c)) (with_current c new s2)).
  assert (forall q, vis (thread s3 q) = vis (thread s2 q)) as V3 by (intros q; by apply field_alter).
  set (s4 := if idle_thread s3 !!! c =? new then s3 else DequeueReady new s3).
  assert (forall q, vis (thread s4 q) = vis (thread s2 q)) as V4 by (intros q; unfold s4; destruct (_ =? new); [done|by rewrite DequeueReady_vis]).
  etrans; [by apply calm_vis|]. etrans; [apply (calm_state s4 new State.Running); [|by right]|].
  - pose proof (V4 new) as E4. unfold vis in E4. injection E4 as E4 _. unfold st in *. by rewrite E4.
  - apply calm_vis. intros q. by apply field_alter.
Qed.

(** ** Blocking and waking *)

Lemma vis_upd_other th f s q : q <> th -> vis (thread (upd th f s) q) = vis (thread s q).
Proof. intros Hn. unfold thread, upd; cbn. by rewrite lookup_alter_ne. Qed.
Lemma thread_upd_self th f s : is_Some (heap s !! th) -> thread (upd th f s) th = f (thread s th).
Proof. intros [t E]. unfold thread, upd; cbn. by rewrite lookup_alter_eq, E. Qed.

Lemma Block_other th r s q : q <> th -> vis (thread (Block th r s) q) = vis (thread s q).
Proof. intros Hn. unfold Block. destruct (truthy _); rewrite vis_upd_other by done; apply DequeueReady_vis. Qed.

Lemma Dequeue_exists p s q : is_Some (heap (DequeueReady p s) !! q) <-> is_Some (heap s !! q).
Proof.
  unfold DequeueReady. destruct (if head _ =? p then _ else _) as [[[? ?] ?] ?]. cbn [heap]. rewrite is_Some_alter.
  destruct (truthy (queue_state_prev _)), (truthy (queue_state_next _)); by rewrite ?is_Some_alter.
Qed.

Lemma Block_self th r s : is_Some (heap s !! th) -> let t := thread s th in
  vis (thread (Block th r s) th) =
  if truthy (Z.land (pending_wake t) r) then (state t, (Z.ldiff (block_reason t) r, Z.ldiff (pending_wake t) r))
  else (State.Pended, (Z.lor (block_reason t) r, pending_wake t)).
Proof.
  intros Hs t. unfold Block. pose proof (DequeueReady_vis th s th) as E. unfold vis, rs in E. injection E as E1 E2 E3.
  rewrite <- Dequeue_exists with (p := th) in Hs. rewrite E3. fold t in E1, E2, E3 |- *. destruct (truthy _); rewrite thread_upd_self by done; unfold vis, rs; cbn; by rewrite ?E1, ?E2, ?E3.
Qed.

Lemma Unblock_other th r s q : q <> th -> vis (thread (Unblock th r s) q) = vis (thread s q).
Proof.
  intros Hn. unfold Unblock, UnblockThreadLocked. destruct (negb _); [by apply vis_upd_other|]. destruct (state _); rewrite ?vis_upd_other by done; try done.
  all: destruct (is_expired _); rewrite ?EnqueueExpired_vis, ?EnqueueReady_vis; by rewrite !vis_upd_other.
Qed.

Lemma Unblock_self th r s : is_Some (heap s !! th) -> let t := thread s th in let br := Z.ldiff (block_reason t) r in
  vis (thread (Unblock th r s) th) =
  if negb (br =? 0) then (state t, (br, pending_wake t))
  else match state t with
       | State.Running => (State.Running, (br, Z.lor (pending_wake t) r))
       | _ => (State.Ready, (br, pending_wake t))
       end.
Proof.
  intros Hs t br. unfold Unblock, UnblockThreadLocked. set (s1 := upd th _ s).
  assert (thread s1 th = set_reasons br (pending_wake t) t) as E by (unfold s1; by rewrite thread_upd_self).
  assert (is_Some (heap s1 !! th)) as Hs1 by (by apply upd_exists). rewrite E. cbn [block_reason set_reasons state pending_wake is_expired].
  destruct (negb (br =? 0)); [unfold vis, rs; by rewrite E|]. destruct (state t) eqn:Es.
  1: rewrite thread_upd_self, E by done; unfold vis, rs; cbn; by rewrite Es. 1: unfold vis, rs; rewrite E; cbn; by rewrite Es.
  all: destruct (is_expired t); rewrite ?EnqueueExpired_vis, ?EnqueueReady_vis, thread_upd_self, E by done; done.
Qed.
