(* ===== verification/Locks.v ===== *)
(** * Sleeping locks ([mecocoa/taskman-lock.cpp])

    Spin locks mask the interrupts of their processor; mutexes and semaphores keep a word and a queue
    of threads under a spin lock, and put threads to sleep with the scheduler.  Every thread has a
    position in the lock operation it executes; a step of a thread is what it does between two
    points where other processors can observe or change anything. *)
From S2P Require Import Prelude.

(** ** Interfaces *)

(** [uni::Queue<ThreadBlock*>]. *)
Class WaitQueue (Q : Type) := {
  wq_new : Q;
  wq_empty : Q -> bool;
  wq_enqueue : Z -> Q -> Q;
  wq_dequeue : Q -> Z * Q;
}.
Class WaitQueueLaws (Q : Type) `{WaitQueue Q} := {
  wq_list : Q -> list Z;
  wq_new_list : wq_list wq_new = [];
  wq_empty_list : forall q, wq_empty q = true <-> wq_list q = [];
  wq_enqueue_list : forall t q, wq_list (wq_enqueue t q) = wq_list q ++ [t];
  wq_dequeue_list : forall q t l, wq_list q = t :: l -> (wq_dequeue q).1 = t /\ wq_list (wq_dequeue q).2 = l;
}.

(** What the locks use of the scheduler, with the reason [BR_Lock]. *)
Class Sleeping (S : Type) := {
  current : S -> nat -> Z;
  block : Z -> S -> S;
  unblock : Z -> S -> S;
  sleep : nat -> S -> option S;
}.

(** ** Spin locks *)

Record Spinlock := MkSpin { sl_locked : bool; sl_cpu : Z }.
Definition new_spin : Spinlock := MkSpin false (-1).

Definition TryMaskInterrupt (c : nat) (flags : list bool) : bool * list bool := (flags !!! c, <[c := false]> flags).
Definition enInterrupt (old_if : bool) (c : nat) (flags : list bool) : list bool :=
  if old_if then <[c := true]> flags else flags.

(** [locked.exchange(1)] and, when it was free, the owner is noted. *)
Definition exchange (c : nat) (l : Spinlock) : bool * Spinlock :=
  if sl_locked l then (true, l) else (false, MkSpin true (Z.of_nat c)).

Definition TryAcquire (c : nat) (l : Spinlock) (flags : list bool) : (bool * bool) * (Spinlock * list bool) :=
  let '(old_if, flags) := TryMaskInterrupt c flags in
  let '(was, l) := exchange c l in
  if was then ((false, old_if), (l, enInterrupt old_if c flags)) else ((true, old_if), (l, flags)).

(** [Release(old_if)]: the lock, then the interrupts. *)
Definition Spinlock_Release (old_if : bool) (c : nat) (flags : list bool) : Spinlock * list bool :=
  (new_spin, enInterrupt old_if c flags).

(** ** Mutexes and semaphores *)
Inductive Kind := Mutex | Semaphore.

(** The type of each lock, and the word it is constructed with. *)
Class LockTypes := { kind : Z -> Kind; initial : Z -> Z }.

Section Locks.
Context {Q : Type} `{!WaitQueue Q} {S : Type} `{!Sleeping S}.

(** [word] is [locked] of a mutex and [value] of a semaphore. *)
Record Lock := MkLock { guard : Spinlock; word : Z; wait_queue : Q }.
Definition set_guard (g : Spinlock) (l : Lock) : Lock := MkLock g (word l) (wait_queue l).
Definition set_word (x : Z) (l : Lock) : Lock := MkLock (guard l) x (wait_queue l).
Definition set_queue (q : Q) (l : Lock) : Lock := MkLock (guard l) (word l) q.

(** The bodies under the guard.  An acquisition that must wait is [None]; a release gives the thread
    that it took from the queue. *)
Definition Mutex_Acquire (l : Lock) : option Lock := if truthy (word l) then None else Some (set_word 1 l).
Definition Mutex_Release (l : Lock) : option Z * Lock :=
  if negb (wq_empty (wait_queue l)) then
    let '(t, q) := wq_dequeue (wait_queue l) in (Some t, set_queue q l)
  else (None, set_word 0 l).
Definition Semaphore_Acquire (l : Lock) : option Lock :=
  if 0 <? word l then Some (set_word (word l - 1) l) else None.
Definition Semaphore_Release (l : Lock) : option Z * Lock :=
  if negb (wq_empty (wait_queue l)) then
    let '(t, q) := wq_dequeue (wait_queue l) in (Some t, set_queue q l)
  else (None, set_word (word l + 1) l).

(** Where a thread is.  [old_if] is the interrupt flag the guard's [Acquire] found. *)
Inductive Op := Acquire (k : Z) | Release (k : Z).
Inductive Pc :=
  | Outside
  | Enter (op : Op) (old_if : bool)                  (* spins for the guard *)
  | Inside (op : Op) (old_if : bool)                 (* has the guard *)
  | Parked (k : Z) (old_if : bool)                   (* has called Block *)
  | Queued (k : Z) (old_if : bool)                   (* is on the queue *)
  | Asleep (k : Z) (old_if : bool)                   (* in SleepAndRelease *)
  | WakeIn (k : Z) (t : Z) (old_if : bool)           (* will unblock t, with the guard *)
  | WakeOut (k : Z) (t : Z)                          (* will unblock t, without the guard *)
  | Leave (k : Z) (old_if : bool).                   (* will release the guard *)

(** The scheduler, the interrupt flags of the processors, the locks, the positions of the threads;
    and, for the statements only: who is between [Acquire] and [Release] of which mutex, and how
    often each semaphore was acquired and released. *)
Record World := MkWorld {
  sched : S;
  interrupts : list bool;
  locks : gmap Z Lock;
  pcs : gmap Z Pc;
  held : list (Z * Z);
  taken : gmap Z Z;
  given : gmap Z Z;
}.

Context `{!LockTypes}.

Definition lock (w : World) (k : Z) : Lock := default (MkLock new_spin (initial k) wq_new) (locks w !! k).
Definition pc (w : World) (t : Z) : Pc := default Outside (pcs w !! t).

Definition with_sched (s : S) (w : World) : World := MkWorld s (interrupts w) (locks w) (pcs w) (held w) (taken w) (given w).
Definition with_flags (f : list bool) (w : World) : World := MkWorld (sched w) f (locks w) (pcs w) (held w) (taken w) (given w).
Definition set_lock (k : Z) (l : Lock) (w : World) : World :=
  MkWorld (sched w) (interrupts w) (<[k := l]> (locks w)) (pcs w) (held w) (taken w) (given w).
Definition set_pc (t : Z) (p : Pc) (w : World) : World :=
  MkWorld (sched w) (interrupts w) (locks w) (<[t := p]> (pcs w)) (held w) (taken w) (given w).
Definition release_guard (k : Z) (old_if : bool) (c : nat) (w : World) : World :=
  let '(g, flags) := Spinlock_Release old_if c (interrupts w) in
  with_flags flags (set_lock k (set_guard g (lock w k)) w).

(** Bookkeeping: an acquisition is decided; a mutex is entered; a release is decided. *)
Definition bump (k : Z) (m : gmap Z Z) : gmap Z Z := <[k := default 0 (m !! k) + 1]> m.
Definition note_taken (k : Z) (w : World) : World :=
  MkWorld (sched w) (interrupts w) (locks w) (pcs w) (held w) (bump k (taken w)) (given w).
Definition note_given (k : Z) (w : World) : World :=
  MkWorld (sched w) (interrupts w) (locks w) (pcs w) (held w) (taken w) (bump k (given w)).
Definition note_held (k t : Z) (w : World) : World :=
  MkWorld (sched w) (interrupts w) (locks w) (pcs w) ((k, t) :: held w) (taken w) (given w).
Definition note_dropped (k t : Z) (w : World) : World :=
  MkWorld (sched w) (interrupts w) (locks w) (pcs w) (List.filter (fun x => negb (bool_decide (x = (k, t)))) (held w)) (taken w) (given w).

Definition lock_of (op : Op) : Z := match op with Acquire k | Release k => k end.

Definition acquire (k : Z) : Lock -> option Lock := match kind k with Mutex => Mutex_Acquire | Semaphore => Semaphore_Acquire end.
Definition release (k : Z) : Lock -> option Z * Lock := match kind k with Mutex => Mutex_Release | Semaphore => Semaphore_Release end.

(** The call: [this->guard.Acquire()] masks the interrupts and begins to spin. *)
Definition begin (c : nat) (op : Op) (w : World) : World :=
  let t := current (sched w) c in
  let '(old_if, flags) := TryMaskInterrupt c (interrupts w) in
  let w := match op with Release k => note_dropped k t w | _ => w end in
  set_pc t (Enter op old_if) (with_flags flags w).

(** The next step of the thread that processor [c] executes. *)
Definition advance (c : nat) (w : World) : option World :=
  let t := current (sched w) c in
  match pc w t with
  | Outside => None
  | Enter op old_if =>
    let k := lock_of op in
    let '(was, g) := exchange c (guard (lock w k)) in
    if was then Some w else Some (set_pc t (Inside op old_if) (set_lock k (set_guard g (lock w k)) w))
  | Inside (Acquire k) old_if =>
    match acquire k (lock w k) with
    | Some l => Some (set_pc t Outside (note_held k t (note_taken k (release_guard k old_if c (set_lock k l w)))))
    | None => Some (set_pc t (Parked k old_if) (with_sched (block t (sched w)) w))
    end
  | Parked k old_if =>
    let l := lock w k in
    Some (set_pc t (Queued k old_if) (set_lock k (set_queue (wq_enqueue t (wait_queue l)) l) w))
  | Queued k old_if =>
    s ← sleep c (sched w);
    Some (set_pc t (Asleep k old_if) (with_sched s (release_guard k false c w)))
  | Asleep k old_if => Some (set_pc t Outside (note_held k t (with_flags (enInterrupt old_if c (interrupts w)) w)))
  | Inside (Release k) old_if =>
    let w := note_given k w in
    match kind k, release k (lock w k) with
    | Mutex, (Some u, l) => Some (set_pc t (WakeOut k u) (note_taken k (release_guard k old_if c (set_lock k l w))))
    | Semaphore, (Some u, l) => Some (set_pc t (WakeIn k u old_if) (note_taken k (set_lock k l w)))
    | _, (None, l) => Some (set_pc t Outside (release_guard k old_if c (set_lock k l w)))
    end
  | WakeOut k u => Some (set_pc t Outside (with_sched (if truthy u then unblock u (sched w) else sched w) w))
  | WakeIn k u old_if => Some (set_pc t (Leave k old_if) (with_sched (if truthy u then unblock u (sched w) else sched w) w))
  | Leave k old_if => Some (set_pc t Outside (release_guard k old_if c w))
  end.

End Locks.
Arguments World : clear implicits.
Arguments Lock : clear implicits.
