(* ===== verification/LocksProof.v ===== *)
(** * Sleeping locks: the invariant

    The scheduler as the locks see it, the steps of all threads and of the rest of the kernel, and
    the invariant of every reachable state. *)
From S2P Require Import Prelude Locks.

(** ** What the scheduler promises *)

(** [waits]: the thread has [BR_Lock] among its reasons; [sleeper]: a thread that may be put to
    sleep; [others]: a step of the rest of the kernel, where [pre] are the processors whose thread
    may be switched. *)
Class SleepingLaws (S : Type) `{Sleeping S} := {
  cpus : nat;
  sched_ok : S -> Prop;
  settled : S -> nat -> Prop;
  sleeper : S -> Z -> Prop;
  waits : S -> Z -> Prop;
  runnable : S -> Z -> Prop;
  blocked_else : S -> Z -> Prop;
  others : (nat -> Prop) -> S -> S -> Prop;
  sleeper_nonzero : forall s t, sleeper s t -> t <> 0;
  current_inj : forall s c d, sched_ok s -> (c < cpus)%nat -> (d < cpus)%nat -> current s c = current s d -> current s c <> 0 -> c = d;
  block_law : forall s c, sched_ok s -> (c < cpus)%nat -> sleeper s (current s c) ->
    let s' := block (current s c) s in sched_ok s' /\ (forall p, waits s' p <-> p = current s c \/ waits s p) /\
    (forall d, current s' d = current s d) /\ (forall p, sleeper s p -> sleeper s' p);
  unblock_law : forall s t, sched_ok s -> sleeper s t -> waits s t ->
    let s' := unblock t s in sched_ok s' /\ (forall p, waits s' p <-> p <> t /\ waits s p) /\
    (forall d, current s' d = current s d) /\ (forall p, sleeper s p -> sleeper s' p);
  sleep_law : forall s c, sched_ok s -> (c < cpus)%nat -> settled s c -> sleeper s (current s c) -> waits s (current s c) ->
    exists s', sleep c s = Some s' /\ sched_ok s' /\ (forall p, waits s' p <-> waits s p) /\
    ~ waits s' (current s' c) /\ (forall d, d <> c -> current s' d = current s d) /\ (forall p, sleeper s p -> sleeper s' p);
  others_law : forall pre s s', sched_ok s -> others pre s s' -> sched_ok s' /\ (forall p, waits s' p <-> waits s p) /\
    (forall p, sleeper s p -> sleeper s' p) /\
    (forall c, (c < cpus)%nat -> current s' c = current s c \/ (pre c \/ current s c = 0) /\ ~ waits s' (current s' c));
  awake_law : forall s t, sched_ok s -> sleeper s t -> ~ waits s t -> runnable s t \/ blocked_else s t;
}.

Section Proof.
Context {Q : Type} `{!WaitQueue Q} `{!WaitQueueLaws Q} {S : Type} `{!Sleeping S} `{!SleepingLaws S}.
Context `{!LockTypes}.
Abbreviation World := (World Q S).
Implicit Types (w : World).

(** ** Positions *)

Definition masked (p : Pc) : bool := match p with Outside | Asleep _ _ | WakeOut _ _ => false | _ => true end.
Definition guards (p : Pc) : option Z :=
  match p with
  | Inside op _ => Some (lock_of op)
  | Parked k _ | Queued k _ | WakeIn k _ _ | Leave k _ => Some k
  | _ => None
  end.
Definition may_sleep (p : Pc) : bool :=
  match p with Enter (Acquire _) _ | Inside (Acquire _) _ | Parked _ _ | Queued _ _ | Asleep _ _ => true | _ => false end.
Definition target (p : Pc) : option Z := match p with WakeIn _ u _ | WakeOut _ u => Some u | _ => None end.
Definition parked (k : Z) (p : Pc) : bool := match p with Parked j _ | Queued j _ => j =? k | _ => false end.
Definition releasing (k : Z) (p : Pc) : bool := match p with Enter (Release j) _ | Inside (Release j) _ => j =? k | _ => false end.

(** ** Steps *)

Definition may_begin (op : Op) (w : World) (t : Z) : Prop :=
  match op with Acquire k => sleeper (sched w) t | Release k => kind k = Mutex -> (k, t) ∈ held w end.
Definition preemptible (w : World) (c : nat) : Prop :=
  interrupts w !!! c = true \/ masked (pc w (current (sched w) c)) = false.

Inductive lock_step : World -> World -> Prop :=
  | step_begin c op w : (c < cpus)%nat -> current (sched w) c <> 0 -> pc w (current (sched w) c) = Outside ->
      may_begin op w (current (sched w) c) -> lock_step w (begin c op w)
  | step_advance c w w' : (c < cpus)%nat -> ((exists k i, pc w (current (sched w) c) = Queued k i) -> settled (sched w) c) ->
      advance c w = Some w' -> lock_step w w'
  | step_others w s' : others (preemptible w) (sched w) s' -> lock_step w (with_sched s' w)
  | step_flags c b w : (c < cpus)%nat -> masked (pc w (current (sched w) c)) = false ->
      lock_step w (with_flags (<[c := b]> (interrupts w)) w).

(** ** The invariant *)

Definition waiters (w : World) (k : Z) : list Z := wq_list (wait_queue (lock w k)).

Record Guarded (w : World) : Prop := {
  gd_iff : forall k, sl_locked (guard (lock w k)) = true <-> exists t, guards (pc w t) = Some k;
  gd_one : forall t u k, guards (pc w t) = Some k -> guards (pc w u) = Some k -> t = u;
}.
Record Masked (w : World) : Prop := {
  mk_len : length (interrupts w) = cpus;
  mk_cpu : forall t, masked (pc w t) = true -> exists c, (c < cpus)%nat /\ current (sched w) c = t /\ interrupts w !!! c = false;
  mk_nz : pc w 0 = Outside;
  mk_sleeper : forall t, may_sleep (pc w t) = true -> sleeper (sched w) t;
}.
Record Queues (w : World) : Prop := {
  qu_nodup : forall k, NoDup (waiters w k);
  qu_in : forall k t, t ∈ waiters w k -> exists i, pc w t = Queued k i \/ pc w t = Asleep k i;
  qu_queued : forall k t i, pc w t = Queued k i -> t ∈ waiters w k;
  qu_target : forall u t, target (pc w u) = Some t -> exists k i, pc w t = Asleep k i /\ t ∉ waiters w k;
  qu_one : forall u v t, target (pc w u) = Some t -> target (pc w v) = Some t -> u = v;
}.
Record Waits (w : World) : Prop := {
  wt_parked : forall k t, parked k (pc w t) = true -> waits (sched w) t;
  wt_asleep : forall k t i, pc w t = Asleep k i ->
    waits (sched w) t <-> t ∈ waiters w k \/ exists u, target (pc w u) = Some t;
  wt_cur : forall c k i, (c < cpus)%nat -> pc w (current (sched w) c) = Asleep k i -> ~ waits (sched w) (current (sched w) c);
}.

(** Who a locked mutex belongs to: the thread between [Acquire] and [Release], the sleeper that was
    taken from the queue, or the thread that has begun to release it. *)
Definition granted (w : World) (k t : Z) : Prop := exists i, pc w t = Asleep k i /\ t ∉ waiters w k.
Definition stake (w : World) (k t : Z) : Prop := (k, t) ∈ held w \/ granted w k t \/ releasing k (pc w t) = true.

Definition available (k : Z) (x : Z) : Prop := match kind k with Mutex => x = 0 | Semaphore => 0 < x end.
Definition tally (m : gmap Z Z) (k : Z) : Z := default 0 (m !! k).

Record Words (w : World) : Prop := {
  wd_free : forall k, available k (word (lock w k)) -> waiters w k = [] /\ forall t, parked k (pc w t) = false;
  wd_bit : forall k, kind k = Mutex -> word (lock w k) = 0 \/ word (lock w k) = 1;
  wd_stake : forall k, kind k = Mutex -> word (lock w k) = 1 <-> exists t, stake w k t;
  wd_one : forall k t u, kind k = Mutex -> stake w k t -> stake w k u -> t = u;
  wd_out : forall k t, kind k = Mutex -> granted w k t \/ releasing k (pc w t) = true -> (k, t) ∉ held w;
  wd_count : forall k, kind k = Semaphore -> word (lock w k) = initial k + tally (given w) k - tally (taken w) k /\ 0 <= word (lock w k);
}.

Record LockInv (w : World) : Prop := {
  li_ok : sched_ok (sched w);
  li_guarded : Guarded w;
  li_masked : Masked w;
  li_queues : Queues w;
  li_waits : Waits w;
  li_words : Words w;
}.

(** ** Reading an updated world *)

Lemma pc_set t p w u : pc (set_pc t p w) u = if decide (u = t) then p else pc w u.
Proof.
  unfold pc, set_pc. cbn. destruct (decide (u = t)) as [->|Hn]; [by rewrite lookup_insert_eq|by rewrite lookup_insert_ne].
Qed.
Lemma lock_set k l w j : lock (set_lock k l w) j = if decide (j = k) then l else lock w j.
Proof.
  unfold lock, set_lock. cbn. destruct (decide (j = k)) as [->|Hn]; [by rewrite lookup_insert_eq|by rewrite lookup_insert_ne].
Qed.
Lemma tally_bump k m j : tally (bump k m) j = tally m j + (if decide (j = k) then 1 else 0).
Proof.
  unfold tally, bump. destruct (decide (j = k)) as [->|Hn]; [by rewrite lookup_insert_eq|rewrite lookup_insert_ne by done; lia].
Qed.

(** ** Guards *)

Definition moves (w w' : World) (t : Z) (p : Pc) : Prop := forall u, pc w' u = if decide (u = t) then p else pc w u.
Definition busy (w : World) (k : Z) : bool := sl_locked (guard (lock w k)).

Lemma Guarded_same w w' : (forall k, busy w' k = busy w k) -> (forall u, guards (pc w' u) = guards (pc w u)) -> Guarded w -> Guarded w'.
Proof.
  intros Hl Hp [G1 G2]. constructor.
  - intros k. fold (busy w' k). rewrite Hl. unfold busy. rewrite G1. by setoid_rewrite Hp.
  - intros t u k. rewrite !Hp. apply G2.
Qed.

Lemma Guarded_stay w w' t p : moves w w' t p -> guards p = guards (pc w t) -> (forall k, busy w' k = busy w k) -> Guarded w -> Guarded w'.
Proof. intros Hm Hg Hl. apply Guarded_same; [done|]. intros u. rewrite Hm. by destruct (decide (u = t)) as [->|]. Qed.

Lemma Guarded_enter w w' t p k : moves w w' t p -> guards (pc w t) = None -> guards p = Some k -> busy w k = false ->
  (forall j, busy w' j = if decide (j = k) then true else busy w j) -> Guarded w -> Guarded w'.
Proof.
  intros Hm Hn Hp Hf Hl [G1 G2]. assert (forall u, guards (pc w u) <> Some k) as Hno.
  { intros u Hu. unfold busy in Hf. by rewrite (proj2 (G1 k)) in Hf by eauto. }
  constructor.
  - intros j. fold (busy w' j). rewrite Hl. destruct (decide (j = k)) as [->|Hj].
    + split; [|done]. intros _. exists t. by rewrite Hm, decide_True.
    + unfold busy. rewrite G1. split; intros [u Hu]; exists u; rewrite Hm in *; destruct (decide (u = t)) as [->|]; congruence.
  - intros u v j. rewrite !Hm. destruct (decide (u = t)) as [->|], (decide (v = t)) as [->|]; try done; [| |by apply G2].
    + rewrite Hp. intros [= <-] Hv. by destruct (Hno v).
    + rewrite Hp. intros Hu [= <-]. by destruct (Hno u).
Qed.

Lemma Guarded_leave w w' t p k : moves w w' t p -> guards (pc w t) = Some k -> guards p = None ->
  (forall j, busy w' j = if decide (j = k) then false else busy w j) -> Guarded w -> Guarded w'.
Proof.
  intros Hm Hk Hp Hl [G1 G2]. constructor.
  - intros j. fold (busy w' j). rewrite Hl. destruct (decide (j = k)) as [->|Hj].
    + split; [done|]. intros [u Hu]. rewrite Hm in Hu. destruct (decide (u = t)) as [->|Hut]; [congruence|]. by destruct Hut; apply (G2 u t k).
    + unfold busy. rewrite G1. split; intros [u Hu]; exists u; rewrite Hm in *; destruct (decide (u = t)) as [->|]; congruence.
  - intros u v j. rewrite !Hm. destruct (decide (u = t)) as [->|], (decide (v = t)) as [->|]; try congruence. apply G2.
Qed.

(** ** Masked interrupts *)

Lemma Masked_move w w' t p c : Masked w -> moves w w' t p -> (c < cpus)%nat -> current (sched w) c = t -> t <> 0 ->
  (forall d, (d < cpus)%nat -> current (sched w) d = t -> d = c) ->
  length (interrupts w') = cpus -> (forall d, d <> c -> interrupts w' !!! d = interrupts w !!! d) ->
  (forall d, d <> c -> current (sched w') d = current (sched w) d) ->
  (masked p = true -> current (sched w') c = t /\ interrupts w' !!! c = false) ->
  (forall u, sleeper (sched w) u -> sleeper (sched w') u) -> (may_sleep p = true -> sleeper (sched w') t) -> Masked w'.
Proof.
  intros [M1 M2 M3 M4] Hm Hc Ht Hz Hu Hlen Hfl Hcu Hp Hs Hps. constructor; [done| | |].
  - intros u. rewrite Hm. destruct (decide (u = t)) as [->|Hn].
    + intros Hpm. exists c. by destruct (Hp Hpm).
    + intros Hmu. destruct (M2 u Hmu) as (d & Hd & Hdu & Hif). exists d. assert (d <> c) as Hdc by congruence.
      split; [done|]. by rewrite Hcu, Hfl.
  - rewrite Hm. by destruct (decide (0 = t)).
  - intros u. rewrite Hm. destruct (decide (u = t)) as [->|Hn]; [done|]. intros Hmu. by apply Hs, M4.
Qed.

Lemma enInterrupt_len b c f : length (enInterrupt b c f) = length f.
Proof. destruct b; [apply length_insert|done]. Qed.
Lemma enInterrupt_other b c d f : d <> c -> enInterrupt b c f !!! d = f !!! d.
Proof. intros Hn. destruct b; [|done]. cbn. rewrite list_lookup_total_insert_ne by done. done. Qed.

(** ** Queues and sleepers *)

(** A position that the queues do not speak about. *)
Definition plain (p : Pc) : Prop := target p = None /\ (forall k i, p <> Queued k i) /\ (forall k i, p <> Asleep k i).

Lemma Queues_plain w w' t p : moves w w' t p -> plain (pc w t) -> plain p -> (forall k, waiters w' k = waiters w k) -> Queues w -> Queues w'.
Proof.
  intros Hm (P1 & P2 & P3) (R1 & R2 & R3) Hq [Q1 Q2 Q3 Q4 Q5]. constructor.
  - intros k. rewrite Hq. apply Q1.
  - intros k u. rewrite Hq, Hm. intros Hu. destruct (Q2 k u Hu) as [i Hi]. destruct (decide (u = t)) as [->|]; [|by exists i].
    destruct Hi as [Hi|Hi]; [by destruct (P2 _ _ Hi)|by destruct (P3 _ _ Hi)].
  - intros k u i. rewrite Hq, Hm. destruct (decide (u = t)) as [->|]; [intros Hi; by destruct (R2 _ _ Hi)|apply Q3].
  - intros u v. rewrite Hm. destruct (decide (u = t)) as [->|]; [congruence|]. intros Hu. destruct (Q4 u v Hu) as (k & i & Hv & Hn).
    exists k, i. rewrite Hq, Hm. destruct (decide (v = t)) as [->|]; [by destruct (P3 _ _ Hv)|done].
  - intros u v x. rewrite !Hm. destruct (decide (u = t)), (decide (v = t)); try congruence. apply Q5.
Qed.

(** Nobody's waiting changes. *)
Lemma Waits_plain w w' t p : moves w w' t p -> plain (pc w t) -> plain p -> (forall k, waiters w' k = waiters w k) ->
  (forall k, parked k p = true -> waits (sched w) t) -> (forall u, waits (sched w') u <-> waits (sched w) u) ->
  (forall c, (c < cpus)%nat -> current (sched w') c = current (sched w) c) -> Waits w -> Waits w'.
Proof.
  intros Hm (P1 & P2 & P3) (R1 & R2 & R3) Hq Hpk Hw Hc [W1 W2 W3]. constructor.
  - intros k u. rewrite Hm, Hw. destruct (decide (u = t)) as [->|]; [apply Hpk|apply W1].
  - intros k u i. rewrite Hm, Hw, Hq. destruct (decide (u = t)) as [->|]; [intros Hi; by destruct (R3 _ _ Hi)|]. intros Hi. rewrite (W2 k u i Hi).
    enough ((exists v, target (pc w v) = Some u) <-> (exists v, target (pc w' v) = Some u)) by tauto.
    split; intros [v Hv]; exists v; rewrite Hm in *; destruct (decide (v = t)) as [->|]; congruence.
  - intros c k i Hlt. rewrite Hc, Hm, Hw by done. destruct (decide _); [intros Hi; by destruct (R3 _ _ Hi)|by apply W3].
Qed.

(** [Enqueue]: a parked thread joins the end of the queue. *)
Lemma Queues_enqueue w w' t k i : moves w w' t (Queued k i) -> pc w t = Parked k i ->
  (forall j, waiters w' j = if decide (j = k) then waiters w k ++ [t] else waiters w j) -> Queues w -> Queues w'.
Proof.
  intros Hm Ht Hq [Q1 Q2 Q3 Q4 Q5].
  assert (forall j, t ∉ waiters w j) as Hno by (intros j Hj; destruct (Q2 j t Hj) as [i' [E|E]]; congruence).
  constructor.
  - intros j. rewrite Hq. destruct (decide (j = k)) as [->|]; [|done]. apply NoDup_app. split; [done|]. split; [|by apply NoDup_singleton].
    intros x Hx ->%list_elem_of_singleton. by apply (Hno k).
  - intros j u. rewrite Hq, Hm. destruct (decide (u = t)) as [->|Hu]; destruct (decide (j = k)) as [->|Hj].
    + intros _. exists i. by left.
    + intros Hin. by destruct (Hno j).
    + rewrite elem_of_app, list_elem_of_singleton. intros [Hin|]; [by apply Q2|done].
    + apply Q2.
  - intros j u x. rewrite Hq, Hm. destruct (decide (u = t)) as [->|Hu].
    + intros [= <- <-]. rewrite decide_True by done. apply elem_of_app. right. by apply list_elem_of_singleton.
    + intros Hin%Q3. destruct (decide (j = k)) as [->|]; [apply elem_of_app; by left|done].
  - intros u v. rewrite Hm. destruct (decide (u = t)) as [->|]; [done|]. intros Hu. destruct (Q4 u v Hu) as (j & x & Hv & Hn).
    assert (v <> t) by congruence. exists j, x. rewrite Hm, decide_False, Hq by done. split; [done|]. destruct (decide (j = k)) as [->|]; [|done].
    rewrite elem_of_app, list_elem_of_singleton. tauto.
  - intros u v x. rewrite !Hm. destruct (decide (u = t)), (decide (v = t)); try done. apply Q5.
Qed.

Lemma Waits_enqueue w w' t k i : moves w w' t (Queued k i) -> pc w t = Parked k i ->
  (forall j, waiters w' j = if decide (j = k) then waiters w k ++ [t] else waiters w j) -> sched w' = sched w -> Waits w -> Waits w'.
Proof.
  intros Hm Ht Hq Hs [W1 W2 W3]. constructor.
  - intros j u. rewrite Hm, Hs. destruct (decide (u = t)) as [->|]; [|apply W1]. intros _. apply (W1 k). rewrite Ht. cbn. by rewrite Z.eqb_refl.
  - intros j u x. rewrite Hm, Hs. destruct (decide (u = t)) as [->|Hu]; [done|]. intros Hi. rewrite (W2 j u x Hi).
    assert (u ∈ waiters w' j <-> u ∈ waiters w j) as ->.
    { rewrite Hq. destruct (decide (j = k)) as [->|]; [|done]. rewrite elem_of_app, list_elem_of_singleton. tauto. }
    enough ((exists v, target (pc w v) = Some u) <-> (exists v, target (pc w' v) = Some u)) by tauto.
    split; intros [v Hv]; exists v; rewrite Hm in *; destruct (decide (v = t)) as [->|]; try done. by rewrite Ht in Hv.
  - intros c j x Hlt. rewrite Hs, Hm. destruct (decide _); [done|by apply W3].
Qed.

(** [SleepAndRelease]: the thread is asleep, still on the queue. *)
Lemma Queues_asleep w w' t k i : moves w w' t (Asleep k i) -> pc w t = Queued k i -> (forall j, waiters w' j = waiters w j) -> Queues w -> Queues w'.
Proof.
  intros Hm Ht Hq [Q1 Q2 Q3 Q4 Q5]. constructor.
  - intros j. by rewrite Hq.
  - intros j u. rewrite Hq, Hm. intros [x Hx]%Q2. destruct (decide (u = t)) as [->|]; [|by exists x].
    exists i. right. rewrite Ht in Hx. by destruct Hx as [[= <- <-]|].
  - intros j u x. rewrite Hq, Hm. destruct (decide (u = t)) as [->|]; [done|apply Q3].
  - intros u v. rewrite Hm. destruct (decide (u = t)) as [->|]; [done|]. intros Hu. destruct (Q4 u v Hu) as (j & x & Hv & Hn).
    assert (v <> t) by congruence. exists j, x. by rewrite Hm, decide_False, Hq by done.
  - intros u v x. rewrite !Hm. destruct (decide (u = t)), (decide (v = t)); try done. apply Q5.
Qed.

Lemma Waits_asleep w w' t k i : moves w w' t (Asleep k i) -> pc w t = Queued k i -> t ∈ waiters w k -> (forall j, waiters w' j = waiters w j) ->
  (forall u, waits (sched w') u <-> waits (sched w) u) ->
  (forall c, (c < cpus)%nat -> current (sched w') c = current (sched w) c /\ current (sched w') c <> t \/ ~ waits (sched w') (current (sched w') c)) ->
  Waits w -> Waits w'.
Proof.
  intros Hm Ht Hin Hq Hw Hc [W1 W2 W3].
  assert (waits (sched w) t) as Hwt by (apply (W1 k); rewrite Ht; cbn; by rewrite Z.eqb_refl).
  assert (forall u, (exists v, target (pc w' v) = Some u) <-> (exists v, target (pc w v) = Some u)) as Htg.
  { intros u. split; intros [v Hv]; exists v; rewrite Hm in *; destruct (decide (v = t)) as [->|]; try done. by rewrite Ht in Hv. }
  constructor.
  - intros j u. rewrite Hm, Hw. destruct (decide (u = t)) as [->|]; [done|apply W1].
  - intros j u x. rewrite Hm, Hw, Hq, Htg. destruct (decide (u = t)) as [->|]; [|apply W2]. intros [= <- <-]. tauto.
  - intros c j x Hlt. destruct (Hc c Hlt) as [[E Hne]|Hn]; [|done]. rewrite Hm, decide_False by done. rewrite E, Hw. by apply W3.
Qed.

(** The sleeper that was taken from the queue and woken goes on. *)
Lemma Queues_resume w w' t k i : moves w w' t Outside -> pc w t = Asleep k i -> t ∉ waiters w k -> (forall u, target (pc w u) <> Some t) ->
  (forall j, waiters w' j = waiters w j) -> Queues w -> Queues w'.
Proof.
  intros Hm Ht Hno Htg Hq [Q1 Q2 Q3 Q4 Q5]. constructor.
  - intros j. by rewrite Hq.
  - intros j u. rewrite Hq, Hm. intros Hin. destruct (Q2 j u Hin) as [x Hx]. destruct (decide (u = t)) as [->|]; [|by exists x].
    rewrite Ht in Hx. destruct Hx as [|[= <- <-]]; done.
  - intros j u x. rewrite Hq, Hm. destruct (decide (u = t)) as [->|]; [done|apply Q3].
  - intros u v. rewrite Hm. destruct (decide (u = t)) as [->|]; [done|]. intros Hu. destruct (Q4 u v Hu) as (j & x & Hv & Hn).
    assert (v <> t) by (intros ->; by apply (Htg u)). exists j, x. by rewrite Hm, decide_False, Hq by done.
  - intros u v x. rewrite !Hm. destruct (decide (u = t)), (decide (v = t)); try done. apply Q5.
Qed.

Lemma Waits_resume w w' t k i : moves w w' t Outside -> pc w t = Asleep k i -> (forall j, waiters w' j = waiters w j) -> sched w' = sched w ->
  Waits w -> Waits w'.
Proof.
  intros Hm Ht Hq Hs [W1 W2 W3]. constructor.
  - intros j u. rewrite Hm, Hs. destruct (decide (u = t)) as [->|]; [done|apply W1].
  - intros j u x. rewrite Hm, Hs, Hq. destruct (decide (u = t)) as [->|Hu]; [done|]. intros Hi. rewrite (W2 j u x Hi).
    enough ((exists v, target (pc w v) = Some u) <-> (exists v, target (pc w' v) = Some u)) by tauto.
    split; intros [v Hv]; exists v; rewrite Hm in *; destruct (decide (v = t)) as [->|]; try done. by rewrite Ht in Hv.
  - intros c j x Hlt. rewrite Hs, Hm. destruct (decide _); [done|by apply W3].
Qed.

(** A release takes the first waiter from the queue. *)
Lemma first_waiter w t k i u l : Queues w -> Guarded w -> pc w t = Inside (Release k) i -> waiters w k = u :: l -> exists x, pc w u = Asleep k x.
Proof.
  intros [_ Q2 _ _ _] [_ G2] Ht Hq. destruct (Q2 k u) as [x [Hx|Hx]]; [rewrite Hq; by left| |by exists x].
  assert (u = t) by (apply (G2 u t k); [by rewrite Hx|by rewrite Ht]). congruence.
Qed.

Lemma Queues_handoff w w' t k i u l p : moves w w' t p -> target p = Some u -> (forall j x, p <> Queued j x) -> (forall j x, p <> Asleep j x) ->
  pc w t = Inside (Release k) i -> waiters w k = u :: l -> (forall j, waiters w' j = if decide (j = k) then l else waiters w j) ->
  Guarded w -> Queues w -> Queues w'.
Proof.
  intros Hm Hp Hp1 Hp2 Ht Hk Hq G QU. destruct (first_waiter w t k i u l QU G Ht Hk) as [x Hu]. destruct QU as [Q1 Q2 Q3 Q4 Q5].
  assert (forall j v, v ∈ waiters w' j -> v ∈ waiters w j) as Hsub.
  { intros j v. rewrite Hq. destruct (decide (j = k)) as [->|]; [|done]. rewrite Hk. by right. }
  assert (u <> t) as Hut by congruence. pose proof (Q1 k) as Hnd. rewrite Hk in Hnd. apply NoDup_cons in Hnd as [Hul Hnl].
  constructor.
  - intros j. rewrite Hq. destruct (decide (j = k)) as [->|]; done.
  - intros j v Hv. destruct (Q2 j v (Hsub _ _ Hv)) as [y Hy]. rewrite Hm. destruct (decide (v = t)) as [->|]; [|by exists y].
    rewrite Ht in Hy. by destruct Hy.
  - intros j v y. rewrite Hm. destruct (decide (v = t)) as [->|]; [intros Hi; by destruct (Hp1 _ _ Hi)|]. intros Hv. rewrite Hq.
    destruct (decide (j = k)) as [->|]; [|by eapply Q3]. pose proof (Q3 k v y Hv) as Hin. rewrite Hk in Hin. apply elem_of_cons in Hin as [->|]; [congruence|done].
  - intros v y. rewrite Hm. destruct (decide (v = t)) as [->|].
    + rewrite Hp. intros [= <-]. exists k, x. rewrite Hm, decide_False by done. split; [done|]. rewrite Hq, decide_True by done. done.
    + intros Hv. destruct (Q4 v y Hv) as (j & z & Hy & Hn). assert (y <> t) by congruence. exists j, z. rewrite Hm, decide_False by done.
      split; [done|]. intros Hin. by apply Hn, Hsub.
  - assert (forall v, target (pc w v) <> Some u) as Hno.
    { intros v Hv. destruct (Q4 v u Hv) as (j & z & Hy & Hn). assert (j = k) as -> by congruence. apply Hn. rewrite Hk. by left. }
    intros v y z. rewrite !Hm. destruct (decide (v = t)) as [->|], (decide (y = t)) as [->|]; try done; [| |apply Q5]; rewrite Hp.
    + intros [= <-] Hy. by destruct (Hno y).
    + intros Hv [= <-]. by destruct (Hno v).
Qed.

Lemma Waits_handoff w w' t k i u l p : moves w w' t p -> target p = Some u -> (forall j x, p <> Asleep j x) -> (forall j, parked j p = false) ->
  pc w t = Inside (Release k) i -> waiters w k = u :: l -> (forall j, waiters w' j = if decide (j = k) then l else waiters w j) ->
  sched w' = sched w -> Guarded w -> Queues w -> Waits w -> Waits w'.
Proof.
  intros Hm Hp Hp2 Hp3 Ht Hk Hq Hs G QU [W1 W2 W3]. destruct (first_waiter w t k i u l QU G Ht Hk) as [x Hu]. constructor.
  - intros j v. rewrite Hm, Hs. destruct (decide (v = t)) as [->|]; [by rewrite Hp3|apply W1].
  - intros j v y. rewrite Hm, Hs. destruct (decide (v = t)) as [->|]; [intros Hi; by destruct (Hp2 _ _ Hi)|]. intros Hv. rewrite (W2 j v y Hv).
    assert ((exists z, target (pc w' z) = Some v) <-> v = u \/ exists z, target (pc w z) = Some v) as ->.
    { split.
      - intros [z Hz]. rewrite Hm in Hz. destruct (decide (z = t)) as [->|]; [left; congruence|right; by exists z].
      - intros [->|[z Hz]]; [exists t; by rewrite Hm, decide_True|]. exists z. rewrite Hm, decide_False; [done|]. intros ->. by rewrite Ht in Hz. }
    rewrite Hq. destruct (decide (j = k)) as [->|Hj]; [rewrite Hk, elem_of_cons; tauto|].
    enough (v <> u) by tauto. congruence.
  - intros c j y Hlt. rewrite Hs, Hm. destruct (decide _); [intros Hi; by destruct (Hp2 _ _ Hi)|by apply W3].
Qed.

(** The unblocking of the thread that was taken. *)
Lemma Queues_woken w w' t p u : moves w w' t p -> plain p -> target (pc w t) = Some u -> (forall j, waiters w' j = waiters w j) -> Queues w -> Queues w'.
Proof.
  intros Hm (R1 & R2 & R3) Ht Hq [Q1 Q2 Q3 Q4 Q5]. constructor.
  - intros j. by rewrite Hq.
  - intros j v. rewrite Hq, Hm. intros Hin. destruct (Q2 j v Hin) as [x Hx]. destruct (decide (v = t)) as [->|]; [|by exists x].
    by destruct Hx as [Hx|Hx]; rewrite Hx in Ht.
  - intros j v x. rewrite Hq, Hm. destruct (decide (v = t)) as [->|]; [intros Hi; by destruct (R2 _ _ Hi)|apply Q3].
  - intros v x. rewrite Hm. destruct (decide (v = t)) as [->|]; [congruence|]. intros Hv. destruct (Q4 v x Hv) as (j & y & Hx & Hn).
    assert (x <> t) by (intros ->; by rewrite Hx in Ht). exists j, y. by rewrite Hm, decide_False, Hq by done.
  - intros v x y. rewrite !Hm. destruct (decide (v = t)), (decide (x = t)); try congruence. apply Q5.
Qed.

Lemma Waits_woken w w' t p u : moves w w' t p -> plain p -> (forall j, parked j p = false) -> target (pc w t) = Some u ->
  (forall j, waiters w' j = waiters w j) -> (forall v, waits (sched w') v <-> v <> u /\ waits (sched w) v) ->
  (forall c, (c < cpus)%nat -> current (sched w') c = current (sched w) c) -> Queues w -> Waits w -> Waits w'.
Proof.
  intros Hm (R1 & R2 & R3) Hpk Ht Hq Hw Hc QU [W1 W2 W3]. destruct QU as [_ _ _ Q4 Q5]. destruct (Q4 t u Ht) as (k & i & Hu & Hnu). constructor.
  - intros j v. rewrite Hm, Hw. destruct (decide (v = t)) as [->|]; [by rewrite Hpk|]. intros Hv. split; [intros ->; by rewrite Hu in Hv|by eapply W1].
  - intros j v x. rewrite Hm, Hw, Hq. destruct (decide (v = t)) as [->|]; [intros Hi; by destruct (R3 _ _ Hi)|]. intros Hv. rewrite (W2 j v x Hv).
    assert ((exists z, target (pc w' z) = Some v) <-> v <> u /\ exists z, target (pc w z) = Some v) as ->.
    { split.
      - intros [z Hz]. rewrite Hm in Hz. destruct (decide (z = t)) as [->|Hz']; [congruence|]. split; [|by exists z]. intros ->. by apply Hz', (Q5 z t u).
      - intros [Hvu [z Hz]]. exists z. rewrite Hm, decide_False; [done|]. intros ->. congruence. }
    destruct (decide (v = u)) as [->|]; [|tauto]. assert (j = k) as -> by congruence. tauto.
  - intros c j x Hlt. rewrite Hc, Hm, Hw by done. destruct (decide _); [intros Hi; by destruct (R3 _ _ Hi)|]. intros Hi [_ Hx]. by apply (W3 c j x Hlt).
Qed.

(** [Block]. *)
Lemma Waits_block w w' t k i p : moves w w' t (Parked k i) -> plain (pc w t) -> p = Parked k i -> (forall j, waiters w' j = waiters w j) ->
  (forall v, waits (sched w') v <-> v = t \/ waits (sched w) v) -> (forall c, current (sched w') c = current (sched w) c) -> Waits w -> Waits w'.
Proof.
  intros Hm (P1 & P2 & P3) _ Hq Hw Hc [W1 W2 W3]. constructor.
  - intros j v. rewrite Hm, Hw. destruct (decide (v = t)) as [->|]; [by left|]. intros Hv. right. by eapply W1.
  - intros j v x. rewrite Hm, Hw, Hq. destruct (decide (v = t)) as [->|Hn]; [done|]. intros Hv.
    assert ((exists z, target (pc w' z) = Some v) <-> exists z, target (pc w z) = Some v) as ->.
    { split; intros [z Hz]; exists z; rewrite Hm in *; destruct (decide (z = t)) as [->|]; try done. congruence. }
    rewrite <- (W2 j v x Hv). tauto.
  - intros c j x Hlt. rewrite Hc, Hm, Hw by done. destruct (decide _) as [|Hn]; [done|]. intros Hi [|Hx]; [done|]. by apply (W3 c j x Hlt).
Qed.

(** ** The words of the locks *)

Lemma Words_ext w w' : (forall k, word (lock w' k) = word (lock w k)) -> (forall k, waiters w' k = waiters w k) -> held w' = held w ->
  (forall k, tally (given w') k - tally (taken w') k = tally (given w) k - tally (taken w) k) ->
  (forall k u, parked k (pc w' u) = true -> parked k (pc w u) = true) ->
  (forall k u, granted w' k u <-> granted w k u) -> (forall k u, releasing k (pc w' u) = releasing k (pc w u)) -> Words w -> Words w'.
Proof.
  intros Hw Hq Hh Ht Hp Hg Hr [D1 D2 D3 D4 D5 D6].
  assert (forall k u, stake w' k u <-> stake w k u) as Hs by (intros k u; unfold stake; by rewrite Hh, Hg, Hr).
  constructor.
  - intros k. rewrite Hw, Hq. intros [E F]%D1. split; [done|]. intros u. specialize (F u). specialize (Hp k u). destruct (parked k (pc w' u)); [|done]. by rewrite Hp in F.
  - intros k. rewrite Hw. apply D2.
  - intros k Hk. rewrite Hw, (D3 k Hk). by setoid_rewrite Hs.
  - intros k u v Hk. rewrite !Hs. by apply D4.
  - intros k u Hk. rewrite Hg, Hr, Hh. by apply D5.
  - intros k Hk. rewrite Hw. specialize (Ht k). destruct (D6 k Hk). lia.
Qed.

(** Positions of a thread that are neither asleep nor releasing, before and after. *)
Definition no_stake (p : Pc) : Prop := (forall k i, p <> Asleep k i) /\ forall k, releasing k p = false.

Lemma granted_move w w' t p k u : moves w w' t p -> (forall i, p <> Asleep k i) -> (forall i, pc w t <> Asleep k i) -> waiters w' k = waiters w k ->
  granted w' k u <-> granted w k u.
Proof.
  intros Hm Hp Ht Hq. unfold granted. rewrite Hq. setoid_rewrite Hm. destruct (decide (u = t)) as [->|]; [|done].
  split; intros (i & E & _); [by destruct (Hp i)|by destruct (Ht i)].
Qed.

Lemma Words_move w w' t p : moves w w' t p -> no_stake p -> no_stake (pc w t) -> (forall k, parked k p = true -> parked k (pc w t) = true) ->
  (forall k, word (lock w' k) = word (lock w k)) -> (forall k, waiters w' k = waiters w k) -> held w' = held w ->
  taken w' = taken w -> given w' = given w -> Words w -> Words w'.
Proof.
  intros Hm [P1 P2] [T1 T2] Hp Hw Hq Hh Ht Hg. apply Words_ext; try done.
  - intros k. by rewrite Ht, Hg.
  - intros k u. rewrite Hm. destruct (decide (u = t)) as [->|]; [apply Hp|done].
  - intros k u. by apply (granted_move w w' t p).
  - intros k u. rewrite Hm. destruct (decide (u = t)) as [->|]; [by rewrite P2, T2|done].
Qed.

(** Parking needs a lock that is not available. *)
Lemma Words_park w w' t k i : moves w w' t (Parked k i) -> no_stake (pc w t) -> ~ available k (word (lock w k)) ->
  (forall j, word (lock w' j) = word (lock w j)) -> (forall j, waiters w' j = waiters w j) -> held w' = held w ->
  taken w' = taken w -> given w' = given w -> Words w -> Words w'.
Proof.
  intros Hm [T1 T2] Hn Hw Hq Hh Ht Hg [D1 D2 D3 D4 D5 D6].
  assert (forall j u, stake w' j u <-> stake w j u) as Hs.
  { intros j u. unfold stake. rewrite Hh, (granted_move w w' t (Parked k i)) by done. rewrite Hm. destruct (decide (u = t)) as [->|]; [|done]. by rewrite T2. }
  constructor.
  - intros j. rewrite Hw, Hq. intros Ha. assert (j <> k) by (intros ->; done). destruct (D1 j Ha) as [E F]. split; [done|].
    intros u. rewrite Hm. destruct (decide (u = t)); [cbn; lia|done].
  - intros j. rewrite Hw. apply D2.
  - intros j Hj. rewrite Hw, (D3 j Hj). by setoid_rewrite Hs.
  - intros j u v Hj. rewrite !Hs. by apply D4.
  - intros j u Hj. rewrite (granted_move w w' t (Parked k i)), Hm, Hh by done. intros Hx. apply D5; [done|]. destruct (decide (u = t)) as [->|]; [|done]. destruct Hx; [by left|done].
  - intros j Hj. rewrite Hw, Ht, Hg. by apply D6.
Qed.

Lemma unavailable_parked w k t : Words w -> parked k (pc w t) = true -> ~ available k (word (lock w k)).
Proof. intros [D1 _ _ _ _ _] Hp Ha. destruct (D1 k Ha) as [_ F]. by rewrite F in Hp. Qed.

(** A parked thread enqueues, or falls asleep on the queue. *)
Lemma Words_wait w w' t k p : moves w w' t p -> parked k (pc w t) = true -> (forall j, j <> k -> parked j p = false) ->
  (forall j, releasing j p = false) -> (forall j i, p = Asleep j i -> j = k /\ t ∈ waiters w' k) ->
  (forall j, word (lock w' j) = word (lock w j)) -> (forall j u, u <> t -> u ∈ waiters w' j <-> u ∈ waiters w j) ->
  (forall j, j <> k -> waiters w' j = waiters w j) -> held w' = held w -> taken w' = taken w -> given w' = given w -> Words w -> Words w'.
Proof.
  intros Hm Hpk Hpo Hpr Hpa Hw Hqu Hq Hh Ht Hg D. pose proof (unavailable_parked w k t D Hpk) as Hun. destruct D as [D1 D2 D3 D4 D5 D6].
  assert ((forall j i, pc w t <> Asleep j i) /\ forall j, releasing j (pc w t) = false) as [T1 T2] by (by destruct (pc w t)).
  assert (forall j u, granted w' j u <-> granted w j u) as Hgr.
  { intros j u. unfold granted. setoid_rewrite Hm. destruct (decide (u = t)) as [->|]; [|by setoid_rewrite Hqu].
    split; intros (i & E & Hi); [destruct (Hpa j i E) as [-> ?]; done|by destruct (T1 j i)]. }
  assert (forall j u, releasing j (pc w' u) = releasing j (pc w u)) as Hre.
  { intros j u. rewrite Hm. destruct (decide (u = t)) as [->|]; [by rewrite Hpr, T2|done]. }
  assert (forall j u, stake w' j u <-> stake w j u) as Hs by (intros j u; unfold stake; by rewrite Hh, Hgr, Hre).
  constructor.
  - intros j. rewrite Hw. intros Ha. assert (j <> k) as Hj by (intros ->; done). destruct (D1 j Ha) as [E F]. split; [by rewrite Hq|].
    intros u. rewrite Hm. destruct (decide (u = t)); [by apply Hpo|done].
  - intros j. rewrite Hw. apply D2.
  - intros j Hj. rewrite Hw, (D3 j Hj). by setoid_rewrite Hs.
  - intros j u v Hj. rewrite !Hs. by apply D4.
  - intros j u Hj. rewrite Hgr, Hre, Hh. by apply D5.
  - intros j Hj. rewrite Hw, Ht, Hg. by apply D6.
Qed.

(** The release of a mutex begins: the owner gives its entry up and is releasing. *)
Lemma Words_drop w w' t k i : moves w w' t (Enter (Release k) i) -> pc w t = Outside -> (kind k = Mutex -> (k, t) ∈ held w) ->
  (forall j u, (j, u) ∈ held w' <-> (j, u) <> (k, t) /\ (j, u) ∈ held w) ->
  (forall j, lock w' j = lock w j) -> taken w' = taken w -> given w' = given w -> Words w -> Words w'.
Proof.
  intros Hm Ht Hin Hh Hl Htk Hgv [D1 D2 D3 D4 D5 D6].
  assert (forall j, waiters w' j = waiters w j) as Hq by (intros j; unfold waiters; by rewrite Hl).
  assert (forall j u, granted w' j u <-> granted w j u) as Hgr.
  { intros j u. apply (granted_move w w' t (Enter (Release k) i)); [done|done|by rewrite Ht|done]. }
  assert (forall j u, releasing j (pc w' u) = true <-> u = t /\ j = k \/ releasing j (pc w u) = true) as Hre.
  { intros j u. rewrite Hm. destruct (decide (u = t)) as [->|]; [|tauto]. rewrite Ht. cbn. rewrite Z.eqb_eq. naive_solver. }
  assert (forall j u, kind j = Mutex -> stake w' j u <-> stake w j u) as Hs.
  { intros j u Hj. unfold stake. rewrite Hgr, Hre, Hh. destruct (decide ((j, u) = (k, t))) as [[= -> ->]|Hne]; [specialize (Hin Hj); tauto|].
    enough (~ (u = t /\ j = k)) by tauto. intros [-> ->]. done. }
  constructor.
  - intros j. rewrite Hl, Hq. intros [E F]%D1. split; [done|]. intros u. rewrite Hm. by destruct (decide (u = t)).
  - intros j. rewrite Hl. apply D2.
  - intros j Hj. rewrite Hl, (D3 j Hj). split; intros [u Hu]; exists u; by apply Hs.
  - intros j u v Hj. rewrite !Hs by done. by apply D4.
  - intros j u Hj. rewrite Hgr, Hre, Hh. intros Hx [Hne Hy]. destruct Hx as [Hx|[[-> ->]|Hx]]; [|done|]; by apply (D5 j u Hj); [tauto|].
  - intros j Hj. rewrite Hl, Htk, Hgv. by apply D6.
Qed.

(** An acquisition that finds the lock available. *)
Lemma Words_take w w' t k i l : moves w w' t Outside -> pc w t = Inside (Acquire k) i -> acquire k (lock w k) = Some l ->
  (forall j, word (lock w' j) = if decide (j = k) then word l else word (lock w j)) -> (forall j, waiters w' j = waiters w j) ->
  held w' = (k, t) :: held w -> (forall j, tally (taken w') j = tally (taken w) j + if decide (j = k) then 1 else 0) -> given w' = given w -> Words w -> Words w'.
Proof.
  intros Hm Ht Ha Hw Hq Hh Htk Hgv [D1 D2 D3 D4 D5 D6].
  assert (forall j u, granted w' j u <-> granted w j u) as Hgr.
  { intros j u. apply (granted_move w w' t Outside); [done|done|by rewrite Ht|done]. }
  assert (forall j u, releasing j (pc w' u) = releasing j (pc w u)) as Hre.
  { intros j u. rewrite Hm. destruct (decide (u = t)) as [->|]; [by rewrite Ht|done]. }
  assert (forall j u, stake w' j u <-> (j, u) = (k, t) \/ stake w j u) as Hs.
  { intros j u. unfold stake. rewrite Hh, Hgr, Hre, elem_of_cons. tauto. }
  assert (match kind k with Mutex => word (lock w k) = 0 /\ word l = 1 | Semaphore => 0 < word (lock w k) /\ word l = word (lock w k) - 1 end) as Hcase.
  { unfold acquire in Ha. destruct (kind k).
    - unfold Mutex_Acquire, truthy in Ha. destruct (word (lock w k) =? 0) eqn:E; [|done]. cbn in Ha. injection Ha as <-. cbn. lia.
    - unfold Semaphore_Acquire in Ha. destruct (0 <? word (lock w k)) eqn:E; [|done]. injection Ha as <-. cbn. lia. }
  assert (kind k = Mutex -> forall u, ~ stake w k u) as Hnone.
  { intros Hk u Hu. rewrite Hk in Hcase. enough (word (lock w k) = 1) by lia. apply (D3 k Hk). by exists u. }
  constructor.
  - intros j Ha'. assert (available j (word (lock w j))) as Hav.
    { rewrite Hw in Ha'. unfold available in *. destruct (decide (j = k)) as [->|]; [|done]. destruct (kind k); lia. }
    destruct (D1 j Hav) as [E F]. split; [by rewrite Hq|]. intros u. rewrite Hm. by destruct (decide (u = t)).
  - intros j Hj. rewrite Hw. destruct (decide (j = k)) as [->|]; [rewrite Hj in Hcase; lia|by apply D2].
  - intros j Hj. rewrite Hw. setoid_rewrite Hs. destruct (decide (j = k)) as [->|Hn].
    + rewrite Hj in Hcase. split; [|lia]. intros _. exists t. by left.
    + rewrite (D3 j Hj). split; intros [u Hu]; exists u; [by right|]. destruct Hu as [|]; [congruence|done].
  - intros j u v Hj. rewrite !Hs. destruct (decide (j = k)) as [->|Hn].
    + intros [[= ->]|Hu]; [|by destruct (Hnone Hj u)]. intros [[= ->]|Hv]; [done|by destruct (Hnone Hj v)].
    + intros [[= ? ?]|Hu]; [done|]. intros [[= ? ?]|Hv]; [done|]. by apply (D4 j).
  - intros j u Hj. rewrite Hgr, Hre, Hh, elem_of_cons. intros Hx [[= -> ->]|Hy]; [|by apply (D5 j u Hj)].
    apply (Hnone Hj t). unfold stake. tauto.
  - intros j Hj. rewrite Hw, Htk, Hgv. destruct (D6 j Hj). destruct (decide (j = k)) as [->|]; [|lia]. rewrite Hj in Hcase. lia.
Qed.

(** A granted sleeper returns from [Acquire]. *)
Lemma Words_resume w w' t k i : moves w w' t Outside -> pc w t = Asleep k i -> t ∉ waiters w k ->
  (forall j, lock w' j = lock w j) -> held w' = (k, t) :: held w -> taken w' = taken w -> given w' = given w -> Words w -> Words w'.
Proof.
  intros Hm Ht Hno Hl Hh Htk Hgv [D1 D2 D3 D4 D5 D6].
  assert (forall j, waiters w' j = waiters w j) as Hq by (intros j; unfold waiters; by rewrite Hl).
  assert (granted w k t) as Hgt by (exists i; by split).
  assert (forall j u, granted w' j u <-> u <> t /\ granted w j u) as Hgr.
  { intros j u. unfold granted. rewrite Hq. setoid_rewrite Hm. destruct (decide (u = t)) as [->|]; [|tauto]. split; [by intros (x & ? & _)|tauto]. }
  assert (forall j u, releasing j (pc w' u) = releasing j (pc w u)) as Hre.
  { intros j u. rewrite Hm. destruct (decide (u = t)) as [->|]; [by rewrite Ht|done]. }
  assert (forall j u, granted w j u -> u = t -> j = k) as Hgk.
  { intros j u (x & E & _) ->. congruence. }
  assert (forall j u, stake w' j u <-> stake w j u) as Hs.
  { intros j u. unfold stake. rewrite Hh, Hgr, Hre, elem_of_cons. split.
    - intros [[[= -> ->]|]|[[_ ?]|]]; tauto.
    - intros [?|[Hg|?]]; [tauto| |tauto]. destruct (decide (u = t)) as [->|]; [|tauto]. rewrite (Hgk j t Hg eq_refl). by left; left. }
  constructor.
  - intros j. rewrite Hl, Hq. intros [E F]%D1. split; [done|]. intros u. rewrite Hm. by destruct (decide (u = t)).
  - intros j. rewrite Hl. apply D2.
  - intros j Hj. rewrite Hl, (D3 j Hj). by setoid_rewrite Hs.
  - intros j u v Hj. rewrite !Hs. by apply D4.
  - intros j u Hj. rewrite Hgr, Hre, Hh, elem_of_cons. intros Hx [[= -> ->]|Hy].
    + destruct Hx as [[? _]|Hx]; [done|]. rewrite Ht in Hx. done.
    + apply (D5 j u Hj); [tauto|done].
  - intros j Hj. rewrite Hl, Htk, Hgv. by apply D6.
Qed.

(** The lock passes from the releasing thread to the first waiter. *)
Lemma Words_handoff w w' t k i u l p : moves w w' t p -> no_stake p -> (forall j, parked j p = false) -> pc w t = Inside (Release k) i ->
  waiters w k = u :: l -> (forall j, waiters w' j = if decide (j = k) then l else waiters w j) ->
  (forall j, word (lock w' j) = word (lock w j)) -> held w' = held w ->
  (forall j, tally (given w') j - tally (taken w') j = tally (given w) j - tally (taken w) j) -> Guarded w -> Queues w -> Words w -> Words w'.
Proof.
  intros Hm [P1 P2] Pp Ht Hk Hq Hw Hh Hty G QU [D1 D2 D3 D4 D5 D6]. destruct (first_waiter w t k i u l QU G Ht Hk) as [x Hu].
  pose proof (qu_nodup _ QU k) as Hnd. rewrite Hk in Hnd. apply NoDup_cons in Hnd as [Hul _]. assert (u <> t) as Hut by congruence.
  assert (forall j v, granted w' j v <-> (j, v) = (k, u) \/ granted w j v) as Hgr.
  { intros j v. unfold granted. setoid_rewrite Hm. rewrite Hq. destruct (decide (v = t)) as [->|Hv].
    - split; [intros (y & E & _); by destruct (P1 j y)|]. intros [[= -> ->]|(y & E & _)]; congruence.
    - destruct (decide (j = k)) as [->|Hj]; [|naive_solver]. rewrite Hk. setoid_rewrite elem_of_cons. split.
      + intros (y & E & Hn). destruct (decide (v = u)) as [->|]; [by left|right]. exists y. naive_solver.
      + intros [[= ->]|(y & E & Hn)]; [by exists x|]. exists y. naive_solver. }
  assert (forall j v, releasing j (pc w' v) = true <-> v <> t /\ releasing j (pc w v) = true) as Hre.
  { intros j v. rewrite Hm. destruct (decide (v = t)) as [->|]; [rewrite P2; naive_solver|tauto]. }
  assert (kind k = Mutex -> stake w k t) as Hst by (intros _; right; right; rewrite Ht; cbn; by rewrite Z.eqb_refl).
  assert (kind k = Mutex -> forall v, stake w' k v <-> v = u) as Hsk.
  { intros Hkm v. unfold stake. rewrite Hh, Hgr, Hre. split.
    - intros [Hx|[[[= ->]|Hx]|[Hvt Hx]]]; [exfalso|done|exfalso|exfalso].
      + assert (v = t) as -> by (apply (D4 k v t Hkm); [by left|auto]). apply (D5 k t Hkm); [right; rewrite Ht; cbn; by rewrite Z.eqb_refl|done].
      + assert (v = t) as -> by (apply (D4 k v t Hkm); [by right; left|auto]). destruct Hx as (y & E & _). congruence.
      + apply Hvt. apply (D4 k v t Hkm); [by right; right|auto].
    - intros ->. by right; left; left. }
  assert (forall j v, j <> k -> stake w' j v <-> stake w j v) as Hso.
  { intros j v Hj. unfold stake. rewrite Hh, Hgr, Hre. destruct (decide (v = t)) as [->|Hv].
    - rewrite Ht. cbn. split; [intros [?|[[[= ? ?]|?]|[? _]]]; try done; tauto|]. intros [?|[?|E]]; [tauto|tauto|]. lia.
    - split; [intros [?|[[[= ? ?]|?]|[_ ?]]]; try done; tauto|tauto]. }
  assert (~ available k (word (lock w k))) as Hun by (intros Ha; destruct (D1 k Ha) as [E _]; congruence).
  constructor.
  - intros j. rewrite Hw. intros Ha. assert (j <> k) as Hj by (intros ->; done). destruct (D1 j Ha) as [E F]. split; [by rewrite Hq, decide_False|].
    intros v. rewrite Hm. destruct (decide (v = t)); [by rewrite Pp|done].
  - intros j. rewrite Hw. apply D2.
  - intros j Hj. rewrite Hw. destruct (decide (j = k)) as [->|Hn].
    + rewrite (D3 k Hj). split; intros _; [exists u; by apply Hsk|exists t; auto].
    + rewrite (D3 j Hj). split; intros [v Hv]; exists v; by apply Hso.
  - intros j v y Hj. destruct (decide (j = k)) as [->|Hn]; [rewrite !Hsk by done; congruence|rewrite !Hso by done; by apply D4].
  - intros j v Hj. rewrite Hgr, Hre, Hh. intros [[[= -> ->]|Hx]|[Hvt Hx]] Hin; [|by apply (D5 j v Hj); [left|]|by apply (D5 j v Hj); [right|]].
    apply Hut. apply (D4 k u t Hj); [by left|auto].
  - intros j Hj. rewrite Hw. specialize (Hty j). destruct (D6 j Hj). lia.
Qed.

(** A release that finds nobody waiting. *)
Lemma Words_free w w' t k i : moves w w' t Outside -> pc w t = Inside (Release k) i -> waiters w k = [] -> (forall j, waiters w' j = waiters w j) ->
  (forall j, word (lock w' j) = if decide (j = k) then match kind k with Mutex => 0 | Semaphore => word (lock w k) + 1 end else word (lock w j)) ->
  held w' = held w -> (forall j, tally (given w') j = tally (given w) j + if decide (j = k) then 1 else 0) -> taken w' = taken w ->
  Guarded w -> Words w -> Words w'.
Proof.
  intros Hm Ht Hk Hq Hw Hh Hgv Htk G [D1 D2 D3 D4 D5 D6].
  assert (forall v, parked k (pc w v) = false) as Hnp.
  { intros v. destruct (parked k (pc w v)) eqn:E; [|done]. assert (v = t) as ->; [|by rewrite Ht in E].
    apply (gd_one _ G v t k); [|by rewrite Ht]. destruct (pc w v); try done; cbn in *; f_equal; lia. }
  assert (forall j v, granted w' j v <-> granted w j v) as Hgr.
  { intros j v. apply (granted_move w w' t Outside); [done|done|by rewrite Ht|done]. }
  assert (forall j v, releasing j (pc w' v) = true <-> v <> t /\ releasing j (pc w v) = true) as Hre.
  { intros j v. rewrite Hm. destruct (decide (v = t)) as [->|]; [naive_solver|tauto]. }
  assert (kind k = Mutex -> stake w k t) as Hst by (intros _; right; right; rewrite Ht; cbn; by rewrite Z.eqb_refl).
  assert (kind k = Mutex -> forall v, ~ stake w' k v) as Hsk.
  { intros Hkm v Hv. assert (v = t) as ->.
    { apply (D4 k v t Hkm); [|auto]. unfold stake in *. rewrite Hh, Hgr, Hre in Hv. tauto. }
    unfold stake in Hv. rewrite Hh, Hgr, Hre in Hv. destruct Hv as [Hx|[(y & E & _)|[? _]]]; [|congruence|done].
    apply (D5 k t Hkm); [right; rewrite Ht; cbn; by rewrite Z.eqb_refl|done]. }
  assert (forall j v, j <> k -> stake w' j v <-> stake w j v) as Hso.
  { intros j v Hj. unfold stake. rewrite Hh, Hgr, Hre. destruct (decide (v = t)) as [->|Hv]; [|tauto]. rewrite Ht. cbn.
    enough ((k =? j) = false) as -> by naive_solver. lia. }
  constructor.
  - intros j. rewrite Hw, Hq. destruct (decide (j = k)) as [->|Hj].
    + intros _. split; [done|]. intros v. rewrite Hm. by destruct (decide (v = t)).
    + intros Ha. destruct (D1 j Ha) as [E F]. split; [done|]. intros v. rewrite Hm. by destruct (decide (v = t)).
  - intros j Hj. rewrite Hw. destruct (decide (j = k)) as [->|]; [rewrite Hj; by left|by apply D2].
  - intros j Hj. rewrite Hw. destruct (decide (j = k)) as [->|Hn].
    + rewrite Hj. split; [lia|]. intros [v Hv]. by destruct (Hsk Hj v).
    + rewrite (D3 j Hj). split; intros [v Hv]; exists v; by apply Hso.
  - intros j v y Hj. destruct (decide (j = k)) as [->|Hn]; [intros Hv; by destruct (Hsk Hj v)|rewrite !Hso by done; by apply D4].
  - intros j v Hj. rewrite Hgr, Hre, Hh. intros Hx. apply D5; [done|]. tauto.
  - intros j Hj. rewrite Hw, Htk, Hgv. destruct (D6 j Hj). destruct (decide (j = k)) as [->|]; [rewrite Hj; lia|lia].
Qed.

End Proof.
