(* ===== verification/LocksStep.v ===== *)
(** * Sleeping locks: every step keeps the invariant *)
From S2P Require Import Prelude Locks LocksProof.

Section Step.
Context {Q : Type} `{!WaitQueue Q} `{!WaitQueueLaws Q} {S : Type} `{!Sleeping S} `{!SleepingLaws S}.
Context `{!LockTypes}.
Abbreviation World := (World Q S).
Implicit Types (w : World).

Lemma moves_set w w1 t p : pcs w1 = pcs w -> moves w (set_pc t p w1) t p.
Proof. intros E u. rewrite pc_set. unfold pc. by rewrite E. Qed.

(** The processor of a thread that executes a lock operation. *)
Lemma executes w c : LockInv w -> (c < cpus)%nat -> pc w (current (sched w) c) <> Outside ->
  current (sched w) c <> 0 /\ forall d, (d < cpus)%nat -> current (sched w) d = current (sched w) c -> d = c.
Proof.
  intros LI Hc Hp. assert (current (sched w) c <> 0) as Hz.
  { intros E. rewrite E in Hp. by rewrite (mk_nz _ (li_masked _ LI)) in Hp. }
  split; [done|]. intros d Hd E. apply (current_inj (sched w)); [apply LI|done|done|done|congruence].
Qed.

(** A masked thread's processor has its interrupts off. *)
Lemma masked_here w c : LockInv w -> (c < cpus)%nat -> masked (pc w (current (sched w) c)) = true -> interrupts w !!! c = false.
Proof.
  intros LI Hc Hm. destruct (mk_cpu _ (li_masked _ LI) _ Hm) as (d & Hd & E & Hf).
  assert (pc w (current (sched w) c) <> Outside) as Hp by (intros E'; by rewrite E' in Hm).
  assert (d = c) as -> by (by apply (executes w c LI Hc Hp)). done.
Qed.

(** Steps in which nothing but the position, the locks and the flags change. *)
Lemma Masked_local w w' c p : LockInv w -> (c < cpus)%nat -> pc w (current (sched w) c) <> Outside ->
  moves w w' (current (sched w) c) p -> sched w' = sched w ->
  length (interrupts w') = cpus -> (forall d, d <> c -> interrupts w' !!! d = interrupts w !!! d) ->
  (masked p = true -> interrupts w' !!! c = false) -> (may_sleep p = true -> may_sleep (pc w (current (sched w) c)) = true) -> Masked w'.
Proof.
  intros LI Hc Hp Hm Hs Hl Hf Hi Hsl. destruct (executes w c LI Hc Hp) as [Hz Hu].
  apply (Masked_move w w' (current (sched w) c) p c); try done; [apply LI|by rewrite Hs|rewrite Hs; auto|by rewrite Hs|].
  rewrite Hs. intros Hx. apply (mk_sleeper _ (li_masked _ LI)). auto.
Qed.

Lemma Masked_scheduled w w' c p : LockInv w -> (c < cpus)%nat -> pc w (current (sched w) c) <> Outside ->
  moves w w' (current (sched w) c) p -> interrupts w' = interrupts w -> (forall d, current (sched w') d = current (sched w) d) ->
  (forall u, sleeper (sched w) u -> sleeper (sched w') u) -> (masked p = true -> interrupts w !!! c = false) ->
  (may_sleep p = true -> may_sleep (pc w (current (sched w) c)) = true) -> Masked w'.
Proof.
  intros LI Hc Hp Hm Hi Hcu Hsl Hif Hms. destruct (executes w c LI Hc Hp) as [Hz Hu].
  apply (Masked_move w w' (current (sched w) c) p c); try done; [apply LI|rewrite Hi; apply (mk_len _ (li_masked _ LI))|by rewrite Hi|rewrite Hi, Hcu; auto|].
  intros Hx. apply Hsl, (mk_sleeper _ (li_masked _ LI)). auto.
Qed.

Lemma lock_release k i c w j : lock (release_guard k i c w) j = if decide (j = k) then set_guard new_spin (lock w k) else lock w j.
Proof. unfold release_guard. cbn. change (lock (with_flags ?f ?x) j) with (lock x j). apply lock_set. Qed.

Lemma enter_keeps w c op i : LockInv w -> (c < cpus)%nat -> pc w (current (sched w) c) = Enter op i ->
  busy w (lock_of op) = false ->
  LockInv (set_pc (current (sched w) c) (Inside op i) (set_lock (lock_of op) (set_guard (MkSpin true (Z.of_nat c)) (lock w (lock_of op))) w)).
Proof.
  intros LI Hc Hp Hb. set (t := current (sched w) c) in *. set (k := lock_of op) in *. set (w' := set_pc t _ _).
  assert (moves w w' t (Inside op i)) as Hm by (by apply moves_set).
  assert (forall j, lock w' j = if decide (j = k) then set_guard (MkSpin true (Z.of_nat c)) (lock w k) else lock w j) as Hl by (intros j; apply lock_set).
  assert (forall j, waiters w' j = waiters w j) as Hq by (intros j; unfold waiters; rewrite Hl; by destruct (decide (j = k)) as [->|]).
  assert (forall j, word (lock w' j) = word (lock w j)) as Hw by (intros j; rewrite Hl; by destruct (decide (j = k)) as [->|]).
  destruct LI as [Ok G M QU W D]. pose proof (Build_LockInv _ Ok G M QU W D) as LI. constructor; [exact Ok| | | | |].
  - apply (Guarded_enter w w' t (Inside op i) k); try done; [by rewrite Hp|]. intros j. unfold busy. rewrite Hl. by destruct (decide (j = k)).
  - apply (Masked_local w w' c (Inside op i)); try done; [by fold t; rewrite Hp|apply M| |fold t; rewrite Hp; by destruct op].
    intros _. apply (masked_here w c LI Hc). fold t. by rewrite Hp.
  - apply (Queues_plain w w' t (Inside op i)); try done. by rewrite Hp.
  - apply (Waits_plain w w' t (Inside op i)); try done. by rewrite Hp.
  - apply (Words_ext w w'); try done.
    + intros j u. rewrite Hm. by destruct (decide (u = t)).
    + intros j u. apply (granted_move w w' t (Inside op i)); try done. by rewrite Hp.
    + intros j u. rewrite Hm. destruct (decide (u = t)) as [->|]; [rewrite Hp|done]. by destruct op.
Qed.

(** Leaving the guard's section: the flags of the processor. *)
Lemma Masked_leave w w' c p : LockInv w -> (c < cpus)%nat -> pc w (current (sched w) c) <> Outside ->
  moves w w' (current (sched w) c) p -> sched w' = sched w -> (exists b, interrupts w' = enInterrupt b c (interrupts w)) ->
  masked p = false -> may_sleep p = false -> Masked w'.
Proof.
  intros LI Hc Hp Hm Hs [b Hf] Hpm Hps. apply (Masked_local w w' c p); try done; rewrite ?Hpm, ?Hps; try done.
  - rewrite Hf, enInterrupt_len. apply (mk_len _ (li_masked _ LI)).
  - intros d Hd. rewrite Hf. by apply enInterrupt_other.
Qed.

Lemma acquire_queue k (l l' : Lock Q) : acquire k l = Some l' -> wait_queue l' = wait_queue l.
Proof.
  unfold acquire, Mutex_Acquire, Semaphore_Acquire. destruct (kind k); [destruct (truthy _)|destruct (0 <? _)]; by intros [= <-].
Qed.
Lemma acquire_none k (l : Lock Q) : acquire k l = None -> ~ available k (word l).
Proof.
  unfold acquire, Mutex_Acquire, Semaphore_Acquire, available, truthy. destruct (kind k); [destruct (_ =? _) eqn:E|destruct (0 <? _) eqn:E]; intros; try done; lia.
Qed.

Lemma take_keeps w c k i l : LockInv w -> (c < cpus)%nat -> pc w (current (sched w) c) = Inside (Acquire k) i ->
  acquire k (lock w k) = Some l ->
  LockInv (set_pc (current (sched w) c) Outside (note_held k (current (sched w) c) (note_taken k (release_guard k i c (set_lock k l w))))).
Proof.
  intros LI Hc Hp Ha. set (t := current (sched w) c) in *. set (w' := set_pc t _ _).
  assert (moves w w' t Outside) as Hm by (by apply moves_set).
  assert (forall j, lock w' j = if decide (j = k) then set_guard new_spin l else lock w j) as Hl.
  { intros j. change (lock w' j) with (lock (release_guard k i c (set_lock k l w)) j). rewrite lock_release, !lock_set.
    destruct (decide (j = k)); [by rewrite decide_True|done]. }
  assert (forall j, waiters w' j = waiters w j) as Hq.
  { intros j. unfold waiters. rewrite Hl. destruct (decide (j = k)) as [->|]; [|done]. cbn. by rewrite (acquire_queue k (lock w k) l). }
  destruct LI as [Ok G M QU W D]. pose proof (Build_LockInv _ Ok G M QU W D) as LI. constructor; [exact Ok| | | | |].
  - apply (Guarded_leave w w' t Outside k); try done; [by rewrite Hp|]. intros j. unfold busy. rewrite Hl. by destruct (decide (j = k)).
  - apply (Masked_leave w w' c Outside); try done; [by fold t; rewrite Hp|by exists i].
  - apply (Queues_plain w w' t Outside); try done. by rewrite Hp.
  - apply (Waits_plain w w' t Outside); try done. by rewrite Hp.
  - apply (Words_take w w' t k i l); try done.
    + intros j. rewrite Hl. by destruct (decide (j = k)).
    + intros j. apply tally_bump.
Qed.

Lemma block_keeps w c k i : LockInv w -> (c < cpus)%nat -> pc w (current (sched w) c) = Inside (Acquire k) i ->
  acquire k (lock w k) = None ->
  LockInv (set_pc (current (sched w) c) (Parked k i) (with_sched (block (current (sched w) c) (sched w)) w)).
Proof.
  intros LI Hc Hp Ha. set (t := current (sched w) c) in *. set (w' := set_pc t _ _).
  assert (moves w w' t (Parked k i)) as Hm by (by apply moves_set).
  assert (interrupts w !!! c = false) as Hif by (apply (masked_here w c LI Hc); fold t; by rewrite Hp).
  destruct LI as [Ok G M QU W D]. pose proof (Build_LockInv _ Ok G M QU W D) as LI.
  destruct (block_law (sched w) c Ok Hc) as (Ok' & Hw & Hcu & Hsl); [apply (mk_sleeper _ M); fold t; by rewrite Hp|]. fold t in Ok', Hw, Hcu, Hsl.
  constructor; [exact Ok'| | | | |].
  - apply (Guarded_stay w w' t (Parked k i)); try done. by rewrite Hp.
  - apply (Masked_scheduled w w' c (Parked k i)); try done; fold t; by rewrite Hp.
  - apply (Queues_plain w w' t (Parked k i)); try done. by rewrite Hp.
  - apply (Waits_block w w' t k i (Parked k i)); try done. by rewrite Hp.
  - apply (Words_park w w' t k i); try done; [by rewrite Hp|by apply acquire_none].
Qed.

Lemma enqueue_keeps w c k i : LockInv w -> (c < cpus)%nat -> pc w (current (sched w) c) = Parked k i ->
  LockInv (set_pc (current (sched w) c) (Queued k i) (set_lock k (set_queue (wq_enqueue (current (sched w) c) (wait_queue (lock w k))) (lock w k)) w)).
Proof.
  intros LI Hc Hp. set (t := current (sched w) c) in *. set (w' := set_pc t _ _).
  assert (moves w w' t (Queued k i)) as Hm by (by apply moves_set).
  assert (forall j, lock w' j = if decide (j = k) then set_queue (wq_enqueue t (wait_queue (lock w k))) (lock w k) else lock w j) as Hl by (intros j; apply lock_set).
  assert (forall j, waiters w' j = if decide (j = k) then waiters w k ++ [t] else waiters w j) as Hq.
  { intros j. unfold waiters. rewrite Hl. destruct (decide (j = k)) as [->|]; [|done]. apply wq_enqueue_list. }
  destruct LI as [Ok G M QU W D]. pose proof (Build_LockInv _ Ok G M QU W D) as LI. constructor; [exact Ok| | | | |].
  - apply (Guarded_stay w w' t (Queued k i)); try done; [by rewrite Hp|]. intros j. unfold busy. rewrite Hl. by destruct (decide (j = k)) as [->|].
  - apply (Masked_local w w' c (Queued k i)); try done; [by fold t; rewrite Hp|apply M| |fold t; by rewrite Hp].
    intros _. apply (masked_here w c LI Hc). fold t. by rewrite Hp.
  - by apply (Queues_enqueue w w' t k i).
  - by apply (Waits_enqueue w w' t k i).
  - apply (Words_wait w w' t k (Queued k i)); try done.
    + rewrite Hp. cbn. by rewrite Z.eqb_refl.
    + intros j Hj. cbn. lia.
    + intros j. rewrite Hl. by destruct (decide (j = k)) as [->|].
    + intros j u Hu. rewrite Hq. destruct (decide (j = k)) as [->|]; [|done]. rewrite elem_of_app, list_elem_of_singleton. tauto.
    + intros j Hj. by rewrite Hq, decide_False.
Qed.

Lemma sleep_keeps w c k i : LockInv w -> (c < cpus)%nat -> settled (sched w) c -> pc w (current (sched w) c) = Queued k i ->
  exists s, sleep c (sched w) = Some s /\ LockInv (set_pc (current (sched w) c) (Asleep k i) (with_sched s (release_guard k false c w))).
Proof.
  intros LI Hc Hset Hp. set (t := current (sched w) c) in *.
  destruct LI as [Ok G M QU W D]. pose proof (Build_LockInv _ Ok G M QU W D) as LI.
  assert (waits (sched w) t) as Hwt by (apply (wt_parked _ W k); rewrite Hp; cbn; by rewrite Z.eqb_refl).
  destruct (sleep_law (sched w) c Ok Hc Hset) as (s & Es & Ok' & Hw & Hn & Hcu & Hsl); [apply (mk_sleeper _ M); fold t; by rewrite Hp|done|].
  exists s. split; [done|]. set (w' := set_pc t _ _). assert (moves w w' t (Asleep k i)) as Hm by (by apply moves_set).
  assert (forall j, lock w' j = if decide (j = k) then set_guard new_spin (lock w k) else lock w j) as Hl.
  { intros j. change (lock w' j) with (lock (release_guard k false c w) j). apply lock_release. }
  assert (forall j, waiters w' j = waiters w j) as Hq by (intros j; unfold waiters; rewrite Hl; by destruct (decide (j = k)) as [->|]).
  destruct (executes w c LI Hc) as [Hz Hu]; [by fold t; rewrite Hp|]. fold t in Hz, Hu.
  constructor; [exact Ok'| | | | |].
  - apply (Guarded_leave w w' t (Asleep k i) k); try done; [by rewrite Hp|]. intros j. unfold busy. rewrite Hl. by destruct (decide (j = k)).
  - apply (Masked_move w w' t (Asleep k i) c); try done; [apply M|]. intros _. apply Hsl, (mk_sleeper _ M). by rewrite Hp.
  - by apply (Queues_asleep w w' t k i).
  - apply (Waits_asleep w w' t k i); try done; [by apply (qu_queued _ QU k t i)|]. intros d Hd. destruct (decide (d = c)) as [->|Hdc]; [by right|left].
    change (sched w') with s. rewrite Hcu by done. split; [done|]. intros E. apply Hdc. by apply Hu.
  - apply (Words_wait w w' t k (Asleep k i)); try done.
    + rewrite Hp. cbn. by rewrite Z.eqb_refl.
    + intros j x [= <- <-]. split; [done|]. rewrite Hq. by apply (qu_queued _ QU k t i).
    + intros j. rewrite Hl. by destruct (decide (j = k)) as [->|].
    + intros j u _. by rewrite Hq.
Qed.

Lemma resume_keeps w c k i : LockInv w -> (c < cpus)%nat -> pc w (current (sched w) c) = Asleep k i ->
  LockInv (set_pc (current (sched w) c) Outside (note_held k (current (sched w) c) (with_flags (enInterrupt i c (interrupts w)) w))).
Proof.
  intros LI Hc Hp. set (t := current (sched w) c) in *. set (w' := set_pc t _ _).
  assert (moves w w' t Outside) as Hm by (by apply moves_set).
  destruct LI as [Ok G M QU W D]. pose proof (Build_LockInv _ Ok G M QU W D) as LI.
  pose proof (wt_cur _ W c k i Hc Hp) as Hnw. fold t in Hnw. rewrite (wt_asleep _ W k t i Hp) in Hnw.
  assert (t ∉ waiters w k) as Hno by tauto. assert (forall u, target (pc w u) <> Some t) as Htg by (intros u Hu; apply Hnw; right; by exists u).
  constructor; [exact Ok| | | | |].
  - apply (Guarded_stay w w' t Outside); try done. by rewrite Hp.
  - apply (Masked_leave w w' c Outside); try done; [by fold t; rewrite Hp|by exists i].
  - by apply (Queues_resume w w' t k i).
  - by apply (Waits_resume w w' t k i).
  - by apply (Words_resume w w' t k i).
Qed.

(** The two outcomes of a release. *)
Lemma release_some k (l l' : Lock Q) u : release k l = (Some u, l') ->
  exists q, wq_list (wait_queue l) = u :: q /\ wq_list (wait_queue l') = q /\ word l' = word l /\ guard l' = guard l.
Proof.
  assert (forall l' : Lock Q, (let '(t, q) := wq_dequeue (wait_queue l) in (Some t, set_queue q l)) = (Some u, l') -> negb (wq_empty (wait_queue l)) = true ->
    exists q, wq_list (wait_queue l) = u :: q /\ wq_list (wait_queue l') = q /\ word l' = word l /\ guard l' = guard l) as Hd.
  { intros l0 E Hne. destruct (wq_list (wait_queue l)) as [|t q] eqn:El; [by rewrite (proj2 (wq_empty_list _) El) in Hne|].
    destruct (wq_dequeue_list _ _ _ El) as [E1 E2]. destruct (wq_dequeue (wait_queue l)) as [t' q']. cbn in *. simplify_eq. by exists (wq_list q'). }
  unfold release, Mutex_Release, Semaphore_Release. destruct (kind k); destruct (negb _) eqn:En; try done; intros E; by apply Hd.
Qed.
Lemma release_none k (l l' : Lock Q) : release k l = (None, l') -> wq_list (wait_queue l) = [] /\ wait_queue l' = wait_queue l /\
  word l' = match kind k with Mutex => 0 | Semaphore => word l + 1 end.
Proof.
  unfold release, Mutex_Release, Semaphore_Release. destruct (kind k); (destruct (negb _) eqn:En; [by destruct (wq_dequeue _)|]);
    apply negb_false_iff, wq_empty_list in En; by intros [= <-].
Qed.

(** [release] with a waiter: the common part of both kinds of locks; [p] is the next position and the
    guard is released or kept. *)
Lemma handoff_keeps w w' c k i u l p : LockInv w -> (c < cpus)%nat -> pc w (current (sched w) c) = Inside (Release k) i ->
  release k (lock w k) = (Some u, l) -> moves w w' (current (sched w) c) p -> sched w' = sched w ->
  target p = Some u -> no_stake p -> (forall j x, p <> Queued j x) -> (forall j, parked j p = false) -> may_sleep p = false ->
  (forall j, word (lock w' j) = word (lock w j)) -> (forall j, waiters w' j = if decide (j = k) then wq_list (wait_queue l) else waiters w j) ->
  held w' = held w -> (forall j, tally (given w') j - tally (taken w') j = tally (given w) j - tally (taken w) j) ->
  length (interrupts w') = cpus -> (forall d, d <> c -> interrupts w' !!! d = interrupts w !!! d) -> (masked p = true -> interrupts w' !!! c = false) ->
  Guarded w' -> LockInv w'.
Proof.
  intros LI Hc Hp Hr Hm Hs Htg Hns Hnq Hnp Hms Hw Hq Hh Hty Hlen Hfl Hif G'. set (t := current (sched w) c) in *.
  destruct (release_some k (lock w k) l u Hr) as (q & E1 & E2 & E3 & E4). rewrite E2 in Hq.
  destruct LI as [Ok G M QU W D]. pose proof (Build_LockInv _ Ok G M QU W D) as LI. constructor; [by rewrite Hs|done| | | |].
  - apply (Masked_local w w' c p); try done; [by fold t; rewrite Hp|by rewrite Hms].
  - apply (Queues_handoff w w' t k i u q p); try done. apply Hns.
  - apply (Waits_handoff w w' t k i u q p); try done. apply Hns.
  - by apply (Words_handoff w w' t k i u q p).
Qed.

Lemma handoff_mutex_keeps w c k i u l : LockInv w -> (c < cpus)%nat -> pc w (current (sched w) c) = Inside (Release k) i ->
  release k (lock w k) = (Some u, l) ->
  LockInv (set_pc (current (sched w) c) (WakeOut k u) (note_taken k (release_guard k i c (set_lock k l (note_given k w))))).
Proof.
  intros LI Hc Hp Hr. set (t := current (sched w) c) in *. set (w' := set_pc t _ _).
  assert (moves w w' t (WakeOut k u)) as Hm by (by apply moves_set).
  assert (forall j, lock w' j = if decide (j = k) then set_guard new_spin l else lock w j) as Hl.
  { intros j. change (lock w' j) with (lock (release_guard k i c (set_lock k l w)) j). rewrite lock_release, !lock_set.
    destruct (decide (j = k)); [by rewrite decide_True|done]. }
  destruct (release_some k (lock w k) l u Hr) as (q & _ & _ & E3 & _).
  apply (handoff_keeps w w' c k i u l (WakeOut k u)); try done.
  - intros j. rewrite Hl. by destruct (decide (j = k)) as [->|].
  - intros j. unfold waiters. rewrite Hl. by destruct (decide (j = k)).
  - intros j. change (given w') with (bump k (given w)). change (taken w') with (bump k (taken w)). rewrite !tally_bump. lia.
  - change (interrupts w') with (enInterrupt i c (interrupts w)). rewrite enInterrupt_len. apply (mk_len _ (li_masked _ LI)).
  - intros d Hd. change (interrupts w') with (enInterrupt i c (interrupts w)). by apply enInterrupt_other.
  - apply (Guarded_leave w w' t (WakeOut k u) k); try done; [by rewrite Hp| |apply LI]. intros j. unfold busy. rewrite Hl. by destruct (decide (j = k)).
Qed.

Lemma handoff_semaphore_keeps w c k i u l : LockInv w -> (c < cpus)%nat -> pc w (current (sched w) c) = Inside (Release k) i ->
  release k (lock w k) = (Some u, l) ->
  LockInv (set_pc (current (sched w) c) (WakeIn k u i) (note_taken k (set_lock k l (note_given k w)))).
Proof.
  intros LI Hc Hp Hr. set (t := current (sched w) c) in *. set (w' := set_pc t _ _).
  assert (moves w w' t (WakeIn k u i)) as Hm by (by apply moves_set).
  assert (forall j, lock w' j = if decide (j = k) then l else lock w j) as Hl by (intros j; apply (lock_set k l w)).
  destruct (release_some k (lock w k) l u Hr) as (q & _ & _ & E3 & E4).
  apply (handoff_keeps w w' c k i u l (WakeIn k u i)); try done.
  - intros j. rewrite Hl. by destruct (decide (j = k)) as [->|].
  - intros j. unfold waiters. rewrite Hl. by destruct (decide (j = k)).
  - intros j. change (given w') with (bump k (given w)). change (taken w') with (bump k (taken w)). rewrite !tally_bump. lia.
  - apply (mk_len _ (li_masked _ LI)).
  - intros _. apply (masked_here w c LI Hc). fold t. by rewrite Hp.
  - apply (Guarded_stay w w' t (WakeIn k u i)); try done; [by rewrite Hp| |apply LI]. intros j. unfold busy. rewrite Hl.
    destruct (decide (j = k)) as [->|]; [by rewrite E4|done].
Qed.

Lemma free_keeps w c k i l : LockInv w -> (c < cpus)%nat -> pc w (current (sched w) c) = Inside (Release k) i ->
  release k (lock w k) = (None, l) ->
  LockInv (set_pc (current (sched w) c) Outside (release_guard k i c (set_lock k l (note_given k w)))).
Proof.
  intros LI Hc Hp Hr. set (t := current (sched w) c) in *. set (w' := set_pc t _ _).
  assert (moves w w' t Outside) as Hm by (by apply moves_set).
  assert (forall j, lock w' j = if decide (j = k) then set_guard new_spin l else lock w j) as Hl.
  { intros j. change (lock w' j) with (lock (release_guard k i c (set_lock k l w)) j). rewrite lock_release, !lock_set.
    destruct (decide (j = k)); [by rewrite decide_True|done]. }
  destruct (release_none k (lock w k) l Hr) as (Hq0 & Eq & Ew).
  assert (forall j, waiters w' j = waiters w j) as Hq.
  { intros j. unfold waiters. rewrite Hl. destruct (decide (j = k)) as [->|]; [|done]. cbn. by rewrite Eq. }
  destruct LI as [Ok G M QU W D]. pose proof (Build_LockInv _ Ok G M QU W D) as LI. constructor; [exact Ok| | | | |].
  - apply (Guarded_leave w w' t Outside k); try done; [by rewrite Hp|]. intros j. unfold busy. rewrite Hl. by destruct (decide (j = k)).
  - apply (Masked_leave w w' c Outside); try done; [by fold t; rewrite Hp|by exists i].
  - apply (Queues_plain w w' t Outside); try done. by rewrite Hp.
  - apply (Waits_plain w w' t Outside); try done. by rewrite Hp.
  - apply (Words_free w w' t k i); try done.
    + intros j. rewrite Hl. destruct (decide (j = k)) as [->|]; [|done]. cbn. by rewrite Ew.
    + intros j. apply tally_bump.
Qed.

(** Unblocking; [p] is the next position. *)
Lemma wake_keeps w c u p : LockInv w -> (c < cpus)%nat -> target (pc w (current (sched w) c)) = Some u ->
  plain p -> no_stake p -> (forall j, parked j p = false) -> may_sleep p = false -> guards p = guards (pc w (current (sched w) c)) ->
  masked p = masked (pc w (current (sched w) c)) ->
  LockInv (set_pc (current (sched w) c) p (with_sched (if truthy u then unblock u (sched w) else sched w) w)).
Proof.
  intros LI Hc Hp Hpl Hns Hpk Hms Hg Hmk. set (t := current (sched w) c) in *. set (w' := set_pc t _ _).
  assert (moves w w' t p) as Hm by (by apply moves_set). assert (pc w t <> Outside) as Hpo by (intros E; by rewrite E in Hp).
  destruct LI as [Ok G M QU W D]. pose proof (Build_LockInv _ Ok G M QU W D) as LI.
  destruct (qu_target _ QU t u Hp) as (k & i & Hu & Hnu).
  assert (sleeper (sched w) u) as Hsu by (apply (mk_sleeper _ M); by rewrite Hu).
  assert (waits (sched w) u) as Hwu by (apply (wt_asleep _ W k u i Hu); right; by exists t).
  destruct (unblock_law (sched w) u Ok Hsu Hwu) as (Ok' & Hw & Hcu & Hsl).
  assert (sched w' = unblock u (sched w)) as Es.
  { change (sched w') with (if truthy u then unblock u (sched w) else sched w). unfold truthy. pose proof (sleeper_nonzero _ _ Hsu).
    by rewrite (proj2 (Z.eqb_neq u 0)). }
  assert ((forall k i, pc w t <> Asleep k i) /\ (forall j, releasing j (pc w t) = false)) as [T1 T2] by (by destruct (pc w t)).
  constructor; [by rewrite Es| | | | |].
  - by apply (Guarded_stay w w' t p).
  - apply (Masked_scheduled w w' c p); try done; try rewrite Es; try done; [|by rewrite Hms]. rewrite Hmk. fold t. intros Hx. by apply (masked_here w c LI Hc).
  - by apply (Queues_woken w w' t p u).
  - apply (Waits_woken w w' t p u); try done; rewrite Es; try done.
  - apply (Words_move w w' t p); try done. intros j. by rewrite Hpk.
Qed.

Lemma leave_keeps w c k i : LockInv w -> (c < cpus)%nat -> pc w (current (sched w) c) = Leave k i ->
  LockInv (set_pc (current (sched w) c) Outside (release_guard k i c w)).
Proof.
  intros LI Hc Hp. set (t := current (sched w) c) in *. set (w' := set_pc t _ _).
  assert (moves w w' t Outside) as Hm by (by apply moves_set).
  assert (forall j, lock w' j = if decide (j = k) then set_guard new_spin (lock w k) else lock w j) as Hl.
  { intros j. change (lock w' j) with (lock (release_guard k i c w) j). apply lock_release. }
  assert (forall j, waiters w' j = waiters w j) as Hq by (intros j; unfold waiters; rewrite Hl; by destruct (decide (j = k)) as [->|]).
  destruct LI as [Ok G M QU W D]. pose proof (Build_LockInv _ Ok G M QU W D) as LI. constructor; [exact Ok| | | | |].
  - apply (Guarded_leave w w' t Outside k); try done; [by rewrite Hp|]. intros j. unfold busy. rewrite Hl. by destruct (decide (j = k)).
  - apply (Masked_leave w w' c Outside); try done; [by fold t; rewrite Hp|by exists i].
  - apply (Queues_plain w w' t Outside); try done. by rewrite Hp.
  - apply (Waits_plain w w' t Outside); try done. by rewrite Hp.
  - apply (Words_move w w' t Outside); try done; [by rewrite Hp|]. intros j. rewrite Hl. by destruct (decide (j = k)) as [->|].
Qed.

Lemma begin_keeps w c op : LockInv w -> (c < cpus)%nat -> current (sched w) c <> 0 -> pc w (current (sched w) c) = Outside ->
  may_begin op w (current (sched w) c) -> LockInv (begin c op w).
Proof.
  intros LI Hc Hz Hp Hb. set (t := current (sched w) c) in *. unfold begin, TryMaskInterrupt. fold t.
  set (old := interrupts w !!! c). set (w1 := match op with Release k => note_dropped k t w | _ => w end).
  set (w' := set_pc t _ _). assert (moves w w' t (Enter op old)) as Hm by (apply moves_set; by destruct op).
  assert (forall j, lock w' j = lock w j) as Hl by (intros j; by destruct op).
  assert (forall j, waiters w' j = waiters w j) as Hq by (intros j; unfold waiters; by rewrite Hl).
  assert (sched w' = sched w) as Hs by (by destruct op).
  destruct LI as [Ok G M QU W D]. pose proof (Build_LockInv _ Ok G M QU W D) as LI. pose proof (mk_len _ M) as Hlen.
  constructor; [by rewrite Hs| | | | |].
  - apply (Guarded_stay w w' t (Enter op old)); try done; [by rewrite Hp|]. intros j. unfold busy. by rewrite Hl.
  - apply (Masked_move w w' t (Enter op old) c); try done.
    + intros d Hd E. apply (current_inj (sched w)); [done|done|done| |congruence]. by rewrite E.
    + change (length (<[c:=false]> (interrupts w)) = cpus). by rewrite length_insert.
    + intros d Hd. change (<[c:=false]> (interrupts w) !!! d = interrupts w !!! d). by rewrite list_lookup_total_insert_ne.
    + by rewrite Hs.
    + intros _. rewrite Hs. split; [done|]. change (<[c:=false]> (interrupts w) !!! c = false). apply list_lookup_total_insert_eq. lia.
    + by rewrite Hs.
    + rewrite Hs. by destruct op.
  - apply (Queues_plain w w' t (Enter op old)); try done. by rewrite Hp.
  - apply (Waits_plain w w' t (Enter op old)); try done; rewrite ?Hs; try done. by rewrite Hp.
  - destruct op as [k|k].
    + apply (Words_move w w' t (Enter (Acquire k) old)); try done. by rewrite Hp.
    + apply (Words_drop w w' t k old); try done. intros j u.
      change (held w') with (List.filter (fun x => negb (bool_decide (x = (k, t)))) (held w)).
      rewrite !list_elem_of_In, filter_In, negb_true_iff, bool_decide_eq_false. tauto.
Qed.

(** A step of the rest of the kernel. *)
Lemma others_keeps w s' : LockInv w -> others (preemptible w) (sched w) s' -> LockInv (with_sched s' w).
Proof.
  intros [Ok G M QU W D] Ho. destruct (others_law _ _ _ Ok Ho) as (Ok' & Hw & Hsl & Hcu). constructor; [done|by destruct G; constructor| |by destruct QU; constructor| |].
  - destruct M as [M1 M2 M3 M4]. constructor; [done| |done|].
    + intros t Ht. change (masked (pc w t) = true) in Ht. destruct (M2 t Ht) as (c & Hc & E & Hf). exists c. split; [done|]. split; [|done].
      destruct (Hcu c Hc) as [Hcc|[[[Hp|Hp]|Hp] _]]; [by rewrite <- E|congruence| |].
      * rewrite E in Hp. by rewrite Ht in Hp.
      * rewrite Hp in E. subst t. by rewrite M3 in Ht.
    + intros t Ht. by apply Hsl, M4.
  - destruct W as [W1 W2 W3]. constructor.
    + intros k t Ht. apply Hw. by apply (W1 k).
    + intros k t i Ht. change (sched (with_sched s' w)) with s'. rewrite Hw. by apply (W2 k t i).
    + intros c k i Hc. change (sched (with_sched s' w)) with s'. intros Hp. destruct (Hcu c Hc) as [E|[_ Hn]]; [|done].
      rewrite E, Hw in *. by apply (W3 c k i).
  - by apply (Words_ext w).
Qed.

Lemma flags_keeps w c b : LockInv w -> (c < cpus)%nat -> masked (pc w (current (sched w) c)) = false ->
  LockInv (with_flags (<[c := b]> (interrupts w)) w).
Proof.
  intros [Ok G [M1 M2 M3 M4] QU W D] Hc Hm. constructor; [exact Ok|by destruct G; constructor| |by destruct QU; constructor| |by apply (Words_ext w)].
  - constructor; [by cbn; rewrite length_insert| |done|done]. intros t Ht. destruct (M2 t Ht) as (d & Hd & E & Hf). exists d. split; [done|]. split; [done|].
    cbn. rewrite list_lookup_total_insert_ne; [done|]. intros ->. change (masked (pc w t) = true) in Ht. rewrite E, Ht in Hm. done.
  - destruct W. by constructor.
Qed.

Lemma advance_keeps w w' c : LockInv w -> (c < cpus)%nat -> ((exists k i, pc w (current (sched w) c) = Queued k i) -> settled (sched w) c) ->
  advance c w = Some w' -> LockInv w'.
Proof.
  intros LI Hc Hset. unfold advance. destruct (pc w (current (sched w) c)) as [|op i|op i|k i|k i|k i|k u i|k u|k i] eqn:Ep; [done| | | | | | | |].
  - unfold exchange. destruct (sl_locked (guard (lock w (lock_of op)))) eqn:Eb; intros [= <-]; [done|by apply enter_keeps].
  - destruct op as [k|k].
    + destruct (acquire k (lock w k)) as [l|] eqn:Ea; intros [= <-]; [by apply take_keeps|by apply block_keeps].
    + change (lock (note_given k w) k) with (lock w k). destruct (release k (lock w k)) as [[u|] l] eqn:Er, (kind k); intros [= <-];
        [by apply handoff_mutex_keeps|by apply handoff_semaphore_keeps|by apply free_keeps|by apply free_keeps].
  - intros [= <-]. by apply enqueue_keeps.
  - destruct (sleep_keeps w c k i LI Hc) as (s & Es & LI'); [apply Hset; eauto|done|]. rewrite Es. cbn [mbind option_bind]. by intros [= <-].
  - intros [= <-]. by apply resume_keeps.
  - intros [= <-]. apply wake_keeps; rewrite ?Ep; try done.
  - intros [= <-]. apply wake_keeps; rewrite ?Ep; try done.
  - intros [= <-]. by apply leave_keeps.
Qed.

Lemma step_keeps w w' : LockInv w -> lock_step w w' -> LockInv w'.
Proof. intros LI. destruct 1; [by apply begin_keeps|by eapply advance_keeps|by apply others_keeps|by apply flags_keeps]. Qed.

End Step.
