(* ===== verification/LocksClaims.v ===== *)
(** * What the sleeping locks promise

    On every interleaving of lock operations on all processors with the steps of the scheduler. *)
From S2P Require Import Prelude Locks LocksProof LocksStep.

Section Claims.
Context {Q : Type} `{!WaitQueue Q} `{!WaitQueueLaws Q} {S : Type} `{!Sleeping S} `{!SleepingLaws S} `{!LockTypes}.
Abbreviation World := (World Q S).
Implicit Types (w : World).

(** Before the first operation. *)
Record lock_start (w : World) : Prop := {
  ls_ok : sched_ok (sched w);
  ls_flags : length (interrupts w) = cpus;
  ls_empty : locks w = ∅ /\ pcs w = ∅ /\ held w = [] /\ taken w = ∅ /\ given w = ∅;
  ls_initial : forall k, match kind k with Mutex => initial k = 0 | Semaphore => 0 <= initial k end;
}.

Inductive lock_reachable : World -> Prop :=
  | reach_start w : lock_start w -> lock_reachable w
  | reach_step w w' : lock_reachable w -> lock_step w w' -> lock_reachable w'.

Lemma start_inv w : lock_start w -> LockInv w.
Proof.
  intros [Ok Hlen (El & Ep & Eh & Et & Eg) Hi].
  assert (forall t, pc w t = Outside) as Hp by (intros t; unfold pc; by rewrite Ep).
  assert (forall k, lock w k = MkLock new_spin (initial k) wq_new) as Hl by (intros k; unfold lock; by rewrite El).
  assert (forall k, waiters w k = []) as Hq by (intros k; unfold waiters; rewrite Hl; apply wq_new_list).
  assert (forall k t, ~ stake w k t) as Hst.
  { intros k t [Hx|[(i & E & _)|Hx]]; [rewrite Eh in Hx; by apply elem_of_nil in Hx|by rewrite Hp in E|by rewrite Hp in Hx]. }
  constructor; [done| | | | |].
  - constructor; [|intros t u k; by rewrite Hp]. intros k. rewrite Hl. split; [done|]. intros [t Ht]. by rewrite Hp in Ht.
  - constructor; [done|intros t; by rewrite Hp|by rewrite Hp|intros t; by rewrite Hp].
  - constructor; intros *; rewrite ?Hq, ?Hp; try done; [constructor|by intros ?%elem_of_nil].
  - constructor; intros *; rewrite ?Hp; done.
  - constructor.
    + intros k _. split; [done|]. intros t. by rewrite Hp.
    + intros k Hk. rewrite Hl. specialize (Hi k). rewrite Hk in Hi. by left.
    + intros k Hk. rewrite Hl. specialize (Hi k). rewrite Hk in Hi. cbn. split; [lia|]. intros [t Ht]. by destruct (Hst k t).
    + intros k t u _ Ht. by destruct (Hst k t).
    + intros k t _ _. rewrite Eh. apply not_elem_of_nil.
    + intros k Hk. rewrite Hl, Et, Eg. unfold tally. rewrite lookup_empty. specialize (Hi k). rewrite Hk in Hi. cbn. lia.
Qed.

Lemma reachable_inv w : lock_reachable w -> LockInv w.
Proof. induction 1; [by apply start_inv|by eapply step_keeps]. Qed.

(** C20: In every reachable state at most one thread is between [Acquire] and [Release] of a mutex,
    at most one thread is inside the guard of a lock, and whoever holds or waits for a guard is
    executing on a processor with its interrupts masked, so that it cannot be preempted there. *)
Theorem lock_mutual_exclusion w : lock_reachable w ->
  (forall k t u, kind k = Mutex -> (k, t) ∈ held w -> (k, u) ∈ held w -> t = u) /\
  (forall k t u, guards (pc w t) = Some k -> guards (pc w u) = Some k -> t = u) /\
  (forall t, masked (pc w t) = true -> exists c, (c < cpus)%nat /\ current (sched w) c = t /\ interrupts w !!! c = false).
Proof.
  intros LI%reachable_inv. split; [|split].
  - intros k t u Hk Ht Hu. apply (wd_one _ (li_words _ LI) k); [done|by left|by left].
  - intros k t u. apply (gd_one _ (li_guarded _ LI)).
  - apply (mk_cpu _ (li_masked _ LI)).
Qed.

(** Waking the thread that was taken from the queue. *)
Lemma wakes_target w w' c u : LockInv w -> target (pc w (current (sched w) c)) = Some u -> advance c w = Some w' -> sched w' = unblock u (sched w).
Proof.
  intros LI Ht. destruct (qu_target _ (li_queues _ LI) _ u Ht) as (k & i & Hu & _).
  assert (u <> 0) as Hz by (eapply sleeper_nonzero, (mk_sleeper _ (li_masked _ LI)); by rewrite Hu).
  assert (truthy u = true) as Htu by (unfold truthy; by rewrite (proj2 (Z.eqb_neq u 0) Hz)).
  unfold advance. destruct (pc w (current (sched w) c)); try done; cbn in Ht; injection Ht as ->; rewrite Htu; by intros [= <-].
Qed.

(** C21: No wake-up is lost.  A thread that sleeps in [Acquire] is in one of three situations.  It is
    on the queue, and then the mutex has an owner other than nobody and the semaphore is at zero; or
    it was taken from the queue by a thread whose next step is to unblock it; or it was unblocked,
    and then it is runnable, or blocked for a reason that has nothing to do with locks. *)
Theorem sleepers_are_woken w t k i : lock_reachable w -> pc w t = Asleep k i ->
  (waits (sched w) t /\ t ∈ waiters w k /\
     match kind k with Mutex => word (lock w k) = 1 /\ exists u, stake w k u | Semaphore => word (lock w k) = 0 end) \/
  (waits (sched w) t /\ t ∉ waiters w k /\ exists u, target (pc w u) = Some t /\
     forall c w', (c < cpus)%nat -> current (sched w) c = u -> advance c w = Some w' -> ~ waits (sched w') t) \/
  (~ waits (sched w) t /\ t ∉ waiters w k /\ (runnable (sched w) t \/ blocked_else (sched w) t)).
Proof.
  intros LI%reachable_inv Ht. pose proof (wt_asleep _ (li_waits _ LI) k t i Ht) as Hw. pose proof (li_words _ LI) as D.
  assert (sleeper (sched w) t) as Hs by (apply (mk_sleeper _ (li_masked _ LI)); by rewrite Ht).
  destruct (decide (t ∈ waiters w k)) as [Hin|Hno].
  - left. split; [tauto|]. split; [done|]. assert (~ available k (word (lock w k))) as Hun.
    { intros Ha. destruct (wd_free _ D k Ha) as [E _]. rewrite E in Hin. by apply elem_of_nil in Hin. }
    unfold available in Hun. destruct (kind k) eqn:Ek.
    + destruct (wd_bit _ D k Ek) as [|E]; [done|]. split; [done|]. by apply (wd_stake _ D k Ek).
    + pose proof (wd_count _ D k Ek). lia.
  - right. assert ((exists u, target (pc w u) = Some t) \/ ~ exists u, target (pc w u) = Some t) as [[u Hu]|Hn].
    { destruct (decide (Exists (fun u => target (pc w u) = Some t) (map_to_list (pcs w)).*1)) as [E|E].
      - left. apply Exists_exists in E as (u & _ & Hu). by exists u.
      - right. intros [u Hu]. apply E, Exists_exists. exists u. split; [|done]. unfold pc in Hu. destruct (pcs w !! u) as [p|] eqn:El; [|done].
        apply list_elem_of_fmap. exists (u, p). split; [done|]. by apply elem_of_map_to_list. }
    + left. split; [apply Hw; right; by exists u|]. split; [done|]. exists u. split; [done|]. intros c w' Hc Hcu Ha. subst u.
      rewrite (wakes_target w w' c t LI Hu Ha). assert (waits (sched w) t) as Hwt by (apply Hw; right; eauto).
      destruct (unblock_law (sched w) t (li_ok _ LI) Hs Hwt) as (_ & Hx & _). rewrite Hx. tauto.
    + right. assert (~ waits (sched w) t) as Hnw by tauto. split; [done|]. split; [done|]. apply awake_law; [apply LI|done|done].
Qed.

(** Locks are handed over in the order of arrival.  Under the guard, an acquisition that finds the
    lock taken blocks, and then joins the end of the queue; a release that finds waiters takes the
    first of them, leaves the word alone, so that nobody can overtake, and wakes exactly that thread;
    a release that finds none makes the lock available. *)
Theorem lock_handoff w w' c k i : lock_reachable w -> (c < cpus)%nat -> advance c w = Some w' ->
  let t := current (sched w) c in
  (pc w t = Inside (Acquire k) i -> ~ available k (word (lock w k)) -> pc w' t = Parked k i /\ waits (sched w') t) /\
  (pc w t = Parked k i -> pc w' t = Queued k i /\ waiters w' k = waiters w k ++ [t]) /\
  (pc w t = Inside (Release k) i -> forall u l, waiters w k = u :: l ->
     target (pc w' t) = Some u /\ waiters w' k = l /\ word (lock w' k) = word (lock w k) /\ ~ available k (word (lock w' k))) /\
  (pc w t = Inside (Release k) i -> waiters w k = [] -> pc w' t = Outside /\ available k (word (lock w' k))).
Proof.
  intros LI%reachable_inv Hc Ha t. pose proof (li_words _ LI) as D. unfold advance in Ha. fold t in Ha. split; [|split; [|split]].
  - intros Hp Hun. rewrite Hp in Ha. destruct (acquire k (lock w k)) as [l|] eqn:Eq.
    { destruct Hun. unfold acquire, Mutex_Acquire, Semaphore_Acquire, available, truthy in *. destruct (kind k).
      - destruct (word (lock w k) =? 0) eqn:E; [lia|done].
      - destruct (0 <? word (lock w k)) eqn:E; [lia|done]. }
    injection Ha as <-. split; [by rewrite pc_set, decide_True|]. destruct (block_law (sched w) c (li_ok _ LI) Hc) as (_ & Hx & _); [|by apply Hx; left].
    apply (mk_sleeper _ (li_masked _ LI)). fold t. by rewrite Hp.
  - intros Hp. rewrite Hp in Ha. injection Ha as <-. split; [by rewrite pc_set, decide_True|]. unfold waiters.
    change (lock (set_pc ?a ?b ?x) k) with (lock x k). rewrite lock_set, decide_True by done. apply wq_enqueue_list.
  - intros Hp u l Hq. rewrite Hp in Ha. assert (~ available k (word (lock w k))) as Hun by (intros Hx; destruct (wd_free _ D k Hx); congruence).
    change (lock (note_given k w) k) with (lock w k) in Ha. destruct (release k (lock w k)) as [[v|] lk] eqn:Er.
    2: { destruct (release_none k (lock w k) lk Er) as [E _]. unfold waiters in Hq. congruence. }
    destruct (release_some k (lock w k) lk v Er) as (q & E1 & E2 & E3 & _). unfold waiters in Hq. rewrite Hq in E1. injection E1 as <- <-.
    assert (lock w' k = lk \/ lock w' k = set_guard new_spin lk) as Hlk.
    { destruct (kind k); injection Ha as <-; [right|left].
      - change (lock (set_pc ?a ?b (note_taken ?d ?x)) k) with (lock x k). rewrite lock_release, !decide_True by done. by rewrite lock_set, decide_True.
      - change (lock (set_pc ?a ?b (note_taken ?d ?x)) k) with (lock x k). by rewrite lock_set, decide_True. }
    assert (waiters w' k = l /\ word (lock w' k) = word (lock w k)) as [H1 H2] by (unfold waiters; destruct Hlk as [-> | ->]; cbn; by rewrite E3).
    split; [|split; [done|split; [done|by rewrite H2]]]. destruct (kind k); injection Ha as <-; by rewrite pc_set, decide_True.
  - intros Hp Hq. rewrite Hp in Ha. change (lock (note_given k w) k) with (lock w k) in Ha. destruct (release k (lock w k)) as [[v|] lk] eqn:Er.
    { destruct (release_some k (lock w k) lk v Er) as (q & E1 & _). unfold waiters in Hq. congruence. }
    destruct (release_none k (lock w k) lk Er) as (_ & _ & Ew).
    assert (w' = set_pc t Outside (release_guard k i c (set_lock k lk (note_given k w)))) as -> by (destruct (kind k); by injection Ha).
    split; [by rewrite pc_set, decide_True|]. change (lock (set_pc ?a ?b ?x) k) with (lock x k). rewrite lock_release, decide_True by done.
    rewrite lock_set, decide_True by done. cbn. rewrite Ew. unfold available. destruct (kind k) eqn:Ek; [done|]. pose proof (wd_count _ D k Ek). lia.
Qed.


(** [TryAcquire] takes a free lock with the interrupts masked, and leaves a taken lock and the
    interrupt flags alone. *)
Lemma TryAcquire_spec c l flags : (c < length flags)%nat ->
  TryAcquire c l flags =
  if sl_locked l then ((false, flags !!! c), (l, flags)) else ((true, flags !!! c), (MkSpin true (Z.of_nat c), <[c := false]> flags)).
Proof.
  intros Hc. unfold TryAcquire, TryMaskInterrupt, exchange. destruct (sl_locked l); [|done]. do 2 f_equal. unfold enInterrupt.
  destruct (flags !!! c) eqn:E; rewrite ?list_insert_insert_eq; apply list_insert_id; rewrite list_lookup_lookup_total_lt by done; by rewrite E.
Qed.

(** How many steps of its own a thread is from the end of its operation. *)
Definition rank (p : Pc) : nat :=
  match p with Outside => 0 | Enter _ _ => 5 | Inside _ _ => 4 | Parked _ _ => 3 | Queued _ _ => 2 | Asleep _ _ => 1 | WakeIn _ _ _ => 2 | WakeOut _ _ => 1 | Leave _ _ => 1 end.


End Claims.
