(* ===== verification/LocksSched.v ===== *)
(** * The scheduler under the locks

    The scheduler of [Sched] keeps the promises that the sleeping locks rely on: a thread blocked with
    [BR_Lock] stays blocked, whatever the rest of the kernel does, until it is unblocked with that
    reason. *)
From S2P Require Import Prelude Sched SchedProof SchedSwitch SchedSys SchedReasons Locks LocksProof.

Definition lock_bit (x : Z) : bool := Z.testbit x 5.

Lemma land_lock x : Z.land x BR_Lock = 0 <-> lock_bit x = false.
Proof.
  unfold BR_Lock, lock_bit. change 32 with (2 ^ 5). split.
  - intros E. apply (f_equal (fun y => Z.testbit y 5)) in E. by rewrite Z.land_spec, Z.pow2_bits_true, andb_true_r, Z.bits_0 in E.
  - intros E. apply Z.bits_inj'. intros i Hi. rewrite Z.land_spec, Z.bits_0. destruct (decide (i = 5)) as [->|]; [by rewrite E|].
    by rewrite Z.pow2_bits_false, andb_false_r.
Qed.
Lemma lor_lock x : lock_bit (Z.lor x BR_Lock) = true.
Proof. unfold lock_bit. rewrite Z.lor_spec. by rewrite orb_true_r. Qed.
Lemma ldiff_lock x : lock_bit (Z.ldiff x BR_Lock) = false.
Proof. unfold lock_bit. rewrite Z.ldiff_spec. by rewrite andb_false_r. Qed.
Lemma lor_other x r : Z.land r BR_Lock = 0 -> lock_bit (Z.lor x r) = lock_bit x.
Proof. intros E%land_lock. unfold lock_bit in *. by rewrite Z.lor_spec, E, orb_false_r. Qed.
Lemma ldiff_other x r : Z.land r BR_Lock = 0 -> lock_bit (Z.ldiff x r) = lock_bit x.
Proof. intros E%land_lock. unfold lock_bit in *. by rewrite Z.ldiff_spec, E, andb_true_r. Qed.
Lemma ldiff_lock_nonzero x r : Z.land r BR_Lock = 0 -> lock_bit x = true -> Z.ldiff x r <> 0.
Proof. intros Hr Hx E. pose proof (ldiff_other x r Hr) as H. rewrite E, Hx in H. done. Qed.

(** The reasons: blocked for a lock means blocked; no wake-up with [BR_Lock] is pending; whoever is
    blocked has a reason. *)
Record Reasons (s : Sched) : Prop := {
  rn_blocked : forall p, lock_bit (block_reason (thread s p)) = true -> st s p = State.Pended;
  rn_pending : forall p, lock_bit (pending_wake (thread s p)) = false;
  rn_pended : forall p, st s p = State.Pended -> block_reason (thread s p) <> 0;
}.

Lemma Reasons_calm s s' : calm s s' -> Reasons s -> Reasons s'.
Proof.
  intros C [R1 R2 R3]. constructor; intros p; destruct (C p) as (E & F & _); unfold rs in E; injection E as E1 E2; rewrite ?E1, ?E2, ?F; auto.
Qed.

Section Instance_.
Context (n : nat) (D : Z -> Sched -> Sched).

(** The rest of the kernel: scheduling where the thread can be switched; blocking and waking for
    other reasons; new threads; processors that start. *)
Inductive kernel_step (pre : nat -> Prop) : Sched -> Sched -> Prop :=
  | k_schedule c omit o s s' : pre c -> (c < n)%nat -> cur s c <> 0 -> settles s c -> Schedule D omit c s = Some (o, s') -> kernel_step pre s s'
  | k_block th r s : has s th -> not_idle_thread n s th -> r <> 0 -> Z.land r BR_Lock = 0 ->
      Z.land (pending_wake (thread s th)) r = 0 \/ st s th <> State.Pended -> kernel_step pre s (Block th r s)
  | k_unblock th r s : has s th -> not_idle_thread n s th -> Z.land r BR_Lock = 0 -> kernel_step pre s (Unblock th r s)
  | k_append th s : has s th -> not_idle_thread n s th -> st s th = State.Uninit -> kernel_step pre s (append_ready th s)
  | k_start c s s' : (c < n)%nat -> cur s c = 0 -> out s c = 0 -> AP_Main c s = Some s' -> kernel_step pre s s'.

#[global] Instance sched_sleeping : Sleeping Sched := {
  current := cur;
  block t := Block t BR_Lock;
  unblock t := Unblock t BR_Lock;
  sleep c s := '(_, s') ← SleepAndRelease D (fun s => s) c s; Some s';
}.

Definition may_block (s : Sched) (t : Z) : Prop := has s t /\ not_idle_thread n s t /\ live (st s t).
Definition on_lock (s : Sched) (t : Z) : Prop := lock_bit (block_reason (thread s t)) = true.

Lemma vis_reasons s s' q : vis (thread s' q) = vis (thread s q) ->
  st s' q = st s q /\ block_reason (thread s' q) = block_reason (thread s q) /\ pending_wake (thread s' q) = pending_wake (thread s q).
Proof. unfold vis, rs, st. by intros [= -> -> ->]. Qed.

Lemma may_block_frame s s' : idle_thread s' = idle_thread s -> (forall p, is_Some (heap s !! p) -> is_Some (heap s' !! p)) ->
  (forall p, live (st s p) -> live (st s' p)) -> forall p, may_block s p -> may_block s' p.
Proof.
  intros Hi Hh Hl p ([Hz Hs] & Hn & Hv). split; [by split; [|apply Hh]|]. split; [|by apply Hl]. intros c Hc. unfold idl. rewrite Hi. by apply Hn.
Qed.

Lemma Dequeue_tables p s : current_thread (DequeueReady p s) = current_thread s /\ idle_thread (DequeueReady p s) = idle_thread s.
Proof. unfold DequeueReady. by destruct (if head _ =? p then _ else _) as [[[? ?] ?] ?]. Qed.
Lemma Enqueue_tables p s : (current_thread (EnqueueReady p s) = current_thread s /\ idle_thread (EnqueueReady p s) = idle_thread s /\
    forall q, is_Some (heap s !! q) -> is_Some (heap (EnqueueReady p s) !! q)) /\
  (current_thread (EnqueueExpired p s) = current_thread s /\ idle_thread (EnqueueExpired p s) = idle_thread s /\
    forall q, is_Some (heap s !! q) -> is_Some (heap (EnqueueExpired p s) !! q)).
Proof.
  unfold EnqueueReady, EnqueueExpired, link_tail. split; (destruct (negb _); [done|]); (destruct (already_queued _ _ _); [done|]); destruct (truthy _);
    (split; [done|]); (split; [done|]); intros q Hq; cbn [with_ready with_expired heap]; by rewrite ?is_Some_alter.
Qed.

Lemma Block_tables t r s : current_thread (Block t r s) = current_thread s /\ idle_thread (Block t r s) = idle_thread s /\
  forall p, is_Some (heap s !! p) -> is_Some (heap (Block t r s) !! p).
Proof.
  unfold Block. destruct (Dequeue_tables t s) as [E1 E2]. destruct (truthy _); (split; [exact E1|]); (split; [exact E2|]); intros p Hp;
    apply upd_exists; by apply Dequeue_exists.
Qed.
Lemma Unblock_tables t r s : current_thread (Unblock t r s) = current_thread s /\ idle_thread (Unblock t r s) = idle_thread s /\
  forall p, is_Some (heap s !! p) -> is_Some (heap (Unblock t r s) !! p).
Proof.
  assert (forall f s, current_thread (upd t f s) = current_thread s /\ idle_thread (upd t f s) = idle_thread s /\
    forall p, is_Some (heap s !! p) -> is_Some (heap (upd t f s) !! p)) as Hu by (intros f s0; split; [done|]; split; [done|]; intros p; by rewrite upd_exists).
  unfold Unblock, UnblockThreadLocked. destruct (negb _); [apply Hu|].
  destruct (state _); [by destruct (Hu (fun t => set_reasons (Z.ldiff (block_reason t) r) (pending_wake t) t) s) as (A & B & C); split_and!; [..|intros p Hp; apply upd_exists, C]|apply Hu|..].
  all: match goal with |- context [if _ then EnqueueExpired _ ?x else _] => set (s2 := x) end.
  all: destruct (Enqueue_tables t s2) as [(A & B & C) (A' & B' & C')]; assert (forall p, is_Some (heap s !! p) -> is_Some (heap s2 !! p)) as Hs by (intros p Hp; unfold s2; by rewrite !upd_exists).
  all: destruct (is_expired _); split_and!; try done; auto.
Qed.
Lemma lor_nonzero x r : r <> 0 -> Z.lor x r <> 0.
Proof. intros Hr E. by apply Z.lor_eq_0_iff in E as [_ E]. Qed.

(** The effect of a change to one thread on the reasons. *)
Lemma Reasons_one s s' th x br pw : (forall q, q <> th -> vis (thread s' q) = vis (thread s q)) -> vis (thread s' th) = (x, (br, pw)) ->
  (lock_bit br = true -> x = State.Pended) -> lock_bit pw = false -> (x = State.Pended -> br <> 0) -> Reasons s ->
  Reasons s' /\ (forall p, on_lock s' p <-> if decide (p = th) then lock_bit br = true else on_lock s p).
Proof.
  intros Ho Ht H1 H2 H3 [R1 R2 R3]. assert (st s' th = x /\ block_reason (thread s' th) = br /\ pending_wake (thread s' th) = pw) as (T1 & T2 & T3).
  { unfold vis, rs in Ht. unfold st. by injection Ht. }
  split.
  - constructor; intros p; (destruct (decide (p = th)) as [->|Hn]; [rewrite ?T1, ?T2, ?T3; auto|]); destruct (vis_reasons s s' p (Ho p Hn)) as (E1 & E2 & E3); rewrite ?E1, ?E2, ?E3; auto.
  - intros p. unfold on_lock. destruct (decide (p = th)) as [->|Hn]; [by rewrite T2|]. by destruct (vis_reasons s s' p (Ho p Hn)) as (_ & -> & _).
Qed.

Lemma Block_reasons th r s : is_Some (heap s !! th) -> r <> 0 ->
  Z.land r BR_Lock = 0 /\ (Z.land (pending_wake (thread s th)) r = 0 \/ st s th <> State.Pended) \/ r = BR_Lock -> Reasons s ->
  Reasons (Block th r s) /\ (forall p, on_lock (Block th r s) p <-> if decide (p = th) then r = BR_Lock \/ on_lock s p else on_lock s p).
Proof.
  intros Hs Hr Hcase R. pose proof R as [R1 R2 R3]. pose proof (Block_self th r s Hs) as E. cbv zeta in E. set (t := thread s th) in *.
  assert (r = BR_Lock -> truthy (Z.land (pending_wake t) r) = false) as Hl.
  { intros ->. unfold truthy. specialize (R2 th). apply land_lock in R2. fold t in R2. by rewrite R2. }
  assert (forall a b : bool, (a = b) -> (a = true <-> b = true)) as Hb by (by intros a b ->).
  destruct (truthy (Z.land (pending_wake t) r)) eqn:Et.
  - destruct Hcase as [[Hrl Hc]| ->]; [|by specialize (Hl eq_refl); congruence]. unfold truthy in Et. apply negb_true_iff, Z.eqb_neq in Et. destruct Hc as [|Hc]; [done|].
    destruct (Reasons_one s (Block th r s) th _ _ _ (fun q => Block_other th r s q) E) as [R' O']; [|by rewrite ldiff_other by done; apply R2|done|done|].
    { rewrite ldiff_other by done. apply R1. }
    split; [done|]. intros p. rewrite O'. destruct (decide (p = th)) as [->|]; [|done]. rewrite ldiff_other by done. unfold on_lock. fold t.
    enough (r <> BR_Lock) by tauto. intros ->. done.
  - destruct (Reasons_one s (Block th r s) th _ _ _ (fun q => Block_other th r s q) E) as [R' O']; [done|apply R2|by intros _; apply lor_nonzero|done|].
    split; [done|]. intros p. rewrite O'. destruct (decide (p = th)) as [->|]; [|done]. destruct Hcase as [[Hrl _]| ->].
    + rewrite lor_other by done. unfold on_lock. fold t. enough (r <> BR_Lock) by tauto. intros ->. done.
    + rewrite lor_lock. tauto.
Qed.

Lemma Unblock_reasons th r s : is_Some (heap s !! th) -> Z.land r BR_Lock = 0 \/ r = BR_Lock /\ on_lock s th -> Reasons s ->
  Reasons (Unblock th r s) /\ (forall p, on_lock (Unblock th r s) p <-> if decide (p = th) then r <> BR_Lock /\ on_lock s p else on_lock s p).
Proof.
  intros Hs Hcase R. pose proof R as [R1 R2 R3]. pose proof (Unblock_self th r s Hs) as E. cbv zeta in E. set (t := thread s th) in *.
  set (br := Z.ldiff (block_reason t) r) in *.
  assert (lock_bit br = true <-> r <> BR_Lock /\ on_lock s th) as Hbr.
  { unfold br, on_lock. destruct Hcase as [Hr|[-> _]]; [rewrite ldiff_other by done|rewrite ldiff_lock]; [|naive_solver]. fold t. enough (r <> BR_Lock) by tauto. intros ->. done. }
  assert (exists x pw, vis (thread (Unblock th r s) th) = (x, (br, pw)) /\ (lock_bit br = true -> x = State.Pended) /\ lock_bit pw = false /\ (x = State.Pended -> br <> 0))
    as (x & pw & Ev & H1 & H2 & H3).
  { destruct (br =? 0) eqn:Eb; cbn [negb] in E.
    - apply Z.eqb_eq in Eb. destruct (state t) eqn:Es; (eexists _, _; split; [exact E|]; split; [rewrite Eb; done|]; split; [|done]); try apply R2.
      destruct Hcase as [Hr|[-> Hon]]; [rewrite lor_other by done; apply R2|]. apply R1 in Hon. unfold st in Hon. fold t in Hon. congruence.
    - apply Z.eqb_neq in Eb. eexists _, _. split; [exact E|]. split; [|split; [apply R2|done]]. intros Hx. apply Hbr in Hx as [_ Hon]. by apply R1 in Hon. }
  destruct (Reasons_one s (Unblock th r s) th x br pw (fun q => Unblock_other th r s q) Ev H1 H2 H3 R) as [R' O']. split; [done|].
  intros p. rewrite O'. destruct (decide (p = th)) as [->|]; [exact Hbr|done].
Qed.

Definition sched_safe (s : Sched) : Prop := SysI n s /\ Reasons s.

Lemma Block_live th r s p : is_Some (heap s !! th) -> live (st s p) -> live (st (Block th r s) p).
Proof.
  intros Hs Hl. destruct (decide (p = th)) as [->|Hn]; [|by destruct (vis_reasons _ _ _ (Block_other th r s p Hn)) as (-> & _)].
  pose proof (Block_self th r s Hs) as E. unfold vis, st in *. destruct (truthy _); injection E as -> _; [done|]. unfold live. tauto.
Qed.
Lemma Unblock_live th r s p : is_Some (heap s !! th) -> live (st s p) -> live (st (Unblock th r s) p).
Proof.
  intros Hs Hl. destruct (decide (p = th)) as [->|Hn]; [|by destruct (vis_reasons _ _ _ (Unblock_other th r s p Hn)) as (-> & _)].
  pose proof (Unblock_self th r s Hs) as E. unfold vis, st in *. cbv zeta in E. destruct (negb _); [by injection E as -> _|].
  destruct (state (thread s th)); injection E as -> _; unfold live; tauto.
Qed.

(** ** The promises *)

Lemma sched_block s c : sched_safe s -> (c < n)%nat -> may_block s (cur s c) ->
  let s' := Block (cur s c) BR_Lock s in sched_safe s' /\ (forall p, on_lock s' p <-> p = cur s c \/ on_lock s p) /\
  (forall d, cur s' d = cur s d) /\ (forall p, may_block s p -> may_block s' p).
Proof.
  intros [SI R] Hc (Hh & Hn & Hl) s'. pose proof Hh as [Hz Hs].
  destruct (Block_reasons (cur s c) BR_Lock s Hs ltac:(done) (or_intror eq_refl) R) as [R' O']. destruct (Block_tables (cur s c) BR_Lock s) as (T1 & T2 & T3).
  split; [split; [by apply Block_step|done]|]. split; [|split].
  - intros p. unfold s'. rewrite O'. destruct (decide (p = cur s c)); tauto.
  - intros d. unfold cur, s'. by rewrite T1.
  - apply may_block_frame; [done|done|]. intros p. by apply Block_live.
Qed.

Lemma sched_unblock s t : sched_safe s -> may_block s t -> on_lock s t ->
  let s' := Unblock t BR_Lock s in sched_safe s' /\ (forall p, on_lock s' p <-> p <> t /\ on_lock s p) /\
  (forall d, cur s' d = cur s d) /\ (forall p, may_block s p -> may_block s' p).
Proof.
  intros [SI R] (Hh & Hn & Hl) Hon s'. pose proof Hh as [Hz Hs].
  destruct (Unblock_reasons t BR_Lock s Hs (or_intror (conj eq_refl Hon)) R) as [R' O']. destruct (Unblock_tables t BR_Lock s) as (T1 & T2 & T3).
  split; [split; [by apply Unblock_step|done]|]. split; [|split].
  - intros p. unfold s'. rewrite O'. destruct (decide (p = t)); tauto.
  - intros d. unfold cur, s'. by rewrite T1.
  - apply may_block_frame; [done|done|]. intros p. by apply Unblock_live.
Qed.

Lemma on_lock_calm s s' p : calm s s' -> on_lock s' p <-> on_lock s p.
Proof. intros C. destruct (C p) as (E & _). unfold on_lock. unfold rs in E. by injection E as -> _. Qed.

Lemma running_not_on_lock s p : Reasons s -> st s p = State.Running -> ~ on_lock s p.
Proof. intros R E Hon. apply (rn_blocked _ R) in Hon. congruence. Qed.

Lemma sched_sleep s c : sched_safe s -> (c < n)%nat -> settles s c -> may_block s (cur s c) -> on_lock s (cur s c) ->
  exists s', ('(_, s') ← SleepAndRelease D (fun s => s) c s; Some s') = Some s' /\ sched_safe s' /\ (forall p, on_lock s' p <-> on_lock s p) /\
  ~ on_lock s' (cur s' c) /\ (forall d, d <> c -> cur s' d = cur s d) /\ (forall p, may_block s p -> may_block s' p).
Proof.
  intros [SI R] Hc Hset (Hh & Hn & Hl) Hon. pose proof Hh as [Hz Hs]. pose proof (rn_blocked _ R _ Hon) as Hp.
  assert (cur s c <> idl s c) as Hni by (intros E; by apply (Hn c Hc)). pose proof SI as (rq & eq & SY & _).
  destruct (SleepAndRelease_spec n D s rq eq c SY Hc Hz Hset Hni) as (s' & rq' & eq' & E & SY' & Hne & Hrun & Hcu & _ & _ & Hi); [by rewrite Hp|].
  pose proof (Sleep_calm n D c s _ s' SI Hc Hset Hz Hni E) as C. pose proof (Reasons_calm s s' C R) as R'.
  exists s'. rewrite E. split; [done|]. split; [split; [|done]|].
  { eapply (Sleep_step n D s s' _ c); try done. by rewrite Hp. }
  split; [intros p; by apply on_lock_calm|]. split; [by apply running_not_on_lock|]. split; [done|].
  intros p ([Hpz Hps] & Hpn & Hpl). split; [|split].
  - split; [done|]. destruct (proj2 (proj2 (C p)) Hpl) as [Ep|[Ep|Ep]]; unfold st, thread in Ep; by destruct (heap s' !! p).
  - intros d Hd. unfold idl. rewrite Hi. by apply Hpn.
  - by apply (C p).
Qed.

(** A live thread exists. *)
Lemma live_exists s p : live (st s p) -> is_Some (heap s !! p).
Proof. unfold st, thread, live. destruct (heap s !! p); [done|]. cbn. naive_solver. Qed.

Lemma may_block_calm s s' : calm s s' -> idle_thread s' = idle_thread s -> forall p, may_block s p -> may_block s' p.
Proof.
  intros C Hi p ([Hz _] & Hn & Hl). apply (C p) in Hl. split; [split; [done|by apply live_exists]|]. split; [|done]. intros c Hc. unfold idl. rewrite Hi. by apply Hn.
Qed.

Lemma append_calm th s : st s th = State.Uninit -> calm s (append_ready th s).
Proof.
  intros E. unfold append_ready. etrans; [apply (calm_state s th State.Ready); [by rewrite E|by left]|]. apply calm_vis. intros q. apply EnqueueReady_vis.
Qed.

Lemma start_calm c s s' : SysI n s -> (c < n)%nat -> AP_Main c s = Some s' -> calm s s' /\ idle_thread s' = idle_thread s /\
  (forall d, d <> c -> cur s' d = cur s d) /\ st s' (cur s' c) = State.Running.
Proof.
  intros (rq & eq & [I K Q] & R) Hc. unfold AP_Main. fold (idl s c). destruct (cp_idle _ _ K c Hc) as [[Hz Hs] Hid]. rewrite (proj2 (Z.eqb_neq _ _) Hz).
  intros [= <-]. assert (st s (idl s c) <> State.Pended) as Hn by (destruct Hid as [E|[E|E]]; by rewrite E). set (i := idl s c) in *. split; [|split; [done|split]].
  - etrans; [apply (calm_upd s i (set_cpu (Z.of_nat c))); done|]. apply (calm_state _ i State.Running); [|by right]. by rewrite st_upd.
  - intros d Hd. unfold cur; cbn. by rewrite list_lookup_total_insert_ne.
  - unfold cur; cbn. rewrite list_lookup_total_insert_eq by (rewrite (proj1 (cp_len _ _ K)); done).
    change (st (upd i (set_state State.Running) (upd i (set_cpu (Z.of_nat c)) s)) i = State.Running). rewrite st_set_state, Z.eqb_refl; [done|]. by apply has_upd.
Qed.

Lemma append_tables th s : current_thread (append_ready th s) = current_thread s /\ idle_thread (append_ready th s) = idle_thread s.
Proof. unfold append_ready. by destruct (Enqueue_tables th (upd th (set_state State.Ready) s)) as [(A & B & _) _]. Qed.

Lemma sched_others pre s s' : sched_safe s -> kernel_step pre s s' -> sched_safe s' /\ (forall p, on_lock s' p <-> on_lock s p) /\
  (forall p, may_block s p -> may_block s' p) /\
  (forall c, (c < n)%nat -> cur s' c = cur s c \/ (pre c \/ cur s c = 0) /\ ~ on_lock s' (cur s' c)).
Proof.
  intros [SI R] Hk. destruct Hk as [c omit o s s' Hpre Hc Hz Hset E|th r s Hh Hn Hr Hrl Hpw|th r s Hh Hn Hrl|th s Hh Hn Hst|c s s' Hc Hcur Hout E].
  - pose proof (Schedule_calm D omit c s o s' Hset E) as C. pose proof (Reasons_calm s s' C R) as R'. pose proof SI as (rq & eq & SY & RU).
    destruct (Schedule_spec n D s rq eq c omit SY Hc Hz Hset (RU c Hc)) as (o' & s2 & rq' & eq' & E' & X). rewrite E in E'. injection E' as <- <-.
    split; [split; [by eapply Schedule_step|done]|]. split; [intros p; by apply on_lock_calm|]. split; [apply (may_block_calm s s' C), X|].
    intros d Hd. destruct (decide (d = c)) as [->|Hdc]; [right|left; by apply X]. split; [by left|]. apply running_not_on_lock; [done|apply X].
  - pose proof Hh as [_ Hs]. destruct (Block_reasons th r s Hs Hr (or_introl (conj Hrl Hpw)) R) as [R' O']. destruct (Block_tables th r s) as (T1 & T2 & T3).
    split; [split; [by apply Block_step|done]|]. split; [|split; [apply may_block_frame; [done|done|]; intros p; by apply Block_live|]].
    + intros p. rewrite O'. destruct (decide (p = th)); [|done]. enough (r <> BR_Lock) by tauto. intros ->. done.
    + intros d Hd. left. unfold cur. by rewrite T1.
  - pose proof Hh as [_ Hs]. destruct (Unblock_reasons th r s Hs (or_introl Hrl) R) as [R' O']. destruct (Unblock_tables th r s) as (T1 & T2 & T3).
    split; [split; [by apply Unblock_step|done]|]. split; [|split; [apply may_block_frame; [done|done|]; intros p; by apply Unblock_live|]].
    + intros p. rewrite O'. destruct (decide (p = th)); [|done]. enough (r <> BR_Lock) by tauto. intros ->. done.
    + intros d Hd. left. unfold cur. by rewrite T1.
  - pose proof (append_calm th s Hst) as C. destruct (append_tables th s) as [T1 T2].
    split; [split; [by apply append_step|by apply (Reasons_calm s)]|]. split; [intros p; by apply on_lock_calm|]. split; [by apply may_block_calm|].
    intros d Hd. left. unfold cur. by rewrite T1.
  - destruct (start_calm c s s' SI Hc E) as (C & Hi & Hd & Hrun). pose proof (Reasons_calm s s' C R) as R'.
    split; [split; [by eapply start_step|done]|]. split; [intros p; by apply on_lock_calm|]. split; [by apply may_block_calm|].
    intros d Hlt. destruct (decide (d = c)) as [->|Hdc]; [right|left; by apply Hd]. split; [by right|]. by apply running_not_on_lock.
Qed.

Lemma sched_awake s t : sched_safe s -> may_block s t -> ~ on_lock s t ->
  (st s t = State.Ready \/ st s t = State.Running) \/ (block_reason (thread s t) <> 0 /\ ~ on_lock s t).
Proof.
  intros [_ R] (_ & _ & [E|[E|E]]) Hn; [left; tauto|left; tauto|right]. split; [by apply (rn_pended _ R)|done].
Qed.

Lemma may_block_nonzero s t : may_block s t -> t <> 0.
Proof. by intros ([Hz _] & _). Qed.
Lemma cur_inj s c d : sched_safe s -> (c < n)%nat -> (d < n)%nat -> cur s c = cur s d -> cur s c <> 0 -> c = d.
Proof. intros [(rq & eq & SY & _) _] Hc Hd E Hz. by apply (cp_cur_inj _ _ (sys_cpus _ _ _ _ SY)). Qed.

#[global] Instance sched_sleeping_laws : SleepingLaws Sched := {
  cpus := n;
  sched_ok := sched_safe;
  settled := settles;
  sleeper := may_block;
  waits := on_lock;
  runnable s t := st s t = State.Ready \/ st s t = State.Running;
  blocked_else s t := block_reason (thread s t) <> 0 /\ ~ on_lock s t;
  others := kernel_step;
  sleeper_nonzero := may_block_nonzero;
  current_inj := cur_inj;
  block_law := sched_block;
  unblock_law := sched_unblock;
  sleep_law := sched_sleep;
  others_law := sched_others;
  awake_law := sched_awake;
}.
End Instance_.
