(* ===== verification/LocksWitness.v ===== *)
(** * Two processors and a mutex

    A run of the locks on the scheduler of [Sched]: thread 2 takes mutex 0 on the first processor,
    thread 5 falls asleep on it on the second, thread 2 releases it; and a semaphore of one unit. *)
From S2P Require Import Prelude Sched SchedProof SchedSwitch SchedSys SchedClaims SchedReasons Locks LocksProof LocksStep LocksClaims LocksSched.

Module LocksWitness.
Import SchedWitness.

#[local] Instance ListQueue : WaitQueue (list Z) := {
  wq_new := [];
  wq_empty q := match q with [] => true | _ => false end;
  wq_enqueue t q := q ++ [t];
  wq_dequeue q := match q with [] => (0, []) | t :: q => (t, q) end;
}.
#[local, refine] Instance ListQueueLaws : WaitQueueLaws (list Z) := { wq_list q := q }.
Proof. - done. - by intros [|]. - done. - by intros q t l ->. Defined.

(** Lock 0 is a mutex, the others are semaphores with one unit. *)
#[local] Instance Types : LockTypes := { kind k := if k =? 0 then Mutex else Semaphore; initial k := if k =? 0 then 0 else 1 }.
#[local] Instance Machine : Sleeping Sched := sched_sleeping D.
#[local] Instance MachineLaws : SleepingLaws Sched := sched_sleeping_laws 2 D.

(** Reasons of a concrete state. *)
Definition reasons_check (t : ThreadBlock) : bool :=
  (negb (lock_bit (block_reason t)) || bool_decide (state t = State.Pended)) && negb (lock_bit (pending_wake t)) &&
  (negb (bool_decide (state t = State.Pended)) || negb (block_reason t =? 0)).

Lemma reasons_eval s : forallb (fun x => reasons_check x.2) (map_to_list (heap s)) = true -> Reasons s.
Proof.
  rewrite forallb_forall. intros Hf. assert (forall p, reasons_check (thread s p) = true) as Hc.
  { intros p. unfold thread. destruct (heap s !! p) as [t|] eqn:E; [|done]. apply (Hf (p, t)), list_elem_of_In. by apply elem_of_map_to_list. }
  unfold reasons_check in Hc. constructor; intros p; specialize (Hc p); rewrite !andb_true_iff, !orb_true_iff, !negb_true_iff in Hc.
  - intros Hb. destruct Hc as [[[Hc|Hc] _] _]; [congruence|]. by apply bool_decide_eq_true in Hc.
  - tauto.
  - intros Hp. destruct Hc as [_ [Hc|Hc]]; [by apply bool_decide_eq_false in Hc|]. by apply Z.eqb_neq in Hc.
Qed.

Definition w0 : World (list Z) Sched := MkWorld s4 [true; true] ∅ ∅ [] ∅ ∅.

Lemma w0_start : lock_start w0.
Proof.
  constructor.
  - split; [apply SysI_run, step_s4|]. apply reasons_eval. vm_compute. reflexivity.
  - reflexivity.
  - by split_and!.
  - intros k. unfold kind, initial, Types. destruct (k =? 0); lia.
Qed.

Definition go (c : nat) (w : World (list Z) Sched) : World (list Z) Sched := default w (advance c w).

(** Thread 2 acquires the mutex. *)
Definition w1 := begin 0 (Acquire 0) w0.
Definition w2 := go 0 w1.
Definition w3 := go 0 w2.
(** Thread 5 waits for it. *)
Definition w4 := begin 1 (Acquire 0) w3.
Definition w5 := go 1 w4.
Definition w6 := go 1 w5.
Definition w7 := go 1 w6.
Definition w8 := go 1 w7.
(** Thread 2 releases it and wakes thread 5. *)
Definition w9 := begin 0 (Release 0) w8.
Definition w10 := go 0 w9.
Definition w11 := go 0 w10.
Definition w12 := go 0 w11.

Lemma may_block_eval s t : negb (t =? 0) && (match heap s !! t with Some _ => true | None => false end) && forallb (fun c => negb (idl s c =? t)) (seq 0 2)
  && (bool_decide (st s t = State.Running) || bool_decide (st s t = State.Ready) || bool_decide (st s t = State.Pended)) = true -> may_block 2 s t.
Proof.
  rewrite !andb_true_iff, !orb_true_iff, !bool_decide_eq_true. intros [[[Hz Hh] Hi] Hl]. split; [apply has_eval; by rewrite Hz, Hh|].
  split; [by apply not_idle_eval|]. unfold live. tauto.
Qed.

Lemma advance_eval c w : (c < 2)%nat -> settles (sched w) c -> bool_decide (is_Some (advance c w)) = true -> lock_reachable w -> lock_reachable (go c w).
Proof.
  intros Hc Hs Ha R. apply bool_decide_eq_true in Ha as [w' E]. unfold go. rewrite E. eapply reach_step; [exact R|]. by eapply (step_advance c).
Qed.

Ltac step_tac := apply advance_eval; [lia|apply not_settling; vm_compute; reflexivity|vm_compute; reflexivity|].

Lemma w3_reachable : lock_reachable w3.
Proof.
  unfold w3. step_tac. unfold w2. step_tac. eapply reach_step; [apply reach_start, w0_start|].
  apply (step_begin 0 (Acquire 0) w0); [cbn; lia|vm_compute; discriminate|vm_compute; reflexivity|]. apply may_block_eval. vm_compute. reflexivity.
Qed.
Lemma w8_reachable : lock_reachable w8.
Proof.
  unfold w8. step_tac. unfold w7. step_tac. unfold w6. step_tac. unfold w5. step_tac. eapply reach_step; [exact w3_reachable|].
  apply (step_begin 1 (Acquire 0) w3); [cbn; lia|vm_compute; discriminate|vm_compute; reflexivity|]. apply may_block_eval. vm_compute. reflexivity.
Qed.
Lemma w10_reachable : lock_reachable w10.
Proof.
  unfold w10. step_tac. eapply reach_step; [exact w8_reachable|].
  assert (lock_step w8 (begin 0 (Release 0) w8)) as Hst; [|exact Hst].
  apply step_begin.
  - cbn; lia.
  - vm_compute; discriminate.
  - vm_compute; reflexivity.
  - intros _.
    assert (held w8 = [(0, 2)]) as -> by (vm_compute; reflexivity).
    assert (current (sched w8) 0 = 2) as -> by (vm_compute; reflexivity). left.
Qed.

Lemma exclusion_witness : (0, 2) ∈ held w8 /\ forall t, (0, t) ∈ held w8 -> t = 2.
Proof.
  assert ((0, 2) ∈ held w8) as H2 by (vm_compute; left). split; [exact H2|]. intros t Ht.
  destruct (lock_mutual_exclusion w8 w8_reachable) as (Hm & _). exact (Hm 0 t 2 eq_refl Ht H2).
Defined.

Lemma sleeper_witness : pc w8 5 = Asleep 0 true /\ (waits (sched w8) 5 \/ runnable (sched w8) 5 \/ blocked_else (sched w8) 5).
Proof.
  assert (pc w8 5 = Asleep 0 true) as Hp by (vm_compute; reflexivity). split; [exact Hp|].
  destruct (sleepers_are_woken w8 5 0 true w8_reachable Hp) as [(H & _)|[(H & _)|(_ & _ & H)]]; [left; exact H|left; exact H|right; exact H].
Defined.

Lemma advance_w10 : advance 0 w10 = Some w11.
Proof.
  unfold w11, go. destruct (advance 0 w10) eqn:E; [reflexivity|]. exfalso. assert (bool_decide (is_Some (advance 0 w10)) = true) as H by (vm_compute; reflexivity).
  rewrite E in H. discriminate.
Qed.

Lemma handoff_witness : target (pc w11 2) = Some 5 /\ waiters w11 0 = [].
Proof.
  assert (current (sched w10) 0 = 2) as Hc by (vm_compute; reflexivity).
  pose proof (lock_handoff w10 w11 0 0 true w10_reachable (le_S 1 1 (le_n 1)) advance_w10) as H. cbv zeta in H. rewrite Hc in H. destruct H as (_ & _ & H & _).
  destruct (H ltac:(vm_compute; reflexivity) 5 [] ltac:(vm_compute; reflexivity)) as (H1 & H2 & _). exact (conj H1 H2).
Defined.



End LocksWitness.
