(* ===== verification/Futex.v ===== *)
(** * Futexes ([mecocoa/threads.cpp], lines 301-354)

    A thread of a process waits on a user address while the word there has an expected value; another
    thread of the process wakes waiters of the address.  Both sides run under the scheduler lock,
    except that the threads found by a wake-up are unblocked after the lock was released. *)
From S2P Require Import Prelude Sched SchedProof SchedSwitch SchedSys SchedReasons LocksSched.

(** [targets[64]] *)
Definition FutexTargets : nat := 64.

(** The scheduler, [Taskman::thchain], and two more fields of the threads. *)
Record FutexState := MkFutex {
  fsched : Sched;
  thchain : list Z;
  parent_process : gmap Z Z;
  futex_wait_addr : gmap Z Z;
}.
Definition process (s : FutexState) (t : Z) : Z := default 0 (parent_process s !! t).
Definition wait_addr (s : FutexState) (t : Z) : Z := default 0 (futex_wait_addr s !! t).
Definition set_addr (t a : Z) (s : FutexState) : FutexState :=
  MkFutex (fsched s) (thchain s) (parent_process s) (<[t := a]> (futex_wait_addr s)).
Definition set_fsched (x : Sched) (s : FutexState) : FutexState := MkFutex x (thchain s) (parent_process s) (futex_wait_addr s).

Section Futex.
(** The 32-bit word of user memory that [MccaMemCopyP] reads. *)
Context (user_word : Z -> Z -> Z).

(** FUTEX_WAIT up to the call of [Schedule(true)]: [false] when the word has another value. *)
Definition futex_wait (th pb addr val : Z) (s : FutexState) : bool * FutexState :=
  if negb (user_word pb addr =? val mod 2 ^ 32) then (false, s) else
  let s := set_addr th addr s in
  let x := DequeueReady th (fsched s) in
  let x := upd th (set_state State.Pended) x in
  let x := upd th (fun t => set_reasons (Z.lor (block_reason t) BR_Lock) (pending_wake t) t) x in
  (true, set_fsched x s).

(** The conditions of the loop over [thchain]. *)
Definition is_waiter (pb addr : Z) (s : FutexState) (t : Z) : bool :=
  (process s t =? pb) && bool_decide (state (thread (fsched s) t) = State.Pended) &&
  truthy (Z.land (block_reason (thread (fsched s) t)) BR_Lock) && (wait_addr s t =? addr).

(** The loop under the scheduler lock: the number of threads found, and those that were kept. *)
Fixpoint collect (chain : list Z) (pb addr val woken : Z) (targets : list Z) (s : FutexState) : Z * list Z * FutexState :=
  match chain with
  | [] => (woken, targets, s)
  | t :: rest =>
    if negb (is_waiter pb addr s t) then collect rest pb addr val woken targets s else
    let s := set_addr t 0 s in
    let targets := if (length targets <? FutexTargets)%nat then targets ++ [t] else targets in
    if val <=? woken + 1 then (woken + 1, targets, s)
    else collect rest pb addr val (woken + 1) targets s
  end.

(** FUTEX_WAKE *)
Definition futex_wake (pb addr val : Z) (s : FutexState) : Z * FutexState :=
  if val =? 0 then (0, s) else
  let '(woken, targets, s) := collect (thchain s) pb addr val 0 [] s in
  (woken, set_fsched (foldl (fun x t => Unblock t BR_Lock x) (fsched s) targets) s).

(** [Taskman::Futex], on processor [cpuid]; [None] is a failure of the scheduler. *)
Definition Futex (D : Z -> Sched -> Sched) (cpuid : nat) (addr op val : Z) (s : FutexState) : option (Z * FutexState) :=
  let th := current_thread (fsched s) !!! cpuid in
  let pb := process s th in
  if (th =? 0) || (pb =? 0) then Some (-1, s)
  else if op =? 0 then
    match futex_wait th pb addr val s with
    | (false, s) => Some (-1, s)
    | (true, s) => '(_, x) ← Schedule D true cpuid (fsched s); Some (0, set_fsched x s)
    end
  else if op =? 1 then Some (futex_wake pb addr val s)
  else Some (-1, s).

End Futex.

(** ** The loop *)

Lemma is_waiter_set pb addr s t u a : u <> t -> is_waiter pb addr (set_addr u a s) t = is_waiter pb addr s t.
Proof. intros Hn. unfold is_waiter, wait_addr, set_addr. cbn. by rewrite lookup_insert_ne. Qed.

Definition clear_addrs (l : list Z) (s : FutexState) : FutexState := foldl (fun s t => set_addr t 0 s) s l.

Lemma clear_addrs_view l : forall s, fsched (clear_addrs l s) = fsched s /\ thchain (clear_addrs l s) = thchain s /\
  parent_process (clear_addrs l s) = parent_process s /\ (forall t, wait_addr (clear_addrs l s) t = if decide (t ∈ l) then 0 else wait_addr s t).
Proof.
  induction l as [|u l IH]; intros s; cbn [clear_addrs foldl].
  { split_and!; try done. }
  destruct (IH (set_addr u 0 s)) as (A & B & C & E). split_and!; try done. intros t. fold (clear_addrs l (set_addr u 0 s)). rewrite E.
  destruct (decide (t ∈ l)) as [Hi|Hn]; [rewrite decide_True by (by right); done|]. destruct (decide (t ∈ u :: l)) as [Hi|Hn'].
  - apply elem_of_cons in Hi as [->|]; [|done]. unfold wait_addr, set_addr. cbn. by rewrite lookup_insert_eq.
  - unfold wait_addr, set_addr. cbn. rewrite lookup_insert_ne; [done|]. intros ->. apply Hn'. by left.
Qed.

(** The threads that the loop finds: the first [val - woken] waiters of the chain. *)
Lemma collect_spec chain pb addr val : forall woken targets s, NoDup chain -> 0 <= woken < val ->
  let found := take (Z.to_nat (val - woken)) (List.filter (is_waiter pb addr s) chain) in
  collect chain pb addr val woken targets s =
    (woken + Z.of_nat (length found), targets ++ take (FutexTargets - length targets) found, clear_addrs found s).
Proof.
  induction chain as [|t rest IH]; intros woken targets s Hnd Hw found.
  { unfold found. cbn [collect List.filter]. rewrite take_nil. cbn. rewrite take_nil, app_nil_r. do 2 f_equal. lia. }
  apply NoDup_cons in Hnd as [Ht Hnd]. cbn [collect]. unfold found. cbn [List.filter]. destruct (is_waiter pb addr s t) eqn:Ew; cbn [negb]; [|by apply IH].
  assert (List.filter (is_waiter pb addr (set_addr t 0 s)) rest = List.filter (is_waiter pb addr s) rest) as Ef.
  { clear -Ht. induction rest as [|u rest IHr]; [done|]. apply not_elem_of_cons in Ht as [H1 H2]. cbn. rewrite is_waiter_set by done. by rewrite IHr. }
  assert (forall f, targets ++ take (FutexTargets - length targets) (t :: f) =
    (if (length targets <? FutexTargets)%nat then targets ++ [t] else targets) ++ take (FutexTargets - length (if (length targets <? FutexTargets)%nat then targets ++ [t] else targets)) f) as Hta.
  { intros f. destruct (length targets <? FutexTargets)%nat eqn:El.
    - rewrite length_app. cbn [length]. replace (FutexTargets - length targets)%nat with (S (FutexTargets - (length targets + 1))) by lia. cbn. by rewrite <- app_assoc.
    - replace (FutexTargets - length targets)%nat with 0%nat by lia. by rewrite !take_0. }
  destruct (val <=? woken + 1) eqn:Ev.
  - replace (Z.to_nat (val - woken)) with 1%nat by lia. rewrite firstn_cons, take_0. cbn [length clear_addrs foldl]. rewrite Hta, take_nil, app_nil_r. done.
  - replace (Z.to_nat (val - woken)) with (S (Z.to_nat (val - (woken + 1)))) by lia. rewrite firstn_cons. rewrite IH by (done || lia). rewrite Ef.
    set (f := take (Z.to_nat (val - (woken + 1))) _). rewrite Hta. cbn [length clear_addrs foldl]. do 2 f_equal. lia.
Qed.

(** ** Unblocking the targets *)

(** A thread that is blocked, after [Unblock(BR_Lock)]. *)
Definition after_wake (t : ThreadBlock) : State.t * (Z * Z) :=
  let br := Z.ldiff (block_reason t) BR_Lock in ((if br =? 0 then State.Ready else State.Pended), (br, pending_wake t)).

Lemma unblock_all l : forall x, NoDup l -> (forall t, t ∈ l -> is_Some (heap x !! t) /\ st x t = State.Pended) ->
  let x' := foldl (fun x t => Unblock t BR_Lock x) x l in
  (forall t, t ∉ l -> vis (thread x' t) = vis (thread x t)) /\ (forall t, t ∈ l -> vis (thread x' t) = after_wake (thread x t)).
Proof.
  induction l as [|u l IH]; intros x Hnd Hall; [split; [done|intros t Ht; by apply elem_of_nil in Ht]|]. apply NoDup_cons in Hnd as [Hu Hnd]. cbn [foldl].
  destruct (Hall u) as [Hex Hpe]; [by left|]. destruct (Unblock_tables u BR_Lock x) as (_ & _ & Hh).
  assert (forall t, t ∈ l -> vis (thread (Unblock u BR_Lock x) t) = vis (thread x t)) as Ho by (intros t Ht; apply Unblock_other; intros ->; done).
  destruct (IH (Unblock u BR_Lock x) Hnd) as [I1 I2].
  { intros t Ht. destruct (Hall t) as [A B]; [by right|]. split; [by apply Hh|]. destruct (vis_reasons _ _ _ (Ho t Ht)) as (-> & _). done. }
  split.
  - intros t Ht. apply not_elem_of_cons in Ht as [Htu Htl]. rewrite I1 by done. by apply Unblock_other.
  - intros t Ht. apply elem_of_cons in Ht as [->|Ht].
    + rewrite I1 by done. rewrite Unblock_self by done. unfold st in Hpe. rewrite Hpe. unfold after_wake. by destruct (_ =? 0).
    + rewrite I2 by done. unfold after_wake. destruct (vis_reasons _ _ _ (Ho t Ht)) as (_ & -> & ->). done.
Qed.

(** ** Promises *)

(** The waiters a wake-up with limit [val] is meant for. *)
Definition meant (pb addr val : Z) (s : FutexState) : list Z := take (Z.to_nat val) (List.filter (is_waiter pb addr s) (thchain s)).

Lemma filter_nodup (f : Z -> bool) l : NoDup l -> NoDup (List.filter f l).
Proof.
  induction 1 as [|x l Hx Hl IH]; cbn; [constructor|]. destruct (f x); [|done]. constructor; [|done]. rewrite list_elem_of_In, filter_In. intros [Hi _]. by apply Hx, list_elem_of_In.
Qed.
Lemma meant_nodup pb addr val s : NoDup (thchain s) -> NoDup (meant pb addr val s).
Proof. intros Hn. eapply sublist_NoDup; [by apply filter_nodup|apply sublist_take]. Qed.
Lemma meant_waiter pb addr val s t : t ∈ meant pb addr val s -> t ∈ thchain s /\ is_waiter pb addr s t = true.
Proof. intros Ht. apply elem_of_take in Ht as (i & Hi & _). apply list_elem_of_lookup_2, list_elem_of_In, filter_In in Hi as [A B]. split; [by apply list_elem_of_In|done]. Qed.

Lemma wake_runs pb addr val s : NoDup (thchain s) -> (forall t, t ∈ thchain s -> is_Some (heap (fsched s) !! t)) -> 0 < val ->
  let found := meant pb addr val s in exists s', futex_wake pb addr val s = (Z.of_nat (length found), s') /\ thchain s' = thchain s /\ parent_process s' = parent_process s /\
    (forall t, wait_addr s' t = if decide (t ∈ found) then 0 else wait_addr s t) /\
    (forall t, t ∉ take FutexTargets found -> vis (thread (fsched s') t) = vis (thread (fsched s) t)) /\
    (forall t, t ∈ take FutexTargets found -> vis (thread (fsched s') t) = after_wake (thread (fsched s) t)).
Proof.
  intros Hnd Hex Hv found. unfold futex_wake. rewrite (proj2 (Z.eqb_neq val 0)) by lia. rewrite collect_spec by (done || lia). cbn [length app]. rewrite Z.sub_0_r, Nat.sub_0_r, Z.add_0_l.
  fold (meant pb addr val s). fold found. destruct (clear_addrs_view found s) as (A & B & C & E). eexists. split; [done|]. split; [done|]. split; [done|]. split; [exact E|].
  cbn [fsched set_fsched]. rewrite A. apply unblock_all.
  - eapply sublist_NoDup; [by apply (meant_nodup pb addr val s)|apply sublist_take].
  - intros t Ht. apply elem_of_take in Ht as (i & Hi & _). apply list_elem_of_lookup_2, meant_waiter in Hi as [Hc Hw]. split; [by apply Hex|].
    unfold is_waiter in Hw. rewrite !andb_true_iff, bool_decide_eq_true in Hw. unfold st. tauto.
Qed.

(** A wake-up of at most 64 waiters wakes exactly the first [val] threads of the process that wait
    on the address, in the order of the thread chain, and returns their number: each of them loses
    the reason, becomes ready unless it is blocked for something else, and no longer waits on the
    address; every other thread is as before. *)
Theorem futex_wake_correct pb addr val s : NoDup (thchain s) -> (forall t, t ∈ thchain s -> is_Some (heap (fsched s) !! t)) -> 0 < val ->
  (length (meant pb addr val s) <= FutexTargets)%nat ->
  exists s', futex_wake pb addr val s = (Z.of_nat (length (meant pb addr val s)), s') /\
    (forall t, t ∈ meant pb addr val s -> wait_addr s' t = 0 /\ vis (thread (fsched s') t) = after_wake (thread (fsched s) t)) /\
    (forall t, t ∉ meant pb addr val s -> wait_addr s' t = wait_addr s t /\ vis (thread (fsched s') t) = vis (thread (fsched s) t)).
Proof.
  intros Hnd Hex Hv Hlen. destruct (wake_runs pb addr val s Hnd Hex Hv) as (s' & E & _ & _ & Ha & Hn & Hy). rewrite take_ge in Hn, Hy by done.
  exists s'. split; [done|]. split; intros t Ht; (split; [|auto]); rewrite Ha; [by rewrite decide_True|by rewrite decide_False].
Qed.

(** No wake-up is lost between a wait and a wake.  A wait that finds another value changes
    nothing.  A wait that finds its value blocks the thread as a waiter of the address in the same
    critical section; so a wake-up that comes later, of the same process and address and not used up
    by waiters before it in the chain, makes the thread ready again, if nothing else blocks it. *)
Theorem futex_no_lost_wakeup user_word th pb addr val s ok s1 n : process s th = pb -> is_Some (heap (fsched s) !! th) ->
  NoDup (thchain s) -> (forall t, t ∈ thchain s -> is_Some (heap (fsched s) !! t)) ->
  futex_wait user_word th pb addr val s = (ok, s1) ->
  (ok = false -> s1 = s /\ user_word pb addr <> val mod 2 ^ 32) /\
  (ok = true -> is_waiter pb addr s1 th = true /\ st (fsched s1) th = State.Pended /\
    (0 < n -> th ∈ take FutexTargets (meant pb addr n s1) -> block_reason (thread (fsched s) th) = 0 ->
     exists k s2, futex_wake pb addr n s1 = (k, s2) /\ st (fsched s2) th = State.Ready /\ wait_addr s2 th = 0)).
Proof.
  intros Hp Hh Hnd Hex. unfold futex_wait. destruct (user_word pb addr =? val mod 2 ^ 32) eqn:Ev; cbn [negb]; intros [= <- <-].
  2: { split; [|done]. intros _. split; [done|lia]. }
  split; [done|]. intros _. set (x1 := DequeueReady th (fsched s)). set (x2 := upd th (set_state State.Pended) x1). set (x3 := upd th _ x2).
  set (s1 := set_fsched x3 (set_addr th addr s)).
  assert (is_Some (heap x1 !! th) /\ is_Some (heap x2 !! th)) as [H1 H2] by (assert (is_Some (heap x1 !! th)) by (by apply Dequeue_exists); split; [done|by apply upd_exists]).
  assert (thread x3 th = set_reasons (Z.lor (block_reason (thread x1 th)) BR_Lock) (pending_wake (thread x1 th)) (set_state State.Pended (thread x1 th))) as Et.
  { unfold x3. rewrite thread_upd_self by done. unfold x2. by rewrite thread_upd_self. }
  assert (st x3 th = State.Pended) as Hst by (unfold st; by rewrite Et).
  assert (Z.land (block_reason (thread x3 th)) BR_Lock <> 0) as Hbit by (rewrite Et; cbn; rewrite land_lock, lor_lock; done).
  split; [|split; [done|]].
  - unfold is_waiter. rewrite !andb_true_iff, bool_decide_eq_true. unfold truthy. cbn [fsched s1 set_fsched]. split_and!.
    + change (process s1 th) with (process s th). lia.
    + exact Hst.
    + by rewrite (proj2 (Z.eqb_neq _ 0) Hbit).
    + unfold wait_addr. cbn. rewrite lookup_insert_eq. cbn. lia.
  - intros Hn Hin Hb. assert (forall t, t ∈ thchain s1 -> is_Some (heap (fsched s1) !! t)) as Hex1.
    { intros t Ht. change (fsched s1) with x3. apply upd_exists, upd_exists, Dequeue_exists. by apply Hex. }
    destruct (wake_runs pb addr n s1 Hnd Hex1 Hn) as (s2 & E & _ & _ & Ha & _ & Hy). eexists _, s2. split; [exact E|]. specialize (Hy th Hin). split.
    + unfold after_wake, vis in Hy. cbn [fsched s1 set_fsched] in Hy. rewrite Et in Hy. cbn [block_reason set_reasons set_state pending_wake] in Hy.
      destruct (vis_reasons _ _ _ (DequeueReady_vis th (fsched s) th)) as (_ & Hbr & _). fold x1 in Hbr. rewrite Hbr, Hb in Hy.
      rewrite Z.lor_0_l, Z.ldiff_diag in Hy. cbn in Hy. unfold st. by injection Hy as ->.
    + rewrite Ha. rewrite decide_True; [done|]. apply elem_of_take in Hin as (i & Hi & _). by eapply list_elem_of_lookup_2.
Qed.

(** A wake-up of more than 64 waiters counts all of them and forgets the address of all of them, but
    unblocks only the first 64: the others stay blocked, and no later wake-up of any address but 0
    finds them. *)
Theorem futex_wake_loses_waiters pb addr val s t i : NoDup (thchain s) -> (forall t, t ∈ thchain s -> is_Some (heap (fsched s) !! t)) -> 0 < val ->
  meant pb addr val s !! i = Some t -> (FutexTargets <= i)%nat ->
  exists s', futex_wake pb addr val s = (Z.of_nat (length (meant pb addr val s)), s') /\
    vis (thread (fsched s') t) = vis (thread (fsched s) t) /\ forall a, a <> 0 -> is_waiter pb a s' t = false.
Proof.
  intros Hnd Hex Hv Hi Hge. destruct (wake_runs pb addr val s Hnd Hex Hv) as (s' & E & _ & _ & Ha & Hn & _). exists s'. split; [done|]. split.
  - apply Hn. intros Hin. apply elem_of_take in Hin as (j & Hj & Hlt). assert (i = j); [|lia].
    by eapply NoDup_lookup; [apply (meant_nodup pb addr val s Hnd)|exact Hi|exact Hj].
  - intros a Hz. unfold is_waiter. rewrite Ha, decide_True by (by eapply list_elem_of_lookup_2). rewrite (proj2 (Z.eqb_neq 0 a)) by done. by rewrite andb_false_r.
Qed.
