(* ===== verification/FutexWitness.v ===== *)
(** * Futexes on a running machine

    Concrete runs of wait and wake; and what a wake-up of the address 0 does to a thread that sleeps
    in a mutex. *)
From S2P Require Import Prelude Sched SchedProof SchedSwitch SchedSys SchedClaims SchedReasons Locks LocksProof LocksClaims LocksSched LocksWitness Futex.

Module FutexWitness.
Import SchedWitness LocksWitness.
#[local] Existing Instance ListQueue.
#[local] Existing Instance Types.
#[local] Existing Instance Machine.

(** Threads 2 and 5 of process 100; the user word at 0x1000 is 7. *)
Definition user_word (pb addr : Z) : Z := if addr =? 0x1000 then 7 else 0.
Definition f0 : FutexState := MkFutex s4 [1; 2; 5] (<[2 := 100]> (<[5 := 100]> ∅)) ∅.
Definition f1 : FutexState := (futex_wait user_word 5 100 0x1000 7 f0).2.

Lemma f1_waits : futex_wait user_word 5 100 0x1000 7 f0 = (true, f1).
Proof. vm_compute. reflexivity. Qed.

Lemma chain_eval s l : forallb (fun t => match heap (fsched s) !! t with Some _ => true | None => false end) l = true ->
  forall t, t ∈ l -> is_Some (heap (fsched s) !! t).
Proof. rewrite forallb_forall. intros Hf t Ht%list_elem_of_In%Hf. by destruct (heap (fsched s) !! t). Qed.

Lemma nodup_chain : NoDup [1; 2; 5].
Proof. apply (bool_decide_unpack _). vm_compute. exact I. Qed.

Lemma wake_witness : exists s', futex_wake 100 0x1000 3 f1 = (1, s') /\ wait_addr s' 5 = 0.
Proof.
  destruct (futex_wake_correct 100 0x1000 3 f1) as (s' & E & Hy & _).
  - exact nodup_chain.
  - apply chain_eval. vm_compute. reflexivity.
  - lia.
  - apply Nat.leb_le. vm_compute. reflexivity.
  - exists s'. assert (meant 100 0x1000 3 f1 = [5]) as Em by (vm_compute; reflexivity). rewrite Em in E, Hy. split; [exact E|]. apply (Hy 5). left.
Defined.

Lemma handshake_witness : exists k s2, futex_wake 100 0x1000 1 f1 = (k, s2) /\ st (fsched s2) 5 = State.Ready.
Proof.
  destruct (futex_no_lost_wakeup user_word 5 100 0x1000 7 f0 true f1 1) as [_ H].
  - vm_compute. reflexivity.
  - apply (chain_eval f0 [5]); [vm_compute; reflexivity|left].
  - exact nodup_chain.
  - apply (chain_eval f0 [1; 2; 5]). vm_compute. reflexivity.
  - exact f1_waits.
  - destruct (H eq_refl) as (_ & _ & H2). destruct H2 as (k & s2 & E & Hs & _); [lia| |vm_compute; reflexivity|exists k, s2; exact (conj E Hs)].
    assert (take FutexTargets (meant 100 0x1000 1 f1) = [5]) as -> by (vm_compute; reflexivity). left.
Defined.

(** Thread 5 sleeps in the mutex that thread 2 holds ([w8]).  Its futex address is 0, and its reason is
    [BR_Lock], so a wake-up of the address 0 by a thread of its process unblocks it; scheduled, it
    returns from [Acquire], and two threads hold the mutex. *)
Definition woken : FutexState := (futex_wake 100 0 1 (MkFutex (sched w8) [1; 2; 5] (<[2 := 100]> (<[5 := 100]> ∅)) ∅)).2.
Definition broken : World (list Z) Sched := go 1 (with_sched (result s4 (Schedule D true 1 (fsched woken))) w8).

Theorem futex_zero_breaks_mutex : (0, 2) ∈ held w8 /\ held broken = (0, 5) :: held w8.
Proof. split; [|vm_compute; reflexivity]. assert (held w8 = [(0, 2)]) as -> by (vm_compute; reflexivity). left. Qed.

End FutexWitness.
