(* ===== verification/Vtd.v ===== *)
(** * The DMA remapping unit ([mecocoa/memoman-iova.cpp])

    The driver of the Intel VT-d unit: register access, the invalidation queue, interrupt
    remapping, and the root and context tables that attach PCI requesters to a translation.  The
    unit itself is hardware: a parameter that answers register reads and writes in any way.  Memory
    is a map of 64-bit words by address, as the driver reads and writes them; the tables the unit
    walks live in it.  This file holds the operations; [VtdProof] and [IovaProof] prove them.

    The code is written with early returns over global state; here it is a state monad. *)
From S2P Require Import Prelude Interfaces.

(** The remapping unit.  [hw_read] and [hw_write] access the 32-bit register at an offset from the
    register base; [hw_poll] is a volatile read of a word in memory that the unit may have written:
    it is given the address and the value that was last stored there. *)
Class VtdUnit (HW : Type) := {
  hw_read : HW -> Z -> Z -> Z * HW;
  hw_write : HW -> Z -> Z -> Z -> HW;
  hw_poll : HW -> Z -> Z -> Z * HW;
}.

Definition u32 (x : Z) : Z := x mod 2 ^ 32.
Definition u64 (x : Z) : Z := x mod two64.
(** [uint64(1) << n] *)
Definition bit64 (n : Z) : Z := Z.shiftl 1 n.

(** ** Registers and their bits *)

Definition VtdVersionRegister : Z := 0x00.
Definition VtdCapabilityRegister : Z := 0x08.
Definition VtdExtendedCapabilityRegister : Z := 0x10.
Definition VtdGlobalCommandRegister : Z := 0x18.
Definition VtdGlobalStatusRegister : Z := 0x1C.
Definition VtdRootTableAddressRegister : Z := 0x20.
Definition VtdContextCommandRegister : Z := 0x28.
Definition VtdFaultStatusRegister : Z := 0x34.
Definition VtdInvalidationQueueHeadRegister : Z := 0x80.
Definition VtdInvalidationQueueTailRegister : Z := 0x88.
Definition VtdInvalidationQueueAddressRegister : Z := 0x90.
Definition VtdInterruptRemappingTableAddressRegister : Z := 0xB8.
Definition VtdRegisterWindowLength : Z := 0xC0.
Definition VtdPageAddressMask : Z := 0xFFFFFFFFFFFFF000.

(** The command bits and the status bits that report them are at the same positions. *)
Definition TranslationEnable : Z := bit64 31.
Definition SetRoot : Z := bit64 30.
Definition QueuedInvalidation : Z := bit64 26.
Definition InterruptRemapping : Z := bit64 25.
Definition SetInterruptRemappingTable : Z := bit64 24.
Definition CompatibilityInterrupts : Z := bit64 23.
Definition VtdInvalidationQueueFaults : Z := Z.lor (bit64 4) (Z.lor (bit64 5) (bit64 6)).

Definition VtdInvalidationStatusPending : Z := 1.
Definition VtdInvalidationStatusComplete : Z := 2.
Definition VtdRootPresent : Z := 1.
Definition VtdContextPresent : Z := 1.
Definition VtdContextPassthrough : Z := 8.
Definition VtdPageReadWrite : Z := 3.
Definition VtdAddressWidth48 : Z := 2.
Definition VtdPassthroughDomain : Z := 1.
Definition VtdFirstTranslatedDomain : Z := 2.
Definition VtdCommandTimeoutSpins : nat := Z.to_nat 1000000.
Definition IovaStartAddress : Z := 0x00100000.
Definition IovaDomainCapacity : nat := 8.
Definition IovaMappingCapacity : nat := 48.
Definition IovaTableCapacity : nat := 64.
Definition VtdInterruptRemappingTableCapacity : nat := 256.
Definition VtdInterruptRemappingTableSize : Z := 7.
Definition VtdInvalidationQueueLength : Z := 256.

(** ** State *)

(** The fields of a [DeviceNode] that matter here; [PciDevice] is the node type of PCI functions. *)
Record DevExt := MkDevExt {
  node_type : Z; pci_segment : Z; pci_bus : Z; pci_device : Z; pci_function : Z;
}.
Definition PciDevice : Z := 5.

(** A node with its address and its children; address 0 is the null pointer. *)
Inductive DeviceNode := Node (node_ptr : Z) (fields : DevExt) (subf : list DeviceNode).
Definition node_ptr (n : DeviceNode) : Z := let 'Node p _ _ := n in p.
Definition fields (n : DeviceNode) : DevExt := let 'Node _ f _ := n in f.
Definition nullptr : DeviceNode := Node 0 (MkDevExt 0 0 0 0 0) [].

Record IovaRange := MkIova { active : bool; device_address : Z; physical : Z; length_ : Z }.
Definition no_range : IovaRange := MkIova false 0 0 0.
#[global] Instance IovaRange_inhabited : Inhabited IovaRange := populate no_range.

Record IovaDomain := MkDomain {
  dom_active : bool;
  attached : bool;
  device : DeviceNode;
  domain_id : Z;
  root : Z;
  tables : list Z;
  table_count : nat;
  mappings : list IovaRange;
}.
Definition no_domain : IovaDomain :=
  MkDomain false false nullptr 0 0 (replicate IovaTableCapacity 0) 0
    (replicate IovaMappingCapacity no_range).
#[global] Instance IovaDomain_inhabited : Inhabited IovaDomain := populate no_domain.

Record VtdState := MkVtd {
  probe_complete : bool;
  passthrough_enabled : bool;
  interrupt_remapping_enabled : bool;
  extended_interrupt_mode : bool;
  include_all : bool;
  dmar_flags : Z;
  host_address_width : Z;
  segment : Z;
  hardware_unit_count : Z;
  registers : Z;
  capability : Z;
  extended_capability : Z;
  root_table : Z;
  interrupt_remapping_table : Z;
  invalidation_queue : Z;
  invalidation_completion : Z;
  invalidation_queue_length : Z;
  invalidation_queue_shift : Z;
  interrupt_remapping_allocated : list bool;
  context_table_count : Z;
  device_count : Z;
}.

Definition vtd_reset : VtdState :=
  MkVtd false false false false false 0 0 0 0 0 0 0 0 0 0 0 0 0
    (replicate VtdInterruptRemappingTableCapacity false) 0 0.

(** [vtd_state], [iova_domains], memory, the physical memory pool and the unit. *)
Record Iommu (Pl HW : Type) := MkIommu {
  vtd : VtdState;
  domains : list IovaDomain;
  memory : gmap Z Z;
  pool : Pl;
  hw : HW;
}.
Arguments MkIommu {Pl HW}.
Arguments vtd {Pl HW}.
Arguments domains {Pl HW}.
Arguments memory {Pl HW}.
Arguments pool {Pl HW}.
Arguments hw {Pl HW}.

(** ** The state monad *)

Definition ret {S A : Type} (a : A) : S -> A * S := fun s => (a, s).
Definition bind {S A B : Type} (m : S -> A * S) (k : A -> S -> B * S) : S -> B * S :=
  fun s => let '(a, s) := m s in k a s.
Notation "'let!' x ':=' m 'in' k" := (bind m (fun x => k))
  (at level 200, x pattern, m at level 100, k at level 200, right associativity).
Notation "'do!' m 'in' k" := (bind m (fun _ => k))
  (at level 200, m at level 100, k at level 200, right associativity).

(** [a || b] and [a && b] on conditions with effects. *)
Definition or_else {S : Type} (a b : S -> bool * S) : S -> bool * S :=
  let! x := a in if x : bool then ret true else b.
Definition and_then {S : Type} (a b : S -> bool * S) : S -> bool * S :=
  let! x := a in if x : bool then b else ret false.

Section Driver.
Context {Pl HW : Type} `{!Mempool Pl} `{!VtdUnit HW}.
Abbreviation State := (Iommu Pl HW).
Abbreviation Act A := (State -> A * State).

(** ** Access *)

Definition get_vtd : Act VtdState := fun s => (vtd s, s).
Definition set_vtd (f : VtdState -> VtdState) : Act unit :=
  fun s => (tt, MkIommu (f (vtd s)) (domains s) (memory s) (pool s) (hw s)).
Definition load (a : Z) : Act Z := fun s => (default 0 (memory s !! a), s).
Definition store (a v : Z) : Act unit :=
  fun s => (tt, MkIommu (vtd s) (domains s) (<[a := v]> (memory s)) (pool s) (hw s)).

(** [MemSet(p, 0, 8 * n)] *)
Fixpoint MemSet (p : Z) (n : nat) : Act unit :=
  match n with
  | O => ret tt
  | S n => do! store p 0 in MemSet (p + 8) n
  end.

(** [mempool.allocate(size, 12)] and [mempool.deallocate(p, size)] *)
Definition allocate (size : Z) : Act Z :=
  fun s => let '(p, m) := mp_allocate (pool s) size 12 0 in
           (p, MkIommu (vtd s) (domains s) (memory s) m (hw s)).
Definition deallocate (p size : Z) : Act unit :=
  fun s => (tt, MkIommu (vtd s) (domains s) (memory s) (mp_deallocate (pool s) p size).2 (hw s)).

Definition ReadRegister32 (base offset : Z) : Act Z :=
  fun s => let '(v, h) := hw_read (hw s) base offset in
           (u32 v, MkIommu (vtd s) (domains s) (memory s) (pool s) h).
Definition WriteRegister32 (base offset value : Z) : Act unit :=
  fun s => (tt, MkIommu (vtd s) (domains s) (memory s) (pool s) (hw_write (hw s) base offset (u32 value))).
Definition poll (a : Z) : Act Z :=
  fun s => let '(v, h) := hw_poll (hw s) a (default 0 (memory s !! a)) in
           (u32 v, MkIommu (vtd s) (domains s) (memory s) (pool s) h).

Definition ReadRegister64 (base offset : Z) : Act Z :=
  let! low := ReadRegister32 base offset in
  let! high := ReadRegister32 base (offset + 4) in
  ret (Z.lor low (Z.shiftl high 32)).
Definition WriteRegister64 (base offset value : Z) : Act unit :=
  do! WriteRegister32 base offset value in
  WriteRegister32 base (offset + 4) (Z.shiftr value 32).

(** ** Waiting *)

Fixpoint spin (fuel : nat) (test : Act bool) : Act bool :=
  match fuel with
  | O => ret false
  | S fuel => let! done := test in if done : bool then ret true else spin fuel test
  end.

Definition WaitRegister32 (base offset mask expected : Z) : Act bool :=
  spin VtdCommandTimeoutSpins
    (let! v := ReadRegister32 base offset in ret (Z.land v mask =? expected)).

Definition WaitRegister64Clear (base offset mask : Z) : Act bool :=
  spin VtdCommandTimeoutSpins
    (let! v := ReadRegister64 base offset in ret (Z.land v mask =? 0)).

(** The features a command must restate to keep them. *)
Definition VtdPersistentCommand (status : Z) : Z :=
  let keep b command := if truthy (Z.land status b) then Z.lor command b else command in
  keep CompatibilityInterrupts (keep InterruptRemapping
    (keep QueuedInvalidation (keep TranslationEnable 0))).

Definition SetVtdFeature (feature : Z) (enabled : bool) : Act bool :=
  let! v := get_vtd in
  let! status := ReadRegister32 (registers v) VtdGlobalStatusRegister in
  let command := VtdPersistentCommand status in
  let command := if enabled then Z.lor command feature else Z.ldiff command feature in
  do! WriteRegister32 (registers v) VtdGlobalCommandRegister command in
  WaitRegister32 (registers v) VtdGlobalStatusRegister feature (if enabled then feature else 0).

Definition PhysicalRangeFits (address length address_width : Z) : bool :=
  if (address_width =? 0) || (64 <? address_width) || (length =? 0) then false
  else if (address +w length) <? address then false
  else if address_width =? 64 then true
  else let limit := bit64 address_width in
       (address <? limit) && (length <=? limit - address).

(** ** The invalidation queue *)

(** Wait for the completion word, or a queue fault. *)
Fixpoint await_completion (fuel : nat) (base completion : Z) : Act bool :=
  match fuel with
  | O => ret false
  | S fuel =>
    let! faults := ReadRegister32 base VtdFaultStatusRegister in
    if truthy (Z.land faults VtdInvalidationQueueFaults) then ret false else
    let! word := poll completion in
    if word =? VtdInvalidationStatusComplete then ret true
    else await_completion fuel base completion
  end.

(** Write the descriptor and the wait descriptor behind it, move the tail and wait. *)
Definition submit_at (v : VtdState) (descriptor_low descriptor_high : Z) (descriptor_length tail wait_tail next : Z)
  : Act bool :=
  let words := Z.to_nat (descriptor_length / 8) in
  let descriptor := invalidation_queue v + tail in
  do! MemSet descriptor words in
  do! store descriptor descriptor_low in
  do! store (descriptor + 8) descriptor_high in
  let wait_descriptor := invalidation_queue v + wait_tail in
  do! MemSet wait_descriptor words in
  let! old := load (invalidation_completion v) in
  do! store (invalidation_completion v) (Z.lor (Z.ldiff old 0xFFFFFFFF) VtdInvalidationStatusPending) in
  do! store wait_descriptor
        (Z.lor (Z.lor 5 (bit64 5)) (Z.shiftl VtdInvalidationStatusComplete 32)) in
  do! store (wait_descriptor + 8) (invalidation_completion v) in
  do! WriteRegister32 (registers v) VtdInvalidationQueueTailRegister next in
  await_completion VtdCommandTimeoutSpins (registers v) (invalidation_completion v).

Definition SubmitQueuedInvalidation (descriptor_low descriptor_high : Z) : Act bool :=
  let! v := get_vtd in
  if (invalidation_queue v =? 0) || (invalidation_completion v =? 0) then ret false else
  let! status := ReadRegister32 (registers v) VtdGlobalStatusRegister in
  if negb (truthy (Z.land status QueuedInvalidation)) then ret false else
  let descriptor_length := bit64 (invalidation_queue_shift v) in
  let queue_mask := u32 (invalidation_queue_length v -w 1) in
  let! tail := ReadRegister32 (registers v) VtdInvalidationQueueTailRegister in
  let tail := Z.land tail queue_mask in
  if truthy (Z.land tail (descriptor_length - 1))
     || (invalidation_queue_length v <? tail + descriptor_length) then ret false else
  let wait_tail := Z.land (u32 (tail + descriptor_length)) queue_mask in
  let next := Z.land (u32 (wait_tail + descriptor_length)) queue_mask in
  let! head := ReadRegister32 (registers v) VtdInvalidationQueueHeadRegister in
  let head := Z.land head queue_mask in
  if (wait_tail =? head) || (next =? head) then ret false else
  submit_at v descriptor_low descriptor_high descriptor_length tail wait_tail next.

Definition SubmitInterruptCacheInvalidation (index mask : Z) (selective : bool) : Act bool :=
  let descriptor := 4 in
  let descriptor := if selective
    then Z.lor (Z.lor (Z.lor descriptor (bit64 4)) (Z.shiftl (Z.land mask 0x1F) 27)) (Z.shiftl index 32)
    else descriptor in
  SubmitQueuedInvalidation descriptor 0.

Definition InvalidateVtdCaches : Act bool :=
  let! v := get_vtd in
  let! status := ReadRegister32 (registers v) VtdGlobalStatusRegister in
  if truthy (Z.land status QueuedInvalidation) then
    let context_descriptor := Z.lor 1 (bit64 4) in
    let iotlb := Z.lor 2 (bit64 4) in
    let iotlb := if Z.testbit (capability v) 55 then Z.lor iotlb (bit64 7) else iotlb in
    let iotlb := if Z.testbit (capability v) 54 then Z.lor iotlb (bit64 6) else iotlb in
    and_then (SubmitQueuedInvalidation context_descriptor 0) (SubmitQueuedInvalidation iotlb 0)
  else
  do! WriteRegister64 (registers v) VtdContextCommandRegister (Z.lor (bit64 63) (bit64 61)) in
  let! cleared := WaitRegister64Clear (registers v) VtdContextCommandRegister (bit64 63) in
  if negb cleared then ret false else
  let iotlb_offset := Z.land (Z.shiftr (extended_capability v) 8) 0x3FF * 16 in
  if PAGE_SIZE <? iotlb_offset + 16 then ret false else
  let command := Z.lor (bit64 63) (bit64 60) in
  let command := if Z.testbit (capability v) 55 then Z.lor command (bit64 49) else command in
  let command := if Z.testbit (capability v) 54 then Z.lor command (bit64 48) else command in
  do! WriteRegister64 (registers v) (iotlb_offset + 8) command in
  WaitRegister64Clear (registers v) (iotlb_offset + 8) (bit64 63).

(** The reads [LogVtdFaultState] makes; the rest of it is output. *)
Definition LogVtdFaultState : Act unit :=
  let! v := get_vtd in
  let! status := ReadRegister32 (registers v) VtdFaultStatusRegister in
  if status =? 0 then ret tt else
  let record_index := Z.land (Z.shiftr status 8) 0xFF in
  let record_offset := Z.land (Z.shiftr (capability v) 24) 0x3FF * 16 + record_index * 16 in
  if PAGE_SIZE <? record_offset + 16 then ret tt else
  do! ReadRegister64 (registers v) record_offset in
  do! ReadRegister64 (registers v) (record_offset + 8) in
  ret tt.

(** ** Interrupt remapping *)

(** [MemSet] of the allocation flags. *)
Definition no_interrupts : list bool := replicate VtdInterruptRemappingTableCapacity false.

Definition set_storage (queue completion length shift table : Z) (v : VtdState) : VtdState :=
  MkVtd (probe_complete v) (passthrough_enabled v) (interrupt_remapping_enabled v)
    (extended_interrupt_mode v) (include_all v) (dmar_flags v) (host_address_width v) (segment v)
    (hardware_unit_count v) (registers v) (capability v) (extended_capability v) (root_table v)
    table queue completion length shift (interrupt_remapping_allocated v) (context_table_count v)
    (device_count v).
Definition set_interrupts (enabled extended : bool) (allocated : list bool) (v : VtdState) : VtdState :=
  MkVtd (probe_complete v) (passthrough_enabled v) enabled extended (include_all v) (dmar_flags v)
    (host_address_width v) (segment v) (hardware_unit_count v) (registers v) (capability v)
    (extended_capability v) (root_table v) (interrupt_remapping_table v) (invalidation_queue v)
    (invalidation_completion v) (invalidation_queue_length v) (invalidation_queue_shift v)
    allocated (context_table_count v) (device_count v).
Definition set_root (table : Z) (v : VtdState) : VtdState :=
  MkVtd (probe_complete v) (passthrough_enabled v) (interrupt_remapping_enabled v)
    (extended_interrupt_mode v) (include_all v) (dmar_flags v) (host_address_width v) (segment v)
    (hardware_unit_count v) (registers v) (capability v) (extended_capability v) table
    (interrupt_remapping_table v) (invalidation_queue v) (invalidation_completion v)
    (invalidation_queue_length v) (invalidation_queue_shift v) (interrupt_remapping_allocated v)
    (context_table_count v) (device_count v).
Definition set_passthrough (contexts devices : Z) (v : VtdState) : VtdState :=
  MkVtd (probe_complete v) true (interrupt_remapping_enabled v)
    (extended_interrupt_mode v) (include_all v) (dmar_flags v) (host_address_width v) (segment v)
    (hardware_unit_count v) (registers v) (capability v) (extended_capability v) (root_table v)
    (interrupt_remapping_table v) (invalidation_queue v) (invalidation_completion v)
    (invalidation_queue_length v) (invalidation_queue_shift v) (interrupt_remapping_allocated v)
    contexts devices.

Definition when (c : bool) (m : Act unit) : Act unit := if c then m else ret tt.

Definition ReleaseInterruptRemappingStorage : Act unit :=
  let! v := get_vtd in
  do! when (truthy (invalidation_queue v))
        (deallocate (invalidation_queue v) (invalidation_queue_length v)) in
  do! when (truthy (invalidation_completion v)) (deallocate (invalidation_completion v) PAGE_SIZE) in
  do! when (truthy (interrupt_remapping_table v)) (deallocate (interrupt_remapping_table v) PAGE_SIZE) in
  set_vtd (fun v =>
    set_interrupts false false no_interrupts
      (set_storage 0 0 (if truthy (invalidation_queue v) then 0 else invalidation_queue_length v)
         (invalidation_queue_shift v) 0 v)).

(** Turn a feature off when the unit reports it on. *)
Definition disable_if_on (feature : Z) : Act bool :=
  let! v := get_vtd in
  let! status := ReadRegister32 (registers v) VtdGlobalStatusRegister in
  if truthy (Z.land status feature) then SetVtdFeature feature false else ret true.

Definition DisableInterruptRemappingForRollback (compatibility_enabled_before : bool) : Act bool :=
  let! off := disable_if_on InterruptRemapping in
  if negb off then ret false else
  let! off := disable_if_on QueuedInvalidation in
  if negb off then ret false else
  let! v := get_vtd in
  let! status := ReadRegister32 (registers v) VtdGlobalStatusRegister in
  if negb (Bool.eqb (truthy (Z.land status CompatibilityInterrupts)) compatibility_enabled_before)
  then SetVtdFeature CompatibilityInterrupts compatibility_enabled_before
  else ret true.

(** The error path that every later step of the activation takes. *)
Definition rollback (compatibility_enabled_before : bool) : Act bool :=
  let! off := DisableInterruptRemappingForRollback compatibility_enabled_before in
  do! when off ReleaseInterruptRemappingStorage in
  ret false.

Definition EnableVtdInterruptRemapping : Act bool :=
  let! v := get_vtd in
  if negb (probe_complete v) || negb (passthrough_enabled v) then ret false else
  if interrupt_remapping_enabled v then ret true else
  if truthy (invalidation_queue v) || truthy (interrupt_remapping_table v) then ret false else
  if negb (Z.testbit (dmar_flags v) 0) || negb (Z.testbit (extended_capability v) 3)
     || negb (Z.testbit (extended_capability v) 1) || negb (Z.testbit (extended_capability v) 0)
  then ret false else
  let scalable_queue := Z.testbit (extended_capability v) 43 in
  let! status := ReadRegister32 (registers v) VtdGlobalStatusRegister in
  let compatibility_enabled_before := truthy (Z.land status CompatibilityInterrupts) in
  let queue_shift := if scalable_queue then 5 else 4 in
  let queue_length := Z.shiftl VtdInvalidationQueueLength queue_shift in
  let! queue := allocate queue_length in
  let! completion := allocate PAGE_SIZE in
  let! table := allocate PAGE_SIZE in
  if (queue =? 0) || (completion =? 0) || (table =? 0)
     || negb (PhysicalRangeFits queue queue_length (host_address_width v))
     || negb (PhysicalRangeFits completion PAGE_SIZE (host_address_width v))
     || negb (PhysicalRangeFits table PAGE_SIZE (host_address_width v))
  then
    do! when (truthy queue) (deallocate queue queue_length) in
    do! when (truthy completion) (deallocate completion PAGE_SIZE) in
    do! when (truthy table) (deallocate table PAGE_SIZE) in
    ret false
  else
  do! MemSet queue (Z.to_nat (queue_length / 8)) in
  do! MemSet completion 512 in
  do! MemSet table 512 in
  do! set_vtd (set_storage queue completion queue_length queue_shift table) in
  do! WriteRegister32 (registers v) VtdInvalidationQueueTailRegister 0 in
  let queue_address := if scalable_queue then Z.lor queue (bit64 11) else queue in
  do! WriteRegister64 (registers v) VtdInvalidationQueueAddressRegister queue_address in
  let! enabled := SetVtdFeature QueuedInvalidation true in
  if negb enabled then rollback compatibility_enabled_before else
  do! WriteRegister64 (registers v) VtdInterruptRemappingTableAddressRegister
        (Z.lor table VtdInterruptRemappingTableSize) in
  let! status := ReadRegister32 (registers v) VtdGlobalStatusRegister in
  let activation := Z.lor SetInterruptRemappingTable CompatibilityInterrupts in
  do! WriteRegister32 (registers v) VtdGlobalCommandRegister
        (Z.lor (VtdPersistentCommand status) activation) in
  let! activated := and_then
    (WaitRegister32 (registers v) VtdGlobalStatusRegister activation activation)
    (SubmitInterruptCacheInvalidation 0 0 false) in
  if negb activated then rollback compatibility_enabled_before else
  let! enabled := SetVtdFeature InterruptRemapping true in
  if negb enabled then rollback compatibility_enabled_before else
  do! set_vtd (fun v => set_interrupts true false (interrupt_remapping_allocated v) v) in
  ret true.

Record InterruptMessage := MkMessage { msg_address : Z; msg_data : Z; msg_handle : Z }.
Definition no_message : InterruptMessage := MkMessage 0 0 0.

(** The first entry that is not allocated. *)
Fixpoint first_free (allocated : list bool) (i : nat) : option nat :=
  match allocated with
  | [] => None
  | b :: rest => if b : bool then first_free rest (S i) else Some i
  end.

(** The two words of a remapping entry for a requester and a destination. *)
Definition source_word (d : DevExt) : Z :=
  Z.lor (Z.lor (Z.lor (Z.shiftl (pci_bus d) 8 mod 2 ^ 16) (Z.shiftl (pci_device d) 3 mod 2 ^ 16))
    (pci_function d)) (bit64 18).
Definition target_word (extended : bool) (target_lapic_id vector : Z) : Z :=
  let destination := if extended then target_lapic_id else Z.shiftl target_lapic_id 8 in
  Z.lor (Z.lor (Z.lor 1 (bit64 3)) (Z.shiftl vector 16)) (u64 (Z.shiftl destination 32)).

Definition AllocatePciInterrupt (dev : DeviceNode) (target_lapic_id vector : Z)
  : Act (option InterruptMessage) :=
  let! v := get_vtd in
  if negb (interrupt_remapping_enabled v) || (node_ptr dev =? 0) || (vector =? 0)
     || negb (node_type (fields dev) =? PciDevice) || negb (pci_segment (fields dev) =? segment v)
     || (negb (extended_interrupt_mode v) && (0xFF <? target_lapic_id))
  then ret None else
  match first_free (interrupt_remapping_allocated v) 0 with
  | None => ret None
  | Some index =>
    let entry := interrupt_remapping_table v + 16 * Z.of_nat index in
    do! store (entry + 8) (source_word (fields dev)) in
    do! store entry (target_word (extended_interrupt_mode v) target_lapic_id vector) in
    let! done := SubmitInterruptCacheInvalidation (Z.of_nat index) 0 true in
    if negb done then
      do! store entry 0 in
      do! store (entry + 8) 0 in
      do! SubmitInterruptCacheInvalidation (Z.of_nat index) 0 true in
      ret None
    else
      do! set_vtd (fun v => set_interrupts (interrupt_remapping_enabled v) (extended_interrupt_mode v)
            (<[index := true]> (interrupt_remapping_allocated v)) v) in
      let i := Z.of_nat index in
      ret (Some (MkMessage
        (Z.lor (Z.lor (Z.lor 0xFEE00000 (Z.shiftl (Z.land i 0x7FFF) 5))
           (Z.shiftr (Z.land i 0x8000) 13)) 0x18) 0 ((i + 1) mod 2 ^ 16)))
  end.

Definition ReleaseInterrupt (handle : Z) : Act unit :=
  let! v := get_vtd in
  if (handle =? 0) || negb (interrupt_remapping_enabled v) then ret tt else
  let index := Z.to_nat (handle - 1) in
  if (VtdInterruptRemappingTableCapacity <=? index)%nat then ret tt else
  if negb (interrupt_remapping_allocated v !!! index) then ret tt else
  let entry := interrupt_remapping_table v + 16 * Z.of_nat index in
  do! store entry 0 in
  do! store (entry + 8) 0 in
  let! done := SubmitInterruptCacheInvalidation (Z.of_nat index) 0 true in
  if negb done then ret tt else
  set_vtd (fun v => set_interrupts (interrupt_remapping_enabled v) (extended_interrupt_mode v)
    (<[index := false]> (interrupt_remapping_allocated v)) v).

(** ** Root and context tables *)

Definition GetContextTable (root_table bus : Z) : Act Z :=
  let! low := load (root_table + 16 * bus) in
  ret (Z.land low VtdPageAddressMask).

(** The context table of a bus, 0 on failure, and whether it is new. *)
Definition EnsureContextTable (root_table bus table_count : Z) : Act (Z * Z) :=
  let! low := load (root_table + 16 * bus) in
  if truthy (Z.land low VtdRootPresent) then
    let! table := GetContextTable root_table bus in ret (table, table_count)
  else
  let! table := allocate PAGE_SIZE in
  if table =? 0 then ret (0, table_count) else
  let! v := get_vtd in
  if negb (PhysicalRangeFits table PAGE_SIZE (host_address_width v)) then
    do! deallocate table PAGE_SIZE in ret (0, table_count)
  else
  do! MemSet table 512 in
  do! store (root_table + 16 * bus + 8) 0 in
  do! store (root_table + 16 * bus) (Z.lor table VtdRootPresent) in
  ret (table, table_count + 1).

Definition requester (d : DevExt) : Z := pci_device d * 8 + pci_function d.

Definition passthrough_high : Z := Z.lor (Z.shiftl VtdPassthroughDomain 8) VtdAddressWidth48.
Definition passthrough_low : Z := Z.lor VtdContextPassthrough VtdContextPresent.

(** The context of one PCI function; the counts of tables and devices are threaded. *)
Definition populate_device (d : DevExt) (root_table : Z) (counts : Z * Z) : Act (bool * (Z * Z)) :=
  let! v := get_vtd in
  if negb (node_type d =? PciDevice) then ret (true, counts) else
  if negb (pci_segment d =? segment v) then ret (false, counts) else
  if (32 <=? pci_device d) || (8 <=? pci_function d) then ret (false, counts) else
  let! (table, tables) := EnsureContextTable root_table (pci_bus d) counts.1 in
  if table =? 0 then ret (false, (tables, counts.2)) else
  let context := table + 16 * requester d in
  let! low := load context in
  if truthy (Z.land low VtdContextPresent) then ret (false, (tables, counts.2)) else
  do! store (context + 8) passthrough_high in
  do! store context passthrough_low in
  ret (true, (tables, counts.2 + 1)).

(** The children in order, until one fails. *)
Definition each (f : DeviceNode -> Z * Z -> Act (bool * (Z * Z))) :=
  fix go (l : list DeviceNode) (counts : Z * Z) : Act (bool * (Z * Z)) :=
  match l with
  | [] => ret (true, counts)
  | child :: rest =>
    let! (ok, counts) := f child counts in
    if ok : bool then go rest counts else ret (false, counts)
  end.

Fixpoint PopulatePassthroughContexts (root_table : Z) (node : DeviceNode) (counts : Z * Z)
  : Act (bool * (Z * Z)) :=
  let 'Node ptr d subf := node in
  if ptr =? 0 then ret (true, counts) else
  let! (ok, counts) := populate_device d root_table counts in
  if ok : bool then each (PopulatePassthroughContexts root_table) subf counts
  else ret (false, counts).

Fixpoint release_buses (root_table : Z) (buses : list nat) : Act unit :=
  match buses with
  | [] => ret tt
  | bus :: rest =>
    let bus := Z.of_nat bus in
    let! low := load (root_table + 16 * bus) in
    do! when (truthy (Z.land low VtdRootPresent))
      (let! table := GetContextTable root_table bus in
       do! store (root_table + 16 * bus) 0 in
       do! store (root_table + 16 * bus + 8) 0 in
       deallocate table PAGE_SIZE) in
    release_buses root_table rest
  end.

Definition ReleasePassthroughTables (root_table : Z) : Act unit :=
  if root_table =? 0 then ret tt else
  do! release_buses root_table (seq 0 256) in
  deallocate root_table PAGE_SIZE.

(** What the probed unit must support. *)
Definition passthrough_supported (v : VtdState) : bool :=
  (hardware_unit_count v =? 1) && include_all v && Z.testbit (extended_capability v) 6
  && Z.testbit (extended_capability v) 0
  && truthy (Z.land (capability v) (bit64 (8 + VtdAddressWidth48)))
  && (Z.land (Z.shiftr (extended_capability v) 8) 0x3FF * 16 + 16 <=? PAGE_SIZE).

(** The command sequence that makes the unit translate through the root table: false on any
    timeout, mismatch or fault. *)
Definition activate_translation (base root_table : Z) : Act bool :=
  do! WriteRegister64 base VtdRootTableAddressRegister root_table in
  do! WriteRegister32 base VtdGlobalCommandRegister SetRoot in
  let! set := WaitRegister32 base VtdGlobalStatusRegister SetRoot SetRoot in
  if negb set then do! ReadRegister32 base VtdGlobalStatusRegister in ret false else
  let! loaded := ReadRegister64 base VtdRootTableAddressRegister in
  if negb (Z.land loaded VtdPageAddressMask =? root_table) then ret false else
  let! invalidated := InvalidateVtdCaches in
  if negb invalidated then ret false else
  let! faults := ReadRegister32 base VtdFaultStatusRegister in
  if truthy faults then ret false else
  do! WriteRegister32 base VtdGlobalCommandRegister TranslationEnable in
  let! enabled := WaitRegister32 base VtdGlobalStatusRegister TranslationEnable TranslationEnable in
  if negb enabled then do! ReadRegister32 base VtdGlobalStatusRegister in ret false else
  let! faults := ReadRegister32 base VtdFaultStatusRegister in
  if truthy faults then
    do! WriteRegister32 base VtdGlobalCommandRegister 0 in
    do! WaitRegister32 base VtdGlobalStatusRegister TranslationEnable 0 in
    do! ReadRegister32 base VtdGlobalStatusRegister in
    ret false
  else ret true.

Definition EnableVtdPassthrough (pci_root : DeviceNode) : Act bool :=
  let! v := get_vtd in
  if negb (probe_complete v) then ret true else
  if passthrough_enabled v then ret true else
  if truthy (root_table v) then ret false else
  if node_ptr pci_root =? 0 then ret false else
  if negb (passthrough_supported v) then ret false else
  let base := registers v in
  let! status := ReadRegister32 base VtdGlobalStatusRegister in
  if truthy (Z.land status (Z.lor TranslationEnable (Z.lor QueuedInvalidation InterruptRemapping)))
  then ret false else
  let! faults := ReadRegister32 base VtdFaultStatusRegister in
  if truthy faults then ret false else
  let! table := allocate PAGE_SIZE in
  if table =? 0 then ret false else
  if negb (PhysicalRangeFits table PAGE_SIZE (host_address_width v)) then
    do! deallocate table PAGE_SIZE in ret false
  else
  do! MemSet table 512 in
  let! (populated, (contexts, devices)) := PopulatePassthroughContexts table pci_root (0, 0) in
  if negb populated || (devices =? 0) then
    do! ReleasePassthroughTables table in ret false
  else
  let! activated := activate_translation base table in
  do! set_vtd (set_root table) in
  if negb activated then ret false else
  do! set_vtd (set_passthrough contexts devices) in
  do! ReadRegister32 base VtdGlobalStatusRegister in
  do! ReadRegister32 base VtdFaultStatusRegister in
  do! EnableVtdInterruptRemapping in
  ret true.

Definition InterruptRemappingAvailable : Act bool :=
  let! v := get_vtd in ret (interrupt_remapping_enabled v).

End Driver.
