(* ===== verification/Iova.v ===== *)
(** * Device address spaces ([mecocoa/memoman-iova.cpp])

    A translated domain gives one PCI function its own I/O virtual address space: a four-level
    table in memory that the remapping unit walks, and a list of the ranges that were mapped.  This
    file holds the operations on the eight domains; a domain is named by its index in
    [iova_domains], as the code passes references into that array.  [IovaProof] proves them. *)
From S2P Require Import Prelude Interfaces Vtd.

Section Domains.
Context {Pl HW : Type} `{!Mempool Pl} `{!VtdUnit HW}.
Abbreviation State := (Iommu Pl HW).
Abbreviation Act A := (State -> A * State).

Definition get_domain (d : nat) : Act IovaDomain := fun s => (domains s !!! d, s).
Definition put_domain (d : nat) (x : IovaDomain) : Act unit :=
  fun s => (tt, MkIommu (vtd s) (<[d := x]> (domains s)) (memory s) (pool s) (hw s)).

Definition add_table (t : Z) (x : IovaDomain) : IovaDomain :=
  MkDomain (dom_active x) (attached x) (device x) (domain_id x) (root x)
    (<[table_count x := t]> (tables x)) (S (table_count x)) (mappings x).
Definition with_root (t : Z) (x : IovaDomain) : IovaDomain :=
  MkDomain (dom_active x) (attached x) (device x) (domain_id x) t (tables x) (table_count x) (mappings x).
Definition with_attached (x : IovaDomain) : IovaDomain :=
  MkDomain (dom_active x) true (device x) (domain_id x) (root x) (tables x) (table_count x) (mappings x).
Definition with_mapping (i : nat) (r : IovaRange) (x : IovaDomain) : IovaDomain :=
  MkDomain (dom_active x) (attached x) (device x) (domain_id x) (root x) (tables x) (table_count x)
    (<[i := r]> (mappings x)).

(** ** Tables of a domain *)

Definition AllocateDomainTable (d : nat) : Act Z :=
  let! x := get_domain d in
  if (IovaTableCapacity <=? table_count x)%nat then ret 0 else
  let! table := allocate PAGE_SIZE in
  if table =? 0 then ret 0 else
  let! v := get_vtd in
  if negb (PhysicalRangeFits table PAGE_SIZE (host_address_width v)) then
    do! deallocate table PAGE_SIZE in ret 0
  else
  do! MemSet table 512 in
  let! x := get_domain d in
  do! put_domain d (add_table table x) in
  ret table.

Fixpoint release_tables (l : list Z) : Act unit :=
  match l with
  | [] => ret tt
  | t :: rest => do! deallocate t PAGE_SIZE in release_tables rest
  end.

Definition ReleaseDomainTables (d : nat) : Act unit :=
  let! x := get_domain d in
  do! release_tables (take (table_count x) (tables x)) in
  put_domain d no_domain.

Definition is_domain_of (dev : DeviceNode) (x : IovaDomain) : bool :=
  dom_active x && (node_ptr (device x) =? node_ptr dev).

Definition FindDomain (dev : DeviceNode) : Act (option nat) :=
  fun s => (fst <$> list_find (fun x => is_domain_of dev x = true) (domains s), s).

Definition CreateDomain (dev : DeviceNode) : Act (option nat) :=
  fun s =>
  match list_find (fun x => dom_active x = false) (domains s) with
  | None => (None, s)
  | Some (d, _) =>
    (do! put_domain d (MkDomain true false dev (VtdFirstTranslatedDomain + Z.of_nat d) 0
           (tables no_domain) 0 (mappings no_domain)) in
     let! table := AllocateDomainTable d in
     let! x := get_domain d in
     do! put_domain d (with_root table x) in
     if table =? 0 then do! put_domain d no_domain in ret None
     else ret (Some d)) s
  end.

(** ** The walk *)

Definition GetOrCreateNextTable (d : nat) (table index : Z) : Act Z :=
  let! entry := load (table + 8 * index) in
  if truthy (Z.land entry VtdPageReadWrite) then ret (Z.land entry VtdPageAddressMask) else
  let! next := AllocateDomainTable d in
  if next =? 0 then ret 0 else
  do! store (table + 8 * index) (Z.lor next VtdPageReadWrite) in
  ret next.

(** One level of [GetLeafEntry]: the next table, 0 for none. *)
Definition next_level (d : nat) (create : bool) (table index : Z) : Act Z :=
  let! entry := load (table + 8 * index) in
  if negb (truthy (Z.land entry VtdPageReadWrite)) then
    if negb create then ret 0 else GetOrCreateNextTable d table index
  else ret (Z.land entry VtdPageAddressMask).

(** The levels over the remaining indices; 0 is the null entry. *)
Fixpoint walk_levels (d : nat) (create : bool) (table : Z) (indices : list Z) : Act Z :=
  match indices with
  | [] => ret 0
  | [last] => ret (table + 8 * last)
  | index :: rest =>
    let! table := next_level d create table index in
    if table =? 0 then ret 0 else walk_levels d create table rest
  end.

Definition index_at (shift va : Z) : Z := Z.land (Z.shiftr va shift) 0x1FF.

Definition GetLeafEntry (d : nat) (device_address : Z) (create : bool) : Act Z :=
  let! x := get_domain d in
  walk_levels d create (root x)
    [index_at 39 device_address; index_at 30 device_address;
     index_at 21 device_address; index_at 12 device_address].

(** ** Ranges *)

Definition RangesOverlap (left left_length right right_length : Z) : bool :=
  (left <? (right +w right_length)) && (right <? (left +w left_length)).

Definition collides (candidate length : Z) (r : IovaRange) : bool :=
  active r && RangesOverlap candidate length (device_address r) (length_ r).

(** The end of the colliding range, rounded up to a page. *)
Definition beyond (r : IovaRange) : Z :=
  Z.land (((device_address r +w length_ r) +w PAGE_SIZE) -w 1) VtdPageAddressMask.

(** The passes of the search; each restarts behind the first range that collides. *)
Fixpoint search_iova (passes : nat) (ranges : list IovaRange) (length candidate : Z) : option Z :=
  match passes with
  | O => None
  | S passes =>
    match List.find (collides candidate length) ranges with
    | Some r => search_iova passes ranges length (beyond r)
    | None => if ((candidate +w length) <? candidate) || (bit64 48 <? (candidate +w length))
              then None else Some candidate
    end
  end.

(** The chosen address and the index of the free range record. *)
Definition AllocateIovaRange (x : IovaDomain) (length preferred_address : Z) : option (Z * nat) :=
  '(slot, _) ← list_find (fun r => active r = false) (mappings x);
  if truthy preferred_address then
    if truthy (page_offset preferred_address)
       || ((preferred_address +w length) <? preferred_address)
       || (bit64 48 <? (preferred_address +w length)) then None
    else if existsb (collides preferred_address length) (mappings x) then None
    else Some (preferred_address, slot)
  else
    a ← search_iova (S IovaMappingCapacity) (mappings x) length IovaStartAddress;
    Some (a, slot).

(** ** Populating and clearing *)

Definition clear_page (d : nat) (va : Z) : Act unit :=
  let! entry := GetLeafEntry d va false in
  if truthy entry then store entry 0 else ret tt.

Fixpoint clear_pages (d : nat) (va : Z) (pages : nat) : Act unit :=
  match pages with
  | O => ret tt
  | S pages => do! clear_page d va in clear_pages d (va +w PAGE_SIZE) pages
  end.

Definition leaf_word (pa : Z) : Z := Z.lor (Z.land pa VtdPageAddressMask) VtdPageReadWrite.

(** [done] pages from [base] are mapped; [pages] more follow at [va]. *)
Fixpoint populate_pages (d : nat) (base : Z) (done : nat) (va pa : Z) (pages : nat) : Act bool :=
  match pages with
  | O => ret true
  | S pages =>
    let! entry := GetLeafEntry d va true in
    let! word := load entry in
    if (entry =? 0) || truthy (Z.land word VtdPageReadWrite) then
      do! clear_pages d base done in ret false
    else
      do! store entry (leaf_word pa) in
      populate_pages d base (S done) (va +w PAGE_SIZE) (pa +w PAGE_SIZE) pages
  end.

(** [for (offset = 0; offset < length; offset += PAGE_SIZE)]: the number of turns. *)
Definition page_turns (length : Z) : nat := Z.to_nat ((length + PAGE_SIZE - 1) / PAGE_SIZE).

Definition PopulateIovaPages (d : nat) (device_address physical length : Z) : Act bool :=
  populate_pages d device_address 0 device_address physical (page_turns length).

Definition ClearIovaPages (d : nat) (device_address length : Z) : Act unit :=
  clear_pages d device_address (page_turns length).

(** ** Attaching *)

Definition RestorePassthroughContext (context : Z) : Act bool :=
  do! store context 0 in
  do! InvalidateVtdCaches in
  do! store (context + 8) passthrough_high in
  do! store context passthrough_low in
  InvalidateVtdCaches.

(** The device has a place in the context tables of this unit. *)
Definition attachable (v : VtdState) (dev : DeviceNode) : bool :=
  let f := fields dev in
  negb (node_ptr dev =? 0) && (node_type f =? PciDevice) && (pci_segment f =? segment v)
  && (pci_device f <? 32) && (pci_function f <? 8).

Definition AttachDomain (d : nat) : Act bool :=
  let! x := get_domain d in
  let! v := get_vtd in
  if negb (attachable v (device x)) then ret false else
  let! context_table := GetContextTable (root_table v) (pci_bus (fields (device x))) in
  if context_table =? 0 then ret false else
  let context := context_table + 16 * requester (fields (device x)) in
  let! low := load context in
  if negb (truthy (Z.land low VtdContextPresent)) then ret false else
  do! store context 0 in
  let! invalidated := InvalidateVtdCaches in
  if negb invalidated then do! RestorePassthroughContext context in ret false else
  do! store (context + 8) (Z.lor (Z.shiftl (domain_id x) 8) VtdAddressWidth48) in
  do! store context (Z.lor (root x) VtdContextPresent) in
  let! invalidated := InvalidateVtdCaches in
  if negb invalidated then do! RestorePassthroughContext context in ret false else
  let! x := get_domain d in
  do! put_domain d (with_attached x) in
  ret true.

(** ** Mapping and unmapping *)

Record DmaMapping := MkDmaMapping { mapped_address : Z; translated : bool }.
Definition Identity : Z := 1.

(** The populated range is attached, flushed and recorded, or cleared again. *)
Definition finish_mapping (d : nat) (new_domain : bool) (slot : nat) (device_address physical length : Z)
  : Act (bool * DmaMapping) :=
  let direct := MkDmaMapping physical false in
  let! x := get_domain d in
  let! usable := (if attached x then ret true else AttachDomain d) in
  if negb usable then
    do! ClearIovaPages d device_address length in
    do! when new_domain (ReleaseDomainTables d) in
    ret (false, direct)
  else
  let! flushed := (if new_domain then ret true else InvalidateVtdCaches) in
  if negb flushed then
    do! ClearIovaPages d device_address length in
    ret (false, direct)
  else
  let! v := get_vtd in
  let! faults := ReadRegister32 (registers v) VtdFaultStatusRegister in
  if truthy faults then
    do! LogVtdFaultState in
    do! ClearIovaPages d device_address length in
    do! InvalidateVtdCaches in
    ret (false, direct)
  else
  let! x := get_domain d in
  do! put_domain d (with_mapping slot (MkIova true device_address physical length) x) in
  ret (true, MkDmaMapping device_address true).

(** A range is chosen in domain [d] and populated. *)
Definition map_into (d : nat) (new_domain : bool) (physical length preferred_address : Z)
  : Act (bool * DmaMapping) :=
  let direct := MkDmaMapping physical false in
  let! x := get_domain d in
  match AllocateIovaRange x length preferred_address with
  | None => do! when new_domain (ReleaseDomainTables d) in ret (false, direct)
  | Some (device_address, slot) =>
    let! populated := PopulateIovaPages d device_address physical length in
    if negb populated then do! when new_domain (ReleaseDomainTables d) in ret (false, direct)
    else finish_mapping d new_domain slot device_address physical length
  end.

(** The result: success, and the mapping that was reported. *)
Definition MapDeviceDma (dev : DeviceNode) (physical length flags : Z) : Act (bool * DmaMapping) :=
  let direct := MkDmaMapping physical false in
  if truthy (Z.ldiff flags Identity) then ret (false, direct) else
  if (node_ptr dev =? 0) || (physical =? 0) || (length =? 0)
     || truthy (page_offset physical) || truthy (page_offset length) then ret (false, direct) else
  let! v := get_vtd in
  if negb (passthrough_enabled v) then ret (true, direct) else
  if negb (node_type (fields dev) =? PciDevice) then ret (true, direct) else
  if negb (PhysicalRangeFits physical length (host_address_width v)) then ret (false, direct) else
  let preferred_address := if truthy (Z.land flags Identity) then physical else 0 in
  let! found := FindDomain dev in
  match found with
  | Some d => map_into d false physical length preferred_address
  | None =>
    let! created := CreateDomain dev in
    match created with
    | Some d => map_into d true physical length preferred_address
    | None => ret (false, direct)
    end
  end.

Definition is_range (device_address_ length : Z) (r : IovaRange) : bool :=
  active r && (device_address r =? device_address_) && (length_ r =? length).

Definition UnmapDeviceDma (dev : DeviceNode) (device_address length : Z) : Act bool :=
  if (node_ptr dev =? 0) || (device_address =? 0) || (length =? 0)
     || truthy (page_offset device_address) || truthy (page_offset length) then ret false else
  let! v := get_vtd in
  if negb (passthrough_enabled v) then ret true else
  let! found := FindDomain dev in
  match found with
  | None => ret false
  | Some d =>
    let! x := get_domain d in
    if negb (attached x) then ret false else
    match list_find (fun r => is_range device_address length r = true) (mappings x) with
    | None => ret false
    | Some (slot, range) =>
      do! LogVtdFaultState in
      do! ClearIovaPages d device_address length in
      let! flushed := InvalidateVtdCaches in
      if negb flushed then
        do! PopulateIovaPages d device_address (physical range) length in
        do! InvalidateVtdCaches in
        ret false
      else
        let! x := get_domain d in
        do! put_domain d (with_mapping slot no_range x) in
        ret true
    end
  end.

End Domains.
