(* ===== verification/IovaRange.v ===== *)
(** * The choice of a device address range

    The active ranges of a domain are an abstract address space, [space_of]; [AllocateIovaRange]
    finds the lowest free range above 1 MiB, and its bounded number of passes always suffices. *)
From S2P Require Import Prelude Interfaces Vtd Iova.

(** An active range: whole pages, below the 48-bit limit. *)
Record range_ok (r : IovaRange) : Prop := {
  rg_start : 0 <= device_address r /\ device_address r mod 4096 = 0;
  rg_length : 0 < length_ r /\ length_ r mod 4096 = 0;
  rg_end : device_address r + length_ r <= 2 ^ 48;
  rg_physical : 0 < physical r /\ physical r mod 4096 = 0 /\ physical r + length_ r <= two64;
}.

Definition apart (r q : IovaRange) : Prop :=
  device_address r + length_ r <= device_address q \/ device_address q + length_ q <= device_address r.

Record ranges_ok (l : list IovaRange) : Prop := {
  rs_ok : forall i r, l !! i = Some r -> active r = true -> range_ok r;
  rs_apart : forall i j r q, l !! i = Some r -> l !! j = Some q -> i <> j ->
    active r = true -> active q = true -> apart r q;
}.

Definition covers (va : Z) (r : IovaRange) : bool :=
  active r && (device_address r <=? va) && (va <? device_address r + length_ r).

(** The address space that the ranges describe. *)
Definition space_of (l : list IovaRange) (va : Z) : option Z :=
  r ← List.find (covers va) l; Some (physical r + (va - device_address r)).

Lemma find_None {A} (f : A -> bool) l : List.find f l = None <-> forall x, x ∈ l -> f x = false.
Proof.
  split; [intros Hn x Hx; apply (List.find_none f l Hn); by apply list_elem_of_In|].
  induction l as [|y l IH]; intros Hf; [done|]. cbn. rewrite Hf by by left. apply IH. intros x Hx. apply Hf. by right.
Qed.

Lemma find_Some {A} (f : A -> bool) l x : List.find f l = Some x -> x ∈ l /\ f x = true.
Proof. intros [H1 H2]%List.find_some. split; [by apply list_elem_of_In|done]. Qed.

(** Overlap of ranges, when no sum wraps. *)
Lemma collides_spec c len r : range_ok r -> 0 <= c -> 0 < len -> c + len < two64 ->
  collides c len r = active r && (c <? device_address r + length_ r) && (device_address r <? c + len).
Proof.
  intros [R1 R2 R3 R4] Hc Hl Hs. change (2 ^ 48) with 281474976710656 in R3. unfold collides, RangesOverlap.
  rewrite !uadd_small by lia. by rewrite andb_assoc.
Qed.

Lemma beyond_spec r : range_ok r -> beyond r = device_address r + length_ r.
Proof.
  intros [R1 R2 R3 R4]. change (2 ^ 48) with 281474976710656 in R3. unfold beyond, uadd, usub, PAGE_SIZE.
  rewrite !Z.mod_small by (rewrite ?Z.mod_small; lia).
  change VtdPageAddressMask with (Z.land (Z.ones 64) (Z.lnot (2 ^ 12 - 1))).
  rewrite Z.land_assoc, Z.land_ones, land_lnot_mask by lia. change (2 ^ 12) with 4096. change (2 ^ 64) with two64.
  rewrite Z.mod_small by lia. lia.
Qed.

(** The addresses a search may return. *)
Definition usable (l : list IovaRange) (len c : Z) : Prop :=
  c mod 4096 = 0 /\ IovaStartAddress <= c /\ c + len <= 2 ^ 48 /\
  forall i r, l !! i = Some r -> active r = true -> device_address r + length_ r <= c \/ c + len <= device_address r.

(** The ranges that end above an address. *)
Definition above (c : Z) (l : list IovaRange) : nat :=
  length (List.filter (fun r => active r && (c <? device_address r + length_ r)) l).

Lemma above_less c c' l r : c < c' -> r ∈ l -> active r = true -> c < device_address r + length_ r <= c' ->
  (above c' l < above c l)%nat.
Proof.
  intros Hc Hr Ha He. assert (forall k, (above c' k <= above c k)%nat) as Hle.
  { unfold above. induction k as [|q k IH]; [done|]. cbn. destruct (active q); cbn [andb]; [|done].
    destruct (c' <? _) eqn:E1, (c <? _) eqn:E2; cbn; lia. }
  apply list_elem_of_split in Hr as (l1 & l2 & ->). pose proof (Hle l1). pose proof (Hle l2).
  unfold above in *. rewrite !List.filter_app, !length_app. cbn.
  rewrite Ha. cbn [andb]. replace (c' <? _) with false by lia. replace (c <? _) with true by lia. cbn. lia.
Qed.

Section Search.
Context (l : list IovaRange) (len : Z) (HR : ranges_ok l) (Hlen : 0 < len < two64).

Lemma range_in r : r ∈ l -> active r = true -> range_ok r.
Proof. intros [i Hi]%list_elem_of_lookup Ha. by apply (rs_ok _ HR i). Qed.

(** A reported collision is one, even where a sum wraps. *)
Lemma collision_real c r : r ∈ l -> 0 <= c <= 2 ^ 48 -> collides c len r = true ->
  range_ok r /\ active r = true /\ c < device_address r + length_ r /\ device_address r < c + len.
Proof.
  intros Hin Hc Hcol. unfold collides, RangesOverlap in Hcol.
  assert (active r = true) as Ha by (by destruct (active r)). pose proof (range_in r Hin Ha) as Hrk.
  split; [done|]. split; [done|]. rewrite Ha in Hcol. destruct Hrk as [R1 R2 Re _].
  change (2 ^ 48) with 281474976710656 in *. rewrite (uadd_small (device_address r)) in Hcol by lia.
  unfold uadd in Hcol. lia.
Qed.

(** Without a collision, a range that fits is usable. *)
Lemma no_collision c : 0 <= c -> c + len <= 2 ^ 48 -> (forall r, r ∈ l -> collides c len r = false) ->
  forall i r, l !! i = Some r -> active r = true -> device_address r + length_ r <= c \/ c + len <= device_address r.
Proof.
  intros Hc He Hno i r Hi Ha. change (2 ^ 48) with 281474976710656 in He.
  assert (r ∈ l) as Hin by by eapply list_elem_of_lookup_2. specialize (Hno r Hin).
  rewrite collides_spec, Ha in Hno by (by apply range_in || lia). cbn [andb] in Hno. lia.
Qed.

(** The search returns the lowest usable address from the candidate on. *)
Lemma search_iova_spec passes c : (above c l < passes)%nat -> c mod 4096 = 0 -> IovaStartAddress <= c <= 2 ^ 48 ->
  match search_iova passes l len c with
  | Some a => usable l len a /\ c <= a /\ forall b, usable l len b -> c <= b -> a <= b
  | None => forall b, usable l len b -> b < c
  end.
Proof.
  revert c. induction passes as [|passes IH]; intros c Hp Hc Hr; [lia|]. cbn [search_iova].
  assert (0 <= c <= 2 ^ 48) as Hc0 by (unfold IovaStartAddress in Hr; lia).
  destruct (List.find (collides c len) l) as [r|] eqn:E.
  - apply find_Some in E as [Hin Hcol]. destruct (collision_real c r Hin Hc0 Hcol) as (Hrk & Ha & H1 & H2).
    assert (forall b, usable l len b -> c <= b -> device_address r + length_ r <= b) as Hskip.
    { intros b (_ & _ & _ & Hb) Hcb. apply list_elem_of_lookup in Hin as [i Hi].
      destruct (Hb i r Hi Ha); lia. }
    rewrite beyond_spec by done. pose proof Hrk as [[? ?] [? ?] Re ?].
    specialize (IH (device_address r + length_ r)).
    pose proof (above_less c (device_address r + length_ r) l r ltac:(lia) Hin Ha ltac:(lia)).
    destruct (search_iova _ _ _ _) as [a|].
    + destruct IH as (U & La & Hmin); [lia..|]. split; [done|]. split; [lia|]. intros b Hb Hcb. apply Hmin; auto.
    + intros b Hb. specialize (IH ltac:(lia) ltac:(lia) ltac:(lia) b Hb).
      destruct (decide (c <= b)) as [Hcb|]; [|lia]. specialize (Hskip b Hb Hcb). lia.
  - change (bit64 48) with (2 ^ 48). pose proof (proj1 (find_None _ _) E) as Hno.
    change (2 ^ 48) with 281474976710656 in *. destruct (decide (c + len < two64)) as [Hs|Hs].
    + rewrite uadd_small by lia. destruct (_ || _) eqn:Et.
      * intros b (_ & _ & Hb & _). change (2 ^ 48) with 281474976710656 in Hb. lia.
      * split; [|split; [lia|done]]. split; [done|]. split; [lia|]. split; [lia|]. apply no_collision; [lia| |done].
        change (2 ^ 48) with 281474976710656. lia.
    + unfold uadd. replace (((c + len) mod two64 <? c) || _) with true by lia.
      intros b (_ & _ & Hb & _). change (2 ^ 48) with 281474976710656 in Hb. lia.
Qed.

End Search.

Lemma above_active c l : (above c l <= length (List.filter active l))%nat.
Proof.
  unfold above. induction l as [|r l IH]; [done|]. cbn. destruct (active r); cbn [andb]; [|done].
  destruct (c <? _); cbn; lia.
Qed.

Lemma filter_le {A} (f : A -> bool) l : (length (List.filter f l) <= length l)%nat.
Proof. induction l as [|x l IH]; [done|]. cbn. destruct (f x); cbn; lia. Qed.

(** What [AllocateIovaRange] promises. *)
Record chosen (x : IovaDomain) (len preferred a : Z) (slot : nat) : Prop := {
  ch_slot : exists r, mappings x !! slot = Some r /\ active r = false;
  ch_start : 0 < a /\ a mod 4096 = 0 /\ a + len <= 2 ^ 48;
  ch_apart : forall i r, mappings x !! i = Some r -> active r = true ->
    device_address r + length_ r <= a \/ a + len <= device_address r;
  ch_preferred : preferred <> 0 -> a = preferred;
  ch_lowest : preferred = 0 -> usable (mappings x) len a /\ forall b, usable (mappings x) len b -> a <= b;
}.

Lemma AllocateIovaRange_spec x len preferred : ranges_ok (mappings x) -> length (mappings x) = IovaMappingCapacity ->
  0 < len < two64 -> is_u64 preferred ->
  match AllocateIovaRange x len preferred with
  | Some (a, slot) => chosen x len preferred a slot
  | None => (forall i r, mappings x !! i = Some r -> active r = true) \/
      (preferred = 0 /\ forall b, ~ usable (mappings x) len b) \/
      (preferred <> 0 /\ ~ (preferred mod 4096 = 0 /\ preferred + len <= 2 ^ 48 /\
         forall i r, mappings x !! i = Some r -> active r = true ->
           device_address r + length_ r <= preferred \/ preferred + len <= device_address r))
  end.
Proof.
  intros HR HL Hlen Hp. unfold AllocateIovaRange. destruct (list_find _ (mappings x)) as [[slot r0]|] eqn:Ef; cbn [mbind option_bind].
  2: { left. intros i r Hi. apply list_find_None in Ef. rewrite Forall_lookup in Ef. specialize (Ef i r Hi).
       by destruct (active r). }
  apply list_find_Some in Ef as (Hslot & Hfree & _). change (bit64 48) with (2 ^ 48).
  destruct (decide (preferred = 0)) as [->|Hnz].
  - cbn [truthy negb Z.eqb]. pose proof (search_iova_spec (mappings x) len HR Hlen (S IovaMappingCapacity) IovaStartAddress) as Hs.
    assert (above IovaStartAddress (mappings x) < S IovaMappingCapacity)%nat as Hab.
    { pose proof (above_active IovaStartAddress (mappings x)). pose proof (filter_le active (mappings x)). lia. }
    specialize (Hs Hab ltac:(done) ltac:(done)). destruct (search_iova _ _ _ _) as [a|]; cbn [mbind option_bind].
    + destruct Hs as (U & La & Hmin). pose proof U as (U1 & U2 & U3 & U4). unfold IovaStartAddress in U2.
      constructor; try done; [by exists r0|lia|]. intros _. split; [done|]. intros b Hb. apply Hmin; [done|].
      by destruct Hb as (_ & ? & _).
    + right. left. split; [done|]. intros b Hb. specialize (Hs b Hb). destruct Hb as (_ & ? & _). lia.
  - replace (truthy preferred) with true by (unfold truthy; lia). rewrite page_offset_mod.
    change (2 ^ 48) with 281474976710656. unfold is_u64 in Hp.
    destruct (_ || _ || _) eqn:Et; [|destruct (existsb _ _) eqn:Ex].
    + right. right. split; [done|]. intros (P1 & P2 & _). unfold truthy, uadd in Et. lia.
    + right. right. split; [done|]. intros (P1 & P2 & P3). apply existsb_exists in Ex as (r & Hin & Hcol).
      apply list_elem_of_In in Hin. change 281474976710656 with (2 ^ 48) in P2.
      destruct (collision_real (mappings x) len HR Hlen preferred r Hin ltac:(lia) Hcol) as (_ & Ha & H1 & H2).
      apply list_elem_of_lookup in Hin as [i Hi]. destruct (P3 i r Hi Ha); lia.
    + assert (preferred + len <= 281474976710656) by (unfold truthy, uadd in Et; lia).
      constructor; try done; [by exists r0|change (2 ^ 48) with 281474976710656; unfold truthy in Et; lia|].
      apply (no_collision (mappings x) len HR Hlen); [lia|change (2 ^ 48) with 281474976710656; lia|].
      intros r Hin. destruct (collides preferred len r) eqn:Ec; [|done].
      rewrite <- Ex. symmetry. apply existsb_exists. exists r. split; [by apply list_elem_of_In|done].
Qed.

(** ** The address space of the ranges *)

Lemma covers_apart va r q : apart r q -> covers va r = true -> covers va q = true -> False.
Proof. unfold apart, covers. lia. Qed.

Lemma space_of_Some l i r va : ranges_ok l -> l !! i = Some r -> covers va r = true ->
  space_of l va = Some (physical r + (va - device_address r)).
Proof.
  intros HR Hi Hc. unfold space_of. destruct (List.find _ l) as [q|] eqn:E.
  - apply find_Some in E as [[j Hj]%list_elem_of_lookup Hq]. destruct (decide (i = j)) as [->|Hne].
    + by assert (q = r) as -> by congruence.
    + assert (active r = true /\ active q = true) as [Ar Aq] by (unfold covers in *; destruct (active r), (active q); done).
      exfalso. exact (covers_apart va r q (rs_apart _ HR i j r q Hi Hj Hne Ar Aq) Hc Hq).
  - pose proof (proj1 (find_None _ _) E) as Hn. rewrite (Hn r) in Hc; [done|]. by eapply list_elem_of_lookup_2.
Qed.

Lemma space_of_None l va : (forall i r, l !! i = Some r -> covers va r = false) -> space_of l va = None.
Proof.
  intros Hn. unfold space_of. destruct (List.find _ l) as [q|] eqn:E; [|done].
  apply find_Some in E as [[j Hj]%list_elem_of_lookup Hq]. rewrite (Hn j q Hj) in Hq. done.
Qed.

Lemma space_of_cases l va : ranges_ok l ->
  (exists i r, l !! i = Some r /\ covers va r = true /\ space_of l va = Some (physical r + (va - device_address r))) \/
  ((forall i r, l !! i = Some r -> covers va r = false) /\ space_of l va = None).
Proof.
  intros HR. destruct (List.find (covers va) l) as [r|] eqn:E.
  - left. apply find_Some in E as [[i Hi]%list_elem_of_lookup Hc]. exists i, r. split_and!; try done. by eapply space_of_Some.
  - right. pose proof (proj1 (find_None _ _) E) as Hn. split.
    + intros i r Hi. apply Hn. by eapply list_elem_of_lookup_2.
    + unfold space_of. by rewrite E.
Qed.

(** Replacing one range. *)
Lemma space_of_insert l i r r' va : ranges_ok l -> ranges_ok (<[i := r']> l) -> l !! i = Some r ->
  space_of (<[i := r']> l) va =
    if covers va r' then Some (physical r' + (va - device_address r'))
    else if covers va r then None else space_of l va.
Proof.
  intros HR HR' Hi. assert (<[i := r']> l !! i = Some r') as Hi' by (apply list_lookup_insert_eq; by eapply lookup_lt_Some).
  destruct (covers va r') eqn:E'; [by eapply space_of_Some|]. destruct (covers va r) eqn:E.
  - apply space_of_None. intros j q [(<- & <- & _)|[Hne Hj]]%list_lookup_insert_Some; [done|].
    destruct (covers va q) eqn:Eq; [|done]. exfalso.
    assert (active r = true /\ active q = true) as [Ar Aq] by (unfold covers in *; destruct (active r), (active q); done).
    exact (covers_apart va r q (rs_apart _ HR i j r q Hi Hj Hne Ar Aq) E Eq).
  - destruct (space_of_cases l va HR) as [(j & q & Hj & Hq & ->)|[Hn ->]].
    + assert (j <> i) as Hne by (intros ->; congruence). eapply (space_of_Some _ j); [done| |done].
      by rewrite list_lookup_insert_ne.
    + apply space_of_None. intros j q [(<- & <- & _)|[_ Hj]]%list_lookup_insert_Some; [done|by eapply Hn].
Qed.

Lemma ranges_ok_insert l i r' : ranges_ok l ->
  (active r' = true -> range_ok r' /\ forall j q, l !! j = Some q -> j <> i -> active q = true -> apart r' q) ->
  ranges_ok (<[i := r']> l).
Proof.
  intros [R1 R2] Hr. constructor.
  - intros j q [(<- & <- & _)|[_ Hj]]%list_lookup_insert_Some; [intros Ha; by apply Hr|by eapply R1].
  - intros j k q p [(<- & <- & _)|[Hj Hq]]%list_lookup_insert_Some [(E & <- & _)|[Hk Hp]]%list_lookup_insert_Some Hne Aq Ap;
      [lia| | |by eapply R2].
    + destruct (Hr Aq) as [_ Ha]. by eapply Ha.
    + subst k. destruct (Hr Ap) as [_ Ha]. destruct (Ha j q Hq) as [?|?]; [lia|done|by right|by left].
Qed.

Lemma space_of_empty va : space_of (replicate IovaMappingCapacity no_range) va = None.
Proof. apply space_of_None. by intros i r [-> _]%lookup_replicate. Qed.

Lemma ranges_ok_empty : ranges_ok (replicate IovaMappingCapacity no_range).
Proof. constructor; [by intros i r [-> _]%lookup_replicate|]. by intros i j r q [-> _]%lookup_replicate. Qed.

(** Choosing device addresses.  With free slots and no preference the lowest usable address is
    chosen, page-aligned, below 2^48 and apart from every active range; 49 passes over the 48 slots
    always reach it, and a refusal means that there is none.  A preferred address is taken exactly
    when it is aligned, in range and free. *)
Theorem AllocateIovaRange_first_fit x len preferred : ranges_ok (mappings x) -> length (mappings x) = IovaMappingCapacity ->
  0 < len < two64 -> is_u64 preferred ->
  match AllocateIovaRange x len preferred with
  | Some (a, slot) => chosen x len preferred a slot
  | None => (forall i r, mappings x !! i = Some r -> active r = true) \/
      (preferred = 0 /\ forall b, ~ usable (mappings x) len b) \/
      (preferred <> 0 /\ ~ (preferred mod 4096 = 0 /\ preferred + len <= 2 ^ 48 /\
         forall i r, mappings x !! i = Some r -> active r = true ->
           device_address r + length_ r <= preferred \/ preferred + len <= device_address r))
  end.
Proof. apply AllocateIovaRange_spec. Qed.
