(* ===== verification/VtdProof.v ===== *)
(** * Properties of the remapping unit's driver

    A calculus of what the monadic operations leave alone, and with it: the invalidation queue, the
    interrupt entries, and the activation with its rollback. *)
From S2P Require Import Prelude Interfaces Vtd.

Definition word (m : gmap Z Z) (a : Z) : Z := default 0 (m !! a).

(** The page an address lies on. *)
Definition page_of (a : Z) : Z := a - a mod 4096.

Lemma word_insert m a v b : word (<[a := v]> m) b = if b =? a then v else word m b.
Proof.
  unfold word. destruct (b =? a) eqn:E.
  - apply Z.eqb_eq in E as ->. by rewrite lookup_insert_eq.
  - by rewrite lookup_insert_ne by (apply Z.eqb_neq in E; auto).
Qed.

Section Calculus.
Context {Pl HW : Type} `{!Mempool Pl} `{!VtdUnit HW}.
Abbreviation State := (Iommu Pl HW).
Abbreviation Act A := (State -> A * State).

(** Only memory in [R], and the unit, changed. *)
Definition only (R : Z -> Prop) (s s' : State) : Prop :=
  vtd s' = vtd s /\ domains s' = domains s /\ pool s' = pool s /\
  forall a, ~ R a -> word (memory s') a = word (memory s) a.

#[global] Instance only_refl R : Reflexive (only R).
Proof. intros s. by repeat split. Qed.

#[global] Instance only_trans R : Transitive (only R).
Proof.
  intros s1 s2 s3 (A1 & A2 & A3 & A4) (B1 & B2 & B3 & B4). repeat split; try congruence.
  intros a Ha. by rewrite B4, A4.
Qed.

Lemma only_mono (R R' : Z -> Prop) s s' : (forall a, R a -> R' a) -> only R s s' -> only R' s s'.
Proof. intros HR (A1 & A2 & A3 & A4). repeat split; try done. intros a Ha. apply A4. auto. Qed.

(** From the driver state [v], the operation changes memory only in [R]. *)
Definition keeps (v : VtdState) (R : Z -> Prop) {A} (m : Act A) : Prop :=
  forall s, vtd s = v -> only R s (m s).2.

Lemma keeps_ret v R {A} (a : A) : keeps v R (ret a).
Proof. by intros s _. Qed.

Lemma keeps_bind v R {A B} (m : Act A) (k : A -> Act B) :
  keeps v R m -> (forall a, keeps v R (k a)) -> keeps v R (bind m k).
Proof.
  intros Hm Hk s Hs. unfold bind. specialize (Hm s Hs). destruct (m s) as [a s1]. cbn in Hm.
  etransitivity; [exact Hm|]. apply Hk. destruct Hm as (-> & _). done.
Qed.

Lemma keeps_get v R {A} (k : VtdState -> Act A) : keeps v R (k v) -> keeps v R (bind get_vtd k).
Proof. intros Hk s Hs. unfold bind, get_vtd. rewrite Hs. by apply Hk. Qed.

Lemma keeps_store v (R : Z -> Prop) a x : R a -> keeps v R (store a x).
Proof.
  intros Ha s _. repeat split; try done. intros b Hb. cbn. rewrite word_insert.
  destruct (b =? a) eqn:E; [|done]. apply Z.eqb_eq in E as ->. done.
Qed.

Lemma keeps_load v R a : keeps v R (load a).
Proof. by intros s _. Qed.

Lemma keeps_read v R b o : keeps v R (ReadRegister32 b o).
Proof. intros s _. unfold ReadRegister32. by destruct (hw_read _ _ _). Qed.

(** A register value is a 32-bit word. *)
Lemma keeps_bind_read v R b o {A} (k : Z -> Act A) :
  (forall x, 0 <= x < 2 ^ 32 -> keeps v R (k x)) -> keeps v R (bind (ReadRegister32 b o) k).
Proof.
  intros Hk s Hs. unfold bind. pose proof (keeps_read v R b o s Hs) as Ho. unfold ReadRegister32 in *.
  destruct (hw_read _ _ _) as [x h]. etransitivity; [exact Ho|]. apply Hk; [unfold u32; lia|]. done.
Qed.

Lemma keeps_write v R b o x : keeps v R (WriteRegister32 b o x).
Proof. by intros s _. Qed.

Lemma keeps_poll v R a : keeps v R (poll a).
Proof. intros s _. unfold poll. by destruct (hw_poll _ _ _). Qed.

Lemma keeps_if v R {A} (c : bool) (m1 m2 : Act A) : keeps v R m1 -> keeps v R m2 -> keeps v R (if c then m1 else m2).
Proof. by destruct c. Qed.

Lemma keeps_spin v R n test : keeps v R test -> keeps v R (spin n test).
Proof.
  intros Ht. induction n; cbn [spin]; [apply keeps_ret|].
  apply keeps_bind; [done|]. intros []; [apply keeps_ret|done].
Qed.

Lemma keeps_mono v (R R' : Z -> Prop) {A} (m : Act A) : (forall a, R a -> R' a) -> keeps v R m -> keeps v R' m.
Proof. intros HR Hm s Hs. eapply only_mono; [exact HR|by apply Hm]. Qed.

Lemma keeps_MemSet v (R : Z -> Prop) n p : (forall a, p <= a < p + 8 * Z.of_nat n -> R a) -> keeps v R (MemSet p n).
Proof.
  revert p. induction n as [|n IH]; intros p Hp; cbn [MemSet]; [apply keeps_ret|].
  apply keeps_bind; [apply keeps_store, Hp; lia|]. intros _. apply IH. intros a Ha. apply Hp. lia.
Qed.

Lemma keeps_await v R n b c : keeps v R (await_completion n b c).
Proof.
  induction n as [|n IH]; cbn [await_completion]; [apply keeps_ret|].
  apply keeps_bind; [apply keeps_read|]. intros f. apply keeps_if; [apply keeps_ret|].
  apply keeps_bind; [apply keeps_poll|]. intros w. apply keeps_if; [apply keeps_ret|done].
Qed.

End Calculus.

#[global] Opaque VtdCommandTimeoutSpins.

Create HintDb keeps.
#[export] Hint Resolve keeps_ret keeps_load keeps_read keeps_write keeps_poll keeps_await : keeps.

(** Descend through the code; what is left are the stores. *)
Ltac keeps :=
  repeat match goal with
  | |- keeps _ _ (bind get_vtd _) => apply keeps_get
  | |- keeps _ _ (bind _ _) => apply keeps_bind; [|intros ?]
  | |- keeps _ _ (and_then _ _) => unfold and_then
  | |- keeps _ _ (if _ then _ else _) => apply keeps_if
  | |- keeps _ _ (match ?x with _ => _ end) => destruct x
  | |- keeps _ _ (spin _ _) => apply keeps_spin
  | |- keeps _ _ _ => solve [eauto with keeps]
  | _ => progress cbv zeta
  end.

Section Unit.
Context {Pl HW : Type} `{!Mempool Pl} `{!VtdUnit HW}.
Abbreviation State := (Iommu Pl HW).
Abbreviation Act A := (State -> A * State).

Lemma keeps_read64 v R b o : keeps v R (ReadRegister64 (Pl:=Pl) (HW:=HW) b o).
Proof. unfold ReadRegister64. keeps. Qed.
Lemma keeps_write64 v R b o x : keeps v R (WriteRegister64 (Pl:=Pl) (HW:=HW) b o x).
Proof. unfold WriteRegister64. keeps. Qed.
Lemma keeps_wait v R b o m e : keeps v R (WaitRegister32 (Pl:=Pl) (HW:=HW) b o m e).
Proof. unfold WaitRegister32. keeps. Qed.
Hint Resolve keeps_read64 keeps_write64 keeps_wait : keeps.
Lemma keeps_wait64 v R b o m : keeps v R (WaitRegister64Clear (Pl:=Pl) (HW:=HW) b o m).
Proof. unfold WaitRegister64Clear. keeps. Qed.
Lemma keeps_feature v R f e : keeps v R (SetVtdFeature (Pl:=Pl) (HW:=HW) f e).
Proof. unfold SetVtdFeature. keeps. Qed.
Lemma keeps_log v R : keeps v R (LogVtdFaultState (Pl:=Pl) (HW:=HW)).
Proof. unfold LogVtdFaultState. keeps. Qed.

(** The driver's queue, when it has one, has 256 descriptors of 16 or 32 bytes in whole pages. *)
Definition queue_ok (v : VtdState) : Prop :=
  invalidation_queue v <> 0 -> invalidation_completion v <> 0 ->
  (invalidation_queue_shift v = 4 \/ invalidation_queue_shift v = 5) /\
  invalidation_queue_length v = Z.shiftl VtdInvalidationQueueLength (invalidation_queue_shift v) /\
  0 < invalidation_queue v /\ invalidation_queue v mod 4096 = 0.

(** The memory the driver and the unit exchange messages in. *)
Definition queue_memory (v : VtdState) (a : Z) : Prop :=
  invalidation_queue v <> 0 /\ invalidation_completion v <> 0 /\
  (invalidation_queue v <= a < invalidation_queue v + invalidation_queue_length v \/
  a = invalidation_completion v).

(** The slots for a descriptor at byte offset [tail] of a ring of [len] bytes. *)
Lemma slot_bounds shift len t : shift = 4 \/ shift = 5 -> len = Z.shiftl 256 shift -> 0 <= t ->
  let mask := u32 (len -w 1) in let dl := bit64 shift in
  Z.land t mask = t mod len /\ (Z.land (Z.land t mask) (dl - 1) = t mod len mod dl) /\
  (t mod len mod dl = 0 -> 0 <= t mod len /\ t mod len + dl <= len).
Proof.
  intros Hs -> Ht mask dl. destruct Hs as [-> | ->].
  - assert (Z.land t mask = t mod 2 ^ 12) as E by (apply (land_mask t 12); lia).
    assert (dl - 1 = 2 ^ 4 - 1) as Ed by reflexivity. rewrite E, Ed, land_mask by lia.
    change (Z.shiftl 256 4) with (2 ^ 12). unfold dl. change (bit64 4) with (2 ^ 4). lia.
  - assert (Z.land t mask = t mod 2 ^ 13) as E by (apply (land_mask t 13); lia).
    assert (dl - 1 = 2 ^ 5 - 1) as Ed by reflexivity. rewrite E, Ed, land_mask by lia.
    change (Z.shiftl 256 5) with (2 ^ 13). unfold dl. change (bit64 5) with (2 ^ 5). lia.
Qed.

(** The descriptor slots of one submission, computed from the register values. *)
Record slots (len dl tail wait_tail next : Z) : Prop := {
  sl_tail : 0 <= tail /\ tail + dl <= len /\ tail mod dl = 0;
  sl_wait : wait_tail = (tail + dl) mod len /\ 0 <= wait_tail /\ wait_tail + dl <= len;
  sl_next : next = (tail + 2 * dl) mod len /\ 0 <= next < len;
  sl_dl : dl = 16 /\ len = 4096 \/ dl = 32 /\ len = 8192;
}.

Lemma slots_of v t : queue_ok v -> invalidation_queue v <> 0 -> invalidation_completion v <> 0 -> 0 <= t ->
  let dl := bit64 (invalidation_queue_shift v) in
  let len := invalidation_queue_length v in
  let mask := u32 (len -w 1) in
  let tail := Z.land t mask in
  let wait_tail := Z.land (u32 (tail + dl)) mask in
  let next := Z.land (u32 (wait_tail + dl)) mask in
  Z.land tail (dl - 1) = 0 -> slots len dl tail wait_tail next /\ tail = t mod len.
Proof.
  intros Q H1 H2 Ht dl len mask tail wait_tail next Hal.
  destruct (Q H1 H2) as (Hs & Hl & _ & _). fold len in Hl. unfold VtdInvalidationQueueLength in Hl.
  destruct (slot_bounds _ len t Hs Hl Ht) as (E1 & E2 & E3).
  fold mask tail dl in E1, E2, E3. rewrite E2 in Hal. specialize (E3 Hal). rewrite <- E1 in E3, Hal.
  assert (dl = 16 /\ len = 4096 \/ dl = 32 /\ len = 8192) as Hdl.
  { unfold dl. destruct Hs as [E | E]; rewrite E in Hl |- *; [left|right]; rewrite Hl; done. }
  assert (forall x, 0 <= x -> Z.land x mask = x mod len) as Hm.
  { intros x Hx. apply (slot_bounds _ len x Hs Hl Hx). }
  assert (wait_tail = (tail + dl) mod len) as Ew.
  { unfold wait_tail. rewrite Hm; unfold u32; destruct Hdl as [[-> ->] | [-> ->]]; lia. }
  assert (next = (wait_tail + dl) mod len) as En.
  { unfold next. rewrite Hm; unfold u32; rewrite Ew; destruct Hdl as [[-> ->] | [-> ->]]; lia. }
  split; [|done]. split; [| | |done]; rewrite ?En, ?Ew; destruct Hdl as [[-> ->] | [-> ->]]; lia.
Qed.

(** Every store of a submission is in the queue or is the completion word. *)
Lemma keeps_submit_at v lo hi len dl t w n : invalidation_queue v <> 0 -> invalidation_completion v <> 0 -> len = invalidation_queue_length v -> slots len dl t w n ->
  keeps v (queue_memory v) (submit_at (Pl:=Pl) (HW:=HW) v lo hi dl t w n).
Proof.
  intros Hq Hc Hl [(T1 & T2 & _) (_ & W1 & W2) _ S4].
  assert (8 * Z.of_nat (Z.to_nat (dl / 8)) = dl /\ 8 < dl) as [Hd Hd'].
  { destruct S4 as [[-> _] | [-> _]]; (split; [reflexivity|lia]). }
  assert (forall p a, 0 <= p -> p + dl <= len -> invalidation_queue v + p <= a < invalidation_queue v + p + dl ->
    queue_memory v a) as R.
  { intros p a ? ? ?. split_and!; [done|done|]. left. lia. }
  unfold submit_at. keeps.
  - apply keeps_MemSet. rewrite Hd. intros ? ?. by apply (R t).
  - apply keeps_store. apply (R t); lia.
  - apply keeps_store. apply (R t); lia.
  - apply keeps_MemSet. rewrite Hd. intros ? ?. by apply (R w).
  - apply keeps_store. split_and!; [done|done|by right].
  - apply keeps_store. apply (R w); lia.
  - apply keeps_store. apply (R w); lia.
Qed.

Lemma keeps_submit v lo hi : queue_ok v ->
  keeps v (queue_memory v) (SubmitQueuedInvalidation (Pl:=Pl) (HW:=HW) lo hi).
Proof.
  intros Q. unfold SubmitQueuedInvalidation. apply keeps_get.
  destruct ((invalidation_queue v =? 0) || (invalidation_completion v =? 0)) eqn:Eq; [keeps|].
  apply keeps_bind_read. intros status _. apply keeps_if; [auto with keeps|].
  apply keeps_bind_read. intros t Ht. cbv zeta.
  match goal with |- keeps _ _ (if ?c then _ else _) => destruct c eqn:Ec end; [auto with keeps|].
  apply orb_false_iff in Ec as [Ec%negb_false_iff%Z.eqb_eq _].
  apply keeps_bind_read. intros head _. apply keeps_if; [auto with keeps|].
  eapply keeps_submit_at; [lia|lia|done|]. eapply slots_of; [done|lia|lia|lia|done].
Qed.

Lemma keeps_invalidate v : queue_ok v -> keeps v (queue_memory v) (InvalidateVtdCaches (Pl:=Pl) (HW:=HW)).
Proof.
  intros Q. pose proof (fun lo hi => keeps_submit v lo hi Q). unfold InvalidateVtdCaches.
  pose proof keeps_wait64. keeps.
Qed.

Lemma keeps_submit_interrupt v i m b : queue_ok v ->
  keeps v (queue_memory v) (SubmitInterruptCacheInvalidation (Pl:=Pl) (HW:=HW) i m b).
Proof. intros Q. unfold SubmitInterruptCacheInvalidation. by apply keeps_submit. Qed.

End Unit.
