(* ===== verification/IovaTree.v ===== *)
(** * The translation tables of a domain

    The tables of a domain form a four-level tree in memory.  [translate] is how the remapping unit
    reads them; the driver's walk and its updates are related to it through the tree. *)
From S2P Require Import Prelude Interfaces Vtd Iova VtdProof.

Definition page_ok (p : Z) : Prop := 0 < p /\ p mod 4096 = 0 /\ p + 4096 <= two64.

(** The unit reads the entry of a table: the next address, when the entry allows an access. *)
Definition next_table (m : gmap Z Z) (t i : Z) : option Z :=
  let e := word m (t + 8 * i) in
  if truthy (Z.land e VtdPageReadWrite) then Some (Z.land e VtdPageAddressMask) else None.

(** The walk of the unit for a 48-bit device address. *)
Definition translate (m : gmap Z Z) (rt va : Z) : option Z :=
  t1 ← next_table m rt (index_at 39 va);
  t2 ← next_table m t1 (index_at 30 va);
  t3 ← next_table m t2 (index_at 21 va);
  p ← next_table m t3 (index_at 12 va);
  Some (p + va mod 4096).

(** ** Entries *)

Lemma land_page_mask x : is_u64 x -> Z.land x VtdPageAddressMask = x - x mod 4096.
Proof.
  intros Hx. change VtdPageAddressMask with (Z.land (Z.ones 64) (Z.lnot (2 ^ 12 - 1))).
  rewrite Z.land_assoc, Z.land_ones, land_lnot_mask by lia. change (2 ^ 12) with 4096.
  rewrite (Z.mod_small x) by exact Hx. done.
Qed.

Lemma lor_3 p : p mod 4096 = 0 -> Z.lor p 3 = p + 3.
Proof.
  intros Hp. assert (Z.land p 3 = 0) as E by (change 3 with (2 ^ 2 - 1); rewrite land_mask by lia; lia).
  rewrite Z.add_nocarry_lxor by done. symmetry. by apply Z.lxor_lor.
Qed.

Lemma entry_present p : page_ok p -> truthy (Z.land (Z.lor p VtdPageReadWrite) VtdPageReadWrite) = true.
Proof.
  intros (_ & Hp & _). unfold VtdPageReadWrite. rewrite lor_3 by done.
  change 3 with (2 ^ 2 - 1) at 2. rewrite land_mask by lia. unfold truthy. lia.
Qed.

Lemma entry_address p : page_ok p -> Z.land (Z.lor p VtdPageReadWrite) VtdPageAddressMask = p.
Proof.
  intros (H1 & H2 & H3). unfold VtdPageReadWrite. rewrite lor_3, land_page_mask by (unfold is_u64; lia). lia.
Qed.

Lemma leaf_word_ok pa : page_ok pa -> leaf_word pa = Z.lor pa VtdPageReadWrite.
Proof.
  intros (H1 & H2 & H3). unfold leaf_word. rewrite land_page_mask by (unfold is_u64; lia).
  f_equal. lia.
Qed.

Lemma index_at_eq k va : 0 <= k -> index_at k va = (va / 2 ^ k) mod 512.
Proof.
  intros Hk. unfold index_at. change 0x1FF with (2 ^ 9 - 1).
  rewrite Z.shiftr_div_pow2, land_mask by lia. done.
Qed.

(** Words of different tables, or of different indices, have different addresses. *)
Lemma cell_inj t u i j : t mod 4096 = 0 -> u mod 4096 = 0 -> 0 <= i < 512 -> 0 <= j < 512 ->
  t + 8 * i = u + 8 * j -> t = u /\ i = j.
Proof. lia. Qed.

(** ** The tree

    [node k p] is the table at level [k] for the addresses with prefix [p]: those of
    [p * 2 ^ (48 - 9 k)] and the [2 ^ (48 - 9 k)] bytes from there. *)
Record Tree (m : gmap Z Z) (rt : Z) (node : nat -> Z -> option Z) : Prop := {
  tr_root : node 0%nat 0 = Some rt;
  tr_page : forall k p t, node k p = Some t -> page_ok t;
  tr_level : forall k p t, node k p = Some t -> (k <= 3)%nat /\ (k = 0%nat -> p = 0);
  tr_inj : forall k p l q t, node k p = Some t -> node l q = Some t -> k = l /\ p = q;
  tr_link : forall k p t i, (k < 3)%nat -> node k p = Some t -> 0 <= i < 512 ->
    next_table m t i = node (S k) (p * 512 + i);
  tr_closed : forall k q t, node (S k) q = Some t -> is_Some (node k (q / 512));
}.

(** The address of the leaf entry of a device address. *)
Definition leaf (node : nat -> Z -> option Z) (va : Z) : option Z :=
  t ← node 3%nat (va / 2 ^ 21); Some (t + 8 * index_at 12 va).

Section Tree.
Context {m : gmap Z Z} {rt : Z} {node : nat -> Z -> option Z} (T : Tree m rt node).

(** One level of the walk. *)
Lemma tree_step k va t : (k < 3)%nat -> node k (va / 2 ^ (48 - 9 * Z.of_nat k)) = Some t ->
  next_table m t (index_at (39 - 9 * Z.of_nat k) va) = node (S k) (va / 2 ^ (48 - 9 * Z.of_nat (S k))).
Proof.
  intros Hk Hn. rewrite index_at_eq by lia. rewrite (tr_link _ _ _ T k _ t) by (done || lia).
  f_equal. do 3 (destruct k as [|k]; [cbn -[Z.div Z.modulo Z.pow]; lia|]). lia.
Qed.

Lemma tree_start va : 0 <= va < 2 ^ 48 -> node 0%nat (va / 2 ^ 48) = Some rt.
Proof. intros Hva. rewrite Z.div_small by done. apply (tr_root _ _ _ T). Qed.

(** Without a table on the way there is none below. *)
Lemma tree_none k va : node k (va / 2 ^ (48 - 9 * Z.of_nat k)) = None ->
  (k < 3)%nat -> node (S k) (va / 2 ^ (48 - 9 * Z.of_nat (S k))) = None.
Proof.
  intros Hn Hk. destruct (node (S k) _) as [t|] eqn:E; [|done]. apply (tr_closed _ _ _ T) in E as [u E].
  rewrite Z.div_div in E by lia. replace 512 with (2 ^ 9) in E by done.
  rewrite <- Z.pow_add_r in E by lia. replace (48 - 9 * Z.of_nat (S k) + 9) with (48 - 9 * Z.of_nat k) in E by lia.
  congruence.
Qed.

(** The unit's walk ends at the leaf of the tree. *)
Lemma translate_leaf va : 0 <= va < 2 ^ 48 ->
  translate m rt va = t ← node 3%nat (va / 2 ^ 21); p ← next_table m t (index_at 12 va); Some (p + va mod 4096).
Proof.
  intros Hva. unfold translate. pose proof (tree_start va Hva) as H0.
  assert (next_table m rt (index_at 39 va) = node 1%nat (va / 2 ^ 39)) as E1 by exact (tree_step 0 va rt ltac:(lia) H0).
  assert (forall t, node 1%nat (va / 2 ^ 39) = Some t -> next_table m t (index_at 30 va) = node 2%nat (va / 2 ^ 30)) as E2
    by exact (fun t => tree_step 1 va t ltac:(lia)).
  assert (forall t, node 2%nat (va / 2 ^ 30) = Some t -> next_table m t (index_at 21 va) = node 3%nat (va / 2 ^ 21)) as E3
    by exact (fun t => tree_step 2 va t ltac:(lia)).
  assert (node 1%nat (va / 2 ^ 39) = None -> node 2%nat (va / 2 ^ 30) = None) as N1
    by exact (fun h => tree_none 1 va h ltac:(lia)).
  assert (node 2%nat (va / 2 ^ 30) = None -> node 3%nat (va / 2 ^ 21) = None) as N2
    by exact (fun h => tree_none 2 va h ltac:(lia)).
  rewrite E1. destruct (node 1%nat _) as [t1|]; cbn [mbind option_bind].
  2: { by rewrite N2 by auto. }
  rewrite (E2 t1) by done. destruct (node 2%nat _) as [t2|]; cbn [mbind option_bind].
  2: { by rewrite N2. }
  by rewrite (E3 t2).
Qed.

End Tree.

(** ** Updates *)

Lemma next_table_word m m' t i : word m' (t + 8 * i) = word m (t + 8 * i) -> next_table m' t i = next_table m t i.
Proof. unfold next_table. by intros ->. Qed.

(** Memory outside the tables does not matter. *)
Lemma Tree_frame m m' rt node : Tree m rt node ->
  (forall k p t i, (k < 3)%nat -> node k p = Some t -> 0 <= i < 512 -> word m' (t + 8 * i) = word m (t + 8 * i)) ->
  Tree m' rt node.
Proof.
  intros [R P L I K C] Hm. constructor; try done.
  intros k p t i Hk Hn Hi. rewrite <- (K k p t i) by done. by apply next_table_word, (Hm k p).
Qed.

(** What a leaf entry translates an offset to. *)
Definition decode (e offset : Z) : option Z :=
  if truthy (Z.land e VtdPageReadWrite) then Some (Z.land e VtdPageAddressMask + offset) else None.

Lemma translate_decode m rt node va : Tree m rt node -> 0 <= va < 2 ^ 48 ->
  translate m rt va = a ← leaf node va; decode (word m a) (va mod 4096).
Proof.
  intros T Hva. rewrite (translate_leaf T) by done. unfold leaf, decode, next_table.
  destruct (node 3%nat _) as [t|]; [|done]. cbn [mbind option_bind]. by destruct (truthy _).
Qed.

Lemma leaf_inj m rt node va vb a : Tree m rt node -> leaf node va = Some a -> leaf node vb = Some a ->
  va / 4096 = vb / 4096.
Proof.
  intros T. unfold leaf. rewrite !index_at_eq by lia.
  destruct (node 3%nat (va / _)) as [t|] eqn:Ea; [|done]. destruct (node 3%nat (vb / _)) as [u|] eqn:Eb; [|done].
  cbn [mbind option_bind]. intros [= <-] [= E].
  destruct (tr_page _ _ _ T _ _ _ Ea) as (_ & Pt & _). destruct (tr_page _ _ _ T _ _ _ Eb) as (_ & Pu & _).
  apply cell_inj in E as [-> E]; [|lia..]. destruct (tr_inj _ _ _ T _ _ _ _ _ Ea Eb) as [_ E2].
  change (2 ^ 21) with 2097152 in E2. change (2 ^ 12) with 4096 in E. lia.
Qed.

(** Writing a leaf entry changes the translation of its page and nothing else. *)
Lemma Tree_store m rt node va a v : Tree m rt node -> 0 <= va < 2 ^ 48 -> leaf node va = Some a ->
  Tree (<[a := v]> m) rt node /\
  forall vb, 0 <= vb < 2 ^ 48 -> translate (<[a := v]> m) rt vb =
    if vb / 4096 =? va / 4096 then decode v (vb mod 4096) else translate m rt vb.
Proof.
  intros T Hva Hl. assert (Tree (<[a := v]> m) rt node) as T'.
  { apply (Tree_frame m); [done|]. intros k p t i Hk Hn Hi. rewrite word_insert.
    unfold leaf in Hl. destruct (node 3%nat _) as [u|] eqn:Eu; [|done]. injection Hl as <-.
    destruct (_ =? _) eqn:E; [|done]. apply Z.eqb_eq in E. rewrite index_at_eq in E by lia.
    destruct (tr_page _ _ _ T _ _ _ Eu) as (_ & Pu & _). destruct (tr_page _ _ _ T _ _ _ Hn) as (_ & Pt & _).
    apply cell_inj in E as [-> _]; [|lia..]. destruct (tr_inj _ _ _ T _ _ _ _ _ Hn Eu). lia. }
  split; [done|]. intros vb Hvb. rewrite (translate_decode _ _ node vb T' Hvb), (translate_decode _ _ node vb T Hvb).
  destruct (vb / 4096 =? va / 4096) eqn:E.
  - assert (leaf node vb = Some a) as ->.
    { rewrite <- Hl. unfold leaf. rewrite !index_at_eq by lia.
      replace (vb / 2 ^ 21) with (va / 2 ^ 21) by (change (2 ^ 21) with 2097152; lia).
      by replace (vb / 2 ^ 12) with (va / 2 ^ 12) by (change (2 ^ 12) with 4096; lia). }
    cbn [mbind option_bind]. by rewrite word_insert, Z.eqb_refl.
  - destruct (leaf node vb) as [b|] eqn:Eb; [|done]. cbn [mbind option_bind]. rewrite word_insert.
    destruct (b =? a) eqn:Ea; [|done]. apply Z.eqb_eq in Ea as ->.
    apply Z.eqb_neq in E. destruct E. by apply (leaf_inj m rt node vb va a).
Qed.

(** The tree with a new, empty table below an empty entry. *)
Definition with_node (node : nat -> Z -> option Z) (k : nat) (q t : Z) : nat -> Z -> option Z :=
  fun l r => if (l =? k)%nat && (r =? q) then Some t else node l r.

Lemma with_node_cases node k q t l r u : with_node node k q t l r = Some u ->
  (l = k /\ r = q /\ u = t) \/ (~ (l = k /\ r = q) /\ node l r = Some u).
Proof.
  unfold with_node. destruct ((l =? k)%nat && (r =? q)) eqn:E; [intros [= <-]; left; lia|].
  intros Hu. right. split; [lia|done].
Qed.

Lemma with_node_old node k q t l r : ~ (l = k /\ r = q) -> with_node node k q t l r = node l r.
Proof. intros Hn. unfold with_node. destruct ((l =? k)%nat && (r =? q)) eqn:E; [lia|done]. Qed.

Section Link.
Context {m m' : gmap Z Z} {rt : Z} {node : nat -> Z -> option Z} (T : Tree m rt node).
Context {k : nat} {p i t pn : Z} (Hk : (k < 3)%nat) (Ht : node k p = Some t) (Hi : 0 <= i < 512).
Context (Hfree : node (S k) (p * 512 + i) = None) (Hpn : page_ok pn) (Hnew : forall l q, node l q <> Some pn).
Context (Hlink : word m' (t + 8 * i) = Z.lor pn VtdPageReadWrite).
Context (Hzero : forall j, 0 <= j < 512 -> word m' (pn + 8 * j) = 0).
Context (Hm : forall a, a <> t + 8 * i -> ~ (pn <= a < pn + 4096) -> word m' a = word m a).

Abbreviation node' := (with_node node (S k) (p * 512 + i) pn).

Lemma link_word l q u j : node l q = Some u -> 0 <= j < 512 -> ~ (u = t /\ j = i) ->
  word m' (u + 8 * j) = word m (u + 8 * j).
Proof.
  intros Hu Hj Hne. destruct (tr_page _ _ _ T _ _ _ Hu) as (U1 & U2 & _).
  destruct (tr_page _ _ _ T _ _ _ Ht) as (T1 & T2 & _). destruct Hpn as (P1 & P2 & _). apply Hm.
  - intros E. apply cell_inj in E; [tauto|lia..].
  - intros E. assert (u = pn) as -> by lia. by destruct (Hnew l q).
Qed.

Lemma link_new j : 0 <= j < 512 -> next_table m' pn j = None.
Proof. intros Hj. unfold next_table. by rewrite Hzero. Qed.

Lemma link_entry : next_table m' t i = Some pn.
Proof. unfold next_table. rewrite Hlink, entry_present by done. by rewrite entry_address. Qed.

Lemma Tree_link : Tree m' rt node'.
Proof.
  constructor.
  - rewrite with_node_old by lia. apply (tr_root _ _ _ T).
  - intros l q u [(-> & -> & ->) | [_ Hu]]%with_node_cases; [done|by apply (tr_page _ _ _ T _ _ _ Hu)].
  - intros l q u [(-> & -> & ->) | [_ Hu]]%with_node_cases; [lia|by apply (tr_level _ _ _ T _ _ _ Hu)].
  - intros l q l' q' u [(-> & -> & ->) | [_ Hu]]%with_node_cases [(-> & -> & E) | [_ Hv]]%with_node_cases; try done.
    + by destruct (Hnew l' q').
    + subst u. by destruct (Hnew l q).
    + by apply (tr_inj _ _ _ T _ _ _ _ _ Hu).
  - intros l q u j Hl [(-> & -> & ->) | [Hne Hu]]%with_node_cases Hj.
    + rewrite link_new, with_node_old by lia. destruct (node (S (S k)) _) as [w|] eqn:Ew; [|done].
      apply (tr_closed _ _ _ T) in Ew as [? Ew]. replace (((p * 512 + i) * 512 + j) / 512) with (p * 512 + i) in Ew by lia.
      congruence.
    + destruct (decide (u = t /\ j = i)) as [[-> ->]|Hn].
      * destruct (tr_inj _ _ _ T _ _ _ _ _ Hu Ht) as [-> ->]. rewrite link_entry. unfold with_node.
        by rewrite Nat.eqb_refl, Z.eqb_refl.
      * rewrite (next_table_word m) by by apply (link_word l q). rewrite (tr_link _ _ _ T l q u j) by done.
        symmetry. apply with_node_old. intros [[= ->] Eq]. assert (q = p /\ j = i) as [-> ->] by lia.
        apply Hn. split; [congruence|done].
  - intros l q u [(E & -> & ->) | [_ Hu]]%with_node_cases.
    + injection E as ->. replace ((p * 512 + i) / 512) with p by lia.
      rewrite with_node_old by lia. by rewrite Ht.
    + destruct (tr_closed _ _ _ T _ _ _ Hu) as [w Hw]. unfold with_node. rewrite Hw. by destruct (_ && _).
Qed.

(** Linking an empty table translates nothing new. *)
Lemma translate_link va : 0 <= va < 2 ^ 48 -> translate m' rt va = translate m rt va.
Proof.
  intros Hva. rewrite (translate_leaf Tree_link), (translate_leaf T) by done.
  assert (0 <= index_at 12 va < 512) as Hx by (rewrite index_at_eq; lia).
  destruct (decide (3%nat = S k /\ va / 2 ^ 21 = p * 512 + i)) as [[Ek Eq]|Hn].
  - rewrite Eq, Ek, Hfree. unfold with_node. rewrite Nat.eqb_refl, Z.eqb_refl. cbn [andb mbind option_bind].
    by rewrite link_new.
  - rewrite with_node_old by tauto. destruct (node 3%nat _) as [u|] eqn:Eu; [|done]. cbn [mbind option_bind].
    rewrite (next_table_word m); [done|]. apply (link_word _ _ _ _ Eu); [done|]. intros [-> _].
    destruct (tr_inj _ _ _ T _ _ _ _ _ Eu Ht). lia.
Qed.

End Link.

(** A new domain: an empty root table. *)
Lemma Tree_empty m rt : page_ok rt -> (forall i, 0 <= i < 512 -> word m (rt + 8 * i) = 0) ->
  Tree m rt (fun k p => if (k =? 0)%nat && (p =? 0) then Some rt else None) /\
  forall va, 0 <= va < 2 ^ 48 -> translate m rt va = None.
Proof.
  intros Hrt Hz. assert (forall i, 0 <= i < 512 -> next_table m rt i = None) as Hn.
  { intros i Hi. unfold next_table. by rewrite Hz. }
  assert (forall k p t, (if (k =? 0)%nat && (p =? 0) then Some rt else None) = Some t -> k = 0%nat /\ p = 0 /\ t = rt) as Hc.
  { intros k p t. destruct (_ && _) eqn:E; [intros [= <-]; lia|done]. }
  split.
  - constructor; try done.
    + by intros k p t (-> & -> & ->)%Hc.
    + intros k p t (-> & -> & ->)%Hc. lia.
    + intros k p l q t (-> & -> & ->)%Hc (-> & -> & _)%Hc. done.
    + intros k p t i Hk (-> & -> & ->)%Hc Hi. by rewrite Hn.
  - intros va Hva. unfold translate. rewrite Hn; [done|]. rewrite index_at_eq; lia.
Qed.
