(* ===== verification/IovaProof.v ===== *)
(** * The domains of the remapping unit

    Which page of memory serves what, and the invariant that the tables of every domain are a tree
    of the domain's own pages.  [Spaces role s F] says that the unit translates the addresses of
    domain [d] by the function [F d]; every operation on tables is specified by how it changes [F]. *)
From S2P Require Import Prelude Interfaces Vtd Iova VtdProof IovaTree.

Inductive Role := RootTable | ContextTable | QueuePage | RemapTable | DomainTable (d : nat).
#[global] Instance Role_eq_dec : EqDecision Role.
Proof. solve_decision. Defined.

(** The fields of a PCI node are within their types. *)
Definition dev_ok (n : DeviceNode) : Prop :=
  0 <= pci_bus (fields n) < 256 /\ 0 <= pci_device (fields n) /\ 0 <= pci_function (fields n).

(** The records differ at most in their tables. *)
Definition same_dom (x x' : IovaDomain) : Prop :=
  x' = MkDomain (dom_active x) (attached x) (device x) (domain_id x) (root x) (tables x') (table_count x') (mappings x).

Lemma page_of_cell t o : t mod 4096 = 0 -> 0 <= o < 4096 -> page_of (t + o) = t.
Proof. unfold page_of. lia. Qed.

Section Domains.
Context {Pl HW : Type} `{!Mempool Pl} `{!MempoolLaws Pl} `{!VtdUnit HW}.
Abbreviation State := (Iommu Pl HW).

Definition live_tables (x : IovaDomain) : list Z := take (table_count x) (tables x).

(** The roles of pages, apart from the contents of the domains' tables. *)
Record Base (role : gmap Z Role) (s : State) : Prop := {
  b_owned : forall p r, role !! p = Some r ->
    page_ok p /\ forall q, p <= q < p + 4096 -> mp_owned (pool s) q;
  b_queue : queue_ok (vtd s) /\ forall a, queue_memory (vtd s) a -> role !! page_of a = Some QueuePage;
  b_root : root_table (vtd s) <> 0 -> role !! root_table (vtd s) = Some RootTable /\
    forall bus, 0 <= bus < 256 ->
      let t := Z.land (word (memory s) (root_table (vtd s) + 16 * bus)) VtdPageAddressMask in
      t = 0 \/ role !! t = Some ContextTable;
  b_passthrough : passthrough_enabled (vtd s) = true -> root_table (vtd s) <> 0;
  b_domains : length (domains s) = IovaDomainCapacity;
  b_tables : forall d x, domains s !! d = Some x ->
    length (tables x) = IovaTableCapacity /\ (table_count x <= IovaTableCapacity)%nat /\
    NoDup (live_tables x) /\ (forall p, p ∈ live_tables x <-> role !! p = Some (DomainTable d)) /\
    length (mappings x) = IovaMappingCapacity;
}.

(** The tables of a domain are a tree on the domain's pages, and translate by [f]. *)
Definition Space (role : gmap Z Role) (m : gmap Z Z) (f : Z -> option Z) (d : nat) (x : IovaDomain) : Prop :=
  if dom_active x then
    dev_ok (device x) /\ exists node, Tree m (root x) node /\
      (forall k p t, node k p = Some t -> role !! t = Some (DomainTable d)) /\
      forall va, 0 <= va < 2 ^ 48 -> translate m (root x) va = f va
  else x = no_domain.

Definition Spaces (role : gmap Z Role) (s : State) (F : nat -> Z -> option Z) : Prop :=
  Base role s /\ forall d x, domains s !! d = Some x -> Space role (memory s) (F d) d x.

(** ** Framing *)

Lemma role_page role (s : State) p r o : Base role s -> role !! p = Some r -> 0 <= o < 4096 -> page_of (p + o) = p.
Proof. intros B Hp Ho. apply page_of_cell; [|done]. by apply (b_owned _ _ B p r). Qed.

(** A domain whose pages keep their words and roles keeps its space. *)
Lemma Space_frame role role' m m' f f' d x : Space role m f d x ->
  (forall p r, role !! p = Some r -> p mod 4096 = 0) ->
  (forall a, role !! page_of a = Some (DomainTable d) -> word m' a = word m a) ->
  (forall p, role !! p = Some (DomainTable d) -> role' !! p = Some (DomainTable d)) ->
  (forall va, 0 <= va < 2 ^ 48 -> f' va = f va) -> Space role' m' f' d x.
Proof.
  intros HS Hal Hw Hr Hf. unfold Space in *. destruct (dom_active x); [|done].
  destruct HS as (Hd & node & T & Hn & Ht). split; [done|]. exists node.
  assert (forall k p t i, node k p = Some t -> 0 <= i < 512 -> word m' (t + 8 * i) = word m (t + 8 * i)) as Hw'.
  { intros k p t i Hk Hi. apply Hw. rewrite page_of_cell; [by eapply Hn|by eapply Hal, Hn|lia]. }
  assert (Tree m' (root x) node) as T' by (apply (Tree_frame m); [done|]; intros; by eapply Hw').
  split; [done|]. split; [intros; by eapply Hr, Hn|]. intros va Hva. rewrite Hf, <- Ht by done.
  rewrite (translate_decode _ _ node), (translate_decode m _ node) by done. unfold leaf.
  destruct (node 3%nat _) as [t|] eqn:E; [|done]. cbn [mbind option_bind]. rewrite (Hw' _ _ _ _ E); [done|].
  rewrite index_at_eq; lia.
Qed.

Lemma role_aligned role (s : State) p r : Base role s -> role !! p = Some r -> p mod 4096 = 0.
Proof. intros B Hp. by apply (b_owned _ _ B p r). Qed.

(** Only domain [d] changes. *)
Lemma Spaces_rebuild role role' (s s' : State) F F' d : Spaces role s F -> Base role' s' ->
  (forall d' x', d' <> d -> domains s' !! d' = Some x' -> domains s !! d' = Some x') ->
  (forall d' a, d' <> d -> role !! page_of a = Some (DomainTable d') -> word (memory s') a = word (memory s) a) ->
  (forall d' p, d' <> d -> role !! p = Some (DomainTable d') -> role' !! p = Some (DomainTable d')) ->
  (forall d' va, d' <> d -> F' d' va = F d' va) ->
  (forall x', domains s' !! d = Some x' -> Space role' (memory s') (F' d) d x') -> Spaces role' s' F'.
Proof.
  intros [B HS] B' Hd Hw Hr Hf Hx. split; [done|]. intros d' x' Hl.
  destruct (decide (d' = d)) as [->|Hne]; [by apply Hx|].
  apply (Space_frame role role' (memory s) _ (F d')); [by apply HS, Hd| | | |].
  - intros p r Hp. by apply (role_aligned role s p r).
  - intros a. by apply Hw.
  - intros p. by apply Hr.
  - intros va _. by apply Hf.
Qed.

(** Pages that may change without harm to the structures. *)
Definition scratch (role : gmap Z Role) (a : Z) : Prop :=
  role !! page_of a = Some QueuePage \/ role !! page_of a = Some ContextTable \/ role !! page_of a = Some RemapTable.

Lemma Base_only role (s s' : State) R : Base role s -> only R s s' -> (forall a, R a -> scratch role a) -> Base role s'.
Proof.
  intros B (V & D & P & W) HR. pose proof B as [B1 B2 B3 B4 B5 B6]. constructor; rewrite ?V, ?D, ?P; try done.
  intros Hnz. destruct (B3 Hnz) as [R1 R2]. split; [done|]. intros bus Hb. rewrite W; [by apply R2|].
  intros Hin%HR. unfold scratch in Hin. erewrite role_page in Hin; [|exact B|exact R1|lia]. rewrite R1 in Hin. naive_solver.
Qed.

(** Memory that belongs to no table of a domain and not to the root table may change. *)
Lemma Spaces_only role (s s' : State) F R : Spaces role s F -> only R s s' -> (forall a, R a -> scratch role a) ->
  Spaces role s' F.
Proof.
  intros [B HS] HO HR. split; [by eapply Base_only|]. destruct HO as (V & D & P & W).
  intros d x. rewrite D. intros Hx. apply (Space_frame role role (memory s) _ (F d)); auto.
  - intros p r Hp. by apply (role_aligned role s p r).
  - intros a Ha. apply W. intros Hin%HR. unfold scratch in Hin. rewrite Ha in Hin. naive_solver.
Qed.

Lemma Spaces_keeps role (s : State) F v R {A} (m : State -> A * State) : Spaces role s F -> vtd s = v -> keeps v R m ->
  (forall a, R a -> scratch role a) -> Spaces role (m s).2 F /\ vtd (m s).2 = vtd s /\ domains (m s).2 = domains s.
Proof.
  intros HS Hv Hm HR. specialize (Hm s Hv). split; [by eapply Spaces_only|]. by destruct Hm as (? & ? & _).
Qed.

(** The flush touches the queue only. *)
Lemma Spaces_invalidate role (s : State) F r s' : Spaces role s F -> InvalidateVtdCaches s = (r, s') ->
  Spaces role s' F /\ vtd s' = vtd s /\ domains s' = domains s /\ only (queue_memory (vtd s)) s s'.
Proof.
  intros HS E. destruct (b_queue _ _ (proj1 HS)) as [Q1 Q2].
  pose proof (keeps_invalidate (vtd s) Q1 s eq_refl) as Hk.
  destruct (Spaces_keeps role s F (vtd s) _ InvalidateVtdCaches HS eq_refl (keeps_invalidate _ Q1)) as (S1 & S2 & S3).
  { intros a Ha. left. by apply Q2. }
  by rewrite E in *.
Qed.

(** ** Allocating a table *)

Lemma MemSet_words n p (s : State) : let s' := (MemSet p n s).2 in
  vtd s' = vtd s /\ domains s' = domains s /\ pool s' = pool s /\
  (forall j, 0 <= j < Z.of_nat n -> word (memory s') (p + 8 * j) = 0) /\
  forall a, ~ (p <= a < p + 8 * Z.of_nat n) -> word (memory s') a = word (memory s) a.
Proof.
  revert p s. induction n as [|n IH]; intros p s; [repeat split; done || lia|].
  cbn [MemSet]. unfold bind, store. set (s1 := MkIommu _ _ _ _ _).
  destruct (IH (p + 8) s1) as (A1 & A2 & A3 & A4 & A5). repeat split; try done.
  - intros j Hj. destruct (decide (j = 0)) as [->|].
    + rewrite A5 by lia. unfold s1; cbn [memory]. rewrite word_insert.
      by replace (p + 8 * 0 =? p) with true by lia.
    + replace (p + 8 * j) with (p + 8 + 8 * (j - 1)) by lia. apply A4. lia.
  - intros a Ha. rewrite A5 by lia. unfold s1; cbn [memory]. rewrite word_insert.
    by replace (a =? p) with false by lia.
Qed.

Lemma not_owned role (s : State) p : Base role s -> ~ mp_owned (pool s) p -> role !! p = None.
Proof.
  intros B Hn. destruct (role !! p) as [r|] eqn:E; [|done]. destruct Hn.
  apply (b_owned _ _ B p r E). lia.
Qed.

(** Whatever happens to the pool besides the pages that have a role. *)
Lemma Base_pool role (s : State) m : Base role s ->
  (forall p r, role !! p = Some r -> forall q, p <= q < p + 4096 -> mp_owned m q) ->
  Base role (MkIommu (vtd s) (domains s) (memory s) m (hw s)).
Proof.
  intros [B1 B2 B3 B4 B5 B6] Hm. constructor; try done. intros p r Hp. split; [by apply (B1 p r)|by apply (Hm p r)].
Qed.

Lemma live_add x t : (table_count x < IovaTableCapacity)%nat -> length (tables x) = IovaTableCapacity ->
  live_tables (add_table t x) = live_tables x ++ [t].
Proof.
  intros Hc Hl. unfold live_tables, add_table; cbn [table_count tables].
  rewrite take_S_r with (x := t); [|apply list_lookup_insert_eq; lia]. by rewrite take_insert_ge by lia.
Qed.

(** Domain [d] gets a table on a fresh page. *)
Lemma Base_add role (s s' : State) d x p : Base role s -> domains s !! d = Some x ->
  (table_count x < IovaTableCapacity)%nat -> page_ok p -> role !! p = None ->
  vtd s' = vtd s -> domains s' = <[d := add_table p x]> (domains s) ->
  (forall q, mp_owned (pool s') q <-> mp_owned (pool s) q \/ p <= q < p + 4096) ->
  (forall a, ~ (p <= a < p + 4096) -> word (memory s') a = word (memory s) a) ->
  Base (<[p := DomainTable d]> role) s'.
Proof.
  intros B Hx Hc Hp Hr V D P W. destruct (b_tables _ _ B d x Hx) as (T1 & T2 & T3 & T4 & T5).
  destruct B as [B1 B2 B3 B4 B5 B6].
  assert (forall q r, role !! q = Some r -> q <> p) as Hne by congruence.
  assert (forall q r, role !! q = Some r -> <[p := DomainTable d]> role !! q = Some r) as Hin.
  { intros q r Hq. by rewrite lookup_insert_ne by (by apply not_eq_sym, (Hne q r)). }
  constructor; rewrite ?V; auto.
  - intros q r. rewrite lookup_insert_Some. intros [[<- _]|[_ Hq]].
    + split; [done|]. intros a Ha. apply P. by right.
    + destruct (B1 q r Hq) as [Q1 Q2]. split; [done|]. intros a Ha. apply P. left. by apply Q2.
  - split; [apply B2|]. intros a Ha. by apply Hin, B2.
  - intros Hnz. destruct (B3 Hnz) as [R1 R2]. split; [by apply Hin|]. intros bus Hb.
    rewrite W; [destruct (R2 bus Hb); auto|]. pose proof (Hne _ _ R1).
    destruct (B1 _ _ R1) as [(? & ? & _) _]. destruct Hp as (? & ? & _). lia.
  - by rewrite D, length_insert.
  - intros d' x'. rewrite D. intros [(<- & <- & Hl)|[Hd Hl]]%list_lookup_insert_Some.
    + cbn [tables table_count mappings add_table]. rewrite length_insert, live_add by done.
      split_and!; [done|lia| | |done].
      * apply NoDup_app. split_and!; [done| |apply NoDup_singleton]. intros q Hq%T4 ->%list_elem_of_singleton. congruence.
      * intros q. rewrite elem_of_app, list_elem_of_singleton, T4, lookup_insert_Some. naive_solver.
    + destruct (B6 d' x' Hl) as (U1 & U2 & U3 & U4 & U5). split_and!; try done. intros q. rewrite U4.
      rewrite lookup_insert_Some. naive_solver.
Qed.

(** A page of the pool, or none. *)
Lemma allocate_spec role (s s1 : State) p : Base role s -> allocate PAGE_SIZE s = (p, s1) ->
  Base role s1 /\ vtd s1 = vtd s /\ domains s1 = domains s /\ memory s1 = memory s /\
  (p <> 0 -> page_ok p /\ role !! p = None /\
    forall q, mp_owned (pool s1) q <-> mp_owned (pool s) q \/ p <= q < p + 4096).
Proof.
  intros B. unfold allocate. destruct (mp_allocate (pool s) PAGE_SIZE 12 0) as [p' m] eqn:E. intros [= -> <-].
  assert (forall q, mp_owned (pool s) q -> mp_owned m q) as Hmono.
  { intros q Hq. destruct (decide (p = 0)) as [->|Hnz]; [by eapply mp_allocate_none|].
    destruct (mp_allocate_block _ PAGE_SIZE _ _ ltac:(done) ltac:(done) E Hnz) as (_ & _ & _ & _ & Ho).
    apply Ho. by left. }
  split. { apply Base_pool; [done|]. intros q r Hq a Ha. by apply Hmono, (b_owned _ _ B q r). }
  repeat split; try done; destruct (mp_allocate_block _ PAGE_SIZE _ _ ltac:(done) ltac:(done) E H) as (A1 & A2 & A3 & A4 & A5);
    try done.
  - apply (not_owned role s); [done|]. apply A4. unfold PAGE_SIZE. lia.
  - apply A5.
  - apply A5.
Qed.

Lemma Base_deallocate role (s : State) p : Base role s -> page_ok p -> role !! p = None ->
  (forall q, p <= q < p + 4096 -> mp_owned (pool s) q) -> Base role (deallocate p PAGE_SIZE s).2.
Proof.
  intros B Hp Hr Ho. apply Base_pool; [done|]. intros t r Ht q Hq.
  apply (mp_deallocate_block (pool s) p PAGE_SIZE ltac:(done) ltac:(done) (proj1 (proj2 Hp)) Ho).
  destruct (b_owned _ _ B t r Ht) as [(T1 & T2 & T3) T4]. split; [by apply T4|].
  destruct Hp as (P1 & P2 & P3). unfold PAGE_SIZE. intros Hin. assert (t = p) as -> by lia. congruence.
Qed.

(** A new table of domain [d], all zero; or nothing but the pool changed. *)
Lemma AllocateDomainTable_spec role (s s' : State) d x p : Base role s -> domains s !! d = Some x ->
  AllocateDomainTable d s = (p, s') -> vtd s' = vtd s /\
  ((p = 0 /\ Base role s' /\ domains s' = domains s /\ memory s' = memory s) \/
   (page_ok p /\ role !! p = None /\ Base (<[p := DomainTable d]> role) s' /\
    domains s' = <[d := add_table p x]> (domains s) /\
    (forall j, 0 <= j < 512 -> word (memory s') (p + 8 * j) = 0) /\
    forall a, ~ (p <= a < p + 4096) -> word (memory s') a = word (memory s) a)).
Proof.
  intros B Hx. unfold AllocateDomainTable, bind at 1, get_domain at 1.
  rewrite (list_lookup_total_correct _ _ _ Hx).
  destruct (IovaTableCapacity <=? table_count x)%nat eqn:Ec; [intros [= <- <-]; split; [done|by left]|].
  unfold bind at 1. destruct (allocate PAGE_SIZE s) as [t s1] eqn:Ea.
  destruct (allocate_spec role s s1 t B Ea) as (B1 & V1 & D1 & M1 & P1).
  destruct (t =? 0) eqn:Et; [intros [= <- <-]; split; [done|by left]|]. apply Z.eqb_neq in Et.
  destruct (P1 Et) as (Pt & Rt & Ot). unfold bind at 1, get_vtd. destruct (negb _) eqn:Ef.
  { intros [= <- <-]. split; [done|]. left. split_and!; try done. apply Base_deallocate; try done.
    intros q Hq. apply Ot. by right. }
  unfold bind at 1. destruct (MemSet t 512 s1) as [[] s2] eqn:Em.
  pose proof (MemSet_words 512 t s1) as (V2 & D2 & P2 & Z2 & W2). rewrite Em in V2, D2, P2, Z2, W2.
  cbn [snd] in V2, D2, P2, Z2, W2. unfold bind, get_domain, put_domain, ret. intros [= <- <-].
  cbn [vtd domains memory pool]. rewrite V2, V1. split; [done|]. right.
  rewrite D2, D1, (list_lookup_total_correct _ _ _ Hx). split_and!; try done.
  - apply (Base_add role s _ d x t); try done; cbn [vtd domains memory pool].
    + by apply Nat.leb_gt.
    + intros q. by rewrite P2, Ot.
    + intros a Ha. rewrite W2, M1; [done|]. lia.
  - intros a Ha. rewrite W2, M1; [done|]. lia.
Qed.

(** ** Walking *)

(** Domain [d] is in use with the tree [node] on its pages. *)
Definition At (role : gmap Z Role) (s : State) (d : nat) (x : IovaDomain) (node : nat -> Z -> option Z) : Prop :=
  domains s !! d = Some x /\ dom_active x = true /\ Tree (memory s) (root x) node /\
  forall k p t, node k p = Some t -> role !! t = Some (DomainTable d).

Lemma Spaces_At role (s : State) F d x : Spaces role s F -> domains s !! d = Some x -> dom_active x = true ->
  dev_ok (device x) /\ (exists node, At role s d x node) /\
  forall va, 0 <= va < 2 ^ 48 -> translate (memory s) (root x) va = F d va.
Proof.
  intros [B HS] Hx Ha. pose proof (HS d x Hx) as HX. unfold Space in HX. rewrite Ha in HX.
  destruct HX as (Hd & node & T & Hr & Ht). split; [done|]. split; [by exists node|done].
Qed.

(** Only the tables of domain [d] grew. *)
Definition Grown (d : nat) (s s' : State) : Prop :=
  vtd s' = vtd s /\ exists x x', domains s !! d = Some x /\ same_dom x x' /\ domains s' = <[d := x']> (domains s).

Lemma Grown_refl d (s : State) x : domains s !! d = Some x -> Grown d s s.
Proof.
  intros Hx. split; [done|]. exists x, x. split_and!; [done|by destruct x|by rewrite list_insert_id].
Qed.

Lemma Grown_trans d (s1 s2 s3 : State) : Grown d s1 s2 -> Grown d s2 s3 -> Grown d s1 s3.
Proof.
  intros [V1 (x & y & Hx & Sx & D1)] [V2 (y' & z & Hy & Sy & D2)]. split; [congruence|].
  assert (y' = y) as ->.
  { rewrite D1, list_lookup_insert_eq in Hy by by eapply lookup_lt_Some. by injection Hy. }
  exists x, z. split_and!; [done| |by rewrite D2, D1, list_insert_insert_eq].
  unfold same_dom in *. rewrite Sy, Sx. done.
Qed.

Lemma Grown_other d d' (s s' : State) : Grown d s s' -> d' <> d -> domains s' !! d' = domains s !! d'.
Proof. intros [_ (x & x' & _ & _ & ->)] Hne. by rewrite list_lookup_insert_ne. Qed.

Lemma Grown_at d (s s' : State) x : Grown d s s' -> domains s !! d = Some x ->
  exists x', domains s' !! d = Some x' /\ same_dom x x'.
Proof.
  intros [_ (y & x' & Hy & Hs & ->)] Hx. assert (y = x) as -> by congruence.
  exists x'. rewrite list_lookup_insert_eq by by eapply lookup_lt_Some. done.
Qed.

Lemma At_cell role (s : State) d x node k p t o : Base role s -> At role s d x node -> node k p = Some t ->
  0 <= o < 4096 -> role !! page_of (t + o) = Some (DomainTable d).
Proof. intros B (_ & _ & _ & Hr) Hn Ho. erewrite role_page; [by eapply Hr|done|by eapply Hr|done]. Qed.

(** A failed table allocation changes the pool at most. *)
Lemma Spaces_pool role (s s' : State) F : Spaces role s F -> Base role s' -> domains s' = domains s ->
  memory s' = memory s -> Spaces role s' F.
Proof. intros [_ HS] B' D M. split; [done|]. intros d x. rewrite D, M. apply HS. Qed.

(** A store to a table of a domain is no store to the other structures. *)
Lemma Base_store role (s : State) a v d : Base role s -> role !! page_of a = Some (DomainTable d) ->
  Base role (store a v s).2.
Proof.
  intros B Ha. pose proof B as [C1 C2 C3 C4 C5 C6]. constructor; try done.
  cbn [store snd vtd memory]. intros Hnz. destruct (C3 Hnz) as [R1 R2]. split; [done|]. intros bus Hb.
  rewrite word_insert. destruct (_ =? a) eqn:E; [|by apply R2]. apply Z.eqb_eq in E as <-.
  erewrite role_page in Ha; [|exact B|exact R1|lia]. congruence.
Qed.

Section Link.
Context {role : gmap Z Role} {s s1 : State} {F : nat -> Z -> option Z} {d : nat} {x : IovaDomain}.
Context {node : nat -> Z -> option Z} {k : nat} {p i t pn : Z}.
Context (HS : Spaces role s F) (HA : At role s d x node) (Hk : (k < 3)%nat) (Ht : node k p = Some t).
Context (Hi : 0 <= i < 512) (Hfree : node (S k) (p * 512 + i) = None) (Hpn : page_ok pn) (Hrole : role !! pn = None).
Context (B1 : Base (<[pn := DomainTable d]> role) s1) (D1 : domains s1 = <[d := add_table pn x]> (domains s)).
Context (Z1 : forall j, 0 <= j < 512 -> word (memory s1) (pn + 8 * j) = 0).
Context (W1 : forall a, ~ (pn <= a < pn + 4096) -> word (memory s1) a = word (memory s) a).

Abbreviation s' := (store (t + 8 * i) (Z.lor pn VtdPageReadWrite) s1).2.
Abbreviation role' := (<[pn := DomainTable d]> role).
Abbreviation node' := (with_node node (S k) (p * 512 + i) pn).

Lemma linked_cell : role !! page_of (t + 8 * i) = Some (DomainTable d).
Proof. eapply At_cell; [apply HS|done..|lia]. Qed.

Lemma linked_fresh l q : node l q <> Some pn.
Proof. destruct HA as (_ & _ & _ & Hr). intros Hq. specialize (Hr _ _ _ Hq). congruence. Qed.

Lemma linked_words : word (memory s') (t + 8 * i) = Z.lor pn VtdPageReadWrite /\
  (forall j, 0 <= j < 512 -> word (memory s') (pn + 8 * j) = 0) /\
  (forall a, a <> t + 8 * i -> ~ (pn <= a < pn + 4096) -> word (memory s') a = word (memory s) a).
Proof.
  destruct HA as (_ & _ & T & _). destruct (tr_page _ _ _ T _ _ _ Ht) as (T1 & T2 & T3).
  assert (t <> pn) as Hne by (intros ->; by destruct (linked_fresh k p)). destruct Hpn as (P1 & P2 & P3).
  cbn [store snd memory]. split_and!.
  - by rewrite word_insert, Z.eqb_refl.
  - intros j Hj. rewrite word_insert. replace (_ =? _) with false by lia. by apply Z1.
  - intros a Ha Hn. rewrite word_insert. replace (_ =? _) with false by lia. by apply W1.
Qed.

(** A link to a fresh, empty table translates nothing new. *)
Lemma Spaces_link : Spaces role' s' F /\ At role' s' d (add_table pn x) node'.
Proof.
  destruct HA as (Hx & Hact & T & Hr). destruct linked_words as (L1 & L2 & L3).
  pose proof (Tree_link T Hk Ht Hi Hfree Hpn linked_fresh L1 L2 L3) as T'.
  assert (forall l q u, node' l q = Some u -> role' !! u = Some (DomainTable d)) as Hr'.
  { intros l q u [(_ & _ & ->) | [_ Hu]]%with_node_cases; [by apply lookup_insert_eq|].
    rewrite lookup_insert_ne by (intros <-; by destruct (linked_fresh l q)). by eapply Hr. }
  assert (domains s1 !! d = Some (add_table pn x)) as Hx1.
  { rewrite D1. apply list_lookup_insert_eq. by eapply lookup_lt_Some. }
  split; [|done]. destruct (Spaces_At role s F d x HS Hx Hact) as (Hdev & _ & Htr).
  apply (Spaces_rebuild role role' s _ F F d); try done.
  - apply (Base_store _ _ _ _ d); [done|]. rewrite lookup_insert_ne; [apply linked_cell|].
    pose proof linked_cell. congruence.
  - intros d' x' Hd. cbn [store snd domains]. rewrite D1. by rewrite list_lookup_insert_ne.
  - intros d' a Hd Ha. apply L3.
    + intros ->. pose proof linked_cell. congruence.
    + intros Hin. destruct Hpn as (_ & P2 & _). assert (page_of a = pn) as E by (unfold page_of; lia). congruence.
  - intros d' q Hd Hq. by rewrite lookup_insert_ne by congruence.
  - intros x'. cbn [store snd domains]. rewrite Hx1. intros [= <-]. unfold Space.
    cbn [add_table dom_active device root]. rewrite Hact. split; [done|]. exists node'. split_and!; [done|done|].
    intros va Hva. rewrite <- Htr by done. by apply (translate_link T Hk Ht Hi Hfree Hpn linked_fresh L1 L2 L3).
Qed.

End Link.

Abbreviation prefix k va := (va / 2 ^ (48 - 9 * Z.of_nat k)).
Abbreviation index k va := (index_at (39 - 9 * Z.of_nat k) va).

Lemma index_range k va : (k <= 3)%nat -> 0 <= index k va < 512.
Proof. intros Hk. rewrite index_at_eq by lia. lia. Qed.

Lemma prefix_next k va : (k < 3)%nat -> prefix k va * 512 + index k va = prefix (S k) va.
Proof.
  intros Hk. rewrite index_at_eq by lia. do 3 (destruct k as [|k]; [cbn -[Z.div Z.modulo Z.pow]; lia|]). lia.
Qed.

(** The walk without creation follows the tree. *)
Lemma next_level_find role (s : State) d x node k va t : At role s d x node -> (k < 3)%nat ->
  node k (prefix k va) = Some t ->
  next_level d false t (index k va) s = (default 0 (node (S k) (prefix (S k) va)), s).
Proof.
  intros (_ & _ & T & _) Hk Ht. rewrite <- (tree_step T k va t Hk Ht).
  unfold next_level, bind, load, next_table, word. cbv zeta. by destruct (truthy _).
Qed.

Lemma GetLeafEntry_find role (s : State) d x node va : At role s d x node -> 0 <= va < 2 ^ 48 ->
  GetLeafEntry d va false s = (default 0 (leaf node va), s).
Proof.
  intros A Hva. pose proof A as (Hx & _ & T & _). unfold GetLeafEntry, bind at 1, get_domain.
  rewrite (list_lookup_total_correct _ _ _ Hx). unfold leaf. cbn [walk_levels].
  pose proof (tree_start T va Hva) as H0. pose proof (next_level_find role s d x node 0 va _ A ltac:(lia) H0) as E1.
  pose proof (fun t => next_level_find role s d x node 1 va t A ltac:(lia)) as E2.
  pose proof (fun t => next_level_find role s d x node 2 va t A ltac:(lia)) as E3.
  pose proof (tree_none T 1 va) as N1. pose proof (tree_none T 2 va) as N2.
  change (48 - 9 * Z.of_nat 3) with 21 in *. change (39 - 9 * Z.of_nat 0) with 39 in *.
  change (39 - 9 * Z.of_nat 1) with 30 in *. change (39 - 9 * Z.of_nat 2) with 21 in *.
  unfold bind at 1. rewrite E1. destruct (node 1%nat _) as [t1|] eqn:G1; cbn beta iota delta [default from_option id].
  2: { rewrite N2; [done| |lia]. apply N1; [done|lia]. }
  destruct (tr_page _ _ _ T _ _ _ G1) as (? & _). replace (t1 =? 0) with false by lia.
  unfold bind at 1. rewrite (E2 _ eq_refl). destruct (node 2%nat _) as [t2|] eqn:G2; cbn beta iota delta [default from_option id].
  2: { by rewrite N2 by (done || lia). }
  destruct (tr_page _ _ _ T _ _ _ G2) as (? & _). replace (t2 =? 0) with false by lia.
  unfold bind at 1. rewrite (E3 _ eq_refl). destruct (node 3%nat _) as [t3|] eqn:G3; cbn beta iota delta [default from_option id]; [|done].
  destruct (tr_page _ _ _ T _ _ _ G3) as (? & _). by replace (t3 =? 0) with false by lia.
Qed.

(** The walk with creation, one level: the translations stay. *)
Lemma next_level_create role (s s' : State) F d x node k va t r : Spaces role s F -> At role s d x node ->
  (k < 3)%nat -> node k (prefix k va) = Some t -> next_level d true t (index k va) s = (r, s') ->
  exists role' x' node', Spaces role' s' F /\ At role' s' d x' node' /\ Grown d s s' /\
    (r = 0 \/ node' (S k) (prefix (S k) va) = Some r).
Proof.
  intros HS HA Hk Ht. pose proof HA as (Hx & Hact & T & Hr). pose proof (tree_step T k va t Hk Ht) as Hstep.
  unfold next_level, bind at 1, load. fold (word (memory s) (t + 8 * index k va)).
  unfold next_table in Hstep. cbv zeta in Hstep. destruct (truthy _) eqn:Ep; cbn [negb].
  { intros [= <- <-]. exists role, x, node. split_and!; [done|done|by eapply Grown_refl|by right]. }
  unfold GetOrCreateNextTable, bind at 1, load. fold (word (memory s) (t + 8 * index k va)). rewrite Ep.
  unfold bind at 1. destruct (AllocateDomainTable d s) as [pn s1] eqn:Ea.
  destruct (AllocateDomainTable_spec role s s1 d x pn (proj1 HS) Hx Ea)
    as [V1 [(-> & B1 & D1 & M1) | (Hpn & Hrole & B1 & D1 & Z1 & W1)]].
  { intros [= <- <-]. exists role, x, node. split_and!.
    - by apply (Spaces_pool role s).
    - unfold At. rewrite D1, M1. done.
    - split; [done|]. exists x, x. split_and!; [done|by destruct x|by rewrite D1, list_insert_id].
    - by left. }
  pose proof (prefix_next k va Hk) as Hp. symmetry in Hstep.
  destruct Hpn as (P1 & P2). replace (pn =? 0) with false by lia. unfold bind, ret. intros [= <- <-].
  destruct (Spaces_link HS HA Hk Ht (index_range k va ltac:(lia)) ltac:(by rewrite Hp) (conj P1 P2) Hrole B1 D1 Z1 W1)
    as [HS' HA'].
  eexists _, _, _. split; [exact HS'|]. split; [exact HA'|]. split.
  - split; [done|]. exists x, (add_table pn x). split_and!; done.
  - right. rewrite Hp. unfold with_node. by rewrite Nat.eqb_refl, Z.eqb_refl.
Qed.

(** [GetLeafEntry] with creation: an entry of the page, or failure; no translation changes. *)
Lemma GetLeafEntry_create role (s s' : State) F d x node va e : Spaces role s F -> At role s d x node ->
  0 <= va < 2 ^ 48 -> GetLeafEntry d va true s = (e, s') ->
  exists role' x' node', Spaces role' s' F /\ At role' s' d x' node' /\ Grown d s s' /\
    (e = 0 \/ leaf node' va = Some e).
Proof.
  intros HS HA Hva. pose proof HA as (Hx & _ & T & _). unfold GetLeafEntry, bind at 1, get_domain.
  rewrite (list_lookup_total_correct _ _ _ Hx). cbn [walk_levels].
  assert (node 0%nat (prefix 0 va) = Some (root x)) as H0 by exact (tree_start T va Hva).
  unfold bind at 1. destruct (next_level d true (root x) (index_at 39 va) s) as [t1 s1] eqn:E1.
  destruct (next_level_create _ _ _ _ _ _ _ 0 va _ _ HS HA ltac:(lia) H0 E1) as (r1 & x1 & n1 & S1 & A1 & G1 & L1).
  destruct (t1 =? 0) eqn:Z1; [intros [= <- <-]; exists r1, x1, n1; split_and!; auto|].
  destruct L1 as [-> | L1]; [done|].
  unfold bind at 1. destruct (next_level d true t1 (index_at 30 va) s1) as [t2 s2] eqn:E2.
  destruct (next_level_create _ _ _ _ _ _ _ 1 va _ _ S1 A1 ltac:(lia) L1 E2) as (r2 & x2 & n2 & S2 & A2 & G2 & L2).
  pose proof (Grown_trans _ _ _ _ G1 G2) as G12.
  destruct (t2 =? 0) eqn:Z2; [intros [= <- <-]; exists r2, x2, n2; split_and!; auto|].
  destruct L2 as [-> | L2]; [done|].
  unfold bind at 1. destruct (next_level d true t2 (index_at 21 va) s2) as [t3 s3] eqn:E3.
  destruct (next_level_create _ _ _ _ _ _ _ 2 va _ _ S2 A2 ltac:(lia) L2 E3) as (r3 & x3 & n3 & S3 & A3 & G3 & L3).
  pose proof (Grown_trans _ _ _ _ G12 G3) as G.
  destruct (t3 =? 0) eqn:Z3; [intros [= <- <-]; exists r3, x3, n3; split_and!; auto|].
  destruct L3 as [-> | L3]; [done|]. intros [= <- <-]. exists r3, x3, n3. split_and!; auto. right.
  unfold leaf. change (48 - 9 * Z.of_nat 3) with 21 in L3. by rewrite L3.
Qed.

(** With all tables in place the creating walk only reads. *)
Lemma next_level_present role (s : State) d x node k va t u : At role s d x node -> (k < 3)%nat ->
  node k (prefix k va) = Some t -> node (S k) (prefix (S k) va) = Some u ->
  next_level d true t (index k va) s = (u, s).
Proof.
  intros (_ & _ & T & _) Hk Ht Hu. pose proof (tree_step T k va t Hk Ht) as Hs. rewrite Hu in Hs.
  unfold next_level, bind, load. fold (word (memory s) (t + 8 * index k va)). unfold next_table in Hs. cbv zeta in Hs.
  destruct (truthy _); [|done]. injection Hs as ->. done.
Qed.

Lemma GetLeafEntry_present role (s : State) d x node va a : At role s d x node -> 0 <= va < 2 ^ 48 ->
  leaf node va = Some a -> GetLeafEntry d va true s = (a, s).
Proof.
  intros A Hva. pose proof A as (Hx & _ & T & _). unfold leaf.
  destruct (node 3%nat (va / 2 ^ 21)) as [t3|] eqn:G3; [|done]. cbn [mbind option_bind]. intros [= <-].
  assert (node 3%nat (prefix 3 va) = Some t3) as H3 by exact G3. pose proof (tree_none T 2 va) as N2.
  assert (is_Some (node 2%nat (prefix 2 va))) as [t2 G2].
  { destruct (node 2%nat (prefix 2 va)); [done|]. rewrite N2 in H3 by (done || lia). done. }
  assert (is_Some (node 1%nat (prefix 1 va))) as [t1 G1].
  { destruct (node 1%nat (prefix 1 va)) eqn:E; [done|]. rewrite (tree_none T 1 va E) in G2 by lia. done. }
  assert (node 0%nat (prefix 0 va) = Some (root x)) as G0 by exact (tree_start T va Hva).
  assert (forall k p t, node k p = Some t -> (t =? 0) = false) as Hnz
    by (intros k p t Hn; destruct (tr_page _ _ _ T _ _ _ Hn); lia).
  unfold GetLeafEntry, bind at 1, get_domain. rewrite (list_lookup_total_correct _ _ _ Hx). cbn [walk_levels].
  unfold bind at 1. rewrite (next_level_present _ _ _ _ _ 0 va _ _ A ltac:(lia) G0 G1 : next_level _ _ _ (index_at 39 va) _ = _).
  cbn beta iota. rewrite (Hnz _ _ _ G1).
  unfold bind at 1. rewrite (next_level_present _ _ _ _ _ 1 va _ _ A ltac:(lia) G1 G2 : next_level _ _ _ (index_at 30 va) _ = _).
  cbn beta iota. rewrite (Hnz _ _ _ G2).
  unfold bind at 1. rewrite (next_level_present _ _ _ _ _ 2 va _ _ A ltac:(lia) G2 H3 : next_level _ _ _ (index_at 21 va) _ = _).
  cbn beta iota. by rewrite (Hnz _ _ _ G3).
Qed.

(** ** Leaves *)

(** [F], with the addresses of domain [d] in a range translated by [g]. *)
Definition over (F : nat -> Z -> option Z) (d : nat) (lo hi : Z) (g : Z -> option Z) : nat -> Z -> option Z :=
  fun d' va => if (d' =? d)%nat && (lo <=? va) && (va <? hi) then g va else F d' va.

Lemma over_other F d lo hi g d' va : d' <> d -> over F d lo hi g d' va = F d' va.
Proof. intros Hne. unfold over. by replace (d' =? d)%nat with false by lia. Qed.

Lemma over_same F d lo hi g va : over F d lo hi g d va = if (lo <=? va) && (va <? hi) then g va else F d va.
Proof. unfold over. by rewrite Nat.eqb_refl. Qed.

Lemma Spaces_ext role (s : State) F F' : Spaces role s F ->
  (forall d va, 0 <= va < 2 ^ 48 -> F' d va = F d va) -> Spaces role s F'.
Proof.
  intros [B HS] HF. split; [done|]. intros d x Hx. apply (Space_frame role role (memory s) _ (F d)); auto.
  intros p r Hp. by apply (role_aligned role s p r).
Qed.

(** A store to the leaf entry of an aligned address. *)
Lemma Spaces_leaf role (s : State) F d x node va a v : Spaces role s F -> At role s d x node ->
  0 <= va < 2 ^ 48 -> va mod 4096 = 0 -> leaf node va = Some a ->
  Spaces role (store a v s).2 (over F d va (va + 4096) (fun vb => decode v (vb - va))) /\
  At role (store a v s).2 d x node.
Proof.
  intros HS HA Hva Hal Hl. pose proof HA as (Hx & Hact & T & Hr).
  destruct (Spaces_At role s F d x HS Hx Hact) as (Hdev & _ & Htr).
  destruct (Tree_store _ _ _ va a v T Hva Hl) as [T' Ht'].
  assert (role !! page_of a = Some (DomainTable d)) as Ha.
  { unfold leaf in Hl. destruct (node 3%nat _) as [t|] eqn:E; [|done]. injection Hl as <-.
    eapply At_cell; [apply HS|done..|]. rewrite index_at_eq; lia. }
  split; [|done]. apply (Spaces_rebuild role role s _ F _ d); try done.
  - by apply (Base_store _ _ _ _ d); [apply HS|].
  - intros d' b Hd Hb. cbn [store snd memory]. rewrite word_insert. destruct (b =? a) eqn:E; [|done].
    apply Z.eqb_eq in E as ->. congruence.
  - intros d' vb Hd. by apply over_other.
  - intros x'. cbn [store snd domains]. rewrite Hx. intros [= <-]. unfold Space. rewrite Hact. split; [done|].
    exists node. split_and!; [done|done|]. intros vb Hvb. cbn [store snd memory].
    rewrite Ht', over_same, Htr by done. destruct (vb / 4096 =? va / 4096) eqn:E.
    + replace ((va <=? vb) && (vb <? va + 4096)) with true by lia. f_equal. lia.
    + by replace ((va <=? vb) && (vb <? va + 4096)) with false by lia.
Qed.

(** Clearing a page of a domain. *)
Lemma clear_page_spec role (s s' : State) F d x node va r : Spaces role s F -> At role s d x node ->
  0 <= va < 2 ^ 48 -> va mod 4096 = 0 -> clear_page d va s = (r, s') ->
  Spaces role s' (over F d va (va + 4096) (fun _ => None)) /\ At role s' d x node /\
  vtd s' = vtd s /\ domains s' = domains s.
Proof.
  intros HS HA Hva Hal. unfold clear_page, bind at 1. rewrite (GetLeafEntry_find role s d x node va HA Hva).
  pose proof HA as (Hx & Hact & T & _). destruct (Spaces_At role s F d x HS Hx Hact) as (_ & _ & Htr).
  destruct (leaf node va) as [a|] eqn:Hl; cbn [default].
  - assert (a <> 0) as Hnz.
    { unfold leaf in Hl. destruct (node 3%nat _) as [t|] eqn:E; [|done]. injection Hl as <-.
      destruct (tr_page _ _ _ T _ _ _ E). rewrite index_at_eq; lia. }
    cbn beta iota delta [from_option id]. replace (truthy a) with true by (unfold truthy; lia). intros [= <- <-].
    destruct (Spaces_leaf role s F d x node va a 0 HS HA Hva Hal Hl) as [S1 A1].
    split_and!; done.
  - intros [= <- <-]. split_and!; try done. apply (Spaces_ext _ _ _ _ HS). intros d' vb Hvb. unfold over.
    destruct (_ && _ && _) eqn:E; [|done]. apply andb_true_iff in E as [[->%Nat.eqb_eq E1]%andb_true_iff E2].
    rewrite <- Htr by done. rewrite (translate_decode _ _ node vb T Hvb).
    assert (leaf node vb = leaf node va) as ->; [|by rewrite Hl]. unfold leaf. rewrite !index_at_eq by lia.
    replace (vb / 2 ^ 21) with (va / 2 ^ 21) by (change (2 ^ 21) with 2097152; lia).
    by replace (vb / 2 ^ 12) with (va / 2 ^ 12) by (change (2 ^ 12) with 4096; lia).
Qed.

Lemma next_page va : 0 <= va -> va + 4096 <= 2 ^ 48 -> (va +w PAGE_SIZE) = va + 4096.
Proof. intros H1 H2. apply uadd_small. unfold PAGE_SIZE. change (2 ^ 48) with 281474976710656 in H2. lia. Qed.

Lemma clear_pages_spec n role (s s' : State) F d x node va r : Spaces role s F -> At role s d x node ->
  0 <= va -> va + 4096 * Z.of_nat n <= 2 ^ 48 -> va mod 4096 = 0 -> clear_pages d va n s = (r, s') ->
  Spaces role s' (over F d va (va + 4096 * Z.of_nat n) (fun _ => None)) /\ At role s' d x node /\
  vtd s' = vtd s /\ domains s' = domains s.
Proof.
  revert s F va. induction n as [|n IH]; intros s F va HS HA Hva He Hal; cbn [clear_pages].
  - intros [= <- <-]. split_and!; try done. apply (Spaces_ext _ _ _ _ HS). intros d' vb _. unfold over.
    destruct (_ && _ && _) eqn:E; [lia|done].
  - unfold bind. destruct (clear_page d va s) as [u s1] eqn:E1.
    destruct (clear_page_spec role s s1 F d x node va u HS HA ltac:(lia) Hal E1) as (S1 & A1 & V1 & D1).
    rewrite (next_page va) by lia.
    intros E2. destruct (IH _ _ (va + 4096) S1 A1 ltac:(lia) ltac:(lia) ltac:(lia) E2) as (S2 & A2 & V2 & D2).
    split_and!; [|done|congruence..]. apply (Spaces_ext _ _ _ _ S2). intros d' vb _. unfold over.
    destruct (d' =? d)%nat; [|done]. cbn [andb]. repeat case_match; done || lia.
Qed.

(** An aligned linear map of addresses to physical memory. *)
Definition linear (base pb : Z) : Z -> option Z := fun vb => Some (pb + (vb - base)).

(** One page of [populate_pages]: an entry that was free, or failure. *)
Lemma populate_entry role (s s1 : State) F d x node va e : Spaces role s F -> At role s d x node ->
  0 <= va < 2 ^ 48 -> F d va = None -> GetLeafEntry d va true s = (e, s1) ->
  exists role1 x1 node1, Spaces role1 s1 F /\ At role1 s1 d x1 node1 /\ Grown d s s1 /\
    (e = 0 \/ leaf node1 va = Some e /\ e <> 0 /\ truthy (Z.land (word (memory s1) e) VtdPageReadWrite) = false) /\
    (is_Some (leaf node va) -> e <> 0 /\ node1 = node).
Proof.
  intros HS HA Hva Hf He.
  assert (exists role1 x1 node1, Spaces role1 s1 F /\ At role1 s1 d x1 node1 /\ Grown d s s1 /\
    (e = 0 \/ leaf node1 va = Some e) /\ (is_Some (leaf node va) -> leaf node va = Some e /\ node1 = node)) as
    (role1 & x1 & node1 & S1 & A1 & G1 & L1 & P1).
  { destruct (leaf node va) as [a|] eqn:El.
    - rewrite (GetLeafEntry_present role s d x node va a HA Hva El) in He. injection He as <- <-.
      exists role, x, node. split_and!; [done|done| |by right|done]. eapply Grown_refl, HA.
    - destruct (GetLeafEntry_create _ _ _ _ _ _ _ _ _ HS HA Hva He) as (role1 & x1 & node1 & ? & ? & ? & ?).
      exists role1, x1, node1. split_and!; try done. }
  pose proof A1 as (Hx1 & Ha1 & T1 & _).
  assert (forall nd, At role1 s1 d x1 nd -> leaf nd va = Some e -> e <> 0) as Hnz.
  { intros nd (_ & _ & T & _). unfold leaf. destruct (nd 3%nat _) as [t|] eqn:E; [|done]. intros [= <-].
    destruct (tr_page _ _ _ T _ _ _ E). rewrite index_at_eq; lia. }
  exists role1, x1, node1. split_and!; try done.
  - destruct L1 as [L1|L1]; [by left|right]. split_and!; [done|by apply (Hnz node1)|].
    destruct (Spaces_At _ _ _ _ _ S1 Hx1 Ha1) as (_ & _ & Htr). specialize (Htr va Hva).
    rewrite Hf, (translate_decode _ _ node1 va T1 Hva), L1 in Htr. cbn [mbind option_bind] in Htr.
    unfold decode in Htr. by destruct (truthy _).
  - intros Hs. destruct (P1 Hs) as [E ->]. split; [|done]. by apply (Hnz node).
Qed.

Lemma decode_leaf pa o : page_ok pa -> decode (leaf_word pa) o = Some (pa + o).
Proof. intros Hp. unfold decode. by rewrite leaf_word_ok, entry_present, entry_address. Qed.

Lemma Grown_same d (s s' : State) x : domains s !! d = Some x -> vtd s' = vtd s -> domains s' = domains s -> Grown d s s'.
Proof.
  intros Hx V D. split; [done|]. exists x, x. split_and!; [done|by destruct x|by rewrite D, list_insert_id].
Qed.

(** Populating maps the whole range, or leaves the translations as they were; it cannot fail when
    the tables exist. *)
Lemma populate_pages_spec n done base pb va pa role (s s' : State) F d x node r :
  Spaces role s (over F d base va (linear base pb)) -> At role s d x node ->
  va = base + 4096 * Z.of_nat done -> base mod 4096 = 0 -> 0 <= base -> va + 4096 * Z.of_nat n <= 2 ^ 48 ->
  pb mod 4096 = 0 -> 0 < pb -> pb + 4096 * (Z.of_nat done + Z.of_nat n) <= two64 ->
  (n <> 0%nat -> pa = pb + 4096 * Z.of_nat done) ->
  (forall vb, base <= vb < va + 4096 * Z.of_nat n -> F d vb = None) ->
  populate_pages d base done va pa n s = (r, s') ->
  exists role' x' node', At role' s' d x' node' /\ Grown d s s' /\
    Spaces role' s' (if r then over F d base (va + 4096 * Z.of_nat n) (linear base pb) else F) /\
    ((forall vb, va <= vb < va + 4096 * Z.of_nat n -> is_Some (leaf node vb)) -> r = true).
Proof.
  revert done va pa role s x node. induction n as [|n IH]; intros done va pa role s x node HS HA Hva Hbal Hb He Hpal Hp Hpe Hpa HF;
    cbn [populate_pages].
  { intros [= <- <-]. exists role, x, node. split; [done|]. split; [eapply Grown_refl, HA|]. split; [|done].
    by replace (va + 4096 * Z.of_nat 0) with va by lia. }
  specialize (Hpa ltac:(done)). unfold bind at 1. destruct (GetLeafEntry d va true s) as [e s1] eqn:E1.
  assert (over F d base va (linear base pb) d va = None) as Hn.
  { rewrite over_same. replace ((base <=? va) && (va <? va)) with false by lia. apply HF. lia. }
  destruct (populate_entry role s s1 _ d x node va e HS HA ltac:(lia) Hn E1)
    as (role1 & x1 & node1 & S1 & A1 & G1 & L1 & P1).
  unfold bind at 1, load. fold (word (memory s1) e). destruct L1 as [-> | (L1 & Hnz & Hfree)].
  - cbn [orb Z.eqb]. unfold bind. destruct (clear_pages d base done s1) as [u s2] eqn:E2. intros [= <- <-].
    destruct (clear_pages_spec done role1 s1 s2 _ d x1 node1 base u S1 A1 ltac:(lia) ltac:(lia) ltac:(lia) E2)
      as (S2 & A2 & V2 & D2).
    exists role1, x1, node1. split; [done|]. split.
    { eapply Grown_trans; [exact G1|]. eapply Grown_same; [apply A1|done|done]. }
    split; [|intros Hall; by destruct P1 as [[] _]; [apply Hall; lia|]].
    apply (Spaces_ext _ _ _ _ S2). intros d' vb _. unfold over. destruct (d' =? d)%nat eqn:Ed; [|done].
    apply Nat.eqb_eq in Ed as ->. cbn [andb]. rewrite <- Hva.
    destruct ((base <=? vb) && (vb <? va)) eqn:E; [|done]. apply HF. lia.
  - rewrite Hfree. replace (e =? 0) with false by lia. cbn [orb]. unfold bind. unfold store at 1.
    destruct (Spaces_leaf role1 s1 _ d x1 node1 va e (leaf_word pa) S1 A1 ltac:(lia) ltac:(lia) L1) as [S2 A2].
    change (store e (leaf_word pa) s1).2 with (MkIommu (vtd s1) (domains s1) (<[e:=leaf_word pa]> (memory s1)) (pool s1) (hw s1)) in S2, A2.
    set (s2 := MkIommu _ _ _ _ _) in *. rewrite (next_page va) by lia. intros E2.
    assert (page_ok pa) as Hpg by (unfold page_ok; lia).
    destruct (IH (S done) (va + 4096) (pa +w PAGE_SIZE) role1 s2 x1 node1) as (role3 & x3 & node3 & A3 & G3 & S3 & R3);
      try done; try lia.
    + apply (Spaces_ext _ _ _ _ S2). intros d' vb _. unfold over. destruct (d' =? d)%nat; [|done]. cbn [andb].
      rewrite decode_leaf by done. unfold linear. repeat case_match; done || lia || (f_equal; lia).
    + intros Hn0. unfold uadd, PAGE_SIZE. rewrite Z.mod_small; lia.
    + intros vb Hvb. apply HF. lia.
    + exists role3, x3, node3. split; [done|]. split.
      { eapply Grown_trans; [exact G1|]. eapply Grown_trans; [|exact G3]. eapply Grown_same; [apply A1|done|done]. }
      replace (va + 4096 * Z.of_nat (S n)) with (va + 4096 + 4096 * Z.of_nat n) by lia. split; [done|].
      intros Hall. apply R3. intros vb Hvb. destruct (P1 (Hall va ltac:(lia))) as [_ ->]. apply Hall. lia.
Qed.

End Domains.
