(* ===== verification/IovaMap.v ===== *)
(** * Mapping and unmapping device memory

    [MapDeviceDma] and [UnmapDeviceDma] against what the remapping unit translates: the ranges that
    the kernel records are exactly what the tables in memory say, for every device, and a failed
    operation leaves every translation as it was. *)
From S2P Require Import Prelude Interfaces Vtd Iova IovaRange VtdProof IovaTree IovaProof.

Section Map.
Context {Pl HW : Type} `{!Mempool Pl} `{!MempoolLaws Pl} `{!VtdUnit HW}.
Abbreviation State := (Iommu Pl HW).

(** ** Records *)

Lemma Base_put role (s : State) d x x' : Base role s -> domains s !! d = Some x ->
  length (tables x') = IovaTableCapacity -> live_tables x' = live_tables x ->
  (table_count x' <= IovaTableCapacity)%nat -> length (mappings x') = IovaMappingCapacity ->
  Base role (put_domain d x' s).2.
Proof.
  intros B Hx E1 E2 E3 E4. pose proof B as [B1 B2 B3 B4 B5 B6].
  constructor; cbn [put_domain snd vtd domains memory pool]; try done.
  - by rewrite length_insert.
  - intros d' y [(<- & <- & _)|[_ Hl]]%list_lookup_insert_Some; [|by apply B6].
    destruct (B6 d x Hx) as (U1 & U2 & U3 & U4 & U5). rewrite E2. split_and!; done.
Qed.

(** A record of a domain may change in what its space does not depend on. *)
Lemma Spaces_record role (s : State) F d x x' : Spaces role s F -> domains s !! d = Some x -> dom_active x = true ->
  dom_active x' = true -> device x' = device x -> root x' = root x -> tables x' = tables x ->
  table_count x' = table_count x -> length (mappings x') = length (mappings x) ->
  Spaces role (put_domain d x' s).2 F.
Proof.
  intros HS Hx Ha Ha' Ed Er Et Ec Em. pose proof (proj1 HS) as B.
  destruct (Spaces_At role s F d x HS Hx Ha) as (Hdev & [node (_ & _ & T & Hr)] & Htr).
  apply (Spaces_rebuild role role s _ F F d); try done.
  - destruct (b_tables _ _ B d x Hx) as (U1 & U2 & U3 & U4 & U5).
    apply (Base_put role s d x); unfold live_tables; congruence.
  - intros d' y Hd. cbn [put_domain snd domains]. by rewrite list_lookup_insert_ne.
  - intros y. cbn [put_domain snd domains]. rewrite list_lookup_insert_eq by by eapply lookup_lt_Some. intros [= <-].
    unfold Space. rewrite Ha', Ed, Er. split; [done|]. exists node. done.
Qed.

(** ** Creating and releasing *)

(** The pages that serve domain [d] have no role any more. *)
Definition without (d : nat) (role : gmap Z Role) : gmap Z Role := filter (fun pr => pr.2 <> DomainTable d) role.

Lemma lookup_without d role p r : without d role !! p = Some r <-> role !! p = Some r /\ r <> DomainTable d.
Proof. unfold without. by rewrite map_lookup_filter_Some. Qed.

Lemma release_tables_spec l (s : State) : NoDup l ->
  (forall t, t ∈ l -> page_ok t /\ forall q, t <= q < t + 4096 -> mp_owned (pool s) q) ->
  let s' := (release_tables l s).2 in
  vtd s' = vtd s /\ domains s' = domains s /\ memory s' = memory s /\
  forall q, mp_owned (pool s') q <-> mp_owned (pool s) q /\ forall t, t ∈ l -> ~ (t <= q < t + 4096).
Proof.
  revert s. induction l as [|t l IH]; intros s Hnd Ho; cbn [release_tables].
  { split_and!; try done. intros q. split; [intros Hq; split; [done|]; by intros t ?%elem_of_nil|by intros [? _]]. }
  apply NoDup_cons in Hnd as [Ht Hnd]. destruct (Ho t ltac:(by left)) as [(T1 & T2 & T3) To].
  pose proof (mp_deallocate_block (pool s) t PAGE_SIZE ltac:(done) ltac:(done) T2 To) as Hd. unfold PAGE_SIZE in Hd.
  unfold bind, deallocate. set (s1 := MkIommu _ _ _ _ _). destruct (IH s1 Hnd) as (V & D & M & P).
  { intros u Hu. destruct (Ho u ltac:(by right)) as [(U1 & U2 & U3) Uo]. split; [done|]. intros q Hq.
    apply Hd. split; [by apply Uo|]. intros Hin. assert (u = t) as -> by lia. done. }
  split_and!; [by rewrite V|by rewrite D|by rewrite M|]. intros q. rewrite P. unfold s1; cbn [pool]. unfold PAGE_SIZE.
  rewrite Hd. split.
  - intros [[H1 H2] H3]. split; [done|]. intros u [->|Hu]%elem_of_cons; [done|by apply H3].
  - intros [H1 H2]. split; [split; [done|apply H2; by left]|]. intros u Hu. apply H2. by right.
Qed.

Lemma ReleaseDomainTables_spec role (s s' : State) F d x r : Spaces role s F -> domains s !! d = Some x ->
  ReleaseDomainTables d s = (r, s') ->
  Spaces (without d role) s' F /\ vtd s' = vtd s /\ domains s' = <[d := no_domain]> (domains s).
Proof.
  intros HS Hx. pose proof (proj1 HS) as B. destruct (b_tables _ _ B d x Hx) as (T1 & T2 & T3 & T4 & T5).
  unfold ReleaseDomainTables, bind, get_domain. rewrite (list_lookup_total_correct _ _ _ Hx). fold (live_tables x).
  destruct (release_tables_spec (live_tables x) s T3) as (V & D & M & P).
  { intros t Ht%T4. by apply (b_owned _ _ B _ _ Ht). }
  destruct (release_tables _ s) as [u s1]. cbn [snd] in V, D, M, P. unfold put_domain. intros [= <- <-].
  cbn [vtd domains memory pool]. rewrite V, D. split; [|done].
  assert (forall p, without d role !! p = Some (DomainTable d) <-> False) as Hnone
    by (intros p; rewrite lookup_without; tauto).
  apply (Spaces_rebuild role (without d role) s _ F F d); cbn [vtd domains memory pool]; try done.
  - pose proof B as [B1 B2 B3 B4 B5 B6]. constructor; cbn [vtd domains memory pool]; try done.
    + intros p r [Hp Hr]%lookup_without. destruct (B1 p r Hp) as [(P1 & P2 & P3) Po]. split; [done|].
      intros q Hq. apply P. split; [by apply Po|]. intros t Ht%T4 Hin.
      destruct (B1 _ _ Ht) as [(? & ? & ?) _]. assert (t = p) as -> by lia. congruence.
    + split; [apply B2|]. intros a Ha. rewrite lookup_without. split; [by apply B2|done].
    + intros Hnz. destruct (B3 Hnz) as [R1 R2]. rewrite M. split; [by rewrite lookup_without|].
      intros bus Hb. rewrite lookup_without. destruct (R2 bus Hb); [by left|by right].
    + by rewrite length_insert.
    + intros d' y [(<- & <- & _)|[Hd Hl]]%list_lookup_insert_Some.
      * split_and!; [done|cbn; lia|by apply NoDup_nil|  |done]. intros p. rewrite Hnone.
        unfold live_tables, no_domain; cbn [table_count]. rewrite take_0. split; [apply not_elem_of_nil|done].
      * destruct (B6 d' y Hl) as (U1 & U2 & U3 & U4 & U5). split_and!; try done. intros p.
        rewrite U4, lookup_without. split; [intros ->; split; [done|congruence]|by intros [? _]].
  - intros d' y Hd. by rewrite list_lookup_insert_ne.
  - intros d' a Hd Ha. by rewrite M.
  - intros d' p Hd Hp. rewrite lookup_without. split; [done|congruence].
  - intros y. rewrite list_lookup_insert_eq by by eapply lookup_lt_Some. by intros [= <-].
Qed.

(** The record [CreateDomain] starts with. *)
Definition fresh_domain (dev : DeviceNode) (d : nat) : IovaDomain :=
  MkDomain true false dev (VtdFirstTranslatedDomain + Z.of_nat d) 0 (tables no_domain) 0 (mappings no_domain).

(** A new domain translates nothing; a failed creation changes nothing but the pool. *)
Lemma CreateDomain_spec role (s s' : State) F dev r : Spaces role s F -> dev_ok dev -> CreateDomain dev s = (r, s') ->
  vtd s' = vtd s /\
  match r with
  | None => Spaces role s' F /\ domains s' = domains s
  | Some d => exists role' p, domains s !! d = Some no_domain /\
      domains s' = <[d := with_root p (add_table p (fresh_domain dev d))]> (domains s) /\
      Spaces role' s' (over F d 0 (2 ^ 48) (fun _ => None))
  end.
Proof.
  intros HS Hdev. unfold CreateDomain. destruct (list_find _ (domains s)) as [[d x]|] eqn:Ef; [|intros [= <- <-]; done].
  apply list_find_Some in Ef as (Hx & Ha & _). pose proof (proj1 HS) as B.
  pose proof (proj2 HS d x Hx) as Hs. unfold Space in Hs. rewrite Ha in Hs. subst x.
  assert (d < length (domains s))%nat as Hd by by eapply lookup_lt_Some.
  unfold bind at 1. fold (fresh_domain dev d). set (s1 := (put_domain d (fresh_domain dev d) s).2).
  change (put_domain d (fresh_domain dev d) s) with (tt, s1). cbn beta iota.
  assert (Base role s1) as B1 by (apply (Base_put role s d no_domain); try done; cbn; lia).
  assert (domains s1 !! d = Some (fresh_domain dev d)) as Hx1 by by apply list_lookup_insert_eq.
  unfold bind at 1. destruct (AllocateDomainTable d s1) as [p s2] eqn:Ea.
  destruct (AllocateDomainTable_spec role s1 s2 d _ p B1 Hx1 Ea) as [V2 [(-> & B2 & D2 & M2) | (Hp & Hr & B2 & D2 & Z2 & W2)]].
  - unfold bind, get_domain, put_domain. rewrite D2, (list_lookup_total_correct _ _ _ Hx1). cbn [Z.eqb].
    intros [= <- <-]. cbn [vtd domains memory pool hw]. split; [done|]. cbn [s1 put_domain snd domains].
    rewrite !list_insert_insert_eq, list_insert_id by done.
    assert (Base role (MkIommu (vtd s2) (domains s) (memory s2) (pool s2) (hw s2))) as B3.
    { pose proof (Base_put role s2 d (fresh_domain dev d) no_domain B2 ltac:(by rewrite D2) eq_refl eq_refl (Nat.le_0_l _) eq_refl) as B3.
      cbn [put_domain snd] in B3. rewrite D2 in B3. cbn [s1 put_domain snd domains] in B3.
      by rewrite list_insert_insert_eq, list_insert_id in B3. }
    split; [|done]. by apply (Spaces_pool role s).
  - unfold bind, get_domain, put_domain. destruct Hp as (P1 & P2 & P3). replace (p =? 0) with false by lia.
    assert (domains s2 = <[d := add_table p (fresh_domain dev d)]> (domains s)) as D2'.
    { rewrite D2. cbn [s1 put_domain snd domains]. by rewrite list_insert_insert_eq. }
    assert (domains s2 !! d = Some (add_table p (fresh_domain dev d))) as Hx2 by (rewrite D2'; by apply list_lookup_insert_eq).
    rewrite (list_lookup_total_correct _ _ _ Hx2). intros [= <- <-]. cbn [vtd]. split; [done|].
    exists (<[p := DomainTable d]> role), p. split; [done|]. cbn [domains]. rewrite D2', list_insert_insert_eq. split; [done|].
    destruct (Tree_empty (memory s2) p (conj P1 (conj P2 P3)) Z2) as [T Ht].
    apply (Spaces_rebuild role _ s _ F _ d HS); cbn [vtd domains memory pool].
    + pose proof (Base_put _ s2 d _ (with_root p (add_table p (fresh_domain dev d))) B2 Hx2 eq_refl eq_refl ltac:(apply Nat.leb_le; reflexivity) eq_refl) as B3.
      cbn [put_domain snd] in B3. by rewrite D2', list_insert_insert_eq in B3.
    + intros d' y Hne. by rewrite list_lookup_insert_ne.
    + intros d' a Hne Ha2. apply W2. intros Hin. assert (page_of a = p) as E by (unfold page_of; lia).
      change (role !! page_of a = Some (DomainTable d')) in Ha2. congruence.
    + intros d' q Hne Hq. rewrite lookup_insert_ne; [done|]. congruence.
    + intros d' va Hne. by apply over_other.
    + intros y. rewrite list_lookup_insert_eq by done. intros [= <-]. unfold Space. cbn [with_root dom_active add_table fresh_domain device root].
      split; [done|]. eexists. split; [exact T|]. split.
      * intros k q t. destruct (_ && _); [|done]. intros [= <-]. apply lookup_insert_eq.
      * intros va Hva. rewrite Ht, over_same by done. by replace ((0 <=? va) && (va <? 2 ^ 48)) with true by lia.
Qed.

(** ** Attaching *)

(** The words of a context entry, and the queue. *)
Definition context_memory (v : VtdState) (c a : Z) : Prop := a = c \/ a = c + 8 \/ queue_memory v a.

Lemma keeps_flush v c : queue_ok v -> keeps v (context_memory v c) (InvalidateVtdCaches (Pl:=Pl) (HW:=HW)).
Proof. intros Q. apply (keeps_mono v (queue_memory v)); [|by apply keeps_invalidate]. intros a Ha. by right; right. Qed.

Lemma keeps_low v c x : keeps v (context_memory v c) (store (Pl:=Pl) (HW:=HW) c x).
Proof. apply keeps_store. by left. Qed.
Lemma keeps_high v c x : keeps v (context_memory v c) (store (Pl:=Pl) (HW:=HW) (c + 8) x).
Proof. apply keeps_store. by right; left. Qed.

Definition entry_is (s : State) (c low high : Z) : Prop :=
  word (memory s) c = low /\ word (memory s) (c + 8) = high.

(** A flush leaves the context entry alone. *)
Lemma flush_entry role (s s' : State) c low high r : Base role s -> InvalidateVtdCaches s = (r, s') ->
  role !! page_of c = Some ContextTable -> role !! page_of (c + 8) = Some ContextTable ->
  entry_is s c low high -> entry_is s' c low high.
Proof.
  intros B E H1 H2 [E1 E2]. destruct (b_queue _ _ B) as [Q1 Q2].
  pose proof (keeps_invalidate (vtd s) Q1 s eq_refl) as (_ & _ & _ & W). rewrite E in W. cbn [snd] in W.
  split; rewrite W; try done; intros Hq%Q2; congruence.
Qed.

Lemma store_entry (s : State) c low high : entry_is (store c low (store (c + 8) high s).2).2 c low high.
Proof.
  split; cbn [store snd memory]; rewrite !word_insert; rewrite ?Z.eqb_refl; [done|].
  by replace (c + 8 =? c) with false by lia.
Qed.

(** Operations on a context entry leave the domains alone. *)
Lemma Spaces_context role (s s' : State) F c {A} (m : State -> A * State) r : Spaces role s F ->
  role !! page_of c = Some ContextTable -> role !! page_of (c + 8) = Some ContextTable ->
  keeps (vtd s) (context_memory (vtd s) c) m -> m s = (r, s') ->
  Spaces role s' F /\ vtd s' = vtd s /\ domains s' = domains s.
Proof.
  intros HS H1 H2 Hk E. replace s' with (m s).2 by by rewrite E. eapply Spaces_keeps; [done|done|exact Hk|].
  intros a [-> | [-> | Ha]]; [by right; left..|]. left. by apply (b_queue _ _ (proj1 HS)).
Qed.

Lemma RestorePassthroughContext_spec role (s s' : State) F c r : Spaces role s F ->
  role !! page_of c = Some ContextTable -> role !! page_of (c + 8) = Some ContextTable ->
  RestorePassthroughContext c s = (r, s') ->
  Spaces role s' F /\ vtd s' = vtd s /\ domains s' = domains s /\ entry_is s' c passthrough_low passthrough_high.
Proof.
  intros HS H1 H2 E. pose proof (proj1 (b_queue _ _ (proj1 HS))) as Q.
  destruct (Spaces_context role s s' F c (RestorePassthroughContext c) r HS H1 H2) as (S' & V' & D'); [|done|].
  { unfold RestorePassthroughContext. pose proof keeps_low. pose proof keeps_high. pose proof keeps_flush. keeps. }
  split_and!; try done. revert E. unfold RestorePassthroughContext. unfold bind at 1, store at 1.
  set (s1 := MkIommu _ _ _ _ _). destruct (Spaces_context role s s1 F c (store c 0) tt HS H1 H2 (keeps_low _ _ _) eq_refl) as (S1 & V1 & _).
  unfold bind at 1. destruct (InvalidateVtdCaches s1) as [u s2] eqn:E2.
  destruct (Spaces_invalidate role s1 F u s2 S1 E2) as (S2 & V2 & _ & _).
  unfold bind. intros E. change (InvalidateVtdCaches (store c passthrough_low (store (c + 8) passthrough_high s2).2).2 = (r, s')) in E.
  set (s3 := (store (c + 8) passthrough_high s2).2) in E. set (s4 := (store c passthrough_low s3).2) in E.
  destruct (Spaces_context role s2 s3 F c (store (c + 8) passthrough_high) tt S2 H1 H2 (keeps_high _ _ _) eq_refl) as (S3 & _).
  destruct (Spaces_context role s3 s4 F c (store c passthrough_low) tt S3 H1 H2 (keeps_low _ _ _) eq_refl) as (S4 & _).
  apply (flush_entry role s4 s' c _ _ r (proj1 S4) E H1 H2), store_entry.
Qed.

(** The context entry of a device. *)
Definition context_of (s : State) (dev : DeviceNode) : Z :=
  Z.land (word (memory s) (root_table (vtd s) + 16 * pci_bus (fields dev))) VtdPageAddressMask
  + 16 * requester (fields dev).

(** Attaching: on success the device's context entry names the domain's root table; on failure it
    is as it was, or passes through. *)
Lemma AttachDomain_spec role (s s' : State) F d x r : Spaces role s F -> domains s !! d = Some x -> dom_active x = true ->
  root_table (vtd s) <> 0 -> AttachDomain d s = (r, s') ->
  Spaces role s' F /\ vtd s' = vtd s /\
  domains s' = (if r then <[d := with_attached x]> (domains s) else domains s) /\
  let c := context_of s (device x) in
  if r then entry_is s' c (Z.lor (root x) VtdContextPresent) (Z.lor (Z.shiftl (domain_id x) 8) VtdAddressWidth48)
  else entry_is s' c passthrough_low passthrough_high \/ memory s' = memory s.
Proof.
  intros HS Hx Ha Hroot. destruct (Spaces_At role s F d x HS Hx Ha) as ((Hbus & Hpd & Hpf) & _ & _).
  pose proof (proj1 HS) as B. destruct (b_root _ _ B Hroot) as [R1 R2]. specialize (R2 _ Hbus). cbv zeta in R2.
  unfold AttachDomain, bind at 1 2, get_domain at 1, get_vtd. rewrite (list_lookup_total_correct _ _ _ Hx).
  destruct (attachable _ _) eqn:Eat; cbn [negb]; [|intros [= <- <-]; split_and!; try done; by right].
  unfold attachable in Eat. unfold GetContextTable, bind at 1 2, load at 1, ret at 1.
  fold (word (memory s) (root_table (vtd s) + 16 * pci_bus (fields (device x)))).
  set (ct := Z.land _ VtdPageAddressMask) in *. destruct (ct =? 0) eqn:Ect; [intros [= <- <-]; split_and!; try done; by right|].
  destruct R2 as [R2|R2]; [lia|]. set (c := ct + 16 * requester (fields (device x))).
  assert (role !! page_of c = Some ContextTable /\ role !! page_of (c + 8) = Some ContextTable) as [H1 H2].
  { unfold c. rewrite <- Z.add_assoc.
    split; (erewrite role_page; [exact R2|exact B|exact R2|unfold requester; lia]). }
  change (context_of s (device x)) with c. unfold bind at 1, load at 1.
  destruct (truthy _) in |- *; cbn [negb]; [|intros [= <- <-]; split_and!; try done; by right].
  unfold bind at 1, store at 1. set (s1 := MkIommu _ _ _ _ _).
  destruct (Spaces_context role s s1 F c (store c 0) tt HS H1 H2 (keeps_low _ _ _) eq_refl) as (S1 & V1 & D1).
  assert (forall (s0 : State), Spaces role s0 F -> vtd s0 = vtd s -> domains s0 = domains s ->
    (do! RestorePassthroughContext c in ret false) s0 = (r, s') ->
    Spaces role s' F /\ vtd s' = vtd s /\ domains s' = (if r then <[d := with_attached x]> (domains s) else domains s) /\
    (if r then entry_is s' c (Z.lor (root x) VtdContextPresent) (Z.lor (Z.shiftl (domain_id x) 8) VtdAddressWidth48)
     else entry_is s' c passthrough_low passthrough_high \/ memory s' = memory s)) as Hrestore.
  { intros s0 S0 V0 D0. unfold bind. destruct (RestorePassthroughContext c s0) as [u s0'] eqn:E0. intros [= <- <-].
    destruct (RestorePassthroughContext_spec role s0 s0' F c u S0 H1 H2 E0) as (? & ? & ? & ?).
    split_and!; [done|congruence|congruence|by left]. }
  unfold bind at 1. destruct (InvalidateVtdCaches s1) as [u1 s2] eqn:E1.
  destruct (Spaces_invalidate role s1 F u1 s2 S1 E1) as (S2 & V2 & D2 & _).
  destruct u1; cbn [negb]; [|by apply Hrestore; congruence].
  unfold bind at 1, store at 1. set (s3 := MkIommu _ _ _ _ _). unfold bind at 1, store at 1. set (s4 := MkIommu _ _ _ _ _).
  destruct (Spaces_context role s2 s3 F c (store (c + 8) _) tt S2 H1 H2 (keeps_high _ _ _) eq_refl) as (S3 & V3 & D3).
  destruct (Spaces_context role s3 s4 F c (store c _) tt S3 H1 H2 (keeps_low _ _ _) eq_refl) as (S4 & V4 & D4).
  unfold bind at 1. destruct (InvalidateVtdCaches s4) as [u2 s5] eqn:E2.
  destruct (Spaces_invalidate role s4 F u2 s5 S4 E2) as (S5 & V5 & D5 & _).
  destruct u2; cbn [negb]; [|apply Hrestore; congruence].
  assert (domains s5 = domains s) as D by congruence. assert (domains s5 !! d = Some x) as Hx5 by by rewrite D.
  unfold bind, get_domain. rewrite (list_lookup_total_correct _ _ _ Hx5). intros [= <- <-].
  split; [by apply (Spaces_record role s5 F d x)|]. cbn [put_domain snd vtd domains]. split; [congruence|]. split; [by rewrite D|].
  apply (flush_entry role s4 s5 c _ _ _ (proj1 S4) E2 H1 H2), store_entry.
Qed.

(** ** Mapping into a domain *)

(** The same domain, up to its tables and whether it is attached. *)
Definition kin (x x' : IovaDomain) : Prop :=
  dom_active x' = dom_active x /\ device x' = device x /\ root x' = root x /\ domain_id x' = domain_id x /\
  mappings x' = mappings x.

Lemma same_dom_kin x x' : same_dom x x' -> kin x x' /\ attached x' = attached x.
Proof. intros ->. done. Qed.

Lemma page_turns_pages len : 0 <= len -> len mod 4096 = 0 -> 4096 * Z.of_nat (page_turns len) = len.
Proof. intros H1 H2. unfold page_turns, PAGE_SIZE. lia. Qed.

Lemma over_back F d lo hi g va d' : (forall vb, lo <= vb < hi -> F d vb = None) ->
  over (over F d lo hi g) d lo hi (fun _ => None) d' va = F d' va.
Proof.
  intros Hf. unfold over. destruct (d' =? d)%nat eqn:E; cbn [andb]; [|done]. apply Nat.eqb_eq in E as ->.
  destruct (_ && _) eqn:Er; [|done]. rewrite Hf; [done|lia].
Qed.

(** Taking a populated range back. *)
Lemma ClearIovaPages_back role (s s' : State) F d x da pb len r :
  Spaces role s (over F d da (da + len) (linear da pb)) -> domains s !! d = Some x -> dom_active x = true ->
  0 <= da -> da mod 4096 = 0 -> da + len <= 2 ^ 48 -> 0 < len -> len mod 4096 = 0 ->
  (forall vb, da <= vb < da + len -> F d vb = None) ->
  ClearIovaPages d da len s = (r, s') -> Spaces role s' F /\ vtd s' = vtd s /\ domains s' = domains s.
Proof.
  intros HS Hx Ha H1 H2 H3 H4 H5 Hf E. destruct (Spaces_At _ _ _ _ _ HS Hx Ha) as (_ & [node HA] & _).
  pose proof (page_turns_pages len ltac:(lia) H5) as Hn.
  destruct (clear_pages_spec (page_turns len) role s s' _ d x node da r HS HA H1 ltac:(lia) H2 E) as (S' & _ & V & D).
  split_and!; try done. apply (Spaces_ext _ _ _ _ S'). intros d' va _. rewrite Hn. symmetry. by apply over_back.
Qed.

(** How an attempt to map ends: the range is mapped and recorded, or no translation has changed
    and the domain is as before, or was released again when it was new. *)
Definition mapped (role : gmap Z Role) (F : nat -> Z -> option Z) (d : nat) (x : IovaDomain) (s s' : State)
    (slot : nat) (da pb len : Z) : Prop :=
  Spaces role s' (over F d da (da + len) (linear da pb)) /\
  exists x', domains s' = <[d := x']> (domains s) /\ kin (with_mapping slot (MkIova true da pb len) x) x' /\ attached x' = true.

Definition unchanged (role : gmap Z Role) (F : nat -> Z -> option Z) (d : nat) (x : IovaDomain) (new : bool) (s s' : State) : Prop :=
  Spaces role s' F /\
  ((new = true /\ domains s' = <[d := no_domain]> (domains s)) \/
   exists x', domains s' = <[d := x']> (domains s) /\ kin x x' /\ (new = true \/ attached x = true -> attached x' = true)).

(** What the caller passes. *)
Record request_ok (pb len : Z) : Prop := {
  rq_physical : 0 < pb /\ pb mod 4096 = 0;
  rq_length : 0 < len /\ len mod 4096 = 0;
  rq_end : pb + len <= two64;
}.

Lemma release_unchanged role (s0 s s' : State) F d x new r : Spaces role s F -> domains s !! d = Some x ->
  domains s = <[d := x]> (domains s0) -> (forall x0, domains s0 !! d = Some x0 -> kin x0 x /\ (attached x0 = true -> attached x = true)) ->
  is_Some (domains s0 !! d) -> when new (ReleaseDomainTables d) s = (r, s') ->
  vtd s' = vtd s /\ exists role' x0, domains s0 !! d = Some x0 /\ unchanged role' F d x0 new s0 s'.
Proof.
  intros HS Hx Hd Hkin [x0 Hx0] E. destruct (Hkin x0 Hx0) as [K A]. destruct new; cbn [when] in E.
  - destruct (ReleaseDomainTables_spec role s s' F d x r HS Hx E) as (S' & V & D). split; [done|].
    exists (without d role), x0. split; [done|]. split; [done|]. left. split; [done|].
    by rewrite D, Hd, list_insert_insert_eq.
  - injection E as <- <-. split; [done|]. exists role, x0. split; [done|]. split; [done|]. right. exists x.
    split_and!; try done. intros [?|?]; [done|auto].
Qed.

(** The results of an attempt. *)
Definition attempt (F : nat -> Z -> option Z) (d : nat) (x : IovaDomain) (new : bool) (s s' : State)
    (slot : nat) (da pb len : Z) (res : bool * DmaMapping) : Prop :=
  vtd s' = vtd s /\ exists role',
    (res = (true, MkDmaMapping da true) /\ mapped role' F d x s s' slot da pb len) \/
    (res = (false, MkDmaMapping pb false) /\ unchanged role' F d x new s s').

Section Finish.
Context {F : nat -> Z -> option Z} {d : nat} {x0 : IovaDomain} {new : bool} {s0 : State} {slot : nat} {da pb len : Z}.
Context (Hx0 : domains s0 !! d = Some x0) (Hact : dom_active x0 = true) (RQ : request_ok pb len).
Context (Hda : 0 <= da /\ da mod 4096 = 0 /\ da + len <= 2 ^ 48) (Hfree : forall vb, da <= vb < da + len -> F d vb = None).

(** A state of domain [d] in the course of the operation, where the range is populated. *)
Record Midway (role : gmap Z Role) (s : State) (x : IovaDomain) : Prop := {
  mw_spaces : Spaces role s (over F d da (da + len) (linear da pb));
  mw_domains : domains s = <[d := x]> (domains s0);
  mw_kin : kin x0 x;
  mw_attached : attached x0 = true -> attached x = true;
  mw_vtd : vtd s = vtd s0;
}.

Lemma mw_lookup role s x : Midway role s x -> domains s !! d = Some x /\ dom_active x = true.
Proof.
  intros [_ D K _ _]. rewrite D, list_lookup_insert_eq by by eapply lookup_lt_Some.
  split; [done|]. destruct K as (-> & _). done.
Qed.

Lemma Midway_clear role s x s' r : Midway role s x -> ClearIovaPages d da len s = (r, s') ->
  Spaces role s' F /\ vtd s' = vtd s /\ domains s' = domains s.
Proof.
  intros MW E. destruct (mw_lookup _ _ _ MW) as [Hx Ha]. destruct RQ as [_ [? ?] _]. destruct Hda as (? & ? & ?).
  eapply ClearIovaPages_back; [apply MW|done..].
Qed.

Lemma Midway_flush role s x s' r : Midway role s x -> InvalidateVtdCaches s = (r, s') -> Midway role s' x.
Proof.
  intros [S D K A V] E. destruct (Spaces_invalidate _ _ _ _ _ S E) as (S' & V' & D' & _).
  split; try done; congruence.
Qed.

Lemma Midway_quiet role s x v {A} (m : State -> A * State) : Midway role s x -> vtd s = v -> keeps v (fun _ => False) m ->
  Midway role (m s).2 x.
Proof.
  intros [S D K A' V] Hv Hm. destruct (Spaces_keeps _ _ _ _ _ m S Hv Hm) as (S' & V' & D'); [done|].
  split; try done; congruence.
Qed.

(** The domain is attached: it was, or it is now. *)
Lemma Midway_attach role s x s' r : Midway role s x -> root_table (vtd s0) <> 0 ->
  (if attached x then ret true else AttachDomain d) s = (r, s') ->
  exists x', Midway role s' x' /\ (r = true -> attached x' = true).
Proof.
  intros MW Hroot E. destruct (mw_lookup _ _ _ MW) as [Hx Ha]. pose proof MW as [S D K A V].
  destruct (attached x) eqn:Et; [injection E as <- <-; by exists x|].
  destruct (AttachDomain_spec role s s' _ d x r S Hx Ha ltac:(congruence) E) as (S' & V' & D' & _).
  exists (if r then with_attached x else x). split; [|by destruct r].
  split; [done| | | |congruence].
  - rewrite D', D. destruct r; [by rewrite list_insert_insert_eq|done].
  - by destruct r.
  - intros H0. specialize (A H0). congruence.
Qed.

Lemma finish_mapping_spec role s x s' res : Midway role s x -> root_table (vtd s0) <> 0 ->
  finish_mapping d new slot da pb len s = (res, s') -> attempt F d x0 new s0 s' slot da pb len res.
Proof.
  intros MW Hroot. destruct (mw_lookup _ _ _ MW) as [Hx _]. unfold finish_mapping, bind at 1, get_domain at 1.
  rewrite (list_lookup_total_correct _ _ _ Hx). unfold bind at 1. destruct ((if attached x then _ else _) s) as [u s1] eqn:E1.
  destruct (Midway_attach _ _ _ _ _ MW Hroot E1) as (x1 & M1 & A1). destruct u; cbn [negb].
  2: { unfold bind at 1. destruct (ClearIovaPages d da len s1) as [v s2] eqn:E2.
    destruct (Midway_clear _ _ _ _ _ M1 E2) as (S2 & V2 & D2). unfold bind. destruct (when _ _ s2) as [w s3] eqn:E3.
    intros [= <- <-]. destruct (mw_lookup _ _ _ M1) as [Hx1 _]. pose proof M1 as [_ D1 K1 B1 V1].
    destruct (release_unchanged role s0 s2 s3 F d x1 new w S2) as (V3 & role3 & y & Hy & U3); try done; try congruence.
    { intros y Hy. assert (y = x0) as -> by congruence. done. }
    split; [congruence|]. exists role3. right. split; [done|]. by assert (x0 = y) as -> by congruence. }
  specialize (A1 eq_refl). unfold bind at 1. destruct ((if new then _ else _) s1) as [u s2] eqn:E2.
  assert (Midway role s2 x1) as M2 by (destruct new; [by injection E2 as _ <-|by eapply Midway_flush]).
  assert (forall s3 : State, Spaces role s3 F -> vtd s3 = vtd s0 -> domains s3 = domains s2 ->
    attempt F d x0 new s0 s3 slot da pb len (false, MkDmaMapping pb false)) as Hfail.
  { intros s3 S3 V3 D3. split; [done|]. exists role. right. split; [done|]. split; [done|]. right. exists x1.
    split_and!; [rewrite D3; apply M2|apply M2|done]. }
  destruct u; cbn [negb].
  2: { unfold bind at 1. destruct (ClearIovaPages d da len s2) as [v s3] eqn:E3. intros [= <- <-].
    destruct (Midway_clear _ _ _ _ _ M2 E3) as (S3 & V3 & D3). apply Hfail; [done| |done]. rewrite V3. apply M2. }
  unfold bind at 1, get_vtd at 1. unfold bind at 1.
  pose proof (Midway_quiet _ _ _ _ _ M2 eq_refl (keeps_read (vtd s2) _ (registers (vtd s2)) VtdFaultStatusRegister)) as M3.
  destruct (ReadRegister32 _ _ s2) as [faults s3] eqn:E3. cbn [snd] in M3. destruct (truthy faults).
  - unfold bind at 1. pose proof (Midway_quiet _ _ _ _ _ M3 eq_refl (keeps_log (vtd s3) _)) as M4.
    destruct (LogVtdFaultState s3) as [v s4] eqn:E4. cbn [snd] in M4. unfold bind at 1.
    destruct (ClearIovaPages d da len s4) as [w s5] eqn:E5. destruct (Midway_clear _ _ _ _ _ M4 E5) as (S5 & V5 & D5).
    unfold bind. destruct (InvalidateVtdCaches s5) as [z s6] eqn:E6. intros [= <- <-].
    destruct (Spaces_invalidate _ _ _ _ _ S5 E6) as (S6 & V6 & D6 & _). apply Hfail; [done|rewrite V6, V5; apply M4|].
    rewrite D6, D5, (mw_domains _ _ _ M4), (mw_domains _ _ _ M2). done.
  - destruct (mw_lookup _ _ _ M3) as [Hx3 Ha3]. unfold bind, get_domain. rewrite (list_lookup_total_correct _ _ _ Hx3).
    intros [= <- <-]. pose proof M3 as [S3 D3 K3 B3 V3]. split; [done|]. exists role. left. split; [done|]. split.
    + apply (Spaces_record role s3 _ d x1); try done. cbn [with_mapping mappings]. by rewrite length_insert.
    + exists (with_mapping slot (MkIova true da pb len) x1). cbn [put_domain snd domains]. rewrite D3, list_insert_insert_eq.
      split_and!; [done| |done]. destruct K3 as (K1 & K2 & K4 & K5 & K6). unfold kin, with_mapping; cbn. rewrite K6. by split_and!.
Qed.

End Finish.

(** ** Devices *)

Definition find_dom (dev : DeviceNode) (l : list IovaDomain) : option nat :=
  fst <$> list_find (fun x => is_domain_of dev x = true) l.

Lemma find_dom_Some dev l d : find_dom dev l = Some d -> exists x, l !! d = Some x /\ is_domain_of dev x = true.
Proof.
  unfold find_dom. destruct (list_find _ l) as [[i x]|] eqn:E; [|done]. intros [= <-].
  apply list_find_Some in E as (? & ? & _). eauto.
Qed.

Lemma find_dom_cons dev x l : find_dom dev (x :: l) = if is_domain_of dev x then Some 0%nat else S <$> find_dom dev l.
Proof.
  unfold find_dom. cbn. destruct (decide _) as [->|Hn]; [done|]. destruct (is_domain_of dev x); [done|].
  destruct (list_find _ l) as [[i y]|]; done.
Qed.

Lemma find_dom_same dev l d x x' : l !! d = Some x -> is_domain_of dev x' = is_domain_of dev x ->
  find_dom dev (<[d := x']> l) = find_dom dev l.
Proof.
  revert d. induction l as [|y l IH]; intros [|d] Hx He; [done|done|..].
  - injection Hx as ->. change (<[0%nat := x']> (x :: l)) with (x' :: l). by rewrite !find_dom_cons, He.
  - change (<[S d := x']> (y :: l)) with (y :: <[d := x']> l). rewrite !find_dom_cons. by rewrite (IH d).
Qed.

Lemma find_dom_new dev l d x' : find_dom dev l = None -> (d < length l)%nat -> is_domain_of dev x' = true ->
  find_dom dev (<[d := x']> l) = Some d.
Proof.
  revert d. induction l as [|y l IH]; intros [|d] Hn Hd He; cbn in Hd; [lia|lia|..].
  - change (<[0%nat := x']> (y :: l)) with (x' :: l). by rewrite find_dom_cons, He.
  - rewrite find_dom_cons in Hn. destruct (is_domain_of dev y) eqn:Ey; [done|].
    change (<[S d := x']> (y :: l)) with (y :: <[d := x']> l). rewrite find_dom_cons, Ey, IH; [done| |lia|done].
    by destruct (find_dom dev l).
Qed.

(** What the unit translates for a device: the walk from the root table of its domain; [None] when
    the address is not mapped, or the device has no domain. *)
Definition dma_translate (s : State) (dev : DeviceNode) (va : Z) : option Z :=
  d ← find_dom dev (domains s); translate (memory s) (root (domains s !!! d)) va.

Lemma dma_translate_space role (s : State) F dev va : Spaces role s F -> 0 <= va < 2 ^ 48 ->
  dma_translate s dev va = d ← find_dom dev (domains s); F d va.
Proof.
  intros HS Hva. unfold dma_translate. destruct (find_dom dev (domains s)) as [d|] eqn:E; [|done]. cbn [mbind option_bind].
  apply find_dom_Some in E as (x & Hx & Hd). rewrite (list_lookup_total_correct _ _ _ Hx).
  assert (dom_active x = true) as Ha by (unfold is_domain_of in Hd; by destruct (dom_active x)).
  by destruct (Spaces_At role s F d x HS Hx Ha) as (_ & _ & ->).
Qed.

(** The recorded ranges of domain [d]. *)
Abbreviation recorded s := (fun d : nat => space_of (mappings (domains s !!! d))).

(** The invariant between operations: what is recorded is what the unit translates, the ranges of
    a domain are apart, and a domain in use is attached. *)
Record Iommu_ok (role : gmap Z Role) (s : State) : Prop := {
  io_spaces : Spaces role s (recorded s);
  io_ranges : forall d x, domains s !! d = Some x ->
    ranges_ok (mappings x) /\ (dom_active x = true -> attached x = true);
}.

(** ** The operations *)

(** The free range of a choice is not translated. *)
Lemma chosen_free x len pref da slot vb : chosen x len pref da slot -> da <= vb < da + len -> space_of (mappings x) vb = None.
Proof.
  intros [_ _ Ha _ _] Hvb. apply space_of_None. intros i r Hi. destruct (active r) eqn:E; [|by unfold covers; rewrite E].
  unfold covers. destruct (Ha i r Hi E); lia.
Qed.

Lemma map_into_spec role (s s' : State) F d x new pb len pref res : Spaces role s F -> domains s !! d = Some x ->
  dom_active x = true -> ranges_ok (mappings x) ->
  (forall va, 0 <= va < 2 ^ 48 -> F d va = space_of (mappings x) va) -> root_table (vtd s) <> 0 ->
  request_ok pb len -> len < two64 -> is_u64 pref -> map_into d new pb len pref s = (res, s') ->
  (exists da slot, chosen x len pref da slot /\ attempt F d x new s s' slot da pb len res) \/
  (vtd s' = vtd s /\ res = (false, MkDmaMapping pb false) /\ exists role', unchanged role' F d x new s s').
Proof.
  intros HS Hx Ha HR HF Hroot RQ Hlen Hpref. pose proof RQ as [[P1 P2] [L1 L2] E1].
  destruct (b_tables _ _ (proj1 HS) d x Hx) as (_ & _ & _ & _ & Hml).
  pose proof (AllocateIovaRange_spec x len pref HR Hml ltac:(lia) Hpref) as Hch.
  assert (forall (s1 s2 : State) x1 role1 w, Spaces role1 s1 F -> domains s1 = <[d := x1]> (domains s) -> same_dom x x1 ->
    vtd s1 = vtd s -> when new (ReleaseDomainTables d) s1 = (w, s2) ->
    vtd s2 = vtd s /\ exists role', unchanged role' F d x new s s2) as Hrel.
  { intros s1 s2 x1 role1 w S1 D1 K1 V1 Ew. destruct (same_dom_kin _ _ K1) as [K A].
    destruct (release_unchanged role1 s s1 s2 F d x1 new w S1) as (V2 & role2 & y & Hy & U); try done.
    - rewrite D1. apply list_lookup_insert_eq. by eapply lookup_lt_Some.
    - intros y Hy. assert (y = x) as -> by congruence. split; [done|congruence].
    - assert (y = x) as -> by congruence. split; [congruence|eauto]. }
  unfold map_into, bind at 1, get_domain at 1. rewrite (list_lookup_total_correct _ _ _ Hx).
  destruct (AllocateIovaRange x len pref) as [[da slot]|].
  2: { unfold bind. destruct (when _ _ s) as [w s1] eqn:Ew. intros [= <- <-]. right.
    destruct (Hrel s s1 x role w HS ltac:(by rewrite list_insert_id) ltac:(by destruct x) eq_refl Ew). done. }
  pose proof Hch as [_ (Da1 & Da2 & Da3) _ _ _].
  assert (forall vb, da <= vb < da + len -> F d vb = None) as Hfree.
  { intros vb Hvb. rewrite HF by lia. by eapply chosen_free. }
  destruct (Spaces_At role s F d x HS Hx Ha) as (_ & [node HA] & _).
  unfold bind at 1. destruct (PopulateIovaPages d da pb len s) as [ok s1] eqn:Ep. unfold PopulateIovaPages in Ep.
  pose proof (page_turns_pages len ltac:(lia) L2) as Hpt.
  destruct (populate_pages_spec (page_turns len) 0 da pb da pb role s s1 F d x node ok) as (role1 & x1 & node1 & A1 & G1 & S1 & _);
    try done; try lia.
  { apply (Spaces_ext _ _ _ _ HS). intros d' va _. unfold over. destruct (_ && _ && _) eqn:E; [lia|done]. }
  { intros vb Hvb. apply Hfree. lia. }
  rewrite Hpt in S1. destruct (Grown_at _ _ _ _ G1 Hx) as (x1' & Hx1 & K1).
  pose proof G1 as [V1 (y & y' & Hy & Ky & D1)].
  assert (y' = x1') as -> by (rewrite D1, list_lookup_insert_eq in Hx1 by (by eapply lookup_lt_Some); congruence).
  destruct ok; cbn [negb].
  - intros Ef. left. exists da, slot. split; [done|]. destruct (same_dom_kin _ _ K1) as [K A].
    eapply (finish_mapping_spec Hx Ha RQ); [split_and!; [lia|done|done]|done| |done|exact Ef].
    split; [done|done|done|congruence|done].
  - unfold bind. destruct (when _ _ s1) as [w s2] eqn:Ew. intros [= <- <-]. right.
    destruct (Hrel s1 s2 x1' role1 w S1 D1 K1 V1 Ew). done.
Qed.

(** Only domain [d] changed, and it is in order again. *)
Lemma Iommu_ok_put role' (s s' : State) F' d x x' : domains s !! d = Some x ->
  (forall d' y, d' <> d -> domains s !! d' = Some y -> ranges_ok (mappings y) /\ (dom_active y = true -> attached y = true)) ->
  domains s' = <[d := x']> (domains s) -> Spaces role' s' F' ->
  (forall d' va, d' <> d -> 0 <= va < 2 ^ 48 -> F' d' va = recorded s d' va) ->
  (forall va, 0 <= va < 2 ^ 48 -> F' d va = space_of (mappings x') va) ->
  ranges_ok (mappings x') -> (dom_active x' = true -> attached x' = true) -> Iommu_ok role' s'.
Proof.
  intros Hx Ho D S' Hf Hd HR Ha. assert (d < length (domains s))%nat as Hlt by by eapply lookup_lt_Some. split.
  - apply (Spaces_ext _ _ _ _ S'). intros d' va Hva. destruct (decide (d' = d)) as [->|Hne].
    + rewrite D, list_lookup_total_insert_eq by done. by rewrite Hd.
    + rewrite D, list_lookup_total_insert_ne by done. by rewrite Hf.
  - intros d' y. rewrite D. intros [(<- & <- & _)|[Hne Hl]]%list_lookup_insert_Some; [done|].
    by apply (Ho d'); [apply not_eq_sym|].
Qed.

(** A new range in the list of a domain. *)
Lemma chosen_ranges x len pref da slot pb : ranges_ok (mappings x) -> chosen x len pref da slot -> request_ok pb len ->
  let l := <[slot := MkIova true da pb len]> (mappings x) in
  ranges_ok l /\ forall va, space_of l va =
    if (da <=? va) && (va <? da + len) then Some (pb + (va - da)) else space_of (mappings x) va.
Proof.
  intros HR [(r & Hr & Hf) (D1 & D2 & D3) Hap _ _] [[P1 P2] [L1 L2] E1] l.
  assert (ranges_ok l) as HR'.
  { apply ranges_ok_insert; [done|]. intros _. split; [constructor; cbn; lia|].
    intros j q Hj Hne Aq. unfold apart; cbn. destruct (Hap j q Hj Aq); [by right|by left]. }
  split; [done|]. intros va. unfold l. rewrite (space_of_insert _ slot r) by done. unfold covers at 1; cbn [active device_address length_ physical andb].
  destruct (_ && _); [done|]. unfold covers. by rewrite Hf.
Qed.

(** A domain that is not in use has no space. *)
Lemma Spaces_unused role (s : State) F F' d : Spaces role s F -> domains s !! d = Some no_domain ->
  (forall d' va, d' <> d -> F' d' va = F d' va) -> Spaces role s F'.
Proof.
  intros HS Hd HF. apply (Spaces_rebuild role role s s F F' d); try done; [apply HS|].
  intros x'. rewrite Hd. by intros [= <-].
Qed.

(** How [map_into] ends, with the invariant restored. *)
Record map_result (s s' : State) (d : nat) (x : IovaDomain) (new : bool) (F F' : nat -> Z -> option Z) : Prop := {
  mr_vtd : vtd s' = vtd s;
  mr_ok : exists role', Iommu_ok role' s' /\ Spaces role' s' F';
  mr_domain : (new = true /\ domains s' = <[d := no_domain]> (domains s) /\ F' = F) \/
    exists x', domains s' = <[d := x']> (domains s) /\ dom_active x' = dom_active x /\ device x' = device x;
}.

Section Into.
Context {role : gmap Z Role} {s s' : State} {F : nat -> Z -> option Z} {d : nat} {x : IovaDomain} {new : bool} {pb len pref : Z}.
Context (HS : Spaces role s F) (Hx : domains s !! d = Some x) (Ha : dom_active x = true) (HR : ranges_ok (mappings x)).
Context (Hatt : new = true \/ attached x = true) (HF : forall d' va, 0 <= va < 2 ^ 48 -> F d' va = recorded s d' va).
Context (Ho : forall d' y, d' <> d -> domains s !! d' = Some y -> ranges_ok (mappings y) /\ (dom_active y = true -> attached y = true)).
Context (RQ : request_ok pb len).

Lemma into_space va : 0 <= va < 2 ^ 48 -> F d va = space_of (mappings x) va.
Proof. intros Hva. by rewrite HF, (list_lookup_total_correct _ _ _ Hx). Qed.

Lemma into_unchanged role' : vtd s' = vtd s -> unchanged role' F d x new s s' -> map_result s s' d x new F F.
Proof.
  intros V [S' [[-> D]|(x' & D & (K1 & K2 & K3 & K4 & K5) & A)]]; split; try done.
  - exists role'. split; [|done]. eapply (Iommu_ok_put role' s s' (over F d 0 (2 ^ 48) (fun _ => None)) d x no_domain Hx Ho D).
    + eapply Spaces_unused; [done| |intros d' va Hne; by apply over_other].
      rewrite D. apply list_lookup_insert_eq. by eapply lookup_lt_Some.
    + intros d' va Hne Hva. rewrite over_other by done. by apply HF.
    + intros va Hva. rewrite over_same. replace ((0 <=? va) && (va <? 2 ^ 48)) with true by lia. by rewrite space_of_empty.
    + apply ranges_ok_empty.
    + done.
  - by left.
  - exists role'. split; [|done]. eapply (Iommu_ok_put role' s s' F d x x' Hx Ho D S').
    + intros. by apply HF.
    + intros va Hva. rewrite K5. by apply into_space.
    + by rewrite K5.
    + intros _. by apply A.
  - right. by exists x'.
Qed.

Lemma into_mapped role' slot da : vtd s' = vtd s -> chosen x len pref da slot -> mapped role' F d x s s' slot da pb len ->
  map_result s s' d x false F (over F d da (da + len) (linear da pb)).
Proof.
  intros V Hch [S' (x' & D & (K1 & K2 & K3 & K4 & K5) & A)]. destruct (chosen_ranges x len pref da slot pb HR Hch RQ) as [HR' Hsp].
  split; [done| |right; by exists x']. exists role'. split; [|done].
  eapply (Iommu_ok_put role' s s' _ d x x' Hx Ho D S').
  - intros d' va Hne Hva. rewrite over_other by done. by apply HF.
  - intros va Hva. rewrite K5, over_same. cbn [with_mapping mappings]. rewrite Hsp, into_space by done.
    by destruct (_ && _).
  - by rewrite K5.
  - done.
Qed.

Lemma map_into_ok res : root_table (vtd s) <> 0 -> len < two64 -> is_u64 pref -> map_into d new pb len pref s = (res, s') ->
  (exists da, res = (true, MkDmaMapping da true) /\ 0 < da /\ da mod 4096 = 0 /\ da + len <= 2 ^ 48 /\ (pref <> 0 -> da = pref) /\
     (forall va, da <= va < da + len -> F d va = None) /\
     map_result s s' d x false F (over F d da (da + len) (linear da pb))) \/
  (res = (false, MkDmaMapping pb false) /\ map_result s s' d x new F F).
Proof.
  intros Hroot Hlen Hpref E.
  destruct (map_into_spec role s s' F d x new pb len pref res HS Hx Ha HR into_space Hroot RQ Hlen Hpref E)
    as [(da & slot & Hch & V & role' & [[-> M]|[-> U]]) | (V & -> & role' & U)].
  - left. exists da. pose proof Hch as [_ (D1 & D2 & D3) _ Hp _]. split_and!; try done.
    + intros va Hva. rewrite into_space by lia. by eapply chosen_free.
    + by eapply into_mapped.
  - right. split; [done|]. by eapply into_unchanged.
  - right. split; [done|]. by eapply into_unchanged.
Qed.

End Into.

End Map.
