(* ===== verification/IovaClaims.v ===== *)
(** * What the remapping code guarantees

    The theorems on device address spaces, on the interrupt entries and on the invalidation queue,
    with concrete instances of their hypotheses. *)
From S2P Require Import Prelude Interfaces Vtd Iova IovaRange VtdProof IovaTree IovaProof IovaMap.

Section Claims.
Context {Pl HW : Type} `{!Mempool Pl} `{!MempoolLaws Pl} `{!VtdUnit HW}.
Abbreviation State := (Iommu Pl HW).
Abbreviation recorded s := (fun d : nat => space_of (mappings (domains s !!! d))).

Lemma fits_no_wrap pb len w : is_u64 pb -> is_u64 len -> PhysicalRangeFits pb len w = true -> pb + len < two64.
Proof. unfold PhysicalRangeFits, is_u64. intros Hp Hl. unfold uadd. repeat case_match; done || lia. Qed.

Lemma FindDomain_eq dev (s : State) : FindDomain dev s = (find_dom dev (domains s), s).
Proof. done. Qed.

Lemma is_domain_of_active dev x : is_domain_of dev x = true -> dom_active x = true /\ node_ptr (device x) = node_ptr dev.
Proof. unfold is_domain_of. destruct (dom_active x); cbn [andb]; [split; [done|lia]|done]. Qed.

(** A device is known by the address of its node. *)
Lemma find_dom_ptr dev dev' l : node_ptr dev = node_ptr dev' -> find_dom dev l = find_dom dev' l.
Proof.
  intros E. induction l as [|x l IH]; [done|]. rewrite !find_dom_cons, IH. unfold is_domain_of. by rewrite E.
Qed.

Lemma is_domain_of_ext dev x x' : dom_active x' = dom_active x -> device x' = device x -> is_domain_of dev x' = is_domain_of dev x.
Proof. unfold is_domain_of. by intros -> ->. Qed.

(** What a caller of [MapDeviceDma] may rely on. *)
Definition map_post (s s' : State) (dev : DeviceNode) (pb len flags : Z) (ok : bool) (mp : DmaMapping) : Prop :=
  vtd s' = vtd s /\ (exists role', Iommu_ok role' s') /\
  (translated mp = true -> ok = true /\ let da := mapped_address mp in
    0 < da /\ da mod 4096 = 0 /\ da + len <= 2 ^ 48 /\ (flags = Identity -> da = pb) /\
    forall va, da <= va < da + len ->
      dma_translate s dev va = None /\ dma_translate s' dev va = Some (pb + (va - da))) /\
  forall dev' va, 0 <= va < 2 ^ 48 ->
    (translated mp = true /\ node_ptr dev' = node_ptr dev /\ mapped_address mp <= va < mapped_address mp + len) \/
    dma_translate s' dev' va = dma_translate s dev' va.

Lemma map_post_same role (s : State) dev pb len flags ok : Iommu_ok role s ->
  map_post s s dev pb len flags ok (MkDmaMapping pb false).
Proof. intros OK. split; [done|]. split; [eauto|]. split; [done|]. intros. by right. Qed.

(** The device already has domain [d]. *)
Lemma map_found role (s s' : State) dev d x pb len flags pref ok mp : Iommu_ok role s -> domains s !! d = Some x ->
  find_dom dev (domains s) = Some d -> root_table (vtd s) <> 0 -> request_ok pb len -> len < two64 -> is_u64 pref ->
  (flags = Identity -> pref = pb) -> map_into d false pb len pref s = ((ok, mp), s') -> map_post s s' dev pb len flags ok mp.
Proof.
  intros OK Hx Hfd Hroot RQ Hlen Hpref Hfl E. destruct (find_dom_Some _ _ _ Hfd) as (x2 & Hx2 & Hdx).
  assert (x2 = x) as -> by congruence. destruct (is_domain_of_active _ _ Hdx) as [Ha Hptr].
  pose proof (io_spaces _ _ OK) as HS. destruct (io_ranges _ _ OK d x Hx) as [HR Hat].
  assert (forall F', map_result s s' d x false (recorded s) F' -> vtd s' = vtd s /\ (exists role', Iommu_ok role' s') /\
    forall dev' va, 0 <= va < 2 ^ 48 -> dma_translate s' dev' va = e ← find_dom dev' (domains s); F' e va) as Hres.
  { intros F' [V (role' & OK' & S') [[? _]|(x' & D & K1 & K2)]]; [done|]. split; [done|]. split; [eauto|]. intros dev' va Hva.
    rewrite (dma_translate_space role' s' F' dev' va S' Hva), D, (find_dom_same dev' _ d x); [done|done|].
    by apply is_domain_of_ext. }
  destruct (map_into_ok HS Hx Ha HR (or_intror (Hat Ha)) (fun _ _ _ => eq_refl) (fun d' y _ Hy => io_ranges _ _ OK d' y Hy) RQ (ok, mp) Hroot Hlen Hpref E)
    as [(da & [= -> ->] & D1 & D2 & D3 & Dp & Hfree & MR) | [[= -> ->] MR]];
    destruct (Hres _ MR) as (V & OK' & Htr); split; [done| |done|]; (split; [done|]).
  - split.
    + intros _. cbn [mapped_address]. split; [done|]. split_and!; try done.
      * intros Hid. rewrite Dp; [by apply Hfl|]. rewrite (Hfl Hid). destruct RQ as [[? _] _ _]. lia.
      * intros va Hva. rewrite Htr, (dma_translate_space _ _ _ dev va HS), Hfd by lia. cbn [mbind option_bind].
        split; [by apply Hfree|]. rewrite over_same. by replace ((da <=? va) && (va <? da + len)) with true by lia.
    + intros dev' va Hva. rewrite Htr, (dma_translate_space _ _ _ dev' va HS) by done.
      destruct (find_dom dev' (domains s)) as [e|] eqn:Ee; [|by right]. cbn [mbind option_bind mapped_address translated].
      destruct (decide (e = d /\ da <= va < da + len)) as [[-> Hin]|Hn].
      * left. split_and!; [done| |lia|lia]. destruct (find_dom_Some _ _ _ Ee) as (y & Hy & [_ <-]%is_domain_of_active). congruence.
      * right. unfold over. destruct (_ && _ && _) eqn:Er; [|done]. lia.
  - split; [done|]. intros dev' va Hva. right. rewrite Htr, (dma_translate_space _ _ _ dev' va HS) by done. done.
Qed.

(** The device gets the new domain [d]; [s1] is the state with the new, empty domain. *)
Section Created.
Context {role role1 : gmap Z Role} {s s1 s' : State} {dev : DeviceNode} {d : nat} {p pb len : Z}.
Abbreviation x1 := (with_root p (add_table p (fresh_domain dev d))).
Context (OK : Iommu_ok role s) (Hnone : find_dom dev (domains s) = None) (Hd : domains s !! d = Some no_domain).
Context (D1 : domains s1 = <[d := x1]> (domains s)).
Context (S1 : Spaces role1 s1 (over (recorded s) d 0 (2 ^ 48) (fun _ => None))).

Lemma created_lookup : domains s1 !! d = Some x1.
Proof. rewrite D1. apply list_lookup_insert_eq. by eapply lookup_lt_Some. Qed.

Lemma created_recorded d' va : 0 <= va < 2 ^ 48 -> over (recorded s) d 0 (2 ^ 48) (fun _ => None) d' va = recorded s1 d' va.
Proof.
  intros Hva. destruct (decide (d' = d)) as [->|Hne].
  - rewrite over_same. replace ((0 <=? va) && (va <? 2 ^ 48)) with true by lia.
    rewrite (list_lookup_total_correct _ _ _ created_lookup). symmetry. apply space_of_empty.
  - rewrite over_other by done. by rewrite D1, list_lookup_total_insert_ne.
Qed.

Lemma created_others d' y : d' <> d -> domains s1 !! d' = Some y ->
  ranges_ok (mappings y) /\ (dom_active y = true -> attached y = true).
Proof. intros Hne. rewrite D1, list_lookup_insert_ne by done. apply (io_ranges _ _ OK). Qed.

(** Other devices are served by the same domains; this one by the new domain, or by none. *)
Lemma created_find x' dev' : dom_active x' = true -> device x' = dev ->
  find_dom dev' (<[d := x']> (domains s)) = if node_ptr dev' =? node_ptr dev then Some d else find_dom dev' (domains s).
Proof.
  intros Ha Hdev. destruct (node_ptr dev' =? node_ptr dev) eqn:E.
  - apply find_dom_new; [|by eapply lookup_lt_Some|unfold is_domain_of; rewrite Ha, Hdev; cbn [andb]; lia].
    rewrite <- Hnone. apply find_dom_ptr. lia.
  - apply (find_dom_same dev' _ d no_domain); [done|]. unfold is_domain_of. rewrite Hdev. cbn. rewrite andb_comm.
    destruct (node_ptr dev =? node_ptr dev') eqn:E2; [lia|done].
Qed.

Lemma find_not_unused dev' e : find_dom dev' (domains s) = Some e -> e <> d.
Proof. intros (y & Hy & [Ha _]%is_domain_of_active)%find_dom_Some ->. rewrite Hd in Hy. by injection Hy as <-. Qed.

Lemma created_translate F' dev' va : map_result s1 s' d x1 false (over (recorded s) d 0 (2 ^ 48) (fun _ => None)) F' ->
  0 <= va < 2 ^ 48 ->
  dma_translate s' dev' va = if node_ptr dev' =? node_ptr dev then F' d va else e ← find_dom dev' (domains s); F' e va.
Proof.
  intros [V (role' & OK' & S') [[? _]|(x' & D & K1 & K2)]] Hva; [done|].
  rewrite (dma_translate_space role' s' F' dev' va S' Hva), D, D1, list_insert_insert_eq, created_find by done.
  by destruct (_ =? _).
Qed.

Lemma created_before dev' va : 0 <= va < 2 ^ 48 ->
  dma_translate s dev' va = if node_ptr dev' =? node_ptr dev then None else e ← find_dom dev' (domains s); recorded s e va.
Proof.
  intros Hva. rewrite (dma_translate_space _ _ _ dev' va (io_spaces _ _ OK) Hva). destruct (_ =? _) eqn:E; [|done].
  by rewrite (find_dom_ptr dev' dev), Hnone by lia.
Qed.

Lemma map_created pref flags ok mp : vtd s1 = vtd s -> root_table (vtd s) <> 0 -> request_ok pb len -> len < two64 -> is_u64 pref ->
  (flags = Identity -> pref = pb) -> map_into d true pb len pref s1 = ((ok, mp), s') -> map_post s s' dev pb len flags ok mp.
Proof.
  intros V1 Hroot RQ Hlen Hpref Hfl E.
  destruct (map_into_ok S1 created_lookup eq_refl ranges_ok_empty (or_introl eq_refl) created_recorded created_others RQ
      (ok, mp) ltac:(by rewrite V1) Hlen Hpref E)
    as [(da & [= -> ->] & A1 & A2 & A3 & Ap & _ & MR) | [[= -> ->] MR]]; pose proof MR as [V (role' & OK' & S') HD];
    (split; [congruence|]); (split; [eauto|]); cbn [translated mapped_address].
  - split.
    + intros _. split; [done|]. split_and!; try done.
      * intros Hid. rewrite Ap; [by apply Hfl|]. rewrite (Hfl Hid). destruct RQ as [[? _] _ _]. lia.
      * intros va Hva. rewrite created_before, (created_translate _ dev va MR), Z.eqb_refl by lia. split; [done|].
        rewrite over_same. by replace ((da <=? va) && (va <? da + len)) with true by lia.
    + intros dev' va Hva. rewrite created_before, (created_translate _ dev' va MR) by done.
      destruct (node_ptr dev' =? node_ptr dev) eqn:Ep.
      * destruct ((da <=? va) && (va <? da + len)) eqn:Ein; [left; split_and!; [done|lia..]|]. right.
        rewrite !over_same, Ein. by replace ((0 <=? va) && (va <? 2 ^ 48)) with true by lia.
      * right. destruct (find_dom dev' (domains s)) as [e|] eqn:Ee; [|done]. cbn [mbind option_bind].
        apply find_not_unused in Ee. by rewrite !over_other.
  - split; [done|]. intros dev' va Hva. right. destruct HD as [(_ & D & _)|(x' & D & K1 & K2)].
    + rewrite (dma_translate_space role' s' _ dev' va S' Hva), (dma_translate_space _ _ _ dev' va (io_spaces _ _ OK) Hva).
      rewrite D, D1, list_insert_insert_eq, list_insert_id by done.
      destruct (find_dom dev' (domains s)) as [e|] eqn:Ee; [|done]. cbn [mbind option_bind].
      apply find_not_unused in Ee. by rewrite over_other.
    + rewrite created_before by done. rewrite (dma_translate_space role' s' _ dev' va S' Hva), D, D1, list_insert_insert_eq, created_find by done.
      destruct (_ =? _); cbn [mbind option_bind].
      * rewrite over_same. by replace ((0 <=? va) && (va <? 2 ^ 48)) with true by lia.
      * destruct (find_dom dev' (domains s)) as [e|] eqn:Ee; [|done]. cbn [mbind option_bind].
        apply find_not_unused in Ee. by rewrite over_other.
Qed.

End Created.

(** The operation on every branch. *)
Lemma MapDeviceDma_spec role (s s' : State) dev pb len flags ok mp : Iommu_ok role s -> dev_ok dev ->
  is_u64 pb -> is_u64 len -> MapDeviceDma dev pb len flags s = ((ok, mp), s') -> map_post s s' dev pb len flags ok mp.
Proof.
  intros OK Hdev Hpb Hlen. unfold MapDeviceDma. destruct (truthy (Z.ldiff flags Identity)); [intros [= <- <- <-]; by eapply map_post_same|].
  destruct (_ || truthy (page_offset len)) eqn:Eargs; [intros [= <- <- <-]; by eapply map_post_same|].
  unfold bind at 1, get_vtd. destruct (passthrough_enabled (vtd s)) eqn:Ept; cbn [negb]; [|intros [= <- <- <-]; by eapply map_post_same].
  destruct (node_type (fields dev) =? PciDevice); cbn [negb]; [|intros [= <- <- <-]; by eapply map_post_same].
  destruct (PhysicalRangeFits pb len _) eqn:Ef; cbn [negb]; [|intros [= <- <- <-]; by eapply map_post_same].
  pose proof (fits_no_wrap _ _ _ Hpb Hlen Ef) as Hend. rewrite !page_offset_mod in Eargs. unfold truthy in Eargs.
  assert (request_ok pb len) as RQ by (unfold is_u64 in *; split; lia).
  pose proof (b_passthrough _ _ (proj1 (io_spaces _ _ OK)) Ept) as Hroot.
  set (pref := if truthy (Z.land flags Identity) then pb else 0).
  assert (is_u64 pref /\ (flags = Identity -> pref = pb)) as [Hpref Hfl].
  { unfold pref. split; [destruct (truthy _); unfold is_u64 in *; lia|by intros ->]. }
  unfold bind at 1. rewrite FindDomain_eq. destruct (find_dom dev (domains s)) as [d|] eqn:Efd.
  - intros E. destruct (find_dom_Some _ _ _ Efd) as (x & Hx & _). unfold is_u64 in *.
    eapply (map_found role); try done; lia.
  - unfold bind. destruct (CreateDomain dev s) as [[d|] s1] eqn:Ec;
      destruct (CreateDomain_spec role s s1 _ dev _ (io_spaces _ _ OK) Hdev Ec) as [V1 C1].
    + destruct C1 as (role1 & p & Hd & D1 & S1). unfold is_u64 in *. intros E.
      eapply (map_created OK Efd Hd D1 S1); try done; lia.
    + destruct C1 as [S1 D1]. intros [= <- <- <-]. split; [done|]. split.
      { exists role. split; [|by rewrite D1; apply (io_ranges _ _ OK)]. apply (Spaces_ext _ _ _ _ S1). by rewrite D1. }
      split; [done|]. intros dev' va Hva. right.
      by rewrite (dma_translate_space _ _ _ dev' va S1 Hva), (dma_translate_space _ _ _ dev' va (io_spaces _ _ OK) Hva), D1.
Qed.


(** ** Unmapping *)

(** A flush leaves the tables alone. *)
Lemma At_flush role (s s' : State) d x node : Base role s -> At role s d x node -> only (queue_memory (vtd s)) s s' ->
  At role s' d x node.
Proof.
  intros B A (V & D & _ & W). pose proof A as (Hx & Ha & T & Hr). split_and!; [by rewrite D|done| |done].
  apply (Tree_frame (memory s)); [done|]. intros k p t i Hk Hn Hi. apply W.
  intros Hq%(proj2 (b_queue _ _ B)). rewrite (At_cell role s d x node k p t (8 * i) B A Hn) in Hq by lia. done.
Qed.

(** What a caller of [UnmapDeviceDma] may rely on, with the unit in use. *)
Definition unmap_post (s s' : State) (dev : DeviceNode) (da len : Z) (ok : bool) : Prop :=
  vtd s' = vtd s /\ (exists role', Iommu_ok role' s') /\
  (ok = true -> passthrough_enabled (vtd s) = true -> forall va, da <= va < da + len ->
    is_Some (dma_translate s dev va) /\ dma_translate s' dev va = None) /\
  forall dev' va, 0 <= va < 2 ^ 48 ->
    (ok = true /\ passthrough_enabled (vtd s) = true /\ node_ptr dev' = node_ptr dev /\ da <= va < da + len) \/
    dma_translate s' dev' va = dma_translate s dev' va.

Section Unmap.
Context {role : gmap Z Role} {s : State} {dev : DeviceNode} {d : nat} {x : IovaDomain} {slot : nat} {r : IovaRange}.
Context (OK : Iommu_ok role s) (Hfd : find_dom dev (domains s) = Some d) (Hx : domains s !! d = Some x).
Context (Hr : mappings x !! slot = Some r) (Har : active r = true).
Context (Hpt : passthrough_enabled (vtd s) = true).
Abbreviation da := (device_address r).
Abbreviation len := (length_ r).
Abbreviation cleared := (over (recorded s) d da (da + len) (fun _ => None)).

Lemma unmap_active : dom_active x = true.
Proof.
  destruct (find_dom_Some _ _ _ Hfd) as (y & Hy & [Ha _]%is_domain_of_active). rewrite Hx in Hy. by injection Hy as <-.
Qed.

Lemma unmap_range : range_ok r.
Proof. destruct (io_ranges _ _ OK d x Hx) as [HR _]. by apply (rs_ok _ HR slot). Qed.

Lemma unmap_covered va : da <= va < da + len -> recorded s d va = Some (physical r + (va - da)).
Proof.
  intros Hva. cbn beta. rewrite (list_lookup_total_correct _ _ _ Hx). destruct (io_ranges _ _ OK d x Hx) as [HR _].
  eapply space_of_Some; [done|done|]. unfold covers. rewrite Har. cbn [andb]. lia.
Qed.

(** The tables of the range exist. *)
Lemma unmap_leaves node va : At role s d x node -> da <= va < da + len -> is_Some (leaf node va).
Proof.
  intros HA Hva. pose proof unmap_range as [[? _] _ ? _].
  destruct (Spaces_At _ _ _ _ _ (io_spaces _ _ OK) Hx unmap_active) as (_ & _ & Htr). specialize (Htr va ltac:(lia)).
  rewrite (unmap_covered va Hva) in Htr. destruct HA as (_ & _ & T & _).
  rewrite (translate_decode _ _ node va T) in Htr by lia. by destruct (leaf node va).
Qed.

(** The recorded ranges of a state that has the domains of [s]. *)
Lemma unmap_same role' (s' : State) : Spaces role' s' (recorded s) -> vtd s' = vtd s ->
  (exists x', domains s' = <[d := x']> (domains s) /\ same_dom x x') ->
  vtd s' = vtd s /\ (exists role', Iommu_ok role' s') /\
  forall dev' va, 0 <= va < 2 ^ 48 -> dma_translate s' dev' va = dma_translate s dev' va.
Proof.
  intros S' V (x' & D & K). destruct (same_dom_kin _ _ K) as [(K1 & K2 & K3 & K4 & K5) A].
  destruct (io_ranges _ _ OK d x Hx) as [HR Hat]. split; [done|]. split.
  - exists role'. eapply (Iommu_ok_put role' s s' (recorded s) d x x' Hx); try done.
    + intros d' y _ Hy. by apply (io_ranges _ _ OK d').
    + intros va Hva. by rewrite K5, (list_lookup_total_correct _ _ _ Hx).
    + by rewrite K5.
    + rewrite K1, A. done.
  - intros dev' va Hva. rewrite (dma_translate_space role' s' _ dev' va S' Hva), (dma_translate_space _ _ _ dev' va (io_spaces _ _ OK) Hva).
    rewrite D, (find_dom_same dev' _ d x); [done|done|]. by apply is_domain_of_ext.
Qed.

(** The range is forgotten. *)
Lemma unmap_forgotten role' (s' : State) : Spaces role' s' cleared -> vtd s' = vtd s ->
  domains s' = <[d := with_mapping slot no_range x]> (domains s) -> unmap_post s s' dev da len true.
Proof.
  intros S' V D. destruct (io_ranges _ _ OK d x Hx) as [HR Hat]. pose proof unmap_range as [[H1 _] _ H3 _].
  assert (ranges_ok (<[slot := no_range]> (mappings x))) as HR' by by apply ranges_ok_insert.
  split; [done|]. split.
  { exists role'. eapply (Iommu_ok_put role' s s' _ d x _ Hx); [|exact D|exact S'| | |done|done].
    - intros d' y _ Hy. by apply (io_ranges _ _ OK d').
    - intros d' va Hne _. by rewrite over_other.
    - intros va Hva. rewrite over_same, (list_lookup_total_correct _ _ _ Hx). cbn [with_mapping mappings].
      rewrite (space_of_insert _ slot r) by done. unfold covers. cbn [active no_range andb]. rewrite Har. done. }
  assert (forall dev' va, 0 <= va < 2 ^ 48 -> dma_translate s' dev' va = e ← find_dom dev' (domains s); cleared e va) as Htr.
  { intros dev' va Hva. rewrite (dma_translate_space role' s' _ dev' va S' Hva), D, (find_dom_same dev' _ d x); [done|done|].
    by apply is_domain_of_ext. }
  assert (forall dev' va, 0 <= va < 2 ^ 48 -> dma_translate s dev' va = e ← find_dom dev' (domains s); recorded s e va) as Hbe
    by (intros; by apply (dma_translate_space _ _ _ _ _ (io_spaces _ _ OK))).
  split.
  - intros _ _ va Hva. rewrite Htr, Hbe, Hfd by lia. cbn [mbind option_bind]. rewrite unmap_covered, over_same by done.
    by replace ((da <=? va) && (va <? da + len)) with true by lia.
  - intros dev' va Hva. rewrite Htr, Hbe by done. destruct (find_dom dev' (domains s)) as [e|] eqn:Ee; [|by right].
    cbn [mbind option_bind]. unfold over. destruct (_ && _ && _) eqn:E; [|by right].
    assert (e = d) as -> by lia. left. destruct (find_dom_Some _ _ _ Ee) as (y & Hy & [_ <-]%is_domain_of_active).
    destruct (find_dom_Some _ _ _ Hfd) as (z & Hz & [_ <-]%is_domain_of_active). split_and!; [done|done|congruence|lia|lia].
Qed.

(** The clearing of the range, and what can follow it. *)
Lemma unmap_cleared (s1 s2 : State) w : Spaces role s1 (recorded s) -> vtd s1 = vtd s -> domains s1 = domains s ->
  ClearIovaPages d da len s1 = (w, s2) ->
  exists node, At role s2 d x node /\ Spaces role s2 cleared /\ vtd s2 = vtd s /\ domains s2 = domains s /\
    forall va, da <= va < da + len -> is_Some (leaf node va).
Proof.
  intros S1 V1 D1 E. assert (domains s1 !! d = Some x) as Hx1 by by rewrite D1.
  destruct (Spaces_At _ _ _ _ _ S1 Hx1 unmap_active) as (_ & [node HA] & Htr). pose proof unmap_range as [[H1 H2] [L1 L2] H3 _].
  pose proof (page_turns_pages len ltac:(lia) L2) as Hn.
  destruct (clear_pages_spec (page_turns len) role s1 s2 _ d x node da w S1 HA H1 ltac:(lia) H2 E) as (S2 & A2 & V2 & D2).
  rewrite Hn in S2. exists node. split_and!; [done|done|congruence|congruence|]. intros va Hva.
  specialize (Htr va ltac:(lia)). rewrite (unmap_covered va Hva) in Htr. destruct HA as (_ & _ & T & _).
  rewrite (translate_decode _ _ node va T) in Htr by lia. by destruct (leaf node va).
Qed.

(** The flush failed: the range is mapped again, and nothing has changed. *)
Lemma unmap_restored (s3 s4 s5 : State) node ok u : Spaces role s3 cleared -> At role s3 d x node ->
  vtd s3 = vtd s -> domains s3 = domains s -> (forall va, da <= va < da + len -> is_Some (leaf node va)) ->
  PopulateIovaPages d da (physical r) len s3 = (ok, s4) -> InvalidateVtdCaches s4 = (u, s5) ->
  unmap_post s s5 dev da len false.
Proof.
  intros S3 A3 V3 D3 Hleaf E4 E5. pose proof unmap_range as [[H1 H2] [L1 L2] H3 (P1 & P2 & P3)].
  pose proof (page_turns_pages len ltac:(lia) L2) as Hn. unfold PopulateIovaPages in E4.
  destruct (populate_pages_spec (page_turns len) 0 da (physical r) da (physical r) role s3 s4 cleared d x node ok)
    as (role4 & x4 & node4 & A4 & [V4 (y & y' & Hy & Ky & D4)] & S4 & R4); try done; try lia.
  { apply (Spaces_ext _ _ _ _ S3). intros d' va _. unfold over at 1. destruct (_ && _ && _) eqn:E; [lia|done]. }
  { intros vb Hvb. rewrite over_same. by replace ((da <=? vb) && (vb <? da + len)) with true by lia. }
  rewrite R4 in S4 by (intros vb Hvb; apply Hleaf; lia). rewrite Hn in S4.
  assert (Spaces role4 s4 (recorded s)) as S4'.
  { apply (Spaces_ext _ _ _ _ S4). intros d' va _. unfold over. destruct (d' =? d)%nat eqn:Ed; [|done].
    apply Nat.eqb_eq in Ed as ->. cbn [andb]. destruct (_ && _) eqn:E; [|done]. rewrite unmap_covered by lia. done. }
  destruct (Spaces_invalidate _ _ _ _ _ S4' E5) as (S5 & V5 & D5 & _).
  assert (y = x) as -> by congruence.
  destruct (unmap_same role4 s5 S5) as (V & OK' & Htr); [congruence|exists y'; split; [congruence|done]|].
  split; [done|]. split; [done|]. split; [done|]. intros dev' va Hva. right. by apply Htr.
Qed.

End Unmap.

(** C8: Unmapping memory of a device.  When [UnmapDeviceDma] succeeds with the unit in use, every
    address of the range was mapped for the device and the remapping unit translates none of it
    any more.  Every other address of the device, and every other device, translates as before.
    When the unit cannot be made to drop its cached translations, the range is mapped again and no
    translation has changed: in every failure case nothing has. *)
Theorem UnmapDeviceDma_correct role (s s' : State) dev da len ok : Iommu_ok role s -> is_u64 da -> is_u64 len ->
  UnmapDeviceDma dev da len s = (ok, s') -> unmap_post s s' dev da len ok.
Proof.
  intros OK Hda Hlen. assert (forall ok', (ok' = true -> passthrough_enabled (vtd s) = false) -> unmap_post s s dev da len ok') as Hsame.
  { intros ok' Hk. split; [done|]. split; [eauto|]. split; [intros Hok Hp; rewrite Hk in Hp; done|]. intros. by right. }
  unfold UnmapDeviceDma. destruct (_ || _) eqn:Eargs; [intros [= <- <-]; by apply Hsame|].
  unfold bind at 1, get_vtd. destruct (passthrough_enabled (vtd s)) eqn:Ept; cbn [negb]; [|intros [= <- <-]; by apply Hsame].
  unfold bind at 1. rewrite FindDomain_eq. destruct (find_dom dev (domains s)) as [d|] eqn:Efd; [|intros [= <- <-]; by apply Hsame].
  destruct (find_dom_Some _ _ _ Efd) as (x & Hx & _). unfold bind at 1, get_domain at 1. rewrite (list_lookup_total_correct _ _ _ Hx).
  destruct (attached x); cbn [negb]; [|intros [= <- <-]; by apply Hsame].
  destruct (list_find _ (mappings x)) as [[slot r]|] eqn:Er; [|intros [= <- <-]; by apply Hsame].
  apply list_find_Some in Er as (Hr & Hrange & _). unfold is_range in Hrange.
  apply andb_true_iff in Hrange as [[Har <-%Z.eqb_eq]%andb_true_iff <-%Z.eqb_eq].
  unfold bind at 1. pose proof (Spaces_keeps _ _ _ _ _ LogVtdFaultState (io_spaces _ _ OK) eq_refl (keeps_log (vtd s) (fun _ => False))) as (S1 & V1 & D1); [done|].
  destruct (LogVtdFaultState s) as [u s1] eqn:E1. cbn [snd] in S1, V1, D1.
  unfold bind at 1. destruct (ClearIovaPages _ _ _ s1) as [w s2] eqn:E2.
  destruct (unmap_cleared OK Efd Hx Hr Har Ept s1 s2 w S1 V1 D1 E2) as (node & A2 & S2 & V2 & D2 & Hleaf).
  unfold bind at 1. destruct (InvalidateVtdCaches s2) as [[] s3] eqn:E3; cbn [negb];
    destruct (Spaces_invalidate _ _ _ _ _ S2 E3) as (S3 & V3 & D3 & O3).
  - assert (domains s3 !! d = Some x) as Hx3 by congruence. unfold bind, get_domain. rewrite (list_lookup_total_correct _ _ _ Hx3).
    intros [= <- <-]. apply (unmap_forgotten OK Efd Hx Hr Har Ept role); cbn [put_domain snd vtd domains]; [|congruence|congruence].
    eapply (Spaces_record role s3 _ d x); try done; [exact (unmap_active Efd Hx)..|].
    cbn [with_mapping mappings]. by rewrite length_insert.
  - unfold bind. destruct (PopulateIovaPages _ _ _ _ s3) as [ok4 s4] eqn:E4. destruct (InvalidateVtdCaches s4) as [v s5] eqn:E5.
    intros [= <- <-]. eapply (unmap_restored OK Hx Hr Har Ept s3 s4 s5 node); try done; [|congruence..].
    by apply (At_flush role s2 s3 d x node (proj1 S2)).
Qed.

End Claims.
