(* ===== verification/VtdClaims.v ===== *)
(** * The invalidation queue and the interrupt entries

    Properties of [SubmitQueuedInvalidation], [AllocatePciInterrupt] and [ReleaseInterrupt]. *)
From S2P Require Import Prelude Interfaces Vtd Iova VtdProof IovaTree IovaProof.

Section Queue.
Context {Pl HW : Type} `{!Mempool Pl} `{!VtdUnit HW}.
Abbreviation State := (Iommu Pl HW).

(** The registers a submission reads: status, tail and head, in this order. *)
Definition status_read (s : State) : Z * HW := hw_read (hw s) (registers (vtd s)) VtdGlobalStatusRegister.
Definition tail_read (s : State) : Z * HW := hw_read (status_read s).2 (registers (vtd s)) VtdInvalidationQueueTailRegister.
Definition head_read (s : State) : Z * HW := hw_read (tail_read s).2 (registers (vtd s)) VtdInvalidationQueueHeadRegister.

Lemma MemSet_keeps_words n p (s : State) : let s' := (MemSet p n s).2 in
  vtd s' = vtd s /\ forall a, ~ (p <= a < p + 8 * Z.of_nat n) -> word (memory s') a = word (memory s) a.
Proof.
  pose proof (keeps_MemSet (vtd s) (fun a => p <= a < p + 8 * Z.of_nat n) n p (fun _ h => h) s eq_refl) as (V & _ & _ & W).
  done.
Qed.

(** The two descriptors are in memory when the unit is told of them. *)
Lemma submit_at_words v lo hi len dl t w n (s s' : State) ok : vtd s = v ->
  invalidation_queue v <> 0 -> invalidation_completion v <> 0 -> len = invalidation_queue_length v ->
  ~ (invalidation_queue v <= invalidation_completion v < invalidation_queue v + len) ->
  slots len dl t w n -> submit_at v lo hi dl t w n s = (ok, s') ->
  let m := memory s' in
  word m (invalidation_queue v + t) = lo /\ word m (invalidation_queue v + t + 8) = hi /\
  word m (invalidation_queue v + w) = 0x200000025 /\ word m (invalidation_queue v + w + 8) = invalidation_completion v.
Proof.
  intros Hv Hq Hc Hl Hsep [(T1 & T2 & _) (W0 & W1 & W2) _ S4].
  assert (8 * Z.of_nat (Z.to_nat (dl / 8)) = dl /\ 8 < dl) as [Hd Hd'].
  { destruct S4 as [[-> _] | [-> _]]; (split; [reflexivity|lia]). }
  assert (w + dl <= t \/ t + dl <= w) as Hdis by (destruct S4 as [[-> ->] | [-> ->]]; lia).
  set (q := invalidation_queue v) in *. set (cp := invalidation_completion v) in *. unfold submit_at. cbv zeta. fold q cp.
  unfold bind at 1. pose proof (MemSet_keeps_words (Z.to_nat (dl / 8)) (q + t) s) as (V1 & _).
  destruct (MemSet _ _ s) as [[] s1]. cbn [snd] in V1. unfold bind at 1 2, store at 1 2.
  set (s3 := MkIommu _ _ _ _ _). unfold bind at 1.
  pose proof (MemSet_keeps_words (Z.to_nat (dl / 8)) (q + w) s3) as (V3 & M3). rewrite Hd in M3.
  destruct (MemSet _ _ s3) as [[] s4]. cbn [snd] in V3, M3. unfold bind at 1 2 3 4, load, store at 1 2 3. set (s5 := MkIommu _ _ _ _ _).
  intros E.
  pose proof (keeps_bind v (fun _ => False) (WriteRegister32 (registers v) VtdInvalidationQueueTailRegister n) _
    (keeps_write _ _ _ _ _) (fun _ => keeps_await v _ VtdCommandTimeoutSpins (registers v) cp) s5) as (_ & _ & _ & W5).
  { unfold s5, s3 in *; cbn [vtd] in *. congruence. }
  rewrite E in W5. cbn [snd] in W5. rewrite !W5 by tauto. unfold s5; cbn [memory]. rewrite !word_insert.
  repeat match goal with |- context [?a =? ?b] => (replace (a =? b) with true by lia) || (replace (a =? b) with false by lia) end.
  rewrite !M3 by lia. unfold s3; cbn [memory]. rewrite !word_insert.
  repeat match goal with |- context [?a =? ?b] => (replace (a =? b) with true by lia) || (replace (a =? b) with false by lia) end.
  split_and!; done.
Qed.

(** C35: The invalidation queue is a ring.  A submission touches no memory but the queue and the
    completion word; it is refused, with memory untouched, or it writes its descriptor at the tail
    and a wait descriptor in the next slot, both inside the queue, and leaves the unit's pending
    descriptors alone: with the head on a slot boundary, those from the head up to the tail and the
    two new ones leave at least one slot free, so that the new tail never meets the head. *)
Theorem SubmitQueuedInvalidation_ring (s s' : State) lo hi ok : let v := vtd s in queue_ok v ->
  ~ (invalidation_queue v <= invalidation_completion v < invalidation_queue v + invalidation_queue_length v) ->
  SubmitQueuedInvalidation lo hi s = (ok, s') ->
  only (queue_memory v) s s' /\
  ((ok = false /\ memory s' = memory s) \/
   let dl := bit64 (invalidation_queue_shift v) in let len := invalidation_queue_length v in
   let tail := u32 (tail_read s).1 mod len in let next := (tail + dl) mod len in
   let head := u32 (head_read s).1 mod len in
   tail mod dl = 0 /\ 0 <= tail /\ tail + dl <= len /\ next + dl <= len /\
   (head mod dl = 0 -> (tail - head) mod len + 2 * dl < len) /\
   word (memory s') (invalidation_queue v + tail) = lo /\ word (memory s') (invalidation_queue v + tail + 8) = hi /\
   word (memory s') (invalidation_queue v + next) = 0x200000025 /\
   word (memory s') (invalidation_queue v + next + 8) = invalidation_completion v).
Proof.
  intros v Q Hsep E. split.
  { replace s' with (SubmitQueuedInvalidation lo hi s).2 by by rewrite E. by apply keeps_submit. }
  revert E. unfold SubmitQueuedInvalidation, bind at 1, get_vtd. fold v.
  destruct ((invalidation_queue v =? 0) || (invalidation_completion v =? 0)) eqn:Eq; [intros [= <- <-]; by left|].
  assert (invalidation_queue v <> 0 /\ invalidation_completion v <> 0) as [Hq Hc] by (clear -Eq; lia).
  unfold bind at 1, ReadRegister32 at 1. fold v. change (hw_read (hw s) (registers v) VtdGlobalStatusRegister) with (status_read s).
  destruct (status_read s) as [st h1] eqn:E1. destruct (negb _); [intros [= <- <-]; by left|].
  unfold bind at 1, ReadRegister32 at 1; cbn [hw vtd]. fold v.
  replace (hw_read h1 (registers v) VtdInvalidationQueueTailRegister) with (tail_read s) by (unfold tail_read; by rewrite E1).
  destruct (tail_read s) as [tl h2] eqn:E2. cbn beta iota zeta. cbn [fst].
  destruct (truthy _ || _) eqn:Ec; [intros [= <- <-]; by left|]. apply orb_false_iff in Ec as [Ec%negb_false_iff%Z.eqb_eq _].
  destruct (slots_of v (u32 tl) Q Hq Hc ltac:(unfold u32; clear; lia) Ec) as [SL Et].
  unfold bind at 1, ReadRegister32 at 1; cbn [hw vtd]. fold v.
  replace (hw_read h2 (registers v) VtdInvalidationQueueHeadRegister) with (head_read s) by (unfold head_read; by rewrite E2).
  destruct (head_read s) as [hd h3] eqn:E3. cbn beta iota zeta. cbn [fst].
  match goal with |- (if ?c then _ else _) _ = _ -> _ => destruct c eqn:Eh end; [intros [= <- <-]; by left|].
  intros E. right.
  pose proof SL as [(T1 & T2 & T3) (W0 & W1 & W2) (N0 & N1) S4].
  match type of E with submit_at _ _ _ _ _ _ _ ?s0 = _ => set (s1 := s0) in E end.
  destruct (submit_at_words v lo hi _ _ _ _ _ s1 s' ok eq_refl Hq Hc eq_refl Hsep SL E) as (M1 & M2 & M3 & M4).
  rewrite W0 in M3, M4, W2. rewrite N0, W0 in Eh. rewrite Et in M1, M2, M3, M4, W2, Eh, T1, T2, T3.
  assert (Z.land (u32 hd) (u32 (invalidation_queue_length v -w 1)) = u32 hd mod invalidation_queue_length v) as Hm.
  { destruct (Q Hq Hc) as (Hs & Hl & _). apply (slot_bounds _ _ (u32 hd) Hs Hl). unfold u32. clear; lia. }
  rewrite Hm in Eh. split_and!; try done. clear M1 M2 M3 M4 W0 N0 Et Ec SL E.
  set (t := u32 tl mod _) in *. set (h := u32 hd mod _) in *. intros Hh.
  assert (0 <= h < invalidation_queue_length v) by (apply Z.mod_pos_bound; clear -S4; lia).
  clearbody t h. clear -Eh T1 T2 T3 S4 H Hh. destruct S4 as [[Ed El] | [Ed El]]; rewrite Ed, El in *; lia.
Qed.

End Queue.

(** ** Interrupt entries *)

Section Interrupts.
Context {Pl HW : Type} `{!Mempool Pl} `{!MempoolLaws Pl} `{!VtdUnit HW}.
Abbreviation State := (Iommu Pl HW).

(** The two words of entry [i], and the flags of all entries. *)
Definition entry (s : State) (i : nat) : Z * Z :=
  (word (memory s) (interrupt_remapping_table (vtd s) + 16 * Z.of_nat i),
   word (memory s) (interrupt_remapping_table (vtd s) + 16 * Z.of_nat i + 8)).
Definition flags (s : State) : list bool := interrupt_remapping_allocated (vtd s).

(** The table has a page of its own, and an entry that is not allocated is not present. *)
Record Remap_ok (role : gmap Z Role) (s : State) : Prop := {
  rm_base : Base role s;
  rm_table : interrupt_remapping_enabled (vtd s) = true ->
    role !! interrupt_remapping_table (vtd s) = Some RemapTable;
  rm_length : length (flags s) = VtdInterruptRemappingTableCapacity;
  rm_free : interrupt_remapping_enabled (vtd s) = true ->
    forall i, flags s !! i = Some false -> entry s i = (0, 0);
}.

Lemma first_free_spec l i : match first_free l i with
  | Some k => exists j, k = (i + j)%nat /\ l !! j = Some false /\ forall m, (m < j)%nat -> l !! m = Some true
  | None => forall j b, l !! j = Some b -> b = true
  end.
Proof.
  revert i. induction l as [|b l IH]; intros i; cbn [first_free]; [done|]. destruct b.
  - specialize (IH (S i)). destruct (first_free l (S i)) as [k|].
    + destruct IH as (j & -> & Hj & Hm). exists (S j). split; [lia|]. split; [done|]. intros [|m] ?; [done|]. apply Hm. lia.
    + intros [|j] b Hj; [by injection Hj|by eapply IH].
  - exists 0%nat. split_and!; [lia|done|lia].
Qed.

(** Only the words of entry [i] and the queue. *)
Definition entry_memory (v : VtdState) (i : nat) (a : Z) : Prop :=
  let e := interrupt_remapping_table v + 16 * Z.of_nat i in a = e \/ a = e + 8 \/ queue_memory v a.

Lemma entry_role role (s : State) i o : Remap_ok role s -> interrupt_remapping_enabled (vtd s) = true -> (i < 256)%nat ->
  0 <= o < 16 -> role !! page_of (interrupt_remapping_table (vtd s) + 16 * Z.of_nat i + o) = Some RemapTable.
Proof.
  intros R Hen Hi Ho. pose proof (rm_table _ _ R Hen) as Ht. rewrite <- Z.add_assoc.
  erewrite role_page; [exact Ht|apply R|exact Ht|lia].
Qed.

(** A step that writes entry [i] and the queue, and may change the flags: the other entries stay. *)
Lemma Remap_step role (s s' : State) i fl : Remap_ok role s -> interrupt_remapping_enabled (vtd s) = true -> (i < 256)%nat ->
  vtd s' = set_interrupts (interrupt_remapping_enabled (vtd s)) (extended_interrupt_mode (vtd s)) fl (vtd s) ->
  domains s' = domains s -> pool s' = pool s ->
  (forall a, ~ entry_memory (vtd s) i a -> word (memory s') a = word (memory s) a) ->
  length fl = 256%nat -> (forall j, fl !! j = Some false -> j = i \/ flags s !! j = Some false) ->
  (fl !! i = Some false -> entry s' i = (0, 0)) ->
  Remap_ok role s' /\ (forall j, j <> i -> (j < 256)%nat -> entry s' j = entry s j) /\ flags s' = fl.
Proof.
  intros R Hen Hi V D P W Hl Hf Hz. pose proof (rm_base _ _ R) as B. destruct (b_queue _ _ B) as [Q1 Q2].
  assert (forall j, j <> i -> (j < 256)%nat -> entry s' j = entry s j) as Hother.
  { intros j Hne Hj. unfold entry. rewrite V; cbn [interrupt_remapping_table set_interrupts].
    assert (forall o, o = 0 \/ o = 8 -> ~ entry_memory (vtd s) i (interrupt_remapping_table (vtd s) + 16 * Z.of_nat j + o)) as Hn.
    { intros o Ho [?|[?|Hq%Q2]]; [lia|lia|]. rewrite (entry_role role s j o R Hen Hj) in Hq by lia. done. }
    rewrite <- (Z.add_0_r (interrupt_remapping_table (vtd s) + 16 * Z.of_nat j)) at 1 3.
    by rewrite !W by (apply Hn; auto). }
  split; [|split; [done|by unfold flags; rewrite V]]. split.
  - pose proof B as [B1 B2 B3 B4 B5 B6]. constructor; rewrite ?V, ?D, ?P; try done.
    cbn [root_table set_interrupts]. intros Hnz. destruct (B3 Hnz) as [R1 R2]. split; [done|]. intros bus Hb.
    assert (role !! page_of (root_table (vtd s) + 16 * bus) = Some RootTable) as Hpg
      by (erewrite role_page; [exact R1|exact B|exact R1|lia]).
    rewrite W; [by apply R2|]. pose proof (entry_role role s i 0 R Hen Hi ltac:(lia)) as H0.
    pose proof (entry_role role s i 8 R Hen Hi ltac:(lia)) as H8. rewrite Z.add_0_r in H0.
    intros [E|[E|Hq%Q2]]; [rewrite E in Hpg|rewrite E in Hpg|]; congruence.
  - rewrite V. cbn. apply R.
  - unfold flags. rewrite V. cbn. done.
  - unfold flags. rewrite V. cbn [interrupt_remapping_enabled interrupt_remapping_allocated set_interrupts]. intros _ j Hj.
    destruct (decide (j = i)) as [->|Hne]; [by apply Hz|]. destruct (Hf j Hj) as [?|Hs]; [done|].
    rewrite Hother; [by apply (rm_free _ _ R)|done|]. apply lookup_lt_Some in Hs. pose proof (rm_length _ _ R). unfold VtdInterruptRemappingTableCapacity in *. lia.
Qed.

(** The flush of an entry leaves it alone. *)
Lemma submit_entry role (s s1 s2 : State) i n ok : Remap_ok role s -> interrupt_remapping_enabled (vtd s) = true -> (i < 256)%nat ->
  vtd s1 = vtd s -> SubmitInterruptCacheInvalidation n 0 true s1 = (ok, s2) ->
  only (queue_memory (vtd s)) s1 s2 /\ entry s2 i = entry s1 i.
Proof.
  intros R Hen Hi V1 E. destruct (b_queue _ _ (rm_base _ _ R)) as [Q1 Q2].
  pose proof (keeps_submit_interrupt (vtd s) n 0 true Q1 s1 V1) as O. rewrite E in O. cbn [snd] in O. split; [done|].
  destruct O as (V & _ & _ & W). unfold entry. rewrite V, V1. pose proof (entry_role role s i 0 R Hen Hi ltac:(lia)) as H0.
  pose proof (entry_role role s i 8 R Hen Hi ltac:(lia)) as H8. rewrite Z.add_0_r in H0.
  rewrite !W; [done|..]; intros Hq%Q2; congruence.
Qed.

(** Both words of entry [i] are written. *)
Definition write_entry (i : nat) (low high : Z) (s : State) : State :=
  let e := interrupt_remapping_table (vtd s) + 16 * Z.of_nat i in (store e low (store (e + 8) high s).2).2.

Lemma write_entry_spec i low high (s : State) : let s' := write_entry i low high s in
  vtd s' = vtd s /\ domains s' = domains s /\ pool s' = pool s /\ entry s' i = (low, high) /\
  forall a, ~ entry_memory (vtd s) i a -> word (memory s') a = word (memory s) a.
Proof.
  unfold write_entry, store, entry, entry_memory; cbn [snd vtd domains pool memory]. split_and!; try done.
  - rewrite !word_insert. rewrite !Z.eqb_refl. by replace (_ + 8 =? _) with false by lia.
  - intros a Ha. rewrite !word_insert, !(proj2 (Z.eqb_neq _ _)); [done|tauto|tauto].
Qed.

(** The words cleared in the other order. *)
Lemma clear_entry i (s : State) : let e := interrupt_remapping_table (vtd s) + 16 * Z.of_nat i in
  (store (e + 8) 0 (store e 0 s).2).2 = write_entry i 0 0 s.
Proof. unfold write_entry, store; cbn. f_equal. apply insert_insert_ne. lia. Qed.

Lemma set_interrupts_same (v : VtdState) :
  set_interrupts (interrupt_remapping_enabled v) (extended_interrupt_mode v) (interrupt_remapping_allocated v) v = v.
Proof. by destruct v. Qed.

(** Entry [i] is cleared and flushed. *)
Lemma clear_flushed role (s s2 s4 : State) i n ok : Remap_ok role s -> interrupt_remapping_enabled (vtd s) = true -> (i < 256)%nat ->
  vtd s2 = vtd s -> domains s2 = domains s -> pool s2 = pool s ->
  (forall a, ~ entry_memory (vtd s) i a -> word (memory s2) a = word (memory s) a) ->
  SubmitInterruptCacheInvalidation n 0 true (write_entry i 0 0 s2) = (ok, s4) ->
  vtd s4 = vtd s /\ domains s4 = domains s /\ pool s4 = pool s /\
  (forall a, ~ entry_memory (vtd s) i a -> word (memory s4) a = word (memory s) a) /\ entry s4 i = (0, 0).
Proof.
  intros R Hen Hi V2 D2 P2 W E. destruct (write_entry_spec i 0 0 s2) as (V3 & D3 & P3 & E3 & W3).
  destruct (submit_entry role s (write_entry i 0 0 s2) s4 i n ok R Hen Hi ltac:(congruence) E) as [(V4 & D4 & P4 & W4) E4].
  split_and!; try congruence. intros a Ha. rewrite W4, W3, W; [done|done|by rewrite V2|].
  intros Hq. apply Ha. by right; right.
Qed.

(** The message of entry [i]. *)
Lemma message_address i : (i < 256)%nat ->
  Z.lor (Z.lor (Z.lor 0xFEE00000 (Z.shiftl (Z.land (Z.of_nat i) 0x7FFF) 5))
    (Z.shiftr (Z.land (Z.of_nat i) 0x8000) 13)) 0x18 = 0xFEE00018 + 32 * Z.of_nat i /\
  (Z.of_nat i + 1) mod 2 ^ 16 = Z.of_nat i + 1.
Proof.
  intros Hi. split; [|lia].
  assert (forallb (fun i => Z.lor (Z.lor (Z.lor 0xFEE00000 (Z.shiftl (Z.land (Z.of_nat i) 0x7FFF) 5))
    (Z.shiftr (Z.land (Z.of_nat i) 0x8000) 13)) 0x18 =? 0xFEE00018 + 32 * Z.of_nat i) (seq 0 256) = true) as Hall
    by (vm_compute; reflexivity).
  rewrite forallb_forall in Hall. apply Z.eqb_eq, Hall, in_seq. lia.
Qed.

(** The outcome of an allocation. *)
Definition allocated_post (s s' : State) (dev : DeviceNode) (lapic vector : Z) (res : option InterruptMessage) : Prop :=
  match res with
  | None => flags s' = flags s /\ forall j, (j < 256)%nat -> entry s' j = entry s j
  | Some m => interrupt_remapping_enabled (vtd s) = true /\ interrupt_remapping_enabled (vtd s') = true /\
      exists i, flags s !! i = Some false /\ (forall j, (j < i)%nat -> flags s !! j = Some true) /\
      flags s' = <[i := true]> (flags s) /\
      entry s' i = (target_word (extended_interrupt_mode (vtd s)) lapic vector, source_word (fields dev)) /\
      (forall j, j <> i -> (j < 256)%nat -> entry s' j = entry s j) /\
      m = MkMessage (0xFEE00018 + 32 * Z.of_nat i) 0 (Z.of_nat i + 1)
  end.

Lemma AllocatePciInterrupt_spec role (s s' : State) dev lapic vector res : Remap_ok role s ->
  AllocatePciInterrupt dev lapic vector s = (res, s') ->
  Remap_ok role s' /\ allocated_post s s' dev lapic vector res.
Proof.
  intros R. unfold AllocatePciInterrupt, bind at 1, get_vtd. fold (flags s).
  destruct (_ || _) eqn:Eg; [intros [= <- <-]; split; [done|by split]|].
  assert (interrupt_remapping_enabled (vtd s) = true) as Hen by (by destruct (interrupt_remapping_enabled (vtd s))).
  pose proof (first_free_spec (flags s) 0) as Hff. destruct (first_free (flags s) 0) as [k|]; [|intros [= <- <-]; split; [done|by split]].
  destruct Hff as (i & -> & Hfree & Hfirst). cbn [Nat.add]. pose proof (rm_length _ _ R) as Hl.
  assert (i < 256)%nat as Hi by (apply lookup_lt_Some in Hfree; unfold VtdInterruptRemappingTableCapacity in Hl; lia).
  unfold bind at 1 2, store at 1 2.
  set (low := target_word _ _ _). set (high := source_word _). change (MkIommu _ _ _ _ _) with (write_entry i low high s).
  destruct (write_entry_spec i low high s) as (V1 & D1 & P1 & E1 & W1). set (s1 := write_entry i low high s) in *.
  unfold bind at 1. destruct (SubmitInterruptCacheInvalidation _ 0 true s1) as [ok s2] eqn:Es.
  destruct (submit_entry role s s1 s2 i _ ok R Hen Hi V1 Es) as [(V2 & D2 & P2 & W2) E2].
  assert (forall a, ~ entry_memory (vtd s) i a -> word (memory s2) a = word (memory s) a) as W.
  { intros a Ha. rewrite W2, W1; [done|done|]. intros Hq. apply Ha. by right; right. }
  destruct ok; cbn [negb].
  - unfold bind, set_vtd, ret. intros [= <- <-]. destruct (message_address i Hi) as [-> ->].
    destruct (Remap_step role s (MkIommu (set_interrupts (interrupt_remapping_enabled (vtd s2)) (extended_interrupt_mode (vtd s2))
        (<[i := true]> (interrupt_remapping_allocated (vtd s2))) (vtd s2)) (domains s2) (memory s2) (pool s2) (hw s2))
        i (<[i := true]> (flags s)) R Hen Hi) as (R' & Ho & Hf'); cbn [vtd domains memory pool]; try congruence.
    + by rewrite V2, V1.
    + done.
    + by rewrite length_insert.
    + intros j [(<- & ? & _)|[_ Hj]]%list_lookup_insert_Some; [done|by right].
    + rewrite list_lookup_insert_eq by by eapply lookup_lt_Some. done.
    + split; [done|]. split; [done|]. split; [cbn; congruence|]. exists i. split_and!; try done. unfold entry in *. cbn [vtd memory] in *. rewrite V2, V1 in *.
      cbn [interrupt_remapping_table set_interrupts]. by rewrite E2, E1.
  - unfold bind. destruct (store _ 0 s2) as [u2 s3'] eqn:E3'. destruct (store _ 0 s3') as [u3 s3] eqn:E3.
    assert (s3 = write_entry i 0 0 s2) as ->.
    { rewrite <- clear_entry. rewrite V2, V1. replace s3 with (store (interrupt_remapping_table (vtd s) + 16 * Z.of_nat i + 8) 0 s3').2 by by rewrite E3.
      by replace s3' with (store (interrupt_remapping_table (vtd s) + 16 * Z.of_nat i) 0 s2).2 by by rewrite E3'. }
    destruct (SubmitInterruptCacheInvalidation _ 0 true (write_entry i 0 0 s2)) as [u4 s4] eqn:E4. intros [= <- <-].
    destruct (clear_flushed role s s2 s4 i _ u4 R Hen Hi ltac:(congruence) ltac:(congruence) ltac:(congruence) W E4)
      as (V4 & D4 & P4 & W4 & Z4).
    destruct (Remap_step role s s4 i (flags s) R Hen Hi) as (R' & Ho & Hf'); try done.
    + rewrite V4. symmetry. apply set_interrupts_same.
    + by right.
    + split; [done|]. split; [done|]. intros j Hj. destruct (decide (j = i)) as [->|Hne]; [|by apply Ho].
      by rewrite Z4, (rm_free _ _ R).
Qed.

(** A release clears the entry; the entry becomes free when the unit has dropped it. *)
Lemma ReleaseInterrupt_spec role (s s' : State) handle u : Remap_ok role s -> 0 <= handle -> ReleaseInterrupt handle s = (u, s') ->
  Remap_ok role s' /\
  ((s' = s /\ forall i, flags s !! i = Some true -> handle = Z.of_nat i + 1 -> interrupt_remapping_enabled (vtd s) = false) \/
   exists i, flags s !! i = Some true /\ handle = Z.of_nat i + 1 /\ entry s' i = (0, 0) /\
    (forall j, j <> i -> (j < 256)%nat -> entry s' j = entry s j) /\
    (flags s' = <[i := false]> (flags s) \/ flags s' = flags s)).
Proof.
  intros R Hh. pose proof (rm_length _ _ R) as Hl. unfold VtdInterruptRemappingTableCapacity in Hl. unfold ReleaseInterrupt, bind at 1, get_vtd. fold (flags s).
  destruct ((handle =? 0) || _) eqn:Eg.
  { intros [= _ <-]. split; [done|]. left. split; [done|]. intros i _ ->. destruct (interrupt_remapping_enabled (vtd s)); [lia|done]. }
  assert (interrupt_remapping_enabled (vtd s) = true) as Hen by (destruct (interrupt_remapping_enabled (vtd s)); [done|by rewrite orb_true_r in Eg]).
  destruct (_ <=? _)%nat eqn:El; unfold VtdInterruptRemappingTableCapacity in El.
  { intros [= _ <-]. split; [done|]. left. split; [done|]. intros i Hf%lookup_lt_Some ->. lia. }
  set (i := Z.to_nat (handle - 1)) in *. assert (i < 256)%nat as Hi by lia.
  destruct (flags s !!! i) eqn:Ef; cbn [negb].
  2: { intros [= _ <-]. split; [done|]. left. split; [done|]. intros k Hf Hk. assert (k = i) as -> by (unfold i; lia).
    rewrite (list_lookup_total_correct _ _ _ Hf) in Ef. done. }
  assert (flags s !! i = Some true) as Hf.
  { rewrite <- Ef. apply list_lookup_lookup_total_lt. lia. }
  unfold bind. destruct (store _ 0 s) as [u2 s3'] eqn:E3'. destruct (store _ 0 s3') as [u3 s3] eqn:E3.
  assert (s3 = write_entry i 0 0 s) as ->.
  { rewrite <- clear_entry. replace s3 with (store (interrupt_remapping_table (vtd s) + 16 * Z.of_nat i + 8) 0 s3').2 by by rewrite E3.
    by replace s3' with (store (interrupt_remapping_table (vtd s) + 16 * Z.of_nat i) 0 s).2 by by rewrite E3'. }
  destruct (SubmitInterruptCacheInvalidation _ 0 true (write_entry i 0 0 s)) as [ok s4] eqn:E4.
  destruct (clear_flushed role s s s4 i _ ok R Hen Hi eq_refl eq_refl eq_refl (fun _ _ => eq_refl) E4) as (V4 & D4 & P4 & W4 & Z4).
  destruct ok; cbn [negb].
  - unfold set_vtd. intros [= _ <-]. set (s5 := MkIommu _ _ _ _ _).
    destruct (Remap_step role s s5 i (<[i := false]> (flags s)) R Hen Hi) as (R' & Ho & Hf'); try done.
    + unfold s5; cbn [vtd]. by rewrite V4.
    + by rewrite length_insert.
    + intros j [(<- & ? & _)|[_ Hj]]%list_lookup_insert_Some; [by left|by right].
    + split; [done|]. right. exists i. split_and!; try done; [unfold i; lia|by left].
  - intros [= _ <-]. destruct (Remap_step role s s4 i (flags s) R Hen Hi) as (R' & Ho & Hf'); try done.
    + rewrite V4. symmetry. apply set_interrupts_same.
    + by right.
    + split; [done|]. right. exists i. split_and!; try done; [unfold i; lia|by right].
Qed.

(** Allocating an interrupt entry.  [AllocatePciInterrupt] takes the lowest entry that is not in
    use and returns the message that names it: the handle is its index plus one, and the address
    encodes the index.  The entry carries the requester and the destination asked for; no other entry
    changes, and when the allocation fails no entry and no flag has changed. *)
Theorem AllocatePciInterrupt_correct role (s s' : State) dev lapic vector res : Remap_ok role s ->
  AllocatePciInterrupt dev lapic vector s = (res, s') ->
  Remap_ok role s' /\ allocated_post s s' dev lapic vector res.
Proof. apply AllocatePciInterrupt_spec. Qed.

(** Allocate and release are inverse.  Releasing the handle of an allocated interrupt restores
    every entry of the remapping table; the entry is free again, unless the unit refused to drop
    its cached copy, in which case the entry stays reserved. *)
Theorem interrupt_roundtrip role (s s1 s2 : State) dev lapic vector m u : Remap_ok role s ->
  AllocatePciInterrupt dev lapic vector s = (Some m, s1) -> ReleaseInterrupt (msg_handle m) s1 = (u, s2) ->
  (forall j, (j < 256)%nat -> entry s2 j = entry s j) /\ (flags s2 = flags s \/ flags s2 = flags s1).
Proof.
  intros R Ea Er. destruct (AllocatePciInterrupt_spec role s s1 dev lapic vector _ R Ea) as [R1 (Hen & Hen1 & i & Hf & _ & F1 & E1 & O1 & ->)].
  assert (i < length (flags s))%nat as Hlt by by eapply lookup_lt_Some.
  cbn [msg_handle] in Er. destruct (ReleaseInterrupt_spec role s1 s2 (Z.of_nat i + 1) u R1 ltac:(lia) Er) as [R2 [[-> Hno] | (k & Hk & Eh & Z2 & O2 & F2)]].
  - rewrite (Hno i) in Hen1; [done| |done]. rewrite F1. by apply list_lookup_insert_eq.
  - assert (k = i) as -> by lia. split.
    + intros j Hj. destruct (decide (j = i)) as [->|Hne]; [|by rewrite O2, O1]. rewrite Z2. symmetry. by apply (rm_free _ _ R).
    + destruct F2 as [-> | ->]; [left|by right]. rewrite F1, list_insert_insert_eq. by apply list_insert_id.
Qed.

End Interrupts.
