(* ===== verification/VtdEnable.v ===== *)
(** * Activation of the remapping unit

    [EnableVtdPassthrough] builds the root and context tables of all PCI functions and hands them to
    the unit; [EnableVtdInterruptRemapping] adds the invalidation queue and the interrupt table.
    Proved here: on success every PCI function passes through and the invariants of the later
    operations hold; a failure before the unit was given the tables returns every page. *)
From S2P Require Import Prelude Interfaces Vtd Iova IovaRange VtdProof IovaTree IovaProof IovaMap.

(** ** Device trees *)

(** The PCI functions below a node, in the order of the traversal. *)
Fixpoint functions (n : DeviceNode) : list DevExt :=
  let 'Node ptr d subf := n in
  if ptr =? 0 then []
  else (if node_type d =? PciDevice then [d] else []) ++ flat_map functions subf.

(** The fields of all nodes are within their types. *)
Definition ext_ok (d : DevExt) : Prop := 0 <= pci_bus d < 256 /\ 0 <= pci_device d /\ 0 <= pci_function d.

Fixpoint tree_ok (n : DeviceNode) : Prop :=
  let 'Node _ d subf := n in ext_ok d /\ fold_right (fun m P => tree_ok m /\ P) True subf.

Section DeviceNode_ind.
Context (P : DeviceNode -> Prop).
Context (Hnode : forall ptr d subf, Forall P subf -> P (Node ptr d subf)).

Fixpoint DeviceNode_nested_ind (n : DeviceNode) : P n :=
  let 'Node ptr d subf := n in
  Hnode ptr d subf ((fix go (l : list DeviceNode) : Forall P l := match l with
    | [] => @Forall_nil_2 _ P
    | m :: rest => @Forall_cons_2 _ P m rest (DeviceNode_nested_ind m) (go rest)
    end) subf).
End DeviceNode_ind.

Section Enable.
Context {Pl HW : Type} `{!Mempool Pl} `{!MempoolLaws Pl} `{!VtdUnit HW}.
Abbreviation State := (Iommu Pl HW).

(** ** Building the context tables *)

(** The root entry of a bus, and the context entry of a requester in a table. *)
Definition root_entry (rt : Z) (s : State) (bus : Z) : Z := word (memory s) (rt + 16 * bus).
Definition context (s : State) (t q : Z) : Z * Z :=
  (word (memory s) (t + 16 * q), word (memory s) (t + 16 * q + 8)).

(** The requester passes through. *)
Definition passes (rt : Z) (s : State) (d : DevExt) : Prop :=
  exists t, page_ok t /\ root_entry rt s (pci_bus d) = Z.lor t VtdRootPresent /\
    context s t (requester d) = (passthrough_low, passthrough_high).

(** The tables under construction: [O] is what the pool had given out before. *)
Record Building (O : Z -> Prop) (role : gmap Z Role) (rt : Z) (s : State) : Prop := {
  bd_page : forall p r, role !! p = Some r -> page_ok p;
  bd_fresh : forall p r q, role !! p = Some r -> p <= q < p + 4096 -> ~ O q;
  bd_pool : forall q, mp_owned (pool s) q <-> O q \/ exists p r, role !! p = Some r /\ p <= q < p + 4096;
  bd_root : role !! rt = Some RootTable;
  bd_roles : forall p r, role !! p = Some r -> (p = rt /\ r = RootTable) \/
    (r = ContextTable /\ exists bus, 0 <= bus < 256 /\ root_entry rt s bus = Z.lor p VtdRootPresent);
  bd_entries : forall bus, 0 <= bus < 256 -> root_entry rt s bus = 0 \/
    exists t, role !! t = Some ContextTable /\ root_entry rt s bus = Z.lor t VtdRootPresent /\
      forall q, 0 <= q < 256 -> Z.land (context s t q).1 VtdContextPresent = 0 \/ context s t q = (passthrough_low, passthrough_high);
  bd_inj : forall bus bus' t, 0 <= bus < 256 -> 0 <= bus' < 256 -> page_ok t ->
    root_entry rt s bus = Z.lor t VtdRootPresent -> root_entry rt s bus' = Z.lor t VtdRootPresent -> bus = bus';
}.

Lemma lor_1 p : p mod 4096 = 0 -> Z.lor p 1 = p + 1.
Proof.
  intros Hp. assert (Z.land p 1 = 0) as E by (change 1 with (2 ^ 1 - 1); rewrite land_mask by lia; lia).
  rewrite Z.add_nocarry_lxor by done. symmetry. by apply Z.lxor_lor.
Qed.

Lemma root_entry_table t : page_ok t ->
  truthy (Z.land (Z.lor t VtdRootPresent) VtdRootPresent) = true /\ Z.land (Z.lor t VtdRootPresent) VtdPageAddressMask = t.
Proof.
  intros (H1 & H2 & H3). unfold VtdRootPresent. rewrite lor_1 by done. split.
  - change 1 with (2 ^ 1 - 1) at 2. rewrite land_mask by lia. unfold truthy. lia.
  - rewrite land_page_mask by (unfold is_u64; lia). lia.
Qed.

Lemma root_entry_inj t u : page_ok t -> page_ok u -> Z.lor t VtdRootPresent = Z.lor u VtdRootPresent -> t = u.
Proof. intros (_ & Ht & _) (_ & Hu & _). unfold VtdRootPresent. rewrite !lor_1 by done. lia. Qed.

Lemma Building_cell O role rt (s : State) p r o : Building O role rt s -> role !! p = Some r -> 0 <= o < 4096 -> page_of (p + o) = p.
Proof. intros B Hp Ho. apply page_of_cell; [|done]. by apply (bd_page _ _ _ _ B p r). Qed.

(** A page of the pool joins the tables. *)
Lemma Building_fresh O role rt (s s1 : State) p : Building O role rt s -> allocate PAGE_SIZE s = (p, s1) ->
  vtd s1 = vtd s /\ domains s1 = domains s /\ memory s1 = memory s /\
  (p = 0 -> Building O role rt s1) /\
  (p <> 0 -> page_ok p /\ role !! p = None /\ (forall q, p <= q < p + 4096 -> ~ O q) /\
    forall q, mp_owned (pool s1) q <-> mp_owned (pool s) q \/ p <= q < p + 4096).
Proof.
  intros B. unfold allocate. destruct (mp_allocate (pool s) PAGE_SIZE 12 0) as [p' m] eqn:E. intros [= -> <-].
  split_and!; try done.
  - intros ->. destruct B as [B1 B2 B3 B4 B5 B6 B7]. constructor; try done. cbn [pool]. intros q.
    by rewrite (mp_allocate_none _ _ _ E q).
  - intros Hnz. destruct (mp_allocate_block _ PAGE_SIZE _ _ ltac:(done) ltac:(done) E Hnz) as (A1 & A2 & A3 & A4 & A5).
    split; [done|]. split_and!; [| |done].
    + destruct (role !! p) as [r|] eqn:Er; [|done]. exfalso. apply (A4 p); [unfold PAGE_SIZE; lia|].
      apply (bd_pool _ _ _ _ B). right. exists p, r. split; [done|lia].
    + intros q Hq Ho. apply (A4 q); [unfold PAGE_SIZE; lia|]. apply (bd_pool _ _ _ _ B). by left.
Qed.

(** Giving a fresh page back. *)
Lemma Building_give_back O role rt (s s1 : State) p : Building O role rt s -> page_ok p -> role !! p = None ->
  vtd s1 = vtd s -> domains s1 = domains s -> memory s1 = memory s -> (forall q, p <= q < p + 4096 -> ~ O q) ->
  (forall q, mp_owned (pool s1) q <-> mp_owned (pool s) q \/ p <= q < p + 4096) ->
  Building O role rt (deallocate p PAGE_SIZE s1).2.
Proof.
  intros [B1 B2 B3 B4 B5 B6 B7] Hp Hr V D M Hf Ho.
  assert (forall q, mp_owned (mp_deallocate (pool s1) p PAGE_SIZE).2 q <-> mp_owned (pool s) q) as Hpool.
  { intros q. rewrite mp_deallocate_block; [|done|done|apply Hp|intros; apply Ho; by right].
    rewrite Ho. unfold PAGE_SIZE. split; [tauto|]. intros Hq. split; [by left|]. intros Hin. apply B3 in Hq as [Hq|(t & r & Ht & Hq)].
    - by apply (Hf q).
    - destruct (B1 t r Ht) as (T1 & T2 & T3). destruct Hp as (P1 & P2 & P3). assert (t = p) as -> by lia. congruence. }
  constructor; unfold root_entry, context; cbn [deallocate snd memory pool]; rewrite ?M; try done.
  intros q. by rewrite Hpool.
Qed.

(** A requester with a place in a context table. *)
Definition req_ok (d : DevExt) : Prop := ext_ok d /\ pci_device d < 32 /\ pci_function d < 8.

Lemma req_range d : req_ok d -> 0 <= pci_bus d < 256 /\ 0 <= requester d < 256.
Proof. unfold req_ok, ext_ok, requester. lia. Qed.

Lemma present_not_zero t : page_ok t -> Z.lor t VtdRootPresent <> 0.
Proof. intros (H1 & H2 & _). unfold VtdRootPresent. rewrite lor_1 by done. lia. Qed.

(** A fresh, empty context table for a bus without one. *)
Section Fresh.
Context {O : Z -> Prop} {role : gmap Z Role} {rt : Z} {s s' : State} {bus t : Z} (B : Building O role rt s).
Context (Hb : 0 <= bus < 256) (He : root_entry rt s bus = 0) (Ht : page_ok t) (Hr : role !! t = None).
Context (Hf : forall q, t <= q < t + 4096 -> ~ O q).
Context (Hp : forall q, mp_owned (pool s') q <-> mp_owned (pool s) q \/ t <= q < t + 4096).
Context (Hroot : word (memory s') (rt + 16 * bus) = Z.lor t VtdRootPresent).
Context (Hz : forall j, 0 <= j < 512 -> word (memory s') (t + 8 * j) = 0).
Context (Hw : forall a, ~ (t <= a < t + 4096) -> a <> rt + 16 * bus -> a <> rt + 16 * bus + 8 ->
  word (memory s') a = word (memory s) a).

Lemma fresh_root b : 0 <= b < 256 ->
  root_entry rt s' b = if b =? bus then Z.lor t VtdRootPresent else root_entry rt s b.
Proof.
  intros Hb'. unfold root_entry. destruct (b =? bus) eqn:E; [by apply Z.eqb_eq in E as ->|].
  pose proof (bd_root _ _ _ _ B) as Hrt. destruct (bd_page _ _ _ _ B _ _ Hrt) as (R1 & R2 & R3). destruct Ht as (T1 & T2 & T3).
  assert (rt <> t) by congruence. apply Hw; lia.
Qed.

Lemma fresh_old u r q : role !! u = Some r -> u <> rt -> 0 <= q < 256 -> context s' u q = context s u q.
Proof.
  intros Hu Hn Hq. destruct (bd_page _ _ _ _ B _ _ Hu) as (U1 & U2 & U3). destruct Ht as (T1 & T2 & T3).
  pose proof (bd_root _ _ _ _ B) as Hrt. destruct (bd_page _ _ _ _ B _ _ Hrt) as (R1 & R2 & R3).
  assert (u <> t) by congruence. unfold context. rewrite !Hw; done || lia.
Qed.

Lemma fresh_new q : 0 <= q < 256 -> context s' t q = (0, 0).
Proof.
  intros Hq. unfold context. replace (t + 16 * q + 8) with (t + 8 * (2 * q + 1)) by lia.
  replace (t + 16 * q) with (t + 8 * (2 * q)) by lia. rewrite !Hz by lia. done.
Qed.

Lemma fresh_none b : 0 <= b < 256 -> root_entry rt s b <> Z.lor t VtdRootPresent.
Proof.
  intros Hb' E. destruct (bd_entries _ _ _ _ B b Hb') as [E0|(u & Hu & Hue & _)].
  - rewrite E0 in E. by apply (present_not_zero t Ht).
  - rewrite Hue in E. apply root_entry_inj in E as ->; [congruence|by eapply (bd_page _ _ _ _ B)|done].
Qed.

Lemma fresh_in p r : role !! p = Some r -> <[t := ContextTable]> role !! p = Some r.
Proof. intros Hpr. rewrite lookup_insert_ne; [done|]. congruence. Qed.

Lemma Building_context : Building O (<[t := ContextTable]> role) rt s'.
Proof.
  pose proof B as [B1 B2 B3 B4 B5 B6 B7]. constructor.
  - intros p r [[<- _]|[_ Hpr]]%lookup_insert_Some; [done|by eapply B1].
  - intros p r q [[<- _]|[_ Hpr]]%lookup_insert_Some; [by apply Hf|by eapply B2].
  - intros q. rewrite Hp, B3. split.
    + intros [[Hq|(p & r & Hpr & Hq)]|Hq]; [by left|right; exists p, r; split; [by apply fresh_in|done]|].
      right. exists t, ContextTable. by rewrite lookup_insert_eq.
    + intros [Hq|(p & r & [[<- _]|[_ Hpr]]%lookup_insert_Some & Hq)]; [by left; left|by right|]. left. right. eauto.
  - by apply fresh_in.
  - intros p r [[<- <-]|[_ Hpr]]%lookup_insert_Some.
    + right. split; [done|]. exists bus. split; [done|]. by rewrite fresh_root, Z.eqb_refl.
    + destruct (B5 p r Hpr) as [?|(-> & b & Hb' & Hbe)]; [by left|right]. split; [done|]. exists b. split; [done|].
      rewrite fresh_root by done. destruct (b =? bus) eqn:E; [|done]. apply Z.eqb_eq in E as ->. rewrite He in Hbe.
      by destruct (present_not_zero p (B1 _ _ Hpr)).
  - intros b Hb'. rewrite fresh_root by done. destruct (b =? bus) eqn:E.
    + right. exists t. rewrite lookup_insert_eq. split_and!; [done|done|]. intros q Hq. left. by rewrite fresh_new.
    + destruct (B6 b Hb') as [?|(u & Hu & Hue & Huc)]; [by left|right]. exists u. split_and!; [by apply fresh_in|done|].
      intros q Hq. rewrite (fresh_old u ContextTable q Hu); [by apply Huc|congruence|done].
  - intros b b' u H1 H2 Hu. rewrite !fresh_root by done. destruct (b =? bus) eqn:E, (b' =? bus) eqn:E'; [lia| | |by apply B7].
    + intros Hs Hs'. apply root_entry_inj in Hs as <-; [|done|done]. by destruct (fresh_none b').
    + intros Hs Hs'. apply root_entry_inj in Hs' as <-; [|done|done]. by destruct (fresh_none b).
Qed.

Lemma passes_context d : req_ok d -> passes rt s' d <-> passes rt s d.
Proof.
  intros [Hbus Hreq]%req_range. unfold passes. rewrite fresh_root by done. destruct (pci_bus d =? bus) eqn:E.
  - apply Z.eqb_eq in E. rewrite E, He. split; intros (u & Hu & Hue & Huc).
    + apply root_entry_inj in Hue as <-; [|done|done]. by rewrite fresh_new in Huc.
    + by destruct (present_not_zero u Hu).
  - assert (forall u, page_ok u -> root_entry rt s (pci_bus d) = Z.lor u VtdRootPresent -> context s' u (requester d) = context s u (requester d)) as Hc.
    { intros u Hu Hue. destruct (bd_entries _ _ _ _ B _ Hbus) as [E0|(w & Hw' & Hwe & _)].
      - rewrite E0 in Hue. by destruct (present_not_zero u Hu).
      - rewrite Hwe in Hue. apply root_entry_inj in Hue as <-; [|by eapply (bd_page _ _ _ _ B)|done].
        apply (fresh_old w ContextTable); [done| |done]. pose proof (bd_root _ _ _ _ B). congruence. }
    split; intros (u & Hu & Hue & Huc); exists u; (split_and!; [done|done|]); [by rewrite <- Hc|by rewrite Hc].
Qed.

End Fresh.

Lemma EnsureContextTable_spec O role rt (s s' : State) bus n t n' : Building O role rt s -> 0 <= bus < 256 ->
  EnsureContextTable rt bus n s = ((t, n'), s') ->
  vtd s' = vtd s /\ domains s' = domains s /\ exists role', Building O role' rt s' /\
    (t = 0 \/ (role' !! t = Some ContextTable /\ root_entry rt s' bus = Z.lor t VtdRootPresent)) /\
    forall d, req_ok d -> passes rt s' d <-> passes rt s d.
Proof.
  intros B Hb. unfold EnsureContextTable, bind at 1, load. fold (word (memory s) (rt + 16 * bus)). fold (root_entry rt s bus).
  destruct (bd_entries _ _ _ _ B bus Hb) as [E0|(u & Hu & Hue & _)].
  2: { destruct (root_entry_table u (bd_page _ _ _ _ B _ _ Hu)) as [Hpr Had]. rewrite Hue, Hpr.
    unfold bind, GetContextTable, load, ret, bind. fold (word (memory s) (rt + 16 * bus)). fold (root_entry rt s bus). rewrite Hue, Had.
    intros [= <- <- <-]. split_and!; try done. exists role. split_and!; [done|by right|done]. }
  rewrite E0. change (truthy (Z.land 0 VtdRootPresent)) with false. cbn iota. unfold bind at 1. destruct (allocate PAGE_SIZE s) as [p s1] eqn:Ea.
  destruct (Building_fresh O role rt s s1 p B Ea) as (V1 & D1 & M1 & Hnone & Hsome).
  destruct (p =? 0) eqn:Ep.
  { intros [= <- <- <-]. split_and!; try done. exists role. split_and!; [apply Hnone; lia|by left|].
    intros d _. unfold passes, root_entry, context. by rewrite M1. }
  destruct (Hsome ltac:(lia)) as (Pp & Pr & Pf & Po). unfold bind at 1, get_vtd. destruct (negb _).
  { unfold bind. intros [= <- <- <-]. cbn [deallocate snd vtd domains]. split_and!; try done. exists role.
    split_and!; [by apply (Building_give_back O role rt s s1 p)|by left|]. intros d _. unfold passes, root_entry, context; cbn [memory]. by rewrite M1. }
  unfold bind at 1. destruct (MemSet p 512 s1) as [[] s2] eqn:Em. pose proof (MemSet_words 512 p s1) as (V2 & D2 & P2 & Z2 & W2).
  rewrite Em in V2, D2, P2, Z2, W2. cbn [snd] in V2, D2, P2, Z2, W2. unfold bind, store, ret. intros [= <- <- <-].
  cbn [vtd domains]. split_and!; [congruence..|]. set (s3 := MkIommu _ _ _ _ _).
  pose proof (bd_root _ _ _ _ B) as Hrt. destruct (bd_page _ _ _ _ B _ _ Hrt) as (R1 & R2 & R3). pose proof Pp as (P1 & Pal & P3).
  assert (rt <> p) as Hne by congruence.
  assert (forall a, word (memory s3) a = if a =? rt + 16 * bus then Z.lor p VtdRootPresent else if a =? rt + 16 * bus + 8 then 0 else word (memory s2) a) as Hs3.
  { intros a. unfold s3; cbn [memory]. by rewrite !word_insert. }
  assert (word (memory s3) (rt + 16 * bus) = Z.lor p VtdRootPresent) as H1 by by rewrite Hs3, Z.eqb_refl.
  assert (forall j, 0 <= j < 512 -> word (memory s3) (p + 8 * j) = 0) as H2.
  { intros j Hj. rewrite Hs3. replace (_ =? rt + 16 * bus) with false by lia. replace (_ =? rt + 16 * bus + 8) with false by lia. apply Z2. lia. }
  assert (forall a, ~ (p <= a < p + 4096) -> a <> rt + 16 * bus -> a <> rt + 16 * bus + 8 -> word (memory s3) a = word (memory s) a) as H3.
  { intros a Ha Ha1 Ha2. rewrite Hs3. replace (a =? rt + 16 * bus) with false by lia. replace (a =? _) with false by lia.
    rewrite W2, M1; [done|lia]. }
  assert (forall q, mp_owned (pool s3) q <-> mp_owned (pool s) q \/ p <= q < p + 4096) as H4.
  { intros q. unfold s3; cbn [pool]. by rewrite P2. }
  exists (<[p := ContextTable]> role). split_and!.
  - by apply (Building_context B Hb E0 Pp Pr Pf H4 H1 H2 H3).
  - right. rewrite lookup_insert_eq. split; [done|]. exact H1.
  - intros d Hd. by apply (passes_context B Hb E0 Pp Pr H1 H2 H3).
Qed.

(** A context entry of a table is made to pass through. *)
Section Pass.
Context {O : Z -> Prop} {role : gmap Z Role} {rt : Z} {s : State} {t q : Z} (B : Building O role rt s).
Context (Ht : role !! t = Some ContextTable) (Hq : 0 <= q < 256).
Abbreviation c := (t + 16 * q).
Abbreviation s' := (store c passthrough_low (store (c + 8) passthrough_high s).2).2.

Lemma pass_other a : a <> c -> a <> c + 8 -> word (memory s') a = word (memory s) a.
Proof.
  intros H1 H2. cbn [store snd memory]. rewrite !word_insert.
  replace (a =? c) with false by lia. by replace (a =? c + 8) with false by lia.
Qed.

Lemma pass_root b : 0 <= b < 256 -> root_entry rt s' b = root_entry rt s b.
Proof.
  intros Hb. pose proof (bd_root _ _ _ _ B) as Hrt. destruct (bd_page _ _ _ _ B _ _ Hrt) as (R1 & R2 & R3).
  destruct (bd_page _ _ _ _ B _ _ Ht) as (T1 & T2 & T3). assert (rt <> t) by congruence.
  unfold root_entry. apply pass_other; lia.
Qed.

Lemma pass_context u r : page_ok u -> 0 <= r < 256 ->
  context s' u r = if (u =? t) && (r =? q) then (passthrough_low, passthrough_high) else context s u r.
Proof.
  intros (U1 & U2 & U3) Hr. destruct (bd_page _ _ _ _ B _ _ Ht) as (T1 & T2 & T3). unfold context.
  destruct ((u =? t) && (r =? q)) eqn:E; [|by rewrite !pass_other by lia].
  assert (u = t /\ r = q) as [-> ->] by lia. cbn [store snd memory]. rewrite !word_insert, !Z.eqb_refl.
  by replace (c + 8 =? c) with false by lia.
Qed.

Lemma Building_pass : Building O role rt s'.
Proof.
  pose proof B as [B1 B2 B3 B4 B5 B6 B7]. constructor; try done.
  - intros p r Hp. destruct (B5 p r Hp) as [?|(-> & b & Hb & Hbe)]; [by left|right]. split; [done|]. exists b. by rewrite pass_root.
  - intros b Hb. rewrite pass_root by done. destruct (B6 b Hb) as [?|(u & Hu & Hue & Huc)]; [by left|right].
    exists u. split_and!; [done|done|]. intros r Hr. rewrite pass_context by (done || by eapply B1).
    destruct (_ && _); [by right|by apply Huc].
  - intros b b' u H1 H2. rewrite !pass_root by done. by apply B7.
Qed.

Lemma passes_pass d : req_ok d -> passes rt s' d <->
  passes rt s d \/ (root_entry rt s (pci_bus d) = Z.lor t VtdRootPresent /\ requester d = q).
Proof.
  intros [Hbus Hreq]%req_range. unfold passes. rewrite pass_root by done. pose proof (bd_page _ _ _ _ B _ _ Ht) as Hpt. split.
  - intros (u & Hu & Hue & Huc). rewrite pass_context in Huc by done. destruct ((u =? t) && (requester d =? q)) eqn:E.
    + right. assert (u = t /\ requester d = q) as [-> ->] by lia. done.
    + left. eauto.
  - intros [(u & Hu & Hue & Huc)|[He Hr]].
    + exists u. split_and!; [done|done|]. rewrite pass_context by done. by destruct (_ && _).
    + exists t. split_and!; [done|done|]. rewrite pass_context by done. by rewrite Hr, !Z.eqb_refl.
Qed.

End Pass.

(** The requester id. *)
Definition bdf (d : DevExt) : Z * Z := (pci_bus d, requester d).

Lemma passes_bdf rt (s : State) d e : bdf d = bdf e -> passes rt s d -> passes rt s e.
Proof. unfold bdf, passes. by intros [= -> ->]. Qed.

(** What a step of the traversal does: the functions [l] get their contexts. *)
Record Populated (O : Z -> Prop) (rt : Z) (ok : bool) (l : list DevExt) (s s' : State) : Prop := {
  pp_same : vtd s' = vtd s /\ domains s' = domains s;
  pp_build : exists role', Building O role' rt s';
  pp_kept : forall e, req_ok e -> passes rt s e -> passes rt s' e;
  pp_new : ok = true -> forall e, e ∈ l -> req_ok e /\ pci_segment e = segment (vtd s) /\ ~ passes rt s e /\ passes rt s' e;
  pp_nodup : ok = true -> NoDup (bdf <$> l);
}.

Lemma Populated_nil O rt (s : State) role : Building O role rt s -> Populated O rt true [] s s.
Proof. intros B. split; [done|eauto|done|by intros _ e ?%elem_of_nil|intros _; apply NoDup_nil_2]. Qed.

Lemma Populated_app O rt ok l1 l2 (s1 s2 s3 : State) : Populated O rt true l1 s1 s2 -> Populated O rt ok l2 s2 s3 ->
  Populated O rt ok (l1 ++ l2) s1 s3.
Proof.
  intros [[V1 D1] B1 K1 N1 U1] [[V2 D2] B2 K2 N2 U2]. split; [split; congruence|done|auto| |].
  - intros Hok e [He|He]%elem_of_app.
    + destruct (N1 eq_refl e He) as (? & ? & ? & ?). split_and!; auto.
    + destruct (N2 Hok e He) as (? & Hs & Hn & ?). split_and!; [done|congruence| |done]. intros Hp. by apply Hn, K1.
  - intros Hok. rewrite fmap_app. apply NoDup_app. split_and!; [by apply U1| |by apply U2].
    intros x (d & -> & Hd)%list_elem_of_fmap (e & He & Hin)%list_elem_of_fmap.
    destruct (N1 eq_refl d Hd) as (_ & _ & _ & Hp). destruct (N2 Hok e Hin) as (_ & _ & Hn & _). apply Hn. by eapply passes_bdf.
Qed.

Lemma populate_device_spec O role rt (s s' : State) d counts ok counts' : Building O role rt s -> ext_ok d ->
  populate_device d rt counts s = ((ok, counts'), s') ->
  Populated O rt ok (if node_type d =? PciDevice then [d] else []) s s' /\
  (ok = true -> counts'.2 = counts.2 + Z.of_nat (length (if node_type d =? PciDevice then [d] else []))).
Proof.
  intros B Hext. unfold populate_device, bind at 1, get_vtd. destruct (node_type d =? PciDevice); cbn [negb].
  2: { intros [= <- <- <-]. split; [by eapply Populated_nil|cbn; lia]. }
  assert (forall (s1 : State), vtd s1 = vtd s -> domains s1 = domains s -> (exists role1, Building O role1 rt s1) ->
    (forall e, req_ok e -> passes rt s1 e <-> passes rt s e) -> Populated O rt false [d] s s1) as Hfail.
  { intros s1 V D Hb Hp. split; [done|done| |done|done]. intros e He. by rewrite Hp. }
  destruct (pci_segment d =? segment (vtd s)) eqn:Eseg; cbn [negb]; [|intros [= <- <- <-]; split; [apply Hfail; eauto|done]].
  destruct (_ || _) eqn:Erange; [intros [= <- <- <-]; split; [apply Hfail; eauto|done]|].
  assert (req_ok d) as Hreq by (split; [done|lia]). destruct (req_range d Hreq) as [Hbus Hrq].
  unfold bind at 1. destruct (EnsureContextTable rt (pci_bus d) counts.1 s) as [[t n] s1] eqn:Ee.
  destruct (EnsureContextTable_spec O role rt s s1 _ _ t n B Hbus Ee) as (V1 & D1 & role1 & B1 & Ht & Hpass).
  destruct (t =? 0) eqn:Et; [intros [= <- <- <-]; split; [apply Hfail; eauto|done]|].
  destruct Ht as [->|[Ht Hroot]]; [done|].
  unfold bind at 1, load. fold (word (memory s1) (t + 16 * requester d)).
  destruct (truthy _) eqn:Ep; [intros [= <- <- <-]; split; [apply Hfail; eauto|done]|].
  unfold bind, ret. intros E. injection E as <- <- <-.
  assert (~ passes rt s d) as Hnp.
  { rewrite <- Hpass by done. intros (u & Hu & Hue & Huc). rewrite Hroot in Hue.
    apply root_entry_inj in Hue as <-; [|by eapply (bd_page _ _ _ _ B1)|done]. injection Huc as Hlow _. by rewrite Hlow in Ep. }
  split; [|cbn; lia]. split.
  - done.
  - exists role1. by apply (Building_pass B1 Ht Hrq).
  - intros e He Hpe. apply (passes_pass B1 Ht Hrq); [done|]. left. by apply Hpass.
  - intros _ e ->%list_elem_of_singleton. split_and!; [done|lia|done|]. apply (passes_pass B1 Ht Hrq); [done|]. by right.
  - intros _. apply NoDup_singleton.
Qed.

(** The traversal of the device tree. *)
Lemma PopulatePassthroughContexts_spec n : tree_ok n -> forall O role rt (s s' : State) counts ok counts', Building O role rt s ->
  PopulatePassthroughContexts rt n counts s = ((ok, counts'), s') ->
  Populated O rt ok (functions n) s s' /\ (ok = true -> counts'.2 = counts.2 + Z.of_nat (length (functions n))).
Proof.
  induction n as [ptr d subf IH] using DeviceNode_nested_ind. intros [Hd Hsub] O role rt s s' counts ok counts' B.
  cbn [PopulatePassthroughContexts functions]. destruct (ptr =? 0).
  { intros [= <- <- <-]. split; [by eapply Populated_nil|cbn; lia]. }
  unfold bind. destruct (populate_device d rt counts s) as [[ok1 counts1] s1] eqn:E1.
  destruct (populate_device_spec O role rt s s1 d counts ok1 counts1 B Hd E1) as [P1 C1].
  destruct ok1.
  2: { intros [= <- <- <-]. split; [|done]. destruct P1 as [? ? ? ? ?]. by split. }
  specialize (C1 eq_refl). destruct (pp_build _ _ _ _ _ _ P1) as [role1 B1]. intros E2.
  enough (Populated O rt ok (flat_map functions subf) s1 s' /\ (ok = true -> counts'.2 = counts1.2 + Z.of_nat (length (flat_map functions subf)))) as [P2 C2].
  { split; [by eapply Populated_app|]. intros Hok. rewrite length_app, C2, C1 by done. lia. }
  clear E1 P1 C1 B. revert s1 role1 B1 counts1 E2. clear s counts. induction subf as [|m subf IHl]; intros s1 role1 B1 counts1; cbn [each flat_map].
  { intros [= <- <- <-]. split; [by eapply Populated_nil|cbn; lia]. }
  apply Forall_cons in IH as [IHm IH]. destruct Hsub as [Hm Hsub]. unfold bind at 1.
  destruct (PopulatePassthroughContexts rt m counts1 s1) as [[ok2 counts2] s2] eqn:E2.
  destruct (IHm Hm O role1 rt s1 s2 counts1 ok2 counts2 B1 E2) as [P2 C2]. destruct ok2.
  - specialize (C2 eq_refl). destruct (pp_build _ _ _ _ _ _ P2) as [role2 B2]. intros E3.
    destruct (IHl IH Hsub s2 role2 B2 counts2 E3) as [P3 C3]. split; [by eapply Populated_app|].
    intros Hok. rewrite length_app, C3, C2 by done. lia.
  - intros [= <- <- <-]. split; [|done]. destruct P2 as [? ? ? ? ?]. by split.
Qed.

(** ** Taking the tables back *)

(** One bus: its context table goes back to the pool. *)
Lemma release_bus O role rt (s s' : State) bus : Building O role rt s -> 0 <= bus < 256 ->
  s' = (let s1 := (store (rt + 16 * bus) 0 s).2 in let s2 := (store (rt + 16 * bus + 8) 0 s1).2 in
        (deallocate (Z.land (root_entry rt s bus) VtdPageAddressMask) PAGE_SIZE s2).2) ->
  truthy (Z.land (root_entry rt s bus) VtdRootPresent) = true ->
  vtd s' = vtd s /\ domains s' = domains s /\ (exists role', Building O role' rt s') /\
  forall b, 0 <= b < 256 -> root_entry rt s' b = if b =? bus then 0 else root_entry rt s b.
Proof.
  intros B Hb -> Hpr. pose proof B as [B1 B2 B3 B4 B5 B6 B7]. destruct (B6 bus Hb) as [E|(t & Ht & He & _)].
  { rewrite E in Hpr. done. }
  pose proof (B1 _ _ Ht) as Hpt. rewrite He, (proj2 (root_entry_table t Hpt)). set (s3 := (deallocate _ _ _).2).
  pose proof (B1 _ _ B4) as (R1 & R2 & R3). pose proof Hpt as (T1 & T2 & T3). assert (rt <> t) as Hne by congruence.
  assert (forall a, word (memory s3) a = if a =? rt + 16 * bus + 8 then 0 else if a =? rt + 16 * bus then 0 else word (memory s) a) as Hw.
  { intros a. unfold s3; cbn [deallocate store snd memory]. by rewrite !word_insert. }
  assert (forall b, 0 <= b < 256 -> root_entry rt s3 b = if b =? bus then 0 else root_entry rt s b) as Hre.
  { intros b Hb'. unfold root_entry. rewrite Hw. replace (_ =? rt + 16 * bus + 8) with false by lia.
    destruct (b =? bus) eqn:E; [by replace (_ =? _) with true by lia|by replace (_ =? _) with false by lia]. }
  assert (forall u q, page_ok u -> u <> rt -> 0 <= q < 256 -> context s3 u q = context s u q) as Hctx.
  { intros u q (U1 & U2 & U3) Hn Hq. unfold context. rewrite !Hw.
    repeat match goal with |- context [?a =? ?b] => replace (a =? b) with false by lia end. done. }
  split_and!; [done|done| |exact Hre]. exists (delete t role).
  assert (forall p r, delete t role !! p = Some r <-> role !! p = Some r /\ p <> t) as Hdel.
  { intros p r. rewrite lookup_delete_Some. naive_solver. }
  constructor.
  - intros p r [Hp _]%Hdel. by eapply B1.
  - intros p r q [Hp _]%Hdel. by eapply B2.
  - intros q. unfold s3; cbn [deallocate store snd pool]. rewrite mp_deallocate_block; [|done|done|done|].
    2: { intros a Ha. apply B3. right. exists t, ContextTable. split; [done|]. unfold PAGE_SIZE in Ha. lia. }
    rewrite B3. unfold PAGE_SIZE. split.
    + intros [[Hq|(p & r & Hp & Hq)] Hn]; [by left|right]. exists p, r. rewrite Hdel. split; [|done]. split; [done|]. by intros ->.
    + intros [Hq|(p & r & [Hp Hne']%Hdel & Hq)].
      * split; [by left|]. intros Hin. by eapply (B2 t).
      * split; [right; eauto|]. destruct (B1 _ _ Hp) as (? & ? & ?). lia.
  - rewrite Hdel. done.
  - intros p r [Hp Hn]%Hdel. destruct (B5 p r Hp) as [?|(-> & b & Hb' & Hbe)]; [by left|right]. split; [done|]. exists b. split; [done|].
    rewrite Hre by done. destruct (b =? bus) eqn:E; [|done]. apply Z.eqb_eq in E as ->. rewrite He in Hbe.
    apply root_entry_inj in Hbe as <-; [done|done|by eapply B1].
  - intros b Hb'. rewrite Hre by done. destruct (b =? bus) eqn:E; [by left|].
    destruct (B6 b Hb') as [?|(u & Hu & Hue & Huc)]; [by left|right]. exists u. rewrite Hdel. split_and!; [done| |done|].
    + intros ->. assert (b = bus) by (apply (B7 b bus t); done). lia.
    + intros q Hq. rewrite Hctx; [by apply Huc|by eapply B1|congruence|done].
  - intros b b' u H1 H2 Hu. rewrite !Hre by done. destruct (b =? bus) eqn:E, (b' =? bus) eqn:E'; [lia| | |by apply B7].
    + intros E0. by destruct (present_not_zero u Hu).
    + intros _ E0. by destruct (present_not_zero u Hu).
Qed.

Lemma release_buses_spec O rt l : forall role (s s' : State) u, Building O role rt s -> Forall (fun b => (b < 256)%nat) l ->
  release_buses rt l s = (u, s') ->
  vtd s' = vtd s /\ domains s' = domains s /\ (exists role', Building O role' rt s') /\
  forall b, 0 <= b < 256 -> root_entry rt s' b = if existsb (fun k => Z.of_nat k =? b) l then 0 else root_entry rt s b.
Proof.
  induction l as [|k l IH]; intros role s s' u B Hl; cbn [release_buses existsb].
  { intros [= <- <-]. split_and!; eauto. }
  apply Forall_cons in Hl as [Hk Hl]. unfold bind at 1, load. fold (word (memory s) (rt + 16 * Z.of_nat k)). fold (root_entry rt s (Z.of_nat k)).
  unfold bind at 1. destruct (when _ _ s) as [v s1] eqn:E1. intros E2.
  assert (vtd s1 = vtd s /\ domains s1 = domains s /\ (exists role', Building O role' rt s1) /\
    forall b, 0 <= b < 256 -> root_entry rt s1 b = if b =? Z.of_nat k then 0 else root_entry rt s b) as (V1 & D1 & [role1 B1] & R1).
  { destruct (truthy _) eqn:Ep; cbn [when] in E1.
    - eapply (release_bus O role rt s s1 (Z.of_nat k) B); [lia| |done]. revert E1. unfold bind, GetContextTable, load, ret, bind.
      fold (word (memory s) (rt + 16 * Z.of_nat k)). fold (root_entry rt s (Z.of_nat k)). by intros [= <- <-].
    - injection E1 as <- <-. split_and!; [done|done|eauto|]. intros b Hb. destruct (b =? Z.of_nat k) eqn:E; [|done].
      apply Z.eqb_eq in E as ->. destruct (bd_entries _ _ _ _ B _ Hb) as [?|(t & Ht & He & _)]; [done|].
      rewrite He, (proj1 (root_entry_table t (bd_page _ _ _ _ B _ _ Ht))) in Ep. done. }
  destruct (IH role1 s1 s' u B1 Hl E2) as (V2 & D2 & B2 & R2). split_and!; [congruence|congruence|done|].
  intros b Hb. rewrite R2, R1 by done. rewrite (Z.eqb_sym (Z.of_nat k)). by destruct (existsb _ l), (b =? Z.of_nat k).
Qed.

(** Every page of the tables goes back. *)
Lemma ReleasePassthroughTables_spec O role rt (s s' : State) u : Building O role rt s ->
  ReleasePassthroughTables rt s = (u, s') ->
  vtd s' = vtd s /\ domains s' = domains s /\ forall q, mp_owned (pool s') q <-> O q.
Proof.
  intros B. pose proof (bd_page _ _ _ _ B _ _ (bd_root _ _ _ _ B)) as (R1 & R2 & R3). unfold ReleasePassthroughTables.
  replace (rt =? 0) with false by lia. unfold bind. destruct (release_buses rt (seq 0 256) s) as [v s1] eqn:E1.
  assert (Forall (fun b => (b < 256)%nat) (seq 0 256)) as Hl by (apply Forall_forall; intros b Hb%elem_of_seq; lia).
  destruct (release_buses_spec O rt (seq 0 256) role s s1 v B Hl E1) as (V1 & D1 & [role1 B1] & Z1).
  intros [= <- <-]. cbn [vtd domains pool]. split_and!; [done|done|]. intros q.
  assert (forall b, 0 <= b < 256 -> root_entry rt s1 b = 0) as Hzero.
  { intros b Hb. rewrite Z1 by done. replace (existsb _ _) with true; [done|]. symmetry. apply existsb_exists.
    exists (Z.to_nat b). split; [apply in_seq; lia|lia]. }
  assert (forall p r, role1 !! p = Some r -> p = rt) as Honly.
  { intros p r Hp. destruct (bd_roles _ _ _ _ B1 p r Hp) as [[? _]|(_ & b & Hb & He)]; [done|].
    rewrite Hzero in He by done. by destruct (present_not_zero p (bd_page _ _ _ _ B1 _ _ Hp)). }
  rewrite mp_deallocate_block; [|done|done|done|].
  - rewrite (bd_pool _ _ _ _ B1). unfold PAGE_SIZE. split.
    + intros [[Hq|(p & r & Hp & Hq)] Hn]; [done|]. apply Honly in Hp as ->. done.
    + intros Hq. split; [by left|]. intros Hin. by apply (bd_fresh _ _ _ _ B1 rt RootTable q (bd_root _ _ _ _ B1)).
  - intros a Ha. apply (bd_pool _ _ _ _ B1). right. exists rt, RootTable. split; [apply B1|]. unfold PAGE_SIZE in Ha. lia.
Qed.

End Enable.
