(* ===== verification/VtdStart.v ===== *)
(** * Starting the remapping unit

    [EnableVtdInterruptRemapping] with its rollback, and [EnableVtdPassthrough] as a whole: the state
    it leaves satisfies the invariants that the mapping operations need. *)
From S2P Require Import Prelude Interfaces Vtd Iova IovaRange VtdProof IovaTree IovaProof IovaMap VtdClaims VtdEnable.

(** The pages of a block get a role. *)
Definition mark (r : Role) (p size : Z) (role : gmap Z Role) : gmap Z Role :=
  foldr (fun i => <[p + 4096 * Z.of_nat i := r]>) role (seq 0 (Z.to_nat (size / 4096))).

Lemma lookup_mark r p size role q : p mod 4096 = 0 -> 0 <= size -> size mod 4096 = 0 ->
  mark r p size role !! q = if (p <=? q) && (q <? p + size) && (q mod 4096 =? 0) then Some r else role !! q.
Proof.
  intros Hp H0 Hs. unfold mark. assert (forall n, foldr (fun i => <[p + 4096 * Z.of_nat i := r]>) role (seq 0 n) !! q =
    if (p <=? q) && (q <? p + 4096 * Z.of_nat n) && (q mod 4096 =? 0) then Some r else role !! q) as Hn.
  2: { rewrite Hn. by replace (4096 * Z.of_nat (Z.to_nat (size / 4096))) with size by lia. }
  assert (forall l, foldr (fun i => <[p + 4096 * Z.of_nat i := r]>) role l !! q =
    if existsb (fun i => p + 4096 * Z.of_nat i =? q) l then Some r else role !! q) as Hl.
  { induction l as [|i l IH]; cbn [foldr existsb]; [done|]. destruct (_ =? q) eqn:E; cbn [orb].
    - apply Z.eqb_eq in E as ->. by rewrite lookup_insert_eq.
    - rewrite lookup_insert_ne by lia. done. }
  intros n. rewrite Hl. destruct (_ && _ && _) eqn:E.
  - replace (existsb _ _) with true; [done|]. symmetry. apply existsb_exists. exists (Z.to_nat ((q - p) / 4096)).
    split; [apply in_seq; lia|lia].
  - replace (existsb _ _) with false; [done|]. symmetry. apply not_true_iff_false. intros (i & Hi%in_seq & Heq)%existsb_exists. lia.
Qed.

Section Start.
Context {Pl HW : Type} `{!Mempool Pl} `{!MempoolLaws Pl} `{!VtdUnit HW}.
Abbreviation State := (Iommu Pl HW).

(** ** Blocks *)

(** A block of whole pages that is owned and has no role. *)
Definition free_block (role : gmap Z Role) (s : State) (p size : Z) : Prop :=
  0 < p /\ p mod 4096 = 0 /\ p + size <= two64 /\ (forall q, p <= q < p + size -> mp_owned (pool s) q) /\
  forall q, p <= q < p + size -> role !! q = None.

(** Blocks that do not meet. *)
Definition off (p n q m : Z) : Prop := p + n <= q \/ q + m <= p.

Lemma allocate_block role (s s1 : State) size p : 0 < size -> size mod 4096 = 0 -> Base role s -> allocate size s = (p, s1) ->
  Base role s1 /\ vtd s1 = vtd s /\ domains s1 = domains s /\ memory s1 = memory s /\
  (p <> 0 -> free_block role s1 p size) /\
  forall q n, 0 < n -> n mod 4096 = 0 -> free_block role s q n -> free_block role s1 q n /\ (p <> 0 -> off q n p size).
Proof.
  intros H0 Hs B. unfold allocate. destruct (mp_allocate (pool s) size 12 0) as [p' m] eqn:E. intros [= -> <-]. cbn [vtd domains memory pool].
  assert (forall q, mp_owned (pool s) q -> mp_owned m q) as Hmono.
  { intros q Hq. destruct (decide (p = 0)) as [->|Hnz]; [by eapply mp_allocate_none|].
    destruct (mp_allocate_block _ size _ _ H0 Hs E Hnz) as (_ & _ & _ & _ & Ho). apply Ho. by left. }
  split. { apply Base_pool; [done|]. intros q r Hq a Ha. by apply Hmono, (b_owned _ _ B q r). }
  split_and!; try done.
  - intros Hnz. destruct (mp_allocate_block _ size _ _ H0 Hs E Hnz) as (A1 & A2 & A3 & A4 & A5). split_and!; try done.
    + intros q Hq. apply A5. by right.
    + intros q Hq. destruct (role !! q) as [r|] eqn:Er; [|done]. exfalso. apply (A4 q Hq). apply (b_owned _ _ B q r Er). lia.
  - intros q n Hn0 Hn (F1 & F2 & F3 & F4 & F5). split; [split_and!; auto|]. intros Hnz.
    destruct (mp_allocate_block _ size _ _ H0 Hs E Hnz) as (A1 & A2 & A3 & A4 & A5). unfold off.
    destruct (decide (q + n <= p \/ p + size <= q)) as [?|Hov]; [done|]. exfalso.
    apply (A4 (Z.max p q) ltac:(lia)), F4. lia.
Qed.

Lemma deallocate_block role (s : State) p size : 0 < size -> size mod 4096 = 0 -> Base role s -> free_block role s p size ->
  let s' := (deallocate p size s).2 in Base role s' /\
  forall q n, 0 < n -> free_block role s q n -> off q n p size -> free_block role s' q n.
Proof.
  intros H0 Hs B (F1 & F2 & F3 & F4 & F5) s'. pose proof (mp_deallocate_block (pool s) p size H0 Hs F2 F4) as Hd. split.
  - apply Base_pool; [done|]. intros t r Ht q Hq. apply Hd. destruct (b_owned _ _ B t r Ht) as [(T1 & T2 & T3) To].
    split; [by apply To|]. intros Hin. rewrite (F5 t) in Ht; [done|]. lia.
  - intros q n Hn (G1 & G2 & G3 & G4 & G5) Hoff. split_and!; try done. intros a Ha. apply Hd. split; [by apply G4|].
    unfold off in Hoff. lia.
Qed.

(** The roles of a block that is put to use; not the tables of a domain. *)
Lemma Base_mark role (s : State) r p size : (r = QueuePage \/ r = RemapTable) -> 0 < size -> size mod 4096 = 0 ->
  Base role s -> free_block role s p size -> Base (mark r p size role) s.
Proof.
  intros Hr H0 Hs B (F1 & F2 & F3 & F4 & F5). pose proof B as [B1 B2 B3 B4 B5 B6].
  assert (forall q x, role !! q = Some x -> mark r p size role !! q = Some x) as Hin.
  { intros q x Hq. rewrite lookup_mark by lia. destruct (_ && _ && _) eqn:E; [|done]. rewrite F5 in Hq; [done|lia]. }
  constructor; try done.
  - intros q x. rewrite lookup_mark by lia. destruct (_ && _ && _) eqn:E; [|by apply B1]. intros _. split; [unfold page_ok; lia|].
    intros a Ha. apply F4. lia.
  - split; [apply B2|]. intros a Ha. by apply Hin, B2.
  - intros Hnz. destruct (B3 Hnz) as [R1 R2]. split; [by apply Hin|]. intros bus Hb. destruct (R2 bus Hb); [by left|right]. by apply Hin.
  - intros d x Hx. destruct (B6 d x Hx) as (U1 & U2 & U3 & U4 & U5). split_and!; try done. intros q. rewrite U4. split; [apply Hin|].
    rewrite lookup_mark by lia. destruct (_ && _ && _); [|done]. intros [= ->]. by destruct Hr.
Qed.

Lemma free_block_mark role (s : State) r p size q n : 0 <= size -> size mod 4096 = 0 -> p mod 4096 = 0 ->
  free_block role s q n -> off q n p size -> free_block (mark r p size role) s q n.
Proof.
  intros H0 Hs Hp (G1 & G2 & G3 & G4 & G5) Hoff. split_and!; try done. intros a Ha. rewrite lookup_mark by done.
  unfold off in Hoff. replace (_ && _ && _) with false by lia. by apply G5.
Qed.

(** ** Interrupt remapping *)

(** The driver state apart from interrupt remapping. *)
Definition core_eq (v v' : VtdState) : Prop :=
  set_storage 0 0 0 0 0 (set_interrupts false false [] v') = set_storage 0 0 0 0 0 (set_interrupts false false [] v).

Lemma core_eq_fields v v' : core_eq v v' -> passthrough_enabled v' = passthrough_enabled v /\ root_table v' = root_table v /\
  segment v' = segment v /\ host_address_width v' = host_address_width v /\ probe_complete v' = probe_complete v /\
  device_count v' = device_count v /\ context_table_count v' = context_table_count v.
Proof. intros [=]. done. Qed.

Lemma keeps_disable_if_on w R f : keeps w R (disable_if_on (Pl:=Pl) (HW:=HW) f).
Proof. unfold disable_if_on. keeps. apply keeps_feature. Qed.

Lemma keeps_disable w R b : keeps w R (DisableInterruptRemappingForRollback (Pl:=Pl) (HW:=HW) b).
Proof. unfold DisableInterruptRemappingForRollback. keeps; apply keeps_disable_if_on || apply keeps_feature. Qed.

Lemma release_flags (s s' : State) u : ReleaseInterruptRemappingStorage s = (u, s') ->
  length (flags s') = VtdInterruptRemappingTableCapacity.
Proof.
  unfold ReleaseInterruptRemappingStorage, bind at 1, get_vtd. repeat (unfold bind at 1; destruct (when (Pl:=Pl) (HW:=HW) _ _ _) as [? ?]).
  by intros [= _ <-].
Qed.

(** The three blocks of the activation: the queue, the completion word's page and the table. *)
Section Storage.
Context {role : gmap Z Role} {s0 s3 : State} {q c t len shift : Z}.
Abbreviation v := (vtd s0).
Abbreviation v5 := (set_storage q c len shift t v).
Context (B0 : Base role s0) (B3 : Base role s3) (V3 : vtd s3 = v) (D3 : domains s3 = domains s0) (M3 : memory s3 = memory s0).
Context (Hsh : shift = 4 \/ shift = 5) (Hlen : len = Z.shiftl 256 shift).
Context (Fq : free_block role s3 q len) (Fc : free_block role s3 c 4096) (Ft : free_block role s3 t 4096).
Context (Oqc : off q len c 4096) (Oqt : off q len t 4096) (Oct : off c 4096 t 4096).
Context (Hq0 : invalidation_queue v = 0).

Lemma storage_len : 0 < len /\ len mod 4096 = 0.
Proof. rewrite Hlen. destruct Hsh as [E | E]; rewrite E; split; reflexivity. Qed.

Definition in_blocks (a : Z) : Prop := q <= a < q + len \/ c <= a < c + 4096 \/ t <= a < t + 4096.

Definition online : State := MkIommu v5 (domains s0) (memory s0) (pool s3) (hw s3).
Definition role3 : gmap Z Role := mark RemapTable t 4096 (mark QueuePage c 4096 (mark QueuePage q len role)).

Lemma role3_in p r : role !! p = Some r -> role3 !! p = Some r.
Proof.
  intros Hp. destruct storage_len as [L1 L2]. destruct Fq as (Q1 & Q2 & _ & _ & Q5). destruct Fc as (C1 & C2 & _ & _ & C5).
  destruct Ft as (T1 & T2 & _ & _ & T5). unfold role3. rewrite !lookup_mark by lia.
  repeat match goal with |- context [if ?b then _ else _] => destruct b eqn:? end;
    solve [done | rewrite T5 in Hp by lia; done | rewrite C5 in Hp by lia; done | rewrite Q5 in Hp by lia; done].
Qed.

Lemma role3_block a : in_blocks a -> scratch role3 a /\ role !! page_of a = None.
Proof.
  destruct storage_len as [L1 L2]. destruct Fq as (Q1 & Q2 & _ & _ & Q5). destruct Fc as (C1 & C2 & _ & _ & C5).
  destruct Ft as (T1 & T2 & _ & _ & T5). unfold scratch, role3, page_of. rewrite !lookup_mark by lia. intros Ha. split.
  - unfold in_blocks in Ha. repeat match goal with |- context [if ?b then _ else _] => destruct b eqn:? end;
      solve [by left | by right; right | lia].
  - destruct Ha as [Ha|[Ha|Ha]]; [apply Q5|apply C5|apply T5]; lia.
Qed.

Lemma role3_queue a : queue_memory v5 a -> role3 !! page_of a = Some QueuePage.
Proof.
  destruct storage_len as [L1 L2]. destruct Fq as (Q1 & Q2 & _ & _ & Q5). destruct Fc as (C1 & C2 & _ & _ & C5).
  destruct Ft as (T1 & T2 & _ & _ & T5). unfold off in *. intros (_ & _ & Ha). cbn in Ha. unfold role3, page_of.
  rewrite !lookup_mark by lia. replace ((t <=? _) && _ && _) with false by lia.
  destruct ((c <=? _) && _ && _) eqn:E2; [done|]. by replace ((q <=? _) && _ && _) with true by lia.
Qed.

Lemma role3_table : role3 !! t = Some RemapTable.
Proof. destruct Ft as (T1 & T2 & _). unfold role3. rewrite lookup_mark by lia. by replace (_ && _ && _) with true by lia. Qed.

Lemma online_Base : Base role3 online.
Proof.
  destruct storage_len as [L1 L2]. pose proof Fq as (Q1 & Q2 & _). pose proof Fc as (C1 & C2 & _). pose proof Ft as (T1 & T2 & _).
  assert (Base role3 s3) as B.
  { unfold role3. apply Base_mark; [by right|lia|done| |].
    - apply Base_mark; [by left|lia|done| |apply free_block_mark; [lia|done|done|done|unfold off in *; lia]].
      apply Base_mark; [by left|done..].
    - apply free_block_mark; [lia|done|done| |unfold off in *; lia]. apply free_block_mark; [lia|done|done|done|unfold off in *; lia]. }
  destruct B as [C1' C2' C3' C4' C5' C6']. unfold online. constructor; cbn [vtd domains memory pool]; rewrite <- ?D3, <- ?M3; try done.
  - split; [|apply role3_queue]. intros _ _. cbn. split_and!; [done|done|lia|done].
  - rewrite V3 in C3'. done.
  - rewrite V3 in C4'. done.
Qed.

(** While the unit is being set up, only the blocks change. *)
Lemma online_keep s : only in_blocks online s -> Base role3 s.
Proof. intros O. eapply Base_only; [exact online_Base|exact O|]. intros a Ha. by apply role3_block. Qed.

Lemma online_step {A} (m : State -> A * State) s : only in_blocks online s -> keeps v5 (queue_memory v5) m -> only in_blocks online (m s).2.
Proof.
  intros O Hk. etransitivity; [exact O|]. apply (only_mono (queue_memory v5)).
  - intros a (_ & _ & Ha). cbn in Ha. unfold in_blocks. destruct Fc as (C1 & _). lia.
  - apply Hk. by destruct O as (-> & _).
Qed.

(** The storage is given back. *)
Lemma online_release s s' u : only in_blocks online s -> ReleaseInterruptRemappingStorage s = (u, s') ->
  Base role s' /\ core_eq v (vtd s') /\ interrupt_remapping_enabled (vtd s') = false /\ domains s' = domains s0 /\
  forall a, is_Some (role !! page_of a) -> word (memory s') a = word (memory s0) a.
Proof.
  intros (V & D & P & W) E. destruct storage_len as [L1 L2]. pose proof Fq as (Q1 & _). pose proof Fc as (C1 & _). pose proof Ft as (T1 & _).
  assert (s' = (deallocate t PAGE_SIZE (deallocate c PAGE_SIZE (deallocate q len
    (MkIommu (set_interrupts false false no_interrupts (set_storage 0 0 0 shift 0 v)) (domains s) (memory s) (pool s) (hw s))).2).2).2) as ->.
  { revert E. unfold ReleaseInterruptRemappingStorage, bind, get_vtd. rewrite V. cbn [vtd online invalidation_queue invalidation_completion interrupt_remapping_table invalidation_queue_length set_storage].
    replace (truthy q) with true by (unfold truthy; lia). replace (truthy c) with true by (unfold truthy; lia).
    replace (truthy t) with true by (unfold truthy; lia). cbn [when]. unfold deallocate, set_vtd; cbn. rewrite V. cbn.
    replace (truthy q) with true by (unfold truthy; lia). by intros [= _ <-]. }
  set (s1 := MkIommu _ _ _ _ _).
  assert (Base role s1) as B1.
  { pose proof B3 as [C1' C2' C3' C4' C5' C6']. constructor; unfold s1; cbn [vtd domains memory pool]; rewrite ?D, ?P; cbn [online domains pool]; rewrite <- ?D3; try done.
    - split; [by intros [] |by intros a [[] _]].
    - rewrite V3 in C3'. intros Hnz. destruct (C3' Hnz) as [R1 R2]. split; [done|]. intros bus Hb. rewrite W.
      + cbn [online memory]. rewrite <- M3. by apply R2.
      + intros [_ Hno]%role3_block. erewrite role_page in Hno; [|exact B3|exact R1|lia]. cbn [root_table set_interrupts set_storage] in Hno. congruence.
    - rewrite V3 in C4'. done. }
  assert (forall p n, free_block role s3 p n -> free_block role s1 p n) as Hfb.
  { intros p n (G1 & G2 & G3 & G4 & G5). split_and!; try done. unfold s1; cbn [pool]. rewrite P. done. }
  destruct (deallocate_block role s1 q len L1 L2 B1 (Hfb _ _ Fq)) as [B2 K2].
  destruct (deallocate_block role _ c PAGE_SIZE ltac:(done) ltac:(done) B2) as [B4 K4].
  { apply K2; [done|by apply Hfb|unfold off, PAGE_SIZE in *; lia]. }
  destruct (deallocate_block role _ t PAGE_SIZE ltac:(done) ltac:(done) B4) as [B5 _].
  { apply K4; [done| |unfold off, PAGE_SIZE in *; lia]. apply K2; [done|by apply Hfb|unfold off, PAGE_SIZE in *; lia]. }
  split_and!; [exact B5|done|done|cbn; by rewrite D|]. intros a Ha. cbn [deallocate snd memory]. rewrite W; [done|].
  intros [_ Hno]%role3_block. rewrite Hno in Ha. by destruct Ha.
Qed.

(** What the activation of interrupt remapping leaves behind, whether it succeeds or not. *)
Definition remap_post (r : bool) (s' : State) : Prop := exists role', Remap_ok role' s' /\
  (forall p x, role !! p = Some x -> role' !! p = Some x) /\ core_eq v (vtd s') /\ domains s' = domains s0 /\
  interrupt_remapping_enabled (vtd s') = r /\
  forall a, is_Some (role !! page_of a) -> word (memory s') a = word (memory s0) a.

(** From [sz], where the blocks are cleared and recorded. *)
Context {sz : State} (Oz : only in_blocks online sz) (Zt : forall j, 0 <= j < 512 -> word (memory sz) (t + 8 * j) = 0).
Context (Hen : interrupt_remapping_enabled v = false) (Hfl : length (interrupt_remapping_allocated v) = VtdInterruptRemappingTableCapacity).

Definition ends (m : State -> bool * State) : Prop :=
  forall s r s', only (queue_memory v5) sz s -> m s = (r, s') -> remap_post r s'.

Lemma online_queue s : only (queue_memory v5) sz s -> only in_blocks online s.
Proof.
  intros O. etransitivity; [exact Oz|]. apply (only_mono (queue_memory v5)); [|done].
  intros a (_ & _ & Ha). cbn in Ha. unfold in_blocks. destruct Fc as (C1 & _). lia.
Qed.

Lemma online_word s a : only in_blocks online s -> is_Some (role !! page_of a) -> word (memory s) a = word (memory s0) a.
Proof. intros (_ & _ & _ & W) Ha. rewrite W; [done|]. intros [_ Hno]%role3_block. rewrite Hno in Ha. by destruct Ha. Qed.

Lemma ends_bind {A} (m : State -> A * State) k : keeps v5 (queue_memory v5) m -> (forall a, ends (k a)) -> ends (bind m k).
Proof.
  intros Hm Hk s r s' O. unfold bind. destruct (m s) as [a s1] eqn:E. intros E1. eapply Hk; [|exact E1].
  etransitivity; [exact O|]. replace s1 with (m s).2 by by rewrite E. apply Hm. destruct O as (-> & _). by destruct Oz as (-> & _).
Qed.

Lemma ends_if (cond : bool) m1 m2 : ends m1 -> ends m2 -> ends (if cond then m1 else m2).
Proof. by destruct cond. Qed.

Lemma ends_rollback b : ends (rollback b).
Proof.
  apply ends_bind; [apply keeps_disable|].
  intros off s r s' O%online_queue. unfold bind. destruct off; cbn [when].
  - destruct (ReleaseInterruptRemappingStorage s) as [u s1] eqn:E. intros [= <- <-].
    destruct (online_release s s1 u O E) as (B & C & I & D & W). exists role. split; [|done]. split; [done|congruence| |congruence].
    by eapply release_flags.
  - intros [= <- <-]. pose proof O as (V & D & _). exists role3. split; [|split_and!].
    + split; [by apply online_keep| | |]; unfold flags; rewrite V; cbn; [congruence|done|congruence].
    + apply role3_in.
    + by rewrite V.
    + by rewrite D.
    + by rewrite V.
    + intros a. by apply online_word.
Qed.

Lemma ends_enable : ends (do! set_vtd (fun w => set_interrupts true false (interrupt_remapping_allocated w) w) in ret true).
Proof.
  intros s r s' Oq. pose proof (online_queue s Oq) as O. pose proof O as (V & D & _). destruct Oq as (_ & _ & _ & W).
  intros [= <- <-]. exists role3. split; [|split_and!; cbn [vtd domains memory]].
  - split; cbn.
    + destruct (online_keep s O) as [C1' C2' C3' C4' C5' C6']. rewrite V in *. by constructor.
    + intros _. rewrite V. apply role3_table.
    + unfold flags; cbn. by rewrite V.
    + intros _ i Hi. unfold flags in Hi; cbn in Hi. rewrite V in Hi. cbn in Hi. apply lookup_lt_Some in Hi. rewrite Hfl in Hi.
      change VtdInterruptRemappingTableCapacity with 256%nat in Hi. destruct storage_len as [L1 L2]. pose proof Fc as (C1 & C2 & _).
      assert (forall o, 0 <= o < 4096 -> ~ queue_memory v5 (t + o)) as Hoff.
      { intros o Ho (_ & _ & Hin). cbn in Hin. unfold off in *. lia. }
      unfold entry; cbn. rewrite V; cbn. f_equal; [|rewrite <- Z.add_assoc]; rewrite W by (apply Hoff; lia).
      * replace (16 * Z.of_nat i) with (8 * (2 * Z.of_nat i)) by lia. apply Zt; lia.
      * replace (16 * Z.of_nat i + 8) with (8 * (2 * Z.of_nat i + 1)) by lia. apply Zt; lia.
  - apply role3_in.
  - by rewrite V.
  - by rewrite D.
  - done.
  - intros a. by apply online_word.
Qed.

End Storage.

(** Nothing happened but in the pool. *)
Lemma remap_post_quiet role (s s' : State) : Base role s' -> vtd s' = vtd s -> domains s' = domains s -> memory s' = memory s ->
  interrupt_remapping_enabled (vtd s) = false -> length (flags s) = VtdInterruptRemappingTableCapacity ->
  remap_post (role:=role) (s0:=s) false s'.
Proof.
  intros B V D M Hen Hfl. exists role. split; [|split_and!; try done].
  - split; unfold flags; rewrite ?V; [done|congruence|done|congruence].
  - by rewrite V.
  - by rewrite V.
  - by rewrite M.
Qed.

(** A block that was perhaps not allocated goes back. *)
Lemma give_back role (s : State) p size : 0 < size -> size mod 4096 = 0 -> Base role s -> (p <> 0 -> free_block role s p size) ->
  let s' := (when (truthy p) (deallocate p size) s).2 in
  Base role s' /\ vtd s' = vtd s /\ domains s' = domains s /\ memory s' = memory s /\
  forall q n, 0 < n -> free_block role s q n -> (p <> 0 -> off q n p size) -> free_block role s' q n.
Proof.
  intros H0 Hs B Hf s'. unfold s', truthy. destruct (p =? 0) eqn:E; cbn [negb when]; [by split_and!|].
  destruct (deallocate_block role s p size H0 Hs B (Hf ltac:(lia))) as [B' K]. split_and!; try done.
  intros q n Hn Hq Ho. apply K; [done|done|apply Ho; lia].
Qed.

(** The three allocations, each of which may have failed. *)
Record Blocks (role : gmap Z Role) (s s4 : State) (q len c t : Z) : Prop := {
  bk_base : Base role s4;
  bk_same : vtd s4 = vtd s /\ domains s4 = domains s /\ memory s4 = memory s;
  bk_queue : q <> 0 -> free_block role s4 q len;
  bk_completion : c <> 0 -> free_block role s4 c PAGE_SIZE;
  bk_table : t <> 0 -> free_block role s4 t PAGE_SIZE;
  bk_off : (q <> 0 -> c <> 0 -> off q len c PAGE_SIZE) /\ (q <> 0 -> t <> 0 -> off q len t PAGE_SIZE) /\
    (c <> 0 -> t <> 0 -> off c PAGE_SIZE t PAGE_SIZE);
}.

Lemma allocate_blocks role (s s2 s3 s4 : State) q len c t : 0 < len -> len mod 4096 = 0 -> Base role s ->
  allocate len s = (q, s2) -> allocate PAGE_SIZE s2 = (c, s3) -> allocate PAGE_SIZE s3 = (t, s4) -> Blocks role s s4 q len c t.
Proof.
  intros L1 L2 B1 Eq Ec Et. assert (0 < PAGE_SIZE /\ PAGE_SIZE mod 4096 = 0) as [P1 P2] by done.
  destruct (allocate_block role s s2 len q L1 L2 B1 Eq) as (B2 & V2 & D2 & M2 & F2 & _).
  destruct (allocate_block role s2 s3 PAGE_SIZE c P1 P2 B2 Ec) as (B3 & V3 & D3 & M3 & F3 & K3).
  destruct (allocate_block role s3 s4 PAGE_SIZE t P1 P2 B3 Et) as (B4 & V4 & D4 & M4 & F4 & K4).
  split; [done|split_and!; congruence| | |done|split_and!].
  - intros Hq. by apply K4, K3, F2.
  - intros Hc. by apply K4, F3.
  - intros Hq Hc. apply K3; auto.
  - intros Hq Ht. apply K4; [done|done|apply K3; auto|done].
  - intros Hc Ht. apply K4; auto.
Qed.

Lemma return_blocks role (s s4 s' : State) q len c t r : 0 < len -> len mod 4096 = 0 -> Blocks role s s4 q len c t ->
  interrupt_remapping_enabled (vtd s) = false -> length (flags s) = VtdInterruptRemappingTableCapacity ->
  (do! when (truthy q) (deallocate q len) in do! when (truthy c) (deallocate c PAGE_SIZE) in
   do! when (truthy t) (deallocate t PAGE_SIZE) in ret false) s4 = (r, s') -> remap_post (role:=role) (s0:=s) r s'.
Proof.
  intros L1 L2 [B (V & D & M) Fq Fc Ft (O1 & O2 & O3)] Hen Hfl. assert (0 < PAGE_SIZE /\ PAGE_SIZE mod 4096 = 0) as [P1 P2] by done.
  destruct (give_back role s4 q len L1 L2 B Fq) as (B5 & V5 & D5 & M5 & K5). unfold bind.
  destruct (when _ _ s4) as [u5 s5]. cbn [snd] in *.
  destruct (give_back role s5 c PAGE_SIZE P1 P2 B5) as (B6 & V6 & D6 & M6 & K6).
  { intros Hc. apply K5; [done|auto|]. intros Hq. specialize (O1 Hq Hc). unfold off in *. lia. }
  destruct (when _ _ s5) as [u6 s6]. cbn [snd] in *.
  destruct (give_back role s6 t PAGE_SIZE P1 P2 B6) as (B7 & V7 & D7 & M7 & _).
  { intros Ht. apply K6; [done|apply K5; [done|auto|]|].
    - intros Hq. specialize (O2 Hq Ht). unfold off in *. lia.
    - intros Hc. specialize (O3 Hc Ht). unfold off in *. lia. }
  destruct (when _ _ s6) as [u7 s7]. cbn [snd] in *. intros [= <- <-].
  apply remap_post_quiet; congruence.
Qed.

(** Clearing and recording the blocks changes nothing else. *)
Lemma clear_blocks (s s4 s5 s6 s7 : State) q len shift c t u5 u6 u7 : vtd s4 = vtd s -> domains s4 = domains s -> memory s4 = memory s ->
  0 < len -> len mod 4096 = 0 -> MemSet q (Z.to_nat (len / 8)) s4 = (u5, s5) -> MemSet c 512 s5 = (u6, s6) -> MemSet t 512 s6 = (u7, s7) ->
  let sz := (set_vtd (set_storage q c len shift t) s7).2 in
  only (in_blocks (q:=q) (c:=c) (t:=t) (len:=len)) (online (s0:=s) (s3:=s4) (q:=q) (c:=c) (t:=t) (len:=len) (shift:=shift)) sz /\
  forall j, 0 <= j < 512 -> word (memory sz) (t + 8 * j) = 0.
Proof.
  intros V D M L1 L2 E5 E6 E7 sz. pose proof (MemSet_words (Z.to_nat (len / 8)) q s4) as (V5 & D5 & P5 & _ & W5).
  pose proof (MemSet_words 512 c s5) as (V6 & D6 & P6 & _ & W6). pose proof (MemSet_words 512 t s6) as (V7 & D7 & P7 & Z7 & W7).
  rewrite E5 in *. rewrite E6 in *. rewrite E7 in *. cbn [snd] in *. split; [|by intros j Hj; apply Z7].
  split_and!; unfold sz, online; cbn; [congruence..|]. intros a Ha. unfold in_blocks in Ha.
  rewrite W7, W6, W5, M by lia. done.
Qed.

Lemma EnableVtdInterruptRemapping_spec role (s s' : State) r : Base role s -> interrupt_remapping_enabled (vtd s) = false ->
  length (flags s) = VtdInterruptRemappingTableCapacity -> EnableVtdInterruptRemapping s = (r, s') ->
  remap_post (role:=role) (s0:=s) r s'.
Proof.
  intros B Hen Hfl. unfold EnableVtdInterruptRemapping, bind at 1, get_vtd. rewrite Hen.
  destruct (_ || _) eqn:E1; [intros [= <- <-]; by apply remap_post_quiet|].
  destruct (truthy (invalidation_queue _) || _) eqn:E2; [intros [= <- <-]; by apply remap_post_quiet|].
  destruct (_ || negb (Z.testbit (extended_capability (vtd s)) 0)) eqn:E3; [intros [= <- <-]; by apply remap_post_quiet|].
  set (scalable := Z.testbit _ 43). set (shift := if scalable then 5 else 4). set (len := Z.shiftl VtdInvalidationQueueLength shift).
  assert ((shift = 4 \/ shift = 5) /\ 0 < len /\ len mod 4096 = 0) as (Hsh & L1 & L2).
  { unfold len, shift. destruct scalable; split_and!; try done; auto. }
  unfold bind at 1, ReadRegister32 at 1. destruct (hw_read _ _ _) as [status h].
  set (s1 := MkIommu _ _ _ _ _). assert (Base role s1) as B1 by by destruct B; constructor.
  unfold bind at 1. destruct (allocate len s1) as [q s2] eqn:Eq. unfold bind at 1. destruct (allocate PAGE_SIZE s2) as [c s3] eqn:Ec.
  unfold bind at 1. destruct (allocate PAGE_SIZE s3) as [t s4] eqn:Et.
  pose proof (allocate_blocks role s1 s2 s3 s4 q len c t L1 L2 B1 Eq Ec Et) as BK.
  match goal with |- (if ?cond then _ else _) _ = _ -> _ => destruct cond eqn:Efit end.
  { intros E. exact (return_blocks role s1 s4 s' q len c t r L1 L2 BK Hen Hfl E). }
  destruct BK as [B4 (V & D & M) Fq Fc Ft (O1 & O2 & O3)].
  assert (q <> 0 /\ c <> 0 /\ t <> 0) as (Hq & Hc & Ht) by (clear -Efit; lia).
  specialize (Fq Hq). specialize (Fc Hc). specialize (Ft Ht). specialize (O1 Hq Hc). specialize (O2 Hq Ht). specialize (O3 Hc Ht).
  unfold PAGE_SIZE in Fc, Ft, O1, O2, O3.
  unfold bind at 1. destruct (MemSet q _ s4) as [u5 s5] eqn:E5. unfold bind at 1. destruct (MemSet c 512 s5) as [u6 s6] eqn:E6.
  unfold bind at 1. destruct (MemSet t 512 s6) as [u7 s7] eqn:E7. unfold bind at 1, set_vtd at 1. set (sz := MkIommu _ _ _ _ _).
  destruct (clear_blocks s1 s4 s5 s6 s7 q len shift c t u5 u6 u7 V D M L1 L2 E5 E6 E7) as [Oz Zt].
  assert (invalidation_queue (vtd s) = 0) as Hq0 by (clear -E2; unfold truthy in E2; lia). clear E5 E6 E7 Eq Ec Et B.
  match goal with |- ?m sz = _ -> _ => enough (ends (role:=role) (s0:=s1) (sz:=sz) (q:=q) (c:=c) (t:=t) (len:=len) (shift:=shift) m) as He
    by (intros E; exact (He sz r s' ltac:(reflexivity) E)) end.
  assert (queue_ok (set_storage q c len shift t (vtd s1))) as Q.
  { intros _ _. destruct Fq as (? & ? & _). by split_and!. }
  assert (forall b, ends (role:=role) (s0:=s1) (sz:=sz) (q:=q) (c:=c) (t:=t) (len:=len) (shift:=shift) (rollback b)) as Hroll.
  { intros b. by eapply (ends_rollback B4 V D M Hsh eq_refl Fq Fc Ft O1 O2 O3 Oz). }
  assert (ends (role:=role) (s0:=s1) (sz:=sz) (q:=q) (c:=c) (t:=t) (len:=len) (shift:=shift)
    (do! set_vtd (fun w => set_interrupts true false (interrupt_remapping_allocated w) w) in ret true)) as Hon.
  { by eapply (ends_enable B4 V D M Hsh eq_refl Fq Fc Ft O1 O2 O3 Oz Zt). }
  repeat first [apply ends_if | apply Hroll | apply Hon | apply (ends_bind Oz); [|intros ?]].
  all: try first [apply keeps_write | apply keeps_write64 | apply keeps_feature | apply keeps_read].
  keeps; [apply keeps_wait|by apply keeps_submit_interrupt].
Qed.

(** ** The whole activation *)

(** The driver before the activation. *)
Record Idle (s : State) : Prop := {
  id_domains : domains s = replicate IovaDomainCapacity no_domain;
  id_root : root_table (vtd s) = 0 /\ passthrough_enabled (vtd s) = false;
  id_queue : invalidation_queue (vtd s) = 0;
  id_interrupts : interrupt_remapping_enabled (vtd s) = false /\ length (flags s) = VtdInterruptRemappingTableCapacity;
}.

Lemma Building_start (s s1 s2 : State) rt u : allocate PAGE_SIZE s = (rt, s1) -> rt <> 0 -> MemSet rt 512 s1 = (u, s2) ->
  vtd s2 = vtd s /\ domains s2 = domains s /\ Building (mp_owned (pool s)) {[rt := RootTable]} rt s2.
Proof.
  unfold allocate. destruct (mp_allocate (pool s) PAGE_SIZE 12 0) as [p m] eqn:E. intros [= -> <-] Hnz Em.
  destruct (mp_allocate_block _ PAGE_SIZE _ _ ltac:(done) ltac:(done) E Hnz) as (A1 & A2 & A3 & A4 & A5).
  pose proof (MemSet_words 512 rt (MkIommu (vtd s) (domains s) (memory s) m (hw s))) as (V & D & P & Z0 & _). rewrite Em in *. cbn [snd] in *.
  split; [done|]. split; [done|]. unfold PAGE_SIZE in *.
  assert (forall bus, 0 <= bus < 256 -> root_entry rt s2 bus = 0) as Hz.
  { intros bus Hb. unfold root_entry. replace (16 * bus) with (8 * (2 * bus)) by lia. apply Z0. lia. }
  constructor.
  - intros p r [<- <-]%lookup_singleton_Some. by split_and!.
  - intros p r q [<- <-]%lookup_singleton_Some. apply A4.
  - intros q. rewrite P; cbn [pool]. rewrite A5. apply or_iff_compat_l. split.
    + intros Hq. exists rt, RootTable. split; [by apply lookup_singleton_Some|done].
    + by intros (p & r & [<- <-]%lookup_singleton_Some & Hq).
  - by apply lookup_singleton_Some.
  - intros p r [<- <-]%lookup_singleton_Some. by left.
  - intros bus Hb. left. by apply Hz.
  - intros bus bus' t Hb _ Ht. rewrite Hz by done. intros E0. by destruct (present_not_zero t Ht).
Qed.

Lemma Building_some O role rt (s : State) p r o : Building O role rt s -> role !! p = Some r -> 0 <= o < 4096 ->
  is_Some (role !! page_of (p + o)).
Proof. intros B Hp Ho. rewrite (Building_cell _ _ _ _ p r o B Hp Ho). by eexists. Qed.

Lemma Building_frame O role rt (s s' : State) : Building O role rt s -> pool s' = pool s ->
  (forall a, is_Some (role !! page_of a) -> word (memory s') a = word (memory s) a) -> Building O role rt s'.
Proof.
  intros B P W. pose proof B as [B1 B2 B3 B4 B5 B6 B7].
  assert (forall bus, 0 <= bus < 256 -> root_entry rt s' bus = root_entry rt s bus) as Hre.
  { intros bus Hb. unfold root_entry. apply W. by eapply Building_some; [done|done|lia]. }
  assert (forall t q, role !! t = Some ContextTable -> 0 <= q < 256 -> context s' t q = context s t q) as Hc.
  { intros t q Ht Hq. unfold context. rewrite <- Z.add_assoc. f_equal; apply W; (eapply Building_some; [done|done|lia]). }
  constructor; rewrite ?P; try done.
  - intros p r Hp. destruct (B5 p r Hp) as [?|(-> & bus & Hb & He)]; [by left|right]. split; [done|]. exists bus. by rewrite Hre.
  - intros bus Hb. rewrite Hre by done. destruct (B6 bus Hb) as [?|(t & Ht & He & Hq)]; [by left|right]. exists t.
    split_and!; [done..|]. intros q Hq'. rewrite Hc by done. by apply Hq.
  - intros bus bus' t Hb Hb'. rewrite !Hre by done. by apply B7.
Qed.

Lemma passes_frame O role rt (s s' : State) d : Building O role rt s -> req_ok d ->
  (forall a, is_Some (role !! page_of a) -> word (memory s') a = word (memory s) a) -> passes rt s d -> passes rt s' d.
Proof.
  intros B Hd W (t & Ht & He & Hc). destruct (req_range d Hd) as [Hb Hq]. exists t. split; [done|].
  assert (role !! t = Some ContextTable) as Hrt.
  { destruct (bd_entries _ _ _ _ B _ Hb) as [E|(u & Hu & Hue & _)]; [by destruct (present_not_zero t Ht); rewrite <- He|].
    rewrite He in Hue. apply root_entry_inj in Hue as ->; [done|done|by eapply B]. }
  rewrite <- He, <- Hc. unfold root_entry, context. split; [|rewrite <- Z.add_assoc; f_equal]; apply W; eapply Building_some; try done; try lia.
  apply B.
Qed.

(** The finished tables, once the driver has recorded them. *)
Lemma Building_Base O role rt (s : State) : Building O role rt s -> domains s = replicate IovaDomainCapacity no_domain ->
  root_table (vtd s) = rt -> invalidation_queue (vtd s) = 0 -> Base role s.
Proof.
  intros [B1 B2 B3 B4 B5 B6 B7] D R Q. constructor.
  - intros p r Hp. split; [by eapply B1|]. intros q Hq. apply B3. eauto.
  - split; [by intros Hn|by intros a [Hn _]].
  - intros _. rewrite R. split; [done|]. intros bus Hb t. unfold t. fold (root_entry rt s bus).
    destruct (B6 bus Hb) as [-> |(u & Hu & -> & _)]; [by left|right]. by rewrite (proj2 (root_entry_table u (B1 _ _ Hu))).
  - intros _. rewrite R. destruct (B1 _ _ B4). lia.
  - by rewrite D, length_replicate.
  - intros d x. rewrite D. intros [-> _]%lookup_replicate. cbn [tables table_count mappings no_domain live_tables].
    rewrite !length_replicate. split_and!; [done|lia|apply NoDup_nil_2| |done]. intros p. split; [by intros ?%elem_of_nil|].
    intros Hp. destruct (B5 _ _ Hp) as [[_ ?]|[? _]]; done.
Qed.

Lemma Iommu_ok_idle role (s : State) : Base role s -> domains s = replicate IovaDomainCapacity no_domain -> Iommu_ok role s.
Proof.
  intros B D. split.
  - split; [done|]. intros d x. rewrite D. by intros [-> _]%lookup_replicate.
  - intros d x. rewrite D. intros [-> _]%lookup_replicate. cbn [mappings dom_active no_domain]. split; [|done].
    apply ranges_ok_empty.
Qed.

(** The tables translate as they should: every PCI function of the tree has a context of its own
    that passes through. *)
Definition covered (pci_root : DeviceNode) (rt : Z) (s : State) : Prop :=
  functions pci_root <> [] /\ NoDup (bdf <$> functions pci_root) /\
  forall e, e ∈ functions pci_root -> pci_segment e = segment (vtd s) /\ passes rt s e.

Definition enable_post (pci_root : DeviceNode) (s s' : State) (ok : bool) : Prop :=
  if negb (probe_complete (vtd s)) then ok = true /\ s' = s
  else if ok then
    passthrough_enabled (vtd s') = true /\ covered pci_root (root_table (vtd s')) s' /\
    device_count (vtd s') = Z.of_nat (length (functions pci_root)) /\
    exists role, Iommu_ok role s' /\ Remap_ok role s'
  else domains s' = domains s /\
    ((vtd s' = vtd s /\ forall q, mp_owned (pool s') q <-> mp_owned (pool s) q) \/
     (exists rt, rt <> 0 /\ vtd s' = set_root rt (vtd s) /\ covered pci_root rt s')).

(** Handing the tables to the unit. *)
Lemma keeps_activate v R base rt : invalidation_queue v = 0 -> keeps v R (activate_translation (Pl:=Pl) (HW:=HW) base rt).
Proof.
  intros Hq. assert (queue_ok v) as Q by by intros Hn.
  assert (keeps v R (InvalidateVtdCaches (Pl:=Pl) (HW:=HW))) as Hi.
  { eapply keeps_mono; [|by apply keeps_invalidate]. by intros a [Hn _]. }
  unfold activate_translation. keeps; first [apply keeps_write64 | apply keeps_wait | apply keeps_read64 | done].
Qed.

(** The last steps, with the tables in use. *)
Lemma enable_finish pci_root O role (s s3 s' : State) rt contexts r : Building O role rt s3 -> covered pci_root rt s3 ->
  (forall e, e ∈ functions pci_root -> req_ok e) ->
  domains s3 = replicate IovaDomainCapacity no_domain -> vtd s3 = set_passthrough contexts (Z.of_nat (length (functions pci_root))) (set_root rt (vtd s)) ->
  invalidation_queue (vtd s) = 0 -> interrupt_remapping_enabled (vtd s) = false ->
  length (flags s) = VtdInterruptRemappingTableCapacity -> EnableVtdInterruptRemapping s3 = (r, s') ->
  passthrough_enabled (vtd s') = true /\ covered pci_root (root_table (vtd s')) s' /\
  device_count (vtd s') = Z.of_nat (length (functions pci_root)) /\ exists role, Iommu_ok role s' /\ Remap_ok role s'.
Proof.
  intros B (C1 & C2 & C3) Hreq D V Hq Hen Hfl E.
  assert (Base role s3) as B3 by (eapply Building_Base; [done|done|by rewrite V|by rewrite V]).
  destruct (EnableVtdInterruptRemapping_spec role s3 s' r B3) as (role' & R & _ & C & D' & _ & W); [by rewrite V|unfold flags; by rewrite V|done|].
  destruct (core_eq_fields _ _ C) as (F1 & F2 & F3 & F4 & F5 & F6 & F7). rewrite V in F1, F2, F6. split_and!; [done| |done|].
  - split_and!; [done|done|]. intros e He. destruct (C3 e He) as [S1 S2]. split; [congruence|]. rewrite F2.
    by eapply passes_frame; [| apply Hreq | |].
  - exists role'. split; [|done]. apply Iommu_ok_idle; [apply R|congruence].
Qed.

(** A failure that leaves no trace. *)
Definition quiet (s s' : State) : Prop :=
  domains s' = domains s /\ vtd s' = vtd s /\ forall q, mp_owned (pool s') q <-> mp_owned (pool s) q.

Lemma quiet_none (s s1 : State) : allocate PAGE_SIZE s = (0, s1) -> quiet s s1.
Proof.
  unfold allocate. destruct (mp_allocate (pool s) PAGE_SIZE 12 0) as [p m] eqn:E. intros [= -> <-].
  split_and!; [done|done|]. by eapply mp_allocate_none.
Qed.

Lemma quiet_return (s s1 : State) rt : allocate PAGE_SIZE s = (rt, s1) -> rt <> 0 -> quiet s (deallocate rt PAGE_SIZE s1).2.
Proof.
  unfold allocate. destruct (mp_allocate (pool s) PAGE_SIZE 12 0) as [p m] eqn:E. intros [= -> <-] Hnz.
  destruct (mp_allocate_block _ PAGE_SIZE _ _ ltac:(done) ltac:(done) E Hnz) as (A1 & A2 & A3 & A4 & A5).
  split_and!; [done|done|]. intros q. cbn [deallocate snd pool]. rewrite mp_deallocate_block; [|done|done|done|intros; apply A5; by right].
  rewrite A5. split; [tauto|]. intros Hq. split; [by left|]. intros Hin. by apply (A4 q).
Qed.

(** The tables as the traversal leaves them. *)
Lemma Populated_covered O pci_root rt (s s' : State) counts contexts devices : tree_ok pci_root -> (exists role, Building O role rt s) -> counts.2 = 0 ->
  PopulatePassthroughContexts rt pci_root counts s = ((true, (contexts, devices)), s') -> devices <> 0 ->
  devices = Z.of_nat (length (functions pci_root)) /\ covered pci_root rt s' /\ forall e, e ∈ functions pci_root -> req_ok e.
Proof.
  intros Htree [role B] Hc0 E Hd. destruct (PopulatePassthroughContexts_spec pci_root Htree O role rt s s' counts _ _ B E) as [[[V D] _ _ Pn Pd] Hc].
  specialize (Hc eq_refl). cbn [snd] in Hc. rewrite Hc0 in Hc. split; [lia|]. split; [split_and!|].
  - intros Hnil. rewrite Hnil in Hc. cbn in Hc. lia.
  - by apply Pd.
  - intros e He. destruct (Pn eq_refl e He) as (_ & S1 & _ & S2). rewrite V. done.
  - intros e He. by apply (Pn eq_refl e He).
Qed.

Lemma covered_frame O role pci_root rt (s s' : State) : Building O role rt s -> covered pci_root rt s ->
  (forall e, e ∈ functions pci_root -> req_ok e) -> segment (vtd s') = segment (vtd s) ->
  (forall a, word (memory s') a = word (memory s) a) -> covered pci_root rt s'.
Proof.
  intros B (C1 & C2 & C3) Hreq V W. split_and!; [done|done|]. intros e He. destruct (C3 e He) as [S1 S2]. rewrite V. split; [done|].
  eapply passes_frame; [done|by apply Hreq|by intros|done].
Qed.

(** The activation on every branch. *)
Lemma EnableVtdPassthrough_spec pci_root (s s' : State) ok : Idle s -> tree_ok pci_root ->
  EnableVtdPassthrough pci_root s = (ok, s') -> enable_post pci_root s s' ok.
Proof.
  intros [D0 [R0 P0] Q0 [I0 F0]] Htree. unfold EnableVtdPassthrough, bind at 1, get_vtd, enable_post.
  destruct (probe_complete (vtd s)) eqn:Epc; cbn [negb]; [|by intros [= <- <-]]. rewrite P0, R0. cbn [truthy Z.eqb negb].
  destruct (node_ptr pci_root =? 0); [intros [= <- <-]; by split; [|left]|].
  destruct (passthrough_supported (vtd s)); cbn [negb]; [|intros [= <- <-]; by split; [|left]].
  unfold bind at 1, ReadRegister32 at 1. destruct (hw_read _ _ _) as [status h1]. destruct (truthy _); [intros [= <- <-]; by split; [|left]|].
  unfold bind at 1, ReadRegister32 at 1. destruct (hw_read _ _ _) as [faults h2]. destruct (truthy _); [intros [= <- <-]; by split; [|left]|].
  cbn [vtd domains memory pool hw]. set (sa := MkIommu _ _ _ _ _).
  assert (forall s1 : State, quiet sa s1 -> domains s1 = domains s /\ ((vtd s1 = vtd s /\ forall q, mp_owned (pool s1) q <-> mp_owned (pool s) q) \/
      (exists rt, rt <> 0 /\ vtd s1 = set_root rt (vtd s) /\ covered pci_root rt s1))) as Hsame by (intros s1 (? & ? & ?); split; [done|by left]).
  unfold bind at 1. destruct (allocate PAGE_SIZE sa) as [rt s1] eqn:Ea. destruct (rt =? 0) eqn:Ert.
  { intros [= <- <-]. apply Hsame, quiet_none. by apply Z.eqb_eq in Ert as ->. }
  destruct (PhysicalRangeFits rt PAGE_SIZE _); cbn [negb].
  2: { intros [= <- <-]. apply Hsame, quiet_return; [done|lia]. }
  unfold bind at 1. destruct (MemSet rt 512 s1) as [u s2] eqn:Em.
  destruct (Building_start sa s1 s2 rt u Ea ltac:(lia) Em) as (V2 & D2 & B2).
  unfold bind at 1. destruct (PopulatePassthroughContexts rt pci_root (0, 0) s2) as [[populated [contexts devices]] s3] eqn:Ep.
  destruct (PopulatePassthroughContexts_spec pci_root Htree _ _ rt s2 s3 (0, 0) _ _ B2 Ep) as [[[V3 D3] [role3 B3] _ _ _] _].
  destruct (negb populated || (devices =? 0)) eqn:Epop.
  { unfold bind. destruct (ReleasePassthroughTables rt s3) as [w s4] eqn:Er. intros [= <- <-].
    destruct (ReleasePassthroughTables_spec _ _ rt s3 s4 w B3 Er) as (V4 & D4 & P4). apply Hsame. split_and!; [congruence|congruence|exact P4]. }
  destruct populated; [|done].
  destruct (Populated_covered _ pci_root rt s2 s3 (0, 0) contexts devices Htree (ex_intro _ _ B2) eq_refl Ep ltac:(clear -Epop; lia)) as (-> & Hcov & Hreq).
  assert (vtd s3 = vtd s /\ domains s3 = domains s) as [V D] by (change (vtd s) with (vtd sa); change (domains s) with (domains sa); split; congruence).
  unfold bind at 1. pose proof (keeps_activate (vtd s) (fun _ => False) (registers (vtd s)) rt Q0 s3 V) as (V4 & D4 & P4 & W4).
  destruct (activate_translation _ rt s3) as [activated s4] eqn:Et. cbn [snd] in *. clear Et Ep Em Ea Epop.
  assert (forall a, word (memory s4) a = word (memory s3) a) as W by (intros a; apply W4; intros []). clear W4.
  unfold bind at 1, set_vtd at 1. destruct activated; cbn [negb].
  2: { intros [= <- <-]. split; [cbn; congruence|right]. exists rt. split_and!; [lia|cbn; congruence|].
       eapply covered_frame; [done|done|done|by cbn; rewrite V4, V|done]. }
  unfold bind at 1, set_vtd at 1. unfold bind at 1, ReadRegister32 at 1. destruct (hw_read _ _ _) as [x5 h5].
  unfold bind at 1, ReadRegister32 at 1. destruct (hw_read _ _ _) as [x6 h6]. cbn [vtd domains memory pool hw].
  set (s6 := MkIommu _ _ _ _ _). unfold bind. destruct (EnableVtdInterruptRemapping s6) as [r s7] eqn:Er. intros [= <- <-].
  eapply (enable_finish pci_root _ role3 s s6 s7 rt contexts r); try done.
  - by eapply Building_frame.
  - eapply covered_frame; [done|done|done|by cbn; rewrite V4, V|done].
  - unfold s6; cbn. by rewrite D4, D.
  - cbn. by rewrite V4, V.
Qed.

(** C31: Activation of translation.  From an idle driver, a successful activation has given every PCI
    function of the tree a context entry of its own that passes through, counts them right, and
    establishes the invariants under which the mapping and interrupt operations are correct.  A
    failure before the tables are handed to the unit returns every page and changes no state; a
    later failure keeps the finished tables, because the unit may be using them. *)
Theorem EnableVtdPassthrough_correct pci_root (s s' : State) ok : Idle s -> tree_ok pci_root ->
  EnableVtdPassthrough pci_root s = (ok, s') -> enable_post pci_root s s' ok.
Proof. apply EnableVtdPassthrough_spec. Qed.

End Start.
