(* ===== verification/VtdWitness.v ===== *)
(** * A running remapping unit

    A concrete instance of the hardware and of the physical memory pool, a machine with one PCI
    function, and the theorems on the remapping code applied to its history: activation, mapping,
    unmapping, interrupt allocation and release. *)
From S2P Require Import Prelude Interfaces PagePool Vtd Iova IovaRange VtdProof IovaTree IovaProof IovaMap IovaClaims VtdClaims VtdEnable VtdStart.

Module VtdWitness.

(** A unit that obeys: commands take effect at once, invalidations complete, the queue is drained. *)
#[local] Instance ObedientUnit : VtdUnit (gmap Z Z) := {
  hw_read h _ o := (default 0 (h !! o), h);
  hw_write h _ o v :=
    if o =? VtdGlobalCommandRegister then <[VtdGlobalStatusRegister := v]> h
    else if (o =? VtdContextCommandRegister + 4) || (o =? 0x10C) then <[o := v mod 2 ^ 31]> h
    else if o =? VtdInvalidationQueueTailRegister then <[VtdInvalidationQueueHeadRegister := v]> (<[o := v]> h)
    else <[o := v]> h;
  hw_poll h _ _ := (VtdInvalidationStatusComplete, h);
}.

Definition nic : DeviceNode := Node 0x9000 (MkDevExt PciDevice 0 2 3 0) [].
Definition pci_root : DeviceNode := Node 0x8000 (MkDevExt 1 0 0 0 0) [nic].

(** The unit that the probe found: queued invalidation, interrupt remapping, passthrough and
    48-bit tables, with the register for IOTLB commands at 0x100. *)
Definition probed : VtdState :=
  MkVtd true false false false true 1 46 0 1 0xFED90000 (bit64 10) (Z.lor 0x104B 0) 0 0 0 0 0 0 no_interrupts 0 0.
Definition boot : Iommu (list Z) (gmap Z Z) :=
  MkIommu probed (replicate IovaDomainCapacity no_domain) ∅ [1; 2; 3] ∅.

Definition run {A B S} (m : S -> A * B) (s : S) : m s = ((m s).1, (m s).2) := surjective_pairing (m s).

Definition on : Iommu (list Z) (gmap Z Z) := (EnableVtdPassthrough pci_root boot).2.

Lemma boot_idle : Idle boot.
Proof. split; [reflexivity|split; reflexivity|reflexivity|split; reflexivity]. Qed.

Lemma tree_is_ok : tree_ok pci_root.
Proof. cbn. unfold ext_ok; cbn. lia. Qed.

Lemma enabled : EnableVtdPassthrough pci_root boot = (true, on).
Proof.
  unfold on. rewrite (run (EnableVtdPassthrough pci_root) boot) at 1.
  assert ((EnableVtdPassthrough pci_root boot).1 = true) as -> by (vm_compute; reflexivity). reflexivity.
Qed.

Lemma on_ok : exists role, Iommu_ok role on /\ Remap_ok role on.
Proof. apply (EnableVtdPassthrough_spec pci_root boot on true boot_idle tree_is_ok enabled). Qed.

Lemma enable_witness : enable_post pci_root boot on true /\ interrupt_remapping_enabled (vtd on) = true.
Proof.
  split; [|vm_compute; reflexivity].
  apply (EnableVtdPassthrough_correct pci_root boot on true boot_idle tree_is_ok). exact enabled.
Defined.

(** A buffer of two pages for the network card, and its release. *)
Definition mapped : Iommu (list Z) (gmap Z Z) := (MapDeviceDma nic 0x7654000 0x2000 0 on).2.
Definition unmapped : Iommu (list Z) (gmap Z Z) := (UnmapDeviceDma nic IovaStartAddress 0x2000 mapped).2.

Lemma map_runs : MapDeviceDma nic 0x7654000 0x2000 0 on = ((true, MkDmaMapping IovaStartAddress true), mapped).
Proof.
  unfold mapped. rewrite (run (MapDeviceDma nic 0x7654000 0x2000 0) on) at 1.
  assert ((MapDeviceDma nic 0x7654000 0x2000 0 on).1 = (true, MkDmaMapping IovaStartAddress true)) as -> by (vm_compute; reflexivity).
  reflexivity.
Qed.

Lemma unmap_runs : UnmapDeviceDma nic IovaStartAddress 0x2000 mapped = (true, unmapped).
Proof.
  unfold unmapped. rewrite (run (UnmapDeviceDma nic IovaStartAddress 0x2000) mapped) at 1.
  assert ((UnmapDeviceDma nic IovaStartAddress 0x2000 mapped).1 = true) as -> by (vm_compute; reflexivity). reflexivity.
Qed.

Lemma nic_ok : dev_ok nic.
Proof. unfold dev_ok; cbn. lia. Qed.


Lemma mapped_ok : exists role, Iommu_ok role mapped.
Proof.
  destruct on_ok as (role & OK & _).
  apply (MapDeviceDma_spec role on mapped nic 0x7654000 0x2000 0 true (MkDmaMapping IovaStartAddress true) OK nic_ok); [unfold is_u64; lia..|exact map_runs].
Qed.

Lemma unmap_witness : unmap_post mapped unmapped nic IovaStartAddress 0x2000 true.
Proof.
  destruct mapped_ok as (role & OK).
  apply (UnmapDeviceDma_correct role mapped unmapped nic IovaStartAddress 0x2000 true OK); [unfold is_u64, IovaStartAddress; lia|unfold is_u64; lia|exact unmap_runs].
Defined.

Lemma first_fit_witness : chosen no_domain 0x2000 0 IovaStartAddress 0.
Proof.
  apply (AllocateIovaRange_first_fit no_domain 0x2000 0); [apply ranges_ok_empty|reflexivity|lia|unfold is_u64; lia].
Defined.

(** A submission, and an interrupt for the card. *)
Definition flushed : Iommu (list Z) (gmap Z Z) := (SubmitQueuedInvalidation 0x12 0 on).2.
Definition routed : Iommu (list Z) (gmap Z Z) := (AllocatePciInterrupt nic 1 0x40 on).2.
Definition message : InterruptMessage := MkMessage 0xFEE00018 0 1.

Lemma submit_runs : SubmitQueuedInvalidation 0x12 0 on = (true, flushed).
Proof.
  unfold flushed. rewrite (run (SubmitQueuedInvalidation 0x12 0) on) at 1.
  assert ((SubmitQueuedInvalidation 0x12 0 on).1 = true) as -> by (vm_compute; reflexivity). reflexivity.
Qed.

Lemma route_runs : AllocatePciInterrupt nic 1 0x40 on = (Some message, routed).
Proof.
  unfold routed. rewrite (run (AllocatePciInterrupt nic 1 0x40) on) at 1.
  assert ((AllocatePciInterrupt nic 1 0x40 on).1 = Some message) as -> by (vm_compute; reflexivity). reflexivity.
Qed.

Lemma ring_witness : only (queue_memory (vtd on)) on flushed.
Proof.
  destruct on_ok as (role & OK & _). pose proof (proj1 (io_spaces _ _ OK)) as B.
  apply (SubmitQueuedInvalidation_ring on flushed 0x12 0 true); [apply B| |exact submit_runs].
  assert (invalidation_queue (vtd on) = 0x6000 /\ invalidation_completion (vtd on) = 0x7000 /\ invalidation_queue_length (vtd on) = 0x1000)
    as (-> & -> & ->) by (vm_compute; repeat split). lia.
Defined.

Lemma interrupt_witness : exists role, Remap_ok role routed /\ allocated_post on routed nic 1 0x40 (Some message).
Proof.
  destruct on_ok as (role & _ & R). exists role.
  apply (AllocatePciInterrupt_correct role on routed nic 1 0x40 (Some message) R). exact route_runs.
Defined.

Lemma release_witness : entry (ReleaseInterrupt 1 routed).2 0 = entry on 0.
Proof.
  destruct on_ok as (role & _ & R).
  apply (interrupt_roundtrip role on routed (ReleaseInterrupt 1 routed).2 nic 1 0x40 message (ReleaseInterrupt 1 routed).1 R);
    [exact route_runs|apply run|lia].
Defined.

End VtdWitness.
