(* ===== verification/Dmar.v ===== *)
(** * Probing the remapping units ([mecocoa/memoman-iova.cpp], lines 73-112, 482-601, 973-1053)

    [ProbeVtd] walks the DMAR table of the firmware: a header, then entries of a type and a length;
    the entries of hardware units and of reserved memory end with device scopes, again of variable
    length.  The table is a list of bytes; a read outside of it is [None], and so is a failed
    assertion of the code that maps the registers.  The table is not trusted: nothing but its
    declared length is assumed. *)
From S2P Require Import Prelude Interfaces Registry Vtd.

(** [uni::ACPI::DescriptionHeader], the first 36 bytes: its [length] field and [isValid("DMAR")]. *)
Class AcpiHeader := {
  header_length : list Z -> option Z;
  header_valid : list Z -> bool;
}.
Class AcpiHeaderLaws `{AcpiHeader} := {
  header_length_reads : forall t, (36 <= length t)%nat -> is_Some (header_length t);
}.

(** Identity mapping of one page of device memory in the kernel's page table; [None] is a failed
    assertion. *)
Class DeviceMap (K : Type) := { dm_map : Z -> K -> option (bool * K) }.
Class DeviceMapLaws (K : Type) `{DeviceMap K} := {
  dm_ok : K -> Prop;
  dm_map_total : forall a k, dm_ok k -> is_u64 a -> exists b k', dm_map a k = Some (b, k') /\ dm_ok k';
}.

(** ** Reading bytes *)

(** A little-endian number. *)
Definition dec (l : list Z) : Z := foldr (fun b r => b + 256 * r) 0 l.
Definition le (n : nat) (t : list Z) (off : nat) : option Z :=
  let l := take n (drop off t) in if (length l =? n)%nat then Some (dec l) else None.

Definition DmarHardwareUnitType : Z := 0.
Definition DmarReservedMemoryType : Z := 1.
Definition DmarIncludeAll : Z := 1.
Definition sizeof_DmarTable : nat := 48.
Definition sizeof_DmarEntryHeader : nat := 4.
Definition sizeof_DmarHardwareUnit : nat := 16.
Definition sizeof_DmarReservedMemory : nat := 24.
Definition sizeof_DmarDeviceScope : nat := 6.
Definition sizeof_DmarPciPath : nat := 2.

(** [LogDeviceScopes] from [cursor] to [stop]: whether the scopes are well formed.  The path is read
    to be logged. *)
Fixpoint LogDeviceScopes (fuel : nat) (t : list Z) (cursor stop : nat) : option bool :=
  match fuel with
  | O => None
  | S fuel =>
    if (stop <=? cursor)%nat then Some true else
    let remaining := (stop - cursor)%nat in
    if (remaining <? sizeof_DmarDeviceScope)%nat then Some false else
    length_ ← le 1 t (cursor + 1);
    let len := Z.to_nat length_ in
    if (len <? sizeof_DmarDeviceScope)%nat || (remaining <? len)%nat
       || negb ((len - sizeof_DmarDeviceScope) mod sizeof_DmarPciPath =? 0)%nat
    then Some false else
    _ ← le len t cursor;
    LogDeviceScopes fuel t (cursor + len) stop
  end.

(** ** Probing *)
Section Probe.
Context {Pl HW K : Type} `{!VtdUnit HW} `{!DeviceMap K} `{!AcpiHeader}.

Record ProbeState := MkProbe { iommu : Iommu Pl HW; kernel_paging : K }.

(** Operations may read outside of the table, or fail an assertion. *)
Abbreviation Op A := (ProbeState -> option (A * ProbeState)).
Definition done {A} (a : A) : Op A := fun s => Some (a, s).
Definition seq {A B} (m : Op A) (k : A -> Op B) : Op B := fun s => '(a, s) ← m s; k a s.
Definition read {A} (o : option A) : Op A := fun s => a ← o; Some (a, s).
Definition act {A} (m : Iommu Pl HW -> A * Iommu Pl HW) : Op A := fun s =>
  let '(a, i) := m (iommu s) in Some (a, MkProbe i (kernel_paging s)).

Notation "x <- m ;; k" := (seq m (fun x => k)) (at level 100, m at next level, right associativity).

(** The check of the address, then the page of the registers is mapped. *)
Definition MapRegisterWindow (register_base : Z) : Op bool := fun s =>
  if (register_base +w VtdRegisterWindowLength <? register_base) || truthy (page_offset register_base)
  then Some (false, s)
  else '(b, k) ← dm_map register_base (kernel_paging s); Some (b, MkProbe (iommu s) k).

Definition set_unit (all : bool) (seg base cap ecap : Z) (v : VtdState) : VtdState :=
  MkVtd (probe_complete v) (passthrough_enabled v) (interrupt_remapping_enabled v) (extended_interrupt_mode v) all
    (dmar_flags v) (host_address_width v) seg (hardware_unit_count v) base cap ecap (root_table v) (interrupt_remapping_table v)
    (invalidation_queue v) (invalidation_completion v) (invalidation_queue_length v) (invalidation_queue_shift v)
    (interrupt_remapping_allocated v) (context_table_count v) (device_count v).

(** The part of [ProbeHardwareUnit] after the entry was read: the first unit becomes the driver's. *)
Definition probe_registers (flags segment register_base index : Z) : Op bool :=
  mapped <- MapRegisterWindow register_base ;;
  if negb mapped then done false else
  _ <- act (ReadRegister32 register_base VtdVersionRegister) ;;
  capability <- act (ReadRegister64 register_base VtdCapabilityRegister) ;;
  extended <- act (ReadRegister64 register_base VtdExtendedCapabilityRegister) ;;
  _ <- act (ReadRegister32 register_base VtdGlobalStatusRegister) ;;
  _ <- act (ReadRegister64 register_base VtdRootTableAddressRegister) ;;
  _ <- act (ReadRegister32 register_base VtdFaultStatusRegister) ;;
  if index =? 0 then
    _ <- act (set_vtd (set_unit (truthy (Z.land flags DmarIncludeAll)) segment register_base capability extended)) ;;
    done true
  else done true.

(** The hardware unit whose entry is at [cursor]. *)
Definition ProbeHardwareUnit (t : list Z) (cursor : nat) (index : Z) : Op bool :=
  len <- read (le 2 t (cursor + 2)) ;;
  flags <- read (le 1 t (cursor + 4)) ;;
  segment <- read (le 2 t (cursor + 6)) ;;
  register_base <- read (le 8 t (cursor + 8)) ;;
  scopes <- read (LogDeviceScopes (S (length t)) t (cursor + sizeof_DmarHardwareUnit) (cursor + Z.to_nat len)) ;;
  if negb scopes then done false else probe_registers flags segment register_base index.

Definition ProbeReservedMemory (t : list Z) (cursor : nat) : Op bool :=
  len <- read (le 2 t (cursor + 2)) ;;
  _ <- read (le 2 t (cursor + 6)) ;;
  _ <- read (le 8 t (cursor + 8)) ;;
  _ <- read (le 8 t (cursor + 16)) ;;
  read (LogDeviceScopes (S (length t)) t (cursor + sizeof_DmarReservedMemory) (cursor + Z.to_nat len)).

(** The walk over the entries: whether it got to the end, with the number of hardware units and
    whether every probe succeeded. *)
Fixpoint probe_entries (fuel : nat) (t : list Z) (cursor stop : nat) (units : Z) (probe_ok : bool) : Op (option (Z * bool)) :=
  match fuel with
  | O => fun _ => None
  | S fuel =>
    if (stop <=? cursor)%nat then done (Some (units, probe_ok)) else
    let remaining := (stop - cursor)%nat in
    if (remaining <? sizeof_DmarEntryHeader)%nat then done None else
    type <- read (le 2 t cursor) ;;
    length_ <- read (le 2 t (cursor + 2)) ;;
    let len := Z.to_nat length_ in
    if (len <? sizeof_DmarEntryHeader)%nat || (remaining <? len)%nat then done None else
    if type =? DmarHardwareUnitType then
      if (len <? sizeof_DmarHardwareUnit)%nat then done None else
      ok <- ProbeHardwareUnit t cursor units ;;
      probe_entries fuel t (cursor + len) stop (units + 1) (probe_ok && ok)
    else if type =? DmarReservedMemoryType then
      if (len <? sizeof_DmarReservedMemory)%nat then done None else
      ok <- ProbeReservedMemory t cursor ;;
      probe_entries fuel t (cursor + len) stop units (probe_ok && ok)
    else probe_entries fuel t (cursor + len) stop units probe_ok
  end.

Definition set_table (flags width : Z) (v : VtdState) : VtdState :=
  MkVtd (probe_complete v) (passthrough_enabled v) (interrupt_remapping_enabled v) (extended_interrupt_mode v) (include_all v)
    flags width (segment v) (hardware_unit_count v) (registers v) (capability v) (extended_capability v) (root_table v)
    (interrupt_remapping_table v) (invalidation_queue v) (invalidation_completion v) (invalidation_queue_length v)
    (invalidation_queue_shift v) (interrupt_remapping_allocated v) (context_table_count v) (device_count v).
Definition set_probed (units : Z) (v : VtdState) : VtdState :=
  MkVtd true (passthrough_enabled v) (interrupt_remapping_enabled v) (extended_interrupt_mode v) (include_all v)
    (dmar_flags v) (host_address_width v) (segment v) units (registers v) (capability v) (extended_capability v) (root_table v)
    (interrupt_remapping_table v) (invalidation_queue v) (invalidation_completion v) (invalidation_queue_length v)
    (invalidation_queue_shift v) (interrupt_remapping_allocated v) (context_table_count v) (device_count v).

Definition reset_driver (i : Iommu Pl HW) : Iommu Pl HW :=
  MkIommu vtd_reset (replicate IovaDomainCapacity no_domain) (memory i) (Vtd.pool i) (hw i).

(** [ProbeVtd]; [t] is the memory at [dmar_address]. *)
Definition ProbeVtd (dmar_address : Z) (t : list Z) : Op bool :=
  _ <- act (fun i => (tt, reset_driver i)) ;;
  if dmar_address =? 0 then done false else
  table_length <- read (header_length t) ;;
  if (Z.to_nat table_length <? sizeof_DmarTable)%nat || negb (header_valid t) then done false else
  width <- read (le 1 t 36) ;;
  flags <- read (le 1 t 37) ;;
  _ <- act (set_vtd (set_table flags ((width + 1) mod 256))) ;;
  walked <- probe_entries (S (length t)) t sizeof_DmarTable (Z.to_nat table_length) 0 true ;;
  match walked with
  | None => done false
  | Some (units, probe_ok) =>
    if units =? 0 then done false else
    if negb probe_ok then done false else
    _ <- act (set_vtd (set_probed units)) ;;
    done true
  end.

End Probe.
Arguments ProbeState : clear implicits.
Arguments MkProbe {Pl HW K}.
Arguments iommu {Pl HW K}.
Arguments kernel_paging {Pl HW K}.

(** ** The kernel's page table behind the interface *)
Section Kernel.
Context `{PagingConstants} {M : Type} `{!Mempool M} {PT : Type} `{!PageTable PT} (pg : Z).

(** [Memory::MapPages(kernel_paging, a, a, PAGE_SIZE, ...)] of [MapRegisterWindow]. *)
Definition map_device_page (a : Z) (k : Registry M * PT) : option (bool * (Registry M * PT)) :=
  '(b, g, pt) ← MapPages pg k.2 a a PAGE_SIZE PAGESIZE_ANY
    (Z.lor (Z.lor PGPROP_present PGPROP_writable) (Z.lor PGTYPE_device PGOPTS_omit_warnings)) k.1;
  Some (b, (g, pt)).

End Kernel.
