(* ===== verification/DmarProof.v ===== *)
(** * The grammar of the DMAR table, and the walk over it

    The table as data ([Entry], [Scope]) with its encoding, and the walk of [ProbeVtd] as a walk over
    the entries that the bytes encode. *)
From S2P Require Import Prelude Interfaces Registry Vtd Dmar.

Definition byte (b : Z) : Prop := 0 <= b < 256.
Abbreviation bytes := (Forall byte).

(** ** Numbers *)

Fixpoint enc (n : nat) (v : Z) : list Z :=
  match n with O => [] | S n => v mod 256 :: enc n (v / 256) end.

Lemma enc_length n v : length (enc n v) = n.
Proof. revert v. induction n; intros v; cbn; [done|]. by rewrite IHn. Qed.

Lemma enc_bytes n v : bytes (enc n v).
Proof. revert v. induction n as [|n IH]; intros v; cbn; constructor; [unfold byte; lia|apply IH]. Qed.

Lemma dec_range l : bytes l -> 0 <= dec l < 256 ^ Z.of_nat (length l).
Proof.
  induction 1 as [|b l Hb Hl IH]; cbn [dec foldr length]; [lia|]. fold (dec l). rewrite Nat2Z.inj_succ, Z.pow_succ_r by lia. unfold byte in Hb. lia.
Qed.

Lemma enc_dec l : bytes l -> enc (length l) (dec l) = l.
Proof.
  induction 1 as [|b l Hb Hl IH]; cbn [dec foldr length enc]; [done|]. fold (dec l). unfold byte in Hb.
  replace ((b + 256 * dec l) mod 256) with b by lia. replace ((b + 256 * dec l) / 256) with (dec l) by lia. by rewrite IH.
Qed.

Lemma dec_enc n v : 0 <= v < 256 ^ Z.of_nat n -> dec (enc n v) = v.
Proof.
  revert v. induction n as [|n IH]; intros v Hv; cbn [enc dec foldr]; [cbn in Hv; lia|]. fold (dec (enc n (v / 256))).
  rewrite Nat2Z.inj_succ, Z.pow_succ_r in Hv by lia. rewrite IH; lia.
Qed.

(** ** The data *)

Record Scope := MkScope {
  sc_type : Z; sc_flags : Z; sc_reserved : Z; enumeration_id : Z; start_bus : Z; sc_path : list (Z * Z);
}.
Definition encode_path (p : list (Z * Z)) : list Z := concat ((fun df => [df.1; df.2]) <$> p).
Definition encode_scope (s : Scope) : list Z :=
  [sc_type s; Z.of_nat (6 + 2 * length (sc_path s)); sc_flags s; sc_reserved s; enumeration_id s; start_bus s] ++ encode_path (sc_path s).
Definition encode_scopes (l : list Scope) : list Z := concat (encode_scope <$> l).

(** An entry of the table; the device scopes are still bytes. *)
Inductive Entry :=
  | HardwareUnit (flags size segment register_base : Z) (scopes : list Z)
  | ReservedMemory (reserved segment base_address end_address : Z) (scopes : list Z)
  | OtherEntry (type : Z) (payload : list Z).

Definition entry_type (e : Entry) : Z :=
  match e with HardwareUnit _ _ _ _ _ => 0 | ReservedMemory _ _ _ _ _ => 1 | OtherEntry ty _ => ty end.
Definition payload (e : Entry) : list Z :=
  match e with
  | HardwareUnit flags size segment base scopes => [flags; size] ++ enc 2 segment ++ enc 8 base ++ scopes
  | ReservedMemory reserved segment base stop scopes => enc 2 reserved ++ enc 2 segment ++ enc 8 base ++ enc 8 stop ++ scopes
  | OtherEntry _ p => p
  end.
Definition encode_entry (e : Entry) : list Z :=
  enc 2 (entry_type e) ++ enc 2 (Z.of_nat (4 + length (payload e))) ++ payload e.
Definition encode (es : list Entry) : list Z := concat (encode_entry <$> es).

Definition entry_ok (e : Entry) : Prop :=
  Z.of_nat (4 + length (payload e)) < 2 ^ 16 /\ bytes (payload e) /\
  match e with
  | HardwareUnit _ _ segment base _ => 0 <= segment < 2 ^ 16 /\ is_u64 base
  | ReservedMemory _ segment base stop _ => 0 <= segment < 2 ^ 16 /\ is_u64 base /\ is_u64 stop
  | OtherEntry ty _ => 2 <= ty < 2 ^ 16
  end.

(** The scopes of an entry are well formed. *)
Definition scopes_ok (l : list Z) : Prop := exists scs, l = encode_scopes scs.

(** ** Segments of the table *)

Definition segment_of (t : list Z) (cursor stop : nat) : list Z := take (stop - cursor) (drop cursor t).

Lemma segment_length t cursor stop : (stop <= length t)%nat -> length (segment_of t cursor stop) = (stop - cursor)%nat.
Proof. intros Hs. unfold segment_of. rewrite length_take, length_drop. lia. Qed.

Lemma le_segment n k t cursor stop : (cursor + k + n <= stop)%nat -> (stop <= length t)%nat ->
  le n t (cursor + k) = Some (dec (take n (drop k (segment_of t cursor stop)))).
Proof.
  intros H1 H2. unfold le, segment_of. rewrite skipn_firstn_comm, drop_drop, take_take. replace (n `min` (stop - cursor - k))%nat with n by lia.
  rewrite length_take, length_drop. by rewrite (proj2 (Nat.eqb_eq _ _)) by lia.
Qed.

Lemma segment_next t cursor stop n : segment_of t (cursor + n) stop = drop n (segment_of t cursor stop).
Proof. unfold segment_of. rewrite skipn_firstn_comm, drop_drop. f_equal. lia. Qed.

Lemma segment_bytes t cursor stop : bytes t -> bytes (segment_of t cursor stop).
Proof. intros H. unfold segment_of. by apply Forall_take, Forall_drop. Qed.

(** ** Device scopes *)

Lemma encode_path_length p : length (encode_path p) = (2 * length p)%nat.
Proof. induction p as [|df p IH]; [done|]. unfold encode_path in *. cbn in *. lia. Qed.

Lemma paths n : forall l : list Z, length l = (2 * n)%nat -> exists p, l = encode_path p /\ length p = n.
Proof.
  induction n as [|n IH]; intros l Hl; [exists []; by destruct l|]. destruct l as [|a [|b l]]; cbn in Hl; [lia|lia|].
  destruct (IH l) as (p & -> & Hp); [lia|]. exists ((a, b) :: p). split; [done|cbn; lia].
Qed.

Lemma encode_scope_length s : length (encode_scope s) = (6 + 2 * length (sc_path s))%nat.
Proof. unfold encode_scope. rewrite length_app, encode_path_length. cbn. lia. Qed.

Lemma scope_split (l : list Z) len : (6 <= len <= length l)%nat -> ((len - 6) mod 2 = 0)%nat -> Z.to_nat (dec (take 1 (drop 1 l))) = len -> bytes l ->
  exists sc, take len l = encode_scope sc.
Proof.
  intros [H6 Hle] Hm Hb Hl. destruct l as [|a [|b [|c [|d [|e [|f r]]]]]]; cbn in Hle; try lia.
  assert (b = Z.of_nat len) as ->.
  { cbn in Hb. rewrite Forall_forall in Hl. assert (byte b) as Hbb by (apply Hl; right; left). unfold byte in Hbb. lia. }
  destruct (paths ((len - 6) / 2) (take (len - 6) r)) as (p & Hp & Hn).
  { rewrite length_take. pose proof (Nat.div_mod (len - 6) 2). lia. }
  exists (MkScope a c d e f p). unfold encode_scope. cbn [sc_type sc_flags sc_reserved enumeration_id start_bus sc_path].
  rewrite Hn, <- Hp. destruct len as [|[|[|[|[|[|len]]]]]]; try lia. cbn [take]. replace (S (S (S (S (S (S len))))) - 6)%nat with len in * by lia.
  cbn [app]. do 3 f_equal. pose proof (Nat.div_mod len 2). lia.
Qed.

Lemma LogDeviceScopes_spec fuel : forall t cursor stop, bytes t -> (stop <= length t)%nat -> (stop - cursor < fuel)%nat ->
  exists b, LogDeviceScopes fuel t cursor stop = Some b /\ (b = true <-> scopes_ok (segment_of t cursor stop)).
Proof.
  induction fuel as [|fuel IH]; intros t cursor stop Ht Hs Hf; [lia|]. cbn [LogDeviceScopes].
  pose proof (segment_length t cursor stop Hs) as Hlen. destruct (stop <=? cursor)%nat eqn:E0.
  { exists true. split; [done|]. split; [|done]. intros _. exists []. destruct (segment_of t cursor stop); [done|cbn in Hlen; lia]. }
  assert (forall sc scs, segment_of t cursor stop = encode_scopes (sc :: scs) -> segment_of t cursor stop = encode_scope sc ++ encode_scopes scs) as Hcons by done.
  assert (scopes_ok (segment_of t cursor stop) -> exists sc scs, segment_of t cursor stop = encode_scope sc ++ encode_scopes scs) as Hfirst.
  { intros [[|sc scs] E]; [rewrite E in Hlen; cbn in Hlen; lia|by exists sc, scs]. }
  destruct (stop - cursor <? sizeof_DmarDeviceScope)%nat eqn:E1; unfold sizeof_DmarDeviceScope in *.
  { exists false. split; [done|]. split; [done|]. intros (sc & scs & E)%Hfirst. rewrite E, length_app, encode_scope_length in Hlen. lia. }
  rewrite (le_segment 1 1 t cursor stop) by lia. cbn [mbind option_bind]. set (len := Z.to_nat (dec _)).
  assert (forall sc rest, segment_of t cursor stop = encode_scope sc ++ rest -> len = length (encode_scope sc)) as Hsc.
  { intros sc rest E. unfold len. rewrite E, encode_scope_length. cbn. lia. }
  destruct (_ || _) eqn:E2.
  { exists false. split; [done|]. split; [done|]. intros (sc & scs & E)%Hfirst. pose proof (Hsc _ _ E) as Hl. rewrite encode_scope_length in Hl.
    rewrite E, length_app, encode_scope_length in Hlen. unfold sizeof_DmarPciPath in E2.
    replace (len - 6)%nat with (length (sc_path sc) * 2)%nat in E2 by lia. rewrite Nat.Div0.mod_mul in E2. clearbody len. clear -E2 Hl Hlen. lia. }
  unfold sizeof_DmarPciPath in E2. replace (le len t cursor) with (le len t (cursor + 0)) by (f_equal; lia). rewrite (le_segment len 0 t cursor stop) by lia. cbn [mbind option_bind].
  destruct (IH t (cursor + len)%nat stop Ht Hs ltac:(lia)) as (b & Eb & Hb). exists b. rewrite Eb. split; [done|]. rewrite Hb, segment_next.
  destruct (scope_split (segment_of t cursor stop) len) as [sc Hsc']; [lia|lia|done|by apply segment_bytes|]. split.
  - intros [scs E]. exists (sc :: scs). rewrite <- (take_drop len (segment_of t cursor stop)), Hsc', E. done.
  - intros (sc0 & scs & E)%Hfirst. exists scs. rewrite (Hsc _ _ E), E, drop_app_length. done.
Qed.

(** The check of the scopes on the bytes of an entry. *)
Definition scopes_wf (l : list Z) : bool := default false (LogDeviceScopes (S (length l)) l 0 (length l)).

Lemma scopes_wf_spec l : bytes l -> scopes_wf l = true <-> scopes_ok l.
Proof.
  intros Hl. unfold scopes_wf. destruct (LogDeviceScopes_spec (S (length l)) l 0 (length l) Hl) as (b & -> & Hb); [lia|lia|]. cbn.
  unfold segment_of in Hb. rewrite Nat.sub_0_r, drop_0, take_ge in Hb by lia. done.
Qed.

Lemma LogDeviceScopes_segment fuel t cursor stop : bytes t -> (stop <= length t)%nat -> (stop - cursor < fuel)%nat ->
  LogDeviceScopes fuel t cursor stop = Some (scopes_wf (segment_of t cursor stop)).
Proof.
  intros Ht Hs Hf. destruct (LogDeviceScopes_spec fuel t cursor stop Ht Hs Hf) as (b & -> & Hb). f_equal.
  pose proof (scopes_wf_spec _ (segment_bytes t cursor stop Ht)) as Hw. destruct b, (scopes_wf _); naive_solver.
Qed.

(** ** Entries *)
Section Walk.
Context {Pl HW K : Type} `{!VtdUnit HW} `{!DeviceMap K}.
Abbreviation PS := (ProbeState Pl HW K).
Implicit Types (s : PS).

(** The walk over entries instead of bytes. *)
Definition probe_one (e : Entry) (units : Z) (ok : bool) : PS -> option ((Z * bool) * PS) :=
  match e with
  | HardwareUnit flags _ segment base scopes =>
    seq (if scopes_wf scopes then probe_registers flags segment base units else done false) (fun b => done (units + 1, ok && b))
  | ReservedMemory _ _ _ _ scopes => done (units, ok && scopes_wf scopes)
  | OtherEntry _ _ => done (units, ok)
  end.
Fixpoint probe_list (es : list Entry) (units : Z) (ok : bool) : PS -> option ((Z * bool) * PS) :=
  match es with
  | [] => done (units, ok)
  | e :: es => seq (probe_one e units ok) (fun r => probe_list es r.1 r.2)
  end.

Lemma encode_entry_length e : length (encode_entry e) = (4 + length (payload e))%nat.
Proof. unfold encode_entry. rewrite !length_app, !enc_length. lia. Qed.

Lemma read_field n (v : Z) pre post t cursor stop : (0 < n)%nat -> 0 <= v < 256 ^ Z.of_nat n -> segment_of t cursor stop = pre ++ enc n v ++ post -> (stop <= length t)%nat ->
  le n t (cursor + length pre) = Some v.
Proof.
  intros Hn Hv E Hs. pose proof (segment_length t cursor stop Hs) as Hl. rewrite E, !length_app, enc_length in Hl.
  rewrite (le_segment n (length pre) t cursor stop) by lia. rewrite E, drop_app_length, take_app_le by (rewrite enc_length; lia).
  rewrite take_ge by (rewrite enc_length; lia). by rewrite dec_enc.
Qed.

Lemma segment_inner t cursor stop pre mid post : segment_of t cursor stop = pre ++ mid ++ post -> (stop <= length t)%nat ->
  segment_of t (cursor + length pre) (cursor + length pre + length mid) = mid.
Proof.
  intros E Hs. pose proof (segment_length t cursor stop Hs) as Hl. rewrite E, !length_app in Hl. unfold segment_of in *.
  replace (drop (cursor + length pre) t) with (drop (length pre) (drop cursor t)) by (by rewrite drop_drop).
  replace (cursor + length pre + length mid - (cursor + length pre))%nat with (length mid) by lia.
  rewrite <- (take_drop (stop - cursor) (drop cursor t)), E, <- !app_assoc, drop_app_length, take_app_le by lia. by rewrite take_ge by lia.
Qed.

(** The header of the entry at [cursor]. *)
Lemma entry_header e rest t cursor stop : entry_ok e -> segment_of t cursor stop = encode_entry e ++ rest -> (stop <= length t)%nat ->
  le 2 t cursor = Some (entry_type e) /\ le 2 t (cursor + 2) = Some (Z.of_nat (4 + length (payload e))).
Proof.
  intros (H1 & H2 & H3) E Hs. unfold encode_entry in E. rewrite <- !app_assoc in E.
  assert (0 <= entry_type e < 2 ^ 16) as Hty by (destruct e; cbn in *; lia). split.
  - replace (le 2 t cursor) with (le 2 t (cursor + 0)) by (f_equal; lia). eapply (read_field 2 _ []); [lia| |exact E|done]. change (256 ^ Z.of_nat 2) with (2 ^ 16). lia.
  - rewrite app_assoc in E. rewrite <- (enc_length 2 (entry_type e)) at 1.
    eapply (read_field 2 _ (enc 2 (entry_type e))); [lia| |rewrite <- app_assoc in E; exact E|done]. change (256 ^ Z.of_nat 2) with (2 ^ 16). lia.
Qed.

Lemma read_seq {A B} (o : option A) (k : A -> PS -> option (B * PS)) a s : o = Some a -> seq (read o) k s = k a s.
Proof. intros ->. done. Qed.

Lemma unit_step flags size seg base sc rest t cursor stop units s : bytes t -> let e := HardwareUnit flags size seg base sc in
  entry_ok e -> segment_of t cursor stop = encode_entry e ++ rest -> (stop <= length t)%nat ->
  ProbeHardwareUnit t cursor units s = (if scopes_wf sc then probe_registers flags seg base units else done false) s.
Proof.
  intros Ht e Hok E Hs. destruct (entry_header e rest t cursor stop Hok E Hs) as [_ Hlen]. destruct Hok as (H1 & H2 & H3 & H4).
  unfold ProbeHardwareUnit, sizeof_DmarHardwareUnit. rewrite (read_seq _ _ _ _ Hlen). unfold encode_entry in E. cbn [entry_type payload e] in E.
  assert (byte flags) as Hfl by (cbn in H2; by inversion H2).
  set (L := Z.of_nat (4 + length (payload e))) in *. change (Z.of_nat (4 + length ([flags; size] ++ enc 2 seg ++ enc 8 base ++ sc))) with L in E.
  rewrite <- !app_assoc in E. unfold byte in Hfl.
  assert (le 1 t (cursor + 4) = Some flags) as Ef.
  { apply (read_field 1 flags (enc 2 0 ++ enc 2 L) ([size] ++ enc 2 seg ++ enc 8 base ++ sc ++ rest) t cursor stop); [lia|cbn; lia| |done].
    rewrite E. cbn [enc app]. by rewrite (Z.mod_small flags 256) by lia. }
  rewrite (read_seq _ _ _ _ Ef).
  assert (le 2 t (cursor + 6) = Some seg) as Es.
  { apply (read_field 2 seg (enc 2 0 ++ enc 2 L ++ [flags; size]) (enc 8 base ++ sc ++ rest) t cursor stop); [lia|change (256 ^ Z.of_nat 2) with (2 ^ 16); lia| |done].
    by rewrite E, <- !app_assoc. }
  rewrite (read_seq _ _ _ _ Es).
  assert (le 8 t (cursor + 8) = Some base) as Eb.
  { apply (read_field 8 base (enc 2 0 ++ enc 2 L ++ [flags; size] ++ enc 2 seg) (sc ++ rest) t cursor stop); [lia|change (256 ^ Z.of_nat 8) with two64; exact H4| |done].
    by rewrite E, <- !app_assoc. }
  rewrite (read_seq _ _ _ _ Eb).
  assert (segment_of t (cursor + 16) (cursor + Z.to_nat L) = sc) as Esc.
  { pose proof (segment_inner t cursor stop (enc 2 0 ++ enc 2 L ++ [flags; size] ++ enc 2 seg ++ enc 8 base) sc rest) as Hi.
    cbn [length app enc] in Hi. rewrite <- Hi; [|by rewrite E|done]. f_equal. unfold L, payload, e. rewrite !length_app, !enc_length. cbn. lia. }
  pose proof (segment_length t cursor stop Hs) as Hl. rewrite E, !length_app, !enc_length in Hl. cbn [length] in Hl.
  rewrite (read_seq _ _ (scopes_wf sc)); [by destruct (scopes_wf sc)|].
  rewrite LogDeviceScopes_segment; [by rewrite Esc|done| |]; unfold L, payload, e; rewrite !length_app, !enc_length; cbn [length]; lia.
Qed.

Lemma reserved_step res seg base stop_ sc rest t cursor stop s : bytes t -> let e := ReservedMemory res seg base stop_ sc in
  entry_ok e -> segment_of t cursor stop = encode_entry e ++ rest -> (stop <= length t)%nat ->
  ProbeReservedMemory t cursor s = Some (scopes_wf sc, s).
Proof.
  intros Ht e Hok E Hs. destruct (entry_header e rest t cursor stop Hok E Hs) as [_ Hlen]. destruct Hok as (H1 & H2 & H3 & H4 & H5).
  unfold ProbeReservedMemory, sizeof_DmarReservedMemory. rewrite (read_seq _ _ _ _ Hlen). unfold encode_entry in E. cbn [entry_type payload e] in E.
  set (L := Z.of_nat (4 + length (payload e))) in *. change (Z.of_nat (4 + length (enc 2 res ++ enc 2 seg ++ enc 8 base ++ enc 8 stop_ ++ sc))) with L in E.
  rewrite <- !app_assoc in E.
  assert (le 2 t (cursor + 6) = Some seg) as Es.
  { apply (read_field 2 seg (enc 2 1 ++ enc 2 L ++ enc 2 res) (enc 8 base ++ enc 8 stop_ ++ sc ++ rest) t cursor stop); [lia|change (256 ^ Z.of_nat 2) with (2 ^ 16); lia| |done].
    by rewrite E, <- !app_assoc. }
  rewrite (read_seq _ _ _ _ Es).
  assert (le 8 t (cursor + 8) = Some base) as Eb.
  { apply (read_field 8 base (enc 2 1 ++ enc 2 L ++ enc 2 res ++ enc 2 seg) (enc 8 stop_ ++ sc ++ rest) t cursor stop); [lia|change (256 ^ Z.of_nat 8) with two64; exact H4| |done].
    by rewrite E, <- !app_assoc. }
  rewrite (read_seq _ _ _ _ Eb).
  assert (le 8 t (cursor + 16) = Some stop_) as Et.
  { apply (read_field 8 stop_ (enc 2 1 ++ enc 2 L ++ enc 2 res ++ enc 2 seg ++ enc 8 base) (sc ++ rest) t cursor stop); [lia|change (256 ^ Z.of_nat 8) with two64; exact H5| |done].
    by rewrite E, <- !app_assoc. }
  rewrite (read_seq _ _ _ _ Et).
  assert (segment_of t (cursor + 24) (cursor + Z.to_nat L) = sc) as Esc.
  { pose proof (segment_inner t cursor stop (enc 2 1 ++ enc 2 L ++ enc 2 res ++ enc 2 seg ++ enc 8 base ++ enc 8 stop_) sc rest) as Hi.
    cbn [length app enc] in Hi. rewrite <- Hi; [|by rewrite E|done]. f_equal. unfold L, payload, e. rewrite !length_app, !enc_length. cbn. lia. }
  pose proof (segment_length t cursor stop Hs) as Hl. rewrite E, !length_app, !enc_length in Hl. cbn [length] in Hl.
  unfold read. rewrite LogDeviceScopes_segment; [by rewrite Esc|done| |]; unfold L, payload, e; rewrite !length_app, !enc_length; cbn [length]; lia.
Qed.

(** One turn of the loop is one entry. *)
Lemma entry_step e rest fuel t cursor stop units ok s : bytes t -> entry_ok e -> segment_of t cursor stop = encode_entry e ++ rest -> (stop <= length t)%nat ->
  probe_entries (S fuel) t cursor stop units ok s =
  seq (probe_one e units ok) (fun r => probe_entries fuel t (cursor + length (encode_entry e)) stop r.1 r.2) s.
Proof.
  intros Ht Hok E Hs. pose proof (segment_length t cursor stop Hs) as Hl. rewrite E, length_app, encode_entry_length in Hl.
  destruct (entry_header e rest t cursor stop Hok E Hs) as [Hty Hlen]. cbn [probe_entries].
  rewrite (proj2 (Nat.leb_gt stop cursor)) by lia. unfold sizeof_DmarEntryHeader. rewrite (proj2 (Nat.ltb_ge (stop - cursor) 4)) by lia.
  rewrite (read_seq _ _ _ _ Hty), (read_seq _ _ _ _ Hlen). rewrite Nat2Z.id.
  rewrite (proj2 (Nat.ltb_ge _ 4)) by lia. rewrite (proj2 (Nat.ltb_ge (stop - cursor) _)) by lia. cbn [orb]. rewrite encode_entry_length.
  destruct e as [flags size seg base sc|res seg base stop_ sc|ty p]; cbn [entry_type] in *.
  - change (0 =? DmarHardwareUnitType) with true. cbv iota.
    rewrite (proj2 (Nat.ltb_ge _ sizeof_DmarHardwareUnit)) by (unfold sizeof_DmarHardwareUnit, payload; rewrite !length_app, !enc_length; cbn [length]; lia).
    unfold seq, probe_one. rewrite (unit_step flags size seg base sc rest t cursor stop units s Ht Hok E Hs).
    destruct ((if scopes_wf sc then _ else _) s) as [[b s']|] eqn:Eb; unfold seq; rewrite Eb; done.
  - change (1 =? DmarHardwareUnitType) with false. change (1 =? DmarReservedMemoryType) with true. cbv iota.
    rewrite (proj2 (Nat.ltb_ge _ sizeof_DmarReservedMemory)) by (unfold sizeof_DmarReservedMemory, payload; rewrite !length_app, !enc_length; cbn [length]; lia).
    unfold seq. rewrite (reserved_step res seg base stop_ sc rest t cursor stop s Ht Hok E Hs). done.
  - destruct Hok as (_ & _ & Hty2). unfold DmarHardwareUnitType, DmarReservedMemoryType. replace (ty =? 0) with false by lia. by replace (ty =? 1) with false by lia.
Qed.

(** The bytes that end the walk early. *)
Definition malformed (l : list Z) : Prop :=
  l <> [] /\ ((length l < 4)%nat \/
    let ty := dec (take 2 l) in let len := Z.to_nat (dec (take 2 (drop 2 l))) in
    (4 <= length l)%nat /\ ((len < 4)%nat \/ (length l < len)%nat \/ ty = 0 /\ (len < 16)%nat \/ ty = 1 /\ (len < 24)%nat)).

Lemma malformed_step fuel t cursor stop units ok s : malformed (segment_of t cursor stop) -> (stop <= length t)%nat ->
  probe_entries (S fuel) t cursor stop units ok s = Some (None, s).
Proof.
  intros [Hne Hbad] Hs. pose proof (segment_length t cursor stop Hs) as Hl. cbn [probe_entries].
  assert (length (segment_of t cursor stop) <> 0%nat) as Hpos by (by destruct (segment_of t cursor stop)).
  rewrite (proj2 (Nat.leb_gt stop cursor)) by lia. unfold sizeof_DmarEntryHeader, sizeof_DmarHardwareUnit, sizeof_DmarReservedMemory.
  destruct (stop - cursor <? 4)%nat eqn:E4; [done|]. destruct Hbad as [?|[_ Hbad]]; [lia|].
  rewrite (read_seq _ _ (dec (take 2 (segment_of t cursor stop)))).
  2: { replace (le 2 t cursor) with (le 2 t (cursor + 0)) by (f_equal; lia). rewrite (le_segment 2 0 t cursor stop) by lia. done. }
  rewrite (read_seq _ _ _ _ (le_segment 2 2 t cursor stop ltac:(lia) Hs)).
  set (ty := dec (take 2 (segment_of t cursor stop))) in *. set (len := Z.to_nat _) in *. destruct (_ || _) eqn:Eb; [done|].
  unfold DmarHardwareUnitType, DmarReservedMemoryType.
  destruct Hbad as [?|[?|[[-> Hx]|[-> Hx]]]]; [lia|lia| |]; cbn [Z.eqb]; by rewrite (proj2 (Nat.ltb_lt _ _)) by done.
Qed.

End Walk.

(** ** Every table is entries, then nothing or something malformed *)

Lemma enc_dec_take n l : bytes l -> (n <= length l)%nat -> enc n (dec (take n l)) = take n l.
Proof.
  intros Hl Hn. assert (length (take n l) = n) as E by (rewrite length_take; lia). rewrite <- E at 1. apply enc_dec. by apply Forall_take.
Qed.

Lemma dec_take_range n l : bytes l -> (n <= length l)%nat -> 0 <= dec (take n l) < 256 ^ Z.of_nat n.
Proof. intros Hl Hn. pose proof (dec_range (take n l) (Forall_take _ n _ Hl)) as H. rewrite length_take, Nat.min_l in H by done. done. Qed.

Lemma take_next n m (l : list Z) : take m (drop n l) ++ drop (n + m) l = drop n l.
Proof. rewrite <- drop_drop. apply take_drop. Qed.

(** A payload of each type. *)
Lemma decode_payload ty p : bytes p -> 0 <= ty < 2 ^ 16 -> Z.of_nat (4 + length p) < 2 ^ 16 ->
  (ty = 0 -> (12 <= length p)%nat) -> (ty = 1 -> (20 <= length p)%nat) -> exists e, entry_type e = ty /\ payload e = p /\ entry_ok e.
Proof.
  intros Hp Hty Hlen H0 H1. destruct (decide (ty = 0)) as [->|Hn0].
  - specialize (H0 eq_refl). destruct p as [|f [|z p]]; cbn in H0; try lia. inversion Hp as [|? ? _ Hp1]; subst. inversion Hp1 as [|? ? _ Hp2]; subst. clear Hp1.
    pose proof (dec_take_range 2 p Hp2 ltac:(lia)) as Hr2. pose proof (Forall_drop _ 2 _ Hp2) as Hp3.
    assert (8 <= length (drop 2 p))%nat as Hl3 by (rewrite length_drop; lia). pose proof (dec_take_range 8 (drop 2 p) Hp3 Hl3) as Hr8.
    exists (HardwareUnit f z (dec (take 2 p)) (dec (take 8 (drop 2 p))) (drop 10 p)).
    assert (payload (HardwareUnit f z (dec (take 2 p)) (dec (take 8 (drop 2 p))) (drop 10 p)) = f :: z :: p) as Epay.
    { cbn [payload]. rewrite enc_dec_take by (done || lia). rewrite (enc_dec_take 8) by done. cbn [app]. do 2 f_equal.
      change 10%nat with (2 + 8)%nat. by rewrite take_next, take_drop. }
    split; [done|]. split; [exact Epay|]. unfold entry_ok. rewrite Epay. split_and!; try done; lia.
  - destruct (decide (ty = 1)) as [->|Hn1].
    + specialize (H1 eq_refl). pose proof (dec_take_range 2 p Hp ltac:(lia)) as Hr2. pose proof (Forall_drop _ 2 _ Hp) as Hp2.
      assert (18 <= length (drop 2 p))%nat as Hl2 by (rewrite length_drop; lia). pose proof (dec_take_range 2 (drop 2 p) Hp2 ltac:(lia)) as Hr4.
      pose proof (Forall_drop _ 4 _ Hp) as Hp4. assert (16 <= length (drop 4 p))%nat as Hl4 by (rewrite length_drop; lia).
      pose proof (dec_take_range 8 (drop 4 p) Hp4 ltac:(lia)) as Hr12. pose proof (Forall_drop _ 12 _ Hp) as Hp12.
      assert (8 <= length (drop 12 p))%nat as Hl12 by (rewrite length_drop; lia). pose proof (dec_take_range 8 (drop 12 p) Hp12 ltac:(lia)) as Hr20.
      set (e := ReservedMemory (dec (take 2 p)) (dec (take 2 (drop 2 p))) (dec (take 8 (drop 4 p))) (dec (take 8 (drop 12 p))) (drop 20 p)). exists e.
      assert (payload e = p) as Epay.
      { cbn [payload e]. rewrite !enc_dec_take by (done || lia). change 20%nat with (12 + 8)%nat. rewrite take_next.
        change 12%nat with (4 + 8)%nat. rewrite take_next. change (drop 4 p) with (drop (2 + 2) p). by rewrite take_next, take_drop. }
      split; [done|]. split; [exact Epay|]. unfold entry_ok. rewrite Epay. split_and!; try done; lia.
    + exists (OtherEntry ty p). split; [done|]. split; [done|]. unfold entry_ok. cbn [payload]. split_and!; try done; lia.
Qed.

Lemma decode_one l : bytes l -> l <> [] -> malformed l \/ exists e rest, l = encode_entry e ++ rest /\ entry_ok e.
Proof.
  intros Hl Hne. destruct (decide (length l < 4)%nat) as [Hs|Hs]; [left; split; [done|by left]|].
  assert (4 <= length l)%nat as H4 by lia. set (ty := dec (take 2 l)). set (L := dec (take 2 (drop 2 l))).
  assert (2 <= length (drop 2 l))%nat as Hd2 by (rewrite length_drop; lia).
  pose proof (dec_take_range 2 l Hl ltac:(lia)) as Hty. pose proof (dec_take_range 2 (drop 2 l) (Forall_drop _ 2 _ Hl) ltac:(lia)) as HL.
  change (256 ^ Z.of_nat 2) with (2 ^ 16) in *. fold ty in Hty. fold L in HL. set (len := Z.to_nat L) in *.
  destruct (decide ((len < 4)%nat \/ (length l < len)%nat \/ ty = 0 /\ (len < 16)%nat \/ ty = 1 /\ (len < 24)%nat)) as [Hb|Hb].
  { left. split; [done|]. right. by split. }
  right. set (p := take (len - 4) (drop 4 l)). assert (length p = len - 4)%nat as Hp by (unfold p; rewrite length_take, length_drop; lia).
  destruct (decode_payload ty p) as (e & E1 & E2 & E3); [by apply Forall_take, Forall_drop|done|lia|lia|lia|].
  exists e, (drop len l). split; [|done]. unfold encode_entry. rewrite E1, E2, Hp. replace (Z.of_nat (4 + (len - 4))) with L by lia.
  unfold ty, L. rewrite enc_dec_take by (done || lia). rewrite (enc_dec_take 2 (drop 2 l)) by (by apply Forall_drop || lia).
  rewrite <- !app_assoc. unfold p. replace len with (4 + (len - 4))%nat at 2 by lia. rewrite take_next. change 4%nat with (2 + 2)%nat.
  by rewrite take_next, take_drop.
Qed.

Lemma decode_all n : forall l, (length l <= n)%nat -> bytes l ->
  exists es rest, l = encode es ++ rest /\ Forall entry_ok es /\ (rest = [] \/ malformed rest).
Proof.
  induction n as [|n IH]; intros l Hn Hl.
  { exists [], []. destruct l; [|cbn in Hn; lia]. split_and!; [done|constructor|by left]. }
  destruct (decide (l = [])) as [->|Hne]; [exists [], []; split_and!; [done|constructor|by left]|].
  destruct (decode_one l Hl Hne) as [Hm|(e & rest & -> & He)]; [exists [], l; split_and!; [done|constructor|by right]|].
  rewrite length_app, encode_entry_length in Hn. apply Forall_app in Hl as [_ Hl].
  destruct (IH rest ltac:(lia) Hl) as (es & rest' & -> & Hes & Hr). exists (e :: es), rest'. split_and!; [|by constructor|done].
  unfold encode. cbn. by rewrite app_assoc.
Qed.
