(* ===== verification/DmarClaims.v ===== *)
(** * Probing the remapping units: what it promises

    For every content of the DMAR table the probe stays inside the table and ends; it accepts exactly
    the tables of the grammar; it leaves the driver idle, ready for activation or disabled. *)
From S2P Require Import Prelude Interfaces Registry Vtd Iova VtdProof VtdClaims VtdStart Dmar DmarProof.

Section Claims.
Context {Pl HW K : Type} `{!Mempool Pl} `{!VtdUnit HW} `{!DeviceMap K} `{!DeviceMapLaws K} `{!AcpiHeader} `{!AcpiHeaderLaws}.
Abbreviation PS := (ProbeState Pl HW K).
Implicit Types (s : PS).

(** ** The whole walk *)

Lemma walk es : forall rest fuel t cursor stop units ok s, bytes t -> (stop <= length t)%nat -> (stop - cursor < fuel)%nat ->
  segment_of t cursor stop = encode es ++ rest -> Forall entry_ok es -> rest = [] \/ malformed rest ->
  probe_entries fuel t cursor stop units ok s = seq (probe_list es units ok) (fun r => done (if decide (rest = []) then Some r else None)) s.
Proof.
  induction es as [|e es IH]; intros rest fuel t cursor stop units ok s Ht Hs Hf E Hes Hr; (destruct fuel as [|fuel]; [lia|]).
  - cbn [encode fmap list_fmap concat app] in E. destruct Hr as [-> |Hm].
    + pose proof (segment_length t cursor stop Hs) as Hl. rewrite E in Hl. cbn in Hl. cbn [probe_entries]. by rewrite (proj2 (Nat.leb_le stop cursor)) by lia.
    + rewrite malformed_step; [|by rewrite E|done]. unfold seq. cbn. by destruct (decide (rest = [])) as [->|]; [destruct Hm|].
  - apply Forall_cons in Hes as [He Hes]. unfold encode in E. cbn [fmap list_fmap concat] in E. rewrite <- app_assoc in E.
    pose proof (segment_length t cursor stop Hs) as Hl. rewrite E, length_app, encode_entry_length in Hl.
    rewrite (entry_step e (encode es ++ rest)) by done. cbn [probe_list]. unfold seq at 1 2 3. destruct (probe_one e units ok s) as [[r s']|]; [|done]. cbn.
    rewrite (IH rest fuel t (cursor + length (encode_entry e))%nat stop); [done|done|done|rewrite encode_entry_length; lia| |done|done].
    by rewrite segment_next, E, drop_app_length.
Qed.

(** ** Effects of the probes *)

(** What a probe leaves alone. *)
Record untouched (s s' : PS) : Prop := {
  un_domains : domains (iommu s') = domains (iommu s);
  un_complete : probe_complete (vtd (iommu s')) = probe_complete (vtd (iommu s));
  un_passthrough : passthrough_enabled (vtd (iommu s')) = passthrough_enabled (vtd (iommu s));
  un_interrupts : interrupt_remapping_enabled (vtd (iommu s')) = interrupt_remapping_enabled (vtd (iommu s));
  un_root : root_table (vtd (iommu s')) = root_table (vtd (iommu s));
  un_queue : invalidation_queue (vtd (iommu s')) = invalidation_queue (vtd (iommu s));
  un_allocated : interrupt_remapping_allocated (vtd (iommu s')) = interrupt_remapping_allocated (vtd (iommu s));
  un_memory : memory (iommu s') = memory (iommu s) /\ Vtd.pool (iommu s') = Vtd.pool (iommu s);
  un_table : dmar_flags (vtd (iommu s')) = dmar_flags (vtd (iommu s)) /\ host_address_width (vtd (iommu s')) = host_address_width (vtd (iommu s));
}.
#[global] Instance untouched_refl : Reflexive untouched.
Proof. intros s. by constructor. Qed.
#[global] Instance untouched_trans : Transitive untouched.
Proof. intros s1 s2 s3 [? ? ? ? ? ? ? [? ?] [? ?]] [? ? ? ? ? ? ? [? ?] [? ?]]. constructor; try congruence; split; congruence. Qed.

(** The unit the driver uses. *)
Definition chosen_unit s : bool * Z * Z := (include_all (vtd (iommu s)), segment (vtd (iommu s)), registers (vtd (iommu s))).

(** Reads of registers change nothing but the unit. *)
Definition but_hw (i : Iommu Pl HW) : VtdState * list IovaDomain * gmap Z Z * Pl := (vtd i, domains i, memory i, Vtd.pool i).

Lemma act_read {A} (m : Iommu Pl HW -> A * Iommu Pl HW) s : (forall i, but_hw (m i).2 = but_hw i) ->
  exists a s', act m s = Some (a, s') /\ but_hw (iommu s') = but_hw (iommu s) /\ kernel_paging s' = kernel_paging s.
Proof. intros Hm. unfold act. destruct (m (iommu s)) as [a i] eqn:E. eexists _, _. split; [done|]. specialize (Hm (iommu s)). by rewrite E in Hm. Qed.

Lemma read32 base o (i : Iommu Pl HW) : but_hw (ReadRegister32 base o i).2 = but_hw i.
Proof. unfold ReadRegister32. by destruct (hw_read (hw i) base o). Qed.
Lemma read64 base o (i : Iommu Pl HW) : but_hw (ReadRegister64 base o i).2 = but_hw i.
Proof.
  unfold ReadRegister64, bind. pose proof (read32 base o i) as H1. destruct (ReadRegister32 base o i) as [a i1]. cbn [snd] in *.
  pose proof (read32 base (o + 4) i1) as H3. destruct (ReadRegister32 base (o + 4) i1) as [b i2]. cbn [snd ret] in *. congruence.
Qed.

Lemma same_untouched s s' : but_hw (iommu s') = but_hw (iommu s) -> untouched s s' /\ chosen_unit s' = chosen_unit s.
Proof. unfold but_hw, chosen_unit. intros [= Hv Hd Hm Hp]. rewrite Hv. split; [|done]. constructor; try done; by rewrite ?Hv. Qed.

(** A register window the driver accepts. *)
Definition window_ok (base : Z) : Prop := page_offset base = 0 /\ base + VtdRegisterWindowLength < 2 ^ 64.
(** The page table maps the window, whatever it maps already. *)
Definition mappable (base : Z) : Prop := forall k, dm_ok k -> exists k', dm_map base k = Some (true, k').

Lemma window_test base : is_u64 base ->
  (base +w VtdRegisterWindowLength <? base) || truthy (page_offset base) = false <-> window_ok base.
Proof.
  unfold window_ok, VtdRegisterWindowLength, truthy, is_u64, uadd, u64. intros Hb. rewrite orb_false_iff, negb_false_iff, Z.eqb_eq, Z.ltb_ge. split; intros [H1 H2]; split; lia.
Qed.

Lemma MapRegisterWindow_spec base s : dm_ok (kernel_paging s) -> is_u64 base -> exists b k,
  MapRegisterWindow base s = Some (b, MkProbe (iommu s) k) /\ dm_ok k /\ (b = true -> window_ok base) /\ (window_ok base -> mappable base -> b = true).
Proof.
  intros Hk Hb. unfold MapRegisterWindow. pose proof (window_test base Hb) as Hw. destruct (_ || _).
  { exists false, (kernel_paging s). split; [by destruct s|]. split; [done|]. split; [done|]. intros Hwin. by apply Hw in Hwin. }
  destruct (dm_map_total base (kernel_paging s) Hk Hb) as (b & k & E & Hk'). rewrite E. exists b, k. split; [done|]. split; [done|]. split; [by intros _; apply Hw|].
  intros _ Hm. destruct (Hm _ Hk) as [k' E']. congruence.
Qed.

Lemma probe_registers_spec flags seg base idx s : dm_ok (kernel_paging s) -> is_u64 base -> exists b s',
  probe_registers flags seg base idx s = Some (b, s') /\ dm_ok (kernel_paging s') /\ untouched s s' /\
  (b = true -> window_ok base) /\ (window_ok base -> mappable base -> b = true) /\
  (if b && (idx =? 0) then chosen_unit s' = (truthy (Z.land flags DmarIncludeAll), seg, base) else chosen_unit s' = chosen_unit s).
Proof.
  intros Hk Hb. unfold probe_registers, seq at 1. destruct (MapRegisterWindow_spec base s Hk Hb) as (b & k & -> & Hk' & W1 & W2). cbn [mbind option_bind].
  set (s0 := MkProbe (iommu s) k). destruct (same_untouched s s0 eq_refl) as [U0 C0]. destruct b; cbn [negb].
  2: { exists false, s0. split; [done|]. split; [done|]. split; [done|]. by split_and!. }
  specialize (W1 eq_refl). clear W2.
  unfold seq at 1. destruct (act_read (ReadRegister32 base VtdVersionRegister) s0 (read32 _ _)) as (v1 & s1 & -> & V1 & K1). cbn [mbind option_bind].
  unfold seq at 1. destruct (act_read (ReadRegister64 base VtdCapabilityRegister) s1 (read64 _ _)) as (v2 & s2 & -> & V2 & K2). cbn [mbind option_bind].
  unfold seq at 1. destruct (act_read (ReadRegister64 base VtdExtendedCapabilityRegister) s2 (read64 _ _)) as (v3 & s3 & -> & V3 & K3). cbn [mbind option_bind].
  unfold seq at 1. destruct (act_read (ReadRegister32 base VtdGlobalStatusRegister) s3 (read32 _ _)) as (v4 & s4 & -> & V4 & K4). cbn [mbind option_bind].
  unfold seq at 1. destruct (act_read (ReadRegister64 base VtdRootTableAddressRegister) s4 (read64 _ _)) as (v5 & s5 & -> & V5 & K5). cbn [mbind option_bind].
  unfold seq at 1. destruct (act_read (ReadRegister32 base VtdFaultStatusRegister) s5 (read32 _ _)) as (v6 & s6 & -> & V6 & K6). cbn [mbind option_bind].
  destruct (same_untouched s0 s6) as [U6 C6]; [congruence|]. assert (dm_ok (kernel_paging s6)) as Hk6 by (rewrite K6, K5, K4, K3, K2, K1; exact Hk').
  destruct (idx =? 0) eqn:Ei.
  - eexists true, _. split; [done|]. split; [exact Hk6|]. split; [|by split_and!]. etrans; [exact U0|]. etrans; [exact U6|]. by constructor.
  - exists true, s6. split; [done|]. split; [done|]. split; [by etrans|]. split; [done|]. split; [done|]. cbn. by rewrite C6.
Qed.

Definition is_unit (e : Entry) : bool := match e with HardwareUnit _ _ _ _ _ => true | _ => false end.
Definition units_of (es : list Entry) : Z := Z.of_nat (length (List.filter is_unit es)).
Definition first_unit (es : list Entry) : option (bool * Z * Z) :=
  match List.find is_unit es with
  | Some (HardwareUnit flags _ seg base _) => Some (truthy (Z.land flags DmarIncludeAll), seg, base)
  | _ => None
  end.
Definition entry_scopes (e : Entry) : list Z :=
  match e with HardwareUnit _ _ _ _ sc | ReservedMemory _ _ _ _ sc => sc | OtherEntry _ _ => [] end.

Lemma entry_scopes_bytes e : entry_ok e -> bytes (entry_scopes e).
Proof.
  intros (_ & Hb & _). destruct e; cbn [DmarProof.payload entry_scopes] in *; [| |constructor]; rewrite !Forall_app in Hb; tauto.
Qed.

(** The windows of the hardware units among the entries. *)
Definition entry_window (e : Entry) : option Z := match e with HardwareUnit _ _ _ base _ => Some base | _ => None end.
Definition entry_good (e : Entry) : Prop := scopes_ok (entry_scopes e) /\ (forall base, entry_window e = Some base -> window_ok base).
Definition entry_mappable (e : Entry) : Prop := forall base, entry_window e = Some base -> mappable base.

Lemma probe_one_spec e units ok s : dm_ok (kernel_paging s) -> entry_ok e -> 0 <= units -> exists b s',
  probe_one e units ok s = Some ((units + (if is_unit e then 1 else 0), ok && b), s') /\ dm_ok (kernel_paging s') /\ untouched s s' /\
  (b = true -> entry_good e) /\ (entry_good e -> entry_mappable e -> b = true) /\
  (b = true -> chosen_unit s' = if units =? 0 then default (chosen_unit s) (first_unit [e]) else chosen_unit s).
Proof.
  intros Hk He Hu. pose proof (scopes_wf_spec _ (entry_scopes_bytes e He)) as Hwf. unfold entry_good, entry_mappable. destruct e as [fl sz seg base sc|res seg base stop sc|ty p]; cbn [entry_window entry_scopes is_unit] in *; unfold probe_one.
  - destruct (scopes_wf sc).
    + destruct (probe_registers_spec fl seg base units s Hk) as (b & s1 & E1 & K1 & U1 & W1 & W2 & C1); [apply He|]. exists b, s1. unfold seq. rewrite E1. split; [done|]. split; [done|].
      split; [done|]. split; [|split]; [| |by intros ->; destruct (units =? 0)].
      * intros Hb. split; [by apply Hwf|]. intros ? [= <-]. by apply W1.
      * intros [_ Hw] Hm. apply W2; auto.
    + exists false, s. split; [done|]. split; [done|]. split; [done|]. split; [done|]. split; [|done]. intros [Hs _]. by apply Hwf in Hs.
  - exists (scopes_wf sc), s. unfold done. rewrite Z.add_0_r. split; [done|]. split; [done|]. split; [done|]. split; [|split]; [| |by destruct (units =? 0)].
    + intros Hb. split; [by apply Hwf|done].
    + intros [Hs _] _. by apply Hwf.
  - exists true, s. unfold done. rewrite Z.add_0_r, andb_true_r. split; [done|]. split; [done|]. split; [done|]. split; [|split]; [|done|by destruct (units =? 0)].
    intros _. split; [by exists []|done].
Qed.

Lemma units_cons e es : units_of (e :: es) = (if is_unit e then 1 else 0) + units_of es.
Proof. unfold units_of. cbn [List.filter]. destruct (is_unit e); cbn [length]; lia. Qed.

Lemma first_unit_cons e es : first_unit (e :: es) = if is_unit e then first_unit [e] else first_unit es.
Proof. unfold first_unit. cbn [List.find]. by destruct (is_unit e). Qed.

Lemma first_unit_other e : is_unit e = false -> first_unit [e] = None.
Proof. unfold first_unit. cbn [List.find]. by intros ->. Qed.

Lemma probe_list_spec es : forall units ok s, dm_ok (kernel_paging s) -> Forall entry_ok es -> 0 <= units -> exists ok' s',
  probe_list es units ok s = Some ((units + units_of es, ok'), s') /\ dm_ok (kernel_paging s') /\ untouched s s' /\
  (ok' = true -> ok = true /\ Forall entry_good es /\
     chosen_unit s' = (if units =? 0 then default (chosen_unit s) (first_unit es) else chosen_unit s)) /\
  (ok = true -> Forall entry_good es -> Forall entry_mappable es -> ok' = true).
Proof.
  induction es as [|e es IH]; intros units ok s Hk Hes Hu.
  { exists ok, s. cbn [probe_list]. unfold units_of. cbn. rewrite Z.add_0_r. split; [done|]. split; [done|]. split; [done|]. split; [|done]. intros ->. split_and!; try done. by destruct (units =? 0). }
  apply Forall_cons in Hes as [He Hes]. cbn [probe_list]. destruct (probe_one_spec e units ok s Hk He Hu) as (b & s1 & E1 & K1 & U1 & G1 & G2 & C1).
  destruct (IH (units + (if is_unit e then 1 else 0)) (ok && b) s1 K1 Hes) as (ok' & s' & E & K' & U' & H' & H''); [destruct (is_unit e); lia|].
  exists ok', s'. unfold seq at 1. rewrite E1. cbn [mbind option_bind fst snd]. rewrite E, units_cons, Z.add_assoc. split; [done|]. split; [done|]. split; [by etrans|]. split.
  - intros Hok. destruct (H' Hok) as (Hob & Hg & Hc). apply andb_true_iff in Hob as [-> Hb]. specialize (C1 Hb). split; [done|]. split; [by constructor; [apply G1|]|].
    rewrite Hc, C1, (first_unit_cons e es). destruct (is_unit e) eqn:Eu.
    + replace (units + 1 =? 0) with false by lia. by destruct (units =? 0).
    + rewrite Z.add_0_r, (first_unit_other e Eu). by destruct (units =? 0).
  - intros -> Hg Hm. apply Forall_cons in Hg as [Hg Hgs]. apply Forall_cons in Hm as [Hm Hms]. apply H''; [|done|done]. by rewrite G2.
Qed.

(** ** The table *)

(** What is known of the memory at the address of the table: it is as long as its header says. *)
Record table_memory (t : list Z) : Prop := {
  tm_bytes : bytes t;
  tm_header : (36 <= length t)%nat;
  tm_length : forall n, header_length t = Some n -> (Z.to_nat n <= length t)%nat;
}.
(** The entries of a table with header length [n]. *)
Definition table_body (t : list Z) (n : Z) : list Z := segment_of t sizeof_DmarTable (Z.to_nat n).

(** The table holds the entries [es], which describe at least one unit. *)
Record describes (t : list Z) (es : list Entry) : Prop := {
  ds_header : header_valid t = true;
  ds_body : exists n, header_length t = Some n /\ Z.of_nat sizeof_DmarTable <= n /\ table_body t n = encode es;
  ds_entries : Forall entry_ok es /\ Forall entry_good es;
  ds_unit : 0 < units_of es;
}.
(** The driver took the description over. *)
Record adopted (t : list Z) (es : list Entry) s : Prop := {
  ad_count : hardware_unit_count (vtd (iommu s)) = units_of es;
  ad_unit : first_unit es = Some (chosen_unit s);
  ad_width : t !! 37%nat = Some (dmar_flags (vtd (iommu s))) /\
    exists w, t !! 36%nat = Some w /\ host_address_width (vtd (iommu s)) = (w + 1) mod 256;
}.

Lemma le_one t o b : t !! o = Some b -> le 1 t o = Some b.
Proof. intros E. unfold le. rewrite (drop_S _ _ _ E). cbn [take length Nat.eqb dec foldr]. rewrite take_0. cbn [foldr]. f_equal. lia. Qed.

Lemma first_unit_some es : 0 < units_of es -> is_Some (first_unit es).
Proof.
  unfold units_of, first_unit. induction es as [|e es IH]; cbn [List.filter List.find]; [cbn; lia|]. destruct (is_unit e) eqn:E; [|done]. by destruct e.
Qed.

(** The driver after the reset, the table's fields read. *)
Definition table_read (flags width : Z) s : PS :=
  MkProbe (MkIommu (set_table flags ((width + 1) mod 256) vtd_reset) (replicate IovaDomainCapacity no_domain)
    (memory (iommu s)) (Vtd.pool (iommu s)) (hw (iommu s))) (kernel_paging s).

(** The outcome of a probe. *)
Record probe_post (s : PS) (b : bool) (s' : PS) : Prop := {
  pb_ok : dm_ok (kernel_paging s');
  pb_idle : Idle (iommu s');
  pb_complete : probe_complete (vtd (iommu s')) = b;
  pb_memory : memory (iommu s') = memory (iommu s) /\ Vtd.pool (iommu s') = Vtd.pool (iommu s);
}.

Lemma untouched_probed s s' fl w : dm_ok (kernel_paging s') -> untouched (table_read fl w s) s' -> probe_post s false s'.
Proof.
  intros Hk [U1 U2 U3 U4 U5 U6 U7 U8 U9]. constructor; [done| |done|done].
  constructor; [done|by split|done|]. split; [done|]. cbn. unfold VtdClaims.flags. by rewrite U7.
Qed.

Lemma complete_probed s s' units : probe_post s false s' -> probe_post s true (MkProbe (set_vtd (set_probed units) (iommu s')).2 (kernel_paging s')).
Proof. intros [Pk [I1 I2 I3 I4] Pc Pm]. constructor; [done| |done|done]. constructor; [exact I1|exact I2|exact I3|exact I4]. Qed.

(** A table with a valid header: the outcome follows from its entries. *)
Lemma ProbeVtd_walk a t n es rest s : a <> 0 -> bytes t -> header_length t = Some n -> header_valid t = true ->
  Z.of_nat sizeof_DmarTable <= n -> (Z.to_nat n <= length t)%nat -> table_body t n = encode es ++ rest -> Forall entry_ok es ->
  rest = [] \/ malformed rest -> dm_ok (kernel_paging s) -> exists b s',
  ProbeVtd a t s = Some (b, s') /\ probe_post s b s' /\
  (b = true -> rest = [] /\ 0 < units_of es /\ Forall entry_good es /\ adopted t es s') /\
  (rest = [] -> 0 < units_of es -> Forall entry_good es -> Forall entry_mappable es -> b = true).
Proof.
  intros Ha Ht Hn Hv H48 Hl E Hes Hr Hk. unfold sizeof_DmarTable in H48.
  destruct (lookup_lt_is_Some_2 t 36 ltac:(lia)) as [w Hw]. destruct (lookup_lt_is_Some_2 t 37 ltac:(lia)) as [fl Hfl].
  assert (ProbeVtd a t s = seq (probe_entries (S (length t)) t sizeof_DmarTable (Z.to_nat n) 0 true) (fun walked => match walked with
      | None => done false
      | Some (units, probe_ok) => if units =? 0 then done false else if negb probe_ok then done false else
          seq (act (set_vtd (set_probed units))) (fun _ => done true) end) (table_read fl w s)) as ->.
  { unfold ProbeVtd, seq at 1. cbn [act mbind option_bind]. rewrite (proj2 (Z.eqb_neq a 0) Ha). rewrite (read_seq _ _ _ _ Hn), Hv.
    unfold sizeof_DmarTable at 1. rewrite (proj2 (Nat.ltb_ge _ _)) by lia. cbn [orb negb].
    by rewrite (read_seq _ _ _ _ (le_one _ _ _ Hw)), (read_seq _ _ _ _ (le_one _ _ _ Hfl)). }
  unfold seq at 1. rewrite (walk es rest) by (done || lia). unfold seq at 2.
  destruct (probe_list_spec es 0 true (table_read fl w s) Hk Hes ltac:(lia)) as (ok & s' & -> & K' & U & Hok & Hgo). cbn [mbind option_bind done].
  pose proof (untouched_probed s s' fl w K' U) as P. rewrite Z.add_0_l. destruct (decide (rest = [])) as [->|Hne]; [|by exists false, s'].
  destruct (units_of es =? 0) eqn:Eu; [exists false, s'; split; [done|]; split; [done|]; split; [done|lia]|].
  destruct ok; [|exists false, s'; split; [done|]; split; [done|]; split; [done|]; naive_solver].
  eexists true, _. split; [done|]. split; [exact (complete_probed s s' (units_of es) P)|]. split; [|done]. intros _.
  destruct (Hok eq_refl) as (_ & Hg & Hc). assert (0 < units_of es) as Hpos by (unfold units_of in *; lia). split; [done|]. split; [done|]. split; [done|].
  destruct (first_unit_some es Hpos) as [u Hu]. rewrite Hu in Hc. cbn in Hc. destruct U as [_ _ _ _ _ _ _ _ [Uf Uw]].
  constructor; [done|by rewrite Hu, <- Hc|]. cbn. cbn in Uf, Uw. rewrite Uf, Uw. split; [done|]. by exists w.
Qed.

Lemma ProbeVtd_spec a t s : dm_ok (kernel_paging s) -> table_memory t -> exists b s',
  ProbeVtd a t s = Some (b, s') /\ probe_post s b s' /\ (b = true -> exists es, describes t es /\ adopted t es s').
Proof.
  intros Hk [Ht H36 Hlen]. set (s0 := MkProbe (reset_driver (iommu s)) (kernel_paging s)).
  assert (probe_post s false s0) as P0 by (constructor; [done|constructor; done|done|done]).
  destruct (decide (a = 0)) as [->|Ha]; [by exists false, s0|]. destruct (header_length_reads t H36) as [n Hn]. specialize (Hlen n Hn).
  destruct ((Z.to_nat n <? sizeof_DmarTable)%nat || negb (header_valid t)) eqn:Et.
  { exists false, s0. split; [|done]. unfold ProbeVtd, seq at 1. cbn [act mbind option_bind]. rewrite (proj2 (Z.eqb_neq a 0) Ha), (read_seq _ _ _ _ Hn). by rewrite Et. }
  apply orb_false_iff in Et as [Et Hv%negb_false_iff].
  destruct (decode_all (length (table_body t n)) (table_body t n) (le_n _) (segment_bytes _ _ _ Ht)) as (es & rest & E & Hes & Hrest).
  destruct (ProbeVtd_walk a t n es rest s Ha Ht Hn Hv ltac:(unfold sizeof_DmarTable in *; lia) Hlen E Hes Hrest Hk) as (b & s' & R & P & Ht' & _).
  exists b, s'. split; [done|]. split; [done|]. intros ->. destruct (Ht' eq_refl) as (-> & Hu & Hg & Had). exists es. split; [|done].
  constructor; [done| |done|done]. exists n. rewrite app_nil_r in E. split; [done|]. split; [|done]. unfold sizeof_DmarTable in *; lia.
Qed.

(** C32: Whatever the firmware put into the DMAR table, the probe stays inside the table (a read
    outside of it, or a failed assertion of the mapping code, would be no result) and ends.  It leaves
    the driver idle: no device address space, no root table, no invalidation queue, no interrupt
    handed out, no page allocated and no memory written by the probe itself.  [probe_complete] is the
    returned value; after a failed probe the activation of the unit does nothing and reports
    success, so that the kernel runs without remapping. *)
Theorem ProbeVtd_total a t root s : dm_ok (kernel_paging s) -> table_memory t ->
  exists b s', ProbeVtd a t s = Some (b, s') /\ probe_post s b s' /\
    (b = false -> EnableVtdPassthrough root (iommu s') = (true, iommu s')).
Proof.
  intros Hk Ht. destruct (ProbeVtd_spec a t s Hk Ht) as (b & s' & E & P & _). exists b, s'. split; [done|]. split; [done|]. intros ->.
  destruct P as [_ _ Pc _]. unfold EnableVtdPassthrough, bind, get_vtd. by rewrite Pc.
Qed.

(** C33: A successful probe read a table of the grammar: the bytes behind the header are exactly the
    encoding of a list of entries, the device scopes of every hardware unit and reserved range are
    well formed, every unit has a page-aligned register window that does not wrap, and there is a
    unit.  The driver holds the number of units, the first unit of the table (its segment, registers
    and include-all flag), the flags and the host address width of the table. *)
Theorem ProbeVtd_sound a t s s' : dm_ok (kernel_paging s) -> table_memory t -> ProbeVtd a t s = Some (true, s') ->
  exists es, describes t es /\ adopted t es s'.
Proof. intros Hk Ht E. destruct (ProbeVtd_spec a t s Hk Ht) as (b & s1 & E1 & _ & Hb). rewrite E in E1. simplify_eq. by apply Hb. Qed.

(** C34: Conversely every table that is the encoding of such entries is accepted, if the page table
    takes the register windows, and the driver holds what the entries say: no valid table is
    rejected, whatever entries of unknown types and whatever device scopes it has. *)
Theorem ProbeVtd_complete a t es s : dm_ok (kernel_paging s) -> table_memory t -> a <> 0 -> describes t es -> Forall entry_mappable es ->
  exists s', ProbeVtd a t s = Some (true, s') /\ adopted t es s'.
Proof.
  intros Hk [Ht _ Hlen] Ha [Hv (n & Hn & H48 & E) [Hes Hg] Hu] Hm. rewrite <- (app_nil_r (encode es)) in E.
  destruct (ProbeVtd_walk a t n es [] s Ha Ht Hn Hv H48 (Hlen n Hn) E Hes (or_introl eq_refl) Hk) as (b & s' & R & _ & Had & Hb).
  assert (b = true) as -> by auto. exists s'. split; [done|]. by apply Had.
Qed.

End Claims.

(** ** The kernel's page table implements the interface *)
Section Kernel.
Context `{PagingConstants} `{!PageShiftLaws} {M : Type} `{!Mempool M} {PT : Type} `{!PageTable PT} (pg : Z).

#[local] Instance registry_device_map : DeviceMap (Registry M * PT) := {| dm_map := map_device_page pg |}.

(** On a well-formed registry no assertion of [MapPages] fails. *)
Lemma registry_device_map_total (a : Z) (k : Registry M * PT) : 0 <= PAGESIZE_ANY -> registry_ok (records k.1) -> is_u64 a ->
  exists b k', dm_map a k = Some (b, k') /\ registry_ok (records k'.1).
Proof.
  intros Hsz Hk Ha. cbn [dm_map registry_device_map]. unfold map_device_page.
  match goal with |- context [MapPages _ _ _ _ _ _ ?p _] => set (props := p) end.
  assert (is_u64 PAGE_SIZE) as Hp by (unfold is_u64, PAGE_SIZE; lia).
  destruct (MapPages_cases pg k.2 a a PAGE_SIZE PAGESIZE_ANY props k.1 Hk Ha Ha Hp Hsz) as (b & g & pt & E & _).
  rewrite E. cbn. exists b, (g, pt). split; [done|]. cbn. by eapply MapPages_ok; [..|exact E].
Qed.
End Kernel.
