(* ===== verification/DmarWitness.v ===== *)
(** * A probed machine

    A DMAR table with one remapping unit, a reserved range and an entry of another type, probed with
    the registry of physical mappings behind the kernel's page table, and with a plain set of mapped
    windows; then the same table with a truncated entry. *)
From S2P Require Import Prelude Interfaces PagePool Registry Vtd Iova VtdProof VtdClaims VtdEnable VtdStart Dmar DmarProof DmarClaims VtdWitness.

Module DmarWitness.
Import Interfaces.Example VtdWitness.VtdWitness.
#[local] Existing Instance ObedientUnit.

(** The header of ACPI: signature, length, and bytes that add up to zero. *)
#[local] Instance PlainHeader : AcpiHeader := {
  header_length t := le 4 t 4;
  header_valid t := bool_decide (take 4 t = [68; 77; 65; 82]) && (foldr Z.add 0 t mod 256 =? 0);
}.
#[local] Instance PlainHeaderLaws : AcpiHeaderLaws.
Proof.
  constructor. intros t Ht. cbn. unfold le. rewrite length_take, length_drop. by replace (4 `min` (length t - 4))%nat with 4%nat by lia.
Qed.

Definition es : list Entry := [
  OtherEntry 2 [0; 0; 0; 0];
  HardwareUnit 1 0 0 0xFED90000 (encode_scopes [MkScope 1 0 0 2 0 [(29, 0); (1, 0)]; MkScope 3 0 0 8 0 [(30, 7)]]);
  ReservedMemory 0 0 0x7B800000 0x7BFFFFFF (encode_scopes [MkScope 1 0 0 0 0 [(2, 0)]]);
  HardwareUnit 0 0 0 0xFED91000 []].

Definition body : list Z := [38; 1] ++ replicate 10 0 ++ encode es.
Definition header (sum : Z) : list Z := [68; 77; 65; 82] ++ enc 4 (Z.of_nat (36 + length body)) ++ [1; sum] ++ replicate 26 0.
Definition dmar : list Z := header ((- foldr Z.add 0 (header 0 ++ body)) mod 256) ++ body.
(** The same table, cut in the middle of its last entry. *)
Definition cut_body : list Z := take (length body - 3) body.
Definition cut_header (sum : Z) : list Z := [68; 77; 65; 82] ++ enc 4 (Z.of_nat (36 + length cut_body)) ++ [1; sum] ++ replicate 26 0.
Definition cut : list Z := cut_header ((- foldr Z.add 0 (cut_header 0 ++ cut_body)) mod 256) ++ cut_body.

Lemma bytes_check l : forallb (fun b => (0 <=? b) && (b <? 256)) l = true -> bytes l.
Proof. rewrite forallb_forall. intros Hb. apply Forall_forall. intros x Hx. apply list_elem_of_In, Hb in Hx. unfold byte. lia. Qed.

Lemma table_check t n : bool_decide (header_length t = Some n) && forallb (fun b => (0 <=? b) && (b <? 256)) t
  && (36 <=? length t)%nat && (Z.to_nat n <=? length t)%nat = true -> table_memory t.
Proof. rewrite !andb_true_iff. intros [[[E%bool_decide_eq_true Hb] H36] Hn]. constructor; [by apply bytes_check|lia|]. intros m Em. rewrite E in Em. simplify_eq. lia. Qed.

Lemma dmar_memory : table_memory dmar.
Proof. apply (table_check dmar 138). vm_compute. reflexivity. Qed.
Lemma cut_memory : table_memory cut.
Proof. apply (table_check cut 135). vm_compute. reflexivity. Qed.

(** ** With the registry of physical mappings *)
Section Registered.
#[local] Instance KernelMap : DeviceMap (Registry Pool * Table) := registry_device_map 7.
#[local] Instance KernelMapLaws : DeviceMapLaws (Registry Pool * Table) := {
  dm_ok k := registry_ok (records k.1);
  dm_map_total a k Hk Ha := registry_device_map_total 7 a k (Z.le_refl 0) Hk Ha;
}.
Definition machine : ProbeState (list Z) (gmap Z Z) (Registry Pool * Table) :=
  MkProbe boot (MkRegistry [] (MkPool 0x10000 0x100000 []), ∅).

Lemma machine_ok : dm_ok (kernel_paging machine).
Proof. split; constructor. Qed.

(** The table is accepted and its windows are mapped; the cut one is refused. *)
Lemma probe_total_witness :
  (exists b s', ProbeVtd 0xE0000 cut machine = Some (b, s') /\ probe_post machine b s' /\
    (b = false -> EnableVtdPassthrough pci_root (iommu s') = (true, iommu s'))) /\
  fst <$> ProbeVtd 0xE0000 cut machine = Some false /\ fst <$> ProbeVtd 0xE0000 dmar machine = Some true.
Proof.
  split; [|split; vm_compute; reflexivity].
  apply (ProbeVtd_total 0xE0000 cut pci_root machine machine_ok cut_memory).
Defined.

Definition found : ProbeState (list Z) (gmap Z Z) (Registry Pool * Table) :=
  from_option snd machine (ProbeVtd 0xE0000 dmar machine).

Lemma probe_runs : ProbeVtd 0xE0000 dmar machine = Some (true, found).
Proof. unfold found. assert (fst <$> ProbeVtd 0xE0000 dmar machine = Some true) as E by (vm_compute; reflexivity). by destruct (ProbeVtd 0xE0000 dmar machine) as [[b s']|]; cbn in *; simplify_eq. Qed.

Lemma probe_sound_witness : (exists l, describes dmar l /\ adopted dmar l found) /\ registers (vtd (iommu found)) = 0xFED90000.
Proof.
  split; [|vm_compute; reflexivity].
  apply (ProbeVtd_sound 0xE0000 dmar machine found machine_ok dmar_memory). exact probe_runs.
Defined.
End Registered.

(** ** With a set of windows *)
Section Windows.
#[local] Instance WindowMap : DeviceMap (gset Z) := {| dm_map a k := Some (true, {[a]} ∪ k) |}.
Lemma window_map_total a (k : gset Z) : True -> is_u64 a -> exists b k', dm_map a k = Some (b, k') /\ True.
Proof. by eexists true, _. Qed.
#[local] Instance WindowMapLaws : DeviceMapLaws (gset Z) := {| dm_ok _ := True; dm_map_total := window_map_total |}.

Lemma es_described : describes dmar es.
Proof.
  constructor; [vm_compute; reflexivity| | |vm_compute; reflexivity].
  - exists 138. split; [vm_compute; reflexivity|]. split; [vm_compute; discriminate|]. vm_compute. reflexivity.
  - assert (forall e, e ∈ es -> entry_ok e /\ entry_good e) as Hall.
    { intros e He. unfold es in He. rewrite !elem_of_cons, elem_of_nil in He. unfold entry_ok, entry_good, window_ok, is_u64.
      destruct He as [->|[->|[->|[->|[]]]]]; (split; [split; [vm_compute; reflexivity|split; [apply bytes_check; vm_compute; reflexivity|cbn [DmarProof.payload]; lia]]|split]);
        try solve [by eexists|by exists []]; intros ? [= <-]; split; vm_compute; reflexivity. }
    split; apply Forall_forall; intros e He; by apply Hall.
Qed.

Lemma probe_complete_witness : exists s', ProbeVtd 0xE0000 dmar (MkProbe boot (∅ : gset Z)) = Some (true, s') /\ adopted dmar es s'.
Proof.
  assert (dm_ok (∅ : gset Z)) as Hk by exact I.
  apply (ProbeVtd_complete 0xE0000 dmar es (MkProbe boot (∅ : gset Z)) Hk dmar_memory ltac:(discriminate) es_described).
  apply Forall_forall. intros e _ base _ k _. by exists ({[base]} ∪ k).
Defined.
End Windows.

End DmarWitness.
