(* ===== verification/PageRefs.v ===== *)
(** * References to physical pages

    What the page manager and the memory pool together promise to their clients, the file caches:
    a page is handed out raw, becomes managed when it is adopted, and lives as long as somebody
    holds a mapping or a cache reference to it.  [PageRefs] is the interface and [PageRefsLaws] its
    contract; the instance for [PageManager] discharges the contract from the theorems on the
    manager and the laws of the pool. *)
From S2P Require Import Prelude Interfaces ManagedPages.

Class PageRefs (P : Type) := {
  (** [mempool.allocate(PAGE_SIZE, 12)]; [None] for a null or all-ones pointer. *)
  pr_allocate : P -> option Z * P;
  (** [mempool.deallocate(pa, PAGE_SIZE)] *)
  pr_deallocate : Z -> P -> P;
  (** [Memory::AdoptManagedPage(pa, File)]; the two booleans are the outcomes of its [new]s. *)
  pr_adopt : bool -> bool -> Z -> P -> bool * P;
  (** [RetainManagedPageMapping] and [RetainManagedPageCache] *)
  pr_retain : Z -> bool -> P -> bool * P;
  (** [ReleaseManagedPageMapping] and [ReleaseManagedPageCache] *)
  pr_release : Z -> bool -> P -> bool * P;
  (** [QueryManagedPage]: the mapping and the cache references. *)
  pr_query : Z -> P -> option (Z * Z);
}.

(** One more or one less reference of a kind. *)
Definition bump (cache : bool) (d : Z) (mc : Z * Z) : Z * Z :=
  if cache then (mc.1, mc.2 + d) else (mc.1 + d, mc.2).
Definition kind (cache : bool) (mc : Z * Z) : Z := if cache then mc.2 else mc.1.

(** The page after a reference is gone; unreferenced pages are no longer managed. *)
Definition released (cache : bool) (mc : Z * Z) : option (Z * Z) :=
  let mc' := bump cache (-1) mc in if (mc'.1 =? 0) && (mc'.2 =? 0) then None else Some mc'.

Class PageRefsLaws (P : Type) `{PageRefs P} := {
  pr_ok : P -> Prop;
  (** Handed out and not managed. *)
  pr_raw : P -> Z -> Prop;
  pr_query_ok : forall s pa m c, pr_ok s -> pr_query pa s = Some (m, c) -> pa <> 0 /\ 0 <= m /\ 0 <= c;
  pr_raw_query : forall s pa, pr_raw s pa -> pr_query pa s = None;
  pr_allocate_spec : forall s o s', pr_ok s -> pr_allocate s = (o, s') -> pr_ok s' /\
    (forall a, pr_query a s' = pr_query a s) /\
    match o with
    | None => forall q, pr_raw s' q <-> pr_raw s q
    | Some p => p <> 0 /\ pr_query p s = None /\ ~ pr_raw s p /\ forall q, pr_raw s' q <-> pr_raw s q \/ q = p
    end;
  pr_deallocate_spec : forall s p, pr_ok s -> pr_raw s p -> let s' := pr_deallocate p s in pr_ok s' /\
    (forall a, pr_query a s' = pr_query a s) /\ forall q, pr_raw s' q <-> pr_raw s q /\ q <> p;
  pr_adopt_spec : forall s p x y b s', pr_ok s -> pr_raw s p -> pr_adopt x y p s = (b, s') -> pr_ok s' /\
    (forall a, pr_query a s' = if (a =? p) && b then Some (1, 0) else pr_query a s) /\
    forall q, pr_raw s' q <-> pr_raw s q /\ q <> p;
  pr_retain_spec : forall s p c b s', pr_ok s -> pr_retain p c s = (b, s') -> pr_ok s' /\
    (forall q, pr_raw s' q <-> pr_raw s q) /\
    (b = true -> is_Some (pr_query p s)) /\
    (forall a, pr_query a s' = if (a =? p) && b then bump c 1 <$> pr_query p s else pr_query a s);
  pr_release_spec : forall s p c b s', pr_ok s -> pr_release p c s = (b, s') -> pr_ok s' /\
    (forall q, pr_raw s' q <-> pr_raw s q) /\
    b = match pr_query p s with Some mc => 0 <? kind c mc | None => false end /\
    (forall a, pr_query a s' = if (a =? p) && b then mc ← pr_query p s; released c mc else pr_query a s);
}.

(** ** The page manager keeps the contract *)
Section Manager.
Context {M : Type} `{!Mempool M} `{!MempoolLaws M}.

(** The shared pointer's own allocation counts as one of the [new]s: its failure disposes of the
    page as theirs does. *)
#[export] Instance manager_refs : PageRefs (PageManager M) := {
  pr_allocate s := let '(p, pl) := mp_allocate (pages s) PAGE_SIZE 12 0 in
    (if alloc_failed p then None else Some p, MkManager (buckets s) pl);
  pr_deallocate pa s := free_page pa s;
  pr_adopt x y pa s := AdoptManagedPage (fun _ s => (true, s)) x y pa File s;
  pr_retain pa c s := RetainManagedPageReference pa c s;
  pr_release pa c s := ReleaseManagedPageReference pa c s;
  pr_query pa s := (fun p => (mapping_refs p, cache_refs p)) <$> QueryManagedPage pa s;
}.

Definition page_owned (s : PageManager M) (p : Z) : Prop :=
  0 < p /\ p mod 4096 = 0 /\ p + 4096 <= two64 /\ forall q, p <= q < p + 4096 -> mp_owned (pages s) q.

Definition refs_ok (s : PageManager M) : Prop :=
  manager_ok s /\ forall p r, FindManagedPageRecord p s = Some r -> page_owned s p.

Definition raw_page (s : PageManager M) (p : Z) : Prop := page_owned s p /\ FindManagedPageRecord p s = None.

(** Owned pages after one block of the pool went back. *)
Lemma page_owned_deallocate (s s' : PageManager M) p : page_owned s p -> pages s' = (mp_deallocate (pages s) p PAGE_SIZE).2 ->
  forall q, page_owned s' q <-> page_owned s q /\ q <> p.
Proof.
  intros (P1 & P2 & P3 & P4) E q. unfold page_owned. rewrite E.
  pose proof (mp_deallocate_block (pages s) p PAGE_SIZE ltac:(done) ltac:(done) P2 P4) as Hd. unfold PAGE_SIZE in Hd. split.
  - intros (Q1 & Q2 & Q3 & Q4). split_and!; try done.
    + intros a Ha. by apply Hd, Q4.
    + intros ->. apply (Hd p); [apply Q4; lia|lia].
  - intros [(Q1 & Q2 & Q3 & Q4) Hne]. split_and!; try done. intros a Ha. apply Hd. split; [by apply Q4|lia].
Qed.

Lemma page_owned_same (s s' : PageManager M) p : pages s' = pages s -> page_owned s' p <-> page_owned s p.
Proof. unfold page_owned. by intros ->. Qed.

Lemma allocate_refs (s : PageManager M) o s' : refs_ok s -> pr_allocate s = (o, s') -> refs_ok s' /\
  (forall a, FindManagedPageRecord a s' = FindManagedPageRecord a s) /\
  match o with
  | None => forall q, page_owned s' q <-> page_owned s q
  | Some p => p <> 0 /\ ~ page_owned s p /\ forall q, page_owned s' q <-> page_owned s q \/ q = p
  end.
Proof.
  intros [Hok Hown]. cbn. destruct (mp_allocate (pages s) PAGE_SIZE 12 0) as [p pl] eqn:E. unfold alloc_failed. destruct (decide (p = 0)) as [->|Hnz].
  - intros [= <- <-]. pose proof (mp_allocate_none _ _ _ E) as Hn.
    assert (forall q, page_owned (MkManager (buckets s) pl) q <-> page_owned s q) as Ho.
    { intros q. unfold page_owned; cbn [pages]. by setoid_rewrite Hn. }
    split; [|done]. split; [done|]. intros q r Hq. apply Ho. by eapply Hown.
  - destruct (mp_allocate_block _ PAGE_SIZE _ _ ltac:(done) ltac:(done) E Hnz) as (A1 & A2 & A3 & A4 & A5). unfold PAGE_SIZE in *.
    replace ((p =? 0) || (p =? UMAX)) with false by (unfold UMAX; lia). intros [= <- <-].
    assert (forall q, page_owned (MkManager (buckets s) pl) q <-> page_owned s q \/ q = p) as Ho.
    { intros q. unfold page_owned; cbn [pages]. split.
      - intros (Q1 & Q2 & Q3 & Q4). destruct (decide (q = p)) as [->|Hne]; [by right|left]. split_and!; try done.
        intros a Ha. destruct (proj1 (A5 a) (Q4 a Ha)) as [?|?]; [done|lia].
      - intros [(Q1 & Q2 & Q3 & Q4)| ->]; (split_and!; [lia|lia|lia|]); intros a Ha; apply A5; [left; by apply Q4|by right]. }
    split; [split; [done|]|split; [done|split; [done|split; [|done]]]].
    + intros q r Hq. apply Ho. left. by eapply Hown.
    + intros (_ & _ & _ & Hin). apply (A4 p); [lia|]. apply Hin. lia.
Qed.

Lemma deallocate_refs (s : PageManager M) p : refs_ok s -> raw_page s p -> let s' := pr_deallocate p s in refs_ok s' /\
  (forall a, FindManagedPageRecord a s' = FindManagedPageRecord a s) /\ forall q, page_owned s' q <-> page_owned s q /\ q <> p.
Proof.
  intros [Hok Hown] [Ho Hn] s'. pose proof (page_owned_deallocate s s' p Ho eq_refl) as Hd. split; [|done]. split; [done|].
  intros q r Hq. apply Hd. split; [by eapply Hown|]. intros ->. cbn in Hq. unfold free_page, FindManagedPageRecord, chain_of in *. cbn in Hq. congruence.
Qed.

Lemma adopt_refs (s : PageManager M) p x y b s' : refs_ok s -> raw_page s p -> pr_adopt x y p s = (b, s') -> refs_ok s' /\
  (forall a, FindManagedPageRecord a s' = if (a =? p) && b then Some (MkPage p File 1 0) else FindManagedPageRecord a s) /\
  forall q, page_owned s' q <-> page_owned s q /\ (q <> p \/ b = true).
Proof.
  intros [Hok Hown] [Ho Hn]. cbn [pr_adopt manager_refs]. destruct (manager_represents s Hok) as [m Hr].
  pose proof (adopt_map (fun _ s => (true, s)) x y p File s m Hok Hr eq_refl) as Ha. destruct (AdoptManagedPage _ _ _ _ _ _) as [b' s2].
  intros [= <- <-]. destruct Ha as (Hb & Hok2 & Hr2 & Hp).
  assert (m !! p = None) as Hmp by by rewrite <- Hr. destruct Ho as (P1 & P2 & P3 & P4).
  assert (valid_page p = true) as Hv. { unfold valid_page. change (Z.land p (PAGE_SIZE - 1)) with (page_offset p). rewrite page_offset_mod. unfold truthy, UMAX. lia. }
  rewrite Hv in Hb, Hp. rewrite bool_decide_eq_true_2 in Hb by done. cbn [andb] in Hb, Hp. rewrite andb_true_r in Hb. rewrite <- Hb in Hp.
  replace ((p =? 0) || (p =? UMAX)) with false in Hp by (unfold UMAX; lia).
  assert (forall a, FindManagedPageRecord a s2 = if (a =? p) && b' then Some (MkPage p File 1 0) else FindManagedPageRecord a s) as Hf.
  { intros a. rewrite (Hr2 a), (Hr a). destruct b'; [|by rewrite andb_false_r]. rewrite andb_true_r. destruct (a =? p) eqn:E.
    - apply Z.eqb_eq in E as ->. by rewrite lookup_insert_eq.
    - by rewrite lookup_insert_ne by lia. }
  assert (forall q, page_owned s2 q <-> page_owned s q /\ (q <> p \/ b' = true)) as Hq.
  { intros q. destruct b'.
    - rewrite (page_owned_same s s2) by done. split; [intros; split; [done|by right]|by intros [? _]].
    - rewrite (page_owned_deallocate s s2 p) by done. split; intros [? ?]; (split; [done|]); [by left|naive_solver]. }
  split; [|done]. split; [done|]. intros q r. rewrite Hf. intros Hfq. apply Hq. destruct (decide (q = p)) as [->|Hne].
  - rewrite Z.eqb_refl in Hfq. destruct b'; cbn [andb] in Hfq; [|congruence]. split; [done|by right].
  - replace (q =? p) with false in Hfq by lia. split; [by eapply Hown|by left].
Qed.

Lemma retain_refs (s : PageManager M) p c b s' : refs_ok s -> pr_retain p c s = (b, s') -> refs_ok s' /\ pages s' = pages s /\
  (b = true -> is_Some (FindManagedPageRecord p s)) /\
  (forall a, FindManagedPageRecord a s' = if (a =? p) && b then (fun r => set_refs c (refs c r + 1) r) <$> FindManagedPageRecord p s else FindManagedPageRecord a s).
Proof.
  intros [Hok Hown]. cbn [pr_retain manager_refs]. destruct (manager_represents s Hok) as [m Hr]. pose proof (retain_map p c s m Hok Hr) as Hm.
  destruct (RetainManagedPageReference p c s) as [b' s2]. unfold spec_retain in Hm. intros [= <- <-]. rewrite (Hr p).
  assert (b' = true -> is_Some (m !! p)) as Hsome. { destruct (m !! p); [eauto|]. destruct Hm as (-> & _). done. }
  assert (forall a, FindManagedPageRecord a s2 = if (a =? p) && b' then (fun r => set_refs c (refs c r + 1) r) <$> m !! p else m !! a) as Hf.
  { intros a. destruct (m !! p) as [r|] eqn:Ep; [|destruct Hm as (-> & Hr2 & _); by rewrite andb_false_r].
    destruct (refs c r =? UMAX); destruct Hm as (-> & Hr2 & _); [by rewrite andb_false_r|]. rewrite andb_true_r, (Hr2 a).
    destruct (a =? p) eqn:E; [|by rewrite lookup_insert_ne by lia]. apply Z.eqb_eq in E as ->. by rewrite lookup_insert_eq. }
  assert (manager_ok s2 /\ pages s2 = pages s) as [Hok2 Hp2].
  { destruct (m !! p) as [r|]; [destruct (refs c r =? UMAX)|]; destruct Hm as (_ & _ & ? & ?); done. }
  split; [|split; [done|split; [done|intros a; rewrite Hf, <- !Hr; done]]]. split; [done|]. intros q r. rewrite Hf. intros Hq. rewrite (page_owned_same s s2) by done.
  destruct (decide (q = p)) as [->|Hne]; [|replace (q =? p) with false in Hq by lia; cbn in Hq; rewrite <- Hr in Hq; by eapply Hown].
  destruct (m !! p) as [r'|] eqn:Ep; [|by destruct ((p =? p) && b')]. rewrite <- Hr in Ep. by eapply Hown.
Qed.

Lemma release_refs (s : PageManager M) p c b s' : refs_ok s -> pr_release p c s = (b, s') -> refs_ok s' /\
  b = match FindManagedPageRecord p s with Some r => negb (refs c r =? 0) | None => false end /\
  (forall a, FindManagedPageRecord a s' = if (a =? p) && b then r ← FindManagedPageRecord p s;
    let r' := set_refs c (refs c r - 1) r in if unreferenced r' then None else Some r' else FindManagedPageRecord a s) /\
  forall q, raw_page s' q <-> raw_page s q.
Proof.
  intros [Hok Hown]. cbn [pr_release manager_refs]. destruct (manager_represents s Hok) as [m Hr]. pose proof (release_map p c s m Hok Hr) as Hm.
  destruct (ReleaseManagedPageReference p c s) as [b' s2]. unfold spec_release in Hm. intros [= <- <-]. rewrite (Hr p).
  destruct (m !! p) as [r|] eqn:Ep; cbn [mbind option_bind].
  2: { destruct Hm as (-> & Hr2 & Hok2 & Hp). assert (forall a, FindManagedPageRecord a s2 = FindManagedPageRecord a s) as Hf by (intros a; by rewrite (Hr2 a), (Hr a)).
       split; [split; [done|]|split; [done|split]].
       - intros q r Hq. rewrite (page_owned_same s s2) by done. rewrite Hf in Hq. by eapply Hown.
       - intros a. by rewrite andb_false_r.
       - intros q. unfold raw_page. by rewrite Hf, (page_owned_same s s2). }
  destruct (refs c r =? 0) eqn:Ez; cbn [negb].
  { destruct Hm as (-> & Hr2 & Hok2 & Hp). assert (forall a, FindManagedPageRecord a s2 = FindManagedPageRecord a s) as Hf by (intros a; by rewrite (Hr2 a), (Hr a)).
    split; [split; [done|]|split; [done|split]].
    - intros q r' Hq. rewrite (page_owned_same s s2) by done. rewrite Hf in Hq. by eapply Hown.
    - intros a. by rewrite andb_false_r.
    - intros q. unfold raw_page. by rewrite Hf, (page_owned_same s s2). }
  assert (page_owned s p) as Ho by (eapply Hown; by rewrite Hr).
  set (r' := set_refs c (refs c r - 1) r) in *. destruct (unreferenced r'); destruct Hm as (-> & Hr2 & Hok2 & Hp).
  - pose proof (page_owned_deallocate s s2 p Ho Hp) as Hd.
    assert (forall a, FindManagedPageRecord a s2 = if a =? p then None else FindManagedPageRecord a s) as Hf.
    { intros a. rewrite (Hr2 a), (Hr a). destruct (a =? p) eqn:E; [apply Z.eqb_eq in E as ->; by rewrite lookup_delete_eq|by rewrite lookup_delete_ne by lia]. }
    split; [split; [done|]|split; [done|split]].
    + intros q x. rewrite Hf. destruct (q =? p) eqn:E; [done|]. intros Hq. apply Hd. split; [by eapply Hown|lia].
    + intros a. rewrite andb_true_r. apply Hf.
    + intros q. unfold raw_page. rewrite Hd, Hf. destruct (q =? p) eqn:E; [|split; [tauto|]; intros [? ?]; split_and!; [done|lia|done]].
      apply Z.eqb_eq in E as ->. rewrite Hr, Ep. naive_solver.
  - assert (forall a, FindManagedPageRecord a s2 = if a =? p then Some r' else FindManagedPageRecord a s) as Hf.
    { intros a. rewrite (Hr2 a), (Hr a). destruct (a =? p) eqn:E; [apply Z.eqb_eq in E as ->; by rewrite lookup_insert_eq|by rewrite lookup_insert_ne by lia]. }
    split; [split; [done|]|split; [done|split]].
    + intros q x. rewrite Hf, (page_owned_same s s2) by done. destruct (q =? p) eqn:E; [apply Z.eqb_eq in E as ->; done|]. by apply Hown.
    + intros a. rewrite andb_true_r. apply Hf.
    + intros q. unfold raw_page. rewrite Hf, (page_owned_same s s2) by done. destruct (q =? p) eqn:E; [|done].
      apply Z.eqb_eq in E as ->. rewrite Hr, Ep. naive_solver.
Qed.

#[export, refine] Instance manager_refs_laws : PageRefsLaws (PageManager M) := { pr_ok := refs_ok; pr_raw := raw_page }.
Proof.
  - intros s pa m c [Hok Hown]. cbn. unfold QueryManagedPage. destruct (FindManagedPageRecord pa s) as [r|] eqn:E; [|done]. intros [= <- <-].
    destruct (Hown _ _ E) as (? & _). destruct (found_ok pa s r Hok E) as (_ & [? _] & [? _] & _). split; [lia|done].
  - intros s pa [_ Hn]. cbn. unfold QueryManagedPage. by rewrite Hn.
  - intros s o s' Hok E. destruct (allocate_refs s o s' Hok E) as (Hok' & Hf & Ho). split; [done|].
    split; [intros a; cbn; unfold QueryManagedPage; by rewrite Hf|]. unfold raw_page. destruct o as [p|].
    + destruct Ho as (Hp & Hno & Ho). assert (FindManagedPageRecord p s = None) as Hn.
      { destruct (FindManagedPageRecord p s) as [r|] eqn:Er; [|done]. destruct Hno. by eapply Hok. }
      split_and!; [done|cbn; unfold QueryManagedPage; by rewrite Hn|by intros [? _]|].
      intros q. rewrite Hf, Ho. split; [intros [[?| ->] ?]; [left|right]; done|intros [[? ?]| ->]; split; auto].
    + intros q. by rewrite Hf, Ho.
  - intros s p Hok Hraw s'. destruct (deallocate_refs s p Hok Hraw) as (Hok' & Hf & Ho). split; [done|].
    split; [intros a; cbn; unfold QueryManagedPage; f_equal; apply Hf|]. intros q. unfold raw_page, s'. rewrite Hf, Ho. tauto.
  - intros s p x y b s' Hok Hraw E. destruct (adopt_refs s p x y b s' Hok Hraw E) as (Hok' & Hf & Ho). split; [done|]. split.
    + intros a. cbn. unfold QueryManagedPage. rewrite Hf. by destruct (_ && _).
    + intros q. unfold raw_page. rewrite Hf, Ho. destruct (decide (q = p)) as [->|Hne].
      * rewrite Z.eqb_refl. destruct b; cbn [andb]; naive_solver.
      * replace (q =? p) with false by lia. cbn [andb]. tauto.
  - intros s p c b s' Hok E. destruct (retain_refs s p c b s' Hok E) as (Hok' & Hp & Hs & Hf). split; [done|]. split_and!.
    + intros q. unfold raw_page. rewrite (page_owned_same s s' q Hp), Hf. destruct (decide (q = p)) as [->|Hne].
      * rewrite Z.eqb_refl. destruct b; cbn [andb]; [|done]. destruct (Hs eq_refl) as [r ->]. naive_solver.
      * by replace (q =? p) with false by lia.
    + intros Hb. destruct (Hs Hb) as [r Er]. cbn. unfold QueryManagedPage. rewrite Er. eauto.
    + intros a. cbn. unfold QueryManagedPage. rewrite Hf. destruct (_ && _); [|done].
      destruct (FindManagedPageRecord p s) as [r|]; [|done]. cbn. by destruct c.
  - intros s p c b s' Hok E. destruct (release_refs s p c b s' Hok E) as (Hok' & Hb & Hf & Ho). split; [done|]. split_and!.
    + done.
    + rewrite Hb. cbn. unfold QueryManagedPage. destruct (FindManagedPageRecord p s) as [r|] eqn:Er; [|done].
      destruct (found_ok p s r (proj1 Hok) Er) as (_ & [? _] & [? _] & _). cbn. destruct c; cbn; lia.
    + intros a. cbn. unfold QueryManagedPage. rewrite Hf. destruct (_ && _); [|done].
      destruct (FindManagedPageRecord p s) as [r|]; [|done]. cbn. unfold released, unreferenced. by destruct c; cbn; destruct (_ && _).
Defined.

End Manager.
