(* ===== verification/FileCache.v ===== *)
(** * The cache of clean file pages ([mecocoa/fileman-cache.cpp], lines 24-378, 1249-1290)

    [FileCacheTable] finds the page of a file at a version and an offset; the first thread that
    asks for a page fills it, the others wait for it.  Entries are shared: the table holds one
    owner of an entry and every thread that works with it another; the last owner destroys it and
    gives its cache reference back.  The chains of the 256 buckets are lists of entry identifiers,
    entries live in a heap with the number of their owners.

    Threads interleave: a thread is in one of the places of [PC], and one step is one block under a
    lock, or one call of the page manager.  A table operation is one step together with the
    destruction of the records it unlinked, which no other thread can reach.  A failed [KASSERT],
    or the use of an entry that is gone, is [Failed].  The page manager is behind the interface
    [PageRefs]. *)
From S2P Require Import Prelude Interfaces PageRefs.

(** ** Keys and entries *)

Record FileCacheKey := MkKey { identity : Z; content_version : Z; file_offset : Z }.
#[export] Instance FileCacheKey_eq_dec : EqDecision FileCacheKey.
Proof. solve_decision. Defined.

Definition Valid (k : FileCacheKey) : bool :=
  truthy (identity k) && truthy (content_version k) && negb (truthy (page_offset (file_offset k))).

Inductive FileCacheEntryState := Loading | Ready | Error.
#[export] Instance FileCacheEntryState_eq_dec : EqDecision FileCacheEntryState.
Proof. solve_decision. Defined.

Record FileCacheEntry := MkEntry {
  key : FileCacheKey;
  completion : bool;               (* the mutex is held *)
  state : FileCacheEntryState;
  physical_address : Z;
  owns_cache_reference : bool;
  fills : Z;
  ready_hits : Z;
  waiters : Z;
}.
Definition new_entry (k : FileCacheKey) : FileCacheEntry := MkEntry k true Loading 0 false 0 0 0.

Definition BucketCount : nat := 256.
Definition RetainedPageLimit : Z := 1024.

Definition Bucket (k : FileCacheKey) : nat :=
  let page := file_offset k / PAGE_SIZE in
  let mixed := Z.lxor (Z.lxor (Z.lxor (Z.lxor (Z.lxor (identity k) (Z.shiftr (identity k) 32))
    (content_version k)) (Z.shiftr (content_version k) 32)) page) (Z.shiftr page 32) in
  Z.to_nat (Z.land mixed (Z.of_nat BucketCount - 1)).

(** ** State *)

(** The part of an inode the cache looks at; [i_page] is what a full read of the page at an offset
    yields, with zeros behind the end of the file. *)
Record Inode (C : Type) := MkInode { i_identity : Z; i_version : Z; i_size : Z; i_page : Z -> C }.
Arguments MkInode {C}.
Arguments i_identity {C}.
Arguments i_version {C}.
Arguments i_size {C}.
Arguments i_page {C}.

(** The table with its entries, and the page manager. *)
Record Cache (P : Type) := MkCache {
  heap : gmap nat (FileCacheEntry * nat);
  next_entry : nat;
  table : list (list nat);
  record_count : Z;
  refs : P;
}.
Arguments MkCache {P}.
Arguments heap {P}.
Arguments next_entry {P}.
Arguments table {P}.
Arguments record_count {P}.
Arguments refs {P}.

Inductive FileCachePageResult := RReady | RRetry | RError.

(** The argument of [AcquireCachedFileMappingPage], and the key of the current turn of its loop. *)
Record Request := MkRequest { inode : Z; offset : Z; rkey : FileCacheKey }.

(** Where a thread is in [AcquireCachedFileMappingPage] and [GetCachedPage]. *)
Inductive PC :=
  | AtKey (i o : Z)                            (* the top of the loop *)
  | AtFind (q : Request)                       (* [FindOrInsert], the first lookup *)
  | AtInsert (q : Request)                     (* [FindOrInsert], the second *)
  | AtWait (q : Request) (e : nat)             (* waiting for the filler *)
  | AtVersion (q : Request) (e : nat)          (* the fill failed *)
  | AtAlloc (q : Request) (e : nat)            (* this thread fills *)
  | AtReclaim (q : Request) (e : nat)
  | AtAlloc2 (q : Request) (e : nat)
  | AtFill (q : Request) (e : nat) (pa : Z)
  | AtGiveBack (q : Request) (e : nat) (pa : Z) (r : FileCachePageResult)
  | AtAdopt (q : Request) (e : nat) (pa : Z)
  | AtRetain (q : Request) (e : nat) (pa : Z)
  | AtUndoMapping (q : Request) (e : nat) (pa : Z)
  | AtRelease (q : Request) (e : nat) (pa : Z)
  | AtUndoCache (q : Request) (e : nat) (pa : Z)
  | AtComplete (q : Request) (e : nat) (pa : Z) (r : FileCachePageResult)
  | AtGot (q : Request) (e : nat) (r : FileCachePageResult)   (* [GetCachedPage] has returned *)
  | AtCheck (q : Request) (e : nat) (pa : Z)                  (* the mapping reference is taken *)
  | AtDrop (q : Request) (e : nat) (pa : Z)                   (* the file has changed *)
  | AtReturn (result : option (Z * Z)).                       (* version and page, 0 for none *)

Record World (P C : Type) := MkWorld {
  cache : Cache P;
  memory : Z -> C;
  inodes : gmap Z (Inode C);
  threads : list PC;
  mappings : list Z;    (* the mapping references that page tables hold *)
  others : list Z;      (* the cache references that other caches hold *)
}.
Arguments MkWorld {P C}.
Arguments cache {P C}.
Arguments memory {P C}.
Arguments inodes {P C}.
Arguments threads {P C}.
Arguments mappings {P C}.
Arguments others {P C}.

(** The outcome of a step. *)
Inductive Outcome (A : Type) := Next (a : A) | Blocked | Failed.
Arguments Next {A}.
Arguments Blocked {A}.
Arguments Failed {A}.

(** What a step depends on besides the state: whether small allocations succeed, whether there is
    a filesystem whose [readfl] delivers the whole page, and what it leaves in memory if not. *)
Record Choice (C : Type) := MkChoice {
  new_entry_ok : bool; new_record_ok : bool; new_page_ok : bool; new_managed_ok : bool;
  read_ok : bool; read_rest : C;
}.
Arguments new_entry_ok {C}.
Arguments new_record_ok {C}.
Arguments new_page_ok {C}.
Arguments new_managed_ok {C}.
Arguments read_ok {C}.
Arguments read_rest {C}.
Arguments MkChoice {C}.

Section Table.
Context {P : Type} `{!PageRefs P}.
Abbreviation St := (Cache P).

(** ** Owners *)

Definition entry_of (c : St) (e : nat) : option FileCacheEntry := fst <$> heap c !! e.

Definition with_heap (h : gmap nat (FileCacheEntry * nat)) (c : St) : St :=
  MkCache h (next_entry c) (table c) (record_count c) (refs c).
Definition with_refs (p : P) (c : St) : St := MkCache (heap c) (next_entry c) (table c) (record_count c) p.
Definition set_entry (e : nat) (f : FileCacheEntry -> FileCacheEntry) (c : St) : St :=
  with_heap (alter (fun xn => (f xn.1, xn.2)) e (heap c)) c.

(** Copying a [SharedPtr]. *)
Definition own (e : nat) (c : St) : St := with_heap (alter (fun xn => (xn.1, S xn.2)) e (heap c)) c.

(** Destroying one; the last owner runs [~FileCacheEntry]. *)
Definition drop (e : nat) (c : St) : option St :=
  match heap c !! e with
  | Some (x, 1%nat) =>
    let c' := with_heap (delete e (heap c)) c in
    if negb (owns_cache_reference x) then Some c' else
    if physical_address x =? 0 then None else
    let '(released, p) := pr_release (physical_address x) true (refs c) in
    if released : bool then Some (with_refs p c') else None
  | Some (x, S (S n)) => Some (with_heap (<[e := (x, S n)]> (heap c)) c)
  | _ => None
  end.

(** [DeleteRecords] *)
Fixpoint DeleteRecords (records : list nat) (c : St) : option St :=
  match records with
  | [] => Some c
  | e :: rest => c ← drop e c; DeleteRecords rest c
  end.

(** ** Looking up *)

Definition has_key (c : St) (k : FileCacheKey) (e : nat) : bool :=
  match entry_of c e with Some x => bool_decide (key x = k) | None => false end.

(** The record [FindLink] stops at. *)
Definition FindLink (k : FileCacheKey) (c : St) : option nat :=
  List.find (has_key c k) (table c !!! Bucket k).

(** Unlinking the records that satisfy a test, at most [limit] of them: what stays in the chain,
    what is removed, newest first, and what is left of the limit. *)
Fixpoint unlink_chain (test : nat -> bool) (chain : list nat) (removed : list nat) (limit : nat)
  : list nat * list nat * nat :=
  match chain, limit with
  | e :: rest, S limit' =>
    if test e then unlink_chain test rest (e :: removed) limit'
    else let '(kept, removed, limit) := unlink_chain test rest removed limit in
         (e :: kept, removed, limit)
  | _, _ => (chain, removed, limit)
  end.

Fixpoint unlink_buckets (test : nat -> bool) (chains : list (list nat)) (removed : list nat) (limit : nat)
  : list (list nat) * list nat * nat :=
  match chains, limit with
  | chain :: rest, S _ =>
    let '(kept, removed, limit) := unlink_chain test chain removed limit in
    let '(chains, removed, limit) := unlink_buckets test rest removed limit in
    (kept :: chains, removed, limit)
  | _, _ => (chains, removed, limit)
  end.

Definition unlink (test : nat -> bool) (limit : nat) (c : St) : list nat * St :=
  let '(chains, removed, _) := unlink_buckets test (table c) [] limit in
  (removed, MkCache (heap c) (next_entry c) chains (record_count c - Z.of_nat (length removed)) (refs c)).

(** A ready page with no owner but the table and no other reference to it. *)
Definition inactive (c : St) (e : nat) : bool :=
  match heap c !! e with
  | Some (x, 1%nat) =>
    bool_decide (state x = Ready) &&
    match pr_query (physical_address x) (refs c) with
    | Some (mapping_refs, cache_refs) => (mapping_refs =? 0) && (cache_refs =? 1)
    | None => false
    end
  | _ => false
  end.

Definition DetachInactiveReadyPages (limit : nat) (c : St) : list nat * St := unlink (inactive c) limit c.

Definition TrimReadyPages (c : St) : list nat * St :=
  if RetainedPageLimit <? record_count c
  then DetachInactiveReadyPages (Z.to_nat (record_count c - RetainedPageLimit)) c
  else ([], c).

(** ** Operations *)

(** A found entry is counted and shared. *)
Definition count_hit (x : FileCacheEntry) : FileCacheEntry :=
  if bool_decide (state x = Loading)
  then MkEntry (key x) (completion x) (state x) (physical_address x) (owns_cache_reference x) (fills x)
         (ready_hits x) (waiters x +w 1)
  else MkEntry (key x) (completion x) (state x) (physical_address x) (owns_cache_reference x) (fills x)
         (ready_hits x +w 1) (waiters x).
Definition hit (e : nat) (c : St) : St := own e (set_entry e count_hit c).

(** [FindOrInsert] up to the first release of the lock. *)
Definition FindOrInsert_find (k : FileCacheKey) (c : St) : option nat * St :=
  match FindLink k c with Some e => (Some e, hit e c) | None => (None, c) end.

(** The rest of [FindOrInsert]: the entry, and whether this thread fills it.  A prepared entry that
    is not used is destroyed again, unseen. *)
Definition FindOrInsert_insert (entry_ok record_ok : bool) (k : FileCacheKey) (c : St)
  : option (option (nat * bool) * St) :=
  if negb entry_ok || negb record_ok then Some (None, c) else
  match FindLink k c with
  | Some e => Some (Some (e, false), hit e c)
  | None =>
    let e := next_entry c in
    let c := MkCache (<[e := (new_entry k, 2%nat)]> (heap c)) (S e)
               (alter (fun chain => chain ++ [e]) (Bucket k) (table c)) (record_count c + 1) (refs c) in
    let '(removed, c) := TrimReadyPages c in
    c ← DeleteRecords removed c; Some (Some (e, true), c)
  end.

Definition finish (st : FileCacheEntryState) (pa : Z) (x : FileCacheEntry) : FileCacheEntry :=
  if truthy pa
  then MkEntry (key x) (completion x) st pa true (fills x +w 1) (ready_hits x) (waiters x)
  else MkEntry (key x) (completion x) st (physical_address x) (owns_cache_reference x) (fills x)
         (ready_hits x) (waiters x).

(** [completion.Release()] *)
Definition open_entry (x : FileCacheEntry) : FileCacheEntry :=
  MkEntry (key x) false (state x) (physical_address x) (owns_cache_reference x) (fills x) (ready_hits x) (waiters x).

(** Unlinking one record from its bucket. *)
Definition unlink_one (k : FileCacheKey) (e : nat) (c : St) : St :=
  MkCache (heap c) (next_entry c)
    (alter (fun chain => (unlink_chain (fun e' => bool_decide (e' = e)) chain [] 1).1.1) (Bucket k) (table c))
    (record_count c - 1) (refs c).

Definition Complete (e : nat) (pa : Z) (c : St) : option St :=
  let c := set_entry e (finish (if truthy pa then Ready else Error) pa) c in
  x ← entry_of c e;
  let '(removed, c) :=
    if truthy pa then TrimReadyPages c
    else if bool_decide (FindLink (key x) c = Some e) then ([e], unlink_one (key x) e c) else ([], c) in
  c ← DeleteRecords removed c;
  _ ← entry_of c e;
  Some (set_entry e open_entry c).

(** The records of an inode with another version than the current one; the number of records is no
    limit. *)
Definition InvalidateVersions (id version : Z) (c : St) : option St :=
  if id =? 0 then Some c else
  let stale e := match entry_of c e with
    | Some x => (identity (key x) =? id) && negb (content_version (key x) =? version)
    | None => false
    end in
  let '(removed, c) := unlink stale (length (concat (table c))) c in DeleteRecords removed c.

Definition ForgetInode (id : Z) (c : St) : option St :=
  if id =? 0 then Some c else
  let of_inode e := match entry_of c e with Some x => identity (key x) =? id | None => false end in
  let '(removed, c) := unlink of_inode (length (concat (table c))) c in DeleteRecords removed c.

(** The number of pages that went back. *)
Definition ReclaimInactive (limit : nat) (c : St) : option (nat * St) :=
  let '(removed, c) := DetachInactiveReadyPages limit c in
  c ← DeleteRecords removed c; Some (length removed, c).

(** Removing one record, if it still is the expected entry's. *)
Definition Remove (k : FileCacheKey) (expected : option nat) (c : St) : option (bool * St) :=
  match expected with
  | Some e =>
    if negb (Valid k) then Some (false, c)
    else if bool_decide (FindLink k c = Some e) then c ← DeleteRecords [e] (unlink_one k e c); Some (true, c)
    else Some (false, c)
  | None => Some (false, c)
  end.

End Table.

(** ** Threads *)
Section Steps.
Context {P C : Type} `{!PageRefs P} (zero_page : C).
Abbreviation W := (World P C).

Definition with_cache (c : Cache P) (w : W) : W :=
  MkWorld c (memory w) (inodes w) (threads w) (mappings w) (others w).
Definition with_memory (pa : Z) (x : C) (w : W) : W :=
  MkWorld (cache w) (fun p => if p =? pa then x else memory w p) (inodes w) (threads w) (mappings w) (others w).
Definition with_page_refs (p : P) (w : W) : W := with_cache (with_refs p (cache w)) w.
Definition with_inode (i : Z) (x : Inode C) (w : W) : W :=
  MkWorld (cache w) (memory w) (<[i := x]> (inodes w)) (threads w) (mappings w) (others w).
Definition goto (t : nat) (pc : PC) (w : W) : W :=
  MkWorld (cache w) (memory w) (inodes w) (<[t := pc]> (threads w)) (mappings w) (others w).
Definition with_mappings (l : list Z) (w : W) : W :=
  MkWorld (cache w) (memory w) (inodes w) (threads w) l (others w).
Definition with_others (l : list Z) (w : W) : W :=
  MkWorld (cache w) (memory w) (inodes w) (threads w) (mappings w) l.

Definition lift {A} (o : option A) (k : A -> Outcome W) : Outcome W :=
  match o with Some a => k a | None => Failed end.

(** The entry is left and the thread continues at [pc]. *)
Definition leave (t e : nat) (pc : PC) (w : W) : Outcome W :=
  lift (drop e (cache w)) (fun c => Next (goto t pc (with_cache c w))).

(** The inode still has the content the request is for. *)
Definition current (q : Request) (x : Inode C) : bool :=
  (i_identity x =? identity (rkey q)) && (i_version x =? content_version (rkey q)) && (offset q <? i_size x).

(** [AcquireCachedFileMappingPage] around the call of [GetCachedPage]. *)
Definition acquire_step (t : nat) (pc : PC) (w : W) : Outcome W :=
  match pc with
  | AtKey i o =>
    if (i =? 0) || truthy (page_offset o) then Next (goto t (AtReturn None) w) else
    lift (inodes w !! i) (fun x =>
    let k := MkKey (i_identity x) (i_version x) o in
    if i_size x <=? o
    then Next (goto t (AtReturn (if Valid k then Some (i_version x, 0) else None)) w)
    else Next (goto t (AtFind (MkRequest i o k)) w))
  | AtGot q e RRetry => leave t e (AtKey (inode q) (offset q)) w
  | AtGot q e RError => leave t e (AtReturn None) w
  | AtGot q e RReady =>
    lift (entry_of (cache w) e) (fun x =>
    let candidate := physical_address x in
    let '(ok, p) := pr_retain candidate false (refs (cache w)) in
    let w := with_page_refs p w in
    if ok : bool then Next (goto t (AtCheck q e candidate) w) else leave t e (AtReturn None) w)
  | AtCheck q e pa =>
    lift (inodes w !! inode q) (fun x =>
    if current q x
    then leave t e (AtReturn (Some (content_version (rkey q), pa))) (with_mappings (pa :: mappings w) w)
    else Next (goto t (AtDrop q e pa) w))
  | AtDrop q e pa =>
    let '(ok, p) := pr_release pa false (refs (cache w)) in
    if ok : bool then leave t e (AtKey (inode q) (offset q)) (with_page_refs p w) else Failed
  | _ => Blocked
  end.

(** The filler's part of [GetCachedPage]. *)
Definition fill_step (ch : Choice C) (t : nat) (pc : PC) (w : W) : Outcome W :=
  match pc with
  | AtAlloc q e =>
    let '(o, p) := pr_allocate (refs (cache w)) in
    Next (goto t (match o with Some pa => AtFill q e pa | None => AtReclaim q e end) (with_page_refs p w))
  | AtReclaim q e =>
    lift (ReclaimInactive 1 (cache w)) (fun '(n, c) =>
    Next (goto t (if (n =? 0)%nat then AtComplete q e 0 RError else AtAlloc2 q e) (with_cache c w)))
  | AtAlloc2 q e =>
    let '(o, p) := pr_allocate (refs (cache w)) in
    Next (goto t (match o with Some pa => AtFill q e pa | None => AtComplete q e 0 RError end) (with_page_refs p w))
  | AtFill q e pa =>
    lift (inodes w !! inode q) (fun x =>
    if negb (i_identity x =? identity (rkey q)) || negb (i_version x =? content_version (rkey q))
       || (i_size x <=? file_offset (rkey q))
    then Next (goto t (AtGiveBack q e pa RRetry) (with_memory pa zero_page w))
    else if read_ok ch
    then Next (goto t (AtAdopt q e pa) (with_memory pa (i_page x (file_offset (rkey q))) w))
    else Next (goto t (AtGiveBack q e pa RError) (with_memory pa (read_rest ch) w)))
  | AtGiveBack q e pa r =>
    Next (goto t (AtComplete q e 0 r) (with_page_refs (pr_deallocate pa (refs (cache w))) w))
  | AtAdopt q e pa =>
    let '(ok, p) := pr_adopt (new_page_ok ch) (new_managed_ok ch) pa (refs (cache w)) in
    Next (goto t (if ok : bool then AtRetain q e pa else AtComplete q e 0 RError) (with_page_refs p w))
  | AtRetain q e pa =>
    let '(ok, p) := pr_retain pa true (refs (cache w)) in
    Next (goto t (if ok : bool then AtRelease q e pa else AtUndoMapping q e pa) (with_page_refs p w))
  | AtUndoMapping q e pa =>
    Next (goto t (AtComplete q e 0 RError) (with_page_refs (pr_release pa false (refs (cache w))).2 w))
  | AtRelease q e pa =>
    let '(ok, p) := pr_release pa false (refs (cache w)) in
    Next (goto t (if ok : bool then AtComplete q e pa RReady else AtUndoCache q e pa) (with_page_refs p w))
  | AtUndoCache q e pa =>
    Next (goto t (AtComplete q e 0 RError) (with_page_refs (pr_release pa true (refs (cache w))).2 w))
  | AtComplete q e pa r =>
    lift (Complete e pa (cache w)) (fun c => Next (goto t (AtGot q e r) (with_cache c w)))
  | _ => Blocked
  end.

(** [GetCachedPage]: finding the entry, and waiting for it. *)
Definition find_step (ch : Choice C) (t : nat) (pc : PC) (w : W) : Outcome W :=
  match pc with
  | AtFind q =>
    if negb (Valid (rkey q)) then Next (goto t (AtReturn None) w) else
    let '(found, c) := FindOrInsert_find (rkey q) (cache w) in
    Next (goto t (match found with Some e => AtWait q e | None => AtInsert q end) (with_cache c w))
  | AtInsert q =>
    lift (FindOrInsert_insert (new_entry_ok ch) (new_record_ok ch) (rkey q) (cache w)) (fun '(found, c) =>
    Next (goto t (match found with
      | Some (e, true) => AtAlloc q e
      | Some (e, false) => AtWait q e
      | None => AtReturn None
      end) (with_cache c w)))
  | AtWait q e =>
    lift (entry_of (cache w) e) (fun x =>
    if completion x then Blocked
    else Next (goto t (if bool_decide (state x = Ready) then AtGot q e RReady else AtVersion q e) w))
  | AtVersion q e =>
    lift (inodes w !! inode q) (fun x =>
    Next (goto t (AtGot q e (if i_version x =? content_version (rkey q) then RError else RRetry)) w))
  | _ => Blocked
  end.

Definition thread_step (ch : Choice C) (t : nat) (w : W) : Outcome W :=
  match threads w !! t with
  | None => Blocked
  | Some pc =>
    match pc with
    | AtFind _ | AtInsert _ | AtWait _ _ | AtVersion _ _ => find_step ch t pc w
    | AtKey _ _ | AtGot _ _ _ | AtCheck _ _ _ | AtDrop _ _ _ => acquire_step t pc w
    | AtReturn _ => Blocked
    | _ => fill_step ch t pc w
    end
  end.

(** ** The rest of the kernel *)

(** [AdvanceContentVersion], after the content of the file has changed. *)
Definition AdvanceContentVersion (i : Z) (w : W) : Outcome W :=
  lift (inodes w !! i) (fun x =>
  if i_version x =? UMAX then Failed else
  let w := with_inode i (MkInode (i_identity x) (i_version x + 1) (i_size x) (i_page x)) w in
  lift (InvalidateVersions (i_identity x) (i_version x + 1) (cache w)) (fun c => Next (with_cache c w))).

(** What other code may do: change a file, drop an inode's pages, reclaim pages, start a request,
    and hold, take and drop references of its own, or write to pages that no file cache entry
    holds. *)
Inductive Env :=
  | EnvWrite (i size : Z) (page : Z -> C)
  | EnvForget (id : Z)
  | EnvReclaim (limit : nat)
  | EnvRequest (i o : Z)
  | EnvNewPage (x y : bool)
  | EnvRetain (pa : Z) (cache : bool)
  | EnvRelease (pa : Z) (cache : bool)
  | EnvStore (pa : Z) (content : C).

(** One occurrence less. *)
Fixpoint remove_one (pa : Z) (l : list Z) : list Z :=
  match l with
  | [] => []
  | x :: l => if x =? pa then l else x :: remove_one pa l
  end.

Definition held (cache : bool) (w : W) : list Z := if cache then others w else mappings w.
Definition set_held (cache : bool) (l : list Z) (w : W) : W :=
  if cache then with_others l w else with_mappings l w.

Definition env_step (a : Env) (w : W) : Outcome W :=
  match a with
  | EnvWrite i size page =>
    lift (inodes w !! i) (fun x =>
    AdvanceContentVersion i (with_inode i (MkInode (i_identity x) (i_version x) size page) w))
  | EnvForget id => lift (ForgetInode id (cache w)) (fun c => Next (with_cache c w))
  | EnvReclaim limit => lift (ReclaimInactive limit (cache w)) (fun '(_, c) => Next (with_cache c w))
  | EnvRequest i o =>
    if (i =? 0) || bool_decide (is_Some (inodes w !! i))
    then Next (MkWorld (cache w) (memory w) (inodes w) (threads w ++ [AtKey i o]) (mappings w) (others w))
    else Blocked
  | EnvNewPage x y =>
    let '(o, p) := pr_allocate (refs (cache w)) in
    match o with
    | None => Next (with_page_refs p w)
    | Some pa =>
      let '(ok, p) := pr_adopt x y pa p in
      let w := with_page_refs p w in
      Next (if ok : bool then with_mappings (pa :: mappings w) w else w)
    end
  | EnvRetain pa cache_ref =>
    if bool_decide (pa ∈ mappings w ++ others w) then
      let '(ok, p) := pr_retain pa cache_ref (refs (cache w)) in
      let w := with_page_refs p w in
      Next (if ok : bool then set_held cache_ref (pa :: held cache_ref w) w else w)
    else Blocked
  | EnvRelease pa cache_ref =>
    if bool_decide (pa ∈ held cache_ref w) then
      let '(ok, p) := pr_release pa cache_ref (refs (cache w)) in
      if ok : bool then Next (set_held cache_ref (remove_one pa (held cache_ref w)) (with_page_refs p w)) else Failed
    else Blocked
  | EnvStore pa content =>
    match pr_query pa (refs (cache w)) with
    | Some (_, cache_refs) =>
      if bool_decide (pa ∈ mappings w ++ others w) && (cache_refs =? Z.of_nat (count_occ Z.eq_dec (others w) pa))
      then Next (with_memory pa content w) else Blocked
    | None => Blocked
    end
  end.

(** One step of the system. *)
Inductive step (w w' : W) : Prop :=
  | step_thread ch t : thread_step ch t w = Next w' -> step w w'
  | step_env a : env_step a w = Next w' -> step w w'.

End Steps.
