(* ===== verification/FileCacheProof.v ===== *)
(** * The file cache: ownership and references

    The table, the entries and the page manager, against counts of what is held outside: owners of
    entries ([o]), fillers ([f]), held completion mutexes ([g]), cache references ([cr]) and mapping
    references ([mr]).  [Core] relates them, and every operation of the table keeps it while the
    counts change as the operation says. *)
From S2P Require Import Prelude Interfaces PageRefs FileCache.

Definition b2n (b : bool) : nat := if b then 1 else 0.

(** ** Counting *)

(** The entry holds a cache reference to the page. *)
Definition holds (pa : Z) (xn : FileCacheEntry * nat) : bool := owns_cache_reference xn.1 && (physical_address xn.1 =? pa).
Definition heap_refs (h : gmap nat (FileCacheEntry * nat)) (pa : Z) : nat :=
  size (filter (fun exn => holds pa exn.2 = true) h).

Lemma heap_refs_delete h e v pa : h !! e = Some v -> (heap_refs (delete e h) pa + b2n (holds pa v) = heap_refs h pa)%nat.
Proof.
  intros He. unfold heap_refs. rewrite map_filter_delete. destruct (holds pa v) eqn:E; cbn [b2n].
  - rewrite map_size_delete_Some by (exists v; by apply map_lookup_filter_Some).
    assert (0 < size (filter (fun exn : nat * (FileCacheEntry * nat) => holds pa exn.2 = true) h))%nat; [|lia].
    apply Nat.neq_0_lt_0. intros Hz%map_size_empty_iff. apply (f_equal (lookup e)) in Hz. rewrite lookup_empty in Hz.
    eapply map_lookup_filter_None in Hz as [?|Hn]; [congruence|]. by apply (Hn v).
  - rewrite delete_id; [lia|]. apply map_lookup_filter_None. right. intros w Hw. cbn. congruence.
Qed.

Lemma heap_refs_insert h e v pa : h !! e = None -> (heap_refs (<[e := v]> h) pa = heap_refs h pa + b2n (holds pa v))%nat.
Proof.
  intros He. pose proof (heap_refs_delete (<[e := v]> h) e v pa (lookup_insert_eq _ _ _)) as H.
  rewrite delete_insert_id in H by done. lia.
Qed.

Lemma heap_refs_update h e v v' pa : h !! e = Some v ->
  (heap_refs (<[e := v']> h) pa + b2n (holds pa v) = heap_refs h pa + b2n (holds pa v'))%nat.
Proof.
  intros He. rewrite <- (insert_delete_eq h e v'), heap_refs_insert by apply lookup_delete_eq.
  pose proof (heap_refs_delete h e v pa He). lia.
Qed.

Lemma heap_refs_pos h e v pa : h !! e = Some v -> holds pa v = true -> (0 < heap_refs h pa)%nat.
Proof. intros He Hv. pose proof (heap_refs_delete h e v pa He). rewrite Hv in *. cbn in *. lia. Qed.

(** ** The invariant *)

Definition entry_ok (fillers : nat) (x : FileCacheEntry) : Prop :=
  match state x with
  | Loading => fillers = 1%nat /\ owns_cache_reference x = false
  | Ready => fillers = 0%nat /\ owns_cache_reference x = true /\ physical_address x <> 0
  | Error => fillers = 0%nat /\ owns_cache_reference x = false
  end.

(** The counters of a managed page are the references that are held, and somebody holds one. *)
Definition refs_are (q : option (Z * Z)) (m c : nat) : Prop :=
  match q with
  | Some mc => mc = (Z.of_nat m, Z.of_nat c) /\ (0 < m + c)%nat
  | None => m = 0%nat /\ c = 0%nat
  end.

Section Core.
Context {P : Type} `{!PageRefs P} `{!PageRefsLaws P}.
Abbreviation St := (Cache P).

Definition in_table (e : nat) (c : St) : bool := bool_decide (e ∈ concat (table c)).

Record Core (o f g : nat -> nat) (cr mr : Z -> nat) (c : St) : Prop := {
  k_len : length (table c) = BucketCount;
  k_chain : forall i chain e, table c !! i = Some chain -> e ∈ chain ->
    exists x, entry_of c e = Some x /\ Bucket (key x) = i;
  k_nodup : NoDup (concat (table c));
  k_keys : forall e e' x x', e ∈ concat (table c) -> e' ∈ concat (table c) ->
    entry_of c e = Some x -> entry_of c e' = Some x' -> key x = key x' -> e = e';
  k_count : record_count c = Z.of_nat (length (concat (table c)));
  k_heap : forall e x n, heap c !! e = Some (x, n) -> (e < next_entry c)%nat /\
    n = (o e + b2n (in_table e c))%nat /\ (0 < n)%nat /\ entry_ok (f e) x /\ completion x = bool_decide (g e = 1%nat);
  k_own : forall e, (0 < o e)%nat -> is_Some (heap c !! e);
  k_fill : forall e, (f e <= o e)%nat;
  k_ok : pr_ok (refs c);
  k_refs : forall pa, refs_are (pr_query pa (refs c)) (mr pa) (cr pa + heap_refs (heap c) pa);
}.

Lemma Core_ext o f g cr mr o' f' g' cr' mr' c : Core o f g cr mr c -> (forall e, o' e = o e) -> (forall e, f' e = f e) ->
  (forall e, g' e = g e) -> (forall pa, cr' pa = cr pa) -> (forall pa, mr' pa = mr pa) -> Core o' f' g' cr' mr' c.
Proof.
  intros [K1 K2 K3 K4 K5 K6 K7 K8 K9 K10] Ho Hf Hg Hc Hm. constructor; try done.
  - intros e x n. rewrite Ho, Hf, Hg. apply K6.
  - intros e. rewrite Ho. apply K7.
  - intros e. by rewrite Ho, Hf.
  - intros pa. by rewrite Hc, Hm.
Qed.

Lemma elem_of_table (c : St) e : e ∈ concat (table c) <-> exists i chain, table c !! i = Some chain /\ e ∈ chain.
Proof.
  rewrite list_elem_of_In, in_concat. split.
  - intros (chain & Hc & He). apply list_elem_of_In, list_elem_of_lookup in Hc as [i Hi]. exists i, chain. by rewrite list_elem_of_In.
  - intros (i & chain & Hi & He). exists chain. split; apply list_elem_of_In; [by eapply list_elem_of_lookup_2|done].
Qed.

Lemma entry_heap (c : St) e x : entry_of c e = Some x <-> exists n, heap c !! e = Some (x, n).
Proof. unfold entry_of. destruct (heap c !! e) as [[y n]|]; cbn; naive_solver. Qed.

(** A record of the table has an entry. *)
Lemma table_entry o f g cr mr c e : Core o f g cr mr c -> e ∈ concat (table c) -> exists x, entry_of c e = Some x.
Proof. intros K (i & chain & Hi & He)%elem_of_table. destruct (k_chain _ _ _ _ _ _ K i chain e Hi He) as (x & ? & _). eauto. Qed.

(** Entries differ at most in the statistics. *)
Definition same_core (x x' : FileCacheEntry) : Prop :=
  key x' = key x /\ completion x' = completion x /\ state x' = state x /\ physical_address x' = physical_address x /\
  owns_cache_reference x' = owns_cache_reference x.

#[global] Instance same_core_refl : Reflexive same_core.
Proof. by intros x. Qed.

(** Every entry that is left is an old one. *)
Definition fewer (c c' : St) : Prop := forall e x', entry_of c' e = Some x' -> exists x, entry_of c e = Some x /\ same_core x x'.

#[global] Instance fewer_refl : Reflexive fewer.
Proof. intros c e x' He. by exists x'. Qed.

#[global] Instance fewer_trans : Transitive fewer.
Proof.
  intros c1 c2 c3 H1 H2 e x3 He. destruct (H2 e x3 He) as (x2 & He2 & (A1 & A2 & A3 & A4 & A5)).
  destruct (H1 e x2 He2) as (x1 & He1 & (B1 & B2 & B3 & B4 & B5)). exists x1. split; [done|]. split_and!; congruence.
Qed.

(** ** Dropping an owner *)

Definition less (e : nat) (o : nat -> nat) : nat -> nat := fun e' => if (e' =? e)%nat then pred (o e') else o e'.
Definition more (e : nat) (o : nat -> nat) : nat -> nat := fun e' => if (e' =? e)%nat then S (o e') else o e'.

Lemma Core_chain_frame o f g cr mr c (c' : St) : Core o f g cr mr c -> table c' = table c ->
  (forall e, e ∈ concat (table c) -> entry_of c' e = entry_of c e) ->
  (forall i chain e, table c' !! i = Some chain -> e ∈ chain -> exists x, entry_of c' e = Some x /\ Bucket (key x) = i) /\
  (forall e e' x x', e ∈ concat (table c') -> e' ∈ concat (table c') ->
    entry_of c' e = Some x -> entry_of c' e' = Some x' -> key x = key x' -> e = e').
Proof.
  intros K Ht He. rewrite Ht. split.
  - intros i chain e Hi Hin. rewrite He by (apply elem_of_table; eauto). by eapply K.
  - intros e e' x x' H1 H2. rewrite !He by done. by apply K.
Qed.

(** The last owner goes, and the reference of the entry with it. *)
Lemma drop_last o f g cr mr c e x : Core o f g cr mr c -> (f e < o e)%nat -> heap c !! e = Some (x, 1%nat) ->
  exists p, Core (less e o) f g cr mr (with_refs p (with_heap (delete e (heap c)) c)) /\
  (if owns_cache_reference x then physical_address x <> 0 /\ pr_release (physical_address x) true (refs c) = (true, p) else p = refs c).
Proof.
  intros K Hlt He. pose proof K as [K1 K2 K3 K4 K5 K6 K7 K8 K9 K10]. destruct (K6 e x 1%nat He) as (E1 & E2 & _ & E3 & E4).
  assert (o e = 1%nat /\ in_table e c = false) as [Ho Hin] by (destruct (in_table e c); cbn in *; lia).
  unfold in_table in Hin. apply bool_decide_eq_false in Hin.
  assert (forall p, (forall pa, refs_are (pr_query pa p) (mr pa) (cr pa + heap_refs (delete e (heap c)) pa)) -> pr_ok p ->
    Core (less e o) f g cr mr (with_refs p (with_heap (delete e (heap c)) c))) as Hcore.
  { intros p Hp Hpk. set (c' := with_refs _ _). assert (forall e', e' <> e -> heap c' !! e' = heap c !! e') as Hh by (intros; cbn; by apply lookup_delete_ne).
    destruct (Core_chain_frame o f g cr mr c c' K eq_refl) as [F1 F2].
    { intros e' H'. unfold entry_of. rewrite Hh; [done|]. by intros ->. }
    constructor; try done.
    - intros e' x' n Hx'. destruct (decide (e' = e)) as [->|Hne]; [cbn in Hx'; by rewrite lookup_delete_eq in Hx'|].
      rewrite Hh in Hx' by done. unfold less. rewrite (proj2 (Nat.eqb_neq e' e)) by done. by apply K6.
    - intros e'. unfold less. destruct (e' =? e)%nat eqn:E; [apply Nat.eqb_eq in E as ->; lia|]. apply Nat.eqb_neq in E. rewrite Hh by done. apply K7.
    - intros e'. unfold less. specialize (K8 e'). destruct (e' =? e)%nat eqn:E; [apply Nat.eqb_eq in E as ->; lia|done]. }
  pose proof (fun pa => heap_refs_delete (heap c) e (x, 1%nat) pa He) as Hr. unfold holds in Hr; cbn [fst] in Hr.
  destruct (owns_cache_reference x) eqn:Eo; cbn [andb] in Hr.
  2: { exists (refs c). split; [|done]. apply Hcore; [|done]. intros pa. specialize (Hr pa). cbn [b2n] in Hr.
       replace (heap_refs _ pa) with (heap_refs (heap c) pa) by lia. apply K10. }
  assert (physical_address x <> 0) as Hpa by (unfold entry_ok in E3; destruct (state x); naive_solver congruence).
  destruct (pr_release (physical_address x) true (refs c)) as [b p] eqn:Er.
  destruct (pr_release_spec _ _ _ _ _ K9 Er) as (R1 & _ & R2 & R3). pose proof (K10 (physical_address x)) as Hq. specialize (Hr (physical_address x)) as Hr1.
  rewrite Z.eqb_refl in Hr1. cbn [b2n] in Hr1. unfold refs_are in Hq. destruct (pr_query (physical_address x) (refs c)) as [mc|] eqn:Eq; [|lia].
  destruct Hq as [-> _]. cbn [kind snd] in R2. replace (0 <? _) with true in R2 by lia. subst b. exists p. split; [|done]. apply Hcore; [|done].
  intros pa. rewrite R3, andb_true_r. destruct (pa =? physical_address x) eqn:Ep.
  - apply Z.eqb_eq in Ep as ->. cbn [mbind option_bind]. unfold released, bump; cbn [fst snd]. unfold refs_are.
    destruct (_ && _) eqn:Ez; [lia|]. split; [f_equal; lia|lia].
  - specialize (Hr pa). rewrite Z.eqb_sym, Ep in Hr. cbn [b2n] in Hr. replace (heap_refs _ pa) with (heap_refs (heap c) pa) by lia. apply K10.
Qed.

Lemma drop_spec o f g cr mr c e : Core o f g cr mr c -> (f e < o e)%nat -> exists c', drop e c = Some c' /\
  Core (less e o) f g cr mr c' /\ table c' = table c /\ next_entry c' = next_entry c /\ fewer c c'.
Proof.
  intros K Hlt. pose proof K as [K1 K2 K3 K4 K5 K6 K7 K8 K9 K10]. destruct (K7 e ltac:(lia)) as [[x n] He].
  destruct (K6 e x n He) as (E1 & E2 & E0 & E3 & E4). unfold drop. rewrite He. destruct n as [|[|n]]; [lia| |].
  - destruct (drop_last o f g cr mr c e x K Hlt He) as (p & Kp & Hp).
    assert (forall p', fewer c (with_refs p' (with_heap (delete e (heap c)) c))) as Hf.
    { intros p' e' x'. rewrite !entry_heap. cbn. intros (n & Hn). destruct (decide (e' = e)) as [->|Hne]; [by rewrite lookup_delete_eq in Hn|].
      rewrite lookup_delete_ne in Hn by done. exists x'. rewrite entry_heap. split; [eauto|done]. }
    destruct (owns_cache_reference x); cbn [negb].
    + destruct Hp as [Hnz Hr]. replace (_ =? 0) with false by lia. rewrite Hr. eexists. split; [done|]. by split_and!.
    + subst p. eexists. split; [done|]. split; [exact Kp|]. split; [done|]. split; [done|]. apply (Hf (refs c)).
  - set (c' := with_heap _ c). exists c'. split; [done|].
    assert (forall e', entry_of c' e' = entry_of c e') as Hent.
    { intros e'. unfold entry_of, c'; cbn. destruct (decide (e' = e)) as [->|Hne]; [by rewrite lookup_insert_eq, He|by rewrite lookup_insert_ne]. }
    split_and!; [|done|done|intros e' x' Hx'; rewrite Hent in Hx'; by exists x'].
    destruct (Core_chain_frame o f g cr mr c c' K eq_refl) as [F1 F2]; [by intros|]. constructor; try done.
    + intros e' x' n'. unfold c'; cbn. unfold less. destruct (decide (e' = e)) as [->|Hne].
      * rewrite lookup_insert_eq, Nat.eqb_refl. intros [= <- <-]. unfold in_table in *; cbn in *. split_and!; [done|lia|lia|done|done].
      * rewrite lookup_insert_ne, (proj2 (Nat.eqb_neq e' e)) by done. apply K6.
    + intros e'. unfold less, c'; cbn. destruct (decide (e' = e)) as [->|Hne]; [rewrite lookup_insert_eq; eauto|].
      rewrite lookup_insert_ne, (proj2 (Nat.eqb_neq e' e)) by done. apply K7.
    + intros e'. unfold less. specialize (K8 e'). destruct (e' =? e)%nat eqn:E; [apply Nat.eqb_eq in E as ->; lia|done].
    + intros pa. pose proof (heap_refs_update (heap c) e (x, S (S n)) (x, S n) pa He) as Hr. unfold holds in Hr; cbn [fst] in Hr.
      unfold c'; cbn. replace (heap_refs _ pa) with (heap_refs (heap c) pa) by lia. apply K10.
Qed.

(** ** Unlinking and deleting records *)

Definition plus (l : list nat) (o : nat -> nat) : nat -> nat := fun e => (o e + b2n (bool_decide (e ∈ l)))%nat.

Lemma DeleteRecords_spec l : forall o f g cr mr c, NoDup l -> Core (plus l o) f g cr mr c -> (forall e, (f e <= o e)%nat) ->
  exists c', DeleteRecords l c = Some c' /\ Core o f g cr mr c' /\ table c' = table c /\ next_entry c' = next_entry c /\ fewer c c'.
Proof.
  induction l as [|e l IH]; intros o f g cr mr c Hnd K Hf; cbn [DeleteRecords].
  { exists c. split_and!; [done| |done..]. eapply Core_ext; [exact K|..]; try done; intros e; unfold plus; cbn; lia. }
  apply NoDup_cons in Hnd as [Hni Hnd].
  assert (plus (e :: l) o e = S (o e)) as Hpe. { unfold plus. rewrite bool_decide_eq_true_2 by by left. cbn. lia. }
  destruct (drop_spec _ f g cr mr c e K) as (c1 & E1 & K1 & T1 & N1 & F1); [rewrite Hpe; specialize (Hf e); lia|].
  rewrite E1. cbn [mbind option_bind].
  destruct (IH o f g cr mr c1 Hnd) as (c2 & E2 & K2 & T2 & N2 & F2); [|done|].
  { eapply Core_ext; [exact K1|..]; try done. intros e'. unfold less, plus. destruct (e' =? e)%nat eqn:E.
    - apply Nat.eqb_eq in E as ->. rewrite bool_decide_eq_false_2 by done. rewrite bool_decide_eq_true_2 by by left. cbn. lia.
    - apply Nat.eqb_neq in E. do 2 f_equal. apply bool_decide_ext. rewrite elem_of_cons. naive_solver. }
  exists c2. split_and!; [done|done|congruence|congruence|by etransitivity].
Qed.

Lemma unlink_chain_spec test chain : forall removed limit kept removed' limit', unlink_chain test chain removed limit = (kept, removed', limit') ->
  exists new, removed' = new ++ removed /\ chain ≡ₚ kept ++ new /\ Forall (fun e => test e = true) new /\
    limit = (length new + limit')%nat /\ ((0 < limit')%nat -> Forall (fun e => test e = false) kept).
Proof.
  induction chain as [|e chain IH]; intros removed limit kept removed' limit' E; cbn [unlink_chain] in E.
  { exists []. destruct limit; injection E as <- <- <-; (split_and!; [done|by rewrite app_nil_r|done|done|intros _; constructor]). }
  destruct limit as [|limit]; [injection E as <- <- <-; exists []; rewrite app_nil_r; split_and!; try done; lia|].
  destruct (test e) eqn:Et.
  - destruct (IH _ _ _ _ _ E) as (new & -> & Hp & Hn & Hl & Hk). exists (new ++ [e]). rewrite <- app_assoc. split_and!; [done| | | |done].
    + rewrite Hp. rewrite app_assoc. by rewrite (Permutation_app_comm (kept ++ new) [e]).
    + apply Forall_app. split; [done|]. by constructor.
    + rewrite length_app. cbn. lia.
  - destruct (unlink_chain test chain removed (S limit)) as [[kept1 rem1] lim1] eqn:E1. injection E as <- <- <-.
    destruct (IH _ _ _ _ _ E1) as (new & -> & Hp & Hn & Hl & Hk). exists new. split_and!; [done|by rewrite Hp|done|done|].
    intros H0. constructor; [done|by apply Hk].
Qed.

Lemma unlink_buckets_spec test chains : forall removed limit chains' removed' limit', unlink_buckets test chains removed limit = (chains', removed', limit') ->
  exists new, removed' = new ++ removed /\ concat chains ≡ₚ concat chains' ++ new /\ Forall (fun e => test e = true) new /\
    limit = (length new + limit')%nat /\ ((0 < limit')%nat -> Forall (fun e => test e = false) (concat chains')) /\
    Forall2 (fun ch ch' => ch' ⊆ ch) chains chains'.
Proof.
  assert (forall l : list (list nat), Forall2 (fun ch ch' => ch' ⊆ ch) l l) as Hrefl by (induction l; constructor; done).
  induction chains as [|ch chains IH]; intros removed limit chains' removed' limit' E; cbn [unlink_buckets] in E.
  { exists []. destruct limit; injection E as <- <- <-; (split_and!; [done|done|done|done|intros _; constructor|constructor]). }
  destruct limit as [|limit]; [injection E as <- <- <-; exists []; rewrite app_nil_r; split_and!; try done; lia|].
  destruct (unlink_chain test ch removed (S limit)) as [[kept rem1] lim1] eqn:E1.
  destruct (unlink_buckets test chains rem1 lim1) as [[chains2 rem2] lim2] eqn:E2. injection E as <- <- <-.
  destruct (unlink_chain_spec _ _ _ _ _ _ _ E1) as (new1 & -> & Hp1 & Hn1 & Hl1 & Hk1).
  destruct (IH _ _ _ _ _ E2) as (new2 & -> & Hp2 & Hn2 & Hl2 & Hk2 & Hs2). exists (new2 ++ new1). cbn [concat]. split_and!.
  - by rewrite app_assoc.
  - rewrite Hp1, Hp2. rewrite <- !app_assoc. apply Permutation_app_head. rewrite (Permutation_app_comm new1), <- app_assoc. done.
  - by apply Forall_app.
  - rewrite length_app. lia.
  - intros H0. apply Forall_app. split; [apply Hk1; lia|by apply Hk2].
  - constructor; [|done]. intros e He. rewrite Hp1. apply elem_of_app. by left.
Qed.

(** Records move from the table into a list. *)
Lemma Core_unlinked o f g cr mr c chains new : Core o f g cr mr c -> concat (table c) ≡ₚ concat chains ++ new ->
  Forall2 (fun ch ch' => ch' ⊆ ch) (table c) chains ->
  NoDup new /\ Core (plus new o) f g cr mr (MkCache (heap c) (next_entry c) chains (record_count c - Z.of_nat (length new)) (refs c)).
Proof.
  intros K Hp Hs. pose proof K as [K1 K2 K3 K4 K5 K6 K7 K8 K9 K10].
  assert (NoDup (concat chains ++ new)) as Hnd by by rewrite <- Hp. apply NoDup_app in Hnd as (Hnd1 & Hdis & Hnd2).
  assert (forall e, e ∈ concat (table c) <-> e ∈ concat chains \/ e ∈ new) as Hin by (intros e; by rewrite Hp, elem_of_app).
  split; [done|]. constructor; cbn [table heap next_entry refs record_count]; try done.
  - rewrite <- K1. symmetry. by eapply Forall2_length.
  - intros i ch' e Hi He. destruct (Forall2_lookup_r _ _ _ _ _ Hs Hi) as (ch & Hch & Hsub). by apply (K2 i ch e Hch), Hsub.
  - intros e e' x x' H1 H2. apply K4; apply Hin; by left.
  - rewrite K5, Hp, length_app. lia.
  - intros e x n Hx. destruct (K6 e x n Hx) as (E1 & E2 & E3 & E4). split_and!; [done| |done|apply E4..]. rewrite E2. unfold plus, in_table. cbn [table].
    destruct (decide (e ∈ new)) as [Hne|Hne].
    + rewrite (bool_decide_eq_true_2 (e ∈ new)), (bool_decide_eq_true_2 (e ∈ concat (table c))), bool_decide_eq_false_2; [cbn; lia| | |done].
      * intros Hc. by apply (Hdis e).
      * apply Hin. by right.
    + rewrite (bool_decide_eq_false_2 (e ∈ new)) by done. rewrite (bool_decide_ext (e ∈ concat (table c)) (e ∈ concat chains)); [cbn; lia|]. rewrite Hin. tauto.
  - intros e. unfold plus. destruct (decide (e ∈ new)) as [Hne|Hne].
    + intros _. destruct (table_entry _ _ _ _ _ c e K) as [x Hx]; [apply Hin; by right|]. apply entry_heap in Hx as [n ->]. eauto.
    + rewrite bool_decide_eq_false_2 by done. cbn. intros H0. apply K7. lia.
  - intros e. unfold plus. specialize (K8 e). lia.
Qed.

(** What is left after records with a property were unlinked and deleted. *)
Record Discarded (test : nat -> bool) (limit : nat) (removed : list nat) (c c' : St) : Prop := {
  dc_test : Forall (fun e => test e = true) removed;
  dc_limit : (length removed <= limit)%nat;
  dc_rest : (length removed < limit)%nat -> Forall (fun e => test e = false) (concat (table c'));
  dc_table : concat (table c) ≡ₚ concat (table c') ++ removed;
  dc_next : next_entry c' = next_entry c;
  dc_fewer : fewer c c';
}.

Lemma discard o f g cr mr c test limit removed c1 : Core o f g cr mr c -> unlink test limit c = (removed, c1) ->
  exists c', DeleteRecords removed c1 = Some c' /\ Core o f g cr mr c' /\ Discarded test limit removed c c'.
Proof.
  intros K. unfold unlink. destruct (unlink_buckets test (table c) [] limit) as [[chains removed'] limit'] eqn:E. intros [= <- <-].
  destruct (unlink_buckets_spec _ _ _ _ _ _ _ E) as (new & -> & Hp & Hn & Hl & Hk & Hs). rewrite app_nil_r in *.
  destruct (Core_unlinked o f g cr mr c chains new K Hp Hs) as [Hnd K1].
  destruct (DeleteRecords_spec new o f g cr mr _ Hnd K1 (k_fill _ _ _ _ _ _ K)) as (c' & Ed & K' & T' & N' & F').
  exists c'. split_and!; [done|done|]. cbn [table next_entry] in T', N'. split; rewrite ?T'; try done; [lia|intros; apply Hk; lia].
Qed.

Lemma trim o f g cr mr c removed c1 : Core o f g cr mr c -> TrimReadyPages c = (removed, c1) ->
  exists c', DeleteRecords removed c1 = Some c' /\ Core o f g cr mr c' /\ next_entry c' = next_entry c /\ fewer c c'.
Proof.
  intros K. unfold TrimReadyPages, DetachInactiveReadyPages. destruct (_ <? _).
  - intros E. destruct (discard _ _ _ _ _ _ _ _ _ _ K E) as (c' & Ed & K' & [_ _ _ _ N F]). eauto.
  - intros [= <- <-]. exists c. by split_and!.
Qed.

(** ** Changing one entry *)

Lemma Core_update o f g cr mr c o' f' g' cr' e x n x' n' : Core o f g cr mr c -> heap c !! e = Some (x, n) -> key x' = key x ->
  (forall e', e' <> e -> o' e' = o e' /\ f' e' = f e' /\ g' e' = g e') ->
  n' = (o' e + b2n (in_table e c))%nat -> (0 < n')%nat -> entry_ok (f' e) x' -> completion x' = bool_decide (g' e = 1%nat) ->
  (f' e <= o' e)%nat -> (forall pa, (cr' pa + b2n (holds pa (x', n')) = cr pa + b2n (holds pa (x, n)))%nat) ->
  Core o' f' g' cr' mr (with_heap (<[e := (x', n')]> (heap c)) c).
Proof.
  intros K He Hk Hother Hn H0 Hok Hc Hf Hr. pose proof K as [K1 K2 K3 K4 K5 K6 K7 K8 K9 K10]. set (c' := with_heap _ c).
  assert (forall e0, exists y0, (entry_of c e0 = None /\ entry_of c' e0 = None) \/
    (entry_of c e0 = Some y0 /\ exists y, entry_of c' e0 = Some y /\ key y = key y0)) as Hent.
  { intros e0. unfold entry_of, c'; cbn. destruct (decide (e0 = e)) as [->|Hne].
    - rewrite lookup_insert_eq, He. exists x. right. cbn. eauto.
    - rewrite lookup_insert_ne by done. destruct (heap c !! e0) as [[y m]|]; [exists y; right; cbn; eauto|exists x; by left]. }
  constructor; try done.
  - intros i chain e0 Hi Hin. destruct (K2 i chain e0 Hi Hin) as (y & Hy & Hb). destruct (Hent e0) as (y0 & [[? _]|(Hy0 & y' & Hy' & Hk')]); [congruence|].
    exists y'. split; [done|]. rewrite Hk'. congruence.
  - intros e1 e2 x1 x2 H1 H2 E1 E2 Hkk. destruct (Hent e1) as (y1 & [[_ ?]|(Hy1 & y1' & Hy1' & Hk1)]); [congruence|].
    destruct (Hent e2) as (y2 & [[_ ?]|(Hy2 & y2' & Hy2' & Hk2)]); [congruence|]. apply (K4 e1 e2 y1 y2); try done. congruence.
  - intros e0 y m. unfold c'; cbn. destruct (decide (e0 = e)) as [->|Hne].
    + rewrite lookup_insert_eq. intros [= <- <-]. by destruct (K6 e x n He) as (? & _).
    + rewrite lookup_insert_ne by done. destruct (Hother e0 Hne) as (-> & -> & ->). apply K6.
  - intros e0 Hp. unfold c'; cbn. destruct (decide (e0 = e)) as [->|Hne]; [rewrite lookup_insert_eq; eauto|].
    rewrite lookup_insert_ne by done. apply K7. by destruct (Hother e0 Hne) as (<- & _).
  - intros e0. destruct (decide (e0 = e)) as [->|Hne]; [done|]. destruct (Hother e0 Hne) as (-> & -> & _). apply K8.
  - intros pa. unfold c'; cbn. pose proof (heap_refs_update (heap c) e (x, n) (x', n') pa He) as Hu. specialize (Hr pa). specialize (K10 pa).
    replace (cr' pa + heap_refs _ pa)%nat with (cr pa + heap_refs (heap c) pa)%nat by lia. done.
Qed.

Lemma alter_entry (h : gmap nat (FileCacheEntry * nat)) e v u : h !! e = Some v -> alter u e h = <[e := u v]> h.
Proof.
  intros He. apply map_eq. intros i. destruct (decide (i = e)) as [->|Hne].
  - by rewrite lookup_alter_eq, lookup_insert_eq, He.
  - by rewrite lookup_alter_ne, lookup_insert_ne.
Qed.

(** ** Finding *)

Lemma Bucket_lt k : (Bucket k < BucketCount)%nat.
Proof.
  unfold Bucket. set (m := Z.lxor _ _). change (Z.of_nat BucketCount - 1) with (2 ^ 8 - 1). rewrite land_mask by lia.
  pose proof (Z.mod_pos_bound m (2 ^ 8) ltac:(lia)). unfold BucketCount. lia.
Qed.

Lemma has_key_spec (c : St) k e : has_key c k e = true <-> exists x, entry_of c e = Some x /\ key x = k.
Proof.
  unfold has_key. destruct (entry_of c e) as [x|]; [|naive_solver]. rewrite bool_decide_eq_true. naive_solver.
Qed.

(** The chain that is searched has every record of the key. *)
Lemma FindLink_spec o f g cr mr c k : Core o f g cr mr c ->
  match FindLink k c with
  | Some e => e ∈ concat (table c) /\ e ∈ table c !!! Bucket k /\ exists x, entry_of c e = Some x /\ key x = k
  | None => forall e x, e ∈ concat (table c) -> entry_of c e = Some x -> key x <> k
  end.
Proof.
  intros K. unfold FindLink. destruct (lookup_lt_is_Some_2 (table c) (Bucket k)) as [chain Hch].
  { rewrite (k_len _ _ _ _ _ _ K). apply Bucket_lt. }
  rewrite (list_lookup_total_correct _ _ _ Hch). destruct (List.find _ chain) as [e|] eqn:E.
  - apply find_some in E as [He%list_elem_of_In Hk%has_key_spec]. split; [apply elem_of_table; eauto|done].
  - intros e x Hin Hx Hk. apply elem_of_table in Hin as (i & ch & Hi & He).
    destruct (k_chain _ _ _ _ _ _ K i ch e Hi He) as (y & Hy & Hb). assert (y = x) as -> by congruence. rewrite Hk in Hb. subst i.
    assert (ch = chain) as -> by congruence. pose proof (find_none _ _ E e (proj1 (list_elem_of_In _ _) He)) as Hn.
    apply not_true_iff_false in Hn. apply Hn, has_key_spec. eauto.
Qed.

Lemma hit_spec o f g cr mr c e : Core o f g cr mr c -> e ∈ concat (table c) ->
  Core (more e o) f g cr mr (hit e c) /\ table (hit e c) = table c /\ next_entry (hit e c) = next_entry c /\ fewer c (hit e c).
Proof.
  intros K Hin. destruct (table_entry _ _ _ _ _ c e K Hin) as [x Hx]. apply entry_heap in Hx as [n He].
  destruct (k_heap _ _ _ _ _ _ K e x n He) as (E1 & E2 & E3 & E4 & E5). unfold hit, own, set_entry.
  set (u := count_hit). cbn [with_heap heap]. rewrite (alter_entry _ e (x, n) _ He).
  rewrite (alter_entry _ e (u x, n)) by apply lookup_insert_eq. rewrite insert_insert_eq. cbn [fst snd].
  assert (same_core x (u x)) as (S1 & S2 & S3 & S4 & S5) by (unfold same_core, u, count_hit; destruct (bool_decide (state x = Loading)); by repeat split).
  change (with_heap _ (with_heap _ c)) with (with_heap (<[e := (u x, S n)]> (heap c)) c).
  split; [|split_and!; [done|done|]].
  - eapply Core_update; [exact K|exact He|done| | | | |by rewrite S2| |].
    + intros e' Hne. unfold more. by rewrite (proj2 (Nat.eqb_neq e' e)).
    + unfold more. rewrite Nat.eqb_refl. lia.
    + lia.
    + unfold entry_ok. rewrite S3, S4, S5. exact E4.
    + unfold more. rewrite Nat.eqb_refl. pose proof (k_fill _ _ _ _ _ _ K e). lia.
    + intros pa. unfold holds; cbn [fst]. by rewrite S4, S5.
  - intros e' x'. unfold entry_of; cbn. destruct (decide (e' = e)) as [->|Hne].
    + rewrite lookup_insert_eq. intros [= <-]. exists x. rewrite He. split; [done|]. by split_and!.
    + rewrite lookup_insert_ne by done. intros Hx'. by exists x'.
Qed.

Lemma concat_alter (t : list (list nat)) i e : (i < length t)%nat -> concat (alter (fun ch => ch ++ [e]) i t) ≡ₚ e :: concat t.
Proof.
  revert i. induction t as [|ch t IH]; intros i Hi; cbn in Hi; [lia|]. destruct i as [|i]; cbn.
  - rewrite <- app_assoc. cbn. by rewrite Permutation_middle.
  - rewrite IH by lia. by rewrite Permutation_middle.
Qed.

(** A new entry in the table, with its filler. *)
Lemma insert_core o f g cr mr c k : Core o f g cr mr c -> FindLink k c = None -> let e := next_entry c in
  o e = 0%nat /\ f e = 0%nat /\
  Core (more e o) (more e f) (fun e' => if (e' =? e)%nat then 1%nat else g e') cr mr
    (MkCache (<[e := (new_entry k, 2%nat)]> (heap c)) (S e) (alter (fun chain => chain ++ [e]) (Bucket k) (table c))
       (record_count c + 1) (refs c)).
Proof.
  intros K Hf e. pose proof (FindLink_spec _ _ _ _ _ c k K) as Hnone. rewrite Hf in Hnone. pose proof K as [K1 K2 K3 K4 K5 K6 K7 K8 K9 K10].
  assert (heap c !! e = None) as He. { destruct (heap c !! e) as [[x n]|] eqn:E; [|done]. destruct (K6 e x n E) as (? & _). unfold e in *. lia. }
  assert (o e = 0%nat) as Ho. { destruct (o e) eqn:E; [done|]. destruct (K7 e) as [v Hv]; [lia|]. congruence. }
  assert (f e = 0%nat) as Hfe by (specialize (K8 e); lia).
  assert (e ∉ concat (table c)) as Hni. { intros Hin. destruct (table_entry _ _ _ _ _ c e K Hin) as [x Hx]. apply entry_heap in Hx as [n Hn]. congruence. }
  pose proof (concat_alter (table c) (Bucket k) e ltac:(rewrite K1; apply Bucket_lt)) as Hp. set (t := alter _ _ (table c)) in *.
  assert (forall e', e' ∈ concat t <-> e' = e \/ e' ∈ concat (table c)) as Hin by (intros e'; by rewrite Hp, elem_of_cons).
  set (h := <[e := (new_entry k, 2%nat)]> (heap c)). set (c' := MkCache h _ _ _ _).
  assert (forall e', e' <> e -> entry_of c' e' = entry_of c e') as Hent by (intros; unfold entry_of; cbn; unfold h; by rewrite lookup_insert_ne).
  assert (entry_of c' e = Some (new_entry k)) as Hnew by (unfold entry_of; cbn; unfold h; by rewrite lookup_insert_eq).
  split; [done|]. split; [done|].
  constructor; try change (table c') with t; try change (heap c') with h; try change (refs c') with (refs c);
    try change (record_count c') with (record_count c + 1); try change (next_entry c') with (S e).
  - unfold t. by rewrite length_alter.
  - intros i chain e' Hi He'. unfold t in Hi. destruct (decide (i = Bucket k)) as [->|Hne].
    + rewrite list_lookup_alter_eq in Hi. destruct (table c !! Bucket k) as [ch|] eqn:Ech; [|done]. injection Hi as <-.
      apply elem_of_app in He' as [He'|<-%list_elem_of_singleton]; [|exists (new_entry k); done].
      destruct (K2 _ ch e' Ech He') as (x & Hx & Hb). exists x. rewrite Hent; [done|]. intros ->. apply Hni, elem_of_table. eauto.
    + rewrite list_lookup_alter_ne in Hi by done. destruct (K2 _ chain e' Hi He') as (x & Hx & Hb). exists x. rewrite Hent; [done|].
      intros ->. apply Hni, elem_of_table. eauto.
  - rewrite Hp. by constructor.
  - intros e1 e2 x1 x2 [-> |H1]%Hin [-> |H2]%Hin; rewrite ?Hnew, ?(Hent e1), ?(Hent e2) by congruence; intros E1 E2 Hk.
    + done.
    + injection E1 as <-. exfalso. by apply (Hnone e2 x2 H2 E2).
    + injection E2 as <-. exfalso. by apply (Hnone e1 x1 H1 E1).
    + by apply (K4 e1 e2 x1 x2).
  - rewrite K5, Hp. cbn. lia.
  - intros e' x n. unfold h, more, in_table; cbn [table]. destruct (decide (e' = e)) as [->|Hne].
    + rewrite lookup_insert_eq, Nat.eqb_refl. intros [= <- <-]. rewrite bool_decide_eq_true_2 by (apply Hin; by left).
      split_and!; [lia|cbn; lia|lia|cbn; unfold entry_ok; cbn; rewrite Hfe; done|done].
    + rewrite lookup_insert_ne, (proj2 (Nat.eqb_neq e' e)) by done. intros Hx. destruct (K6 e' x n Hx) as (A1 & A2 & A3 & A4 & A5).
      split_and!; try done; [unfold e in *; lia|]. rewrite A2. unfold in_table. do 2 f_equal. apply bool_decide_ext.
      change (table c') with t. rewrite Hin. naive_solver.
  - intros e'. unfold more, h. destruct (decide (e' = e)) as [->|Hne]; [rewrite lookup_insert_eq; eauto|].
    rewrite lookup_insert_ne, (proj2 (Nat.eqb_neq e' e)) by done. apply K7.
  - intros e'. unfold more. specialize (K8 e'). destruct (e' =? e)%nat; lia.
  - done.
  - intros pa. unfold h. rewrite heap_refs_insert by done. cbn. rewrite Nat.add_0_r. apply K10.
Qed.

(** ** What the operations leave *)

(** Every entry is an old one or one that is described. *)
Definition only (new : nat -> FileCacheEntry -> Prop) (c c' : St) : Prop :=
  forall e x', entry_of c' e = Some x' -> (exists x, entry_of c e = Some x /\ same_core x x') \/ new e x'.

Lemma fewer_only new c c' : fewer c c' -> only new c c'.
Proof. intros F e x' Hx. left. by apply F. Qed.

Lemma only_fewer new c c1 c' : only new c c1 -> fewer c1 c' -> (forall e x x', new e x -> same_core x x' -> new e x') -> only new c c'.
Proof.
  intros H1 H2 Hn e x' Hx. destruct (H2 e x' Hx) as (x1 & Hx1 & Hs). destruct (H1 e x1 Hx1) as [(x & Hx0 & Hs0)|Hnew].
  - left. exists x. split; [done|]. destruct Hs as (?&?&?&?&?), Hs0 as (?&?&?&?&?). split_and!; congruence.
  - right. by eapply Hn.
Qed.

(** Pages that are handed out stay so while references are dropped. *)
Definition raw_same (c c' : St) : Prop := forall q, pr_raw (refs c') q <-> pr_raw (refs c) q.

Lemma drop_raw e (c c' : St) : pr_ok (refs c) -> drop e c = Some c' -> pr_ok (refs c') /\ raw_same c c'.
Proof.
  intros Hok. unfold drop. destruct (heap c !! e) as [[x [|[|n]]]|]; try done.
  - destruct (owns_cache_reference x); cbn [negb]; [|by intros [= <-]]. destruct (_ =? 0); [done|].
    destruct (pr_release (physical_address x) true (refs c)) as [[] p] eqn:E; [|done]. intros [= <-].
    by destruct (pr_release_spec _ _ _ _ _ Hok E) as (? & ? & _).
  - by intros [= <-].
Qed.

Lemma DeleteRecords_raw l : forall c c' : St, pr_ok (refs c) -> DeleteRecords l c = Some c' -> pr_ok (refs c') /\ raw_same c c'.
Proof.
  induction l as [|e l IH]; intros c c' Hok; cbn; [by intros [= <-]|].
  destruct (drop e c) as [c1|] eqn:E; [|done]. cbn. intros E2. destruct (drop_raw e c c1 Hok E) as [Hok1 H1].
  destruct (IH c1 c' Hok1 E2) as [? H2]. split; [done|]. intros q. rewrite (H2 q). apply H1.
Qed.

Lemma discard_raw test limit (c c1 c' : St) removed : pr_ok (refs c) -> unlink test limit c = (removed, c1) ->
  DeleteRecords removed c1 = Some c' -> raw_same c c'.
Proof.
  intros Hok. unfold unlink. destruct (unlink_buckets _ _ _ _) as [[chains rem] lim]. intros [= <- <-] Ed.
  eapply DeleteRecords_raw in Ed as [_ H]; [exact H|exact Hok].
Qed.

Lemma trim_raw (c c1 c' : St) removed : pr_ok (refs c) -> TrimReadyPages c = (removed, c1) ->
  DeleteRecords removed c1 = Some c' -> raw_same c c'.
Proof.
  intros Hok. unfold TrimReadyPages, DetachInactiveReadyPages. destruct (_ <? _); [by apply discard_raw|].
  intros [= <- <-]. by intros [= <-].
Qed.

(** ** [FindOrInsert] *)

Lemma FindOrInsert_find_spec o f g cr mr c k : Core o f g cr mr c ->
  let '(found, c') := FindOrInsert_find k c in raw_same c c' /\ fewer c c' /\
  match found with
  | Some e => Core (more e o) f g cr mr c' /\ exists x, entry_of c' e = Some x /\ key x = k
  | None => c' = c
  end.
Proof.
  intros K. unfold FindOrInsert_find. pose proof (FindLink_spec _ _ _ _ _ c k K) as Hl. destruct (FindLink k c) as [e|]; [|done].
  destruct Hl as (Hin & _ & x & Hx & Hk). destruct (hit_spec _ _ _ _ _ c e K Hin) as (K' & _ & _ & F). split_and!; [done|done|done|].
  destruct (k_own _ _ _ _ _ _ K' e) as [[x' n] Hx']; [unfold more; rewrite Nat.eqb_refl; lia|]. exists x'.
  assert (entry_of (hit e c) e = Some x') as E by (apply entry_heap; eauto). split; [done|].
  destruct (F e x' E) as (y & Hy & Hs). destruct Hs as (-> & _). congruence.
Qed.

Lemma FindOrInsert_insert_spec o f cr mr c k a b : Core o f f cr mr c -> exists found c', FindOrInsert_insert a b k c = Some (found, c') /\
  raw_same c c' /\
  match found with
  | None => c' = c
  | Some (e, false) => Core (more e o) f f cr mr c' /\ fewer c c' /\ exists x, entry_of c' e = Some x /\ key x = k
  | Some (e, true) => entry_of c e = None /\ Core (more e o) (more e f) (more e f) cr mr c' /\
      (exists x, entry_of c' e = Some x /\ key x = k) /\ only (fun e' x => e' = e /\ same_core (new_entry k) x) c c'
  end.
Proof.
  intros K. unfold FindOrInsert_insert. destruct (negb a || negb b); [exists None, c; by split_and!|].
  pose proof (FindOrInsert_find_spec _ _ _ _ _ c k K) as Hs. unfold FindOrInsert_find in Hs. destruct (FindLink k c) as [e|] eqn:El.
  { destruct Hs as (H1 & H2 & H3 & H4). eexists _, _. split; [done|]. by split_and!. }
  clear Hs. destruct (insert_core _ _ _ _ _ c k K El) as (Ho & Hf & K1). set (e := next_entry c) in *. set (c1 := MkCache _ _ _ _ _) in *.
  destruct (TrimReadyPages c1) as [removed c2] eqn:Et. destruct (trim _ _ _ _ _ c1 removed c2 K1 Et) as (c' & Ed & K' & _ & F).
  rewrite Ed. cbn [mbind option_bind]. eexists _, c'. split; [done|].
  assert (entry_of c e = None) as Hnone. { unfold entry_of. destruct (heap c !! e) as [[x n]|] eqn:E; [|done]. destruct (k_heap _ _ _ _ _ _ K e x n E) as (? & _). unfold e in *. lia. }
  assert (raw_same c1 c') as Hr by exact (trim_raw c1 c2 c' removed (k_ok _ _ _ _ _ _ K) Et Ed).
  split; [exact Hr|]. split; [done|]. assert (only (fun e' x => e' = e /\ same_core (new_entry k) x) c c') as Honly.
  { eapply only_fewer; [|exact F|]; [|intros e' x x' [-> (?&?&?&?&?)] (?&?&?&?&?); split; [done|split_and!; congruence]].
    intros e' x'. unfold entry_of, c1; cbn. destruct (decide (e' = e)) as [->|Hne]; [rewrite lookup_insert_eq; intros [= <-]; by right|].
    rewrite lookup_insert_ne by done. intros Hx. left. by exists x'. }
  split_and!; [| |exact Honly].
  - eapply Core_ext; [exact K'|..]; try done. intros e'. unfold more. destruct (e' =? e)%nat eqn:E; [|done]. apply Nat.eqb_eq in E as ->. lia.
  - destruct (k_own _ _ _ _ _ _ K' e) as [[x n] Hx]; [unfold more; rewrite Nat.eqb_refl; lia|]. exists x.
    assert (entry_of c' e = Some x) as E by (apply entry_heap; eauto). split; [done|].
    destruct (Honly e x E) as [(y & Hy & _)|[_ Hs]]; [congruence|]. by destruct Hs as (-> & _).
Qed.

(** ** [Complete] *)

Lemma unlink_one_chain e chain : e ∈ chain ->
  chain ≡ₚ (unlink_chain (fun e' => bool_decide (e' = e)) chain [] 1).1.1 ++ [e].
Proof.
  intros He. destruct (unlink_chain _ chain [] 1) as [[kept removed] limit] eqn:E.
  destruct (unlink_chain_spec _ _ _ _ _ _ _ E) as (new & _ & Hp & Hn & Hl & Hk). cbn [fst]. destruct new as [|z [|]]; cbn in Hl; [|  |lia].
  - exfalso. rewrite app_nil_r in Hp. rewrite Hp in He. specialize (Hk ltac:(lia)). rewrite Forall_forall in Hk.
    specialize (Hk e He). by rewrite bool_decide_eq_true_2 in Hk.
  - apply Forall_cons in Hn as [Hz _]. apply bool_decide_eq_true in Hz as ->. done.
Qed.

Lemma unlink_one_table (t : list (list nat)) i chain u e : t !! i = Some chain -> chain ≡ₚ u chain ++ [e] ->
  concat t ≡ₚ concat (alter u i t) ++ [e] /\ Forall2 (fun ch ch' : list nat => ch' ⊆ ch) t (alter u i t).
Proof.
  intros Hi Hp. assert (forall l : list (list nat), Forall2 (fun ch ch' : list nat => ch' ⊆ ch) l l) as Hrefl by (intros l; induction l; constructor; done).
  revert i Hi. induction t as [|ch t IH]; intros [|i] Hi; [done|done| |]; cbn in *.
  - injection Hi as ->. split; [rewrite Hp at 1; rewrite <- !app_assoc; by rewrite (Permutation_app_comm [e])|].
    constructor; [|apply Hrefl]. intros z Hz. rewrite Hp. apply elem_of_app. by left.
  - destruct (IH i Hi) as [H1 H2]. split; [by rewrite H1, app_assoc|by constructor].
Qed.

(** The record of an entry leaves the table and its owner is dropped. *)
Lemma unlink_one_spec o f g cr mr c e x : Core o f g cr mr c -> entry_of c e = Some x -> FindLink (key x) c = Some e ->
  exists c', DeleteRecords [e] (unlink_one (key x) e c) = Some c' /\ Core o f g cr mr c' /\ fewer c c'.
Proof.
  intros K Hx Hl. pose proof (FindLink_spec _ _ _ _ _ c (key x) K) as Hs. rewrite Hl in Hs. destruct Hs as (_ & Hch & _).
  destruct (lookup_lt_is_Some_2 (table c) (Bucket (key x))) as [chain Hi]; [rewrite (k_len _ _ _ _ _ _ K); apply Bucket_lt|].
  rewrite (list_lookup_total_correct _ _ _ Hi) in Hch. unfold unlink_one.
  set (u := fun chain => (unlink_chain (fun e' => bool_decide (e' = e)) chain [] 1).1.1).
  destruct (unlink_one_table (table c) (Bucket (key x)) chain u e Hi (unlink_one_chain e chain Hch)) as [Hp Hsub].
  destruct (Core_unlinked _ _ _ _ _ c _ [e] K Hp Hsub) as [Hnd K1].
  destruct (DeleteRecords_spec [e] o f g cr mr _ Hnd K1 (k_fill _ _ _ _ _ _ K)) as (c' & Ed & K' & _ & _ & F).
  exists c'. by split_and!.
Qed.

Lemma set_entry_of e u (c : St) : entry_of (set_entry e u c) e = u <$> entry_of c e.
Proof. unfold entry_of, set_entry; cbn. rewrite lookup_alter_eq. by destruct (heap c !! e). Qed.

Lemma set_entry_of_ne e e' u (c : St) : e' <> e -> entry_of (set_entry e u c) e' = entry_of c e'.
Proof. intros Hne. unfold entry_of, set_entry; cbn. by rewrite lookup_alter_ne. Qed.

(** The page is there, and it is [q]. *)
Definition is_page (pa q : Z) : bool := truthy pa && (q =? pa).

(** The last part of [Complete]. *)
Lemma open_entry_spec o f g cr mr c e x : Core o f g cr mr c -> entry_of c e = Some x ->
  Core o f (fun e' => if (e' =? e)%nat then 0%nat else g e') cr mr (set_entry e open_entry c).
Proof.
  intros K Hx. apply entry_heap in Hx as [n He]. destruct (k_heap _ _ _ _ _ _ K e x n He) as (E1 & E2 & E3 & E4 & E5).
  unfold set_entry. rewrite (alter_entry _ e (x, n) _ He). cbn [fst snd]. eapply Core_update; [exact K|exact He|done|..]; try done.
  - intros e' Hne. by rewrite (proj2 (Nat.eqb_neq e' e)).
  - by rewrite Nat.eqb_refl.
  - apply (k_fill _ _ _ _ _ _ K).
Qed.

(** The first part: the entry gets its final state, and the reference of a filled page. *)
Lemma finish_spec o f cr cr' mr c e x pa : Core o f f cr mr c -> f e = 1%nat -> entry_of c e = Some x ->
  (forall q, (cr' q + b2n (is_page pa q))%nat = cr q) ->
  Core o (less e f) f cr' mr (set_entry e (finish (if truthy pa then Ready else Error) pa) c) /\ state x = Loading.
Proof.
  intros K Hf Hx Hcr. apply entry_heap in Hx as [n He]. destruct (k_heap _ _ _ _ _ _ K e x n He) as (E1 & E2 & E3 & E4 & E5).
  unfold entry_ok in E4. assert (state x = Loading /\ owns_cache_reference x = false) as [Hs Ho] by (destruct (state x); naive_solver lia).
  split; [|done]. unfold set_entry. rewrite (alter_entry _ e (x, n) _ He). cbn [fst snd]. eapply Core_update; [exact K|exact He|..]; try done.
  - unfold finish. by destruct (truthy pa).
  - intros e' Hne. unfold less. by rewrite (proj2 (Nat.eqb_neq e' e)).
  - unfold less. rewrite Nat.eqb_refl, Hf. unfold entry_ok, finish, truthy. destruct (pa =? 0) eqn:Ep; cbn; [done|split_and!; [done|done|lia]].
  - unfold finish. rewrite <- E5. by destruct (truthy pa).
  - unfold less. rewrite Nat.eqb_refl. pose proof (k_fill _ _ _ _ _ _ K e). lia.
  - intros q. unfold holds; cbn [fst]. rewrite Ho. cbn [andb b2n]. specialize (Hcr q). unfold is_page in Hcr. unfold finish. destruct (truthy pa); cbn in *; rewrite ?Ho; cbn [andb b2n];
      [rewrite (Z.eqb_sym pa q)|]; lia.
Qed.

(** What [Complete] makes of the entry. *)
Definition completed (k : FileCacheKey) (pa : Z) (x : FileCacheEntry) : Prop :=
  key x = k /\ owns_cache_reference x = truthy pa /\
  if truthy pa then state x = Ready /\ physical_address x = pa else state x = Error.

Lemma Complete_spec o f cr cr' mr c e x pa : Core o f f cr mr c -> f e = 1%nat -> entry_of c e = Some x ->
  (forall q, (cr' q + b2n (is_page pa q))%nat = cr q) ->
  exists c', Complete e pa c = Some c' /\ Core o (less e f) (less e f) cr' mr c' /\ raw_same c c' /\ state x = Loading /\
    (exists x', entry_of c' e = Some x' /\ completed (key x) pa x') /\ only (fun e' x' => e' = e /\ completed (key x) pa x') c c'.
Proof.
  intros K Hf Hx Hcr. destruct (finish_spec o f cr cr' mr c e x pa K Hf Hx Hcr) as [K1 Hst]. unfold Complete.
  set (x1 := finish (if truthy pa then Ready else Error) pa x). set (c1 := set_entry e _ c) in *.
  assert (entry_of c1 e = Some x1) as Hx1 by (unfold c1; rewrite set_entry_of, Hx; done). rewrite Hx1. cbn [mbind option_bind].
  assert (key x1 = key x) as Hk1 by (unfold x1, finish; by destruct (truthy pa)).
  assert (owns_cache_reference x = false) as Hox.
  { pose proof Hx as [n He]%entry_heap. destruct (k_heap _ _ _ _ _ _ K e x n He) as (_ & _ & _ & E4 & _). unfold entry_ok in E4. rewrite Hst in E4. apply E4. }
  assert (completed (key x) pa x1) as Hc1.
  { split; [done|]. unfold x1, finish. destruct (truthy pa); cbn; [done|]. by rewrite Hox. }
  set (rest := if truthy pa then TrimReadyPages c1 else _). destruct rest as [removed c2] eqn:Er.
  assert (exists c3, DeleteRecords removed c2 = Some c3 /\ Core o (less e f) f cr' mr c3 /\ fewer c1 c3 /\ raw_same c1 c3) as (c3 & Ed & K3 & F3 & R3).
  { unfold rest in Er. destruct (truthy pa).
    - destruct (trim _ _ _ _ _ c1 removed c2 K1 Er) as (c3 & Ed & K3 & _ & F3). exists c3. split_and!; [done|done|done|].
      exact (trim_raw c1 c2 c3 removed (k_ok _ _ _ _ _ _ K1) Er Ed).
    - destruct (bool_decide (FindLink (key x1) c1 = Some e)) eqn:Ef; [|injection Er as <- <-; by exists c1].
      apply bool_decide_eq_true in Ef. destruct (unlink_one_spec _ _ _ _ _ c1 e x1 K1 Hx1 Ef) as (c3 & Ed & K3 & F3). injection Er as <- <-.
      exists c3. split_and!; [done|done|done|]. eapply DeleteRecords_raw in Ed as [_ H]; [exact H|apply (k_ok _ _ _ _ _ _ K1)]. }
  rewrite Ed. cbn [mbind option_bind]. destruct (k_own _ _ _ _ _ _ K3 e) as [[x3 n3] H3]; [pose proof (k_fill _ _ _ _ _ _ K e); lia|].
  assert (entry_of c3 e = Some x3) as Hx3 by (apply entry_heap; eauto). rewrite Hx3. eexists. split; [done|].
  assert (forall x', same_core x1 x' -> completed (key x) pa x') as Hsame.
  { intros x' (S1 & _ & S3 & S4 & S5). unfold completed in *. rewrite S1, S3, S4, S5. exact Hc1. }
  destruct (F3 e x3 Hx3) as (y & Hy & Hs3). assert (y = x1) as -> by congruence. split_and!; [|exact R3|done| |].
  - eapply Core_ext; [exact (open_entry_spec _ _ _ _ _ c3 e x3 K3 Hx3)|..]; try done. intros e'. unfold less. destruct (e' =? e)%nat eqn:E; [|done].
    apply Nat.eqb_eq in E as ->. by rewrite Hf.
  - exists (open_entry x3). rewrite set_entry_of, Hx3. split; [done|]. exact (Hsame x3 Hs3).
  - intros e' x'. destruct (decide (e' = e)) as [->|Hne].
    + rewrite set_entry_of, Hx3. intros [= <-]. right. split; [done|]. exact (Hsame x3 Hs3).
    + rewrite set_entry_of_ne by done. intros Hx'. left. destruct (F3 e' x' Hx') as (y & Hy' & Hs). unfold c1 in Hy'.
      rewrite set_entry_of_ne in Hy' by done. by exists y.
Qed.

(** ** The other operations *)

Lemma InvalidateVersions_spec o f g cr mr c id version : Core o f g cr mr c -> exists c', InvalidateVersions id version c = Some c' /\
  Core o f g cr mr c' /\ raw_same c c' /\ fewer c c' /\
  (id <> 0 -> forall e x, e ∈ concat (table c') -> entry_of c' e = Some x -> identity (key x) = id -> content_version (key x) = version).
Proof.
  intros K. unfold InvalidateVersions. destruct (id =? 0) eqn:Ei; [exists c; split_and!; try done; lia|].
  set (stale e := match entry_of c e with Some x => _ | None => false end). destruct (unlink stale _ c) as [removed c1] eqn:E.
  destruct (discard _ _ _ _ _ c stale _ removed c1 K E) as (c' & Ed & K' & D). exists c'. split; [done|]. split; [done|].
  split; [exact (discard_raw _ _ _ _ _ _ (k_ok _ _ _ _ _ _ K) E Ed)|]. split; [apply D|]. intros _ e x Hin Hx Hid.
  pose proof (dc_table _ _ _ _ _ D) as Hp. pose proof (Permutation_length Hp) as Hlen. rewrite length_app in Hlen.
  assert (0 < length (concat (table c')))%nat as Hpos by (destruct (concat (table c')); [by apply not_elem_of_nil in Hin|cbn; lia]).
  pose proof (dc_rest _ _ _ _ _ D ltac:(lia)) as Hr. rewrite Forall_forall in Hr. specialize (Hr e Hin).
  destruct (dc_fewer _ _ _ _ _ D e x Hx) as (y & Hy & (Hk & _)). unfold stale in Hr. rewrite Hy in Hr. rewrite Hk in *.
  destruct (content_version (key y) =? version) eqn:Ev; [lia|]. apply andb_false_iff in Hr as [?|?]; [lia|done].
Qed.

Lemma ForgetInode_spec o f g cr mr c id : Core o f g cr mr c -> exists c', ForgetInode id c = Some c' /\
  Core o f g cr mr c' /\ raw_same c c' /\ fewer c c' /\
  (id <> 0 -> forall e x, e ∈ concat (table c') -> entry_of c' e = Some x -> identity (key x) <> id).
Proof.
  intros K. unfold ForgetInode. destruct (id =? 0) eqn:Ei; [exists c; split_and!; try done; lia|].
  set (test e := match entry_of c e with Some x => _ | None => false end). destruct (unlink test _ c) as [removed c1] eqn:E.
  destruct (discard _ _ _ _ _ c test _ removed c1 K E) as (c' & Ed & K' & D). exists c'. split; [done|]. split; [done|].
  split; [exact (discard_raw _ _ _ _ _ _ (k_ok _ _ _ _ _ _ K) E Ed)|]. split; [apply D|]. intros _ e x Hin Hx Hid.
  pose proof (dc_table _ _ _ _ _ D) as Hp. pose proof (Permutation_length Hp) as Hlen. rewrite length_app in Hlen.
  assert (0 < length (concat (table c')))%nat as Hpos by (destruct (concat (table c')); [by apply not_elem_of_nil in Hin|cbn; lia]).
  pose proof (dc_rest _ _ _ _ _ D ltac:(lia)) as Hr. rewrite Forall_forall in Hr. specialize (Hr e Hin).
  destruct (dc_fewer _ _ _ _ _ D e x Hx) as (y & Hy & (Hk & _)). unfold test in Hr. rewrite Hy in Hr. rewrite Hk in *. lia.
Qed.

Lemma ReclaimInactive_spec o f g cr mr c limit : Core o f g cr mr c -> exists removed c',
  ReclaimInactive limit c = Some (length removed, c') /\ Core o f g cr mr c' /\ raw_same c c' /\ Discarded (inactive c) limit removed c c'.
Proof.
  intros K. unfold ReclaimInactive, DetachInactiveReadyPages. destruct (unlink (inactive c) limit c) as [removed c1] eqn:E.
  destruct (discard _ _ _ _ _ c (inactive c) limit removed c1 K E) as (c' & Ed & K' & D). exists removed, c'. rewrite Ed. cbn.
  split; [done|]. split; [done|]. split; [exact (discard_raw _ _ _ _ _ _ (k_ok _ _ _ _ _ _ K) E Ed)|done].
Qed.

Lemma Remove_spec o f g cr mr c k expected : Core o f g cr mr c -> exists c',
  Remove k expected c = Some (bool_decide (Valid k = true /\ expected <> None /\ FindLink k c = expected), c') /\ Core o f g cr mr c' /\ fewer c c'.
Proof.
  intros K. unfold Remove. destruct expected as [e|]; [|exists c; rewrite bool_decide_eq_false_2 by naive_solver; by split_and!].
  destruct (Valid k); cbn [negb]; [|exists c; rewrite bool_decide_eq_false_2 by naive_solver; by split_and!].
  destruct (bool_decide (FindLink k c = Some e)) eqn:Ef.
  - apply bool_decide_eq_true in Ef. pose proof (FindLink_spec _ _ _ _ _ c k K) as Hl. rewrite Ef in Hl. destruct Hl as (_ & _ & x & Hx & <-).
    destruct (unlink_one_spec _ _ _ _ _ c e x K Hx Ef) as (c' & -> & K' & F). exists c'. rewrite bool_decide_eq_true_2 by done. by split_and!.
  - apply bool_decide_eq_false in Ef. exists c. rewrite bool_decide_eq_false_2 by naive_solver. by split_and!.
Qed.

(** The references of the page manager change, and what is held outside with them. *)
Lemma Core_refs o f g cr mr cr' mr' c p : Core o f g cr mr c -> pr_ok p ->
  (forall pa, refs_are (pr_query pa p) (mr' pa) (cr' pa + heap_refs (heap c) pa)) -> Core o f g cr' mr' (with_refs p c).
Proof. intros [K1 K2 K3 K4 K5 K6 K7 K8 K9 K10] Hp Hr. by constructor. Qed.

(** ** The page manager *)

Definition add (pa : Z) (n : Z -> nat) : Z -> nat := fun q => (n q + b2n (q =? pa)%Z)%nat.
Definition sub (pa : Z) (n : Z -> nat) : Z -> nat := fun q => (n q - b2n (q =? pa)%Z)%nat.

Lemma Core_same_query o f g cr mr c p : Core o f g cr mr c -> pr_ok p -> (forall pa, pr_query pa p = pr_query pa (refs c)) ->
  Core o f g cr mr (with_refs p c).
Proof. intros K Hp Hq. eapply Core_refs; [exact K|done|]. intros pa. rewrite Hq. apply K. Qed.

Lemma Core_adopt o f g cr mr c x y pa b p : Core o f g cr mr c -> pr_raw (refs c) pa -> pr_adopt x y pa (refs c) = (b, p) ->
  Core o f g cr (if b then add pa mr else mr) (with_refs p c) /\ mr pa = 0%nat.
Proof.
  intros K Hr E. destruct (pr_adopt_spec _ _ _ _ _ _ (k_ok _ _ _ _ _ _ K) Hr E) as (Hp & Hq & _).
  pose proof (k_refs _ _ _ _ _ _ K pa) as Hn. rewrite (pr_raw_query _ _ Hr) in Hn. cbn in Hn.
  split; [|lia]. eapply Core_refs; [exact K|done|]. intros q. rewrite Hq. unfold add. pose proof (k_refs _ _ _ _ _ _ K q) as Kq.
  destruct b; [|by rewrite andb_false_r]. rewrite andb_true_r. destruct (q =? pa) eqn:Eq; cbn [b2n].
  - apply Z.eqb_eq in Eq as ->. cbn. split; [f_equal; lia|lia].
  - by rewrite Nat.add_0_r.
Qed.

(** Retaining: a counter goes up when the page is managed and the manager can count. *)
Lemma Core_retain o f g cr mr c pa k b p : Core o f g cr mr c -> pr_retain pa k (refs c) = (b, p) ->
  Core o f g (if b && k then add pa cr else cr) (if b && negb k then add pa mr else mr) (with_refs p c).
Proof.
  intros K E. destruct (pr_retain_spec _ _ _ _ _ (k_ok _ _ _ _ _ _ K) E) as (Hp & _ & Hs & Hq). eapply Core_refs; [exact K|done|].
  intros q. rewrite Hq. pose proof (k_refs _ _ _ _ _ _ K q) as Kq. destruct b; [|by rewrite andb_false_r]. rewrite andb_true_r.
  destruct (q =? pa) eqn:Eq; [|destruct k; unfold add; cbn [andb negb]; rewrite ?Eq; cbn [b2n]; by rewrite ?Nat.add_0_r].
  apply Z.eqb_eq in Eq as ->. destruct (Hs eq_refl) as [mc Hmc]. rewrite Hmc in *. destruct Kq as [-> Hpos]. unfold bump.
  destruct k; cbn -[b2n Z.of_nat]; unfold add; rewrite Z.eqb_refl; cbn [b2n fst snd]; (split; [f_equal; lia|lia]).
Qed.

(** Releasing a reference that is held succeeds. *)
Lemma Core_release o f g cr mr c pa k b p : Core o f g cr mr c -> pr_release pa k (refs c) = (b, p) ->
  (0 < if k then cr pa else mr pa)%nat -> b = true /\
  Core o f g (if k then sub pa cr else cr) (if k then mr else sub pa mr) (with_refs p c).
Proof.
  intros K E Hpos. destruct (pr_release_spec _ _ _ _ _ (k_ok _ _ _ _ _ _ K) E) as (Hp & _ & Hb & Hq).
  pose proof (k_refs _ _ _ _ _ _ K pa) as Kpa. destruct (pr_query pa (refs c)) as [mc|] eqn:Emc; [|destruct k; cbn in Kpa; lia].
  destruct Kpa as [-> Hsum]. assert (b = true) as -> by (rewrite Hb; destruct k; cbn [kind fst snd]; lia). split; [done|].
  eapply Core_refs; [exact K|done|]. intros q. rewrite Hq, andb_true_r. pose proof (k_refs _ _ _ _ _ _ K q) as Kq.
  destruct (q =? pa) eqn:Eq; [|destruct k; unfold sub; rewrite ?Eq; cbn [b2n]; by rewrite ?Nat.sub_0_r].
  apply Z.eqb_eq in Eq as ->. cbn [mbind option_bind]. unfold released, bump.
  destruct k; cbn [fst snd]; unfold sub; rewrite Z.eqb_refl; cbn [b2n]; (destruct (_ && _) eqn:Ez; cbn; [lia|split; [f_equal; lia|lia]]).
Qed.

End Core.
