(* ===== verification/FileCacheWorld.v ===== *)
(** * The file cache: threads

    The invariant of a world with any number of threads in [AcquireCachedFileMappingPage], other
    holders of references and writers of files, and that every step keeps it.  [hist] gives the
    content of a file page at every version the file has had. *)
From S2P Require Import Prelude Interfaces PageRefs FileCache FileCacheProof.

(** ** What a thread holds *)

Definition pc_request (pc : PC) : option Request :=
  match pc with
  | AtKey _ _ | AtReturn _ => None
  | AtFind q | AtInsert q | AtWait q _ | AtVersion q _ | AtAlloc q _ | AtReclaim q _ | AtAlloc2 q _ | AtFill q _ _
  | AtGiveBack q _ _ _ | AtAdopt q _ _ | AtRetain q _ _ | AtUndoMapping q _ _ | AtRelease q _ _ | AtUndoCache q _ _
  | AtComplete q _ _ _ | AtGot q _ _ | AtCheck q _ _ | AtDrop q _ _ => Some q
  end.

(** An owner of the entry. *)
Definition pc_entry (pc : PC) : option nat :=
  match pc with
  | AtKey _ _ | AtReturn _ | AtFind _ | AtInsert _ => None
  | AtWait _ e | AtVersion _ e | AtAlloc _ e | AtReclaim _ e | AtAlloc2 _ e | AtFill _ e _
  | AtGiveBack _ e _ _ | AtAdopt _ e _ | AtRetain _ e _ | AtUndoMapping _ e _ | AtRelease _ e _ | AtUndoCache _ e _
  | AtComplete _ e _ _ | AtGot _ e _ | AtCheck _ e _ | AtDrop _ e _ => Some e
  end.

(** The filler of the entry. *)
Definition pc_fill (pc : PC) : option nat :=
  match pc with
  | AtAlloc _ e | AtReclaim _ e | AtAlloc2 _ e | AtFill _ e _ | AtGiveBack _ e _ _ | AtAdopt _ e _ | AtRetain _ e _
  | AtUndoMapping _ e _ | AtRelease _ e _ | AtUndoCache _ e _ | AtComplete _ e _ _ => Some e
  | _ => None
  end.

(** A mapping reference, a cache reference, a page that is not managed. *)
Definition pc_mapping (pc : PC) : option Z :=
  match pc with
  | AtRetain _ _ pa | AtUndoMapping _ _ pa | AtRelease _ _ pa | AtCheck _ _ pa | AtDrop _ _ pa => Some pa
  | _ => None
  end.
Definition pc_cache (pc : PC) : option Z :=
  match pc with
  | AtRelease _ _ pa | AtUndoCache _ _ pa => Some pa
  | AtComplete _ _ pa _ => if truthy pa then Some pa else None
  | _ => None
  end.
Definition pc_raw (pc : PC) : option Z :=
  match pc with
  | AtFill _ _ pa | AtGiveBack _ _ pa _ | AtAdopt _ _ pa => Some pa
  | _ => None
  end.

Definition pc_pages (pc : PC) (pa : Z) : Prop :=
  pc_raw pc = Some pa \/ pc_mapping pc = Some pa \/ pc_cache pc = Some pa.

(** The page of a filler, which nobody else knows. *)
Definition pc_private (pc : PC) : option Z :=
  match pc with
  | AtFill _ _ pa | AtGiveBack _ _ pa _ | AtAdopt _ _ pa | AtRetain _ _ pa | AtUndoMapping _ _ pa | AtRelease _ _ pa => Some pa
  | AtComplete _ _ pa _ => if truthy pa then Some pa else None
  | _ => None
  end.

(** The private page has the content of the file. *)
Definition pc_filled (pc : PC) : bool :=
  match pc with
  | AtAdopt _ _ _ | AtRetain _ _ _ | AtUndoMapping _ _ _ | AtRelease _ _ _ | AtComplete _ _ _ _ => true
  | _ => false
  end.

(** The entry is ready, and its page is the candidate. *)
Definition pc_ready (pc : PC) : bool :=
  match pc with AtGot _ _ RReady | AtCheck _ _ _ | AtDrop _ _ _ => true | _ => false end.
Definition pc_candidate (pc : PC) : option Z :=
  match pc with AtCheck _ _ pa | AtDrop _ _ pa => Some pa | _ => None end.

#[export] Instance FileCachePageResult_eq_dec : EqDecision FileCachePageResult.
Proof. solve_decision. Defined.

(** Places that are not consistent. *)
Definition pc_shape (pc : PC) : Prop :=
  match pc with
  | AtComplete _ _ pa r => truthy pa = bool_decide (r = RReady)
  | AtGiveBack _ _ _ r => r <> RReady
  | AtUndoCache _ _ _ => False
  | _ => True
  end.

(** ** Counting threads *)

Definition count {A} `{!EqDecision A} (f : PC -> option A) (a : A) (l : list PC) : nat :=
  length (filter (fun pc => f pc = Some a) l).

Definition is_at {A} `{!EqDecision A} (o : option A) (a : A) : nat := b2n (bool_decide (o = Some a)).

Section Count.
Context {A : Type} `{!EqDecision A} (f : PC -> option A).

Lemma count_cons a pc l : count f a (pc :: l) = (is_at (f pc) a + count f a l)%nat.
Proof. unfold count, is_at. rewrite filter_cons. destruct (decide (f pc = Some a)) as [E|E]; [rewrite bool_decide_eq_true_2|rewrite bool_decide_eq_false_2]; done. Qed.

Lemma count_app a l1 l2 : count f a (l1 ++ l2) = (count f a l1 + count f a l2)%nat.
Proof. unfold count. by rewrite filter_app, length_app. Qed.

Lemma count_goto a l t pc pc' : l !! t = Some pc -> (count f a (<[t := pc']> l) + is_at (f pc) a = count f a l + is_at (f pc') a)%nat.
Proof.
  revert t. induction l as [|pc0 l IH]; intros [|t] Hl; [done|done| |]; cbn in Hl.
  - injection Hl as ->. change (<[0%nat := pc']> (pc :: l)) with (pc' :: l). rewrite !count_cons. lia.
  - specialize (IH t Hl). change (<[S t := pc']> (pc0 :: l)) with (pc0 :: <[t := pc']> l). rewrite !count_cons. lia.
Qed.

Lemma count_pos a l t pc : l !! t = Some pc -> f pc = Some a -> (0 < count f a l)%nat.
Proof.
  intros Hl%list_elem_of_lookup_2 Hf. unfold count. assert (pc ∈ filter (fun pc => f pc = Some a) l) as Hin by (by apply list_elem_of_filter).
  destruct (filter _ l); [by apply not_elem_of_nil in Hin|cbn; lia].
Qed.

Lemma count_zero a l : (forall t pc, l !! t = Some pc -> f pc <> Some a) -> count f a l = 0%nat.
Proof.
  induction l as [|pc l IH]; intros Hn; [done|]. rewrite count_cons, IH by (intros t pc0 Hl; by apply (Hn (S t) pc0)).
  unfold is_at. by rewrite bool_decide_eq_false_2 by (by apply (Hn 0%nat)).
Qed.

(** Only one thread counts. *)
Lemma count_only a l t pc : l !! t = Some pc -> (forall t' pc', t' <> t -> l !! t' = Some pc' -> f pc' <> Some a) ->
  count f a l = is_at (f pc) a.
Proof.
  revert t. induction l as [|pc0 l IH]; intros [|t] Hl Hn; [done|done| |]; cbn in Hl; rewrite count_cons.
  - injection Hl as ->. rewrite count_zero; [lia|]. intros t' pc' Ht'. by apply (Hn (S t')).
  - rewrite (IH t Hl); [|intros t' pc' Hne Ht'; apply (Hn (S t')); [lia|done]]. unfold is_at at 1. rewrite bool_decide_eq_false_2; [done|]. by apply (Hn 0%nat).
Qed.

End Count.

Lemma is_at_None {A} `{!EqDecision A} (a : A) : is_at None a = 0%nat.
Proof. done. Qed.
Lemma is_at_nat (e e' : nat) : is_at (Some e) e' = b2n (e' =? e)%nat.
Proof. unfold is_at. f_equal. destruct (e' =? e)%nat eqn:E; [apply bool_decide_eq_true_2; f_equal; lia|apply bool_decide_eq_false_2; intros [= ->]; lia]. Qed.
Lemma is_at_Z (a b : Z) : is_at (Some a) b = b2n (b =? a).
Proof. unfold is_at. f_equal. destruct (b =? a) eqn:E; [apply bool_decide_eq_true_2; f_equal; lia|apply bool_decide_eq_false_2; intros [= ->]; lia]. Qed.

(** ** The invariant *)
Section World.
Context {P C : Type} `{!PageRefs P} `{!PageRefsLaws P} (zero_page : C).
Abbreviation W := (World P C).

Definition owners (w : W) (e : nat) : nat := count pc_entry e (threads w).
Definition fillers (w : W) (e : nat) : nat := count pc_fill e (threads w).
Definition cache_refs (w : W) (pa : Z) : nat := (count_occ Z.eq_dec (others w) pa + count pc_cache pa (threads w))%nat.
Definition mapping_refs (w : W) (pa : Z) : nat := (count_occ Z.eq_dec (mappings w) pa + count pc_mapping pa (threads w))%nat.

Definition world_core (w : W) : Prop := Core (owners w) (fillers w) (fillers w) (cache_refs w) (mapping_refs w) (cache w).

(** The thread [t], the page tables, the other caches or an entry know the page. *)
Definition touched (w : W) (t : nat) (pa : Z) : Prop :=
  (exists pc, threads w !! t = Some pc /\ pc_pages pc pa) \/ pa ∈ mappings w \/ pa ∈ others w \/
  exists e v, heap (cache w) !! e = Some v /\ holds pa v = true.
Definition only_of (w : W) (t : nat) (pa : Z) : Prop := forall t', t' <> t -> ~ touched w t' pa.

(** The key is of a file that has, or had, the version. *)
Definition key_ok (ins : gmap Z (Inode C)) (k : FileCacheKey) : Prop :=
  exists i x, ins !! i = Some x /\ identity k = i_identity x /\ content_version k <= i_version x.

Definition request_ok (ins : gmap Z (Inode C)) (q : Request) : Prop :=
  exists x, ins !! inode q = Some x /\ identity (rkey q) = i_identity x /\ content_version (rkey q) <= i_version x /\
    file_offset (rkey q) = offset q.

Definition entry_fits (pc : PC) (q : Request) (x : FileCacheEntry) : Prop :=
  key x = rkey q /\ (pc_ready pc = true -> state x = Ready) /\ (forall pa, pc_candidate pc = Some pa -> physical_address x = pa).

Record pc_ok (hist : FileCacheKey -> C) (w : W) (t : nat) (pc : PC) : Prop := {
  po_shape : pc_shape pc;
  po_key : forall i o, pc = AtKey i o -> i = 0 \/ is_Some (inodes w !! i);
  po_request : forall q, pc_request pc = Some q -> request_ok (inodes w) q;
  po_entry : forall q e, pc_request pc = Some q -> pc_entry pc = Some e -> exists x, entry_of (cache w) e = Some x /\ entry_fits pc q x;
  po_private : forall pa, pc_private pc = Some pa -> pa <> 0 /\ only_of w t pa;
  po_raw : forall pa, pc_raw pc = Some pa -> pr_raw (refs (cache w)) pa;
  po_filled : forall q pa, pc_request pc = Some q -> pc_private pc = Some pa -> pc_filled pc = true -> memory w pa = hist (rkey q);
}.

Record Inv (hist : FileCacheKey -> C) (w : W) : Prop := {
  inv_core : world_core w;
  inv_pc : forall t pc, threads w !! t = Some pc -> pc_ok hist w t pc;
  inv_entry : forall e x, entry_of (cache w) e = Some x -> key_ok (inodes w) (key x) /\
    (state x = Ready -> memory w (physical_address x) = hist (key x));
  inv_ids : forall i j x y, inodes w !! i = Some x -> inodes w !! j = Some y -> i_identity x = i_identity y -> i = j;
  inv_hist : forall i x o, inodes w !! i = Some x -> hist (MkKey (i_identity x) (i_version x) o) = i_page x o;
}.

(** ** Pages that are known *)

Definition known (p : P) (pa : Z) : Prop := is_Some (pr_query pa p) \/ pr_raw p pa.

Lemma refs_pos q m c : refs_are q m c -> (0 < m + c)%nat -> is_Some q.
Proof. destruct q; cbn; [eauto|lia]. Qed.

Lemma pc_pages_known hist w t pc pa : world_core w -> threads w !! t = Some pc -> pc_ok hist w t pc -> pc_pages pc pa -> known (refs (cache w)) pa.
Proof.
  intros K Ht Hok [Hr|Hm]; [right; by eapply Hok|left].
  eapply refs_pos; [apply (k_refs _ _ _ _ _ _ K pa)|]. unfold mapping_refs, cache_refs. destruct Hm as [Hm|Hm].
  - pose proof (count_pos pc_mapping pa _ t pc Ht Hm). lia.
  - pose proof (count_pos pc_cache pa _ t pc Ht Hm). lia.
Qed.

Lemma touched_known hist w t pa : Inv hist w -> touched w t pa -> known (refs (cache w)) pa.
Proof.
  intros I [(pc & Ht & Hp)|H]; [eapply pc_pages_known; [apply I|exact Ht|by apply I|exact Hp]|left].
  eapply refs_pos; [apply (k_refs _ _ _ _ _ _ (inv_core _ _ I) pa)|]. unfold mapping_refs, cache_refs.
  destruct H as [H|[H|(e & v & He & Hv)]].
  - apply list_elem_of_In, (count_occ_In Z.eq_dec) in H. lia.
  - apply list_elem_of_In, (count_occ_In Z.eq_dec) in H. lia.
  - pose proof (heap_refs_pos _ _ _ pa He Hv). lia.
Qed.

Lemma private_pages pc pa : pc_shape pc -> pc_private pc = Some pa -> pc_pages pc pa.
Proof. unfold pc_pages. destruct pc; cbn; try done; auto. Qed.

(** ** One thread, or the environment, moves *)

(** The new entries of a step. *)
Definition fresh_entry (hist : FileCacheKey -> C) (w w' : W) (t e : nat) (x' : FileCacheEntry) : Prop :=
  key_ok (inodes w) (key x') /\ (state x' = Ready -> memory w' (physical_address x') = hist (key x')) /\
  (owns_cache_reference x' = true -> touched w t (physical_address x')) /\
  (forall x, entry_of (cache w) e = Some x -> key x' = key x /\ state x <> Ready).

(** What a step of [t] may do to the rest of the world. *)
Record Moved (hist : FileCacheKey -> C) (w w' : W) (t : nat) : Prop := {
  mv_threads : forall t', t' <> t -> threads w' !! t' = threads w !! t';
  mv_inodes : inodes w' = inodes w;
  mv_only : only (fresh_entry hist w w' t) (cache w) (cache w');
  mv_raw : forall pa, pr_raw (refs (cache w)) pa -> ~ touched w t pa -> pr_raw (refs (cache w')) pa;
  mv_pages : forall pa, (exists pc, threads w' !! t = Some pc /\ pc_pages pc pa) \/ pa ∈ mappings w' \/ pa ∈ others w' ->
    touched w t pa \/ ~ known (refs (cache w)) pa;
  mv_memory : forall pa, ~ touched w t pa -> memory w' pa = memory w pa;
  mv_ready : forall e x, entry_of (cache w) e = Some x -> state x = Ready -> memory w' (physical_address x) = memory w (physical_address x);
}.

Lemma same_holds x x' n n' pa : same_core x x' -> holds pa (x', n') = holds pa (x, n).
Proof. intros (_ & _ & _ & H4 & H5). unfold holds; cbn. by rewrite H4, H5. Qed.

Lemma moved_touched hist w w' t t' pa : Moved hist w w' t -> touched w' t' pa -> touched w t' pa \/ touched w t pa \/ ~ known (refs (cache w)) pa.
Proof.
  intros M [(pc & Ht & Hp)|H].
  - destruct (decide (t' = t)) as [->|Hne]; [right; apply (mv_pages _ _ _ _ M); eauto|].
    left. left. exists pc. by rewrite <- (mv_threads _ _ _ _ M t' Hne).
  - right. destruct H as [H|[H|(e & [x' n'] & He & Hv)]]; [apply (mv_pages _ _ _ _ M); eauto..|].
    destruct (mv_only _ _ _ _ M e x') as [(x & Hx & Hs)|(_ & _ & Hf & _)]; [apply entry_heap; eauto| |].
    + left. right. right. right. apply entry_heap in Hx as [n Hx]. exists e, (x, n). split; [done|]. by rewrite <- (same_holds x x' n n' pa Hs).
    + left. unfold holds in Hv; cbn in Hv. apply andb_true_iff in Hv as [Ho Hpa]. apply Z.eqb_eq in Hpa as <-. by apply Hf.
Qed.

(** An entry with an owner stays. *)
Lemma moved_entry hist w w' t pc q e x : Moved hist w w' t -> world_core w' -> (0 < owners w' e)%nat -> entry_of (cache w) e = Some x ->
  entry_fits pc q x -> exists x', entry_of (cache w') e = Some x' /\ entry_fits pc q x'.
Proof.
  intros M K Ho Hx (F1 & F2 & F3). destruct (k_own _ _ _ _ _ _ K e Ho) as [[x' n] He]. exists x'.
  assert (entry_of (cache w') e = Some x') as Hx' by (apply entry_heap; eauto). split; [done|].
  destruct (mv_only _ _ _ _ M e x' Hx') as [(y & Hy & (S1 & S2 & S3 & S4 & S5))|(_ & _ & _ & Hf)].
  - assert (y = x) as -> by congruence. unfold entry_fits. rewrite S1, S3, S4. done.
  - destruct (Hf x Hx) as [Hk Hn]. split_and!; [by rewrite Hk| |].
    + intros Hr. exfalso. by apply Hn, F2.
    + intros pa Hpa. exfalso. apply Hn, F2. by destruct pc.
Qed.

(** The other threads are where they were, with what they had. *)
Lemma moved_others hist w w' t t' pc : Inv hist w -> Moved hist w w' t -> world_core w' -> t' <> t -> threads w !! t' = Some pc -> pc_ok hist w' t' pc.
Proof.
  intros I M K Hne Ht. pose proof (inv_pc _ _ I t' pc Ht) as [H1 H2 H3 H4 H5 H6 H7].
  assert (forall pa, pc_pages pc pa -> touched w t' pa) as Hown by (intros pa Hp; left; eauto).
  assert (forall pa, pc_private pc = Some pa -> ~ touched w t pa) as Hun by (intros pa Hp; by apply (H5 pa Hp)).
  constructor; rewrite ?(mv_inodes _ _ _ _ M); try done.
  - intros q e Hq He. destruct (H4 q e Hq He) as (x & Hx & Hf). eapply moved_entry; [exact M|exact K| |exact Hx|exact Hf].
    unfold owners. eapply count_pos; [by rewrite (mv_threads _ _ _ _ M t' Hne)|done].
  - intros pa Hp. destruct (H5 pa Hp) as [Hz Hpr]. split; [done|]. intros t2 Hne2 Htc.
    destruct (moved_touched _ _ _ _ _ _ M Htc) as [?|[?|Hk]]; [by apply (Hpr t2)|by apply (Hpr t)|].
    apply Hk. eapply touched_known; [exact I|]. by apply Hown, private_pages.
  - intros pa Hp. apply (mv_raw _ _ _ _ M); [by apply H6|]. apply Hun. by destruct pc.
  - intros q pa Hq Hp Hfl. rewrite (mv_memory _ _ _ _ M) by (by apply Hun). by apply H7.
Qed.

Lemma moved_Inv hist w w' t : Inv hist w -> Moved hist w w' t -> world_core w' ->
  (forall pc, threads w' !! t = Some pc -> pc_ok hist w' t pc) -> Inv hist w'.
Proof.
  intros I M K Hself. pose proof (mv_inodes _ _ _ _ M) as Hi. constructor; [done| | |rewrite Hi; apply I..].
  - intros t' pc Ht. destruct (decide (t' = t)) as [->|Hne]; [by apply Hself|]. rewrite (mv_threads _ _ _ _ M) in Ht by done. by eapply moved_others.
  - intros e x'. rewrite Hi. intros Hx'. destruct (mv_only _ _ _ _ M e x' Hx') as [(x & Hx & (S1 & S2 & S3 & S4 & S5))|(Hk & Hr & _ & _)]; [|done].
    destruct (inv_entry _ _ I e x Hx) as [Hk Hr]. rewrite S1, S3, S4. split; [done|]. intros Hst. rewrite (mv_ready _ _ _ _ M e x Hx Hst). by apply Hr.
Qed.

(** ** A thread goes on *)

Definition moved_to (w : W) (t : nat) (pc : PC) (c : Cache P) (m : Z -> C) (ms : list Z) : W :=
  MkWorld c m (inodes w) (<[t := pc]> (threads w)) ms (others w).

Lemma core_goto w t pc pc' o f cr mr c m ms : threads w !! t = Some pc -> Core o f f cr mr c ->
  (forall e, (o e + is_at (pc_entry pc) e = owners w e + is_at (pc_entry pc') e)%nat) ->
  (forall e, (f e + is_at (pc_fill pc) e = fillers w e + is_at (pc_fill pc') e)%nat) ->
  (forall pa, (cr pa + is_at (pc_cache pc) pa = cache_refs w pa + is_at (pc_cache pc') pa)%nat) ->
  (forall pa, (mr pa + is_at (pc_mapping pc) pa + count_occ Z.eq_dec (mappings w) pa
     = mapping_refs w pa + is_at (pc_mapping pc') pa + count_occ Z.eq_dec ms pa)%nat) ->
  world_core (moved_to w t pc' c m ms).
Proof.
  intros Ht K Ho Hf Hc Hm. eapply Core_ext; [exact K|..]; intros a; unfold owners, fillers, cache_refs, mapping_refs, moved_to in *; cbn [threads mappings others].
  - pose proof (count_goto pc_entry a _ t pc pc' Ht). specialize (Ho a). lia.
  - pose proof (count_goto pc_fill a _ t pc pc' Ht). specialize (Hf a). lia.
  - pose proof (count_goto pc_fill a _ t pc pc' Ht). specialize (Hf a). lia.
  - pose proof (count_goto pc_cache a _ t pc pc' Ht). specialize (Hc a). lia.
  - pose proof (count_goto pc_mapping a _ t pc pc' Ht). specialize (Hm a). lia.
Qed.

Lemma moved_to_threads w t pc c m ms t' : t' <> t -> threads (moved_to w t pc c m ms) !! t' = threads w !! t'.
Proof. intros Hne. cbn. by rewrite list_lookup_insert_ne. Qed.

Lemma moved_to_self w t pc pc0 c m ms : threads w !! t = Some pc0 -> threads (moved_to w t pc c m ms) !! t = Some pc.
Proof. intros Ht. cbn. apply list_lookup_insert_eq. by eapply lookup_lt_Some. Qed.

Lemma ready_touched w t e x : world_core w -> entry_of (cache w) e = Some x -> state x = Ready -> touched w t (physical_address x).
Proof.
  intros K Hx Hst. apply entry_heap in Hx as [n He]. right. right. right. exists e, (x, n). split; [done|].
  destruct (k_heap _ _ _ _ _ _ K e x n He) as (_ & _ & _ & Hok & _). unfold entry_ok in Hok. rewrite Hst in Hok.
  unfold holds; cbn. destruct Hok as (_ & -> & _). by rewrite Z.eqb_refl.
Qed.

(** No entry changes but for statistics, and no page that others see. *)
Lemma move_fewer hist w t pc pc' c m ms : Inv hist w -> threads w !! t = Some pc -> fewer (cache w) c ->
  (forall pa, pr_raw (refs (cache w)) pa -> ~ touched w t pa -> pr_raw (refs c) pa) ->
  (forall pa, pc_pages pc' pa \/ pa ∈ ms -> touched w t pa \/ ~ known (refs (cache w)) pa) ->
  (forall pa, m pa = memory w pa \/ pc_private pc = Some pa /\ only_of w t pa) -> Moved hist w (moved_to w t pc' c m ms) t.
Proof.
  intros I Ht F Hr Hp Hm. constructor; try done.
  - intros. by apply moved_to_threads.
  - by apply fewer_only.
  - intros pa [(pc0 & H0 & Hpc0)|[?|?]]; [|by apply Hp; right|left; unfold touched; auto].
    rewrite (moved_to_self w t pc' pc) in H0 by done. injection H0 as <-. apply Hp. by left.
  - intros pa Hn. destruct (Hm pa) as [?|[Hpr _]]; [done|]. destruct Hn. left. exists pc. split; [done|].
    unfold pc_pages. destruct pc; cbn in *; auto; done.
  - intros e x Hx Hst. destruct (Hm (physical_address x)) as [?|[_ Hpr]]; [done|]. exfalso.
    apply (Hpr (S t)); [lia|]. by eapply ready_touched; [apply I|..].
Qed.

(** A page that was only the thread's own, or that nobody knew, is the thread's own. *)
Lemma only_of_moved w t pc' c m pa : heap c = heap (cache w) -> only_of w t pa -> only_of (moved_to w t pc' c m (mappings w)) t pa.
Proof.
  intros Hh Ho t' Hne Htc. apply (Ho t' Hne). destruct Htc as [(pc & Ht & Hp)|H].
  - rewrite moved_to_threads in Ht by done. left. eauto.
  - right. cbn in H. by rewrite Hh in H.
Qed.

Lemma unknown_only_of hist w t pa : Inv hist w -> ~ known (refs (cache w)) pa -> only_of w t pa.
Proof. intros I Hk t' _ Htc. apply Hk. by eapply touched_known. Qed.

(** A filler goes on filling: at most the page manager and the filler's page change. *)
Lemma fill_move hist w t pc pc' p m cr mr q e : Inv hist w -> threads w !! t = Some pc ->
  Core (owners w) (fillers w) (fillers w) cr mr (with_refs p (cache w)) ->
  (forall pa, (cr pa + is_at (pc_cache pc) pa = cache_refs w pa + is_at (pc_cache pc') pa)%nat) ->
  (forall pa, (mr pa + is_at (pc_mapping pc) pa = mapping_refs w pa + is_at (pc_mapping pc') pa)%nat) ->
  pc_request pc = Some q -> pc_request pc' = Some q -> pc_fill pc = Some e -> pc_fill pc' = Some e -> pc_shape pc' ->
  (forall pa, pr_raw (refs (cache w)) pa -> pc_private pc <> Some pa -> pr_raw p pa) ->
  (forall pa, pc_raw pc' = Some pa -> pr_raw p pa) ->
  (forall pa, pc_private pc' = Some pa -> pa <> 0 /\ (pc_private pc = Some pa \/ ~ known (refs (cache w)) pa)) ->
  (forall pa, m pa = memory w pa \/ pc_private pc = Some pa) ->
  (forall pa, pc_private pc' = Some pa -> pc_filled pc' = true -> m pa = hist (rkey q)) ->
  Inv hist (moved_to w t pc' (with_refs p (cache w)) m (mappings w)).
Proof.
  intros I Ht K Hc Hm Hq Hq' He He' Hsh Hraw Hraw' Hpriv Hmem Hfil. pose proof (inv_pc _ _ I t pc Ht) as [H1 H2 H3 H4 H5 H6 H7].
  assert (forall pc0 e0, pc_fill pc0 = Some e0 -> pc_entry pc0 = Some e0 /\ pc_ready pc0 = false /\ pc_candidate pc0 = None /\
    (forall i o, pc0 <> AtKey i o) /\ (pc_shape pc0 -> forall pa, pc_pages pc0 pa -> pc_private pc0 = Some pa)) as Hfill.
  { intros pc0 e0. unfold pc_pages. destruct pc0; cbn; try done; intros [= ->]; split_and!; try done; try tauto; naive_solver. }
  destruct (Hfill _ _ He) as (F1 & _ & _ & _ & _). destruct (Hfill _ _ He') as (G1 & G2 & G3 & G4 & G5). specialize (G5 Hsh).
  assert (forall pa, pc_private pc = Some pa -> touched w t pa) as Htc by (intros pa Hp; left; exists pc; split; [done|by apply private_pages]).
  set (w' := moved_to _ _ _ _ _ _).
  assert (Moved hist w w' t) as M.
  { eapply move_fewer; [exact I|exact Ht|by intros e0 x Hx; exists x| | |].
    - intros pa Hr Hn. apply Hraw; [done|]. intros Hp. by apply Hn, Htc.
    - intros pa [Hp%G5|Hp]; [|left; unfold touched; auto]. destruct (Hpriv pa Hp) as [_ [?|?]]; [left; by apply Htc|by right].
    - intros pa. destruct (Hmem pa) as [?|Hp]; [by left|]. right. split; [done|]. by apply H5. }
  assert (world_core w') as K'.
  { eapply core_goto; [exact Ht|exact K|intros; rewrite F1, G1; lia|intros; rewrite He, He'; lia|exact Hc|]. intros pa. specialize (Hm pa). lia. }
  eapply moved_Inv; [exact I|exact M|exact K'|]. intros pc0 H0. unfold w' in H0. rewrite (moved_to_self w t pc' pc) in H0 by done. injection H0 as <-.
  constructor; try done.
  - intros i o ->. by destruct (G4 i o).
  - rewrite Hq'. intros q0 [= <-]. by apply H3.
  - rewrite Hq', G1. intros q0 e0 [= <-] [= <-]. destruct (H4 q e Hq F1) as (x & Hx & Hf).
    eapply moved_entry; [exact M|exact K'| |exact Hx|]; [eapply count_pos; [by apply (moved_to_self w t pc' pc)|done]|].
    split_and!; [apply Hf|by rewrite G2|by rewrite G3].
  - intros pa Hp. destruct (Hpriv pa Hp) as [Hz Hor]. split; [done|]. apply only_of_moved; [done|].
    destruct Hor as [Hp'|Hk]; [by apply H5|by eapply unknown_only_of].
  - rewrite Hq'. intros q0 pa [= <-]. apply Hfil.
Qed.

(** A thread goes on without a page of its own. *)
Lemma plain_Inv hist w t pc pc' c ms : Inv hist w -> threads w !! t = Some pc -> Moved hist w (moved_to w t pc' c (memory w) ms) t ->
  world_core (moved_to w t pc' c (memory w) ms) -> pc_private pc' = None -> pc_shape pc' ->
  (forall i o, pc' = AtKey i o -> i = 0 \/ is_Some (inodes w !! i)) ->
  (forall q, pc_request pc' = Some q -> request_ok (inodes w) q) ->
  (forall q e, pc_request pc' = Some q -> pc_entry pc' = Some e -> exists x, entry_of c e = Some x /\ entry_fits pc' q x) ->
  Inv hist (moved_to w t pc' c (memory w) ms).
Proof.
  intros I Ht M K Hp Hs Hk Hq He. eapply moved_Inv; [exact I|exact M|exact K|]. intros pc0 H0.
  rewrite (moved_to_self w t pc' pc) in H0 by done. injection H0 as <-. constructor; try done.
  - rewrite Hp. by intros.
  - intros pa Hr. by destruct pc'.
  - rewrite Hp. by intros.
Qed.

Lemma fewer_fits o f g cr mr (c c' : Cache P) e x pc q : Core o f g cr mr c' -> fewer c c' -> (0 < o e)%nat -> entry_of c e = Some x ->
  entry_fits pc q x -> exists x', entry_of c' e = Some x' /\ entry_fits pc q x'.
Proof.
  intros K F Ho Hx Hf. destruct (k_own _ _ _ _ _ _ K e Ho) as [[x' n] He]. exists x'.
  assert (entry_of c' e = Some x') as Hx' by (apply entry_heap; eauto). split; [done|].
  destruct (F e x' Hx') as (y & Hy & (S1 & S2 & S3 & S4 & S5)). assert (y = x) as -> by congruence. unfold entry_fits. by rewrite S1, S3, S4.
Qed.

Lemma count_le e l : (count pc_fill e l <= count pc_entry e l)%nat.
Proof.
  induction l as [|pc l IH]; [done|]. rewrite !count_cons. assert (is_at (pc_fill pc) e <= is_at (pc_entry pc) e)%nat; [|lia].
  destruct pc; cbn; rewrite ?is_at_None; lia.
Qed.

(** An owner that does not fill is not the only one while there is a filler. *)
Lemma owner_spare w t pc e : threads w !! t = Some pc -> pc_entry pc = Some e -> pc_fill pc = None -> (fillers w e < owners w e)%nat.
Proof.
  intros Ht He Hf. unfold fillers, owners. pose proof (count_goto pc_entry e _ t pc (AtReturn None) Ht) as H1.
  pose proof (count_goto pc_fill e _ t pc (AtReturn None) Ht) as H2. pose proof (count_le e (<[t := AtReturn None]> (threads w))).
  rewrite He, is_at_nat, Nat.eqb_refl in H1. rewrite Hf in H2. cbn [pc_entry pc_fill b2n] in *. rewrite !is_at_None in *. lia.
Qed.

(** The thread drops its entry. *)
Lemma leave_move hist w t pc pc' e p cr mr ms : Inv hist w -> threads w !! t = Some pc -> pc_entry pc = Some e -> pc_fill pc = None ->
  Core (owners w) (fillers w) (fillers w) cr mr (with_refs p (cache w)) -> (forall pa, pr_raw (refs (cache w)) pa -> pr_raw p pa) ->
  (forall pa, (cr pa + is_at (pc_cache pc) pa = cache_refs w pa)%nat) ->
  (forall pa, (mr pa + is_at (pc_mapping pc) pa + count_occ Z.eq_dec (mappings w) pa = mapping_refs w pa + count_occ Z.eq_dec ms pa)%nat) ->
  (forall pa, pa ∈ ms -> touched w t pa) ->
  (exists r, pc' = AtReturn r) \/ (exists i o, pc' = AtKey i o /\ is_Some (inodes w !! i)) ->
  exists c', drop e (with_refs p (cache w)) = Some c' /\ Inv hist (moved_to w t pc' c' (memory w) ms).
Proof.
  intros I Ht He Hf K Hraw Hc Hm Hms Hpc.
  destruct (drop_spec _ _ _ _ _ _ e K (owner_spare _ _ _ _ Ht He Hf)) as (c' & Ed & K' & _ & _ & F). exists c'. split; [done|].
  destruct (drop_raw _ _ _ (k_ok _ _ _ _ _ _ K) Ed) as [_ Hr].
  assert (pc_entry pc' = None /\ pc_fill pc' = None /\ pc_private pc' = None /\ pc_cache pc' = None /\ pc_mapping pc' = None /\ pc_raw pc' = None
    /\ pc_request pc' = None /\ pc_shape pc') as (P1 & P2 & P3 & P4 & P5 & P6 & P7 & P8) by (by destruct Hpc as [[r ->]|(i & o & -> & _)]).
  pose proof (count_pos pc_entry e _ t pc Ht He) as Hpos.
  eapply plain_Inv; [exact I|exact Ht| | |done|done| |by rewrite P7|by rewrite P7].
  - eapply move_fewer; [exact I|exact Ht|exact F| | |by left].
    + intros pa H0 _. by apply Hr, Hraw.
    + unfold pc_pages. rewrite P4, P5, P6. intros pa [[|[|]]|Hpa]; [done..|]. left. by apply Hms.
  - eapply core_goto; [exact Ht|exact K'| | | |]; intros a; rewrite ?P1, ?P2, ?P4, ?P5, ?is_at_None.
    + unfold less. rewrite He, is_at_nat. fold (owners w e) in Hpos. destruct (a =? e)%nat eqn:E; cbn [b2n]; [apply Nat.eqb_eq in E as ->|]; lia.
    + rewrite Hf, is_at_None. lia.
    + specialize (Hc a). lia.
    + specialize (Hm a). lia.
  - intros i o ->. destruct Hpc as [[r ?]|(i' & o' & [= <- <-] & ?)]; [done|by right].
Qed.

End World.
