(* ===== verification/FileCacheSteps.v ===== *)
(** * The file cache: every step keeps the invariant

    The steps of [GetCachedPage] and [AcquireCachedFileMappingPage] one by one, then those of the
    rest of the kernel.  Each lemma says that the step is not [Failed] and that the world after it
    satisfies the invariant. *)
From S2P Require Import Prelude Interfaces PageRefs FileCache FileCacheProof FileCacheWorld.

Section Steps.
Context {P C : Type} `{!PageRefs P} `{!PageRefsLaws P} (zero_page : C).
Abbreviation W := (World P C).
Implicit Types (w : W).

Lemma with_refs_id (c : Cache P) : with_refs (refs c) c = c.
Proof. by destruct c. Qed.

Lemma goto_refs w t pc p : goto t pc (with_page_refs p w) = moved_to w t pc (with_refs p (cache w)) (memory w) (mappings w).
Proof. done. Qed.

(** A step either continues in a good world or waits. *)
Definition safe (hist : FileCacheKey -> C) (r : Outcome W) : Prop :=
  match r with Next w' => Inv hist w' | Blocked => True | Failed => False end.

Ltac counts := intros; cbn [pc_cache pc_mapping pc_entry pc_fill] in *; change (truthy 0) with false in *; cbv iota in *; rewrite ?is_at_None, ?is_at_Z, ?is_at_nat in *; unfold add, sub, less, more in *;
  repeat match goal with
  | |- context [b2n (?a =? ?b)%Z] => destruct (a =? b)%Z eqn:?
  | |- context [(?a =? ?b)%nat] => destruct (a =? b)%nat eqn:?
  end; repeat match goal with
  | H : (_ =? _)%Z = true |- _ => apply Z.eqb_eq in H; subst
  | H : (_ =? _)%nat = true |- _ => apply Nat.eqb_eq in H; subst
  end; cbn [b2n]; simplify_eq; lia.

Lemma alloc_fill hist w t pc q e pa0 p : Inv hist w -> threads w !! t = Some pc -> pc_request pc = Some q -> pc_fill pc = Some e ->
  pc_private pc = None -> pc_mapping pc = None -> pc_cache pc = None -> pr_allocate (refs (cache w)) = (pa0, p) ->
  (forall pa, pa0 = Some pa -> Inv hist (goto t (AtFill q e pa) (with_page_refs p w))) /\
  (pa0 = None -> forall pc', pc' = AtReclaim q e \/ pc' = AtComplete q e 0 RError -> Inv hist (goto t pc' (with_page_refs p w))).
Proof.
  intros I Ht Hq He Hp Hm Hc E. pose proof (inv_core _ _ I) as K. pose proof (k_ok _ _ _ _ _ _ K) as Hok.
  destruct (pr_allocate_spec _ _ _ Hok E) as (Hok' & Hqu & Hr).
  pose proof (Core_same_query _ _ _ _ _ _ p K Hok' Hqu) as K'. split.
  - intros pa ->. destruct Hr as (Hnz & Hnq & Hnr & Hr). rewrite goto_refs. eapply fill_move; [exact I|exact Ht|exact K'|..]; try done; try (rewrite ?Hm, ?Hc; counts).
    + intros q0 H0 _. apply Hr. by left.
    + intros q0 [= <-]. apply Hr. by right.
    + intros q0 [= <-]. split; [done|]. right. unfold known. rewrite Hnq. intros [[? ?]|?]; done.
    + by left.
  - intros -> pc' [-> | ->]; (rewrite goto_refs; eapply fill_move; [exact I|exact Ht|exact K'|..]; try done; try (rewrite ?Hm, ?Hc; counts); [intros q0 H0 _; by apply Hr|by left]).
Qed.

Lemma AtFill_safe hist w t q e pa ch : Inv hist w -> threads w !! t = Some (AtFill q e pa) -> safe hist (fill_step zero_page ch t (AtFill q e pa) w).
Proof.
  intros I Ht. pose proof (inv_core _ _ I) as K. pose proof (inv_pc _ _ I _ _ Ht) as [H1 H2 H3 H4 H5 H6 H7].
  destruct (H3 q eq_refl) as (x & Hx & Hid & _ & _). destruct (H5 pa eq_refl) as [Hnz _]. cbn [fill_step]. rewrite Hx. cbn [lift].
  assert (forall pc' v, pc' = AtGiveBack q e pa RRetry \/ pc' = AtGiveBack q e pa RError \/ pc' = AtAdopt q e pa /\ v = hist (rkey q) ->
    Inv hist (goto t pc' (with_memory pa v w))) as Hgo.
  { intros pc' v Hpc. change (Inv hist (moved_to w t pc' (cache w) (fun p => if p =? pa then v else memory w p) (mappings w))).
    rewrite <- (with_refs_id (cache w)). eapply (fill_move hist w t (AtFill q e pa)); [exact I|exact Ht|rewrite with_refs_id; exact K|..];
      try (destruct Hpc as [-> |[-> |[-> ->]]]; first [done|counts]).
    - intros q0 Hq0. assert (q0 = pa) as -> by (destruct Hpc as [-> |[-> |[-> ->]]]; cbn in Hq0; congruence). split; [done|]. by left.
    - intros q0. cbn. destruct (q0 =? pa) eqn:E; [right; f_equal; lia|by left].
    - intros q0 Hq0 Hf. destruct Hpc as [-> |[-> |[-> ->]]]; [done..|]. injection Hq0 as ->. by rewrite Z.eqb_refl. }
  destruct (_ || _) eqn:Est; [apply Hgo; auto|]. destruct (read_ok ch); [|apply Hgo; auto]. apply Hgo. right. right. split; [done|].
  rewrite <- (inv_hist _ _ I _ x (file_offset (rkey q)) Hx). f_equal. destruct (rkey q) as [a b d]. cbn in *. f_equal; lia.
Qed.

Lemma AtGiveBack_safe hist w t q e pa r ch : Inv hist w -> threads w !! t = Some (AtGiveBack q e pa r) -> safe hist (fill_step zero_page ch t (AtGiveBack q e pa r) w).
Proof.
  intros I Ht. pose proof (inv_core _ _ I) as K. pose proof (k_ok _ _ _ _ _ _ K) as Hok. pose proof (inv_pc _ _ I _ _ Ht) as [H1 H2 H3 H4 H5 H6 H7].
  destruct (pr_deallocate_spec _ pa Hok (H6 pa eq_refl)) as (Hok' & Hqu & Hr).
  cbn [fill_step safe]. rewrite goto_refs. eapply fill_move; [exact I|exact Ht|exact (Core_same_query _ _ _ _ _ _ _ K Hok' Hqu)|..]; try done; try counts.
  - cbn. symmetry. by apply bool_decide_eq_false_2.
  - intros q0 H0 Hn. apply Hr. split; [done|]. intros ->. by apply Hn.
  - by left.
Qed.

Lemma AtAdopt_safe hist w t q e pa ch : Inv hist w -> threads w !! t = Some (AtAdopt q e pa) -> safe hist (fill_step zero_page ch t (AtAdopt q e pa) w).
Proof.
  intros I Ht. pose proof (inv_core _ _ I) as K. pose proof (k_ok _ _ _ _ _ _ K) as Hok. pose proof (inv_pc _ _ I _ _ Ht) as [H1 H2 H3 H4 H5 H6 H7].
  cbn [fill_step]. destruct (pr_adopt _ _ pa _) as [b p] eqn:E. destruct (Core_adopt _ _ _ _ _ _ _ _ pa b p K (H6 pa eq_refl) E) as [K' Hz].
  destruct (pr_adopt_spec _ _ _ _ _ _ Hok (H6 pa eq_refl) E) as (_ & _ & Hr). cbn [safe].
  assert (forall q0, pr_raw (refs (cache w)) q0 -> pc_private (AtAdopt q e pa) <> Some q0 -> pr_raw p q0) as Hraw.
  { intros q0 H0 Hn. apply Hr. split; [done|]. intros ->. by apply Hn. }
  destruct b; (rewrite goto_refs; eapply fill_move; [exact I|exact Ht|exact K'|..]; try done; try counts; try (by left)).
  - intros q0 [= <-]. split; [by apply H5|by left].
  - intros q0 [= <-] _. by apply (H7 q).
Qed.

Lemma AtRetain_safe hist w t q e pa ch : Inv hist w -> threads w !! t = Some (AtRetain q e pa) -> safe hist (fill_step zero_page ch t (AtRetain q e pa) w).
Proof.
  intros I Ht. pose proof (inv_core _ _ I) as K. pose proof (k_ok _ _ _ _ _ _ K) as Hok. pose proof (inv_pc _ _ I _ _ Ht) as [H1 H2 H3 H4 H5 H6 H7].
  cbn [fill_step]. destruct (pr_retain pa true _) as [b p] eqn:E. pose proof (Core_retain _ _ _ _ _ _ pa true b p K E) as K'.
  destruct (pr_retain_spec _ _ _ _ _ Hok E) as (_ & Hr & _). cbn [safe].
  destruct b; cbn [andb negb] in K'; (rewrite goto_refs; eapply fill_move; [exact I|exact Ht|exact K'|..]; try done; try counts; try (by left)).
  all: try (intros q0 H0 _; by apply Hr).
  all: try (intros q0 [= <-]; split; [by apply H5|by left]).
  all: intros q0 [= <-] _; by apply (H7 q).
Qed.

Lemma release_safe hist w t q e pa pc' : Inv hist w -> forall pc, threads w !! t = Some pc -> 
  pc = AtUndoMapping q e pa /\ pc' = AtComplete q e 0 RError \/ pc = AtRelease q e pa /\ pc' = AtComplete q e pa RReady ->
  exists p, pr_release pa false (refs (cache w)) = (true, p) /\ Inv hist (goto t pc' (with_page_refs p w)).
Proof.
  intros I pc Ht Hpc. pose proof (inv_core _ _ I) as K. pose proof (k_ok _ _ _ _ _ _ K) as Hok. pose proof (inv_pc _ _ I _ _ Ht) as [H1 H2 H3 H4 H5 H6 H7].
  destruct (pr_release pa false (refs (cache w))) as [b p] eqn:E.
  assert (0 < mapping_refs w pa)%nat as Hpos.
  { unfold mapping_refs. assert (0 < count pc_mapping pa (threads w))%nat; [|lia]. eapply count_pos; [exact Ht|]. by destruct Hpc as [[-> _]|[-> _]]. }
  destruct (Core_release _ _ _ _ _ _ pa false b p K E Hpos) as [-> K']. exists p. split; [done|].
  destruct (pr_release_spec _ _ _ _ _ Hok E) as (_ & Hr & _). destruct Hpc as [[-> ->]|[-> ->]].
  - rewrite goto_refs. eapply fill_move; [exact I|exact Ht|exact K'|..]; try done; try counts; [intros q0 H0 _; by apply Hr|by left].
  - destruct (H5 pa eq_refl) as [Hnz Hpr]. assert (truthy pa = true) as Htr by (unfold truthy; lia).
    rewrite goto_refs. eapply fill_move; [exact I|exact Ht|exact K'|..]; try done; try (cbn [pc_cache pc_private pc_shape]; rewrite Htr; first [done|counts]); try counts.
    + intros q0 H0 _. by apply Hr.
    + cbn. rewrite Htr. intros q0 [= <-]. split; [done|by left].
    + by left.
    + cbn. rewrite Htr. intros q0 [= <-] _. by apply (H7 q).
Qed.

(** ** Steps on the table *)

Lemma goto_cache w t pc c : goto t pc (with_cache c w) = moved_to w t pc c (memory w) (mappings w).
Proof. done. Qed.

Lemma goto_plain w t pc : goto t pc w = moved_to w t pc (cache w) (memory w) (mappings w).
Proof. done. Qed.

(** The table loses entries at most, and the thread gets no page. *)
Lemma table_move hist w t pc pc' c o f : Inv hist w -> threads w !! t = Some pc ->
  Core o f f (cache_refs w) (mapping_refs w) c -> fewer (cache w) c -> raw_same (cache w) c ->
  (forall e, (o e + is_at (pc_entry pc) e = owners w e + is_at (pc_entry pc') e)%nat) ->
  (forall e, (f e + is_at (pc_fill pc) e = fillers w e + is_at (pc_fill pc') e)%nat) ->
  pc_cache pc' = pc_cache pc -> pc_mapping pc' = pc_mapping pc -> pc_private pc' = None -> pc_shape pc' ->
  (forall i o, pc' = AtKey i o -> i = 0 \/ is_Some (inodes w !! i)) ->
  (forall q, pc_request pc' = Some q -> request_ok (inodes w) q) ->
  (forall q e, pc_request pc' = Some q -> pc_entry pc' = Some e -> exists x, entry_of c e = Some x /\ entry_fits pc' q x) ->
  Inv hist (goto t pc' (with_cache c w)).
Proof.
  intros I Ht K F Hr Ho Hf Hc Hm Hp Hs Hk Hq He. rewrite goto_cache. eapply plain_Inv; try done.
  - eapply move_fewer; [exact I|exact Ht|exact F| | |by left].
    + intros pa H0 _. by apply Hr.
    + intros pa [Hpa|Hpa]; left; [|by right; left]. left. exists pc. split; [done|]. unfold pc_pages in *. rewrite <- Hc, <- Hm.
      destruct Hpa as [Hpa|?]; [|auto]. by destruct pc'.
  - eapply core_goto; [exact Ht|exact K|exact Ho|exact Hf|by intros; rewrite Hc|]. intros pa. rewrite Hm. lia.
Qed.

(** The thread only looks. *)
Lemma pure_move hist w t pc pc' : Inv hist w -> threads w !! t = Some pc -> pc_entry pc' = pc_entry pc -> pc_fill pc' = pc_fill pc ->
  pc_cache pc' = pc_cache pc -> pc_mapping pc' = pc_mapping pc -> pc_private pc' = None -> pc_shape pc' ->
  (forall i o, pc' = AtKey i o -> i = 0 \/ is_Some (inodes w !! i)) ->
  (forall q, pc_request pc' = Some q -> request_ok (inodes w) q) ->
  (forall q e, pc_request pc' = Some q -> pc_entry pc' = Some e -> exists x, entry_of (cache w) e = Some x /\ entry_fits pc' q x) ->
  Inv hist (goto t pc' w).
Proof.
  intros I Ht He Hf. intros. change (goto t pc' w) with (goto t pc' (with_cache (cache w) w)).
  eapply (table_move hist w t pc); try done; [apply I|by intros; rewrite He|by intros; rewrite Hf].
Qed.

Lemma AtReclaim_safe hist w t q e ch : Inv hist w -> threads w !! t = Some (AtReclaim q e) -> safe hist (fill_step zero_page ch t (AtReclaim q e) w).
Proof.
  intros I Ht. pose proof (inv_core _ _ I) as K. pose proof (inv_pc _ _ I _ _ Ht) as [H1 H2 H3 H4 H5 H6 H7]. cbn [fill_step].
  destruct (ReclaimInactive_spec _ _ _ _ _ _ 1 K) as (removed & c' & -> & K' & Hr & D). cbn [lift safe].
  destruct (H4 q e eq_refl eq_refl) as (x & Hx & Hf).
  destruct (fewer_fits _ _ _ _ _ _ c' e x (AtReclaim q e) q K' (dc_fewer _ _ _ _ _ D) (count_pos pc_entry e _ t _ Ht eq_refl) Hx Hf) as (x' & Hx' & Hf').
  destruct (_ =? _)%nat; (eapply table_move; [exact I|exact Ht|exact K'|apply D|exact Hr|..]; try done).
  all: intros q0 e0 [= <-] [= <-]; by exists x'.
Qed.

Lemma AtFind_safe hist w t q ch : Inv hist w -> threads w !! t = Some (AtFind q) -> safe hist (find_step ch t (AtFind q) w).
Proof.
  intros I Ht. pose proof (inv_core _ _ I) as K. pose proof (inv_pc _ _ I _ _ Ht) as [H1 H2 H3 H4 H5 H6 H7]. cbn [find_step].
  destruct (negb (Valid (rkey q))); [by eapply pure_move|].
  pose proof (FindOrInsert_find_spec _ _ _ _ _ _ (rkey q) K) as Hs. destruct (FindOrInsert_find (rkey q) (cache w)) as [[e|] c'];
    destruct Hs as (Hr & F & Hs); cbn [safe].
  - destruct Hs as (K' & x & Hx & Hk). eapply table_move; [exact I|exact Ht|exact K'|exact F|exact Hr|..]; try done; try counts.
    intros q0 e0 [= <-] [= <-]. by exists x.
  - subst c'. by eapply table_move; [exact I|exact Ht|exact K|..].
Qed.

(** A new entry is nobody's page yet. *)
Lemma AtInsert_safe hist w t q ch : Inv hist w -> threads w !! t = Some (AtInsert q) -> safe hist (find_step ch t (AtInsert q) w).
Proof.
  intros I Ht. pose proof (inv_core _ _ I) as K. pose proof (inv_pc _ _ I _ _ Ht) as [H1 H2 H3 H4 H5 H6 H7]. cbn [find_step].
  destruct (FindOrInsert_insert_spec _ _ _ _ _ (rkey q) (new_entry_ok ch) (new_record_ok ch) K) as (found & c' & -> & Hr & Hs). cbn [lift safe].
  destruct found as [[e []]|].
  - destruct Hs as (Hn & K' & (x & Hx & Hk) & Ho). rewrite goto_cache. eapply plain_Inv; [exact I|exact Ht| | |done|done|done|exact H3|].
    + constructor; try done.
      * intros. by apply moved_to_threads.
      * intros e' x' Hx'. destruct (Ho e' x' Hx') as [?|[-> (S1 & S2 & S3 & S4 & S5)]]; [by left|]. right. unfold fresh_entry. rewrite S1, S3, S5. split_and!; try done.
        -- destruct (H3 q eq_refl) as (y & Hy & Hid & Hv & _). by exists (inode q), y.
        -- intros y. by rewrite Hn.
      * intros pa H0 _. by apply Hr.
      * intros pa [(pc & H0 & Hpc)|[?|?]]; [|left; unfold touched; auto..]. rewrite (moved_to_self w t _ (AtInsert q)) in H0 by done.
        injection H0 as <-. by destruct Hpc as [?|[?|?]].
    + eapply core_goto; [exact Ht|exact K'|..]; counts.
    + intros q0 e0 [= <-] [= <-]. by exists x.
  - destruct Hs as (K' & F & x & Hx & Hk). eapply table_move; [exact I|exact Ht|exact K'|exact F|exact Hr|..]; try done; try counts.
    intros q0 e0 [= <-] [= <-]. by exists x.
  - subst c'. by eapply table_move; [exact I|exact Ht|exact K|..].
Qed.

Lemma AtWait_safe hist w t q e ch : Inv hist w -> threads w !! t = Some (AtWait q e) -> safe hist (find_step ch t (AtWait q e) w).
Proof.
  intros I Ht. pose proof (inv_pc _ _ I _ _ Ht) as [H1 H2 H3 H4 H5 H6 H7]. cbn [find_step].
  destruct (H4 q e eq_refl eq_refl) as (x & Hx & Hf). rewrite Hx. cbn [lift]. destruct (completion x); [done|]. cbn [safe].
  destruct (bool_decide (state x = Ready)) eqn:E; (eapply pure_move; [exact I|exact Ht|..]; try done).
  - apply bool_decide_eq_true in E. intros q0 e0 [= <-] [= <-]. exists x. split; [done|]. split_and!; [apply Hf|done|done].
Qed.

Lemma AtVersion_safe hist w t q e ch : Inv hist w -> threads w !! t = Some (AtVersion q e) -> safe hist (find_step ch t (AtVersion q e) w).
Proof.
  intros I Ht. pose proof (inv_pc _ _ I _ _ Ht) as [H1 H2 H3 H4 H5 H6 H7]. cbn [find_step].
  destruct (H3 q eq_refl) as (y & Hy & _). rewrite Hy. cbn [lift safe]. destruct (H4 q e eq_refl eq_refl) as (x & Hx & Hf).
  destruct (_ =? _); (eapply pure_move; [exact I|exact Ht|..]; try done); intros q0 e0 [= <-] [= <-]; by exists x.
Qed.

Lemma AtComplete_safe hist w t q e pa r ch : Inv hist w -> threads w !! t = Some (AtComplete q e pa r) ->
  safe hist (fill_step zero_page ch t (AtComplete q e pa r) w).
Proof.
  intros I Ht. pose proof (inv_core _ _ I) as K. pose proof (inv_pc _ _ I _ _ Ht) as [H1 H2 H3 H4 H5 H6 H7]. cbn [fill_step].
  destruct (H4 q e eq_refl eq_refl) as (x & Hx & Hfit). pose proof (count_pos pc_fill e _ t _ Ht eq_refl) as Hpos.
  assert (fillers w e = 1%nat) as Hf1.
  { pose proof Hx as [n He]%entry_heap. destruct (k_heap _ _ _ _ _ _ K e x n He) as (_ & _ & _ & Hok & _). unfold entry_ok, fillers in *. destruct (state x); lia. }
  assert (forall p, is_at (pc_cache (AtComplete q e pa r)) p = b2n (is_page pa p)) as Hat.
  { intros p. unfold is_page; cbn. destruct (truthy pa); [apply is_at_Z|done]. }
  assert (forall p, is_page pa p = true -> (0 < cache_refs w p)%nat) as Hcr.
  { intros p Hp. unfold is_page in Hp. apply andb_true_iff in Hp as [Htr ->%Z.eqb_eq]. unfold cache_refs.
    assert (0 < count pc_cache pa (threads w))%nat; [|lia]. eapply count_pos; [exact Ht|]. cbn. by rewrite Htr. }
  destruct (Complete_spec _ _ _ (fun p => cache_refs w p - b2n (is_page pa p))%nat _ _ e x pa K Hf1 Hx) as (c' & -> & K' & Hr & Hst & (x' & Hx' & Hc') & Ho).
  { intros p. specialize (Hcr p). destruct (is_page pa p); cbn [b2n]; [specialize (Hcr eq_refl)|]; lia. }
  cbn [lift safe]. rewrite goto_cache. eapply plain_Inv; [exact I|exact Ht| | |done|done|done|exact H3|].
  - constructor; try done.
    + intros. by apply moved_to_threads.
    + intros e' y Hy. destruct (Ho e' y Hy) as [?|[-> (S1 & S2 & S3)]]; [by left|]. right. unfold fresh_entry. rewrite S1, S2.
      assert (key x = rkey q) as Hk by apply Hfit. split_and!.
      * by apply (inv_entry _ _ I e x).
      * destruct (truthy pa) eqn:Etr; [|intros; congruence]. destruct S3 as [_ ->]. intros _. rewrite Hk. apply (H7 q pa eq_refl); cbn; by rewrite ?Etr.
      * intros Etr. rewrite Etr in S3. destruct S3 as [_ ->]. left. eexists. split; [exact Ht|]. right. right. cbn. by rewrite Etr.
      * intros y0 Hy0. assert (y0 = x) as -> by congruence. split; [done|]. by rewrite Hst.
    + intros p H0 _. by apply Hr.
    + intros p [(pc & H0 & Hpc)|[?|?]]; [|left; unfold touched; auto..]. rewrite (moved_to_self w t _ (AtComplete q e pa r)) in H0 by done.
      injection H0 as <-. by destruct Hpc as [?|[?|?]].
  - eapply core_goto; [exact Ht|exact K'|counts|counts| |counts]. intros p. rewrite Hat. cbn [pc_cache]. rewrite is_at_None. specialize (Hcr p).
    destruct (is_page pa p); cbn [b2n]; [specialize (Hcr eq_refl)|]; lia.
  - intros q0 e0 [= <-] [= <-]. exists x'. split; [done|]. destruct Hc' as (S1 & S2 & S3). split_and!; [rewrite S1; apply Hfit| |done].
    intros Hrd. cbn in H1, Hrd. destruct r; try done. rewrite bool_decide_eq_true_2 in H1 by done. rewrite H1 in S3. apply S3.
Qed.

(** ** Steps of [AcquireCachedFileMappingPage] *)

Lemma AtKey_safe hist w t i o : Inv hist w -> threads w !! t = Some (AtKey i o) -> safe hist (acquire_step t (AtKey i o) w).
Proof.
  intros I Ht. pose proof (inv_pc _ _ I _ _ Ht) as [H1 H2 H3 H4 H5 H6 H7]. cbn [acquire_step].
  destruct (_ || _) eqn:Eb; [by eapply pure_move|]. destruct (H2 i o eq_refl) as [->|[x Hx]]; [done|]. rewrite Hx. cbn [lift].
  destruct (_ <=? _); [by eapply pure_move|]. eapply pure_move; [exact I|exact Ht|..]; try done.
  intros q [= <-]. exists x. by split_and!.
Qed.

(** Leaving without a change of references. *)
Lemma leave_safe hist w t pc pc' e : Inv hist w -> threads w !! t = Some pc -> pc_entry pc = Some e -> pc_fill pc = None ->
  pc_cache pc = None -> pc_mapping pc = None ->
  (exists r, pc' = AtReturn r) \/ (exists i o, pc' = AtKey i o /\ is_Some (inodes w !! i)) -> safe hist (leave t e pc' w).
Proof.
  intros I Ht He Hf Hc Hm Hpc. destruct (leave_move hist w t pc pc' e (refs (cache w)) (cache_refs w) (mapping_refs w) (mappings w) I Ht He Hf)
    as (c' & Ed & I'); try done.
  - rewrite with_refs_id. apply I.
  - rewrite Hc. counts.
  - rewrite Hm. counts.
  - intros pa Hpa. by right; left.
  - rewrite with_refs_id in Ed. unfold leave. rewrite Ed. exact I'.
Qed.

Lemma AtGot_safe hist w t q e r : Inv hist w -> threads w !! t = Some (AtGot q e r) -> safe hist (acquire_step t (AtGot q e r) w).
Proof.
  intros I Ht. pose proof (inv_core _ _ I) as K. pose proof (inv_pc _ _ I _ _ Ht) as [H1 H2 H3 H4 H5 H6 H7].
  destruct (H3 q eq_refl) as (y & Hy & _). destruct r; cbn [acquire_step].
  2: { eapply leave_safe; [exact I|exact Ht|done..|]. right. by eexists _, _. }
  2: { eapply leave_safe; [exact I|exact Ht|done..|]. left. by eexists. }
  destruct (H4 q e eq_refl eq_refl) as (x & Hx & Hk & Hrd & _). rewrite Hx. cbn [lift]. set (pa := physical_address x).
  destruct (pr_retain pa false (refs (cache w))) as [b p] eqn:E. pose proof (Core_retain _ _ _ _ _ _ pa false b p K E) as K'. rewrite andb_false_r in K'.
  destruct (pr_retain_spec _ _ _ _ _ (k_ok _ _ _ _ _ _ K) E) as (_ & Hr & _). destruct b; cbn [andb negb] in K'.
  - cbn [safe]. rewrite goto_refs. eapply plain_Inv; [exact I|exact Ht| | |done|done|done|exact H3|].
    + eapply move_fewer; [exact I|exact Ht|by intros e0 x0 Hx0; exists x0| | |by left].
      * intros pa0 H0 _. by apply Hr.
      * intros pa0 [[?|[[= <-]|?]]|?]; [done| |done|left; by right; left]. left. eapply ready_touched; [exact K|exact Hx|by apply Hrd].
    + eapply core_goto; [exact Ht|exact K'|counts..].
    + intros q0 e0 [= <-] [= <-]. exists x. split; [done|]. split_and!; [done|by intros _; apply Hrd|by intros pa0 [= <-]].
  - destruct (leave_move hist w t _ (AtReturn None) e p (cache_refs w) (mapping_refs w) (mappings w) I Ht eq_refl eq_refl K') as (c' & Ed & I'); try done; try counts.
    + intros pa0 H0. by apply Hr.
    + intros pa0 Hpa. by right; left.
    + left. by eexists.
    + unfold leave. cbn [with_page_refs with_cache cache]. rewrite Ed. exact I'.
Qed.

Lemma AtCheck_safe hist w t q e pa : Inv hist w -> threads w !! t = Some (AtCheck q e pa) -> safe hist (acquire_step t (AtCheck q e pa) w).
Proof.
  intros I Ht. pose proof (inv_pc _ _ I _ _ Ht) as [H1 H2 H3 H4 H5 H6 H7]. cbn [acquire_step].
  destruct (H3 q eq_refl) as (y & Hy & _). rewrite Hy. cbn [lift]. destruct (current q y).
  - destruct (leave_move hist w t _ (AtReturn (Some (content_version (rkey q), pa))) e (refs (cache w)) (cache_refs w) (mapping_refs w) (pa :: mappings w) I Ht eq_refl eq_refl)
      as (c' & Ed & I'); try done; try counts.
    + rewrite with_refs_id. apply I.
    + intros pa0. cbn [count_occ pc_mapping]. rewrite is_at_Z. destruct (Z.eq_dec pa pa0) as [->|Hne]; [rewrite Z.eqb_refl|rewrite (proj2 (Z.eqb_neq pa0 pa)) by lia]; cbn [b2n]; lia.
    + intros pa0 [->|Hpa]%elem_of_cons; [|by right; left]. left. eexists. split; [exact Ht|]. by right; left.
    + left. by eexists.
    + rewrite with_refs_id in Ed. unfold leave. cbn [with_mappings cache]. rewrite Ed. exact I'.
  - eapply pure_move; [exact I|exact Ht|..]; try done.
Qed.

Lemma AtDrop_safe hist w t q e pa : Inv hist w -> threads w !! t = Some (AtDrop q e pa) -> safe hist (acquire_step t (AtDrop q e pa) w).
Proof.
  intros I Ht. pose proof (inv_core _ _ I) as K. pose proof (inv_pc _ _ I _ _ Ht) as [H1 H2 H3 H4 H5 H6 H7]. cbn [acquire_step].
  destruct (H3 q eq_refl) as (y & Hy & _). destruct (pr_release pa false (refs (cache w))) as [b p] eqn:E.
  assert (0 < mapping_refs w pa)%nat as Hpos by (unfold mapping_refs; pose proof (count_pos pc_mapping pa _ t _ Ht eq_refl); lia).
  destruct (Core_release _ _ _ _ _ _ pa false b p K E Hpos) as [-> K'].
  destruct (pr_release_spec _ _ _ _ _ (k_ok _ _ _ _ _ _ K) E) as (_ & Hr & _).
  destruct (leave_move hist w t _ (AtKey (inode q) (offset q)) e p (cache_refs w) (sub pa (mapping_refs w)) (mappings w) I Ht eq_refl eq_refl K') as (c' & Ed & I'); try done; try counts.
  - intros pa0 H0. by apply Hr.
  - intros pa0 Hpa. by right; left.
  - right. by eexists _, _.
  - unfold leave. cbn [with_page_refs with_cache cache]. rewrite Ed. exact I'.
Qed.

(** No step of a thread fails. *)
Lemma thread_step_safe hist w t ch : Inv hist w -> safe hist (thread_step zero_page ch t w).
Proof.
  intros I. unfold thread_step. destruct (threads w !! t) as [pc|] eqn:Ht; [|done]. destruct pc; try done;
    eauto using AtKey_safe, AtGot_safe, AtCheck_safe, AtDrop_safe, AtFind_safe, AtInsert_safe, AtWait_safe, AtVersion_safe, AtReclaim_safe,
      AtFill_safe, AtGiveBack_safe, AtAdopt_safe, AtRetain_safe, AtComplete_safe.
  - cbn [fill_step]. destruct (pr_allocate _) as [o p] eqn:E. destruct (alloc_fill hist w t _ q e o p I Ht eq_refl eq_refl eq_refl eq_refl eq_refl E) as [A1 A2].
    destruct o; cbn [safe]; auto.
  - cbn [fill_step]. destruct (pr_allocate _) as [o p] eqn:E. destruct (alloc_fill hist w t _ q e o p I Ht eq_refl eq_refl eq_refl eq_refl eq_refl E) as [A1 A2].
    destruct o; cbn [safe]; auto.
  - cbn [fill_step]. destruct (release_safe hist w t q e pa (AtComplete q e 0 RError) I _ Ht) as (p & -> & I'); [by left|done].
  - cbn [fill_step]. destruct (release_safe hist w t q e pa (AtComplete q e pa RReady) I _ Ht) as (p & -> & I'); [by right|done].
  - by destruct (po_shape _ _ _ _ (inv_pc _ _ I _ _ Ht)).
Qed.

(** ** The rest of the kernel *)

(** Other code acts, as a thread of its own that holds what page tables and other caches hold. *)
Lemma env_Inv hist w w' : let t := length (threads w) in Inv hist w -> threads w' = threads w -> inodes w' = inodes w ->
  fewer (cache w) (cache w') -> (forall pa, pr_raw (refs (cache w)) pa -> pr_raw (refs (cache w')) pa) ->
  (forall pa, pa ∈ mappings w' \/ pa ∈ others w' -> touched w t pa \/ ~ known (refs (cache w)) pa) ->
  (forall pa, ~ touched w t pa -> memory w' pa = memory w pa) ->
  (forall e x, entry_of (cache w) e = Some x -> state x = Ready -> memory w' (physical_address x) = memory w (physical_address x)) ->
  world_core w' -> Inv hist w'.
Proof.
  intros t I Hth Hin F Hraw Hpg Hm Hmr K. assert (threads w' !! t = None) as Hn by (rewrite Hth; by apply lookup_ge_None_2).
  eapply (moved_Inv hist w w' t); [exact I| |exact K|by rewrite Hn]. constructor; try done.
  - by rewrite Hth.
  - by apply fewer_only.
  - by intros; apply Hraw.
  - intros pa [(pc & Hpc & _)|?]; [congruence|by apply Hpg].
Qed.

Lemma env_table hist w c : Inv hist w -> Core (owners w) (fillers w) (fillers w) (cache_refs w) (mapping_refs w) c -> fewer (cache w) c ->
  raw_same (cache w) c -> Inv hist (with_cache c w).
Proof.
  intros I K F Hr. eapply env_Inv; [exact I|done|done|exact F|by intros; apply Hr| |done|done|exact K].
  intros pa Hpa. left. right. tauto.
Qed.

Lemma count_remove_one pa l : pa ∈ l -> forall q, (count_occ Z.eq_dec (remove_one pa l) q + b2n (q =? pa)%Z = count_occ Z.eq_dec l q)%nat.
Proof.
  induction l as [|x l IH]; intros Hin q; [by apply not_elem_of_nil in Hin|]. cbn [remove_one count_occ]. destruct (x =? pa) eqn:E.
  - apply Z.eqb_eq in E as ->. destruct (Z.eq_dec pa q) as [->|Hne]; [rewrite Z.eqb_refl; cbn; lia|]. rewrite (proj2 (Z.eqb_neq q pa)) by lia. cbn; lia.
  - apply elem_of_cons in Hin as [->|Hin]; [lia|]. specialize (IH Hin q). cbn [count_occ]. destruct (Z.eq_dec x q); lia.
Qed.

Lemma elem_remove_one pa l q : q ∈ remove_one pa l -> q ∈ l.
Proof. induction l as [|x l IH]; cbn; [done|]. destruct (x =? pa); [by right|]. intros [->|?]%elem_of_cons; [by left|right; auto]. Qed.

Lemma EnvRequest_safe hist w i o : Inv hist w -> safe hist (env_step (EnvRequest i o) w).
Proof.
  intros I. cbn [env_step]. destruct (_ || _) eqn:E; [|done]. cbn [safe]. set (w' := MkWorld _ _ _ _ _ _).
  assert (forall A (EA : EqDecision A) (f : PC -> option A) a, f (AtKey i o) = None -> count f a (threads w') = count f a (threads w)) as Hc.
  { intros A EA f a Hf. unfold w'; cbn [threads]. rewrite count_app, count_cons, Hf, is_at_None. cbn. lia. }
  eapply (moved_Inv hist w w' (length (threads w))); [exact I| | |].
  - constructor; try done.
    + intros t' Hne. cbn. destruct (decide (t' < length (threads w))%nat) as [Hlt|Hge]; [by rewrite lookup_app_l|].
      rewrite !lookup_ge_None_2; [done|lia|rewrite length_app; cbn; lia].
    + by apply fewer_only.
    + intros pa [(pc & H0 & Hpc)|?]; [|left; right; tauto]. unfold w' in H0; cbn in H0. rewrite list_lookup_middle in H0 by done.
      injection H0 as <-. by destruct Hpc as [?|[?|?]].
  - eapply Core_ext; [apply (inv_core _ _ I)|..]; intros a; unfold owners, fillers, cache_refs, mapping_refs; by rewrite Hc.
  - intros pc H0. unfold w' in H0; cbn in H0. rewrite list_lookup_middle in H0 by done. injection H0 as <-. constructor; try done.
    intros i' o' [= <- <-]. apply orb_true_iff in E as [E|E]; [left; lia|right]. by apply bool_decide_eq_true in E.
Qed.

Lemma EnvNewPage_safe hist w x y : Inv hist w -> safe hist (env_step (EnvNewPage x y) w).
Proof.
  intros I. pose proof (inv_core _ _ I) as K. pose proof (k_ok _ _ _ _ _ _ K) as Hok. cbn [env_step].
  destruct (pr_allocate (refs (cache w))) as [o p] eqn:E. destruct (pr_allocate_spec _ _ _ Hok E) as (Hok' & Hqu & Hr).
  pose proof (Core_same_query _ _ _ _ _ _ p K Hok' Hqu) as K1. destruct o as [pa|].
  2: { cbn [safe]. apply env_table; [done|exact K1|by intros e0 x0 Hx0; exists x0|done]. }
  destruct Hr as (Hnz & Hnq & Hnr & Hr). destruct (pr_adopt x y pa p) as [b p'] eqn:Ea.
  assert (pr_raw p pa) as Hrp by (apply Hr; by right).
  destruct (Core_adopt _ _ _ _ _ _ x y pa b p' K1 Hrp Ea) as [K2 _]. destruct (pr_adopt_spec _ _ _ _ _ _ Hok' Hrp Ea) as (_ & _ & Hr').
  assert (forall q, pr_raw (refs (cache w)) q -> pr_raw p' q) as Hraw.
  { intros q Hq. apply Hr'. split; [apply Hr; by left|]. by intros ->. }
  destruct b; cbn [safe]; (eapply env_Inv; [exact I|done|done|by intros e0 x0 Hx0; exists x0|exact Hraw| |done|done|]).
  - intros q [[->|Hq]%elem_of_cons|Hq]; [right|left; right; tauto..]. unfold known. rewrite Hnq. intros [[? ?]|?]; done.
  - eapply Core_ext; [exact K2|..]; try done. intros q. unfold add, mapping_refs; cbn [mappings with_mappings with_page_refs with_cache threads count_occ].
    destruct (Z.eq_dec pa q) as [->|Hne]; [rewrite Z.eqb_refl|rewrite (proj2 (Z.eqb_neq q pa)) by lia]; cbn [b2n]; lia.
  - intros q Hq. left. right. tauto.
  - exact K2.
Qed.

Lemma EnvRetain_safe hist w pa k : Inv hist w -> safe hist (env_step (EnvRetain pa k) w).
Proof.
  intros I. pose proof (inv_core _ _ I) as K. pose proof (k_ok _ _ _ _ _ _ K) as Hok. cbn [env_step].
  destruct (bool_decide (pa ∈ mappings w ++ others w)) eqn:Em; [|done]. apply bool_decide_eq_true, elem_of_app in Em.
  destruct (pr_retain pa k (refs (cache w))) as [b p] eqn:E. pose proof (Core_retain _ _ _ _ _ _ pa k b p K E) as K'.
  destruct (pr_retain_spec _ _ _ _ _ Hok E) as (_ & Hr & _). cbn [safe].
  assert (forall n q, (n + b2n (q =? pa)%Z = (if Z.eq_dec pa q then S n else n))%nat) as Hcnt.
  { intros n q. destruct (Z.eq_dec pa q) as [->|Hne]; [rewrite Z.eqb_refl|rewrite (proj2 (Z.eqb_neq q pa)) by lia]; cbn [b2n]; lia. }
  destruct b; cbn [andb negb] in K'; [destruct k|]; (eapply env_Inv; [exact I|done|done|by intros e0 x0 Hx0; exists x0|by intros; apply Hr| |done|done|]).
  - intros q [Hq|[->|Hq]%elem_of_cons]; left; right; tauto.
  - eapply Core_ext; [exact K'|..]; try done. intros q. unfold add, cache_refs.
    cbn [set_held with_others with_mappings others mappings threads with_page_refs with_cache held count_occ]. rewrite <- Hcnt. lia.
  - intros q [[->|Hq]%elem_of_cons|Hq]; left; right; tauto.
  - eapply Core_ext; [exact K'|..]; try done. intros q. unfold add, mapping_refs.
    cbn [set_held with_others with_mappings others mappings threads with_page_refs with_cache held count_occ]. rewrite <- Hcnt. lia.
  - intros q Hq. left. right. tauto.
  - exact K'.
Qed.

Lemma EnvRelease_safe hist w pa k : Inv hist w -> safe hist (env_step (EnvRelease pa k) w).
Proof.
  intros I. pose proof (inv_core _ _ I) as K. pose proof (k_ok _ _ _ _ _ _ K) as Hok. cbn [env_step].
  destruct (bool_decide (pa ∈ held k w)) eqn:Em; [|done]. apply bool_decide_eq_true in Em.
  destruct (pr_release pa k (refs (cache w))) as [b p] eqn:E. pose proof (count_remove_one pa _ Em) as Hcnt.
  assert (0 < if k then cache_refs w pa else mapping_refs w pa)%nat as Hpos.
  { specialize (Hcnt pa). rewrite Z.eqb_refl in Hcnt. cbn [b2n] in Hcnt. unfold held, cache_refs, mapping_refs in *. destruct k; lia. }
  destruct (Core_release _ _ _ _ _ _ pa k b p K E Hpos) as [-> K']. destruct (pr_release_spec _ _ _ _ _ Hok E) as (_ & Hr & _). cbn [safe].
  destruct k; (eapply env_Inv; [exact I|done|done|by intros e0 x0 Hx0; exists x0|by intros; apply Hr| |done|done|]); cbn [held] in *.
  - intros q [Hq|Hq%elem_remove_one]; left; right; tauto.
  - eapply Core_ext; [exact K'|..]; try done. intros q. specialize (Hcnt q). unfold sub, cache_refs.
    cbn [set_held with_others with_mappings others mappings threads with_page_refs with_cache held] in *. lia.
  - intros q [Hq%elem_remove_one|Hq]; left; right; tauto.
  - eapply Core_ext; [exact K'|..]; try done. intros q. specialize (Hcnt q). unfold sub, mapping_refs.
    cbn [set_held with_others with_mappings others mappings threads with_page_refs with_cache held] in *. lia.
Qed.

(** A page that only other code refers to is no entry's. *)
Lemma EnvStore_safe hist w pa v : Inv hist w -> safe hist (env_step (EnvStore pa v) w).
Proof.
  intros I. pose proof (inv_core _ _ I) as K. cbn [env_step]. destruct (pr_query pa (refs (cache w))) as [[m c]|] eqn:Eq; [|done].
  destruct (_ && _) eqn:Em; [|done]. apply andb_true_iff in Em as [Hin%bool_decide_eq_true Hc%Z.eqb_eq]. apply elem_of_app in Hin.
  cbn [safe]. eapply env_Inv; [exact I|done|done|done|done|intros q Hq; left; right; tauto| | |exact K].
  - intros q Hn. cbn. destruct (q =? pa) eqn:E; [|done]. apply Z.eqb_eq in E as ->. destruct Hn. right. tauto.
  - intros e x Hx Hst. cbn. destruct (_ =? pa) eqn:E; [|done]. apply Z.eqb_eq in E. exfalso.
    pose proof (k_refs _ _ _ _ _ _ K pa) as Hr. rewrite Eq in Hr. destruct Hr as [[= -> ->] _]. unfold cache_refs in Hc.
    pose proof Hx as [n He]%entry_heap; destruct (k_heap _ _ _ _ _ _ K e x n He) as (_ & _ & _ & Hok & _); unfold entry_ok in Hok; rewrite Hst in Hok.
    pose proof (heap_refs_pos _ _ _ pa He) as Hp; unfold holds in Hp; cbn in Hp; destruct Hok as (_ & Ho & _); rewrite Ho, E, Z.eqb_refl in Hp; specialize (Hp eq_refl); lia.
Qed.

(** ** A file changes *)

(** The history with the new version. *)
Definition written (id version : Z) (page : Z -> C) (hist : FileCacheKey -> C) : FileCacheKey -> C := fun k =>
  if (identity k =? id) && (content_version k =? version) then page (file_offset k) else hist k.

Lemma written_old id v page hist (k : FileCacheKey) : (identity k = id -> content_version k <= v) -> written id (v + 1) page hist k = hist k.
Proof.
  intros Hk. unfold written. destruct (identity k =? id) eqn:E; [|done]. apply Z.eqb_eq in E. specialize (Hk E).
  by rewrite (proj2 (Z.eqb_neq _ _)) by lia.
Qed.

Lemma write_Inv hist w i x size page : Inv hist w -> inodes w !! i = Some x ->
  Inv (written (i_identity x) (i_version x + 1) page hist) (with_inode i (MkInode (i_identity x) (i_version x + 1) size page) w).
Proof.
  intros I Hx. set (y := MkInode _ _ _ _). pose proof I as [K Hpc Hen Hid Hh].
  assert (forall j z, inodes w !! j = Some z -> exists z', <[i := y]> (inodes w) !! j = Some z' /\ i_identity z' = i_identity z /\ i_version z <= i_version z') as Hgrow.
  { intros j z Hz. destruct (decide (j = i)) as [->|Hne].
    - rewrite lookup_insert_eq. exists y. assert (z = x) as -> by congruence. split_and!; [done|done|cbn; lia].
    - rewrite lookup_insert_ne by done. by exists z. }
  assert (forall j z, <[i := y]> (inodes w) !! j = Some z -> exists z', inodes w !! j = Some z' /\ i_identity z' = i_identity z) as Hback.
  { intros j z. destruct (decide (j = i)) as [->|Hne]; [rewrite lookup_insert_eq; intros [= <-]; by exists x|]. rewrite lookup_insert_ne by done. by exists z. }
  assert (forall k, key_ok (inodes w) k -> key_ok (<[i := y]> (inodes w)) k /\ written (i_identity x) (i_version x + 1) page hist k = hist k) as Hkey.
  { intros k (j & z & Hz & H1 & H2). split.
    - destruct (Hgrow j z Hz) as (z' & Hz' & G1 & G2). exists j, z'. split_and!; [done|congruence|lia].
    - apply written_old. intros Hi. assert (j = i) as -> by (eapply Hid; [exact Hz|exact Hx|congruence]). assert (z = x) as -> by congruence. done. }
  constructor; [exact K| | | |].
  - intros t pc Ht. destruct (Hpc t pc Ht) as [H1 H2 H3 H4 H5 H6 H7]. constructor; try done.
    + intros j o Hj. destruct (H2 j o Hj) as [?|[z Hz]]; [by left|right]. destruct (Hgrow j z Hz) as (z' & Hz' & _). by exists z'.
    + intros q Hq. destruct (H3 q Hq) as (z & Hz & G1 & G2 & G3). destruct (Hgrow _ z Hz) as (z' & Hz' & G4 & G5). exists z'. split_and!; [done|congruence|lia|done].
    + intros q pa Hq Hp Hf. destruct (H3 q Hq) as (z & Hz & G1 & G2 & G3). destruct (Hkey (rkey q)) as [_ ->]; [by exists (inode q), z|]. by apply H7.
  - intros e z Hz. destruct (Hen e z Hz) as [G1 G2]. destruct (Hkey _ G1) as [G3 ->]. done.
  - intros j1 j2 z1 z2 H1 H2 He. destruct (Hback _ _ H1) as (u1 & U1 & V1), (Hback _ _ H2) as (u2 & U2 & V2). eapply Hid; [exact U1|exact U2|congruence].
  - intros j z o. cbn [with_inode inodes]. destruct (decide (j = i)) as [->|Hne].
    + rewrite lookup_insert_eq. intros [= <-]. cbn. unfold written. cbn. by rewrite !Z.eqb_refl.
    + rewrite lookup_insert_ne by done. intros Hz. destruct (Hkey (MkKey (i_identity z) (i_version z) o)) as [_ ->]; [exists j, z; cbn; split_and!; done|]. by apply (Hh j z).
Qed.

Lemma with_inode_twice i (x y : Inode C) w : with_inode i x (with_inode i y w) = with_inode i x w.
Proof. unfold with_inode; cbn. by rewrite insert_insert_eq. Qed.

Lemma EnvWrite_safe hist w i size page : Inv hist w ->
  match env_step (EnvWrite i size page) w with
  | Next w' => exists hist', Inv hist' w'
  | Blocked => False
  | Failed => inodes w !! i = None \/ exists x, inodes w !! i = Some x /\ i_version x = UMAX
  end.
Proof.
  intros I. cbn [env_step]. destruct (inodes w !! i) as [x|] eqn:Hx; [|by left]. cbn [lift]. unfold AdvanceContentVersion.
  cbn [with_inode inodes]. rewrite lookup_insert_eq. cbn [lift i_version i_identity i_size i_page].
  destruct (i_version x =? UMAX) eqn:Ev; [right; exists x; split; [done|lia]|]. cbn [with_inode cache].
  pose proof (write_Inv hist w i x size page I Hx) as I'. set (w' := with_inode _ _ w) in I'. pose proof (inv_core _ _ I') as K.
  destruct (InvalidateVersions_spec _ _ _ _ _ _ (i_identity x) (i_version x + 1) K) as (c & Ec & K' & Hr & F & _). change (cache w') with (cache w) in Ec.
  rewrite Ec. cbn [lift]. rewrite with_inode_twice. exists (written (i_identity x) (i_version x + 1) page hist). exact (env_table _ w' c I' K' F Hr).
Qed.

Lemma env_step_safe hist w a : Inv hist w ->
  match env_step a w with
  | Next w' => exists hist', Inv hist' w'
  | Blocked => True
  | Failed => exists i size page, a = EnvWrite i size page /\ (inodes w !! i = None \/ exists x, inodes w !! i = Some x /\ i_version x = UMAX)
  end.
Proof.
  intros I. assert (forall r, safe hist r -> match r with Next w' => exists hist', Inv hist' w' | Blocked => True
    | Failed => exists i size page, a = EnvWrite i size page /\ (inodes w !! i = None \/ exists x, inodes w !! i = Some x /\ i_version x = UMAX) end) as Hs.
  { intros [w'| |]; cbn; [by exists hist|done|done]. }
  destruct a; try solve [apply Hs; eauto using EnvRequest_safe, EnvNewPage_safe, EnvRetain_safe, EnvRelease_safe, EnvStore_safe].
  - pose proof (EnvWrite_safe hist w i size page I) as H. destruct (env_step _ w); [done|done|]. by eexists _, _, _.
  - cbn [env_step]. destruct (ForgetInode_spec _ _ _ _ _ _ id (inv_core _ _ I)) as (c & -> & K & Hr & F & _). exists hist. exact (env_table _ w c I K F Hr).
  - cbn [env_step]. destruct (ReclaimInactive_spec _ _ _ _ _ _ limit (inv_core _ _ I)) as (removed & c & -> & K & Hr & D).
    exists hist. exact (env_table _ w c I K (dc_fewer _ _ _ _ _ D) Hr).
Qed.

(** ** Reachable worlds *)

(** An empty cache, whoever else holds references, and files with identities of their own. *)
Record started (w : W) : Prop := {
  st_heap : heap (cache w) = ∅;
  st_table : table (cache w) = replicate BucketCount [];
  st_count : record_count (cache w) = 0;
  st_ok : pr_ok (refs (cache w));
  st_refs : forall pa, refs_are (pr_query pa (refs (cache w))) (count_occ Z.eq_dec (mappings w) pa) (count_occ Z.eq_dec (others w) pa);
  st_threads : threads w = [];
  st_ids : forall i j x y, inodes w !! i = Some x -> inodes w !! j = Some y -> i_identity x = i_identity y -> i = j;
}.

Definition first_pages (ins : gmap Z (Inode C)) (k : FileCacheKey) : C :=
  match List.find (fun ix => (i_identity ix.2 =? identity k) && (i_version ix.2 =? content_version k)) (map_to_list ins) with
  | Some (_, x) => i_page x (file_offset k)
  | None => zero_page
  end.

Lemma first_pages_spec (ins : gmap Z (Inode C)) i x o :
  (forall i j x y, ins !! i = Some x -> ins !! j = Some y -> i_identity x = i_identity y -> i = j) ->
  ins !! i = Some x -> first_pages ins (MkKey (i_identity x) (i_version x) o) = i_page x o.
Proof.
  intros Hids Hx. unfold first_pages. cbn. destruct (List.find _ _) as [[j y]|] eqn:E.
  - apply find_some in E as [Hin%list_elem_of_In%elem_of_map_to_list [Hi%Z.eqb_eq _]%andb_true_iff]. cbn in *.
    assert (j = i) as -> by by eapply Hids. by assert (y = x) as -> by congruence.
  - apply elem_of_map_to_list, list_elem_of_In in Hx. apply (find_none _ _ E) in Hx. cbn in Hx. by rewrite !Z.eqb_refl in Hx.
Qed.

Lemma started_Inv w : started w -> Inv (first_pages (inodes w)) w.
Proof.
  intros [H1 H2 H3 H4 H5 H6 H7].
  assert (concat (table (cache w)) = []) as Hc by (rewrite H2; generalize BucketCount as n; intros n; induction n; done).
  assert (forall e, heap (cache w) !! e = None) as Hh by (intros e; by rewrite H1, lookup_empty).
  assert (forall e, entry_of (cache w) e = None) as He by (intros e; unfold entry_of; by rewrite Hh).
  constructor; [|by rewrite H6|by intros e x; rewrite He|done|by intros i x o Hx; apply (first_pages_spec _ i)].
  constructor; unfold owners, fillers, cache_refs, mapping_refs; rewrite ?H6; try done.
  - rewrite H2. apply length_replicate.
  - intros i chain e Hi Hin. rewrite H2 in Hi. apply lookup_replicate in Hi as [-> _]. by apply not_elem_of_nil in Hin.
  - rewrite Hc. constructor.
  - by intros e e' x x'; rewrite He.
  - by rewrite Hc.
  - by intros e x n; rewrite Hh.
  - cbn. lia.
  - intros pa. cbn. rewrite !Nat.add_0_r. replace (heap_refs (heap (cache w)) pa) with 0%nat; [rewrite Nat.add_0_r; apply H5|].
    rewrite H1. unfold heap_refs. by rewrite map_filter_empty, map_size_empty.
Qed.

Lemma step_Inv hist w w' : Inv hist w -> step zero_page w w' -> exists hist', Inv hist' w'.
Proof.
  intros I [ch t E|a E].
  - pose proof (thread_step_safe hist w t ch I) as H. rewrite E in H. by exists hist.
  - pose proof (env_step_safe hist w a I) as H. by rewrite E in H.
Qed.

Lemma reachable_Inv w0 w : started w0 -> rtc (step zero_page) w0 w -> exists hist, Inv hist w.
Proof.
  intros Hs Hr. pose proof (ex_intro (fun h => Inv h w0) _ (started_Inv w0 Hs)) as I. clear Hs. revert I.
  induction Hr as [w|w1 w2 w3 Hst Hr IH]; [done|]. intros [hist I]. apply IH. by eapply step_Inv.
Qed.

End Steps.
