(* ===== verification/FileCacheClaims.v ===== *)
(** * The file cache: what it promises

    Theorems about every world that threads in [AcquireCachedFileMappingPage], writers of files and
    other holders of page references can reach, in any interleaving. *)
From S2P Require Import Prelude Interfaces PageRefs FileCache FileCacheProof FileCacheWorld FileCacheSteps.

Section Claims.
Context {P C : Type} `{!PageRefs P} `{!PageRefsLaws P} (zero_page : C).
Abbreviation W := (World P C).
Implicit Types (w : W).

(** The worlds that the system can get into from an empty cache. *)
Definition reachable w : Prop := exists w0, started w0 /\ rtc (step zero_page) w0 w.

Lemma reachable_good w : reachable w -> exists hist, Inv hist w.
Proof. intros (w0 & Hs & Hr). by eapply reachable_Inv. Qed.

(** C3: no assertion of the file cache fails and no entry is used after it is gone: in every
    reachable world every thread either takes its step or waits, and the rest of the kernel can only
    stop at the assertion that the content version of a file does not wrap. *)
Theorem file_cache_safe w : reachable w ->
  (forall ch t, thread_step zero_page ch t w <> Failed) /\
  (forall a, env_step a w = Failed -> exists i size page, a = EnvWrite i size page /\
     (inodes w !! i = None \/ exists x, inodes w !! i = Some x /\ i_version x = UMAX)).
Proof.
  intros Hr. destruct (reachable_good w Hr) as [hist I]. split.
  - intros ch t E. pose proof (thread_step_safe zero_page hist w t ch I) as H. by rewrite E in H.
  - intros a E. pose proof (env_step_safe hist w a I) as H. by rewrite E in H.
Qed.

(** ** The order of the steps *)

(** Where a thread can be after its next step. *)
Definition follows (pc pc' : PC) : Prop :=
  match pc with
  | AtKey i o => pc' = AtReturn None \/ (exists ver, pc' = AtReturn (Some (ver, 0))) \/ exists k, pc' = AtFind (MkRequest i o k)
  | AtFind q => pc' = AtReturn None \/ pc' = AtInsert q \/ exists e, pc' = AtWait q e
  | AtInsert q => pc' = AtReturn None \/ (exists e, pc' = AtWait q e) \/ exists e, pc' = AtAlloc q e
  | AtWait q e => pc' = AtGot q e RReady \/ pc' = AtVersion q e
  | AtVersion q e => pc' = AtGot q e RError \/ pc' = AtGot q e RRetry
  | AtAlloc q e => pc' = AtReclaim q e \/ exists pa, pc' = AtFill q e pa
  | AtReclaim q e => pc' = AtComplete q e 0 RError \/ pc' = AtAlloc2 q e
  | AtAlloc2 q e => pc' = AtComplete q e 0 RError \/ exists pa, pc' = AtFill q e pa
  | AtFill q e pa => pc' = AtAdopt q e pa \/ exists r, pc' = AtGiveBack q e pa r
  | AtGiveBack q e pa r => pc' = AtComplete q e 0 r
  | AtAdopt q e pa => pc' = AtRetain q e pa \/ pc' = AtComplete q e 0 RError
  | AtRetain q e pa => pc' = AtRelease q e pa \/ pc' = AtUndoMapping q e pa
  | AtUndoMapping q e pa => pc' = AtComplete q e 0 RError
  | AtRelease q e pa => pc' = AtComplete q e pa RReady \/ pc' = AtUndoCache q e pa
  | AtUndoCache q e pa => pc' = AtComplete q e 0 RError
  | AtComplete q e pa r => pc' = AtGot q e r
  | AtGot q e r => pc' = AtReturn None \/ pc' = AtKey (inode q) (offset q) \/ exists pa, pc' = AtCheck q e pa
  | AtCheck q e pa => pc' = AtDrop q e pa \/ pc' = AtReturn (Some (content_version (rkey q), pa))
  | AtDrop q e pa => pc' = AtKey (inode q) (offset q)
  | AtReturn _ => False
  end.

Lemma leave_next t e pc w w' : leave t e pc w = Next w' -> threads w' = <[t := pc]> (threads w).
Proof. unfold leave. destruct (drop e (cache w)); [|done]. by intros [= <-]. Qed.

Lemma step_follows w w' ch t pc : threads w !! t = Some pc -> thread_step zero_page ch t w = Next w' ->
  exists pc', threads w' = <[t := pc']> (threads w) /\ follows pc pc'.
Proof.
  intros Ht. unfold thread_step. rewrite Ht. destruct pc; cbn [acquire_step find_step fill_step]; unfold lift;
    repeat case_match; try done; intros E; first [apply leave_next in E|injection E as <-];
    (eexists; split; [first [exact E|reflexivity]|cbn; eauto]).
Qed.

(** ** What a request gets *)

(** The file and the offset a thread asks for. *)
Definition pc_target (pc : PC) : option (Z * Z) :=
  match pc with
  | AtKey i o => Some (i, o)
  | _ => (fun q => (inode q, offset q)) <$> pc_request pc
  end.

(** The answer is the current version of the file, with its page at the offset, or no page behind
    the end of the file. *)
Definition answers (w : W) (i o ver pa : Z) : Prop :=
  exists x, inodes w !! i = Some x /\ ver = i_version x /\
  (pa = 0 /\ i_size x <= o \/
   pa <> 0 /\ o < i_size x /\ memory w pa = i_page x o /\ pa ∈ mappings w /\
   exists m c, pr_query pa (refs (cache w)) = Some (m, c) /\ 0 < m).

Lemma mapped_query hist w pa : Inv hist w -> pa ∈ mappings w -> exists m c, pr_query pa (refs (cache w)) = Some (m, c) /\ 0 < m.
Proof.
  intros I Hin. pose proof (k_refs _ _ _ _ _ _ (inv_core _ _ I) pa) as Hr. apply list_elem_of_In, (count_occ_In Z.eq_dec) in Hin.
  destruct (pr_query pa (refs (cache w))) as [mc|]; cbn in Hr; unfold mapping_refs in Hr; [|lia].
  destruct Hr as [-> _]. eexists _, _. split; [done|]. lia.
Qed.

Lemma goto_self w t pc pc' c m ms : threads w !! t = Some pc -> threads (moved_to w t pc' c m ms) !! t = Some pc'.
Proof. apply moved_to_self. Qed.

Lemma check_answers hist w w' t q e pa pc' : Inv hist w -> threads w !! t = Some (AtCheck q e pa) ->
  acquire_step t (AtCheck q e pa) w = Next w' -> threads w' !! t = Some pc' ->
  pc' = AtDrop q e pa \/ pc' = AtReturn (Some (content_version (rkey q), pa)) /\ answers w' (inode q) (offset q) (content_version (rkey q)) pa.
Proof.
  intros I Ht E Ht'. pose proof (AtCheck_safe hist w t q e pa I Ht) as Hs. rewrite E in Hs. pose proof (inv_pc _ _ I _ _ Ht) as [_ _ H3 H4 _ _ _].
  cbn [acquire_step] in E. destruct (H3 q eq_refl) as (y & Hy & _ & _ & Ho). rewrite Hy in E. cbn [lift] in E. destruct (current q y) eqn:Ec.
  2: { injection E as <-. left. rewrite goto_plain, (goto_self w t _ _ _ _ _ Ht) in Ht'. by injection Ht'. }
  right. unfold leave in E. destruct (drop e _) as [c'|]; [|done]. injection E as <-. cbn [with_mappings] in *.
  change (threads _ !! t) with (threads (moved_to w t (AtReturn (Some (content_version (rkey q), pa))) c' (memory w) (pa :: mappings w)) !! t) in Ht'.
  rewrite (goto_self w t _ _ _ _ _ Ht) in Ht'. injection Ht' as <-. split; [done|].
  unfold current in Ec. apply andb_true_iff in Ec as [[Eid Ev]%andb_true_iff Esz].
  destruct (H4 q e eq_refl eq_refl) as (x & Hx & Hk & Hrd & Hpa). specialize (Hrd eq_refl). specialize (Hpa pa eq_refl).
  exists y. split; [exact Hy|]. split; [lia|]. right.
  pose proof Hx as [n He]%entry_heap. destruct (k_heap _ _ _ _ _ _ (inv_core _ _ I) e x n He) as (_ & _ & _ & Hok & _). unfold entry_ok in Hok. rewrite Hrd in Hok.
  split_and!; [rewrite <- Hpa; apply Hok|lia| |by left|by apply (mapped_query hist); [exact Hs|left]].
  change (memory w pa = i_page y (offset q)). destruct (inv_entry _ _ I e x Hx) as [_ Hm]. rewrite <- Hpa, (Hm Hrd), Hk, <- (inv_hist _ _ I _ y _ Hy).
  f_equal. destruct (rkey q) as [a b d]. cbn in *. f_equal; lia.
Qed.

Lemma key_answers w w' t i o ver pa : threads w !! t = Some (AtKey i o) -> acquire_step t (AtKey i o) w = Next w' ->
  threads w' !! t = Some (AtReturn (Some (ver, pa))) -> answers w' i o ver pa.
Proof.
  intros Ht E Ht'. cbn [acquire_step] in E. destruct (_ || _).
  { injection E as <-. rewrite goto_plain, (goto_self w t _ _ _ _ _ Ht) in Ht'. done. }
  destruct (inodes w !! i) as [x|] eqn:Hx; [|done]. cbn [lift] in E.
  destruct (i_size x <=? o) eqn:Es; injection E as <-; rewrite goto_plain, (goto_self w t _ _ _ _ _ Ht) in Ht'; [|done].
  destruct (Valid _); [|done]. injection Ht' as <- <-. exists x. split; [exact Hx|]. split; [done|]. left. split; [done|lia].
Qed.

(** C4: a page of the cache that a request returns is coherent: it holds the content the file has at
    the returned version, which is the file's current version at that moment, the request's mapping
    reference to it is counted, and no page is returned only behind the end of the file. *)
Theorem mapping_page_coherent w w' ch t pc i o ver pa : reachable w -> threads w !! t = Some pc ->
  pc_target pc = Some (i, o) -> thread_step zero_page ch t w = Next w' -> threads w' !! t = Some (AtReturn (Some (ver, pa))) ->
  answers w' i o ver pa.
Proof.
  intros Hr Ht Htg E Ht'. destruct (reachable_good w Hr) as [hist I].
  destruct (step_follows w w' ch t pc Ht E) as (pc1 & Eth & Hf). rewrite Eth, list_lookup_insert_eq in Ht' by (by eapply lookup_lt_Some).
  injection Ht' as ->. unfold thread_step in E. rewrite Ht in E. destruct pc; cbn in Hf; try by naive_solver.
  - injection Htg as <- <-. eapply key_answers; [exact Ht|exact E|]. rewrite Eth. apply list_lookup_insert_eq. by eapply lookup_lt_Some.
  - injection Htg as <- <-. destruct (check_answers hist w w' t q e pa0 (AtReturn (Some (ver, pa))) I Ht E) as [?|[[= -> ->] Ha]]; [|done|exact Ha].
    rewrite Eth. apply list_lookup_insert_eq. by eapply lookup_lt_Some.
Qed.

(** ** The table *)

(** the hash table is a finite map with one owner of every entry: a key finds the record that
    has it, there is at most one, and the counter counts the records; an entry that is being filled
    has exactly one filler, a final entry none; a ready entry holds a counted cache reference. *)
Theorem table_is_map w : reachable w -> let c := cache w in
  (forall k e, FindLink k c = Some e <-> e ∈ concat (table c) /\ exists x, entry_of c e = Some x /\ key x = k) /\
  NoDup (concat (table c)) /\ record_count c = Z.of_nat (length (concat (table c))) /\
  (forall e x, entry_of c e = Some x ->
     fillers w e = (if decide (state x = Loading) then 1 else 0)%nat /\ completion x = bool_decide (state x = Loading) /\
     (state x = Ready -> exists m n, pr_query (physical_address x) (refs c) = Some (m, n) /\ 0 < n)).
Proof.
  intros Hr c. destruct (reachable_good w Hr) as [hist I]. pose proof (inv_core _ _ I) as K. split_and!.
  - intros k e. pose proof (FindLink_spec _ _ _ _ _ c k K) as Hf. destruct (FindLink k c) as [e'|].
    + destruct Hf as (Hin & _ & x & Hx & Hk). split; [intros [= <-]; eauto|]. intros (Hin' & x' & Hx' & Hk'). f_equal.
      apply (k_keys _ _ _ _ _ _ K e' e x x'); try done. congruence.
    + split; [done|]. intros (Hin & x & Hx & Hk). by destruct (Hf e x Hin Hx).
  - apply K.
  - apply K.
  - intros e x Hx. pose proof Hx as [n He]%entry_heap. destruct (k_heap _ _ _ _ _ _ K e x n He) as (_ & _ & _ & Hok & Hc). unfold entry_ok in Hok.
    split; [destruct (state x); cbn; by destruct Hok|]. split; [rewrite Hc; destruct (state x); destruct Hok as [-> _]; done|].
    intros Hst. rewrite Hst in Hok. destruct Hok as (_ & Ho & _).
    pose proof (heap_refs_pos (heap c) e (x, n) (physical_address x) He) as Hp. unfold holds in Hp; cbn in Hp. rewrite Ho, Z.eqb_refl in Hp.
    specialize (Hp eq_refl). pose proof (k_refs _ _ _ _ _ _ K (physical_address x)) as Hq. fold c in Hq.
    destruct (pr_query (physical_address x) (refs c)) as [mc|]; cbn in Hq; [|lia]. destruct Hq as [-> _]. eexists _, _. split; [done|]. lia.
Qed.

(** C17: every reference is accounted for: the counters of a managed page are the mapping references
    of page tables and requests, and the cache references of other caches, fillers and entries; a
    page nobody refers to is not managed; an entry lives exactly as long as the table or a thread
    owns it. *)
Theorem references_balance w : reachable w -> let c := cache w in
  (forall pa m n, pr_query pa (refs c) = Some (m, n) ->
     m = Z.of_nat (mapping_refs w pa) /\ n = Z.of_nat (cache_refs w pa + heap_refs (heap c) pa) /\ 0 < m + n) /\
  (forall pa, pr_query pa (refs c) = None -> mapping_refs w pa = 0%nat /\ cache_refs w pa = 0%nat /\ heap_refs (heap c) pa = 0%nat) /\
  (forall e x n, heap c !! e = Some (x, n) -> n = (owners w e + b2n (in_table e c))%nat /\ (0 < n)%nat) /\
  (forall e, heap c !! e = None -> owners w e = 0%nat /\ in_table e c = false).
Proof.
  intros Hr c. destruct (reachable_good w Hr) as [hist I]. pose proof (inv_core _ _ I) as K. split_and!.
  - intros pa m n Hq. pose proof (k_refs _ _ _ _ _ _ K pa) as H. fold c in H. rewrite Hq in H. destruct H as [[= -> ->] H]. split_and!; try done. lia.
  - intros pa Hq. pose proof (k_refs _ _ _ _ _ _ K pa) as H. fold c in H. rewrite Hq in H. cbn in H. lia.
  - intros e x n He. by destruct (k_heap _ _ _ _ _ _ K e x n He) as (_ & ? & ? & _).
  - intros e He. split.
    + destruct (owners w e) eqn:Eo; [done|]. destruct (k_own _ _ _ _ _ _ K e ltac:(lia)) as [v Hv]. unfold c in He. congruence.
    + apply bool_decide_eq_false_2. intros Hin. destruct (table_entry _ _ _ _ _ _ e K Hin) as [x Hx]. apply entry_heap in Hx as [n Hn]. unfold c in He. congruence.
Qed.

(** ** Waiting ends *)

(** How many steps a filler can still take. *)
Definition fill_rank (pc : PC) : nat :=
  match pc with
  | AtAlloc _ _ => 8
  | AtReclaim _ _ => 7
  | AtAlloc2 _ _ => 6
  | AtFill _ _ _ => 5
  | AtGiveBack _ _ _ _ | AtAdopt _ _ _ => 4
  | AtRetain _ _ _ => 3
  | AtUndoMapping _ _ _ | AtRelease _ _ _ => 2
  | AtUndoCache _ _ _ | AtComplete _ _ _ _ => 1
  | _ => 0
  end.

Lemma count_exists {A} `{!EqDecision A} (f : PC -> option A) a l : (0 < count f a l)%nat -> exists t pc, l !! t = Some pc /\ f pc = Some a.
Proof.
  induction l as [|pc l IH]; [cbn; lia|]. rewrite count_cons. unfold is_at. destruct (decide (f pc = Some a)) as [E|E].
  - intros _. by exists 0%nat, pc.
  - rewrite bool_decide_eq_false_2 by done. intros Hp. destruct (IH Hp) as (t & pc0 & Hl & Hf). by exists (S t), pc0.
Qed.

Lemma filler_moves hist w t pc e ch : Inv hist w -> threads w !! t = Some pc -> pc_fill pc = Some e -> exists w', thread_step zero_page ch t w = Next w'.
Proof.
  intros I Ht He. pose proof (thread_step_safe zero_page hist w t ch I) as Hs. destruct (thread_step zero_page ch t w) as [w'| |] eqn:E; [eauto| |done].
  exfalso. unfold thread_step in E. rewrite Ht in E. destruct pc; try done; cbn [fill_step] in E; unfold lift in E; by repeat case_match.
Qed.

Lemma filler_rank w w' ch t pc e : threads w !! t = Some pc -> pc_shape pc -> pc_fill pc = Some e -> thread_step zero_page ch t w = Next w' ->
  exists pc', threads w' = <[t := pc']> (threads w) /\ (pc_fill pc' = Some e /\ (fill_rank pc' < fill_rank pc)%nat \/ pc_fill pc' = None /\ exists q r, pc' = AtGot q e r).
Proof.
  intros Ht Hsh He E. destruct (step_follows w w' ch t pc Ht E) as (pc' & Eth & Hf). exists pc'. split; [done|].
  destruct pc; try done; cbn in He; injection He as ->; cbn in Hf;
    repeat match goal with H : _ \/ _ |- _ => destruct H | H : exists _, _ |- _ => destruct H end; subst; cbn; try done; first [left; split; [done|lia]|right; by eauto].
Qed.

(** The entry of a waiter opens when its filler is through. *)
Lemma waiter_wakes hist w t q e ch : Inv hist w -> threads w !! t = Some (AtWait q e) -> fillers w e = 0%nat -> thread_step zero_page ch t w <> Blocked.
Proof.
  intros I Ht Hf. unfold thread_step. rewrite Ht. cbn [find_step]. destruct (po_entry _ _ _ _ (inv_pc _ _ I _ _ Ht) q e eq_refl eq_refl) as (x & Hx & _).
  rewrite Hx. cbn [lift]. pose proof Hx as [n He]%entry_heap. destruct (k_heap _ _ _ _ _ _ (inv_core _ _ I) e x n He) as (_ & _ & _ & _ & ->). by rewrite Hf.
Qed.

(** C16: nobody waits in vain: while a thread waits for an entry, another thread is filling that
    entry and can take its next step whatever the allocator and the filesystem do; each such step
    brings it closer to the end of the filling, and the last one lets the waiter go on. *)
Theorem waiter_progress w t q e ch : reachable w -> threads w !! t = Some (AtWait q e) ->
  thread_step zero_page ch t w = Blocked -> exists t' pc, t' <> t /\ threads w !! t' = Some pc /\ pc_fill pc = Some e /\
  forall ch', exists w' pc', thread_step zero_page ch' t' w = Next w' /\ threads w' !! t' = Some pc' /\ threads w' !! t = Some (AtWait q e) /\
    (pc_fill pc' = Some e /\ (fill_rank pc' < fill_rank pc)%nat \/ pc_fill pc' = None /\ thread_step zero_page ch t w' <> Blocked).
Proof.
  intros Hr Ht Hb. destruct (reachable_good w Hr) as [hist I]. pose proof (inv_core _ _ I) as K.
  assert (fillers w e = 1%nat) as Hf1.
  { destruct (po_entry _ _ _ _ (inv_pc _ _ I _ _ Ht) q e eq_refl eq_refl) as (x & Hx & _). pose proof Hx as [n He]%entry_heap.
    destruct (k_heap _ _ _ _ _ _ K e x n He) as (_ & _ & _ & Hok & Hc). unfold thread_step in Hb. rewrite Ht in Hb. cbn [find_step] in Hb.
    rewrite Hx in Hb. cbn [lift] in Hb. destruct (completion x); [|done]. symmetry in Hc. by apply bool_decide_eq_true in Hc. }
  destruct (count_exists pc_fill e (threads w)) as (t' & pc & Ht' & Hf); [fold (fillers w e); lia|]. exists t', pc.
  assert (t' <> t) as Hne by (intros ->; rewrite Ht in Ht'; by injection Ht' as <-). split_and!; try done. intros ch'.
  destruct (filler_moves hist w t' pc e ch' I Ht' Hf) as [w' E]. exists w'.
  destruct (filler_rank w w' ch' t' pc e Ht' (po_shape _ _ _ _ (inv_pc _ _ I _ _ Ht')) Hf E) as (pc' & Eth & Hor). exists pc'.
  pose proof (thread_step_safe zero_page hist w t' ch' I) as I'. rewrite E in I'. cbn [safe] in I'.
  assert (threads w' !! t = Some (AtWait q e)) as Htw by (rewrite Eth, list_lookup_insert_ne by done; exact Ht).
  split; [done|]. split; [rewrite Eth; apply list_lookup_insert_eq; by eapply lookup_lt_Some|]. split; [done|].
  destruct Hor as [?|[Hn _]]; [by left|right]. split; [done|]. eapply waiter_wakes; [exact I'|exact Htw|].
  unfold fillers in *. rewrite Eth. pose proof (count_goto pc_fill e _ t' pc pc' Ht') as Hc. rewrite Hf, Hn, is_at_nat, is_at_None, Nat.eqb_refl in Hc. cbn [b2n] in Hc. lia.
Qed.

(** ** Reclaiming and invalidating *)

(** The page of an entry that was discarded while inactive goes back to the pool. *)
Lemma inactive_freed o f g cr mr (c c' : Cache P) limit removed e x : Core o f g cr mr c -> Core o f g cr mr c' ->
  Discarded (inactive c) limit removed c c' -> e ∈ removed -> entry_of c e = Some x ->
  pr_query (physical_address x) (refs c') = None /\ entry_of c' e = None /\ o e = 0%nat /\ state x = Ready.
Proof.
  intros K K' D Hin Hx. pose proof (dc_test _ _ _ _ _ D) as Ht. rewrite Forall_forall in Ht. specialize (Ht e Hin).
  pose proof Hx as [n He]%entry_heap. destruct (k_heap _ _ _ _ _ _ K e x n He) as (_ & En & _ & Hok & _). unfold inactive in Ht. rewrite He in Ht.
  destruct n as [|[|n]]; [done| |done]. apply andb_true_iff in Ht as [Hst%bool_decide_eq_true Hq].
  unfold entry_ok in Hok. rewrite Hst in Hok. destruct Hok as (_ & Ho & _).
  pose proof (k_refs _ _ _ _ _ _ K (physical_address x)) as Hr. set (pa := physical_address x) in *.
  destruct (pr_query pa (refs c)) as [[m k]|]; [|done]. apply andb_true_iff in Hq as [Hm Hk]. destruct Hr as [[= -> ->] _].
  assert (e ∈ concat (table c)) as Hinc by (rewrite (dc_table _ _ _ _ _ D); apply elem_of_app; by right).
  assert (o e = 0%nat) as Hoe by (unfold in_table in En; rewrite bool_decide_eq_true_2 in En by done; cbn in En; lia).
  assert (e ∉ concat (table c')) as Hnin.
  { pose proof (k_nodup _ _ _ _ _ _ K) as Hnd. rewrite (dc_table _ _ _ _ _ D) in Hnd. apply NoDup_app in Hnd as (_ & Hd & _). intros Hc. by apply (Hd e). }
  assert (entry_of c' e = None) as Hgone.
  { destruct (entry_of c' e) as [y|] eqn:Ey; [|done]. apply entry_heap in Ey as [k Hy]. destruct (k_heap _ _ _ _ _ _ K' e y k Hy) as (_ & Ek & Hk0 & _).
    unfold in_table in Ek. rewrite bool_decide_eq_false_2 in Ek by done. cbn in Ek. lia. }
  split_and!; try done. pose proof (heap_refs_delete (heap c) e (x, 1%nat) pa He) as Hdel. unfold holds in Hdel; cbn in Hdel. rewrite Ho, Z.eqb_refl in Hdel. cbn in Hdel.
  assert (heap_refs (heap c') pa = 0%nat) as Hz.
  { unfold heap_refs. apply map_size_empty_iff, map_eq. intros e'. rewrite lookup_empty. apply map_lookup_filter_None. right. intros [y' k'] Hy' Hh. cbn in Hh.
    destruct (dc_fewer _ _ _ _ _ D e' y') as (y & Hy & Hs); [apply entry_heap; eauto|]. apply entry_heap in Hy as [k Hy].
    assert (e' <> e) as Hne. { intros ->. assert (entry_of c' e = Some y') by (apply entry_heap; eauto). congruence. }
    pose proof (heap_refs_pos (delete e (heap c)) e' (y, k) pa) as Hp. rewrite lookup_delete_ne in Hp by done.
    specialize (Hp Hy). rewrite <- (same_holds y y' k k' pa Hs) in Hp. specialize (Hp Hh). lia. }
  pose proof (k_refs _ _ _ _ _ _ K' pa) as Hr'. rewrite Hz in Hr'. destruct (pr_query pa (refs c')) as [mc|]; [|done]. destruct Hr' as [_ Hr']. lia.
Qed.

(** reclaiming is exact: [ReclaimInactive] always returns, takes at most the pages asked for,
    only ready ones that no thread, page table or other cache uses, and each of them goes back to the
    pool; it takes fewer than asked for only when no such page is left. *)
Theorem ReclaimInactive_correct w limit : reachable w -> exists removed c',
  ReclaimInactive limit (cache w) = Some (length removed, c') /\ (length removed <= limit)%nat /\
  concat (table (cache w)) ≡ₚ concat (table c') ++ removed /\
  (forall e x, e ∈ removed -> entry_of (cache w) e = Some x -> state x = Ready /\ owners w e = 0%nat /\
     entry_of c' e = None /\ pr_query (physical_address x) (refs c') = None) /\
  ((length removed < limit)%nat -> forall e, e ∈ concat (table c') -> inactive (cache w) e = false).
Proof.
  intros Hr. destruct (reachable_good w Hr) as [hist I]. pose proof (inv_core _ _ I) as K.
  destruct (ReclaimInactive_spec _ _ _ _ _ _ limit K) as (removed & c' & E & K' & _ & D). exists removed, c'.
  split_and!; [done|apply D|apply D| |].
  - intros e x Hin Hx. destruct (inactive_freed _ _ _ _ _ _ _ _ _ e x K K' D Hin Hx) as (? & ? & ? & ?). by split_and!.
  - intros Hlt e Hin. pose proof (dc_rest _ _ _ _ _ D Hlt) as Hf. rewrite Forall_forall in Hf. by apply Hf.
Qed.

(** a change of a file takes its old pages out of the table: after [AdvanceContentVersion] every
    record of the file has the new version, and every request that got its key before the change
    ends its attempt without a page. *)
Theorem write_invalidates w w' i x size page : reachable w -> inodes w !! i = Some x -> i_identity x <> 0 ->
  env_step (EnvWrite i size page) w = Next w' ->
  (exists y, inodes w' !! i = Some y /\ i_version y = i_version x + 1) /\
  (forall k e, identity k = i_identity x -> FindLink k (cache w') = Some e -> content_version k = i_version x + 1) /\
  (forall t q e pa, threads w' !! t = Some (AtCheck q e pa) -> inode q = i -> acquire_step t (AtCheck q e pa) w' = Next (goto t (AtDrop q e pa) w')).
Proof.
  intros Hr Hx Hid E. destruct (reachable_good w Hr) as [hist I]. cbn [env_step] in E. rewrite Hx in E. cbn [lift] in E.
  unfold AdvanceContentVersion in E. cbn [with_inode inodes] in E. rewrite lookup_insert_eq in E. cbn [lift i_version i_identity i_size i_page] in E.
  destruct (_ =? UMAX); [done|]. pose proof (inv_core _ _ (write_Inv hist w i x size page I Hx)) as K.
  cbn [with_inode cache] in E. destruct (InvalidateVersions_spec _ _ _ _ _ _ (i_identity x) (i_version x + 1) K) as (c & Ec & K' & _ & _ & Hv).
  cbn [with_inode cache] in Ec. rewrite Ec in E. cbn [lift] in E. rewrite with_inode_twice in E. injection E as <-. split_and!.
  - cbn [with_cache with_inode inodes]. rewrite lookup_insert_eq. eauto.
  - intros k e Hk Hf. pose proof (FindLink_spec _ _ _ _ _ c k K') as Hl. cbn [with_cache cache] in Hf. rewrite Hf in Hl.
    destruct Hl as (Hin & _ & y & Hy & <-). by apply (Hv Hid e y).
  - intros t q e pa Ht Hq. cbn [acquire_step with_cache with_inode inodes]. rewrite Hq, lookup_insert_eq. cbn [lift].
    assert (current q (MkInode (i_identity x) (i_version x + 1) size page) = false) as ->; [|done].
    destruct (po_request _ _ _ _ (inv_pc _ _ I t _ Ht) q eq_refl) as (y & Hy & _ & Hle & _). rewrite Hq, Hx in Hy. injection Hy as <-.
    unfold current; cbn. replace (i_version x + 1 =? content_version (rkey q)) with false by lia. by rewrite andb_false_r.
Qed.

End Claims.
