(* ===== verification/FileCacheWitness.v ===== *)
(** * The file cache at work

    Two requests for one page of a file, with the page manager of the kernel on a concrete pool: the
    first fills the page while the second waits, both get it, the file changes, and the page is
    reclaimed. *)
From S2P Require Import Prelude Interfaces PagePool ManagedPages PageRefs FileCache FileCacheProof FileCacheWorld FileCacheSteps FileCacheClaims.

Module FileCacheWitness.

Definition Pages : Type := PageManager (list Z).

(** File 1, with identity 7, is two pages long. *)
Definition file : Inode Z := MkInode 7 1 8192 (fun o => o + 100).
Definition boot : World Pages Z :=
  MkWorld (MkCache ∅ 0 (replicate BucketCount []) 0 (MkManager (replicate 256 []) [1; 2; 3]))
    (fun _ => 0) {[1 := file]} [] [] [].

Definition good : Choice Z := MkChoice true true true true true 0.

Inductive Event := Thread (t : nat) | Other (a : Env (C := Z)).
Definition event (v : Event) (w : World Pages Z) : Outcome (World Pages Z) :=
  match v with Thread t => thread_step 0 good t w | Other a => env_step a w end.
Fixpoint exec (l : list Event) (w : World Pages Z) : option (World Pages Z) :=
  match l with
  | [] => Some w
  | v :: l => match event v w with Next w' => exec l w' | _ => None end
  end.

Lemma exec_reachable l : forall w w', exec l w = Some w' -> rtc (step 0) w w'.
Proof.
  induction l as [|v l IH]; intros w w'; cbn; [by intros [= ->]|]. destruct (event v w) as [w1| |] eqn:E; try done. intros Hl.
  eapply rtc_l; [|by apply IH]. destruct v; [by eapply step_thread|by eapply step_env].
Qed.

Definition after (l : list Event) : World Pages Z := default boot (exec l boot).

Lemma empty_chain {A} n i (chain : list A) : replicate n (@nil A) !! i = Some chain -> chain = [].
Proof. by intros [-> _]%lookup_replicate. Qed.

Lemma boot_query pa : pr_query pa (refs (cache boot)) = None.
Proof.
  unfold pr_query, manager_refs, QueryManagedPage, FindManagedPageRecord, chain_of, boot. cbn [cache refs buckets].
  rewrite lookup_total_replicate_2 by apply bucket_of_lt. done.
Qed.

Lemma boot_started : started boot.
Proof.
  constructor; try done.
  - split.
    + split; [done|]. intros i chain ->%empty_chain. split; [constructor|constructor].
    + intros p r. unfold FindManagedPageRecord, chain_of. cbn [buckets boot cache refs]. rewrite lookup_total_replicate_2 by apply bucket_of_lt. done.
  - intros pa. by rewrite boot_query.
  - intros i j x y. cbn [boot inodes]. rewrite !lookup_singleton_Some. by intros [<- _] [<- _].
Qed.

Lemma run_reachable l : (if exec l boot then true else false) = true -> reachable 0 (after l).
Proof.
  unfold after. destruct (exec l boot) as [w|] eqn:E; [|done]. intros _. exists boot. split; [exact boot_started|by eapply exec_reachable].
Qed.

(** Two requests; the first has entered its entry, the second waits for it. *)
Definition both := [Other (EnvRequest 1 4096); Other (EnvRequest 1 4096)].
Definition t0 (n : nat) := replicate n (Thread 0).
Definition t1 (n : nat) := replicate n (Thread 1).
Definition waiting := after (both ++ t0 3 ++ t1 2).
(** The first request is about to return the page, and has returned it. *)
Definition checking := after (both ++ t0 3 ++ t1 2 ++ t0 7).
Definition returned := after (both ++ t0 3 ++ t1 2 ++ t0 8).
(** The second has the page too, and both have given it back. *)
Definition idle := after (both ++ t0 3 ++ t1 2 ++ t0 8 ++ t1 3 ++ [Other (EnvRelease 16384 false); Other (EnvRelease 16384 false)]).

Ltac reach := apply run_reachable; vm_compute; reflexivity.

Lemma cache_safe_witness : thread_step 0 good 1 waiting = Blocked /\ thread_step 0 good 0 waiting <> Failed.
Proof.
  split; [vm_compute; reflexivity|]. apply (file_cache_safe 0 waiting); [unfold waiting; reach].
Defined.

Definition request : Request := MkRequest 1 4096 (MkKey 7 1 4096).

Lemma cache_coherent_witness : threads returned !! 0%nat = Some (AtReturn (Some (1, 16384))) /\ answers returned 1 4096 1 16384.
Proof.
  assert (thread_step 0 good 0 checking = Next returned) as E by (vm_compute; reflexivity).
  assert (threads returned !! 0%nat = Some (AtReturn (Some (1, 16384)))) as Ht by (vm_compute; reflexivity). split; [exact Ht|].
  apply (mapping_page_coherent 0 checking returned good 0 (AtCheck request 0 16384)); [unfold checking; reach|vm_compute; reflexivity|reflexivity|exact E|exact Ht].
Defined.

Lemma cache_map_witness : FindLink (MkKey 7 1 4096) (cache waiting) = Some 0%nat /\ record_count (cache waiting) = 1 /\ fillers waiting 0 = 1%nat.
Proof.
  destruct (table_is_map 0 waiting) as (_ & _ & _ & He); [unfold waiting; reach|].
  split; [vm_compute; reflexivity|]. split; [vm_compute; reflexivity|].
  destruct (He 0%nat (count_hit (new_entry (MkKey 7 1 4096)))) as [Hf _]; [vm_compute; reflexivity|exact Hf].
Defined.

Lemma cache_balance_witness : pr_query 16384 (refs (cache returned)) = Some (1, 1) /\ 1 = Z.of_nat (mapping_refs returned 16384).
Proof.
  assert (pr_query 16384 (refs (cache returned)) = Some (1, 1)) as Hq by (vm_compute; reflexivity). split; [exact Hq|].
  apply (references_balance 0 returned) in Hq as [H _]; [exact H|unfold returned; reach].
Defined.

Lemma cache_progress_witness : exists t' pc, t' <> 1%nat /\ threads waiting !! t' = Some pc /\ pc_fill pc = Some 0%nat.
Proof.
  destruct (waiter_progress 0 waiting 1 request 0 good) as (t' & pc & H1 & H2 & H3 & _);
    [unfold waiting; reach|vm_compute; reflexivity|vm_compute; reflexivity|]. exists t', pc. exact (conj H1 (conj H2 H3)).
Defined.

Lemma cache_reclaim_witness : exists (removed : list nat) c', ReclaimInactive 5 (cache idle) = Some (length removed, c') /\ length removed = 1%nat.
Proof.
  destruct (ReclaimInactive_correct 0 idle 5) as (removed & c' & E & _); [unfold idle; reach|].
  exists removed, c'. split; [exact E|]. assert (fst <$> ReclaimInactive 5 (cache idle) = Some 1%nat) as Hn by (vm_compute; reflexivity).
  rewrite E in Hn. by injection Hn.
Defined.

Lemma cache_write_witness : exists w', env_step (EnvWrite 1 100 (fun _ => 5)) checking = Next w' /\
  acquire_step 0 (AtCheck request 0 16384) w' = Next (goto 0 (AtDrop request 0 16384) w').
Proof.
  pose (r := env_step (EnvWrite 1 100 (fun _ => 5)) checking).
  pose (w' := match r with Next w' => w' | _ => boot end).
  assert (env_step (EnvWrite 1 100 (fun _ => 5)) checking = Next w') as E by (vm_compute; reflexivity). exists w'. split; [exact E|].
  destruct (write_invalidates 0 checking w' 1 file 100 (fun _ => 5)) as (_ & _ & H);
    [unfold checking; reach|vm_compute; reflexivity|discriminate|exact E|].
  apply H; vm_compute; reflexivity.
Defined.

End FileCacheWitness.
