(* ===== verification/DeviceEvents.v ===== *)
(** * Device events ([mecocoa/message.cpp], lines 39-108 and 171-191)

    A driver thread has a queue of eight device events with 32 overflow slots behind it.  An event of
    a source that is already queued is merged into the queued one; an event that finds neither room
    nor a free slot is refused, and everything that is stored is marked as incomplete. *)
From S2P Require Import Prelude.

(** [uni::Queue<T>] over a fixed array. *)
Class FixedQueue (A Q : Type) := {
  fq_count : Q -> nat;
  fq_enqueue : A -> Q -> bool * Q;
  fq_dequeue : Q -> option A * Q;
}.
Class FixedQueueLaws (A Q : Type) `{FixedQueue A Q} := {
  fq_list : Q -> list A;
  fq_room : nat;
  fq_bound : forall q, (length (fq_list q) <= fq_room)%nat;
  fq_count_list : forall q, fq_count q = length (fq_list q);
  fq_enqueue_room : forall x q, (length (fq_list q) < fq_room)%nat -> (fq_enqueue x q).1 = true /\ fq_list (fq_enqueue x q).2 = fq_list q ++ [x];
  fq_enqueue_full : forall x q, (fq_room <= length (fq_list q))%nat -> (fq_enqueue x q).1 = false /\ fq_list (fq_enqueue x q).2 = fq_list q;
  fq_dequeue_list : forall q, (fq_dequeue q).1 = head (fq_list q) /\ fq_list (fq_dequeue q).2 = tail (fq_list q);
}.

(** ** The events *)

Record DeviceEvent := MkEvent {
  version : Z; kind : Z; flags : Z; device_handle : Z; source : Z; count : Z; generation : Z; sequence : Z;
}.
Definition no_event : DeviceEvent := MkEvent 1 0 0 0 0 0 0 0.
#[global] Instance DeviceEvent_inhabited : Inhabited DeviceEvent := populate no_event.

#[global] Instance DeviceEvent_eq : EqDecision DeviceEvent.
Proof. solve_decision. Defined.

Definition DeviceEventFlag_None : Z := 0.
Definition DeviceEventFlag_NeedsAck : Z := 1.
Definition DeviceEventFlag_Coalesced : Z := 2.
Definition DeviceEventFlag_Overflow : Z := 4.

Definition add_flags (x : Z) (e : DeviceEvent) : DeviceEvent :=
  MkEvent (version e) (kind e) (Z.lor (flags e) x) (device_handle e) (source e) (count e) (generation e) (sequence e).

Definition SameDeviceEventSource (l r : DeviceEvent) : bool :=
  (kind l =? kind r) && (device_handle l =? device_handle r) && (source l =? source r) && (generation l =? generation r).

Definition MergeDeviceEvent (target event : DeviceEvent) (extra_flags : Z) : DeviceEvent :=
  let total := count target + count event in
  let merged := MkEvent (version target) (kind target)
    (Z.lor (flags target) (Z.lor (Z.lor (flags event) DeviceEventFlag_Coalesced) extra_flags))
    (device_handle target) (source target) (if 0xFFFFFFFF <? total then 0xFFFFFFFF else total) (generation target) (sequence event) in
  if 0xFFFFFFFF <? total then add_flags DeviceEventFlag_Overflow merged else merged.

(** ** The queue of a thread *)
Definition Capacity : nat := 8.
Definition OverflowCapacity : nat := 32.

Section DeviceEvents.
Context {Q : Type} `{!FixedQueue DeviceEvent Q}.

Record DeviceEventQueue := MkEvents { pending : Q; overflow : list DeviceEvent; overflow_used : list bool }.
Definition set_pending (p : Q) (d : DeviceEventQueue) : DeviceEventQueue := MkEvents p (overflow d) (overflow_used d).
Definition set_slot (i : nat) (e : DeviceEvent) (used : bool) (d : DeviceEventQueue) : DeviceEventQueue :=
  MkEvents (pending d) (<[i := e]> (overflow d)) (<[i := used]> (overflow_used d)).

(** The first slot from [i], among [n], with a property. *)
Fixpoint first_slot (f : nat -> bool) (i n : nat) : option nat :=
  match n with O => None | S n => if f i then Some i else first_slot f (S i) n end.

(** One turn through the queue; [None] is the early return. *)
Fixpoint coalesce (n : nat) (event : DeviceEvent) (coalesced : bool) (p : Q) : option bool * Q :=
  match n with
  | O => (Some coalesced, p)
  | S n =>
    match fq_dequeue p with
    | (None, p) => (None, p)
    | (Some e, p) =>
      let skip := negb (SameDeviceEventSource e event) || coalesced in
      let '(ok, p) := fq_enqueue (if skip then e else MergeDeviceEvent e event DeviceEventFlag_None) p in
      if ok then coalesce n event (coalesced || negb skip) p else (None, p)
    end
  end.

Fixpoint mark_pending (n : nat) (p : Q) : Q :=
  match n with
  | O => p
  | S n => match fq_dequeue p with
           | (None, p) => p
           | (Some e, p) => mark_pending n (fq_enqueue (add_flags DeviceEventFlag_Overflow e) p).2
           end
  end.

Definition mark_slots (d : DeviceEventQueue) : DeviceEventQueue :=
  MkEvents (pending d)
    (zip_with (fun e (u : bool) => if u then add_flags DeviceEventFlag_Overflow e else e) (overflow d) (overflow_used d)) (overflow_used d).

(** The overflow slots, when the queue is full. *)
Definition queue_overflow (event : DeviceEvent) (d : DeviceEventQueue) : bool * DeviceEventQueue :=
  match first_slot (fun i => (overflow_used d !!! i) && SameDeviceEventSource (overflow d !!! i) event) 0 OverflowCapacity with
  | Some i => (true, set_slot i (MergeDeviceEvent (overflow d !!! i) event DeviceEventFlag_Overflow) true d)
  | None =>
    match first_slot (fun i => negb (overflow_used d !!! i)) 0 OverflowCapacity with
    | Some i => (true, set_slot i (add_flags DeviceEventFlag_Overflow event) true d)
    | None => (false, mark_slots (set_pending (mark_pending (fq_count (pending d)) (pending d)) d))
    end
  end.

Definition QueueDeviceEvent (event : DeviceEvent) (d : DeviceEventQueue) : bool * DeviceEventQueue :=
  match coalesce (fq_count (pending d)) event false (pending d) with
  | (None, p) => (false, set_pending p d)
  | (Some true, p) => (true, set_pending p d)
  | (Some false, p) =>
    let '(ok, p) := fq_enqueue event p in
    if ok then (true, set_pending p d) else queue_overflow event (set_pending p d)
  end.

Definition DequeueDeviceEvent (d : DeviceEventQueue) : option DeviceEvent * DeviceEventQueue :=
  match fq_dequeue (pending d) with
  | (Some e, p) => (Some e, set_pending p d)
  | (None, p) =>
    let d := set_pending p d in
    match first_slot (fun i => overflow_used d !!! i) 0 OverflowCapacity with
    | Some i => (Some (overflow d !!! i), set_slot i no_event false d)
    | None => (None, d)
    end
  end.

Definition HasPending (d : DeviceEventQueue) : bool :=
  negb (fq_count (pending d) =? 0)%nat ||
  match first_slot (fun i => overflow_used d !!! i) 0 OverflowCapacity with Some _ => true | None => false end.

(** [device_event_cancel], for the queue of the thread. *)
Definition cancelled (handle gen : Z) (e : DeviceEvent) : bool := (device_handle e =? handle) && (generation e =? gen).

Fixpoint cancel_pending (n : nat) (handle gen : Z) (p : Q) : Q :=
  match n with
  | O => p
  | S n => match fq_dequeue p with
           | (None, p) => p
           | (Some e, p) => cancel_pending n handle gen (if cancelled handle gen e then p else (fq_enqueue e p).2)
           end
  end.

Fixpoint cancel_slots (n i : nat) (handle gen : Z) (d : DeviceEventQueue) : DeviceEventQueue :=
  match n with
  | O => d
  | S n =>
    cancel_slots n (S i) handle gen
      (if (overflow_used d !!! i) && cancelled handle gen (overflow d !!! i) then set_slot i no_event false d else d)
  end.

Definition device_event_cancel (handle gen : Z) (d : DeviceEventQueue) : DeviceEventQueue :=
  let d := set_pending (cancel_pending (fq_count (pending d)) handle gen (pending d)) d in
  cancel_slots OverflowCapacity 0 handle gen d.

End DeviceEvents.
Arguments DeviceEventQueue : clear implicits.
