(* ===== verification/DeviceEventsProof.v ===== *)
(** * Device events: what is stored

    The events that a queue and its overflow slots hold, as one list up to order, and what every
    operation does to it. *)
From S2P Require Import Prelude DeviceEvents.

(** The source of an event. *)
Definition key (e : DeviceEvent) : Z * Z * Z * Z := (kind e, device_handle e, source e, generation e).
Lemma same_source l r : SameDeviceEventSource l r = true <-> key l = key r.
Proof. unfold SameDeviceEventSource, key. rewrite !andb_true_iff, !Z.eqb_eq. split; [intros [[[-> ->] ->] ->]; done|by intros [= -> -> -> ->]]. Qed.
Lemma merge_key x e f : key (MergeDeviceEvent x e f) = key x.
Proof. unfold MergeDeviceEvent. by destruct (_ <? _). Qed.
Lemma add_flags_key f e : key (add_flags f e) = key e.
Proof. done. Qed.

(** How many source events of a source a list of events stands for. *)
Definition tally (s : Z * Z * Z * Z) (l : list DeviceEvent) : Z := foldr (fun e n => (if decide (key e = s) then count e else 0) + n) 0 l.
#[global] Instance tally_Permutation s : Proper ((≡ₚ) ==> (=)) (tally s).
Proof. apply foldr_permutation_proper; [apply _|solve_proper|]. intros; lia. Qed.
Lemma tally_app s l1 l2 : tally s (l1 ++ l2) = tally s l1 + tally s l2.
Proof. unfold tally. induction l1 as [|x l1 IH]; cbn; [done|]. rewrite IH. lia. Qed.

(** The consumer must rescan the state of the source. *)
Definition flagged (e : DeviceEvent) : Prop := Z.testbit (flags e) 2 = true.
Definition incomplete (s : Z * Z * Z * Z) (l : list DeviceEvent) : Prop := exists x, x ∈ l /\ key x = s /\ flagged x.

Lemma flagged_add e : flagged (add_flags DeviceEventFlag_Overflow e).
Proof. unfold flagged, add_flags. cbn [flags]. rewrite Z.lor_spec. apply orb_true_r. Qed.
Lemma merge_flagged x e f : flagged x -> flagged (MergeDeviceEvent x e f).
Proof. unfold flagged, MergeDeviceEvent. intros Hx. destruct (_ <? _); cbn [flags add_flags]; rewrite !Z.lor_spec, Hx; done. Qed.
Lemma merge_count x e f : 0 <= count x -> 0 <= count e ->
  count (MergeDeviceEvent x e f) = count x + count e \/ flagged (MergeDeviceEvent x e f) /\ count (MergeDeviceEvent x e f) <= count x + count e.
Proof.
  intros Hx He. unfold MergeDeviceEvent. destruct (0xFFFFFFFF <? count x + count e) eqn:Ec; [right|by left]. split; [apply flagged_add|]. cbn. lia.
Qed.
Lemma merge_sequence x e f : sequence (MergeDeviceEvent x e f) = sequence e.
Proof. unfold MergeDeviceEvent. by destruct (_ <? _). Qed.

(** ** Slots *)
Lemma first_slot_some f n : forall i j, first_slot f i n = Some j -> (i <= j < i + n)%nat /\ f j = true.
Proof.
  induction n as [|n IH]; intros i j E; [done|]. cbn in E. destruct (f i) eqn:Ef; [injection E as <-; split; [lia|done]|].
  apply IH in E as [??]. split; [lia|done].
Qed.
Lemma first_slot_none f n : forall i, first_slot f i n = None -> forall j, (i <= j < i + n)%nat -> f j = false.
Proof.
  induction n as [|n IH]; intros i E j Hj; [lia|]. cbn in E. destruct (f i) eqn:Ef; [done|]. destruct (decide (j = i)) as [->|]; [done|]. apply (IH (S i)); [done|lia].
Qed.

Definition occupied (l : list (option DeviceEvent)) : list DeviceEvent := omap id l.
Lemma occupied_cut s i o : s !! i = Some o -> exists l, occupied s ≡ₚ option_list o ++ l /\ forall o', occupied (<[i := o']> s) ≡ₚ option_list o' ++ l.
Proof.
  intros Hi. exists (occupied (take i s) ++ occupied (drop (S i) s)). assert (i < length s)%nat as Hl by (by apply lookup_lt_Some in Hi).
  assert (forall a b o, occupied (a ++ o :: b) ≡ₚ option_list o ++ occupied a ++ occupied b) as Hp.
  { intros a b x. unfold occupied. rewrite omap_app. change (omap id (x :: b)) with (match x with Some y => y :: omap id b | None => omap id b end).
    destruct x; cbn; [by rewrite Permutation_middle|done]. }
  split; [rewrite <- (take_drop_middle s i o Hi) at 1; apply Hp|]. intros o'. rewrite insert_take_drop by done. apply Hp.
Qed.

Section Stored.
Context {Q : Type} `{!FixedQueue DeviceEvent Q, !FixedQueueLaws DeviceEvent Q}.

Definition slots (d : DeviceEventQueue Q) : list (option DeviceEvent) :=
  zip_with (fun e (u : bool) => if u then Some e else None) (overflow d) (overflow_used d).
Definition stored (d : DeviceEventQueue Q) : list DeviceEvent := fq_list (pending d) ++ occupied (slots d).

(** The arrays have their sizes. *)
Definition shaped (d : DeviceEventQueue Q) : Prop := length (overflow d) = OverflowCapacity /\ length (overflow_used d) = OverflowCapacity.

Lemma slots_at d i : shaped d -> (i < OverflowCapacity)%nat -> slots d !! i = Some (if (overflow_used d !!! i : bool) then Some (overflow d !!! i) else None).
Proof.
  intros [H1 H2] Hi. unfold slots. rewrite lookup_zip_with. rewrite !list_lookup_lookup_total_lt by lia. cbn. done.
Qed.
Lemma slots_set d i e u : slots (set_slot i e u d) = <[i := if u then Some e else None]> (slots d).
Proof. unfold slots, set_slot. cbn. by rewrite (insert_zip_with (fun e (u : bool) => if u then Some e else None)). Qed.
Lemma shaped_set d i e u : shaped d -> shaped (set_slot i e u d).
Proof. unfold shaped, set_slot. cbn. by rewrite !length_insert. Qed.
Lemma shaped_pending d p : shaped d -> shaped (set_pending p d).
Proof. done. Qed.

(** ** One turn through the queue *)

Fixpoint absorb (e : DeviceEvent) (l : list DeviceEvent) : option (list DeviceEvent) :=
  match l with
  | [] => None
  | x :: l => if SameDeviceEventSource x e then Some (MergeDeviceEvent x e DeviceEventFlag_None :: l) else cons x <$> absorb e l
  end.

(** Taking the first event and putting another one behind the last always works. *)
Lemma rotate_one x (l : list DeviceEvent) p y : fq_list p = x :: l -> exists p1 p2, fq_dequeue p = (Some x, p1) /\ fq_enqueue y p1 = (true, p2) /\ fq_list p2 = l ++ [y].
Proof.
  intros E. destruct (fq_dequeue_list (A := DeviceEvent) p) as [H1 H2]. destruct (fq_dequeue p) as [o p1]. rewrite E in H1, H2. cbn in H1, H2. subst o.
  pose proof (fq_bound (A := DeviceEvent) p) as Hb. rewrite E in Hb. cbn in Hb. destruct (fq_enqueue_room y p1) as [H3 H4]; [rewrite H2; lia|].
  destruct (fq_enqueue y p1) as [b p2] eqn:E3. cbn in H3, H4. subst b. exists p1, p2. split; [done|]. split; [done|by rewrite H4, H2].
Qed.

Lemma coalesce_done e (a : list DeviceEvent) : forall b p, fq_list p = a ++ b -> exists p', coalesce (length a) e true p = (Some true, p') /\ fq_list p' = b ++ a.
Proof.
  induction a as [|x a IH]; intros b p E; [exists p; split; [done|cbn; by rewrite app_nil_r]|]. cbn [length coalesce].
  destruct (rotate_one x (a ++ b) p x E) as (p1 & p2 & E1 & E2 & E3). rewrite E1, orb_true_r. cbn [orb negb]. rewrite E2.
  destruct (IH (b ++ [x]) p2) as (p' & Ep & El); [by rewrite E3, app_assoc|]. exists p'. split; [done|]. by rewrite El, <- app_assoc.
Qed.

Lemma coalesce_spec e (a : list DeviceEvent) : forall b p, fq_list p = a ++ b ->
  exists p', coalesce (length a) e false p = (Some (if absorb e a then true else false), p') /\ fq_list p' = b ++ default a (absorb e a).
Proof.
  induction a as [|x a IH]; intros b p E; [exists p; split; [done|cbn; by rewrite app_nil_r]|]. cbn [length coalesce absorb]. destruct (SameDeviceEventSource x e) eqn:Es; cbn [negb orb].
  - destruct (rotate_one x (a ++ b) p (MergeDeviceEvent x e DeviceEventFlag_None) E) as (p1 & p2 & E1 & E2 & E3). rewrite E1, Es. cbn [negb orb]. rewrite E2.
    destruct (coalesce_done e a (b ++ [MergeDeviceEvent x e DeviceEventFlag_None]) p2) as (p' & Ep & El); [by rewrite E3, app_assoc|].
    exists p'. rewrite Ep. split; [done|]. cbn. by rewrite El, <- app_assoc.
  - destruct (rotate_one x (a ++ b) p x E) as (p1 & p2 & E1 & E2 & E3). rewrite E1, Es. cbn [negb orb]. rewrite E2.
    destruct (IH (b ++ [x]) p2) as (p' & Ep & El); [by rewrite E3, app_assoc|]. exists p'. rewrite Ep, El, <- app_assoc. by destruct (absorb e a).
Qed.

Lemma mark_pending_spec (a : list DeviceEvent) : forall b p, fq_list p = a ++ b ->
  fq_list (mark_pending (length a) p) = b ++ map (add_flags DeviceEventFlag_Overflow) a.
Proof.
  induction a as [|x a IH]; intros b p E; [cbn; by rewrite app_nil_r|]. cbn [length mark_pending].
  destruct (rotate_one x (a ++ b) p (add_flags DeviceEventFlag_Overflow x) E) as (p1 & p2 & E1 & E2 & E3). rewrite E1, E2. cbn [snd].
  rewrite (IH (b ++ [add_flags DeviceEventFlag_Overflow x])) by (by rewrite E3, app_assoc). by rewrite <- app_assoc.
Qed.

Lemma cancel_pending_spec h g (a : list DeviceEvent) : forall b p, fq_list p = a ++ b ->
  fq_list (cancel_pending (length a) h g p) = b ++ List.filter (fun e => negb (cancelled h g e)) a.
Proof.
  induction a as [|x a IH]; intros b p E; [cbn; by rewrite app_nil_r|]. cbn [length cancel_pending List.filter].
  destruct (rotate_one x (a ++ b) p x E) as (p1 & p2 & E1 & E2 & E3). rewrite E1. destruct (cancelled h g x) eqn:Ec; cbn [negb].
  - apply IH. destruct (fq_dequeue_list (A := DeviceEvent) p) as [_ H]. rewrite E1, E in H. exact H.
  - rewrite E2. cbn [snd]. rewrite (IH (b ++ [x])) by (by rewrite E3, app_assoc). by rewrite <- app_assoc.
Qed.

Lemma absorb_split e l l' : absorb e l = Some l' -> exists a x b, l = a ++ x :: b /\ l' = a ++ MergeDeviceEvent x e DeviceEventFlag_None :: b /\ key x = key e.
Proof.
  revert l'. induction l as [|x l IH]; intros l' E; [done|]. cbn in E. destruct (SameDeviceEventSource x e) eqn:Es.
  - injection E as <-. exists [], x, l. split; [done|split; [done|by apply same_source]].
  - destruct (absorb e l) as [l1|]; [|done]. injection E as <-. destruct (IH l1 eq_refl) as (a & y & b & -> & -> & Hk). by exists (x :: a), y, b.
Qed.
Lemma absorb_none e l : absorb e l = None -> forall x, x ∈ l -> key x <> key e.
Proof.
  induction l as [|y l IH]; intros E x Hx; [by apply elem_of_nil in Hx|]. cbn in E. destruct (SameDeviceEventSource y e) eqn:Es; [done|].
  destruct (absorb e l); [done|]. apply elem_of_cons in Hx as [->|Hx]; [|by apply IH]. rewrite <- same_source. by rewrite Es.
Qed.

End Stored.
