(* ===== verification/DeviceEventsClaims.v ===== *)
(** * Device events: the promises *)
From S2P Require Import Prelude DeviceEvents DeviceEventsProof.

Section Claims.
Context {Q : Type} `{!FixedQueue DeviceEvent Q, !FixedQueueLaws DeviceEvent Q}.
Implicit Types d : DeviceEventQueue Q.

Definition queued d : list DeviceEvent := fq_list (pending d).
Definition spilled d : list DeviceEvent := occupied (slots d).
Definition full d : Prop := length (queued d) = fq_room (A := DeviceEvent) (Q := Q).

(** What posting an event does: it is merged into a queued event or appended to the queue; it is
    merged into a slot or put into a free one; or it is refused. *)
Inductive posted (e : DeviceEvent) d d' : bool -> Prop :=
  | PostMerged a x b : queued d = a ++ x :: b -> key x = key e -> queued d' = a ++ MergeDeviceEvent x e DeviceEventFlag_None :: b ->
      spilled d' = spilled d -> posted e d d' true
  | PostAppended : (forall x, x ∈ queued d -> key x <> key e) -> queued d' = queued d ++ [e] -> spilled d' = spilled d -> posted e d d' true
  | PostSpillMerged x l : full d -> (forall x, x ∈ queued d -> key x <> key e) -> queued d' = queued d -> spilled d ≡ₚ x :: l -> key x = key e ->
      spilled d' ≡ₚ MergeDeviceEvent x e DeviceEventFlag_Overflow :: l -> posted e d d' true
  | PostSpilled : full d -> (forall x, x ∈ stored d -> key x <> key e) -> queued d' = queued d ->
      spilled d' ≡ₚ add_flags DeviceEventFlag_Overflow e :: spilled d -> posted e d d' true
  | PostRefused : full d -> length (spilled d) = OverflowCapacity -> (forall x, x ∈ stored d -> key x <> key e) ->
      queued d' = map (add_flags DeviceEventFlag_Overflow) (queued d) -> spilled d' = map (add_flags DeviceEventFlag_Overflow) (spilled d) -> posted e d d' false.

Lemma spilled_elem d x : shaped d -> x ∈ spilled d -> exists i, (i < OverflowCapacity)%nat /\ overflow_used d !!! i = true /\ overflow d !!! i = x.
Proof.
  intros Hs Hx. unfold spilled, occupied in Hx. apply list_elem_of_omap in Hx as (o & Ho & E). cbn in E. subst o. apply list_elem_of_lookup in Ho as [i Hi].
  assert (i < OverflowCapacity)%nat as Hl.
  { apply lookup_lt_Some in Hi. unfold slots in Hi. destruct Hs as [H1 H2]. rewrite length_zip_with in Hi. lia. }
  exists i. rewrite slots_at in Hi by done. destruct (overflow_used d !!! i); [|done]. by injection Hi.
Qed.

Lemma spilled_free d i : shaped d -> (i < OverflowCapacity)%nat -> overflow_used d !!! i = false ->
  forall e, spilled (set_slot i e true d) ≡ₚ e :: spilled d.
Proof.
  intros Hs Hi Hu e. pose proof (slots_at d i Hs Hi) as E. rewrite Hu in E. destruct (occupied_cut _ i _ E) as (l & H1 & H2).
  unfold spilled. rewrite slots_set, (H2 (Some e)), H1. done.
Qed.
Lemma spilled_used d i : shaped d -> (i < OverflowCapacity)%nat -> overflow_used d !!! i = true -> exists l,
  spilled d ≡ₚ (overflow d !!! i) :: l /\ (forall e, spilled (set_slot i e true d) ≡ₚ e :: l) /\ (forall e, spilled (set_slot i e false d) ≡ₚ l).
Proof.
  intros Hs Hi Hu. pose proof (slots_at d i Hs Hi) as E. rewrite Hu in E. destruct (occupied_cut _ i _ E) as (l & H1 & H2).
  exists l. unfold spilled. split; [exact H1|]. split; intros e; rewrite slots_set; [exact (H2 (Some e))|exact (H2 None)].
Qed.

(** All slots are used: as many events as slots. *)
Lemma spilled_all d : shaped d -> (forall i, (0 <= i < OverflowCapacity)%nat -> overflow_used d !!! i = true) -> spilled d = overflow d.
Proof.
  intros [H1 H2] Hu. unfold spilled, slots. assert (overflow_used d = replicate (length (overflow d)) true) as ->.
  { apply list_eq_same_length with OverflowCapacity; [by rewrite length_replicate|done|]. intros i x y Hi Hx Hy.
    apply lookup_replicate in Hy as [-> _]. rewrite <- (Hu i) by lia. by apply list_lookup_total_correct in Hx. }
  clear. unfold occupied. induction (overflow d) as [|x l IH]; [done|]. cbn. f_equal. exact IH.
Qed.

Lemma mark_slots_spilled d : spilled (mark_slots d) = map (add_flags DeviceEventFlag_Overflow) (spilled d).
Proof.
  unfold spilled, slots, mark_slots. cbn. revert d. intros [p l u]. cbn. revert u. unfold occupied. induction l as [|x l IH]; intros [|[] u]; cbn; [done..| |]; [f_equal|]; apply IH.
Qed.
Lemma mark_slots_shaped d : shaped d -> shaped (mark_slots d).
Proof. intros [H1 H2]. split; cbn; [rewrite length_zip_with; lia|done]. Qed.

(** The overflow slots, when the queue is full of other sources. *)
Lemma queue_overflow_posts e d : shaped d -> full d -> (forall x, x ∈ queued d -> key x <> key e) ->
  posted e d (queue_overflow e d).2 (queue_overflow e d).1 /\ shaped (queue_overflow e d).2.
Proof.
  intros Hs Hf Hn. unfold queue_overflow. destruct (first_slot _ 0 OverflowCapacity) as [i|] eqn:E1.
  { apply first_slot_some in E1 as [Hi Hu]. apply andb_true_iff in Hu as [Hu Hk]. apply same_source in Hk. destruct (spilled_used d i Hs) as (l & H1 & H2 & _); [lia|done|].
    split; [|by apply shaped_set]. apply (PostSpillMerged e d _ (overflow d !!! i) l); [done|done|done|exact H1|exact Hk|apply H2]. }
  assert (forall x, x ∈ stored d -> key x <> key e) as Hno.
  { intros x [Hx|Hx]%elem_of_app; [by apply Hn|]. apply spilled_elem in Hx as (i & Hi & Hu & <-); [|done].
    pose proof (first_slot_none _ _ _ E1 i ltac:(lia)) as Hb. cbn beta in Hb. rewrite Hu in Hb. cbn [andb] in Hb. rewrite <- same_source. by rewrite Hb. }
  destruct (first_slot (fun i => negb (overflow_used d !!! i)) 0 OverflowCapacity) as [i|] eqn:E2.
  { apply first_slot_some in E2 as [Hi Hu]. apply negb_true_iff in Hu. split; [|by apply shaped_set]. apply PostSpilled; [done|done|done|]. apply spilled_free; [done|lia|done]. }
  cbn [fst snd]. split; [|apply mark_slots_shaped, shaped_pending, Hs]. apply PostRefused; [done| |done| |].
  - rewrite spilled_all; [apply Hs|done|]. intros i Hi. apply (first_slot_none _ _ _ E2) in Hi. by apply negb_false_iff in Hi.
  - unfold queued. cbn [pending mark_slots set_pending]. by rewrite fq_count_list, (mark_pending_spec (fq_list (pending d)) []) by (by rewrite app_nil_r).
  - by rewrite mark_slots_spilled.
Qed.

Lemma QueueDeviceEvent_posts e d : shaped d -> posted e d (QueueDeviceEvent e d).2 (QueueDeviceEvent e d).1 /\ shaped (QueueDeviceEvent e d).2.
Proof.
  intros Hs. unfold QueueDeviceEvent. rewrite fq_count_list. destruct (coalesce_spec e (fq_list (pending d)) [] (pending d)) as (p & -> & Ep); [by rewrite app_nil_r|].
  cbn [app] in Ep. destruct (absorb e (fq_list (pending d))) as [l|] eqn:Ea.
  { destruct (absorb_split e _ l Ea) as (a & x & b & H1 & H2 & H3). split; [|done]. eapply PostMerged; [exact H1|exact H3| |done]. cbn. unfold queued. cbn. by rewrite Ep, H2. }
  cbn in Ep. pose proof (absorb_none e _ Ea) as Hn. pose proof (fq_bound (A := DeviceEvent) (pending d)) as Hb.
  destruct (decide (length (fq_list (pending d)) < fq_room (A := DeviceEvent) (Q := Q))%nat) as [Hr|Hr].
  - destruct (fq_enqueue_room e p) as [H1 H2]; [by rewrite Ep|]. destruct (fq_enqueue e p) as [ok p']. cbn in H1, H2. subst ok. split; [|done].
    apply PostAppended; [done| |done]. unfold queued. cbn. by rewrite H2, Ep.
  - destruct (fq_enqueue_full e p) as [H1 H2]; [rewrite Ep; lia|]. destruct (fq_enqueue e p) as [ok p']. cbn in H1, H2. subst ok.
    assert (queued (set_pending p' d) = queued d) as Hq by (unfold queued; cbn; by rewrite H2, Ep).
    destruct (queue_overflow_posts e (set_pending p' d)) as [Hp Hsh]; [done|unfold full; rewrite Hq; unfold queued; lia|by rewrite Hq|]. split; [|done].
    assert (stored (set_pending p' d) = stored d) as Hst by (unfold stored; fold (queued (set_pending p' d)); by rewrite Hq).
    inversion Hp; [eapply PostMerged|eapply PostAppended|eapply PostSpillMerged|eapply PostSpilled|eapply PostRefused];
      unfold full in *; rewrite ?Hq, ?Hst in *; eauto.
Qed.

(** ** Taking and cancelling events *)
Lemma spilled_none d : shaped d -> (forall i, (0 <= i < OverflowCapacity)%nat -> overflow_used d !!! i = false) -> spilled d = [].
Proof.
  intros Hs Hu. destruct (spilled d) as [|x l] eqn:E; [done|]. destruct (spilled_elem d x Hs) as (i & Hi & Hx & _); [rewrite E; left|]. rewrite Hu in Hx by lia. done.
Qed.

Lemma DequeueDeviceEvent_takes d : shaped d -> shaped (DequeueDeviceEvent d).2 /\
  match DequeueDeviceEvent d with
  | (Some e, d') => stored d ≡ₚ e :: stored d' /\ (queued d = e :: queued d' /\ spilled d' = spilled d \/ queued d = [] /\ queued d' = [] /\ spilled d ≡ₚ e :: spilled d')
  | (None, d') => stored d = [] /\ queued d' = queued d /\ spilled d' = spilled d
  end.
Proof.
  intros Hs. unfold DequeueDeviceEvent. destruct (fq_dequeue_list (A := DeviceEvent) (pending d)) as [H1 H2]. destruct (fq_dequeue (pending d)) as [[e|] p]; cbn [fst snd] in H1, H2.
  - split; [done|]. assert (queued d = e :: fq_list p) as Eq by (unfold queued; destruct (fq_list (pending d)); cbn in *; [done|congruence]).
    split; [|by left]. unfold stored. fold (queued d). by rewrite Eq.
  - assert (fq_list (pending d) = [] /\ fq_list p = []) as [Eq Ep] by (destruct (fq_list (pending d)); cbn in *; done).
    destruct (first_slot _ 0 OverflowCapacity) as [i|] eqn:E.
    + apply first_slot_some in E as [Hi Hu]. destruct (spilled_used (set_pending p d) i Hs) as (l & A & _ & B); [lia|done|]. split; [by apply shaped_set|].
      assert (spilled d ≡ₚ (overflow d !!! i) :: spilled (set_slot i no_event false (set_pending p d))) as C by (rewrite B; exact A).
      unfold stored. fold (spilled d). cbn [pending set_slot set_pending]. rewrite Eq, Ep. split; [exact C|]. right. done.
    + split; [done|]. assert (spilled (set_pending p d) = []) as En by (apply spilled_none; [done|]; intros i Hi; by apply (first_slot_none _ _ _ E)).
      unfold stored. rewrite Eq. unfold queued. cbn [pending set_pending]. by rewrite Eq, Ep.
Qed.

Definition keep (h g : Z) (o : option DeviceEvent) : option DeviceEvent := e ← o; if cancelled h g e then None else Some e.
Lemma cancel_slots_spec h g n : forall i d, shaped d -> (i + n <= OverflowCapacity)%nat ->
  shaped (cancel_slots n i h g d) /\ pending (cancel_slots n i h g d) = pending d /\
  forall j, slots (cancel_slots n i h g d) !! j = if decide (i <= j < i + n)%nat then keep h g <$> slots d !! j else slots d !! j.
Proof.
  induction n as [|n IH]; intros i d Hs Hi; [split_and!; [done|done|]; intros j; rewrite decide_False by lia; done|]. cbn [cancel_slots].
  set (d1 := if _ && _ then _ else d).
  assert (shaped d1 /\ pending d1 = pending d /\ forall j, slots d1 !! j = if decide (j = i) then keep h g <$> slots d !! j else slots d !! j) as (A & B & C).
  { unfold d1. pose proof (slots_at d i Hs ltac:(lia)) as E. destruct (overflow_used d !!! i) eqn:Eu; cbn [andb].
    - destruct (cancelled h g (overflow d !!! i)) eqn:Ec.
      + split; [by apply shaped_set|]. split; [done|]. intros j. rewrite slots_set. destruct (decide (j = i)) as [->|]; [|by rewrite list_lookup_insert_ne].
        rewrite E. cbn. rewrite Ec. apply list_lookup_insert_eq. by apply lookup_lt_Some in E.
      + split; [done|]. split; [done|]. intros j. destruct (decide (j = i)) as [->|]; [|done]. rewrite E. cbn. by rewrite Ec.
    - split; [done|]. split; [done|]. intros j. destruct (decide (j = i)) as [->|]; [|done]. by rewrite E. }
  destruct (IH (S i) d1 A ltac:(lia)) as (A' & B' & C'). split; [done|]. split; [congruence|]. intros j. rewrite C', C. repeat case_decide; try lia; done.
Qed.

Lemma device_event_cancel_removes h g d : shaped d -> shaped (device_event_cancel h g d) /\
  queued (device_event_cancel h g d) = List.filter (fun e => negb (cancelled h g e)) (queued d) /\
  spilled (device_event_cancel h g d) = List.filter (fun e => negb (cancelled h g e)) (spilled d).
Proof.
  intros Hs. unfold device_event_cancel. set (d1 := set_pending _ d). destruct (cancel_slots_spec h g OverflowCapacity 0 d1 Hs ltac:(lia)) as (A & B & C).
  split; [done|]. split.
  - unfold queued. rewrite B. unfold d1. cbn [pending set_pending]. rewrite fq_count_list. rewrite (cancel_pending_spec h g (fq_list (pending d)) []) by (by rewrite app_nil_r). done.
  - assert (slots (cancel_slots OverflowCapacity 0 h g d1) = keep h g <$> slots d) as E.
    { apply list_eq. intros j. rewrite C, list_lookup_fmap. destruct (decide (0 <= j < 0 + OverflowCapacity)%nat) as [Hj|Hj]; [done|].
      change (slots d1) with (slots d). rewrite (lookup_ge_None_2 (slots d) j); [done|]. unfold slots. destruct Hs as [H1 H2]. rewrite length_zip_with. lia. }
    unfold spilled. rewrite E. unfold occupied. clear. induction (slots d) as [|[e|] l IH]; cbn; [done| |done]. destruct (cancelled h g e); cbn; [done|f_equal; done].
Qed.

(** ** Well-formed queues *)

(** The fields have the widths of the packed structure. *)
Definition wide (e : DeviceEvent) : Prop := 0 <= count e < 2 ^ 32 /\ 0 <= flags e < 2 ^ 16.

Record Typed d : Prop := {
  ty_shaped : shaped d;
  ty_wide : Forall wide (stored d);
  ty_queued : NoDup (key <$> queued d);
  ty_spilled : NoDup (key <$> spilled d);
}.

Lemma lor_width a b n : 0 <= n -> 0 <= a < 2 ^ n -> 0 <= b < 2 ^ n -> 0 <= Z.lor a b < 2 ^ n.
Proof.
  intros Hn Ha Hb. assert (0 <= Z.lor a b) as H0 by (apply Z.lor_nonneg; lia). split; [done|]. apply Z.bounded_iff_bits_nonneg; [lia|done|]. intros l Hl.
  rewrite Z.lor_spec. by rewrite (proj1 (Z.bounded_iff_bits_nonneg n a ltac:(lia) ltac:(lia))), (proj1 (Z.bounded_iff_bits_nonneg n b ltac:(lia) ltac:(lia))) by lia.
Qed.

Lemma add_flags_wide f e : 0 <= f < 2 ^ 16 -> wide e -> wide (add_flags f e).
Proof. intros Hf [Hc Hx]. split; [exact Hc|]. cbn [flags add_flags]. by apply lor_width. Qed.
Lemma merge_wide x e f : 0 <= f < 2 ^ 16 -> wide x -> wide e -> wide (MergeDeviceEvent x e f).
Proof.
  intros Hf [Hc Hx] [Hd Hy]. unfold MergeDeviceEvent. destruct (0xFFFFFFFF <? count x + count e) eqn:Ec; [apply add_flags_wide; [done|]|]; split; cbn [count flags]; [lia| |lia|];
    repeat (apply lor_width; [lia| |]); done.
Qed.

Lemma posted_typed e d d' ok : Typed d -> wide e -> shaped d' -> posted e d d' ok -> Typed d'.
Proof.
  intros [_ Hw Hq Hp] He Hs H. assert (forall l1 l2, Forall wide (l1 ++ l2) <-> Forall wide l1 /\ Forall wide l2) as Happ by (intros; apply Forall_app).
  unfold stored in Hw. fold (queued d) (spilled d) in Hw. apply Happ in Hw as [Hw1 Hw2].
  assert (forall l, Forall wide (queued d') -> Forall wide (spilled d') -> l = stored d' -> Forall wide l) as Hst by (intros l ? ? ->; apply Happ; done).
  destruct H as [a x b E1 Ek E2 E3|Hn E1 E2|x l Hf Hn E1 E2 Ek E3|Hf Hn E1 E2|Hf Hl Hn E1 E2].
  - rewrite E1 in Hw1, Hq. rewrite Forall_app, Forall_cons in Hw1. destruct Hw1 as (Wa & Wx & Wb). constructor; [done| | |by rewrite E3].
    + eapply Hst; [rewrite E2|by rewrite E3|done]. rewrite Forall_app, Forall_cons. split_and!; [done|by apply merge_wide|done].
    + rewrite E2. rewrite fmap_app, fmap_cons in *. by rewrite merge_key.
  - constructor; [done| | |by rewrite E2].
    + eapply Hst; [rewrite E1|by rewrite E2|done]. rewrite Forall_app, Forall_singleton. done.
    + rewrite E1, fmap_app. apply NoDup_app. split; [done|]. split; [|apply NoDup_singleton]. intros k Hk1 Hk2. apply list_elem_of_singleton in Hk2 as ->.
      apply list_elem_of_fmap in Hk1 as (x & Hk & Hx). by apply (Hn x).
  - rewrite E2 in Hw2, Hp. apply Forall_cons in Hw2 as [Wx Wl]. constructor; [done| |by rewrite E1|].
    + eapply Hst; [by rewrite E1| |done]. rewrite E3. apply Forall_cons. split; [by apply merge_wide|done].
    + rewrite E3. cbn in *. by rewrite merge_key.
  - constructor; [done| |by rewrite E1|].
    + eapply Hst; [by rewrite E1| |done]. rewrite E2. apply Forall_cons. split; [by apply add_flags_wide|done].
    + rewrite E2. cbn. apply NoDup_cons. split; [|done]. intros Hk. apply list_elem_of_fmap in Hk as (x & Hk & Hx). apply (Hn x); [|done]. apply elem_of_app. by right.
  - assert (forall l, Forall wide l -> Forall wide (map (add_flags DeviceEventFlag_Overflow) l)) as Hm.
    { intros l Hl'. apply Forall_fmap. eapply Forall_impl; [exact Hl'|]. intros x Hx. by apply add_flags_wide. }
    assert (forall l, key <$> map (add_flags DeviceEventFlag_Overflow) l = key <$> l) as Hk by (induction l as [|x l IH]; cbn; [done|by rewrite IH]).
    constructor; [done| |by rewrite E1, Hk|by rewrite E2, Hk]. eapply Hst; [rewrite E1; auto|rewrite E2; auto|done].
Qed.

(** Adding an event to the account of its source. *)
Definition booked (e : DeviceEvent) (l l' : list DeviceEvent) : Prop :=
  (forall s, s <> key e -> tally s l' = tally s l) /\
  exists x, x ∈ l' /\ key x = key e /\ sequence x = sequence e /\
    (tally (key e) l' = tally (key e) l + count e \/ flagged x /\ tally (key e) l' <= tally (key e) l + count e).

Lemma tally_cons s x l : tally s (x :: l) = (if decide (key x = s) then count x else 0) + tally s l.
Proof. done. Qed.

Lemma booked_merge e x f l1 l2 l : 0 <= count x -> 0 <= count e -> key x = key e -> l1 ≡ₚ x :: l -> l2 ≡ₚ MergeDeviceEvent x e f :: l -> booked e l1 l2.
Proof.
  intros Hx He Hk E1 E2. split.
  - intros s Hs. rewrite E1, E2, !tally_cons, merge_key, !decide_False by congruence. done.
  - exists (MergeDeviceEvent x e f). rewrite E1, E2, !tally_cons, merge_key, !decide_True by done. split; [left|]. split; [done|]. split; [apply merge_sequence|].
    destruct (merge_count x e f Hx He) as [H|[H H']]; [left; lia|right; split; [done|lia]].
Qed.
Lemma booked_add e f l1 l2 : l2 ≡ₚ add_flags f e :: l1 -> booked e l1 l2.
Proof.
  intros E. split.
  - intros s Hs. rewrite E, tally_cons, add_flags_key, decide_False by congruence. done.
  - exists (add_flags f e). rewrite E, tally_cons, add_flags_key, decide_True by done. split; [left|]. split; [done|]. split; [done|]. left. cbn. lia.
Qed.

Lemma add_flags_none e : add_flags 0 e = e.
Proof. destruct e. unfold add_flags. cbn. by rewrite Z.lor_0_r. Qed.

Lemma posted_booked e d d' : Typed d -> wide e -> posted e d d' true -> booked e (stored d) (stored d').
Proof.
  intros T He H. assert (forall x, x ∈ stored d -> 0 <= count x) as Hc by (intros x Hx; pose proof (ty_wide _ T) as W; rewrite Forall_forall in W; destruct (W x Hx); lia).
  assert (0 <= count e) as Hce by (destruct He; lia).
  unfold stored in *. fold (queued d) (spilled d) in *. fold (queued d') (spilled d'). inversion H as [a x b E1 Ek E2 E3|Hn E1 E2|x l Hf Hn E1 E2 Ek E3|Hf Hn E1 E2|]; subst.
  - rewrite E1 in *. rewrite E2, E3. apply (booked_merge e x DeviceEventFlag_None _ _ ((a ++ b) ++ spilled d)); [|done|done| |].
    + apply Hc. rewrite !elem_of_app. left. right. left.
    + by rewrite <- (Permutation_middle a b).
    + by rewrite <- (Permutation_middle a b).
  - rewrite E1, E2. apply (booked_add e 0). rewrite add_flags_none, <- app_assoc. cbn [app]. by rewrite Permutation_middle.
  - rewrite E1. apply (booked_merge e x DeviceEventFlag_Overflow _ _ (queued d ++ l)); [|done|done| |].
    + apply Hc. rewrite elem_of_app. right. rewrite E2. left.
    + rewrite E2. by rewrite Permutation_middle.
    + rewrite E3. by rewrite Permutation_middle.
  - rewrite E1. apply (booked_add e DeviceEventFlag_Overflow). by rewrite E2, Permutation_middle.
Qed.

Lemma tally_flags f s l : tally s (map (add_flags f) l) = tally s l.
Proof. induction l as [|x l IH]; [done|]. cbn [map]. rewrite !tally_cons, IH. done. Qed.

Lemma refused_flags e d d' : posted e d d' false -> stored d' = map (add_flags DeviceEventFlag_Overflow) (stored d).
Proof. intros H. inversion H as [| | | |Hf Hl Hn E1 E2]. unfold stored. fold (queued d) (spilled d) (queued d') (spilled d'). by rewrite E1, E2, map_app. Qed.

(** C29: Posting an event.  An accepted event is accounted for: its source has a stored event with the
    new sequence number, whose counts grew by the event's count, or whose overflow flag tells the
    consumer to rescan when the counter is at its limit; other sources keep their accounts.  An event is
    refused only if the queue is full, every slot is taken and its source is not stored; then no
    account changes and every stored event is marked as incomplete. *)
Theorem QueueDeviceEvent_correct e d ok d' : Typed d -> wide e -> QueueDeviceEvent e d = (ok, d') ->
  (ok = true -> booked e (stored d) (stored d')) /\
  (ok = false -> full d /\ length (spilled d) = OverflowCapacity /\ (forall x, x ∈ stored d -> key x <> key e) /\
     (forall s, tally s (stored d') = tally s (stored d)) /\ Forall flagged (stored d')).
Proof.
  intros T He E. destruct (QueueDeviceEvent_posts e d (ty_shaped _ T)) as [Hp _]. rewrite E in Hp. cbn [fst snd] in Hp. split; intros ->; [by apply posted_booked|].
  pose proof (refused_flags e d d' Hp) as Es. inversion Hp as [| | | |Hf Hl Hn E1 E2]. split; [done|]. split; [done|]. split; [done|]. rewrite Es. split; [intros s; apply tally_flags|].
  apply Forall_fmap, Forall_forall. intros x _. apply flagged_add.
Qed.

Lemma operations_typed d : Typed d ->
  (forall e, wide e -> Typed (QueueDeviceEvent e d).2) /\ Typed (DequeueDeviceEvent d).2 /\ (forall h g, Typed (device_event_cancel h g d)).
Proof.
  intros T. destruct T as [Hs Hw Hq Hp] eqn:ET. clear ET. split; [|split].
  - intros e He. destruct (QueueDeviceEvent_posts e d Hs) as [H1 H2]. by eapply posted_typed.
  - destruct (DequeueDeviceEvent_takes d Hs) as [Hs' H]. destruct (DequeueDeviceEvent d) as [[e|] d'].
    + destruct H as [E H]. rewrite E in Hw. apply Forall_cons in Hw as [_ Hw]. destruct H as [[E1 E2]|(E1 & E2 & E3)]; (constructor; [done|done| |]).
      * rewrite E1 in Hq. cbn in Hq. by apply NoDup_cons in Hq as [_ Hq].
      * cbn [snd]. by rewrite E2.
      * cbn [snd]. rewrite E2. constructor.
      * rewrite E3 in Hp. cbn in Hp. by apply NoDup_cons in Hp as [_ Hp].
    + destruct H as (_ & E1 & E2). constructor; cbn [snd]; [done|unfold stored; fold (queued d') (spilled d')|..]; by rewrite ?E1, ?E2.
  - intros h g. destruct (device_event_cancel_removes h g d Hs) as (Hs' & E1 & E2). unfold stored in Hw. fold (queued d) (spilled d) in Hw. apply Forall_app in Hw as [W1 W2].
    assert (forall l, NoDup (key <$> l) -> NoDup (key <$> List.filter (fun e => negb (cancelled h g e)) l)) as Hnd.
    { induction l as [|x l IH]; cbn; [done|]. intros [Hx Hl]%NoDup_cons. destruct (negb _); [|by apply IH]. cbn. apply NoDup_cons. split; [|by apply IH].
      intros Hk. apply Hx. apply list_elem_of_fmap in Hk as (y & Ey & Hy). rewrite Ey. apply list_elem_of_fmap_2. apply list_elem_of_In, filter_In in Hy as [Hy _]. by apply list_elem_of_In. }
    assert (forall l, Forall wide l -> Forall wide (List.filter (fun e => negb (cancelled h g e)) l)) as Hf.
    { intros l Hl. rewrite Forall_forall in *. intros x Hx. apply Hl. apply list_elem_of_In, filter_In in Hx as [Hx _]. by apply list_elem_of_In. }
    generalize dependent (device_event_cancel h g d). intros d2 Hs2 E1 E2. constructor; [done| |rewrite E1; auto|rewrite E2; auto].
    unfold stored. fold (queued d2) (spilled d2). rewrite E1, E2. apply Forall_app. auto.
Qed.

(** ** Histories *)
Inductive EventOp := Post (e : DeviceEvent) | Take | Cancel (handle gen : Z).

(** The queue, the events that were accepted, and those that left the queue: delivered or cancelled. *)
Record Ledger := MkLedger { events : DeviceEventQueue Q; accepted : list DeviceEvent; handled : list DeviceEvent }.

Definition event_step (l : Ledger) (op : EventOp) : Ledger :=
  match op with
  | Post e => let '(ok, d) := QueueDeviceEvent e (events l) in MkLedger d (if ok then e :: accepted l else accepted l) (handled l)
  | Take => let '(o, d) := DequeueDeviceEvent (events l) in MkLedger d (accepted l) (option_list o ++ handled l)
  | Cancel h g => MkLedger (device_event_cancel h g (events l)) (accepted l) (List.filter (cancelled h g) (stored (events l)) ++ handled l)
  end.

Definition op_wide (op : EventOp) : Prop := match op with Post e => wide e | _ => True end.

Definition balanced (l : Ledger) : Prop := forall s,
  let all := handled l ++ stored (events l) in tally s all <= tally s (accepted l) /\ (tally s all = tally s (accepted l) \/ incomplete s all).

#[local] Instance incomplete_Permutation s : Proper ((≡ₚ) ==> iff) (incomplete s).
Proof. intros l1 l2 E. split; intros (x & Hx & H); exists x; [by rewrite <- E|by rewrite E]. Qed.

(** Marks are never taken away. *)
Lemma posted_marks e d d' ok x : posted e d d' ok -> x ∈ stored d -> flagged x -> exists y, y ∈ stored d' /\ key y = key x /\ flagged y.
Proof.
  unfold stored. fold (queued d) (spilled d) (queued d') (spilled d'). intros H Hx Hf. inversion H as [a z b E1 Ek E2 E3|Hn E1 E2|z l Hfu Hn E1 E2 Ek E3|Hfu Hn E1 E2|Hfu Hl Hn E1 E2]; subst.
  - rewrite E2, E3. rewrite E1 in Hx. rewrite !elem_of_app, elem_of_cons in Hx. destruct (decide (x = z)) as [->|Hne].
    + exists (MergeDeviceEvent z e DeviceEventFlag_None). rewrite !elem_of_app, elem_of_cons. split; [tauto|]. split; [apply merge_key|by apply merge_flagged].
    + exists x. rewrite !elem_of_app, elem_of_cons. tauto.
  - exists x. rewrite E1, E2. rewrite !elem_of_app in *. tauto.
  - rewrite E2 in Hx. rewrite elem_of_app, elem_of_cons in Hx. destruct (decide (x = z)) as [->|Hne].
    + exists (MergeDeviceEvent z e DeviceEventFlag_Overflow). rewrite E1, E3, elem_of_app, elem_of_cons. split; [tauto|]. split; [apply merge_key|by apply merge_flagged].
    + exists x. rewrite E1, E3, elem_of_app, elem_of_cons. tauto.
  - exists x. rewrite E1, E2, elem_of_app, elem_of_cons. apply elem_of_app in Hx. tauto.
  - exists (add_flags DeviceEventFlag_Overflow x). rewrite E1, E2, <- map_app. split; [by apply list_elem_of_fmap_2|]. split; [done|apply flagged_add].
Qed.

Lemma event_step_balanced l op : Typed (events l) -> op_wide op -> balanced l -> balanced (event_step l op).
Proof.
  intros T Hop B s. specialize (B s). cbv zeta in *. set (all := handled l ++ stored (events l)) in B. destruct op as [e| |h g]; unfold event_step.
  - destruct (QueueDeviceEvent_posts e (events l) (ty_shaped _ T)) as [Hp _]. destruct (QueueDeviceEvent e (events l)) as [ok d']. cbn [fst snd events accepted handled] in *.
    assert (incomplete s all -> incomplete s (handled l ++ stored d')) as Hinc.
    { intros (x & Hx & Hk & Hf). apply elem_of_app in Hx as [Hx|Hx]; [exists x; rewrite elem_of_app; tauto|].
      destruct (posted_marks e _ _ _ x Hp Hx Hf) as (y & Hy & Ek & Hfy). exists y. rewrite elem_of_app. split; [tauto|split; [congruence|done]]. }
    unfold all in *. rewrite tally_app in *. destruct ok.
    + destruct (posted_booked e _ _ T Hop Hp) as [Ho (x & Hx & Ek & _ & Hs)]. rewrite tally_cons. destruct (decide (key e = s)) as [<-|Hne]; [|rewrite Ho by congruence; rewrite Z.add_0_l; tauto].
      destruct Hs as [Hs|[Hfx Hs]]; [rewrite Hs; split; [lia|]; destruct B as [_ [B|B]]; [left; lia|right; by apply Hinc]|].
      split; [lia|]. right. exists x. rewrite elem_of_app. tauto.
    + rewrite (refused_flags e _ _ Hp) in *. rewrite tally_flags. tauto.
  - destruct (DequeueDeviceEvent_takes (events l) (ty_shaped _ T)) as [_ H]. destruct (DequeueDeviceEvent (events l)) as [[e|] d']; cbn [events accepted handled option_list app].
    + destruct H as [E _]. assert (all ≡ₚ e :: handled l ++ stored d') as Ea by (unfold all; rewrite E; by rewrite Permutation_middle). rewrite <- Ea. exact B.
    + destruct H as (_ & E1 & E2). assert (stored d' = stored (events l)) as -> by (unfold stored; fold (queued d') (spilled d') (queued (events l)) (spilled (events l)); by rewrite E1, E2). done.
  - destruct (device_event_cancel_removes h g (events l) (ty_shaped _ T)) as (_ & E1 & E2). cbn [events accepted handled].
    assert (forall k : list DeviceEvent, List.filter (cancelled h g) k ++ List.filter (fun e => negb (cancelled h g e)) k ≡ₚ k) as Hpart.
    { induction k as [|x k IH]; [done|]. cbn. destruct (cancelled h g x); cbn; [by rewrite IH|]. rewrite <- Permutation_middle. by rewrite IH. }
    generalize dependent (device_event_cancel h g (events l)). intros d2 E1 E2.
    assert (stored d2 = List.filter (fun e => negb (cancelled h g e)) (stored (events l))) as E by (unfold stored; fold (queued d2) (spilled d2); by rewrite E1, E2, <- List.filter_app).
    assert ((List.filter (cancelled h g) (stored (events l)) ++ handled l) ++ stored d2 ≡ₚ all) as Ea.
    { rewrite E, <- (Permutation_app_comm (handled l)), <- app_assoc, Hpart. done. }
    rewrite Ea. exact B.
Qed.

(** C30: The queue of a thread is well formed after every operation: the arrays keep their sizes, the
    fields of every stored event keep the widths of the structure (counts saturate, flags stay within
    16 bits), and no source is stored twice in the queue or twice in the slots. *)
Theorem device_events_typed d : Typed d ->
  (forall e, wide e -> Typed (QueueDeviceEvent e d).2) /\ Typed (DequeueDeviceEvent d).2 /\ (forall h g, Typed (device_event_cancel h g d)).
Proof. apply operations_typed. Qed.

(** C28: No device event is lost silently.  After any history of posts, deliveries and cancellations on
    a queue that was empty at first, the events that were accepted of a source are exactly accounted
    for by the counts of the events that were delivered, cancelled or are still stored; or one of
    these carries the overflow flag, which tells the driver to rescan the device. *)
Theorem device_events_conserved ops d : Typed d -> stored d = [] -> Forall op_wide ops ->
  let l := foldl event_step (MkLedger d [] []) ops in Typed (events l) /\ balanced l.
Proof.
  intros T Hd Hops. cbv zeta. assert (balanced (MkLedger d [] [])) as B by (intros s; cbn; rewrite Hd; cbn; split; [lia|by left]).
  assert (Typed (events (MkLedger d [] []))) as T' by exact T. clear T Hd. revert T' B. generalize (MkLedger d [] []). induction Hops as [|op ops Hop Hops IH]; intros l T B; [done|]. cbn [foldl]. apply IH.
  - destruct (operations_typed (events l) T) as (H1 & H2 & H3). destruct op as [e| |h g]; unfold event_step.
    + specialize (H1 e Hop). destruct (QueueDeviceEvent e (events l)) as [ok d1]. exact H1.
    + destruct (DequeueDeviceEvent (events l)) as [o d1]. exact H2.
    + cbn [events]. exact (H3 h g).
  - by apply event_step_balanced.
Qed.

End Claims.
