(* ===== verification/DeviceEventsWitness.v ===== *)
(** * Device events: a queue of eight places *)
From S2P Require Import Prelude DeviceEvents DeviceEventsProof DeviceEventsClaims.

Module EventWitness.

#[local] Instance Eight : FixedQueue DeviceEvent (list DeviceEvent) := {
  fq_count q := length (take Capacity q);
  fq_enqueue x q := if (length (take Capacity q) <? Capacity)%nat then (true, take Capacity q ++ [x]) else (false, q);
  fq_dequeue q := (head (take Capacity q), tail (take Capacity q));
}.
#[local] Program Instance EightLaws : FixedQueueLaws DeviceEvent (list DeviceEvent) := {
  fq_list q := take Capacity q;
  fq_room := Capacity;
}.
Next Obligation. intros q. rewrite length_take. lia. Qed.
Next Obligation. done. Qed.
Next Obligation.
  intros x q Hl. cbn [fq_enqueue Eight]. rewrite (proj2 (Nat.ltb_lt _ _) Hl). split; [done|]. cbn [snd]. apply take_ge. rewrite length_app. cbn [length]. lia.
Qed.
Next Obligation. intros x q Hl. cbn [fq_enqueue Eight]. by rewrite (proj2 (Nat.ltb_ge _ _) Hl). Qed.
Next Obligation.
  intros q. cbn [fq_dequeue Eight fst snd]. split; [done|]. apply take_ge. pose proof (length_take q Capacity) as Hl. destruct (take Capacity q) as [|x l]; cbn [tail length] in *; lia.
Qed.

Definition none : DeviceEventQueue (list DeviceEvent) := MkEvents [] (replicate OverflowCapacity no_event) (replicate OverflowCapacity false).
(** An interrupt of a source of device 7. *)
Definition irq (src n seq : Z) : DeviceEvent := MkEvent 1 1 DeviceEventFlag_NeedsAck 7 src n 3 seq.

Lemma none_typed : Typed none.
Proof.
  constructor; [by split|..]; assert (queued none = [] /\ spilled none = []) as [E1 E2] by (split; vm_compute; reflexivity).
  - unfold stored. fold (queued none) (spilled none). rewrite E1, E2. constructor.
  - rewrite E1. constructor.
  - rewrite E2. constructor.
Qed.
Lemma irq_wide src n seq : 0 <= n < 2 ^ 32 -> wide (irq src n seq).
Proof. intros Hn. split; [exact Hn|]. cbn. unfold DeviceEventFlag_NeedsAck. lia. Qed.

Definition one : DeviceEventQueue (list DeviceEvent) := (QueueDeviceEvent (irq 0 1 1) none).2.
Lemma one_typed : Typed one.
Proof. destruct (operations_typed none none_typed) as [H _]. apply H, irq_wide. lia. Qed.

(** A second interrupt of the same source is merged. *)
Lemma post_witness : booked (irq 0 2 2) (stored one) (stored (QueueDeviceEvent (irq 0 2 2) one).2) /\
  stored (QueueDeviceEvent (irq 0 2 2) one).2 = [MkEvent 1 1 3 7 0 3 3 2].
Proof.
  split; [|vm_compute; reflexivity].
  destruct (QueueDeviceEvent_correct (irq 0 2 2) one true (QueueDeviceEvent (irq 0 2 2) one).2 one_typed) as [H _].
  - apply irq_wide. lia.
  - vm_compute. reflexivity.
  - exact (H eq_refl).
Defined.

Lemma typed_witness : Typed (QueueDeviceEvent (irq 5 1 9) one).2.
Proof. destruct (device_events_typed one one_typed) as [H _]. exact (H (irq 5 1 9) (irq_wide 5 1 9 ltac:(lia))). Defined.

(** Ten sources, so that two of them spill; one of them again; two deliveries; and a cancellation. *)
Definition ops : list EventOp := map (fun i => Post (irq (Z.of_nat i) 1 (Z.of_nat i))) (seq 0 10) ++ [Post (irq 9 4 10); Take; Take; Post (irq 0 1 11); Cancel 7 3].
Lemma conserved_witness : balanced (foldl event_step (MkLedger none [] []) ops) /\ tally (1, 7, 9, 3) (handled (foldl event_step (MkLedger none [] []) ops)) = 5.
Proof.
  split; [|vm_compute; reflexivity]. refine (proj2 (device_events_conserved ops none none_typed _ _)).
  - vm_compute. reflexivity.
  - unfold ops. apply Forall_app. split; [|repeat constructor; cbn; unfold DeviceEventFlag_NeedsAck; lia]. apply Forall_fmap, Forall_forall. intros i _. apply irq_wide. lia.
Defined.

End EventWitness.
