(* ===== verification/Pipe.v ===== *)
(** * Pipes ([mecocoa/filesys.cpp], lines 2283-2343, 3014-3034 and 3360-3646; [mecocoa/fileman.cpp], 704-717)

    A pipe is a ring of bytes with two wait lists, threaded through the threads themselves.  Readers
    and writers work under the spin lock of the channel, put themselves on a wait list, release the
    lock and block; whoever changes the state of the pipe takes the whole wait list and wakes it after
    the lock was released.  A channel lives as long as it has open ends or threads inside an
    operation.  What a thread does under one lock is one step; threads interleave freely. *)
From S2P Require Import Prelude.

(** ** Interfaces *)

(** [QueueLimited], the ring of bytes. *)
Class ByteRing (B : Type) := {
  ring_new : B;
  is_empty : B -> bool;
  is_full : B -> bool;
  ring_inn : B -> Z * B;
  ring_out : list Z -> B -> Z * B;
}.
Class ByteRingLaws (B : Type) `{ByteRing B} := {
  ring_list : B -> list Z;
  ring_room : nat;
  ring_room_pos : (0 < ring_room)%nat;
  ring_new_list : ring_list ring_new = [];
  ring_empty_list : forall b, is_empty b = true <-> ring_list b = [];
  ring_full_list : forall b, is_full b = true <-> (ring_room <= length (ring_list b))%nat;
  ring_inn_nil : forall b, ring_list b = [] -> (ring_inn b).1 = -1 /\ ring_list (ring_inn b).2 = [];
  ring_inn_cons : forall b x l, ring_list b = x :: l -> (ring_inn b).1 = x /\ ring_list (ring_inn b).2 = l;
  ring_out_list : forall data b, let n := Nat.min (length data) (ring_room - length (ring_list b)) in
    (ring_out data b).1 = Z.of_nat n /\ ring_list (ring_out data b).2 = ring_list b ++ take n data;
}.

(** What pipes use of the scheduler: [Block], [Unblock], [state == Pended], [Schedule(true)]. *)
Class PipeThreads (S : Type) := {
  pipe_block : Z -> Z -> S -> S;
  pipe_unblock : Z -> Z -> S -> S;
  pipe_pended : S -> Z -> bool;
  pipe_schedule : Z -> S -> S;
}.

Definition BR_SendPipe : Z := 0x40.
Definition BR_RecvPipe : Z := 0x80.

(** Results: a freed channel was used; a walk along a list did not end. *)
Inductive Outcome (A : Type) := Ok (a : A) | Fault | Hang.
Arguments Ok {A} _.
Arguments Fault {A}.
Arguments Hang {A}.
Definition obind {A C} (x : Outcome A) (f : A -> Outcome C) : Outcome C := match x with Ok a => f a | Fault => Fault | Hang => Hang end.
#[local] Notation "'let!' x ':=' e 'in' f" := (obind e (fun x => f)) (at level 200, x pattern, right associativity).

(** ** Wait lists *)

Record PipeThread := MkPipeThread { pipe_wait_channel : Z; pipe_io_channel : Z; pipe_wait_prev : Z; pipe_wait_next : Z }.
Definition no_links : PipeThread := MkPipeThread 0 0 0 0.
Abbreviation Links := (gmap Z PipeThread).
Definition links_of (ls : Links) (th : Z) : PipeThread := default no_links (ls !! th).
Definition put (th : Z) (f : PipeThread -> PipeThread) (ls : Links) : Links := <[th := f (links_of ls th)]> ls.
Definition w_channel (x : Z) (t : PipeThread) : PipeThread := MkPipeThread x (pipe_io_channel t) (pipe_wait_prev t) (pipe_wait_next t).
Definition w_io (x : Z) (t : PipeThread) : PipeThread := MkPipeThread (pipe_wait_channel t) x (pipe_wait_prev t) (pipe_wait_next t).
Definition w_prev (x : Z) (t : PipeThread) : PipeThread := MkPipeThread (pipe_wait_channel t) (pipe_io_channel t) x (pipe_wait_next t).
Definition w_next (x : Z) (t : PipeThread) : PipeThread := MkPipeThread (pipe_wait_channel t) (pipe_io_channel t) (pipe_wait_prev t) x.

Definition PipeClearWaiter (th : Z) (ls : Links) : Links :=
  if th =? 0 then ls else put th (fun t => w_next 0 (w_prev 0 (w_channel 0 t))) ls.

Definition PipeAddWaiter (head chan th : Z) (ls : Links) : Z * Links :=
  if th =? 0 then (head, ls) else
  let ls := PipeClearWaiter th ls in
  let ls := put th (fun t => w_next head (w_channel chan t)) ls in
  let ls := if truthy head then put head (w_prev th) ls else ls in
  (th, ls).

(** The walk of [PipeRemoveWaiter]; [None] is no end within the fuel. *)
Fixpoint seek_waiter (fuel : nat) (crt th : Z) (ls : Links) : option Z :=
  if (crt =? 0) || (crt =? th) then Some crt
  else match fuel with O => None | S fuel => seek_waiter fuel (pipe_wait_next (links_of ls crt)) th ls end.

(** No list of distinct threads is longer than the number of threads that have links. *)
Definition walk_fuel (ls : Links) : nat := S (size ls).

Definition PipeRemoveWaiter (head th : Z) (ls : Links) : Outcome (bool * (Z * Links)) :=
  if th =? 0 then Ok (false, (head, ls)) else
  match seek_waiter (walk_fuel ls) head th ls with
  | None => Hang
  | Some crt =>
    if crt =? 0 then Ok (false, (head, ls)) else
    let prev := pipe_wait_prev (links_of ls crt) in
    let next := pipe_wait_next (links_of ls crt) in
    let '(head, ls) := if truthy prev then (head, put prev (w_next next) ls) else (next, ls) in
    let ls := if truthy next then put next (w_prev (pipe_wait_prev (links_of ls crt))) ls else ls in
    Ok (true, (head, PipeClearWaiter crt ls))
  end.

Fixpoint take_waiters (fuel : nat) (head wake : Z) (ls : Links) : option (Z * Links) :=
  if head =? 0 then Some (wake, ls)
  else match fuel with
       | O => None
       | S fuel =>
         let next := pipe_wait_next (links_of ls head) in
         take_waiters fuel next head (put head (w_next wake) (PipeClearWaiter head ls))
       end.
(** The private list; the head of the wait list is null afterwards. *)
Definition PipeTakeWaitList (head : Z) (ls : Links) : Outcome (Z * Links) :=
  match take_waiters (2 * walk_fuel ls) head 0 ls with Some x => Ok x | None => Hang end.

(** ** Channels *)
Inductive Dir := Reader | Writer.
#[global] Instance Dir_eq : EqDecision Dir.
Proof. solve_decision. Defined.
Definition reason (d : Dir) : Z := match d with Reader => BR_RecvPipe | Writer => BR_SendPipe end.

Section Pipes.
Context {B : Type} `{!ByteRing B} {T : Type} `{!PipeThreads T}.

Record PipeChannel := MkChannel {
  buffer : B;
  reader_count : Z;
  writer_count : Z;
  active_io : Z;
  closing : bool;
  read_wait_head : Z;
  write_wait_head : Z;
}.
Definition set_buffer (x : B) (c : PipeChannel) : PipeChannel :=
  MkChannel x (reader_count c) (writer_count c) (active_io c) (closing c) (read_wait_head c) (write_wait_head c).
Definition set_ends (r w : Z) (c : PipeChannel) : PipeChannel :=
  MkChannel (buffer c) r w (active_io c) (closing c) (read_wait_head c) (write_wait_head c).
Definition set_io (x : Z) (c : PipeChannel) : PipeChannel :=
  MkChannel (buffer c) (reader_count c) (writer_count c) x (closing c) (read_wait_head c) (write_wait_head c).
Definition set_closing (c : PipeChannel) : PipeChannel :=
  MkChannel (buffer c) (reader_count c) (writer_count c) (active_io c) true (read_wait_head c) (write_wait_head c).
Definition wait_head (d : Dir) (c : PipeChannel) : Z := match d with Reader => read_wait_head c | Writer => write_wait_head c end.
Definition set_head (d : Dir) (x : Z) (c : PipeChannel) : PipeChannel :=
  match d with
  | Reader => MkChannel (buffer c) (reader_count c) (writer_count c) (active_io c) (closing c) x (write_wait_head c)
  | Writer => MkChannel (buffer c) (reader_count c) (writer_count c) (active_io c) (closing c) (read_wait_head c) x
  end.
Definition ends (d : Dir) (c : PipeChannel) : Z := match d with Reader => reader_count c | Writer => writer_count c end.

(** What a thread executes.  [Rd count dst] is a read that has stored [dst]; [Wr src n] a write that
    has written the first [n] bytes. *)
Inductive Frame := Rd (count : nat) (dst : list Z) | Wr (src : list Z) (n : nat).
Inductive Pc :=
  | Outside
  | Loop (k : Z) (f : Frame)              (* at the head of the while loop *)
  | Listed (k : Z) (f : Frame)            (* on the wait list, not yet blocked *)
  | Blocked (k : Z) (f : Frame)           (* after Block *)
  | Suspended (k : Z) (f : Frame)         (* in Schedule *)
  | Waking (k : Z) (f : Frame) (head : Z) (* in PipeWakeList *)
  | Leaving (k : Z) (f : Frame) (ret : Z) (* before ReleasePipeChannel *)
  | Destroying (k : Z)                    (* before DestroyPipeChannel *)
  | Closing (k : Z) (head : Z) (r : Z) (destroy : bool). (* in PipeWakeList of ClosePipe *)

(** The channels that are allocated, the global list, the links of the threads, the scheduler, the
    positions, the open files ([f_mode] and the channel of the inode); and, for the statements only,
    the bytes that were ever put into and taken out of a channel. *)
Record Pipes := MkPipes {
  channels : gmap Z PipeChannel;
  pipe_channel_list : list Z;
  links : Links;
  threads : T;
  pcs : gmap Z Pc;
  files : gmap Z (Z * Dir);
  sent : gmap Z (list Z);
  received : gmap Z (list Z);
}.
Definition pc (p : Pipes) (t : Z) : Pc := default Outside (pcs p !! t).
Definition sent_to (p : Pipes) (k : Z) : list Z := default [] (sent p !! k).
Definition received_from (p : Pipes) (k : Z) : list Z := default [] (received p !! k).

Definition set_chan (k : Z) (c : PipeChannel) (p : Pipes) : Pipes :=
  MkPipes (<[k := c]> (channels p)) (pipe_channel_list p) (links p) (threads p) (pcs p) (files p) (sent p) (received p).
Definition set_links (ls : Links) (p : Pipes) : Pipes :=
  MkPipes (channels p) (pipe_channel_list p) ls (threads p) (pcs p) (files p) (sent p) (received p).
Definition set_threads (s : T) (p : Pipes) : Pipes :=
  MkPipes (channels p) (pipe_channel_list p) (links p) s (pcs p) (files p) (sent p) (received p).
Definition set_pc (t : Z) (x : Pc) (p : Pipes) : Pipes :=
  MkPipes (channels p) (pipe_channel_list p) (links p) (threads p) (<[t := x]> (pcs p)) (files p) (sent p) (received p).
Definition set_files (f : gmap Z (Z * Dir)) (p : Pipes) : Pipes :=
  MkPipes (channels p) (pipe_channel_list p) (links p) (threads p) (pcs p) f (sent p) (received p).
Definition note_sent (k : Z) (l : list Z) (p : Pipes) : Pipes :=
  MkPipes (channels p) (pipe_channel_list p) (links p) (threads p) (pcs p) (files p) (<[k := sent_to p k ++ l]> (sent p)) (received p).
Definition note_received (k : Z) (l : list Z) (p : Pipes) : Pipes :=
  MkPipes (channels p) (pipe_channel_list p) (links p) (threads p) (pcs p) (files p) (sent p) (<[k := received_from p k ++ l]> (received p)).

(** [chan->...]: a freed channel is a fault. *)
Definition with_chan {A} (k : Z) (p : Pipes) (f : PipeChannel -> Outcome A) : Outcome A :=
  match channels p !! k with Some c => f c | None => Fault end.

(** ** The operations *)

(** [CreatePipe]: a channel with one reader and one writer, on the global list; [k], [r], [w] are the
    allocated objects. *)
Definition CreatePipe (k r w : Z) (p : Pipes) : Pipes :=
  MkPipes (<[k := MkChannel ring_new 1 1 0 false 0 0]> (channels p)) (k :: pipe_channel_list p) (links p) (threads p) (pcs p)
    (<[w := (k, Writer)]> (<[r := (k, Reader)]> (files p))) (delete k (sent p)) (delete k (received p)).

(** [FileDescriptor_Clone], for an end of a pipe. *)
Definition ClonePipeEnd (f nf : Z) (p : Pipes) : Outcome Pipes :=
  match files p !! f with
  | None => Fault
  | Some (k, d) => with_chan k p (fun c =>
      let c := match d with Reader => set_ends (reader_count c + 1) (writer_count c) c | Writer => set_ends (reader_count c) (writer_count c + 1) c end in
      Ok (set_files (<[nf := (k, d)]> (files p)) (set_chan k c p)))
  end.

Definition AcquirePipeChannel (t f : Z) (p : Pipes) : Outcome (Z * Pipes) :=
  match files p !! f with
  | None => Fault
  | Some (k, _) => with_chan k p (fun c =>
      if closing c then Ok (0, p) else
      Ok (k, set_links (put t (w_io k) (links p)) (set_chan k (set_io (active_io c + 1) c) p)))
  end.

(** The result tells whether the channel must be destroyed. *)
Definition ReleasePipeChannel (t k : Z) (p : Pipes) : Outcome (bool * Pipes) :=
  with_chan k p (fun c =>
    let c := if truthy (active_io c) then set_io (active_io c - 1) c else c in
    let ls := if pipe_io_channel (links_of (links p) t) =? k then put t (w_io 0) (links p) else links p in
    Ok (closing c && (active_io c =? 0), set_links ls (set_chan k c p))).

Definition DestroyPipeChannel (k : Z) (p : Pipes) : Outcome Pipes :=
  with_chan k p (fun _ =>
    Ok (MkPipes (delete k (channels p)) (filter (fun x => x <> k) (pipe_channel_list p)) (links p) (threads p) (pcs p) (files p) (sent p) (received p))).

Definition CancelPipeWait (t : Z) (release_io : bool) (p : Pipes) : Outcome (option Z * Pipes) :=
  let l := links_of (links p) t in
  let k := if truthy (pipe_wait_channel l) then pipe_wait_channel l else pipe_io_channel l in
  if k =? 0 then Ok (None, p) else
  with_chan k p (fun c =>
    let! (_, (h, ls)) := PipeRemoveWaiter (read_wait_head c) t (links p) in
    let c := set_head Reader h c in
    let! (_, (h, ls)) := PipeRemoveWaiter (write_wait_head c) t ls in
    let c := set_head Writer h c in
    if release_io && (pipe_io_channel (links_of ls t) =? k) && truthy (active_io c) then
      let c := set_io (active_io c - 1) c in
      Ok (if closing c && (active_io c =? 0) then Some k else None, set_links (put t (w_io 0) ls) (set_chan k c p))
    else Ok (None, set_links ls (set_chan k c p))).

(** [ClosePipe] up to the wake-up of the other side: the file is gone afterwards. *)
Definition ClosePipe (t f : Z) (p : Pipes) : Outcome Pipes :=
  match files p !! f with
  | None => Fault
  | Some (k, d) => with_chan k p (fun c =>
      let c := match d with Reader => set_ends (reader_count c - 1) (writer_count c) c | Writer => set_ends (reader_count c) (writer_count c - 1) c end in
      let other := match d with Reader => Writer | Writer => Reader end in
      let! (wake, (c, ls)) :=
        (if ends d c =? 0 then let! (w, ls) := PipeTakeWaitList (wait_head other c) (links p) in Ok (w, (set_head other 0 c, ls))
         else Ok (0, (c, links p))) in
      let last := (reader_count c =? 0) && (writer_count c =? 0) in
      let c := if last then set_closing c else c in
      Ok (set_pc t (Closing k wake (reason other) (last && (active_io c =? 0)))
           (set_links ls (set_files (delete f (files p)) (set_chan k c p)))))
  end.

(** The inner loop of [ReadPipe]: at most [n] bytes. *)
Fixpoint drain (n : nat) (b : B) : list Z * B :=
  match n with
  | O => ([], b)
  | S n =>
    if is_empty b then ([], b) else
    let '(ch, b) := ring_inn b in
    if ch =? -1 then ([], b) else
    let '(l, b) := drain n b in (ch mod 256 :: l, b)
  end.

Definition direction (f : Frame) : Dir := match f with Rd _ _ => Reader | Wr _ _ => Writer end.
Definition bytes (f : Frame) : Z := match f with Rd _ dst => Z.of_nat (length dst) | Wr _ n => Z.of_nat n end.
Definition complete (f : Frame) : bool := match f with Rd n dst => (n <=? length dst)%nat | Wr src n => (length src <=? n)%nat end.
(** [bytes ? bytes : -4] *)
Definition interrupted_result (f : Frame) : Z := if truthy (bytes f) then bytes f else -4.

(** The thread joins the wait list of its side. *)
Definition enlist (t k : Z) (f : Frame) (c : PipeChannel) (p : Pipes) : Pipes :=
  let d := direction f in
  let '(h, ls) := PipeAddWaiter (wait_head d c) k t (links p) in
  set_pc t (Listed k f) (set_links ls (set_chan k (set_head d h c) p)).

(** One turn of the loops under the lock of the channel. *)
Definition ReadPipe (t k : Z) (count : nat) (dst : list Z) (p : Pipes) : Outcome Pipes :=
  with_chan k p (fun c =>
    if is_empty (buffer c) then
      if writer_count c =? 0 then Ok (set_pc t (Leaving k (Rd count dst) (Z.of_nat (length dst))) p)
      else Ok (enlist t k (Rd count dst) c p)
    else
      let '(l, b) := drain (count - length dst) (buffer c) in
      let! (wake, ls) := PipeTakeWaitList (write_wait_head c) (links p) in
      Ok (set_pc t (Waking k (Rd count (dst ++ l)) wake)
           (set_links ls (set_chan k (set_head Writer 0 (set_buffer b c)) (note_received k l p))))).

Definition WritePipe (t k : Z) (src : list Z) (n : nat) (p : Pipes) : Outcome Pipes :=
  with_chan k p (fun c =>
    if reader_count c =? 0 then Ok (set_pc t (Leaving k (Wr src n) (-1)) p)
    else if is_full (buffer c) then Ok (enlist t k (Wr src n) c p)
    else
      let '(written, b) := ring_out (drop n src) (buffer c) in
      let! (wake, ls) := PipeTakeWaitList (read_wait_head c) (links p) in
      Ok (set_pc t (Waking k (Wr src (n + Z.to_nat written)) wake)
           (set_links ls (set_chan k (set_head Reader 0 (set_buffer b c)) (note_sent k (take (Z.to_nat written) (drop n src)) p))))).

(** One turn of [PipeWakeList]. *)
Definition wake_one (h r : Z) (p : Pipes) : Z * Pipes :=
  let next := pipe_wait_next (links_of (links p) h) in
  (next, set_threads (pipe_unblock h r (threads p)) (set_links (put h (w_next 0) (links p)) p)).

Definition flip (d : Dir) : Dir := match d with Reader => Writer | Writer => Reader end.

(** The next step of a thread; [intr] is what [PipeInterrupted] answers, if it is asked. *)
Definition advance (intr : bool) (t : Z) (p : Pipes) : Outcome Pipes :=
  match pc p t with
  | Outside => Ok p
  | Loop k f =>
    if complete f then Ok (set_pc t (Leaving k f (bytes f)) p)
    else match f with Rd count dst => ReadPipe t k count dst p | Wr src n => WritePipe t k src n p end
  | Listed k f =>
    if intr then let! (_, p) := CancelPipeWait t false p in Ok (set_pc t (Leaving k f (interrupted_result f)) p)
    else Ok (set_pc t (Blocked k f) (set_threads (pipe_block t (reason (direction f)) (threads p)) p))
  | Blocked k f =>
    if negb (pipe_pended (threads p) t) then Ok (set_pc t (Loop k f) p)
    else if intr then
      let! (_, p) := CancelPipeWait t false p in
      Ok (set_pc t (Leaving k f (interrupted_result f)) (set_threads (pipe_unblock t (reason (direction f)) (threads p)) p))
    else Ok (set_pc t (Suspended k f) (set_threads (pipe_schedule t (threads p)) p))
  | Suspended k f => Ok (set_pc t (if intr then Leaving k f (interrupted_result f) else Loop k f) p)
  | Waking k f h =>
    if h =? 0 then Ok (set_pc t (Loop k f) p)
    else let '(next, p) := wake_one h (reason (flip (direction f))) p in Ok (set_pc t (Waking k f next) p)
  | Leaving k f ret =>
    let! (destroy, p) := ReleasePipeChannel t k p in Ok (set_pc t (if destroy then Destroying k else Outside) p)
  | Destroying k => let! p := DestroyPipeChannel k p in Ok (set_pc t Outside p)
  | Closing k h r destroy =>
    if h =? 0 then Ok (set_pc t (if destroy then Destroying k else Outside) p)
    else let '(next, p) := wake_one h r p in Ok (set_pc t (Closing k next r destroy) p)
  end.

(** [ReadPipe(file, ...)] and [WritePipe(file, ...)] start here; the channel is kept by [active_io]. *)
Definition start (t f : Z) (fr : Frame) (p : Pipes) : Outcome Pipes :=
  let! (k, p) := AcquirePipeChannel t f p in
  Ok (if k =? 0 then p else set_pc t (Loop k fr) p).

(** [wakeup_thread_for_signal], for a thread that is blocked in a pipe. *)
Definition interrupt (t : Z) (r : Z) (p : Pipes) : Outcome Pipes :=
  let! (_, p) := CancelPipeWait t false p in
  Ok (set_threads (pipe_unblock t r (threads p)) p).

(** The end of a process: [CancelPipeWait(th, true)]; the thread never returns to its frame. *)
Definition kill (t : Z) (p : Pipes) : Outcome Pipes :=
  let! (destroy, p) := CancelPipeWait t true p in
  Ok (set_pc t (match destroy with Some k => Destroying k | None => Outside end) p).

(** [Poll], for a pipe: readable, writable, hang-up, error. *)
Definition Poll (want_in want_out : bool) (k : Z) (p : Pipes) : Outcome (bool * bool * bool * bool) :=
  with_chan k p (fun c =>
    Ok (want_in && (negb (is_empty (buffer c)) || (writer_count c =? 0)),
        want_out && negb (is_full (buffer c)) && negb (reader_count c =? 0),
        writer_count c =? 0, reader_count c =? 0)).

End Pipes.
Arguments PipeChannel : clear implicits.
Arguments Pipes : clear implicits.
