(* ===== verification/PipeProof.v ===== *)
(** * Pipes: the life of a channel and its bytes

    The counters of a channel against the open files and the positions of the threads, and the bytes
    in the ring against what was ever sent and received. *)
From S2P Require Import Prelude Pipe.

(** ** Counting the entries of a map *)
Definition b2z (b : bool) : Z := if b then 1 else 0.
Definition mcount {A} (P : A -> bool) (m : gmap Z A) : Z := Z.of_nat (size (filter (fun x => P x.2 = true) m)).
Definition at_key {A} (P : A -> bool) (m : gmap Z A) (i : Z) : Z := b2z (match m !! i with Some x => P x | None => false end).

Lemma mcount_delete {A} (P : A -> bool) m i : mcount P (delete i m) = mcount P m - at_key P m i.
Proof.
  unfold mcount, at_key. rewrite map_filter_delete. destruct (m !! i) as [x|] eqn:E; cbn.
  - destruct (P x) eqn:Ex; cbn [b2z].
    + rewrite map_size_delete_Some by (exists x; by apply map_lookup_filter_Some). assert (size (filter (fun y => P y.2 = true) m) <> 0)%nat; [|lia].
      intros Hz%map_size_empty_iff. apply (f_equal (lookup i)) in Hz. rewrite lookup_empty in Hz. eapply map_lookup_filter_None in Hz as [?|Hn]; [congruence|]. by apply (Hn x).
    + rewrite delete_id; [lia|]. apply map_lookup_filter_None. right. intros y Hy. cbn. congruence.
  - rewrite delete_id; [lia|]. apply map_lookup_filter_None. by left.
Qed.
Lemma mcount_insert {A} (P : A -> bool) m i x : mcount P (<[i := x]> m) = mcount P m - at_key P m i + b2z (P x).
Proof.
  pose proof (mcount_delete P (<[i := x]> m) i) as H. rewrite delete_insert_eq, mcount_delete in H. unfold at_key at 2 in H. rewrite lookup_insert_eq in H. lia.
Qed.
Lemma mcount_zero {A} (P : A -> bool) m i x : mcount P m = 0 -> m !! i = Some x -> P x = false.
Proof. intros H E. pose proof (mcount_delete P m i) as Hd. unfold at_key in Hd. rewrite E in Hd. destruct (P x); [|done]. cbn in Hd. unfold mcount in *. lia. Qed.
Lemma mcount_nonneg {A} (P : A -> bool) m : 0 <= mcount P m.
Proof. unfold mcount. lia. Qed.
Lemma mcount_none {A} (P : A -> bool) m : (forall i x, m !! i = Some x -> P x = false) -> mcount P m = 0.
Proof.
  intros H. unfold mcount. replace (filter (fun x => P x.2 = true) m) with (∅ : gmap Z A); [done|]. symmetry. apply map_empty. intros i. apply map_lookup_filter_None. right. intros x E Ht. cbn in Ht. by rewrite (H i x E) in Ht.
Qed.

Section Life.
Context {B : Type} `{!ByteRing B, !ByteRingLaws B} {T : Type} `{!PipeThreads T}.
Implicit Types (p : Pipes B T) (c : PipeChannel B) (x : Pc).

(** ** Positions *)

(** Threads between [AcquirePipeChannel] and [ReleasePipeChannel]. *)
Definition user (x : Pc) : option Z :=
  match x with Loop k _ | Listed k _ | Blocked k _ | Suspended k _ | Waking k _ _ | Leaving k _ _ => Some k | _ => None end.
Definition uses (k : Z) (x : Pc) : bool := bool_decide (user x = Some k).
(** Threads that will free the channel. *)
Definition destroys (k : Z) (x : Pc) : bool := match x with Destroying j | Closing j _ _ true => j =? k | _ => false end.
Definition is_end (k : Z) (d : Dir) (f : Z * Dir) : bool := bool_decide (f = (k, d)).

(** The counters of a channel. *)
Record Counts (k : Z) c (fs : gmap Z (Z * Dir)) (ps : gmap Z Pc) : Prop := {
  ct_key : k <> 0;
  ct_readers : reader_count c = mcount (is_end k Reader) fs;
  ct_writers : writer_count c = mcount (is_end k Writer) fs;
  ct_active : active_io c = mcount (uses k) ps;
  ct_closing : closing c = (reader_count c =? 0) && (writer_count c =? 0);
  ct_destroyers : mcount (destroys k) ps = b2z (closing c && (active_io c =? 0));
}.
(** Nothing refers to a channel that is not allocated. *)
Definition Gone (k : Z) (fs : gmap Z (Z * Dir)) (ps : gmap Z Pc) : Prop :=
  mcount (is_end k Reader) fs = 0 /\ mcount (is_end k Writer) fs = 0 /\ mcount (uses k) ps = 0 /\ mcount (destroys k) ps = 0.
Definition Life (ch : gmap Z (PipeChannel B)) (fs : gmap Z (Z * Dir)) (ps : gmap Z Pc) : Prop :=
  forall k, match ch !! k with Some c => Counts k c fs ps | None => Gone k fs ps end.

Lemma at_pc (P : Pc -> bool) p t : P Outside = false -> at_key P (pcs p) t = b2z (P (pc p t)).
Proof. intros H. unfold at_key, pc. destruct (pcs p !! t); cbn; [done|by rewrite H]. Qed.

(** A channel that is used, to be freed, or open is allocated. *)
Lemma user_alive p k t : Life (channels p) (files p) (pcs p) -> user (pc p t) = Some k -> exists c, channels p !! k = Some c /\ Counts k c (files p) (pcs p).
Proof.
  intros L Hu. specialize (L k). destruct (channels p !! k) as [c|]; [by exists c|]. destruct L as (_ & _ & Hz & _). unfold pc in Hu. destruct (pcs p !! t) as [x|] eqn:E; [|done].
  pose proof (mcount_zero _ _ _ _ Hz E) as Hn. unfold uses in Hn. cbn in Hu. by rewrite bool_decide_true in Hn.
Qed.
Lemma destroyer_alive p k t : Life (channels p) (files p) (pcs p) -> destroys k (pc p t) = true -> exists c, channels p !! k = Some c /\ Counts k c (files p) (pcs p).
Proof.
  intros L Hu. specialize (L k). destruct (channels p !! k) as [c|]; [by exists c|]. destruct L as (_ & _ & _ & Hz). unfold pc in Hu. destruct (pcs p !! t) as [x|] eqn:E; [|done].
  pose proof (mcount_zero _ _ _ _ Hz E) as Hn. cbn in Hu. congruence.
Qed.
Lemma file_alive p k d f : Life (channels p) (files p) (pcs p) -> files p !! f = Some (k, d) -> exists c, channels p !! k = Some c /\ Counts k c (files p) (pcs p).
Proof.
  intros L Hf. specialize (L k). destruct (channels p !! k) as [c|]; [by exists c|]. destruct L as (Hr & Hw & _). exfalso.
  destruct d; [pose proof (mcount_zero _ _ _ _ Hr Hf) as Hn|pose proof (mcount_zero _ _ _ _ Hw Hf) as Hn]; unfold is_end in Hn; by rewrite bool_decide_true in Hn.
Qed.

(** Changes that the counters do not see. *)
Lemma life_pc p t x ch fs : Life ch fs (pcs p) -> user x = user (pc p t) -> (forall k, destroys k x = destroys k (pc p t)) -> Life ch fs (<[t := x]> (pcs p)).
Proof.
  intros L Hu Hd k. specialize (L k). assert (mcount (uses k) (<[t := x]> (pcs p)) = mcount (uses k) (pcs p)) as E1 by (rewrite mcount_insert, at_pc by done; unfold uses; rewrite Hu; lia).
  assert (mcount (destroys k) (<[t := x]> (pcs p)) = mcount (destroys k) (pcs p)) as E2 by (rewrite mcount_insert, at_pc by done; rewrite Hd; lia).
  destruct (ch !! k); [|by unfold Gone in *; rewrite E1, E2]. destruct L. constructor; by rewrite ?E1, ?E2.
Qed.
Definition same_counters c c' : Prop := reader_count c' = reader_count c /\ writer_count c' = writer_count c /\ active_io c' = active_io c /\ closing c' = closing c.
Lemma life_chan ch fs ps k c c' : Life ch fs ps -> ch !! k = Some c -> same_counters c c' -> Life (<[k := c']> ch) fs ps.
Proof.
  intros L E (E1 & E2 & E3 & E4) j. specialize (L j). destruct (decide (j = k)) as [->|]; [|by rewrite lookup_insert_ne]. rewrite lookup_insert_eq. rewrite E in L.
  destruct L. constructor; by rewrite ?E1, ?E2, ?E3, ?E4.
Qed.

(** ** Links *)

(** What list operations do to the channel fields of the threads. *)
Definition tame (ls ls' : Links) : Prop := forall t, pipe_io_channel (links_of ls' t) = pipe_io_channel (links_of ls t) /\
  (pipe_wait_channel (links_of ls' t) = pipe_wait_channel (links_of ls t) \/ pipe_wait_channel (links_of ls' t) = 0).
#[global] Instance tame_preorder : PreOrder tame.
Proof. split; [intros ls t; tauto|]. intros a b c H1 H2 t. destruct (H1 t) as [A1 A2], (H2 t) as [B1 B2]. split; [congruence|]. destruct B2 as [->|]; tauto. Qed.

Lemma links_put th f ls t : links_of (put th f ls) t = if decide (t = th) then f (links_of ls th) else links_of ls t.
Proof. unfold links_of, put. destruct (decide (t = th)) as [->|]; [by rewrite lookup_insert_eq|by rewrite lookup_insert_ne]. Qed.
Lemma tame_put th f ls : (forall l, pipe_io_channel (f l) = pipe_io_channel l /\ (pipe_wait_channel (f l) = pipe_wait_channel l \/ pipe_wait_channel (f l) = 0)) -> tame ls (put th f ls).
Proof. intros H t. rewrite links_put. destruct (decide (t = th)) as [->|]; [apply H|tauto]. Qed.
Lemma tame_clear th ls : tame ls (PipeClearWaiter th ls).
Proof. unfold PipeClearWaiter. destruct (th =? 0); [done|]. apply tame_put. cbn. tauto. Qed.
Lemma tame_take fuel : forall h w ls w' ls', take_waiters fuel h w ls = Some (w', ls') -> tame ls ls'.
Proof.
  induction fuel as [|fuel IH]; intros h w ls w' ls' E; cbn in E; (destruct (h =? 0); [injection E as _ <-; done|]); [done|].
  etrans; [apply (tame_clear h)|]. etrans; [|by eapply IH]. apply tame_put. cbn. tauto.
Qed.
Lemma tame_take_list h ls w ls' : PipeTakeWaitList h ls = Ok (w, ls') -> tame ls ls'.
Proof. unfold PipeTakeWaitList. destruct (take_waiters _ _ _ _) as [[? ?]|] eqn:E; [|done]. intros [= <- <-]. by eapply tame_take. Qed.
Lemma tame_remove h th ls b h' ls' : PipeRemoveWaiter h th ls = Ok (b, (h', ls')) -> tame ls ls'.
Proof.
  unfold PipeRemoveWaiter. destruct (th =? 0); [by intros [= _ _ <-]|]. destruct (seek_waiter _ _ _ _) as [crt|]; [|done]. destruct (crt =? 0); [by intros [= _ _ <-]|].
  set (x := if truthy (pipe_wait_prev _) then _ else _). assert (tame ls x.2) as H1 by (unfold x; destruct (truthy _); [apply tame_put; cbn; tauto|done]).
  destruct x as [h1 ls1]. intros [= _ _ <-]. etrans; [exact H1|]. etrans; [|apply tame_clear]. cbn [snd]. destruct (truthy _); [|done]. apply tame_put. cbn. tauto.
Qed.
Lemma add_waiter_links h k th ls t : let ls' := (PipeAddWaiter h k th ls).2 in
  pipe_io_channel (links_of ls' t) = pipe_io_channel (links_of ls t) /\
  (pipe_wait_channel (links_of ls' t) = (if decide (t = th /\ th <> 0) then k else pipe_wait_channel (links_of ls t)) \/ pipe_wait_channel (links_of ls' t) = 0).
Proof.
  unfold PipeAddWaiter. destruct (th =? 0) eqn:Ez; cbn [snd]; [rewrite decide_False by lia; tauto|]. set (ls1 := put th _ (PipeClearWaiter th ls)).
  assert (tame ls1 (if truthy h then put h (w_prev th) ls1 else ls1)) as Hp by (destruct (truthy h); [apply tame_put; cbn; tauto|done]).
  destruct (Hp t) as [-> Hw]. assert (pipe_io_channel (links_of ls1 t) = pipe_io_channel (links_of ls t)) as ->.
  { unfold ls1. rewrite links_put. destruct (decide (t = th)) as [->|]; cbn; apply (tame_clear th ls). }
  split; [done|]. assert (pipe_wait_channel (links_of ls1 t) = if decide (t = th /\ th <> 0) then k else pipe_wait_channel (links_of ls t)) as <-; [|exact Hw].
  unfold ls1. rewrite links_put. destruct (decide (t = th)) as [->|Hn]; [rewrite decide_True by lia; done|]. rewrite decide_False by tauto.
  unfold PipeClearWaiter. rewrite Ez, links_put, decide_False by done. done.
Qed.

Lemma remove_no_fault h th ls : PipeRemoveWaiter h th ls <> Fault.
Proof. unfold PipeRemoveWaiter. destruct (th =? 0); [done|]. destruct (seek_waiter _ _ _ _); [|done]. destruct (_ =? 0); [done|]. by destruct (if truthy (pipe_wait_prev _) then _ else _). Qed.
Lemma take_no_fault h ls : PipeTakeWaitList h ls <> Fault.
Proof. unfold PipeTakeWaitList. by destruct (take_waiters _ _ _ _). Qed.

(** ** The invariant *)
Definition is_byte (b : Z) : Prop := 0 <= b < 256.
Definition frame_ok (f : Frame) : Prop := match f with Rd n dst => (length dst <= n)%nat | Wr src n => Forall is_byte src /\ (n <= length src)%nat end.
Definition frame_of (x : Pc) : option Frame :=
  match x with Loop _ f | Listed _ f | Blocked _ f | Suspended _ f | Waking _ f _ | Leaving _ f _ => Some f | _ => None end.
(** After [PipeAddWaiter], in the same call. *)
Definition waiting (x : Pc) : bool := match x with Listed _ _ | Blocked _ _ | Suspended _ _ => true | _ => false end.

Record LinksOk (ls : Links) (ps : Z -> Pc) : Prop := {
  lk_user : forall t k, user (ps t) = Some k -> pipe_io_channel (links_of ls t) = k;
  lk_io : forall t, pipe_io_channel (links_of ls t) <> 0 -> user (ps t) = Some (pipe_io_channel (links_of ls t));
  lk_wait : forall t k, user (ps t) = Some k -> waiting (ps t) = true -> pipe_wait_channel (links_of ls t) = 0 \/ pipe_wait_channel (links_of ls t) = k;
}.

Definition stream (p : Pipes B T) (k : Z) (b : B) : Prop := sent_to p k = received_from p k ++ ring_list b /\ Forall is_byte (ring_list b) /\ (length (ring_list b) <= ring_room)%nat.

Record Inv p : Prop := {
  iv_life : Life (channels p) (files p) (pcs p);
  iv_links : LinksOk (links p) (pc p);
  iv_data : forall k c, channels p !! k = Some c -> stream p k (buffer c);
  iv_frames : forall t f, frame_of (pc p t) = Some f -> frame_ok f;
}.

Definition safe (o : Outcome (Pipes B T)) : Prop := match o with Ok p => Inv p | Fault => False | Hang => True end.

Lemma pipe_pc_set t x p u : pc (set_pc t x p) u = if decide (u = t) then x else pc p u.
Proof. unfold pc, set_pc. cbn. destruct (decide (u = t)) as [->|]; [by rewrite lookup_insert_eq|by rewrite lookup_insert_ne]. Qed.

Lemma links_tame ls ls' ps : tame ls ls' -> LinksOk ls ps -> LinksOk ls' ps.
Proof.
  intros Ht [H1 H2 H3]. constructor; intros t; destruct (Ht t) as [E1 E2].
  - intros k. rewrite E1. apply H1.
  - rewrite E1. apply H2.
  - intros k Hu Hw. destruct E2 as [->|]; [by apply H3|by left].
Qed.
Lemma links_pc ls ps t x : LinksOk ls ps -> user x = user (ps t) -> (waiting x = true -> waiting (ps t) = true) -> LinksOk ls (fun u => if decide (u = t) then x else ps u).
Proof.
  intros [H1 H2 H3] Hu Hw. constructor; intros u; destruct (decide (u = t)) as [->|]; rewrite ?Hu; auto.
Qed.
Lemma LinksOk_ext ls ps ps' : (forall t, ps' t = ps t) -> LinksOk ls ps -> LinksOk ls ps'.
Proof. intros E [H1 H2 H3]. constructor; intros t; rewrite ?E; auto. Qed.

(** ** Steps that stay inside an operation *)
Lemma move_keeps p p' t x : Inv p -> user x = user (pc p t) -> (forall k, destroys k x = destroys k (pc p t)) ->
  (forall f, frame_of x = Some f -> frame_ok f) -> files p' = files p -> pcs p' = <[t := x]> (pcs p) ->
  Life (channels p') (files p) (pcs p) -> LinksOk (links p') (fun u => if decide (u = t) then x else pc p u) ->
  (forall k c, channels p' !! k = Some c -> stream p' k (buffer c)) -> Inv p'.
Proof.
  intros I Hu Hd Hf Ef Ep Hl Hlk Hdata. assert (forall u, pc p' u = if decide (u = t) then x else pc p u) as Epc.
  { intros u. unfold pc at 1. rewrite Ep. destruct (decide (u = t)) as [->|]; [by rewrite lookup_insert_eq|by rewrite lookup_insert_ne]. }
  constructor; [|by apply (LinksOk_ext _ _ _ Epc)|done|].
  - rewrite Ef, Ep. by apply life_pc.
  - intros u f. rewrite Epc. destruct (decide (u = t)); [apply Hf|apply I].
Qed.

(** Only the position, the scheduler and the links change. *)
Lemma shift_keeps p ls s t x : Inv p -> user x = user (pc p t) -> (forall k, destroys k x = destroys k (pc p t)) -> (waiting x = true -> waiting (pc p t) = true) ->
  (forall f, frame_of x = Some f -> frame_ok f) -> tame (links p) ls -> Inv (set_pc t x (set_threads s (set_links ls p))).
Proof.
  intros I Hu Hd Hw Hf Ht. apply (move_keeps p _ t x); try done; [apply I| |apply I]. apply links_pc; [|done|done]. eapply links_tame; [exact Ht|apply I].
Qed.
Lemma step_keeps_pc p t x : Inv p -> user x = user (pc p t) -> (forall k, destroys k x = destroys k (pc p t)) -> (waiting x = true -> waiting (pc p t) = true) ->
  (forall f, frame_of x = Some f -> frame_ok f) -> Inv (set_pc t x p).
Proof. intros. by apply (shift_keeps p (links p) (threads p)). Qed.
Lemma threads_keeps p s : Inv p -> Inv (set_threads s p).
Proof. intros [L K D F]. by constructor. Qed.

Lemma drain_spec n : forall b, Forall is_byte (ring_list b) -> exists b', drain n b = (take n (ring_list b), b') /\ ring_list b' = drop n (ring_list b).
Proof.
  induction n as [|n IH]; intros b Hb; [by exists b|]. cbn [drain]. destruct (is_empty b) eqn:Ee.
  { apply ring_empty_list in Ee. exists b. by rewrite Ee. }
  destruct (ring_list b) as [|x l] eqn:El; [apply ring_empty_list in El; congruence|]. destruct (ring_inn_cons b x l El) as [E1 E2].
  destruct (ring_inn b) as [ch b1]. cbn in E1, E2. subst ch. apply Forall_cons in Hb as [Hx Hl]. unfold is_byte in Hx. rewrite (proj2 (Z.eqb_neq x (-1))) by lia.
  destruct (IH b1) as (b' & -> & E3); [by rewrite E2|]. exists b'. rewrite E2 in *. rewrite Z.mod_small by lia. done.
Qed.

Lemma stream_other p p' k b : sent_to p' k = sent_to p k -> received_from p' k = received_from p k -> stream p k b -> stream p' k b.
Proof. unfold stream. by intros -> ->. Qed.

Lemma data_chan p p' k c c' : Inv p -> channels p !! k = Some c -> channels p' = <[k := c']> (channels p) -> buffer c' = buffer c ->
  sent p' = sent p -> received p' = received p -> forall j y, channels p' !! j = Some y -> stream p' j (buffer y).
Proof.
  intros I Hc Hch Hb Hs Hr j y Hj. apply (stream_other p); [unfold sent_to; by rewrite Hs|unfold received_from; by rewrite Hr|]. rewrite Hch in Hj.
  destruct (decide (j = k)) as [->|]; [|rewrite lookup_insert_ne in Hj by done; by apply (iv_data _ I)]. rewrite lookup_insert_eq in Hj. injection Hj as <-. rewrite Hb. by apply (iv_data _ I).
Qed.

Lemma enlist_keeps p t k f c : Inv p -> pc p t = Loop k f -> t <> 0 -> channels p !! k = Some c -> Inv (enlist t k f c p).
Proof.
  intros I Hp Ht Hc. unfold enlist. pose proof (add_waiter_links (wait_head (direction f) c) k t (links p)) as Hadd.
  destruct (PipeAddWaiter _ k t (links p)) as [h ls]. cbn [snd] in Hadd. apply (move_keeps p _ t (Listed k f)); try done.
  - by rewrite Hp.
  - by rewrite Hp.
  - intros g [= <-]. apply (iv_frames _ I t). by rewrite Hp.
  - cbn. eapply life_chan; [apply I|exact Hc|]. by destruct f.
  - destruct (iv_links _ I) as [K1 K2 K3]. constructor; intros u; destruct (Hadd u) as [E1 E2]; cbn [links set_pc set_links set_chan]; rewrite ?E1; destruct (decide (u = t)) as [->|Hn].
    + intros j [= <-]. apply K1. by rewrite Hp.
    + intros j. apply K1.
    + intros Hz. pose proof (K2 t Hz) as Hk. by rewrite Hp in Hk.
    + apply K2.
    + intros j [= <-] _. rewrite decide_True in E2 by done. tauto.
    + intros j Hj Hw. rewrite decide_False in E2 by tauto. destruct E2 as [->|]; [by apply K3|by left].
  - eapply (data_chan p _ k c); [done|done|done| |done|done]. by destruct f.
Qed.

Lemma read_turn p t k count dst : Inv p -> pc p t = Loop k (Rd count dst) -> t <> 0 -> safe (ReadPipe t k count dst p).
Proof.
  intros I Hp Ht. destruct (user_alive p k t (iv_life _ I)) as (c & Hc & _); [by rewrite Hp|]. unfold ReadPipe, with_chan. rewrite Hc.
  assert (frame_ok (Rd count dst)) as Hf by (apply (iv_frames _ I t); by rewrite Hp). destruct (iv_data _ I k c Hc) as (Hs & Hb & Hlen). destruct (is_empty (buffer c)).
  { destruct (writer_count c =? 0); [|by apply enlist_keeps]. apply step_keeps_pc; rewrite ?Hp; try done. by intros f [= <-]. }
  destruct (drain_spec (count - length dst) (buffer c) Hb) as (b & -> & Eb). destruct (PipeTakeWaitList (write_wait_head c) (links p)) as [[w ls]| |] eqn:Et; cbn; [|by apply take_no_fault in Et|done].
  apply (move_keeps p _ t (Waking k (Rd count (dst ++ take (count - length dst) (ring_list (buffer c)))) w)); try done.
  - by rewrite Hp.
  - by rewrite Hp.
  - intros f [= <-]. cbn in *. rewrite length_app, length_take. lia.
  - cbn. eapply life_chan; [apply I|exact Hc|done].
  - apply links_pc; [eapply links_tame; [by eapply tame_take_list|apply I]|by rewrite Hp|done].
  - intros j c' Hj. cbn in Hj. destruct (decide (j = k)) as [->|Hn].
    + rewrite lookup_insert_eq in Hj. injection Hj as <-. cbn [buffer set_head set_buffer]. unfold stream, received_from. cbn. rewrite lookup_insert_eq. cbn. rewrite Eb. split.
      * unfold sent_to. cbn. fold (sent_to p k). rewrite Hs, <- app_assoc. by rewrite take_drop.
      * split; [by apply Forall_drop|]. rewrite length_drop. lia.
    + rewrite lookup_insert_ne in Hj by done. apply (stream_other p); [done| |by apply (iv_data _ I)]. unfold received_from. cbn. by rewrite lookup_insert_ne.
Qed.

Lemma write_turn p t k src n : Inv p -> pc p t = Loop k (Wr src n) -> t <> 0 -> safe (WritePipe t k src n p).
Proof.
  intros I Hp Ht. destruct (user_alive p k t (iv_life _ I)) as (c & Hc & _); [by rewrite Hp|]. unfold WritePipe, with_chan. rewrite Hc.
  assert (frame_ok (Wr src n)) as Hf by (apply (iv_frames _ I t); by rewrite Hp). destruct (iv_data _ I k c Hc) as (Hs & Hb & Hlen). destruct (reader_count c =? 0).
  { apply step_keeps_pc; rewrite ?Hp; try done. by intros f [= <-]. }
  destruct (is_full (buffer c)); [by apply enlist_keeps|]. destruct (ring_out_list (drop n src) (buffer c)) as [E1 E2]. destruct (ring_out (drop n src) (buffer c)) as [written b]. cbn [fst snd] in E1, E2.
  subst written. set (m := Nat.min _ _) in *. rewrite Nat2Z.id.
  destruct (PipeTakeWaitList (read_wait_head c) (links p)) as [[w ls]| |] eqn:Et; cbn; [|by apply take_no_fault in Et|done].
  destruct Hf as [Hbs Hn]. assert (m <= length (drop n src))%nat as Hm by lia. rewrite length_drop in Hm.
  apply (move_keeps p _ t (Waking k (Wr src (n + m)) w)); try done.
  - by rewrite Hp.
  - by rewrite Hp.
  - intros f [= <-]. split; [done|lia].
  - cbn. eapply life_chan; [apply I|exact Hc|done].
  - apply links_pc; [eapply links_tame; [by eapply tame_take_list|apply I]|by rewrite Hp|done].
  - intros j c' Hj. cbn in Hj. destruct (decide (j = k)) as [->|Hne].
    + rewrite lookup_insert_eq in Hj. injection Hj as <-. cbn [buffer set_head set_buffer]. unfold stream, sent_to. cbn. rewrite lookup_insert_eq. cbn. rewrite E2. split.
      * change (received_from _ k) with (received_from p k). fold (sent_to p k). by rewrite Hs, app_assoc.
      * split; [apply Forall_app; split; [done|by apply Forall_take, Forall_drop]|]. rewrite length_app, length_take. lia.
    + rewrite lookup_insert_ne in Hj by done. apply (stream_other p); [|done|by apply (iv_data _ I)]. unfold sent_to. cbn. by rewrite lookup_insert_ne.
Qed.

(** Cancelling a wait inside an operation changes links and heads only. *)
Lemma cancel_inside p t k : Inv p -> user (pc p t) = Some k -> waiting (pc p t) = true ->
  match CancelPipeWait t false p with
  | Ok (d, p') => d = None /\ Inv p' /\ pcs p' = pcs p /\ files p' = files p
  | Fault => False | Hang => True
  end.
Proof.
  intros I Hu Hw. destruct (user_alive p k t (iv_life _ I) Hu) as (c & Hc & Hct). destruct (iv_links _ I) as [K1 K2 K3]. unfold CancelPipeWait.
  assert ((if truthy (pipe_wait_channel (links_of (links p) t)) then pipe_wait_channel (links_of (links p) t) else pipe_io_channel (links_of (links p) t)) = k) as ->.
  { unfold truthy. destruct (pipe_wait_channel (links_of (links p) t) =? 0) eqn:Ez; cbn [negb]; [by apply K1|]. destruct (K3 t k Hu Hw); [lia|done]. }
  rewrite (proj2 (Z.eqb_neq k 0)) by apply Hct. unfold with_chan. rewrite Hc. destruct (PipeRemoveWaiter (read_wait_head c) t (links p)) as [[b1 [h1 ls1]]| |] eqn:E1; cbn [obind]; [| |done].
  2: { by apply remove_no_fault in E1. }
  destruct (PipeRemoveWaiter (write_wait_head (set_head Reader h1 c)) t ls1) as [[b2 [h2 ls2]]| |] eqn:E2; cbn [obind andb]; [| |done].
  2: { by apply remove_no_fault in E2. }
  split; [done|]. split; [|done]. constructor.
  - cbn. eapply life_chan; [apply I|exact Hc|done].
  - apply (LinksOk_ext _ (pc p)); [done|]. eapply links_tame; [|apply I]. etrans; by eapply tame_remove.
  - by eapply (data_chan p _ k c).
  - apply I.
Qed.

(** ** Steps that change the counters of one channel *)
Lemma life_change (ch ch' : gmap Z (PipeChannel B)) fs fs' ps ps' k : Life ch fs ps ->
  (forall j, j <> k -> ch' !! j = ch !! j /\ (forall d, mcount (is_end j d) fs' = mcount (is_end j d) fs) /\
     mcount (uses j) ps' = mcount (uses j) ps /\ mcount (destroys j) ps' = mcount (destroys j) ps) ->
  match ch' !! k with Some c => Counts k c fs' ps' | None => Gone k fs' ps' end -> Life ch' fs' ps'.
Proof.
  intros L Ho Hk j. destruct (decide (j = k)) as [->|Hn]; [done|]. destruct (Ho j Hn) as (-> & E1 & E2 & E3). specialize (L j). destruct (ch !! j).
  - destruct L. constructor; by rewrite ?E1, ?E2, ?E3.
  - unfold Gone. by rewrite !E1, E2, E3.
Qed.

(** The counts when the position of one thread changes. *)
Lemma uses_move p t x j : mcount (uses j) (<[t := x]> (pcs p)) = mcount (uses j) (pcs p) - b2z (uses j (pc p t)) + b2z (uses j x).
Proof. by rewrite mcount_insert, at_pc. Qed.
Lemma destroys_move p t x j : mcount (destroys j) (<[t := x]> (pcs p)) = mcount (destroys j) (pcs p) - b2z (destroys j (pc p t)) + b2z (destroys j x).
Proof. by rewrite mcount_insert, at_pc. Qed.
Lemma uses_eq j x : uses j x = match user x with Some k => k =? j | None => false end.
Proof. unfold uses. destruct (user x) as [k|]; [|by rewrite bool_decide_false]. destruct (k =? j) eqn:E; [apply bool_decide_true; f_equal; lia|apply bool_decide_false; intros [= ->]; lia]. Qed.

Lemma used_pos p t k : user (pc p t) = Some k -> 0 < mcount (uses k) (pcs p).
Proof.
  intros H. pose proof (uses_move p t Outside k) as E. pose proof (mcount_nonneg (uses k) (<[t := Outside]> (pcs p))) as Hn. rewrite E, !uses_eq, H, Z.eqb_refl in Hn. cbn in Hn. lia.
Qed.

(** The last step of an operation: a thread that uses [k] gives it up. *)
Lemma leave_life p t k c c' x : Life (channels p) (files p) (pcs p) -> user (pc p t) = Some k -> (forall j, destroys j (pc p t) = false) -> channels p !! k = Some c ->
  c' = set_io (active_io c - 1) c \/ (reader_count c' = reader_count c /\ writer_count c' = writer_count c /\ active_io c' = active_io c - 1 /\ closing c' = closing c) ->
  x = (if closing c' && (active_io c' =? 0) then Destroying k else Outside) ->
  Life (<[k := c']> (channels p)) (files p) (<[t := x]> (pcs p)).
Proof.
  intros L Hu Hd Hc Hc' Hx. assert (reader_count c' = reader_count c /\ writer_count c' = writer_count c /\ active_io c' = active_io c - 1 /\ closing c' = closing c) as (E1 & E2 & E3 & E4) by (destruct Hc' as [->|]; done).
  pose proof (used_pos p t k Hu) as Hpos. apply (life_change (channels p) _ (files p) _ (pcs p) _ k L).
  - intros j Hj. rewrite lookup_insert_ne by done. split; [done|]. split; [done|]. rewrite uses_move, destroys_move, !uses_eq, Hu, Hd. subst x.
    rewrite (proj2 (Z.eqb_neq k j)) by done. destruct (closing c' && (active_io c' =? 0)); cbn; rewrite ?(proj2 (Z.eqb_neq k j)) by done; cbn; lia.
  - rewrite lookup_insert_eq. specialize (L k). rewrite Hc in L. destruct L as [C0 C1 C2 C3 C4 C5].
    constructor; rewrite ?E1, ?E2, ?E3, ?E4; try done.
    + rewrite uses_move, !uses_eq, Hu, Z.eqb_refl. subst x. destruct (closing c' && (active_io c' =? 0)); cbn [user b2z]; lia.
    + rewrite destroys_move, Hd, C5, (proj2 (Z.eqb_neq (active_io c) 0)) by lia. rewrite andb_false_r. subst x. rewrite E3, E4. destruct (closing c && (active_io c - 1 =? 0)); cbn [destroys]; rewrite ?Z.eqb_refl; cbn [b2z]; lia.
Qed.

Lemma LinksOk_leave ls ps t x : LinksOk ls ps -> user x = None -> LinksOk (put t (w_io 0) ls) (fun u => if decide (u = t) then x else ps u).
Proof.
  intros [K1 K2 K3] Hx. constructor; intros u; rewrite links_put; destruct (decide (u = t)) as [->|Hn]; cbn [pipe_io_channel pipe_wait_channel w_io]; rewrite ?Hx; auto; done.
Qed.

Lemma release_keeps p t k f r : Inv p -> pc p t = Leaving k f r -> safe (advance false t p) /\ safe (advance true t p).
Proof.
  intros I Hp. assert (forall i, safe (advance i t p)) as H; [|by split]. intros i. unfold advance. rewrite Hp.
  destruct (user_alive p k t (iv_life _ I)) as (c & Hc & Ct); [by rewrite Hp|]. unfold ReleasePipeChannel, with_chan. rewrite Hc. cbn [obind].
  assert (user (pc p t) = Some k) as Hu by (by rewrite Hp). pose proof (used_pos p t k Hu) as Hpos. rewrite <- (ct_active _ _ _ _ Ct) in Hpos.
  assert (truthy (active_io c) = true) as Hta by (unfold truthy; rewrite (proj2 (Z.eqb_neq _ 0)) by lia; done). rewrite Hta, (lk_user _ _ (iv_links _ I) t k Hu), Z.eqb_refl. cbn [safe].
  set (x := if closing _ && _ then _ else _). constructor.
  - cbn. apply (leave_life p t k c); [apply I|done|by rewrite Hp|done|by left|done].
  - eapply LinksOk_ext; [intros u; apply pipe_pc_set|]. cbn. apply LinksOk_leave; [apply I|]. unfold x. by destruct (_ && _).
  - by eapply (data_chan p _ k c).
  - intros u g. rewrite pipe_pc_set. destruct (decide (u = t)); [unfold x; destruct (_ && _); done|apply I].
Qed.

Lemma destroy_keeps i p t k : Inv p -> pc p t = Destroying k -> safe (advance i t p).
Proof.
  intros I Hp. assert (destroys k (pc p t) = true) as Hd by (rewrite Hp; cbn; lia). destruct (destroyer_alive p k t (iv_life _ I) Hd) as (c & Hc & Ct).
  unfold advance, DestroyPipeChannel, with_chan. rewrite Hp, Hc. cbn [obind safe].
  assert (mcount (destroys k) (pcs p) = 1 /\ closing c = true /\ active_io c = 0) as (H1 & H2 & H3).
  { pose proof (destroys_move p t Outside k) as E. pose proof (mcount_nonneg (destroys k) (<[t := Outside]> (pcs p))) as Hn. rewrite E, Hd in Hn. cbn [b2z destroys] in Hn.
    pose proof (ct_destroyers _ _ _ _ Ct) as D. destruct (closing c); cbn [andb] in D; [|cbn in D; lia]. destruct (active_io c =? 0) eqn:Ea; cbn [b2z] in D; lia. }
  constructor.
  - cbn. apply (life_change (channels p) _ (files p) _ (pcs p) _ k (iv_life _ I)).
    + intros j Hj. rewrite lookup_delete_ne by done. split; [done|]. split; [done|]. rewrite uses_move, destroys_move, !uses_eq, Hp. cbn. rewrite (proj2 (Z.eqb_neq k j)) by done. cbn. lia.
    + rewrite lookup_delete_eq. unfold Gone. rewrite uses_move, destroys_move, !uses_eq, Hd, Hp, <- (ct_active _ _ _ _ Ct), <- (ct_readers _ _ _ _ Ct), <- (ct_writers _ _ _ _ Ct), H1, H3.
      pose proof (ct_closing _ _ _ _ Ct) as E. rewrite H2 in E. symmetry in E. apply andb_true_iff in E as [E1 E2]. cbn. lia.
  - apply (LinksOk_ext _ (fun u => if decide (u = t) then Outside else pc p u)); [intros u; by rewrite pipe_pc_set|]. apply links_pc; [apply I|by rewrite Hp|done].
  - intros j c' Hj. apply (stream_other p); [done|done|]. cbn in Hj. apply lookup_delete_Some in Hj as [_ Hj]. by apply (iv_data _ I).
  - intros u g. rewrite pipe_pc_set. destruct (decide (u = t)); [done|apply I].
Qed.

(** The counts when a file is opened or closed. *)
Lemma is_end_eq k d j e : is_end k d (j, e) = (j =? k) && bool_decide (e = d).
Proof. unfold is_end. destruct (j =? k) eqn:E; cbn; [apply bool_decide_ext; split; [by intros [= -> ->]|intros ->; f_equal; lia]|apply bool_decide_false; intros [= -> ->]; lia]. Qed.

Lemma ends_count k c fs ps d : Counts k c fs ps -> ends d c = mcount (is_end k d) fs.
Proof. intros C. destruct d; apply C. Qed.
Lemma open_end k c fs ps f d : Counts k c fs ps -> fs !! f = Some (k, d) -> 0 < ends d c /\ closing c = false.
Proof.
  intros C Ef. assert (0 < ends d c) as Hpos.
  { rewrite (ends_count _ _ _ _ d C). pose proof (mcount_delete (is_end k d) fs f) as E. pose proof (mcount_nonneg (is_end k d) (delete f fs)). unfold at_key in E.
    rewrite Ef, is_end_eq, Z.eqb_refl, bool_decide_true in E by done. cbn [andb b2z] in E. lia. }
  split; [done|]. rewrite (ct_closing _ _ _ _ C). destruct d; cbn [ends] in Hpos; [|rewrite andb_comm]; by rewrite (proj2 (Z.eqb_neq _ 0)) by lia.
Qed.

Lemma start_keeps p t f fr : Inv p -> pc p t = Outside -> files p !! f <> None -> frame_ok fr -> safe (start t f fr p).
Proof.
  intros I Hp Hf Hfr. unfold start, AcquirePipeChannel. destruct (files p !! f) as [[k d]|] eqn:Ef; [|done]. destruct (file_alive p k d f (iv_life _ I) Ef) as (c & Hc & Ct).
  unfold with_chan. rewrite Hc. destruct (open_end _ _ _ _ _ _ Ct Ef) as [_ Hcl]. rewrite Hcl.
  cbn [obind]. rewrite (proj2 (Z.eqb_neq k 0)) by apply Ct. cbn [safe]. constructor.
  - cbn. apply (life_change (channels p) _ (files p) _ (pcs p) _ k (iv_life _ I)).
    + intros j Hj. rewrite lookup_insert_ne by done. split; [done|]. split; [done|]. rewrite uses_move, destroys_move, !uses_eq, Hp. cbn. rewrite (proj2 (Z.eqb_neq k j)) by done. cbn. lia.
    + rewrite lookup_insert_eq. destruct Ct as [C0 C1 C2 C3 C4 C5]. constructor; cbn; try done.
      * rewrite uses_move, !uses_eq, Hp, C3. cbn. rewrite Z.eqb_refl. cbn. lia.
      * rewrite destroys_move, Hp, C5. cbn [destroys b2z]. rewrite (proj2 (Z.eqb_neq (active_io c + 1) 0)) by (pose proof (mcount_nonneg (uses k) (pcs p)); lia).
        by rewrite Hcl.
  - apply (LinksOk_ext _ (fun u => if decide (u = t) then Loop k fr else pc p u)); [intros u; by rewrite pipe_pc_set|]. destruct (iv_links _ I) as [K1 K2 K3].
    constructor; intros u; cbn [links set_pc set_links]; rewrite links_put; destruct (decide (u = t)) as [->|]; cbn; auto; try done; by intros j [= <-].
  - by eapply (data_chan p _ k c).
  - intros u g. rewrite pipe_pc_set. destruct (decide (u = t)); [by intros [= <-]|apply I].
Qed.

Lemma clone_keeps p f nf : Inv p -> files p !! f <> None -> files p !! nf = None -> safe (ClonePipeEnd f nf p).
Proof.
  intros I Hf Hnf. unfold ClonePipeEnd. destruct (files p !! f) as [[k d]|] eqn:Ef; [|done]. destruct (file_alive p k d f (iv_life _ I) Ef) as (c & Hc & Ct).
  unfold with_chan. rewrite Hc. destruct (open_end _ _ _ _ _ _ Ct Ef) as [Hpos Hcl]. set (c' := match d with Reader => _ | Writer => _ end).
  assert (forall j e, mcount (is_end j e) (<[nf := (k, d)]> (files p)) = mcount (is_end j e) (files p) + b2z ((k =? j) && bool_decide (d = e))) as Hm.
  { intros j e. rewrite mcount_insert, is_end_eq. unfold at_key. rewrite Hnf. cbn [b2z]. lia. }
  cbn [safe]. constructor; [|apply I| |apply I].
  - cbn. apply (life_change (channels p) _ (files p) _ (pcs p) _ k (iv_life _ I)).
    + intros j Hj. rewrite lookup_insert_ne by done. split; [done|]. split; [|done]. intros e. rewrite Hm, (proj2 (Z.eqb_neq k j)) by done. cbn. lia.
    + rewrite lookup_insert_eq. destruct Ct as [C0 C1 C2 C3 C4 C5]. unfold c'. destruct d; cbn [ends] in Hpos; constructor; cbn -[mcount]; rewrite ?Hm, ?Z.eqb_refl; cbn -[mcount]; try done; try lia.
      all: first [rewrite bool_decide_true by done|rewrite bool_decide_false by done]; cbn [b2z]; lia.
  - eapply (data_chan p _ k c); try done. by destruct d.
Qed.

Lemma create_keeps p k r w : Inv p -> k <> 0 -> channels p !! k = None -> r <> w -> files p !! r = None -> files p !! w = None -> Inv (CreatePipe k r w p).
Proof.
  intros I Hk Hc Hrw Hr Hw. pose proof (iv_life _ I k) as G. rewrite Hc in G. destruct G as (G1 & G2 & G3 & G4).
  assert (forall j e, mcount (is_end j e) (<[w := (k, Writer)]> (<[r := (k, Reader)]> (files p))) = mcount (is_end j e) (files p) + b2z (k =? j)) as Hm.
  { intros j e. rewrite mcount_insert, mcount_insert, !is_end_eq. unfold at_key. rewrite lookup_insert_ne, Hr, Hw by done. destruct (k =? j), e; cbn [andb]; repeat first [rewrite bool_decide_true by done|rewrite bool_decide_false by done]; cbn [b2z]; lia. }
  constructor; cbn.
  - apply (life_change (channels p) _ (files p) _ (pcs p) _ k (iv_life _ I)).
    + intros j Hj. rewrite lookup_insert_ne by done. split; [done|]. split; [|done]. intros e. rewrite Hm, (proj2 (Z.eqb_neq k j)) by done. cbn. lia.
    + rewrite lookup_insert_eq. constructor; cbn -[mcount]; rewrite ?Hm, ?Z.eqb_refl; cbn -[mcount]; lia || done.
  - apply I.
  - intros j c Hj. unfold stream, sent_to, received_from. cbn. destruct (decide (j = k)) as [->|Hn].
    + rewrite lookup_insert_eq in Hj. injection Hj as <-. rewrite !lookup_delete_eq. cbn. rewrite ring_new_list. split; [done|]. split; [constructor|cbn; lia].
    + rewrite lookup_insert_ne in Hj by done. rewrite !lookup_delete_ne by done. by apply (iv_data _ I).
  - apply I.
Qed.

(** Closing an end: the counters, the mark and the destroyer. *)
Lemma close_life p t f k d c c' ls wake r : Inv p -> pc p t = Outside -> files p !! f = Some (k, d) -> channels p !! k = Some c ->
  ends d c' = ends d c - 1 -> ends (flip d) c' = ends (flip d) c -> active_io c' = active_io c -> closing c' = (reader_count c' =? 0) && (writer_count c' =? 0) ->
  buffer c' = buffer c -> tame (links p) ls ->
  Inv (set_pc t (Closing k wake r (closing c' && (active_io c' =? 0))) (set_links ls (set_files (delete f (files p)) (set_chan k c' p)))).
Proof.
  intros I Hp Ef Hc E1 E2 E3 E4 Eb Ht. pose proof (iv_life _ I k) as Ct. rewrite Hc in Ct. destruct (open_end _ _ _ _ _ _ Ct Ef) as [Hpos Hcl].
  assert (forall j e, mcount (is_end j e) (delete f (files p)) = mcount (is_end j e) (files p) - b2z ((k =? j) && bool_decide (d = e))) as Hm.
  { intros j e. rewrite mcount_delete. unfold at_key. by rewrite Ef, is_end_eq. }
  set (x := Closing k wake r _). constructor.
  - cbn. apply (life_change (channels p) _ (files p) _ (pcs p) _ k (iv_life _ I)).
    + intros j Hj. rewrite lookup_insert_ne by done. split; [done|]. split; [intros e; rewrite Hm, (proj2 (Z.eqb_neq k j)) by done; cbn [andb b2z]; lia|].
      rewrite uses_move, destroys_move, !uses_eq, Hp. unfold x. destruct (closing c' && (active_io c' =? 0)); cbn [user destroys b2z]; rewrite ?(proj2 (Z.eqb_neq k j)) by done; cbn [b2z]; lia.
    + rewrite lookup_insert_eq. destruct Ct as [C0 C1 C2 C3 C4 C5]. constructor; [done| | | |done|].
      * rewrite Hm, Z.eqb_refl. destruct d; cbn [andb ends flip] in *; [rewrite bool_decide_true by done|rewrite bool_decide_false by done]; cbn [b2z]; lia.
      * rewrite Hm, Z.eqb_refl. destruct d; cbn [andb ends flip] in *; [rewrite bool_decide_false by done|rewrite bool_decide_true by done]; cbn [b2z]; lia.
      * rewrite uses_move, !uses_eq, Hp, E3, C3. cbn [user x b2z]. lia.
      * rewrite destroys_move, Hp, C5, Hcl. cbn [andb b2z destroys]. unfold x. destruct (closing c' && (active_io c' =? 0)); cbn [destroys b2z]; rewrite ?Z.eqb_refl; cbn [b2z]; lia.
  - apply (LinksOk_ext _ (fun u => if decide (u = t) then x else pc p u)); [intros u; by rewrite pipe_pc_set|]. apply links_pc; [eapply links_tame; [exact Ht|apply I]|by rewrite Hp|done].
  - by eapply (data_chan p _ k c).
  - intros u g. rewrite pipe_pc_set. destruct (decide (u = t)); [done|apply I].
Qed.

Lemma close_keeps p t f : Inv p -> pc p t = Outside -> files p !! f <> None -> safe (ClosePipe t f p).
Proof.
  intros I Hp Hf. unfold ClosePipe. destruct (files p !! f) as [[k d]|] eqn:Ef; [|done]. destruct (file_alive p k d f (iv_life _ I) Ef) as (c & Hc & Ct).
  unfold with_chan. rewrite Hc. set (c1 := match d with Reader => set_ends _ _ c | Writer => _ end). set (o := match d with Reader => Writer | Writer => Reader end).
  destruct (open_end _ _ _ _ _ _ Ct Ef) as [_ Hcl].
  assert (forall c2 w ls, ends d c2 = ends d c1 -> ends (flip d) c2 = ends (flip d) c1 -> active_io c2 = active_io c -> closing c2 = false -> buffer c2 = buffer c -> tame (links p) ls ->
    let last := (reader_count c2 =? 0) && (writer_count c2 =? 0) in let c3 := if last then set_closing c2 else c2 in
    Inv (set_pc t (Closing k w (reason o) (last && (active_io c3 =? 0))) (set_links ls (set_files (delete f (files p)) (set_chan k c3 p))))) as Hfin.
  { intros c2 w ls H1 H2 H3 H4 H5 H6 last c3. assert (last = closing c3) as El by (unfold c3, last; destruct (_ && _) eqn:E; cbn; [done|by rewrite H4]). rewrite El.
    apply (close_life p t f k d c); try done.
    - transitivity (ends d c2); [unfold c3; destruct last, d; done|]. rewrite H1. unfold c1. by destruct d.
    - transitivity (ends (flip d) c2); [unfold c3; destruct last, d; done|]. rewrite H2. unfold c1. by destruct d.
    - unfold c3. by destruct last.
    - rewrite <- El. assert (reader_count c3 = reader_count c2 /\ writer_count c3 = writer_count c2) as [-> ->] by (unfold c3; by destruct last). done.
    - unfold c3. by destruct last. }
  destruct (ends d c1 =? 0).
  - destruct (PipeTakeWaitList _ (links p)) as [[w ls]| |] eqn:Et; cbn [obind safe]; [|by apply take_no_fault in Et|done].
    apply Hfin; try (unfold c1, o; destruct d; done). by eapply tame_take_list.
  - cbn [obind safe]. apply Hfin; try done; unfold c1; by destruct d.
Qed.

Lemma user_no_destroy p t k : user (pc p t) = Some k -> forall j, destroys j (pc p t) = false.
Proof. by destruct (pc p t). Qed.

(** The end of a thread inside an operation, or outside of any. *)
Definition killable p t : Prop :=
  match user (pc p t) with
  | Some k => pipe_wait_channel (links_of (links p) t) = 0 \/ pipe_wait_channel (links_of (links p) t) = k
  | None => pc p t = Outside /\ pipe_wait_channel (links_of (links p) t) = 0
  end.

Lemma kill_keeps p t : Inv p -> killable p t -> safe (kill t p).
Proof.
  intros I Hk. unfold killable in Hk. unfold kill, CancelPipeWait. destruct (user (pc p t)) as [k|] eqn:Hu.
  2: { destruct Hk as [Hp Hw]. rewrite Hw. cbn [truthy Z.eqb negb]. assert (pipe_io_channel (links_of (links p) t) = 0) as ->.
       { destruct (decide (pipe_io_channel (links_of (links p) t) = 0)) as [|Hn]; [done|]. apply (lk_io _ _ (iv_links _ I)) in Hn. congruence. }
       cbn. apply step_keeps_pc; rewrite ?Hp; done. }
  destruct (user_alive p k t (iv_life _ I) Hu) as (c & Hc & Ct). pose proof (lk_user _ _ (iv_links _ I) t k Hu) as Hio.
  assert ((if truthy (pipe_wait_channel (links_of (links p) t)) then pipe_wait_channel (links_of (links p) t) else pipe_io_channel (links_of (links p) t)) = k) as ->.
  { unfold truthy. destruct (pipe_wait_channel (links_of (links p) t) =? 0) eqn:Ez; cbn [negb]; [done|]. destruct Hk; [lia|done]. }
  rewrite (proj2 (Z.eqb_neq k 0)) by apply Ct. unfold with_chan. rewrite Hc. destruct (PipeRemoveWaiter (read_wait_head c) t (links p)) as [[b1 [h1 ls1]]| |] eqn:E1; cbn [obind]; [|by apply remove_no_fault in E1|done].
  destruct (PipeRemoveWaiter (write_wait_head (set_head Reader h1 c)) t ls1) as [[b2 [h2 ls2]]| |] eqn:E2; cbn [obind]; [|by apply remove_no_fault in E2|done].
  assert (tame (links p) ls2) as Ht by (etrans; by eapply tame_remove). set (c2 := set_head Writer h2 (set_head Reader h1 c)).
  pose proof (used_pos p t k Hu) as Hpos. rewrite <- (ct_active _ _ _ _ Ct) in Hpos.
  assert (truthy (active_io c2) = true) as -> by (unfold truthy; rewrite (proj2 (Z.eqb_neq (active_io c2) 0)) by (cbn; lia); done).
  destruct (Ht t) as [-> _]. rewrite Hio, Z.eqb_refl. cbn [andb obind safe]. set (c3 := set_io (active_io c2 - 1) c2).
  set (x := match (if closing c3 && (active_io c3 =? 0) then Some k else None) with Some j => Destroying j | None => Outside end).
  assert (x = if closing c3 && (active_io c3 =? 0) then Destroying k else Outside) as Ex by (unfold x; by destruct (closing c3 && (active_io c3 =? 0))).
  constructor.
  - cbn. apply (leave_life p t k c); [apply I|done|by eapply user_no_destroy|done|right; done|done].
  - apply (LinksOk_ext _ (fun u => if decide (u = t) then x else pc p u)); [intros u; by rewrite pipe_pc_set|]. cbn. apply LinksOk_leave; [by eapply links_tame; [|apply I]|]. rewrite Ex. by destruct (_ && _).
  - by eapply (data_chan p _ k c).
  - intros u g. rewrite pipe_pc_set. destruct (decide (u = t)); [rewrite Ex; destruct (_ && _); done|apply I].
Qed.

(** A signal for a thread that is blocked in a pipe. *)
Lemma interrupt_keeps p t k r : Inv p -> user (pc p t) = Some k -> waiting (pc p t) = true -> safe (interrupt t r p).
Proof.
  intros I Hu Hw. unfold interrupt. pose proof (cancel_inside p t k I Hu Hw) as Hc. destruct (CancelPipeWait t false p) as [[d p']| |]; [|done|done]. cbn. apply threads_keeps. apply Hc.
Qed.

Lemma pipe_advance_keeps i p t : Inv p -> t <> 0 -> safe (advance i t p).
Proof.
  intros I Ht. assert (forall f, frame_of (pc p t) = Some f -> frame_ok f) as Hfr by apply (iv_frames _ I).
  unfold advance. destruct (pc p t) as [|k f|k f|k f|k f|k f h|k f r|k|k h r d] eqn:Hp.
  - done.
  - destruct (complete f); [apply step_keeps_pc; rewrite ?Hp; done|]. destruct f as [n dst|src n]; [by apply read_turn|by apply write_turn].
  - destruct i; [|by apply (shift_keeps p (links p)); rewrite ?Hp].
    pose proof (cancel_inside p t k I) as Hc. rewrite Hp in Hc. destruct (CancelPipeWait t false p) as [[d p']| |]; [|by apply Hc|done]. destruct Hc as (_ & I' & Ep & _); [done|done|].
    assert (pc p' t = Listed k f) as Hp' by (unfold pc; rewrite Ep; exact Hp). cbn. apply step_keeps_pc; rewrite ?Hp'; done.
  - destruct (negb _); [apply step_keeps_pc; rewrite ?Hp; done|]. destruct i; [|by apply (shift_keeps p (links p)); rewrite ?Hp].
    pose proof (cancel_inside p t k I) as Hc. rewrite Hp in Hc. destruct (CancelPipeWait t false p) as [[d p']| |]; [|by apply Hc|done]. destruct Hc as (_ & I' & Ep & _); [done|done|].
    assert (pc p' t = Blocked k f) as Hp' by (unfold pc; rewrite Ep; exact Hp). cbn. apply (shift_keeps p' (links p')); rewrite ?Hp'; done.
  - destruct i; apply step_keeps_pc; rewrite ?Hp; done.
  - destruct (h =? 0); [apply step_keeps_pc; rewrite ?Hp; done|]. cbn. apply (shift_keeps p); rewrite ?Hp; try done. apply tame_put. cbn. tauto.
  - destruct (release_keeps p t k f r I Hp) as [H1 H2]. unfold advance in H1, H2. rewrite Hp in H1, H2. done.
  - pose proof (destroy_keeps i p t k I Hp) as H. unfold advance in H. by rewrite Hp in H.
  - destruct (h =? 0); [destruct d; apply step_keeps_pc; rewrite ?Hp; done|]. cbn. apply (shift_keeps p); rewrite ?Hp; try done. apply tame_put. cbn. tauto.
Qed.

End Life.
