(* ===== verification/PipeLists.v ===== *)
(** * Pipes: the wait lists

    The wait lists are doubly linked through the threads; taking a list reverses it into a singly
    linked private list.  They implement lists of threads. *)
From S2P Require Import Prelude Pipe PipeProof.

Definition first_or (l : list Z) (n : Z) : Z := default n (head l).
Definition last_or (l : list Z) (p : Z) : Z := default p (last l).

Lemma last_or_snoc a u p : last_or (a ++ [u]) p = u.
Proof. unfold last_or. by rewrite last_snoc. Qed.

(** A segment of a wait list of channel [k], between [prev] and [next]. *)
Fixpoint segment (ls : Links) (k prev : Z) (l : list Z) (next : Z) : Prop :=
  match l with
  | [] => True
  | t :: rest => t <> 0 /\ pipe_wait_channel (links_of ls t) = k /\ pipe_wait_prev (links_of ls t) = prev /\
      pipe_wait_next (links_of ls t) = first_or rest next /\ segment ls k t rest next
  end.
Definition wait_list (ls : Links) (k head : Z) (l : list Z) : Prop := head = first_or l 0 /\ NoDup l /\ segment ls k 0 l 0.

(** A private list: linked by [pipe_wait_next] only, and no thread of it waits. *)
Fixpoint private (ls : Links) (l : list Z) : Prop :=
  match l with
  | [] => True
  | t :: rest => t <> 0 /\ pipe_wait_channel (links_of ls t) = 0 /\ pipe_wait_prev (links_of ls t) = 0 /\
      pipe_wait_next (links_of ls t) = first_or rest 0 /\ private ls rest
  end.

Lemma segment_frame ls ls' k n l : (forall t, t ∈ l -> links_of ls' t = links_of ls t) -> forall p, segment ls k p l n -> segment ls' k p l n.
Proof.
  induction l as [|t l IH]; intros H p; [done|]. cbn. rewrite H by left. intros (?&?&?&?&Hs). split_and!; try done. apply IH; [|done]. intros u Hu. apply H. by right.
Qed.
Lemma private_frame ls ls' l : (forall t, t ∈ l -> links_of ls' t = links_of ls t) -> private ls l -> private ls' l.
Proof.
  induction l as [|t l IH]; intros H; [done|]. cbn. rewrite H by left. intros (?&?&?&?&Hs). split_and!; try done. apply IH; [|done]. intros u Hu. apply H. by right.
Qed.
Lemma segment_app ls k n b a : forall p, segment ls k p (a ++ b) n <-> segment ls k p a (first_or b n) /\ segment ls k (last_or a p) b n.
Proof.
  induction a as [|t a IH]; intros p; [cbn; tauto|]. cbn [app segment]. rewrite IH. assert (last_or (t :: a) p = last_or a t) as ->.
  { unfold last_or. destruct a as [|u a]; [done|]. rewrite last_cons. cbn. destruct (last (u :: a)) eqn:E; [done|]. by apply last_None in E. }
  assert (first_or (a ++ b) n = first_or a (first_or b n)) as -> by (by destruct a). tauto.
Qed.

Lemma segment_set_next ls k p a u n m : u ∉ a -> segment ls k p (a ++ [u]) n -> segment (put u (w_next m) ls) k p (a ++ [u]) m.
Proof.
  intros Hu. rewrite !segment_app. cbn. intros [H1 (Hz & Hc & Hp & Hn & _)]. split.
  - eapply segment_frame; [|exact H1]. intros t Ht. rewrite links_put, decide_False; [done|]. by intros ->.
  - rewrite links_put, decide_True by done. cbn. by split_and!.
Qed.
Lemma segment_set_prev ls k p q u b n : u ∉ b -> segment ls k p (u :: b) n -> segment (put u (w_prev q) ls) k q (u :: b) n.
Proof.
  intros Hu. cbn. intros (Hz & Hc & Hp & Hn & Hs). rewrite links_put, decide_True by done. cbn. split_and!; try done.
  eapply segment_frame; [|exact Hs]. intros t Ht. rewrite links_put, decide_False; [done|]. by intros ->.
Qed.

(** ** Adding *)
Lemma add_waiter_list ls k head l t : k <> 0 -> t <> 0 -> t ∉ l -> wait_list ls k head l ->
  let '(head', ls') := PipeAddWaiter head k t ls in wait_list ls' k head' (t :: l) /\ (forall u, u <> t -> u ∉ l -> links_of ls' u = links_of ls u).
Proof.
  intros Hk Ht Hn (-> & Hd & Hs). unfold PipeAddWaiter, PipeClearWaiter. rewrite (proj2 (Z.eqb_neq t 0) Ht). set (ls1 := put t _ (put t _ ls)).
  assert (forall u, u <> t -> links_of ls1 u = links_of ls u) as H1 by (intros u Hu; unfold ls1; by rewrite !links_put, !decide_False).
  assert (links_of ls1 t = MkPipeThread k (pipe_io_channel (links_of ls t)) 0 (first_or l 0)) as Ht1 by (unfold ls1; by rewrite !links_put, !decide_True).
  assert (segment ls1 k 0 l 0) as Hs1 by (eapply segment_frame; [|exact Hs]; intros u Hu; apply H1; by intros ->).
  destruct l as [|v l]; [change (first_or [] 0) with 0 in *|change (first_or (v :: l) 0) with v in *].
  - cbn. split; [|auto]. split; [done|]. split; [apply NoDup_singleton|]. cbn. rewrite Ht1. by split_and!.
  - apply NoDup_cons in Hd as Hd'. destruct Hd' as [Hv _]. apply not_elem_of_cons in Hn as [Hv1 Hn]. assert (v <> 0) as Hvz by apply Hs. unfold truthy. rewrite (proj2 (Z.eqb_neq v 0) Hvz). cbn [negb].
    split; [|intros u Hu Hul; apply not_elem_of_cons in Hul as [Huv _]; rewrite links_put, decide_False by done; by apply H1].
    split; [done|]. split; [apply NoDup_cons; split; [by apply not_elem_of_cons|done]|]. cbn [segment].
    rewrite links_put, decide_False by done. rewrite Ht1. do 4 (split; [done|]). apply (segment_set_prev ls1 k 0 t v l 0 Hv Hs1).
Qed.

(** ** Taking *)
Lemma take_waiters_list k l : k <> 0 -> forall fuel w ls, (length l <= fuel)%nat -> NoDup (l ++ w) -> (exists p, segment ls k p l 0) -> private ls w ->
  exists ls', take_waiters fuel (first_or l 0) (first_or w 0) ls = Some (first_or (rev l ++ w) 0, ls') /\ private ls' (rev l ++ w) /\
    (forall u, u ∉ l -> links_of ls' u = links_of ls u).
Proof.
  intros Hk. induction l as [|t l IH]; intros fuel w ls Hf Hd [p Hs] Hp.
  { exists ls. cbn. destruct fuel; done. }
  destruct Hs as (Hz & Hc & Hpr & Hn & Hs). cbn [app length] in *. apply NoDup_cons in Hd as [Ht Hd]. destruct fuel as [|fuel]; [cbn in Hf; lia|]. change (first_or (t :: l) 0) with t. cbn [take_waiters].
  rewrite (proj2 (Z.eqb_neq t 0) Hz), Hn. set (ls1 := put t _ (PipeClearWaiter t ls)).
  assert (forall u, u <> t -> links_of ls1 u = links_of ls u) as H1 by (intros u Hu; unfold ls1, PipeClearWaiter; rewrite (proj2 (Z.eqb_neq t 0) Hz); by rewrite !links_put, !decide_False).
  assert (links_of ls1 t = MkPipeThread 0 (pipe_io_channel (links_of ls t)) 0 (first_or w 0)) as Ht1 by (unfold ls1, PipeClearWaiter; rewrite (proj2 (Z.eqb_neq t 0) Hz); by rewrite !links_put, !decide_True).
  rewrite elem_of_app in Ht. destruct (IH fuel (t :: w) ls1) as (ls' & E & Hpv & Hfr).
  - lia.
  - rewrite <- Permutation_middle. apply NoDup_cons. by rewrite elem_of_app.
  - exists t. eapply segment_frame; [|exact Hs]. intros u Hu. apply H1. intros ->. tauto.
  - cbn. rewrite Ht1. split_and!; try done. eapply private_frame; [|exact Hp]. intros u Hu. apply H1. intros ->. tauto.
  - exists ls'. cbn [rev]. rewrite <- app_assoc. split; [exact E|]. split; [exact Hpv|]. intros u Hu. apply not_elem_of_cons in Hu as [Hu1 Hu2]. rewrite Hfr by done. by apply H1.
Qed.

(** A list of threads that wait is not longer than the table of links. *)
Lemma waiters_bound ls k l : forall p n, k <> 0 -> NoDup l -> segment ls k p l n -> (length l <= size ls)%nat.
Proof.
  intros p n Hk Hd Hs. rewrite <- size_dom, <- (size_list_to_set (C := gset Z) l Hd). apply subseteq_size. intros t Ht. apply elem_of_list_to_set in Ht. apply elem_of_dom.
  assert (pipe_wait_channel (links_of ls t) = k) as Hc.
  { revert p Hs. clear Hd. induction l as [|u l IH]; intros p Hs; [by apply elem_of_nil in Ht|]. destruct Hs as (_ & Hc & _ & _ & Hs). apply elem_of_cons in Ht as [->|Ht]; [done|]. by eapply IH. }
  unfold links_of in Hc. destruct (ls !! t) as [x|]; [by exists x|]. by cbn in Hc.
Qed.

Lemma take_list ls k head l : k <> 0 -> wait_list ls k head l ->
  exists ls', PipeTakeWaitList head ls = Ok (first_or (rev l) 0, ls') /\ private ls' (rev l) /\ (forall u, u ∉ l -> links_of ls' u = links_of ls u).
Proof.
  intros Hk (-> & Hd & Hs). pose proof (waiters_bound ls k l 0 0 Hk Hd Hs) as Hb. destruct (take_waiters_list k l Hk (2 * walk_fuel ls) [] ls) as (ls' & E & Hp & Hf).
  - unfold walk_fuel. lia.
  - by rewrite app_nil_r.
  - by exists 0.
  - done.
  - rewrite app_nil_r in *. exists ls'. unfold PipeTakeWaitList. change (first_or [] 0) with 0 in E. by rewrite E.
Qed.

(** ** Removing *)
Lemma seek_found ls k t b a : forall fuel p, t ∉ a -> (length a <= fuel)%nat -> segment ls k p (a ++ t :: b) 0 -> seek_waiter fuel (first_or (a ++ t :: b) 0) t ls = Some t.
Proof.
  induction a as [|u a IH]; intros fuel p Ha Hf Hs; [change (first_or ([] ++ t :: b) 0) with t|change (first_or ((u :: a) ++ t :: b) 0) with u].
  - destruct fuel; cbn; by rewrite Z.eqb_refl, orb_true_r.
  - destruct Hs as (Hz & _ & _ & Hn & Hs). apply not_elem_of_cons in Ha as [Hut Ha]. destruct fuel as [|fuel]; [cbn in Hf; lia|]. cbn [seek_waiter].
    rewrite (proj2 (Z.eqb_neq u 0) Hz), (proj2 (Z.eqb_neq u t)) by done. cbn [orb]. rewrite Hn. cbn in Hf. apply (IH fuel u); [done|lia|done].
Qed.
Lemma seek_missing ls k t l : forall fuel p, t ∉ l -> (length l <= fuel)%nat -> segment ls k p l 0 -> seek_waiter fuel (first_or l 0) t ls = Some 0.
Proof.
  induction l as [|u l IH]; intros fuel p Ha Hf Hs; [by destruct fuel|change (first_or (u :: l) 0) with u].
  destruct Hs as (Hz & _ & _ & Hn & Hs). apply not_elem_of_cons in Ha as [Hut Ha]. destruct fuel as [|fuel]; [cbn in Hf; lia|]. cbn [seek_waiter].
  rewrite (proj2 (Z.eqb_neq u 0) Hz), (proj2 (Z.eqb_neq u t)) by done. cbn [orb]. rewrite Hn. cbn in Hf. apply (IH fuel u); [done|lia|done].
Qed.

Definition others (t : Z) (l : list Z) : list Z := filter (fun u => u <> t) l.
Lemma others_id t l : t ∉ l -> others t l = l.
Proof.
  unfold others. induction l as [|u l IH]; intros H; [done|]. apply not_elem_of_cons in H as [Hu H]. rewrite filter_cons_True by (by apply not_eq_sym). by rewrite IH.
Qed.
Lemma others_cut t a b : t ∉ a -> t ∉ b -> others t (a ++ t :: b) = a ++ b.
Proof. intros Ha Hb. unfold others. rewrite filter_app, filter_cons_False by (intros H; by apply H). fold (others t a) (others t b). by rewrite !others_id. Qed.

(** The links after the removal of [t] between [a] and [b]: the neighbours are joined. *)
Lemma unlink_segments ls ls2 k t a b : t <> 0 -> NoDup (a ++ t :: b) -> segment ls k 0 (a ++ t :: b) 0 ->
  (forall u, u ∉ a -> u ∉ b -> links_of ls2 u = links_of ls u) ->
  ls2 = (let ls1 := if truthy (last_or a 0) then put (last_or a 0) (w_next (first_or b 0)) ls else ls in
         if truthy (first_or b 0) then put (first_or b 0) (w_prev (last_or a 0)) ls1 else ls1) ->
  segment ls2 k 0 (a ++ b) 0.
Proof.
  intros Ht Hd Hs _ ->. apply segment_app in Hs as [Ha Hb]. destruct Hb as (_ & _ & _ & _ & Hb). apply NoDup_app in Hd as (Hda & Hab & Hdb). apply NoDup_cons in Hdb as [Htb Hdb].
  assert (segment (if truthy (last_or a 0) then put (last_or a 0) (w_next (first_or b 0)) ls else ls) k 0 a (first_or b 0) /\
          segment (if truthy (last_or a 0) then put (last_or a 0) (w_next (first_or b 0)) ls else ls) k t b 0) as [Ha1 Hb1].
  { destruct a as [|u a _] using rev_ind; [done|]. rewrite !last_or_snoc. assert (u <> 0) as Hu by (apply segment_app in Ha as [_ Ha]; apply Ha).
    unfold truthy. rewrite (proj2 (Z.eqb_neq u 0) Hu). cbn [negb]. split.
    - apply NoDup_app in Hda as (_ & Hn & _). eapply segment_set_next; [|exact Ha]. intros Hx. apply (Hn u Hx). left.
    - eapply segment_frame; [|exact Hb]. intros v Hv. rewrite links_put, decide_False; [done|]. intros ->. apply (Hab u); [|by right]. apply elem_of_app. right. left. }
  set (ls1 := if truthy (last_or a 0) then _ else ls) in *. cbv zeta. apply segment_app. destruct b as [|v b]; [done|]. change (first_or (v :: b) 0) with v in *.
  assert (v <> 0) as Hv by apply Hb1. unfold truthy at 1 2. rewrite (proj2 (Z.eqb_neq v 0) Hv). cbn [negb]. apply NoDup_cons in Hdb as [Hvb _]. split.
  - eapply segment_frame; [|exact Ha1]. intros u Hu. rewrite links_put, decide_False; [done|]. intros ->. apply (Hab v Hu). right. left.
  - by eapply segment_set_prev.
Qed.

Lemma remove_list ls k head l t : k <> 0 -> t <> 0 -> wait_list ls k head l ->
  exists head' ls', PipeRemoveWaiter head t ls = Ok (bool_decide (t ∈ l), (head', ls')) /\ wait_list ls' k head' (others t l) /\
    (t ∈ l -> pipe_wait_channel (links_of ls' t) = 0) /\ (forall u, u ∉ l -> links_of ls' u = links_of ls u).
Proof.
  intros Hk Ht (-> & Hd & Hs). pose proof (waiters_bound ls k l 0 0 Hk Hd Hs) as Hb. unfold PipeRemoveWaiter. rewrite (proj2 (Z.eqb_neq t 0) Ht).
  destruct (decide (t ∈ l)) as [Hin|Hno].
  2: { rewrite (seek_missing ls k t l _ 0) by (done || unfold walk_fuel; lia). cbn. rewrite bool_decide_false by done. exists (first_or l 0), ls. rewrite others_id by done. done. }
  apply list_elem_of_split in Hin as Hsp. destruct Hsp as (a & b & ->). rewrite bool_decide_true by done. pose proof Hd as Hd'. apply NoDup_app in Hd' as (Hda & Hab & Hdb). apply NoDup_cons in Hdb as [Htb Hdb].
  assert (t ∉ a) as Hta by (intros Hx; apply (Hab t Hx); left). rewrite length_app in Hb. cbn [length] in Hb. rewrite (seek_found ls k t b a _ 0) by (done || unfold walk_fuel; lia).
  rewrite (proj2 (Z.eqb_neq t 0) Ht). apply segment_app in Hs as Hs'. destruct Hs' as [Ha (_ & _ & Hp & Hn & Hsb)]. rewrite Hp, Hn, others_cut by done.
  set (x := if truthy (last_or a 0) then _ else _). assert (x = (first_or (a ++ b) 0, if truthy (last_or a 0) then put (last_or a 0) (w_next (first_or b 0)) ls else ls)) as ->.
  { unfold x, truthy. destruct a as [|u a _] using rev_ind; [done|]. rewrite !last_or_snoc. assert (u <> 0) as Hu by (apply segment_app in Ha as [_ Ha]; apply Ha).
    rewrite (proj2 (Z.eqb_neq u 0) Hu). cbn [negb]. f_equal. by destruct a. }
  set (ls1 := if truthy (last_or a 0) then put _ _ ls else ls). assert (links_of ls1 t = links_of ls t) as Et.
  { unfold ls1. destruct (truthy (last_or a 0)); [|done]. rewrite links_put, decide_False; [done|]. destruct a as [|u a _] using rev_ind; [done|]. rewrite last_or_snoc. intros ->. apply Hta, elem_of_app. right. left. }
  rewrite Et, Hp. eexists _, _. split; [done|]. set (ls2 := if truthy (first_or b 0) then _ else ls1).
  assert (forall u, u <> t -> links_of (PipeClearWaiter t ls2) u = links_of ls2 u) as Hcl by (intros u Hu; unfold PipeClearWaiter; rewrite (proj2 (Z.eqb_neq t 0) Ht), links_put, decide_False; done).
  assert (forall u, u ∉ a -> u ∉ b -> links_of ls2 u = links_of ls u) as Hfr.
  { intros u Hua Hub. assert (links_of ls1 u = links_of ls u) as <-.
    - unfold ls1. destruct (truthy (last_or a 0)) eqn:Etr; [|done]. rewrite links_put, decide_False; [done|]. intros ->. apply Hua. unfold last_or in *. destruct (last a) eqn:El; [|done]. cbn. by apply last_Some_elem_of.
    - unfold ls2. destruct (truthy (first_or b 0)) eqn:Etr; [|done]. rewrite links_put, decide_False; [done|]. intros ->. apply Hub. destruct b; [done|]. left. }
  split; [|split].
  - split; [done|]. split; [apply NoDup_app; split_and!; try done; intros u Hu Hv; apply (Hab u Hu); by right|].
    eapply segment_frame; [|by eapply (unlink_segments ls ls2 k t a b)]. intros u Hu. apply Hcl. intros ->. apply elem_of_app in Hu as [?|?]; done.
  - intros _. unfold PipeClearWaiter. by rewrite (proj2 (Z.eqb_neq t 0) Ht), links_put, decide_True.
  - intros u Hu. rewrite elem_of_app, elem_of_cons in Hu. rewrite Hcl by (intros ->; tauto). apply Hfr; tauto.
Qed.

(** C27: The wait lists implement lists of threads.  With the doubly linked list of [head] holding [l],
    [PipeAddWaiter] puts a thread in front, [PipeRemoveWaiter] finds a thread in any position, joins
    its neighbours and tells whether it was there, and [PipeTakeWaitList] turns the whole list into a
    private list in the opposite order, the order of arrival, whose threads no longer wait; the walks
    end, and the links of all other threads stay as they are. *)
Theorem wait_lists_refine ls k head l t : k <> 0 -> t <> 0 -> wait_list ls k head l ->
  (t ∉ l -> let '(head', ls') := PipeAddWaiter head k t ls in wait_list ls' k head' (t :: l) /\ (forall u, u ∉ t :: l -> links_of ls' u = links_of ls u)) /\
  (exists head' ls', PipeRemoveWaiter head t ls = Ok (bool_decide (t ∈ l), (head', ls')) /\ wait_list ls' k head' (others t l) /\
    (t ∈ l -> pipe_wait_channel (links_of ls' t) = 0) /\ (forall u, u ∉ l -> links_of ls' u = links_of ls u)) /\
  (exists ls', PipeTakeWaitList head ls = Ok (first_or (rev l) 0, ls') /\ private ls' (rev l) /\ (forall u, u ∉ l -> links_of ls' u = links_of ls u)).
Proof.
  intros Hk Ht Hw. split; [|split].
  - intros Hn. pose proof (add_waiter_list ls k head l t Hk Ht Hn Hw) as H. destruct (PipeAddWaiter head k t ls) as [h' ls']. destruct H as [H1 H2]. split; [done|].
    intros u Hu. apply not_elem_of_cons in Hu as [? ?]. by apply H2.
  - exact (remove_list ls k head l t Hk Ht Hw).
  - exact (take_list ls k head l Hk Hw).
Qed.
