(* ===== verification/PipeClaims.v ===== *)
(** * Pipes: the promises *)
From S2P Require Import Prelude Pipe PipeProof PipeLists.

Section Claims.
Context {B : Type} `{!ByteRing B, !ByteRingLaws B} {T : Type} `{!PipeThreads T}.
Implicit Types (p : Pipes B T).

(** A call that begins. *)
Definition fresh_frame (f : Frame) : Prop := match f with Rd _ dst => dst = [] | Wr src n => n = 0%nat /\ Forall is_byte src end.

(** What may happen: pipes are created, ends are cloned and closed, calls begin and make steps, with
    and without signals, blocked threads are interrupted, threads end, and the scheduler does
    anything at all. *)
Inductive pipe_step : Pipes B T -> Pipes B T -> Prop :=
  | step_create k r w p : k <> 0 -> channels p !! k = None -> r <> w -> files p !! r = None -> files p !! w = None -> pipe_step p (CreatePipe k r w p)
  | step_clone f nf p p' : files p !! f <> None -> files p !! nf = None -> ClonePipeEnd f nf p = Ok p' -> pipe_step p p'
  | step_close t f p p' : t <> 0 -> pc p t = Outside -> files p !! f <> None -> ClosePipe t f p = Ok p' -> pipe_step p p'
  | step_start t f fr p p' : t <> 0 -> pc p t = Outside -> files p !! f <> None -> fresh_frame fr -> start t f fr p = Ok p' -> pipe_step p p'
  | step_advance i t p p' : t <> 0 -> advance i t p = Ok p' -> pipe_step p p'
  | step_interrupt t r p p' : waiting (pc p t) = true -> interrupt t r p = Ok p' -> pipe_step p p'
  | step_kill t p p' : killable p t -> kill t p = Ok p' -> pipe_step p p'
  | step_threads s p : pipe_step p (set_threads s p).

Inductive pipe_reachable : Pipes B T -> Prop :=
  | reach_empty s : pipe_reachable (MkPipes ∅ [] ∅ s ∅ ∅ ∅ ∅)
  | reach_next p p' : pipe_reachable p -> pipe_step p p' -> pipe_reachable p'.

Lemma fresh_ok f : fresh_frame f -> frame_ok f.
Proof. destruct f; cbn; [intros ->; cbn; lia|]. intros [-> H]. split; [done|lia]. Qed.
Lemma waiting_user x : waiting x = true -> exists k, user x = Some k.
Proof. destruct x; try done; by eexists. Qed.
Lemma safe_ok (o : Outcome (Pipes B T)) p : safe o -> o = Ok p -> Inv p.
Proof. by intros H ->. Qed.

Lemma pipe_step_keeps p p' : Inv p -> pipe_step p p' -> Inv p'.
Proof.
  intros I H. destruct H as [k r w p|f nf p p'|t f p p' Ht Hp Hf E|t f fr p p' Ht Hp Hf Hfr E|i t p p' Ht E|t r p p' Hw E|t p p' Hk E|s p].
  - by apply create_keeps.
  - by eapply safe_ok; [apply (clone_keeps p f nf)|].
  - by eapply safe_ok; [apply (close_keeps p t f)|].
  - eapply safe_ok; [apply (start_keeps p t f fr)|]; try done. by apply fresh_ok.
  - by eapply safe_ok; [apply (pipe_advance_keeps i p t)|].
  - destruct (waiting_user _ Hw) as [k Hk]. by eapply safe_ok; [apply (interrupt_keeps p t k r)|].
  - by eapply safe_ok; [apply (kill_keeps p t)|].
  - by apply threads_keeps.
Qed.
Lemma pipe_inv p : pipe_reachable p -> Inv p.
Proof.
  induction 1 as [s|p p' _ IH H]; [|by eapply pipe_step_keeps]. assert (forall (A : Type) (P : A -> bool), mcount P ∅ = 0) as Hz by (intros; apply mcount_none; intros i x; by rewrite lookup_empty). constructor.
  - intros k. cbn. rewrite lookup_empty. unfold Gone. by rewrite !Hz.
  - constructor; intros t; unfold pc, links_of; cbn; by rewrite !lookup_empty.
  - intros k c. cbn. by rewrite lookup_empty.
  - intros t f. unfold pc. cbn. by rewrite lookup_empty.
Qed.

(** C24: A pipe is a queue of bytes.  Whatever the interleaving of readers and writers, the signals, the
    ends of threads and the scheduling: the bytes that were ever put into a pipe are exactly those
    that were taken out of it, in the same order, followed by those in its ring, which never holds
    more than its size. *)
Theorem pipe_stream p k c : pipe_reachable p -> channels p !! k = Some c ->
  sent_to p k = received_from p k ++ ring_list (buffer c) /\ (length (ring_list (buffer c)) <= ring_room)%nat.
Proof. intros I%pipe_inv Hc. destruct (iv_data _ I k c Hc) as (H1 & _ & H2). done. Qed.

(** C25: No freed channel is used, and no channel leaks.  In every reachable state no step of a thread
    touches a channel that was freed, nor do a call or a close on an open file; an open file has an
    allocated channel that is not marked as closing; and a channel with no open file, no thread
    inside an operation and no thread about to free it has been freed. *)
Theorem pipe_lifetime p : pipe_reachable p ->
  (forall i t, t <> 0 -> advance i t p <> Fault) /\
  (forall t f fr, pc p t = Outside -> files p !! f <> None -> fresh_frame fr -> start t f fr p <> Fault /\ ClosePipe t f p <> Fault) /\
  (forall f k d, files p !! f = Some (k, d) -> exists c, channels p !! k = Some c /\ closing c = false /\ 0 < ends d c) /\
  (forall k, (forall f d, files p !! f <> Some (k, d)) -> (forall t, user (pc p t) <> Some k) -> (forall t, destroys k (pc p t) = false) -> channels p !! k = None).
Proof.
  intros I%pipe_inv. split; [|split; [|split]].
  - intros i t Ht E. pose proof (pipe_advance_keeps i p t I Ht) as H. by rewrite E in H.
  - intros t f fr Hp Hf Hfr. split; intros E; [pose proof (start_keeps p t f fr I Hp Hf (fresh_ok _ Hfr)) as H|pose proof (close_keeps p t f I Hp Hf) as H]; by rewrite E in H.
  - intros f k d Ef. destruct (file_alive p k d f (iv_life _ I) Ef) as (c & Hc & Ct). exists c. destruct (open_end _ _ _ _ _ _ Ct Ef). done.
  - intros k Hf Hu Hd. pose proof (iv_life _ I k) as L. destruct (channels p !! k) as [c|]; [exfalso|done]. destruct L as [C0 C1 C2 C3 C4 C5].
    assert (forall d, mcount (is_end k d) (files p) = 0) as Hz by (intros d; apply mcount_none; intros f x E; unfold is_end; apply bool_decide_false; intros ->; by apply (Hf f d)).
    assert (mcount (uses k) (pcs p) = 0) as Hz2.
    { apply mcount_none. intros t x E. unfold uses. apply bool_decide_false. intros Hx. apply (Hu t). unfold pc. by rewrite E. }
    assert (mcount (destroys k) (pcs p) = 0) as Hz3.
    { apply mcount_none. intros t x E. specialize (Hd t). unfold pc in Hd. by rewrite E in Hd. }
    rewrite C4, C1, C2, C3, !Hz, Hz2, Hz3 in C5. done.
Qed.

(** C26: What one turn of a call does.  A read with bytes in the ring takes as many as it still needs,
    at least one, and appends them to its buffer; without bytes it ends if there is no writer, and
    waits otherwise.  A write ends with -1 if there is no reader, waits if the ring is full, and
    otherwise puts at least one of its remaining bytes, in order, into the ring.  Either wakes the
    other side after it moved bytes. *)
Theorem pipe_transfer p i t p' : pipe_reachable p -> t <> 0 -> advance i t p = Ok p' ->
  (forall k count dst c, pc p t = Loop k (Rd count dst) -> (length dst < count)%nat -> channels p !! k = Some c ->
     match ring_list (buffer c) with
     | [] => pc p' t = (if writer_count c =? 0 then Leaving k (Rd count dst) (Z.of_nat (length dst)) else Listed k (Rd count dst)) /\ received_from p' k = received_from p k
     | bs => exists l w, l = take (count - length dst) bs /\ l <> [] /\ pc p' t = Waking k (Rd count (dst ++ l)) w /\ received_from p' k = received_from p k ++ l
     end) /\
  (forall k src n c, pc p t = Loop k (Wr src n) -> (n < length src)%nat -> channels p !! k = Some c ->
     if reader_count c =? 0 then pc p' t = Leaving k (Wr src n) (-1) /\ sent_to p' k = sent_to p k
     else if is_full (buffer c) then pc p' t = Listed k (Wr src n) /\ sent_to p' k = sent_to p k
     else exists m w, (0 < m)%nat /\ (n + m <= length src)%nat /\ pc p' t = Waking k (Wr src (n + m)) w /\ sent_to p' k = sent_to p k ++ take m (drop n src)).
Proof.
  intros I%pipe_inv Ht E. unfold advance in E. split.
  - intros k count dst c Hp Hl Hc. rewrite Hp in E. cbn [complete] in E. rewrite (proj2 (Nat.leb_gt _ _) Hl) in E. unfold ReadPipe, with_chan in E. rewrite Hc in E.
    destruct (iv_data _ I k c Hc) as (Hs & Hb & _). destruct (is_empty (buffer c)) eqn:Ee.
    + apply ring_empty_list in Ee. rewrite Ee. destruct (writer_count c =? 0); [injection E as <-; by rewrite pipe_pc_set, decide_True|].
      unfold enlist in E. destruct (PipeAddWaiter _ _ _ _) as [h ls]. injection E as <-. by rewrite pipe_pc_set, decide_True.
    + destruct (drain_spec (count - length dst) (buffer c) Hb) as (b & Ed & _). rewrite Ed in E. destruct (PipeTakeWaitList _ _) as [[w ls]| |]; [|done|done]. cbn in E. injection E as <-.
      destruct (ring_list (buffer c)) as [|x l] eqn:El; [apply ring_empty_list in El; congruence|]. exists (take (count - length dst) (x :: l)), w. rewrite pipe_pc_set, decide_True by done.
      split; [done|]. split; [destruct (count - length dst)%nat eqn:En; [lia|done]|]. split; [done|]. unfold received_from. cbn. by rewrite lookup_insert_eq.
  - intros k src n c Hp Hl Hc. rewrite Hp in E. cbn [complete] in E. rewrite (proj2 (Nat.leb_gt _ _) Hl) in E. unfold WritePipe, with_chan in E. rewrite Hc in E.
    destruct (reader_count c =? 0); [injection E as <-; by rewrite pipe_pc_set, decide_True|]. destruct (is_full (buffer c)) eqn:Ef.
    { unfold enlist in E. destruct (PipeAddWaiter _ _ _ _) as [h ls]. injection E as <-. by rewrite pipe_pc_set, decide_True. }
    destruct (ring_out_list (drop n src) (buffer c)) as [E1 _]. destruct (ring_out (drop n src) (buffer c)) as [written b]. cbn [fst] in E1. subst written. rewrite Nat2Z.id in E.
    destruct (PipeTakeWaitList _ _) as [[w ls]| |]; [|done|done]. cbn in E. injection E as <-. rewrite length_drop. set (m := Nat.min _ _). exists m, w. rewrite pipe_pc_set, decide_True by done.
    assert (~ (ring_room <= length (ring_list (buffer c)))%nat) as Hroom by (rewrite <- ring_full_list; by rewrite Ef).
    split; [lia|]. split; [lia|]. split; [done|]. unfold sent_to. cbn. by rewrite lookup_insert_eq.
Qed.

End Claims.
