(* ===== verification/PipeWitness.v ===== *)
(** * Pipes on a running machine

    A ring of 4096 bytes and the scheduler under the pipes; a transfer between two processors, in
    which the second wake-up of the reader is lost; and a wait list that a signal corrupts. *)
From S2P Require Import Prelude Sched SchedProof SchedSwitch SchedSys SchedClaims Pipe PipeProof PipeLists PipeClaims.

Module PipeWitness.
Import SchedWitness.

#[local] Instance ListRing : ByteRing (list Z) := {
  ring_new := [];
  is_empty b := match b with [] => true | _ => false end;
  is_full b := (4096 <=? length b)%nat;
  ring_inn b := match b with [] => (-1, []) | x :: l => (x, l) end;
  ring_out data b := let n := Nat.min (length data) (4096 - length b) in (Z.of_nat n, b ++ take n data);
}.
#[local] Program Instance ListRingLaws : ByteRingLaws (list Z) := { ring_list b := b; ring_room := 4096%nat }.
Next Obligation. lia. Qed.
Next Obligation. done. Qed.
Next Obligation. by intros []. Qed.
Next Obligation. intros b. cbn [is_full ListRing]. by rewrite Nat.leb_le. Qed.
Next Obligation. by intros b ->. Qed.
Next Obligation. by intros b x l ->. Qed.
Next Obligation. done. Qed.

#[local] Instance SchedPipes : PipeThreads Sched := {
  pipe_block t r := Block t r;
  pipe_unblock t r := Unblock t r;
  pipe_pended s t := bool_decide (state (thread s t) = State.Pended);
  pipe_schedule t s := result s (Schedule D true (Z.to_nat (processor_id (thread s t))) s);
}.
Abbreviation World := (Pipes (list Z) Sched).

Definition get (p : World) (o : Outcome World) : World := match o with Ok x => x | _ => p end.
Definition go (t : Z) (p : World) : World := get p (advance false t p).

(** Thread 2 runs on the first processor, thread 5 on the second; a pipe 100 with the ends 11 and 12.
    Thread 5 wants ten bytes, finds none and blocks. *)
Definition p0 : World := MkPipes ∅ [] ∅ s4 ∅ ∅ ∅ ∅.
Definition p1 : World := CreatePipe 100 11 12 p0.
Definition p2 : World := get p1 (start 5 11 (Rd 10 []) p1).
Definition p3 : World := go 5 (go 5 p2).
(** Thread 2 writes five bytes and wakes thread 5, which has not yet called [Schedule]. *)
Definition p4 : World := get p3 (start 2 12 (Wr [1; 2; 3; 4; 5] 0) p3).
Definition p5 : World := go 2 (go 2 (go 2 (go 2 (go 2 p4)))).
(** Thread 5 goes on, reads the five bytes, finds no more, and is on the wait list again. *)
Definition p6 : World := go 5 (go 5 (go 5 (go 5 p5))).
(** Thread 2 writes five more bytes, takes the list and wakes thread 5. *)
Definition p7 : World := get p6 (start 2 12 (Wr [6; 7; 8; 9; 10] 0) p6).
Definition p8 : World := go 2 (go 2 (go 2 (go 2 (go 2 p7)))).
(** Thread 5 blocks and sleeps. *)
Definition p9 : World := go 5 (go 5 p8).

Lemma reach_go p t : pipe_reachable p -> t <> 0 -> pipe_reachable (go t p).
Proof. intros H Ht. unfold go. destruct (advance false t p) as [p'| |] eqn:E; [|done|done]. eapply reach_next; [exact H|]. by eapply step_advance. Qed.

Lemma reach_p1 : pipe_reachable p1.
Proof. eapply reach_next; [apply (reach_empty s4)|]. apply step_create; done. Qed.
Lemma reach_p3 : pipe_reachable p3.
Proof.
  apply reach_go; [|done]. apply reach_go; [|done]. eapply reach_next; [exact reach_p1|]. apply (step_start 5 11 (Rd 10 [])); [done|vm_compute; reflexivity|vm_compute; discriminate|done|vm_compute; reflexivity].
Qed.
Lemma reach_p4 : pipe_reachable p4.
Proof.
  eapply reach_next; [exact reach_p3|]. apply (step_start 2 12 (Wr [1; 2; 3; 4; 5] 0)); [done|vm_compute; reflexivity|vm_compute; discriminate| |vm_compute; reflexivity].
  split; [done|]. repeat constructor; unfold is_byte; lia.
Qed.
Lemma reach_p9 : pipe_reachable p9.
Proof.
  apply reach_go; [|done]. apply reach_go; [|done]. unfold p8. do 5 (apply reach_go; [|done]). eapply reach_next with (p := p6).
  - unfold p6. do 4 (apply reach_go; [|done]). unfold p5. do 5 (apply reach_go; [|done]). exact reach_p4.
  - apply (step_start 2 12 (Wr [6; 7; 8; 9; 10] 0)); [done|vm_compute; reflexivity|vm_compute; discriminate| |vm_compute; reflexivity].
    split; [done|]. repeat constructor; unfold is_byte; lia.
Qed.

(** A wake-up is lost: the reader sleeps with five bytes in the ring, it is on no wait list and no
    thread is about to wake it.  [Unblock] left no mark, because the reader, although it was
    executing, was in the state [Ready] after the first wake-up. *)
Theorem pipe_wakeup_lost : pc p9 5 = Suspended 100 (Rd 10 [1; 2; 3; 4; 5]) /\ state (thread (threads p9) 5) = State.Pended /\
  block_reason (thread (threads p9) 5) = BR_RecvPipe /\ pc p9 2 = Outside /\
  exists c, channels p9 !! 100 = Some c /\ buffer c = [6; 7; 8; 9; 10] /\ read_wait_head c = 0 /\ write_wait_head c = 0.
Proof. do 4 (split; [vm_compute; reflexivity|]). eexists. split; [vm_compute; reflexivity|]. by vm_compute. Qed.

Lemma stream_witness : exists c, channels p9 !! 100 = Some c /\ sent_to p9 100 = received_from p9 100 ++ buffer c /\ received_from p9 100 = [1; 2; 3; 4; 5].
Proof.
  destruct (channels p9 !! 100) as [c|] eqn:E; [|exfalso; revert E; vm_compute; discriminate]. exists c.
  destruct (pipe_stream p9 100 c reach_p9 E) as [H _]. change (ring_list (buffer c)) with (buffer c) in H. split; [reflexivity|]. split; [exact H|vm_compute; reflexivity].
Defined.

Lemma lifetime_witness : advance false 5 p3 <> Fault /\ exists c, channels p3 !! 100 = Some c /\ closing c = false.
Proof.
  destruct (pipe_lifetime p3 reach_p3) as (H1 & _ & H3 & _). split; [exact (H1 false 5 ltac:(done))|].
  destruct (H3 11 100 Reader) as (c & Hc & Hcl & _); [vm_compute; reflexivity|]. by exists c.
Defined.

Lemma transfer_witness : exists m w, (0 < m)%nat /\ pc (go 2 p4) 2 = Waking 100 (Wr [1; 2; 3; 4; 5] (0 + m)) w.
Proof.
  destruct (pipe_transfer p4 false 2 (go 2 p4) reach_p4) as [_ H]; [done|vm_compute; reflexivity|].
  destruct (channels p4 !! 100) as [c|] eqn:E; [|exfalso; revert E; vm_compute; discriminate].
  assert ((reader_count c =? 0) = false /\ is_full (buffer c) = false) as [E1 E2] by (vm_compute in E; injection E as <-; split; vm_compute; reflexivity).
  specialize (H 100 [1; 2; 3; 4; 5] 0%nat c ltac:(vm_compute; reflexivity) ltac:(cbn; lia) E). rewrite E1, E2 in H. destruct H as (m & w & Hm & _ & Hp & _). exists m, w. split; assumption.
Defined.

(** Threads 7, 8 and 9 on the list of channel 100. *)
Definition three : Links := (PipeAddWaiter 8 100 7 (PipeAddWaiter 9 100 8 (PipeAddWaiter 0 100 9 ∅).2).2).2.
Lemma three_list : wait_list three 100 7 [7; 8; 9].
Proof. split; [done|]. split; [apply (bool_decide_unpack _); vm_compute; exact I|]. do 3 (split; [discriminate|]; do 3 (split; [vm_compute; reflexivity|])). exact I. Qed.
Lemma lists_witness : exists ls', PipeTakeWaitList 7 three = Ok (9, ls') /\ private ls' [9; 8; 7].
Proof. destruct (wait_lists_refine three 100 7 [7; 8; 9] 8) as (_ & _ & ls' & E & Hp & _); [done|done|exact three_list|]. exists ls'. split; assumption. Defined.

(** The same transfer, but thread 5 has a signal when it is about to block, after thread 2 took it from
    the list and woke it: it leaves with a wake-up pending that nobody waits for.  It reads the five
    bytes with its next call; the call after that joins the wait list, does not block, because of the
    pending wake-up, and joins the list a second time: it is its own successor. *)
Definition q1 : World := go 5 p2.
Definition q2 : World := get q1 (start 2 12 (Wr [1; 2; 3; 4; 5] 0) q1).
Definition q3 : World := go 2 (go 2 (go 2 (go 2 (go 2 q2)))).
Definition q4 : World := go 5 (get q3 (advance true 5 q3)).
Definition q5 : World := go 5 (go 5 (go 5 (go 5 (get q4 (start 5 11 (Rd 5 []) q4))))).
Definition q6 : World := go 5 (go 5 (go 5 (go 5 (get q5 (start 5 11 (Rd 10 []) q5))))).
Theorem signal_breaks_list : pc q4 5 = Outside /\ pending_wake (thread (threads q4) 5) = BR_RecvPipe /\ received_from q5 100 = [1; 2; 3; 4; 5] /\ pc q5 5 = Outside /\
  pc q6 5 = Listed 100 (Rd 10 []) /\ pipe_wait_next (links_of (links q6) 5) = 5.
Proof. do 5 (split; [vm_compute; reflexivity|]). vm_compute. reflexivity. Qed.

(** With more waiters the list becomes a ring: thread 8, between 7 and 9, joins again; thread 9 is
    cut off, and the search for a thread that is not on the list never ends. *)
Definition twice : Links := (PipeAddWaiter 7 100 8 three).2.
Theorem double_wait_breaks_list : pipe_wait_next (links_of twice 8) = 7 /\ pipe_wait_next (links_of twice 7) = 8 /\
  (forall fuel, seek_waiter fuel 8 6 twice = None) /\ PipeRemoveWaiter 8 6 twice = Hang.
Proof.
  split; [vm_compute; reflexivity|]. split; [vm_compute; reflexivity|]. split; [|vm_compute; reflexivity].
  assert (forall fuel, seek_waiter fuel 8 6 twice = None /\ seek_waiter fuel 7 6 twice = None) as H; [|intros fuel; apply H].
  assert (pipe_wait_next (links_of twice 8) = 7 /\ pipe_wait_next (links_of twice 7) = 8) as [E1 E2] by (split; vm_compute; reflexivity).
  induction fuel as [|fuel [IH1 IH2]]; [split; reflexivity|]. cbn [seek_waiter]. rewrite E1, E2. split; [exact IH2|exact IH1].
Qed.

End PipeWitness.
