(* ===== verification/Message.v ===== *)
(** * Messages between threads ([mecocoa/message.cpp], lines 13-37, 110-169 and 193-1009; [mecocoa/taskman.cpp], 681-802 and 832-904)

    A thread sends to a thread and blocks until the message is taken; a thread receives from one
    thread, from anyone or from an interrupt.  Senders stand in a queue that is linked through the
    threads themselves, and so do the receivers that wait for a given thread.  Everything is done
    under one spin lock, [comm_lock]; what a thread does under the lock is one step, and threads
    interleave freely between.  The wake-ups happen after the lock was released, along private lists
    that are linked through the same fields as the queues. *)
From S2P Require Import Prelude Sched DeviceEvents.

(** ** Interfaces *)

Record CommMsg := MkMsg { m_address : Z; m_length : Z; m_type : Z; m_src : Z }.

(** The memory of the processes and of the kernel: translation, copies between address spaces, words
    at translated addresses, copies of kernel objects, and the kernel's heap. *)
Class IpcMemory (M : Type) := {
  SeekAddress : Z -> Z -> bool -> M -> Z;
  MccaMemCopyP : Z -> Z -> bool -> Z -> Z -> bool -> Z -> M -> M;
  load_word : Z -> M -> Z;
  store_word : Z -> Z -> M -> M;
  read_msg : Z -> Z -> bool -> M -> CommMsg;
  write_msg : Z -> Z -> bool -> CommMsg -> M -> M;
  write_event : Z -> Z -> bool -> DeviceEvent -> M -> M;
  delete_bytes : Z -> M -> M;
  off_address : Z; off_length : Z; off_type : Z; off_src : Z;
}.

(** [Dchain], the list of asynchronous messages. *)
Class AsyncChain (C : Type) := {
  ac_new : C;
  ac_items : C -> list CommMsg;
  ac_append : CommMsg -> C -> C;
  ac_remove : nat -> C -> C;
  ac_clear : C -> C;
}.
Class AsyncChainLaws (C : Type) `{AsyncChain C} := {
  ac_new_items : ac_items ac_new = [];
  ac_append_items : forall x c, ac_items (ac_append x c) = ac_items c ++ [x];
  ac_remove_items : forall i c, ac_items (ac_remove i c) = delete i (ac_items c);
  ac_clear_items : forall c, ac_items (ac_clear c) = [];
}.

Definition ANYPROC : Z := UMAX - 1.
Definition INTRUPT : Z := UMAX - 2.
Definition DEAD : Z := UMAX.
Definition LIMIT_THREAD_AMSG : nat := 64.
Definition KernelMsg_Interrupt : Z := 0x10000.
Definition KernelMsg_DeviceEvent : Z := 0x10001.
Definition sizeof_DeviceEvent : Z := 32.
Definition BR_SendMsg : Z := 0x2.
Definition BR_RecvMsg : Z := 0x4.
Definition BR_Waiting : Z := 0x8.
Definition BR_Exiting : Z := 0x10.

(** A failed assertion of the kernel; a walk along a list that does not end. *)
Inductive Outcome (A : Type) := Ok (a : A) | Fault | Hang.
Arguments Ok {A} _.
Arguments Fault {A}.
Arguments Hang {A}.
Definition obind {A C} (x : Outcome A) (f : A -> Outcome C) : Outcome C := match x with Ok a => f a | Fault => Fault | Hang => Hang end.
Definition ended {A} (x : option A) : Outcome A := match x with Some a => Ok a | None => Hang end.
#[local] Notation "'let!' x ':=' e 'in' f" := (obind e (fun x => f)) (at level 200, x pattern, right associativity).

(** What the code reads of a thread outside of its communication fields.  It may differ from step to
    step in any way. *)
Record View := MkView { v_tid : Z; v_state : State.t; v_reason : Z; v_process : Z; v_active : bool; v_pending : Z; v_blocked : Z }.
Abbreviation Views := (Z -> View).
Definition interrupted (v : View) : bool := truthy (Z.land (v_pending v) (Z.lnot (v_blocked v))).

(** [LocateThread]; [Locate] and its [main_thread], null if there is no such process. *)
Record Directory := MkDirectory { LocateThread : Z -> Z; LocateMain : Z -> Z }.
Definition resolve (d : Directory) (id : Z) : Z := if truthy (LocateThread d id) then LocateThread d id else LocateMain d id.

Definition gone (x : State.t) : bool := match x with State.Invalid | State.Exited | State.Hanging => true | _ => false end.
Definition CanCommProcess (v : View) : bool := truthy (v_process v) && v_active v.
Definition CanCommThread (vs : Views) (t : Z) : bool :=
  truthy t && negb (gone (v_state (vs t))) && negb (has (v_reason (vs t)) BR_Exiting) && CanCommProcess (vs t).

(** ** Walks along linked threads; [None] is no end within the fuel *)

(** [while (crt && crt != th) { prev = crt; crt = crt->next; }] *)
Fixpoint seek (fuel : nat) (next : Z -> Z) (crt prev th : Z) : option (Z * Z) :=
  if (crt =? 0) || (crt =? th) then Some (prev, crt)
  else match fuel with O => None | S fuel => seek fuel next (next crt) crt th end.

(** [while (prev && prev->next != th) prev = prev->next;] *)
Fixpoint seek_before (fuel : nat) (next : Z -> Z) (prev th : Z) : option Z :=
  if (prev =? 0) || (next prev =? th) then Some prev
  else match fuel with O => None | S fuel => seek_before fuel next (next prev) th end.

(** [while (crt->next) crt = crt->next;] *)
Fixpoint seek_tail (fuel : nat) (next : Z -> Z) (crt : Z) : option Z :=
  if next crt =? 0 then Some crt
  else match fuel with O => None | S fuel => seek_tail fuel next (next crt) end.

Section Messages.
Context {M : Type} `{!IpcMemory M} {C : Type} `{!AsyncChain C} {Q : Type} `{!FixedQueue DeviceEvent Q}.

(** ** Threads *)

Record Comm := MkComm {
  unsolved_msg : Z;
  unsolved_msg_from_kernel : bool;
  send_to_whom : Z;
  recv_fo_whom : Z;
  wait_rupt_no : Z;
  queue_send_queuehead : Z;
  queue_send_queuenext : Z;
  queue_wait_queuehead : Z;
  queue_wait_queuenext : Z;
  async_messages : C;
  device_events : option (DeviceEventQueue Q);
}.
Definition no_comm : Comm := MkComm 0 false 0 0 0 0 0 0 0 ac_new None.
Definition w_unsolved (x : Z) (c : Comm) : Comm :=
  MkComm x (unsolved_msg_from_kernel c) (send_to_whom c) (recv_fo_whom c) (wait_rupt_no c) (queue_send_queuehead c) (queue_send_queuenext c) (queue_wait_queuehead c) (queue_wait_queuenext c) (async_messages c) (device_events c).
Definition w_kernel (x : bool) (c : Comm) : Comm :=
  MkComm (unsolved_msg c) x (send_to_whom c) (recv_fo_whom c) (wait_rupt_no c) (queue_send_queuehead c) (queue_send_queuenext c) (queue_wait_queuehead c) (queue_wait_queuenext c) (async_messages c) (device_events c).
Definition w_to (x : Z) (c : Comm) : Comm :=
  MkComm (unsolved_msg c) (unsolved_msg_from_kernel c) x (recv_fo_whom c) (wait_rupt_no c) (queue_send_queuehead c) (queue_send_queuenext c) (queue_wait_queuehead c) (queue_wait_queuenext c) (async_messages c) (device_events c).
Definition w_fo (x : Z) (c : Comm) : Comm :=
  MkComm (unsolved_msg c) (unsolved_msg_from_kernel c) (send_to_whom c) x (wait_rupt_no c) (queue_send_queuehead c) (queue_send_queuenext c) (queue_wait_queuehead c) (queue_wait_queuenext c) (async_messages c) (device_events c).
Definition w_rupt (x : Z) (c : Comm) : Comm :=
  MkComm (unsolved_msg c) (unsolved_msg_from_kernel c) (send_to_whom c) (recv_fo_whom c) x (queue_send_queuehead c) (queue_send_queuenext c) (queue_wait_queuehead c) (queue_wait_queuenext c) (async_messages c) (device_events c).
Definition w_shead (x : Z) (c : Comm) : Comm :=
  MkComm (unsolved_msg c) (unsolved_msg_from_kernel c) (send_to_whom c) (recv_fo_whom c) (wait_rupt_no c) x (queue_send_queuenext c) (queue_wait_queuehead c) (queue_wait_queuenext c) (async_messages c) (device_events c).
Definition w_snext (x : Z) (c : Comm) : Comm :=
  MkComm (unsolved_msg c) (unsolved_msg_from_kernel c) (send_to_whom c) (recv_fo_whom c) (wait_rupt_no c) (queue_send_queuehead c) x (queue_wait_queuehead c) (queue_wait_queuenext c) (async_messages c) (device_events c).
Definition w_whead (x : Z) (c : Comm) : Comm :=
  MkComm (unsolved_msg c) (unsolved_msg_from_kernel c) (send_to_whom c) (recv_fo_whom c) (wait_rupt_no c) (queue_send_queuehead c) (queue_send_queuenext c) x (queue_wait_queuenext c) (async_messages c) (device_events c).
Definition w_wnext (x : Z) (c : Comm) : Comm :=
  MkComm (unsolved_msg c) (unsolved_msg_from_kernel c) (send_to_whom c) (recv_fo_whom c) (wait_rupt_no c) (queue_send_queuehead c) (queue_send_queuenext c) (queue_wait_queuehead c) x (async_messages c) (device_events c).
Definition w_async (x : C) (c : Comm) : Comm :=
  MkComm (unsolved_msg c) (unsolved_msg_from_kernel c) (send_to_whom c) (recv_fo_whom c) (wait_rupt_no c) (queue_send_queuehead c) (queue_send_queuenext c) (queue_wait_queuehead c) (queue_wait_queuenext c) x (device_events c).
Definition w_events (x : option (DeviceEventQueue Q)) (c : Comm) : Comm :=
  MkComm (unsolved_msg c) (unsolved_msg_from_kernel c) (send_to_whom c) (recv_fo_whom c) (wait_rupt_no c) (queue_send_queuehead c) (queue_send_queuenext c) (queue_wait_queuehead c) (queue_wait_queuenext c) (async_messages c) x.

Abbreviation Threads := (gmap Z Comm).
Definition th (ts : Threads) (t : Z) : Comm := default no_comm (ts !! t).
Definition upd (t : Z) (f : Comm -> Comm) (ts : Threads) : Threads := <[t := f (th ts t)]> ts.
(** No list of distinct threads is longer than the number of threads. *)
Definition walk_fuel (ts : Threads) : nat := S (size ts).
Definition snext (ts : Threads) (t : Z) : Z := queue_send_queuenext (th ts t).
Definition wnext (ts : Threads) (t : Z) : Z := queue_wait_queuenext (th ts t).

Definition CanUseSyncMsgState (vs : Views) (ts : Threads) (t : Z) : bool := CanCommThread vs t && truthy (unsolved_msg (th ts t)).

Fixpoint will_deadlock (fuel : nat) (ts : Threads) (fo crt : Z) : option bool :=
  if truthy (send_to_whom (th ts crt)) && truthy (unsolved_msg (th ts crt)) then
    if send_to_whom (th ts crt) =? fo then Some true
    else match fuel with O => None | S fuel => will_deadlock fuel ts fo (send_to_whom (th ts crt)) end
  else Some false.
Definition msg_send_will_deadlock (ts : Threads) (fo to : Z) : Outcome bool := ended (will_deadlock (walk_fuel ts) ts fo to).

(** ** Queues *)

Definition LinkWaitEntry (t peer : Z) (ts : Threads) : Threads :=
  let ts := upd t (w_wnext (queue_wait_queuehead (th ts peer))) ts in
  upd peer (w_whead t) ts.

Definition UnlinkWaitEntry (t : Z) (ts : Threads) : Outcome Threads :=
  let peer := recv_fo_whom (th ts t) in
  if (peer =? 0) || (peer =? ANYPROC) || (peer =? INTRUPT) then Ok ts else
  let! (prev, crt) := ended (seek (walk_fuel ts) (wnext ts) (queue_wait_queuehead (th ts peer)) 0 t) in
  if crt =? 0 then Ok ts else
  let ts := if truthy prev then upd prev (w_wnext (wnext ts crt)) ts else upd peer (w_whead (wnext ts crt)) ts in
  Ok (upd crt (w_wnext 0) ts).

Definition DropQueuedSender (vs : Views) (to prev sender : Z) (ts : Threads) : Z * Threads :=
  if (to =? 0) || (sender =? 0) then (0, ts) else
  let ts := if sender =? queue_send_queuehead (th ts to) then upd to (w_shead (snext ts sender)) ts
            else if truthy prev then upd prev (w_snext (snext ts sender)) ts else ts in
  let ts := upd sender (fun c => w_snext 0 (w_to 0 c)) ts in
  let ts := if has (v_reason (vs sender)) BR_SendMsg then upd sender (w_unsolved 0) ts else ts in
  (if gone (v_state (vs sender)) then 0 else sender, ts).

(** The end of the queue of [to]. *)
Definition append_sender (fo to : Z) (ts : Threads) : Outcome Threads :=
  let! ts := (if queue_send_queuehead (th ts to) =? 0 then Ok (upd to (w_shead fo) ts)
              else let! crt := ended (seek_tail (walk_fuel ts) (snext ts) (queue_send_queuehead (th ts to))) in
                   Ok (upd crt (w_snext fo) ts)) in
  Ok (upd fo (w_snext 0) ts).

(** Take [fo] out of the queue of [to]; the link of [fo] is reset by the callers. *)
Definition unlink_sender (fo to : Z) (ts : Threads) : Outcome Threads :=
  if queue_send_queuehead (th ts to) =? fo then Ok (upd to (w_shead (snext ts fo)) ts)
  else let! prev := ended (seek_before (walk_fuel ts) (snext ts) (queue_send_queuehead (th ts to)) fo) in
       Ok (if truthy prev then upd prev (w_snext (snext ts fo)) ts else ts).

(** ** Contents *)

Record MsgInfo := MkInfo { pmsg : Z; addr : Z; leng : Z }.
Definition FetchMessage (pb msg : Z) (msg_in_kernel : bool) (m : M) : MsgInfo :=
  let pg_leng := SeekAddress pb (msg +w off_length) msg_in_kernel m in
  let p := SeekAddress pb msg msg_in_kernel m in
  MkInfo p (if truthy p then load_word (p + off_address) m else 0) (if truthy pg_leng then load_word pg_leng m else 0).

(** The bytes, the type and the source of a message, from a sender's to a receiver's buffer. *)
Definition transfer (fo fmsg : Z) (fker : bool) (to tmsg : Z) (tker : bool) (src : Z) (m : M) : M :=
  let f := FetchMessage fo fmsg fker m in
  let t := FetchMessage to tmsg tker m in
  let n := Z.min (leng f) (leng t) in
  let m := if truthy n then MccaMemCopyP (addr t) to tker (addr f) fo fker n m else m in
  let m := if truthy (pmsg t) && truthy (pmsg f) then store_word (pmsg t + off_type) (load_word (pmsg f + off_type) m) m else m in
  if truthy (pmsg t) then store_word (pmsg t + off_src) src m else m.

(** An asynchronous message, to a receiver's buffer. *)
Definition transfer_async (a : CommMsg) (to tmsg : Z) (tker : bool) (m : M) : M :=
  let t := FetchMessage to tmsg tker m in
  let n := Z.min (m_length a) (leng t) in
  let m := if truthy n then MccaMemCopyP (addr t) to tker (m_address a) 0 true n m else m in
  if truthy (pmsg t) then store_word (pmsg t + off_src) (m_src a) (store_word (pmsg t + off_type) (m_type a) m) else m.

Definition WriteDeviceEventMessage (target process : Z) (target_in_kernel : bool) (event : DeviceEvent) (m : M) : bool * M :=
  if target =? 0 then (false, m) else
  let message := read_msg target process target_in_kernel m in
  if (m_address message =? 0) || (m_length message <? sizeof_DeviceEvent) then (false, m) else
  let m := write_event (m_address message) process target_in_kernel event m in
  let message := MkMsg (m_address message) sizeof_DeviceEvent KernelMsg_DeviceEvent (device_handle event) in
  (true, write_msg target process target_in_kernel message m).

(** ** The state *)

(** The arguments of a receive; [lookup] is [fo_th_lookup]. *)
Record Recv := MkRecv { foo : Z; lookup : Z; msg : Z; msg_in_kernel : bool }.

(** What a thread executes. *)
Inductive Pc :=
  | Outside (ret : Z)                     (* not in a call; the result of the last one *)
  | SendBlock (to : Z)                    (* before Block(BR_SendMsg) *)
  | SendSlept (to : Z)                    (* after Schedule *)
  | SendCheck (to : Z)                    (* the two conditions at the end of the loop *)
  | SendAbort (to : Z)                    (* before the section that returns -4 *)
  | RecvBlock (r : Recv)                  (* before Block(BR_RecvMsg) *)
  | RecvSlept (r : Recv)
  | RecvCheck (r : Recv)
  | RecvAbort (r : Recv)
  | RecvSync (r : Recv)                   (* before the look for queued senders *)
  | RecvAsync (r : Recv)                  (* before the look for asynchronous messages *)
  | Waking (send recv : Z) (k : Pc).      (* along the private lists *)

Record Ipc := MkIpc { ths : Threads; mem : M; pcs : gmap Z Pc }.
Definition pc (s : Ipc) (t : Z) : Pc := default (Outside 0) (pcs s !! t).
Definition set_pc (t : Z) (x : Pc) (s : Ipc) : Ipc := MkIpc (ths s) (mem s) (<[t := x]> (pcs s)).
Definition set_ths (ts : Threads) (s : Ipc) : Ipc := MkIpc ts (mem s) (pcs s).
Definition set_mem (m : M) (s : Ipc) : Ipc := MkIpc (ths s) m (pcs s).

(** ** Sending *)

(** [to] is armed for [fo]: the receiver's half of the first branch. *)
Definition armed_for (ts : Threads) (to fo : Z) : bool :=
  truthy (unsolved_msg (th ts to)) && ((recv_fo_whom (th ts to) =? fo) || (recv_fo_whom (th ts to) =? ANYPROC)).

(** [msg_send] up to its wait loop; [vs] holds before the lock, [vs'] under it; [new_amsg] and
    [payload] are what the two allocations return.  The result in the position of [fo] is the returned
    value, [SendBlock] if the thread has to wait. *)
Definition msg_send (d : Directory) (vs vs' : Views) (new_amsg : bool) (payload : Z)
    (fo too msg : Z) (msg_in_kernel is_async : bool) (s : Ipc) : Outcome Ipc :=
  let ret x s := Ok (set_pc fo (Outside x) s) in
  if (too =? 0) || (too =? ANYPROC) then ret 2 s else
  let to := resolve d too in
  if negb (CanCommThread vs fo) || negb (CanCommThread vs to) then ret 1 s else
  if negb (CanCommThread vs' fo) || negb (CanCommThread vs' to) then ret 1 s else
  let ts := ths s in
  let! deadlock := (if is_async then Ok false else msg_send_will_deadlock ts fo to) in
  if deadlock then ret (-1) s else
  let fpb := v_process (vs' fo) in let tpb := v_process (vs' to) in
  if armed_for ts to fo then
    let c := th ts to in
    let m := transfer fpb msg msg_in_kernel tpb (unsolved_msg c) (unsolved_msg_from_kernel c) (v_tid (vs' fo)) (mem s) in
    let! ts := UnlinkWaitEntry to ts in
    ret 0 (set_mem m (set_ths (upd to (fun c => w_fo 0 (w_unsolved 0 c)) ts) s))
  else if is_async then
    if (LIMIT_THREAD_AMSG <=? length (ac_items (async_messages (th ts to))))%nat then ret 3 s else
    let f := FetchMessage fpb msg msg_in_kernel (mem s) in
    if negb new_amsg then ret 1 s else
    if truthy (leng f) && (payload =? 0) then ret 1 s else
    let m := if truthy (leng f) then MccaMemCopyP payload 0 true (addr f) fpb msg_in_kernel (leng f) (mem s) else mem s in
    let a := MkMsg (if truthy (leng f) then payload else 0) (leng f) (if truthy (pmsg f) then load_word (pmsg f + off_type) m else 0) (v_tid (vs' fo)) in
    ret 0 (set_mem m (set_ths (upd to (fun c => w_async (ac_append a (async_messages c)) c) ts) s))
  else if interrupted (vs' fo) then ret (-4) s
  else
    let ts := upd fo (fun c => w_kernel msg_in_kernel (w_unsolved msg (w_to to c))) ts in
    let! ts := append_sender fo to ts in
    Ok (set_pc fo (SendBlock to) (set_ths ts s)).

(** The section that gives a send up. *)
Definition send_abort (fo to : Z) (ts : Threads) : Outcome Threads :=
  let! ts := (if truthy to && (send_to_whom (th ts fo) =? to) then unlink_sender fo to ts else Ok ts) in
  Ok (upd fo (fun c => w_unsolved 0 (w_snext 0 (w_to 0 c))) ts).

(** ** Receiving *)

(** Stale heads of the queue go to the private list [drop]. *)
Fixpoint drop_stale (fuel : nat) (vs : Views) (to drop : Z) (ts : Threads) : option (Z * Threads) :=
  let h := queue_send_queuehead (th ts to) in
  if truthy h && negb (CanUseSyncMsgState vs ts h) then
    match fuel with
    | O => None
    | S fuel =>
      let '(dropped, ts) := DropQueuedSender vs to 0 h ts in
      if truthy dropped then drop_stale fuel vs to dropped (upd dropped (w_snext drop) ts)
      else drop_stale fuel vs to drop ts
    end
  else Some (drop, ts).

(** The sender to be served, with its predecessor; the private list of the dropped ones. *)
Definition select_sender (vs : Views) (to : Z) (r : Recv) (ts : Threads) : Outcome (option (Z * Z) * Z * Threads) :=
  if foo r =? ANYPROC then
    let! (drop, ts) := ended (drop_stale (walk_fuel ts) vs to 0 ts) in
    let h := queue_send_queuehead (th ts to) in
    if h =? 0 then Ok (None, drop, ts)
    else if send_to_whom (th ts h) =? to then Ok (Some (h, 0), drop, ts) else Fault
  else if foo r =? INTRUPT then Ok (None, 0, ts)
  else
    let fo := lookup r in
    if truthy fo && (send_to_whom (th ts fo) =? to) then
      let! (prv, crt) := ended (seek (walk_fuel ts) (snext ts) (queue_send_queuehead (th ts to)) 0 fo) in
      if crt =? 0 then Ok (None, 0, ts)
      else if CanUseSyncMsgState vs ts fo then Ok (Some (fo, prv), 0, ts)
      else
        let '(dropped, ts) := DropQueuedSender vs to prv fo ts in
        if dropped =? 0 then Ok (None, 0, ts) else
        let ts := if has (v_reason (vs dropped)) BR_SendMsg then upd dropped (w_unsolved DEAD) ts else ts in
        Ok (None, dropped, upd dropped (w_snext 0) ts)
    else Ok (None, 0, ts).

(** The sender leaves the queue; [None] if it is not its head and has no predecessor. *)
Definition take_sender (to fo prev : Z) (ts : Threads) : option Threads :=
  if fo =? queue_send_queuehead (th ts to) then Some (upd fo (w_snext 0) (upd to (w_shead (snext ts fo)) ts))
  else if truthy prev then Some (upd fo (w_snext 0) (upd prev (w_snext (snext ts fo)) ts))
  else None.

(** The content of the message of [fo], for the receive [r] of [to]. *)
Definition receive_from (vs : Views) (to fo : Z) (r : Recv) (ts : Threads) (m : M) : M :=
  transfer (v_process (vs fo)) (unsolved_msg (th ts fo)) (unsolved_msg_from_kernel (th ts fo))
    (v_process (vs to)) (msg r) (msg_in_kernel r) (if foo r =? ANYPROC then v_tid (vs fo) else foo r) m.

(** The index of the asynchronous message to be received. *)
Fixpoint find_src (src : Z) (l : list CommMsg) : option nat :=
  match l with [] => None | a :: l => if m_src a =? src then Some O else S <$> find_src src l end.
Definition find_async (foo : Z) (l : list CommMsg) : option nat :=
  if foo =? ANYPROC then match l with [] => None | _ => Some O end
  else if foo =? INTRUPT then None else find_src foo l.

(** The asynchronous message is copied, taken out and freed. *)
Definition take_async (vs : Views) (to : Z) (r : Recv) (s : Ipc) : option Ipc :=
  let c := async_messages (th (ths s) to) in
  match find_async (foo r) (ac_items c) with
  | None => None
  | Some i =>
    let a := nth i (ac_items c) (MkMsg 0 0 0 0) in
    let m := transfer_async a (v_process (vs to)) (msg r) (msg_in_kernel r) (mem s) in
    let m := if truthy (m_address a) then delete_bytes (m_address a) m else m in
    Some (set_mem m (set_ths (upd to (w_async (ac_remove i c)) (ths s)) s))
  end.

Definition special (foo : Z) : bool := (foo =? ANYPROC) || (foo =? INTRUPT).

(** A queued device event, for a receive from anyone or from an interrupt. *)
Definition recv_event (vs : Views) (to : Z) (r : Recv) (q : DeviceEventQueue Q) (s : Ipc) : Z * Ipc :=
  match DequeueDeviceEvent q with
  | (None, q) => (-1, set_ths (upd to (w_events (Some q)) (ths s)) s)
  | (Some event, q) =>
    let '(ok, m) := WriteDeviceEventMessage (msg r) (v_process (vs to)) (msg_in_kernel r) event (mem s) in
    if ok then (0, set_mem m (set_ths (upd to (w_events (Some q)) (ths s)) s))
    else (-1, set_mem m (set_ths (upd to (w_events (Some (QueueDeviceEvent event q).2)) (ths s)) s))
  end.
Definition pending_events (c : Comm) : option (DeviceEventQueue Q) :=
  match device_events c with Some q => if HasPending q then Some q else None | None => None end.

(** The end of the first section of [msg_recv], with no sender to serve. *)
Definition recv_or_wait (vs : Views) (to : Z) (r : Recv) (drop : Z) (s : Ipc) : Ipc :=
  match take_async vs to r s with
  | Some s => set_pc to (Waking drop 0 (Outside 0)) s
  | None =>
    if msg r =? 0 then set_pc to (Waking drop 0 (Outside (-1))) s
    else if interrupted (vs to) then set_pc to (Waking drop 0 (Outside (-4))) s
    else
      let ts := if special (foo r) then ths s else LinkWaitEntry to (lookup r) (ths s) in
      let ts := upd to (fun c => w_fo (if special (foo r) then foo r else lookup r) (w_kernel (msg_in_kernel r) (w_unsolved (msg r) c))) ts in
      set_pc to (Waking drop 0 (RecvBlock r)) (set_ths ts s)
  end.

(** [msg_recv] up to its wait loop. *)
Definition msg_recv (d : Directory) (vs vs' : Views) (to foo msg : Z) (msg_in_kernel : bool) (s : Ipc) : Outcome Ipc :=
  let ret x s := Ok (set_pc to (Outside x) s) in
  if negb (CanCommThread vs to) then ret (-1) s else
  let fo_th_lookup := if special foo then 0 else resolve d foo in
  if negb (special foo) && negb (CanCommThread vs fo_th_lookup) then ret (-1) s else
  let r := MkRecv foo fo_th_lookup msg msg_in_kernel in
  let c := th (ths s) to in
  match (if special foo then pending_events c else None) with
  | Some q => let '(x, s) := recv_event vs' to r q s in ret x s
  | None =>
    if truthy (wait_rupt_no c) && special foo then
      let m := write_msg msg (v_process (vs' to)) msg_in_kernel (MkMsg 0 0 KernelMsg_Interrupt (wait_rupt_no c)) (mem s) in
      ret 0 (set_mem m (set_ths (upd to (w_rupt 0) (ths s)) s))
    else if negb (CanCommThread vs' to) then ret (-1) s
    else
      let! (sel, drop, ts) := select_sender vs' to r (ths s) in
      match sel with
      | Some (fo, prev) =>
        match take_sender to fo prev ts with
        | None => ret 1 (set_ths ts s)
        | Some ts =>
          if CanUseSyncMsgState vs' ts fo then
            let m := receive_from vs' to fo r ts (mem s) in
            Ok (set_pc to (Waking drop 0 (Outside 0)) (set_mem m (set_ths (upd fo (fun c => w_to 0 (w_unsolved 0 c)) ts) s)))
          else Fault
        end
      | None => Ok (recv_or_wait vs' to r drop (set_ths ts s))
      end
  end.

(** The look for queued senders in the wait loop. *)
Definition recv_sync (vs : Views) (to : Z) (r : Recv) (s : Ipc) : Outcome Ipc :=
  let! (sel, drop, ts) := select_sender vs to r (ths s) in
  match sel with
  | Some (fo, prev) =>
    let ts := default ts (take_sender to fo prev ts) in
    let m := receive_from vs to fo r ts (mem s) in
    let! ts := UnlinkWaitEntry to ts in
    let ts := upd fo (fun c => w_to 0 (w_unsolved 0 c)) ts in
    let ts := upd to (fun c => w_fo 0 (w_unsolved 0 c)) ts in
    Ok (set_pc to (Waking drop 0 (Outside 0)) (set_mem m (set_ths ts s)))
  | None => Ok (set_pc to (Waking drop 0 (RecvAsync r)) (set_ths ts s))
  end.

(** The receiver takes itself out of the wait. *)
Definition recv_disarm (to : Z) (ts : Threads) : Outcome Threads :=
  let! ts := UnlinkWaitEntry to ts in
  Ok (upd to (fun c => w_fo 0 (w_unsolved 0 c)) ts).

(** The look for asynchronous messages in the wait loop. *)
Definition recv_async (vs : Views) (to : Z) (r : Recv) (s : Ipc) : Outcome Ipc :=
  match take_async vs to r s with
  | Some s => let! ts := recv_disarm to (ths s) in Ok (set_pc to (Outside 0) (set_ths ts s))
  | None => Ok (set_pc to (RecvBlock r) s)
  end.

(** One turn of a wake-up loop: the next thread of the private list. *)
Definition wake_sender (h : Z) (ts : Threads) : Z * Threads := (snext ts h, upd h (w_snext 0) ts).
Definition wake_receiver (h : Z) (ts : Threads) : Z * Threads := (wnext ts h, upd h (w_wnext 0) ts).

(** The wait loop of [msg_send]. *)
Definition advance_send (vs : Views) (t : Z) (s : Ipc) : Outcome Ipc :=
  let c := th (ths s) t in
  match pc s t with
  | SendBlock to =>
    Ok (set_pc t (if (unsolved_msg c =? 0) && (send_to_whom c =? 0) then SendCheck to else SendSlept to) s)
  | SendSlept to => Ok (set_pc t (if unsolved_msg c =? DEAD then SendAbort to else SendCheck to) s)
  | SendCheck to =>
    Ok (set_pc t (if unsolved_msg c =? 0 then Outside 0 else if interrupted (vs t) then SendAbort to else SendBlock to) s)
  | SendAbort to => let! ts := send_abort t to (ths s) in Ok (set_pc t (Outside (-4)) (set_ths ts s))
  | _ => Ok s
  end.

(** The wait loop of [msg_recv]. *)
Definition advance_recv (vs : Views) (t : Z) (s : Ipc) : Outcome Ipc :=
  let c := th (ths s) t in
  match pc s t with
  | RecvBlock r => Ok (set_pc t (if unsolved_msg c =? 0 then RecvCheck r else RecvSlept r) s)
  | RecvSlept r => Ok (set_pc t (if unsolved_msg c =? DEAD then RecvAbort r else RecvCheck r) s)
  | RecvCheck r =>
    Ok (set_pc t (if unsolved_msg c =? 0 then Outside 0 else if interrupted (vs t) then RecvAbort r else RecvSync r) s)
  | RecvAbort r => let! ts := recv_disarm t (ths s) in Ok (set_pc t (Outside (-4)) (set_ths ts s))
  | RecvSync r => recv_sync vs t r s
  | RecvAsync r => recv_async vs t r s
  | _ => Ok s
  end.

(** The wake-up loops at the end of [msg_cleanup_thread], and of [msg_recv]. *)
Definition advance_wake (t : Z) (s : Ipc) : Outcome Ipc :=
  match pc s t with
  | Waking h g k =>
    if truthy h then let '(h, ts) := wake_sender h (ths s) in Ok (set_pc t (Waking h g k) (set_ths ts s))
    else if truthy g then let '(g, ts) := wake_receiver g (ths s) in Ok (set_pc t (Waking 0 g k) (set_ths ts s))
    else Ok (set_pc t k s)
  | _ => Ok s
  end.

(** The next step of a thread that is in a call. *)
Definition advance (vs : Views) (t : Z) (s : Ipc) : Outcome Ipc :=
  match pc s t with
  | Outside _ => Ok s
  | SendBlock _ | SendSlept _ | SendCheck _ | SendAbort _ => advance_send vs t s
  | Waking _ _ _ => advance_wake t s
  | _ => advance_recv vs t s
  end.

(** ** Interrupts and device events *)

Definition rupt_proc (d : Directory) (vs : Views) (tid rupt_no : Z) (s : Ipc) : Ipc :=
  let t := LocateThread d tid in
  if t =? 0 then s else
  let c := th (ths s) t in
  if has (v_reason (vs t)) BR_RecvMsg && truthy (unsolved_msg c) && special (recv_fo_whom c) then
    let m := write_msg (unsolved_msg c) (v_process (vs t)) (unsolved_msg_from_kernel c) (MkMsg 0 0 KernelMsg_Interrupt rupt_no) (mem s) in
    set_mem m (set_ths (upd t (fun c => w_fo 0 (w_unsolved 0 (w_rupt 0 c))) (ths s)) s)
  else set_ths (upd t (w_rupt rupt_no) (ths s)) s.

Definition device_event_proc (d : Directory) (vs : Views) (tid : Z) (event : DeviceEvent) (s : Ipc) : bool * Ipc :=
  let t := LocateThread d tid in
  if t =? 0 then (false, s) else
  let c := th (ths s) t in
  match device_events c with
  | None => (false, s)
  | Some q =>
    let '(ok, m) :=
      if (send_to_whom c =? 0) && truthy (unsolved_msg c) && special (recv_fo_whom c)
      then WriteDeviceEventMessage (unsolved_msg c) (v_process (vs t)) (unsolved_msg_from_kernel c) event (mem s)
      else (false, mem s) in
    if ok then (true, set_mem m (set_ths (upd t (fun c => w_fo 0 (w_unsolved 0 c)) (ths s)) s))
    else let '(b, q) := QueueDeviceEvent event q in (b, set_mem m (set_ths (upd t (w_events (Some q)) (ths s)) s))
  end.

(** The second section of [device_event_prepare]: the new queue is taken unless there is one. *)
Definition device_event_install (t : Z) (prepared : DeviceEventQueue Q) (s : Ipc) : Ipc :=
  match device_events (th (ths s) t) with Some _ => s | None => set_ths (upd t (w_events (Some prepared)) (ths s)) s end.
Definition device_event_release (t : Z) (s : Ipc) : Ipc := set_ths (upd t (w_events None) (ths s)) s.
Definition device_event_cancel_at (d : Directory) (tid handle generation : Z) (s : Ipc) : Ipc :=
  let t := LocateThread d tid in
  if t =? 0 then s else
  match device_events (th (ths s) t) with
  | None => s
  | Some q => set_ths (upd t (w_events (Some (device_event_cancel handle generation q))) (ths s)) s
  end.

(** ** The result of a child, for a parent that waits ([DeliverWaitResultAtomically]) *)

(** The section of a parent that waits in a receive.  [pending] and [ker] were read before; [prepared]
    is the message read before, [current] the one read under the lock, if it could be read;
    [copy_args] and [copy_back] are the two copies into the parent's memory. *)
Definition deliver_wait_direct (vs : Views) (parent taskman pending : Z) (ker : bool) (prepared : CommMsg) (current : option CommMsg)
    (copy_args copy_back : CommMsg -> M -> bool * M) (s : Ipc) : Outcome (bool * Ipc) :=
  let c := th (ths s) parent in
  if negb (has (v_reason (vs parent)) BR_Waiting) || negb (has (v_reason (vs parent)) BR_RecvMsg) ||
     negb ((recv_fo_whom c =? taskman) || (recv_fo_whom c =? ANYPROC)) ||
     negb (unsolved_msg c =? pending) || negb (Bool.eqb (unsolved_msg_from_kernel c) ker) then Ok (false, s) else
  match current with
  | None => Ok (false, s)
  | Some cur =>
    if negb (m_address cur =? m_address prepared) || negb (m_length cur =? m_length prepared) then Ok (false, s) else
    let '(ok, m) := if truthy (Z.min 16 (m_length prepared)) then copy_args cur (mem s) else (true, mem s) in
    if negb ok then Ok (false, set_mem m s) else
    let '(ok, m) := copy_back (MkMsg (m_address cur) (m_length cur) 0 (v_tid (vs taskman))) m in
    if negb ok then Ok (false, set_mem m s) else
    let! ts := UnlinkWaitEntry parent (ths s) in
    Ok (true, set_mem m (set_ths (upd parent (fun c => w_fo 0 (w_unsolved 0 c)) ts) s))
  end.

(** The section of a parent that is not in a receive; [fill] writes the arguments into [payload]. *)
Definition deliver_wait_async (vs : Views) (parent taskman : Z) (new_amsg : bool) (payload : Z) (fill : M -> M) (s : Ipc) : bool * Ipc :=
  if negb (has (v_reason (vs parent)) BR_Waiting) || has (v_reason (vs parent)) BR_RecvMsg then (false, s) else
  if (LIMIT_THREAD_AMSG <=? length (ac_items (async_messages (th (ths s) parent))))%nat then (false, s) else
  if negb new_amsg || (payload =? 0) then (false, s) else
  let a := MkMsg payload 16 0 (v_tid (vs taskman)) in
  (true, set_mem (fill (mem s)) (set_ths (upd parent (fun c => w_async (ac_append a (async_messages c)) c) (ths s)) s)).

(** ** The end of a thread *)

(** Case 0: the receivers that wait for a dying thread. *)
Fixpoint wake_waiters (fuel : nat) (vs : Views) (t waiter wake : Z) (ts : Threads) : option (Z * Threads) :=
  if waiter =? 0 then Some (wake, ts) else
  match fuel with
  | O => None
  | S fuel =>
    let w_next := wnext ts waiter in
    let ts := upd waiter (w_wnext 0) ts in
    if (recv_fo_whom (th ts waiter) =? t) && truthy (unsolved_msg (th ts waiter)) && has (v_reason (vs waiter)) BR_RecvMsg then
      wake_waiters fuel vs t w_next waiter (upd waiter (fun c => w_wnext wake (w_unsolved DEAD (w_fo 0 c))) ts)
    else wake_waiters fuel vs t w_next wake ts
  end.

(** Case 1: its senders. *)
Fixpoint drop_senders (fuel : nat) (vs : Views) (sender drop : Z) (ts : Threads) : option (Z * Threads) :=
  if sender =? 0 then Some (drop, ts) else
  match fuel with
  | O => None
  | S fuel =>
    let s_next := snext ts sender in
    let ts := upd sender (fun c => w_snext drop (w_to 0 c)) ts in
    let ts := if has (v_reason (vs sender)) BR_SendMsg then upd sender (w_unsolved 0) ts else ts in
    drop_senders fuel vs s_next sender ts
  end.

(** [msg_cleanup_thread], up to the wake-ups, by the thread [a]. *)
Definition msg_cleanup_thread (vs : Views) (a t : Z) (dying : bool) (s : Ipc) : Outcome Ipc :=
  let! (recv, ts) :=
    (if dying then ended (wake_waiters (walk_fuel (ths s)) vs t (queue_wait_queuehead (th (ths s) t)) 0 (upd t (w_whead 0) (ths s)))
     else Ok (0, ths s)) in
  let! (drop, ts) := ended (drop_senders (walk_fuel ts) vs (queue_send_queuehead (th ts t)) 0 ts) in
  let ts := upd t (w_shead 0) ts in
  let! ts := (if truthy (send_to_whom (th ts t)) then
                let! ts := unlink_sender t (send_to_whom (th ts t)) ts in
                Ok (upd t (fun c => w_unsolved DEAD (w_snext 0 (w_to 0 c))) ts)
              else Ok ts) in
  let! ts := (if has (v_reason (vs t)) BR_RecvMsg then
                let! ts := UnlinkWaitEntry t ts in Ok (upd t (fun c => w_unsolved DEAD (w_fo 0 c)) ts)
              else Ok ts) in
  let m := foldl (fun m x => if truthy (m_address x) then delete_bytes (m_address x) m else m) (mem s) (ac_items (async_messages (th ts t))) in
  let ts := upd t (fun c => w_async (ac_clear (async_messages c)) c) ts in
  Ok (set_pc a (Waking drop recv (pc s a)) (set_mem m (set_ths ts s))).

(** [Taskman::Exit]: a system task [t] that sends to, or receives from, a thread of the process [p]. *)
Definition exit_sever (vs : Views) (t p : Z) (ts : Threads) : Outcome Threads :=
  let whom := send_to_whom (th ts t) in
  let! ts := (if has (v_reason (vs t)) BR_SendMsg && truthy whom && negb (special whom) && (v_process (vs whom) =? p) then
                let! ts := unlink_sender t whom ts in
                Ok (upd t (fun c => w_unsolved 0 (w_snext 0 (w_to 0 c))) ts)
              else Ok ts) in
  let fo := recv_fo_whom (th ts t) in
  if has (v_reason (vs t)) BR_RecvMsg && truthy fo && negb (special fo) && (v_process (vs fo) =? p) then
    let! ts := UnlinkWaitEntry t ts in Ok (upd t (fun c => w_unsolved 0 (w_fo 0 c)) ts)
  else Ok ts.

(** [Taskman::Exit]: the senders in the queue of the main thread; the wake list is a separate queue. *)
Fixpoint sever_senders (fuel : nat) (sender : Z) (ts : Threads) : option Threads :=
  if sender =? 0 then Some ts else
  match fuel with
  | O => None
  | S fuel => sever_senders fuel (snext ts sender) (upd sender (fun c => w_unsolved 0 (w_snext 0 (w_to 0 c))) ts)
  end.
Definition exit_drop_senders (main : Z) (ts : Threads) : Outcome Threads :=
  let! ts := ended (sever_senders (walk_fuel ts) (queue_send_queuehead (th ts main)) ts) in
  Ok (upd main (w_shead 0) ts).

(** [Taskman::Exec]: the main thread of the process that is replaced. *)
Definition exec_reset (main : Z) (ts : Threads) : Outcome Threads :=
  let! ts := UnlinkWaitEntry main ts in
  Ok (upd main (fun c => w_snext 0 (w_shead 0 (w_to 0 (w_wnext 0 (w_fo 0 (w_unsolved 0 c)))))) ts).

End Messages.
Arguments Comm : clear implicits.
Arguments Ipc : clear implicits.
