(* ===== verification/MessageLists.v ===== *)
(** * Messages: linked lists of threads

    A family of singly linked lists that share one [next] field.  A thread is on at most one list.
    The lemmas say what the three changes (in front, at the end, out of any place) do to the lists,
    whatever else is written, and what the walks of the code find. *)
From S2P Require Import Prelude Message.

Definition first (l : list Z) : Z := default 0 (head l).

Fixpoint linked (nxt : Z -> Z) (l : list Z) : Prop :=
  match l with [] => True | t :: r => t <> 0 /\ nxt t = first r /\ linked nxt r end.

Lemma linked_nz nxt l t : linked nxt l -> t ∈ l -> t <> 0.
Proof. induction l as [|u l IH]; intros H Ht; [by apply elem_of_nil in Ht|]. destruct H as (Hz & _ & H). apply elem_of_cons in Ht as [->|Ht]; auto. Qed.
Lemma first_zero nxt l : linked nxt l -> first l = 0 -> l = [].
Proof. destruct l; [done|]. intros (Hz & _) H. by cbn in H. Qed.
Lemma linked_frame nxt nxt' l : (forall t, t ∈ l -> nxt' t = nxt t) -> linked nxt l -> linked nxt' l.
Proof.
  induction l as [|t l IH]; intros H; [done|]. cbn. rewrite H by left. intros (?&?&Hs). split_and!; try done. apply IH; [|done]. intros u Hu. apply H. by right.
Qed.
Lemma first_app a b : a <> [] -> first (a ++ b) = first a.
Proof. by destruct a. Qed.

(** Two lists in a row: the last of the first one is linked to the second one. *)
Lemma linked_app nxt a b : linked nxt (a ++ b) <->
  (forall t, t ∈ a -> t <> 0) /\ linked nxt b /\ (forall l r u, a = l ++ u :: r -> nxt u = first (r ++ b)).
Proof.
  induction a as [|t a IH]; cbn.
  - split; [|tauto]. intros H. split_and!; [|done|]; intros *; [by intros ?%elem_of_nil|]. by destruct l.
  - rewrite IH. split.
    + intros (Hz & Hn & Ha & Hb & Hl). split_and!; [|done|].
      * intros u [->|Hu]%elem_of_cons; auto.
      * intros l r u E. destruct l as [|v l]; cbn in E; injection E as -> ->; [done|]. by eapply Hl.
    + intros (Hz & Hb & Hl). split_and!; [apply Hz; left|by apply (Hl [] a t)|intros u Hu; apply Hz; by right|done|].
      intros l r u ->. by apply (Hl (t :: l) r u).
Qed.

Section Forest.
Context {K : Type} `{!EqDecision K}.

Record Forest (nxt : Z -> Z) (hd : K -> Z) (L : K -> list Z) : Prop := {
  f_head : forall k, hd k = first (L k);
  f_link : forall k, linked nxt (L k);
  f_nodup : forall k, NoDup (L k);
  f_disj : forall j k t, t ∈ L j -> t ∈ L k -> j = k;
}.

Definition put_list (k : K) (l : list Z) (L : K -> list Z) : K -> list Z := fun j => if decide (j = k) then l else L j.
Lemma put_list_eq k l L : put_list k l L k = l.
Proof. unfold put_list. by rewrite decide_True. Qed.
Lemma put_list_ne k l L j : j <> k -> put_list k l L j = L j.
Proof. intros. unfold put_list. by rewrite decide_False. Qed.

(** [l'] may replace the list of [k] if its threads are of that list or of none. *)
Lemma Forest_put nxt hd nxt' hd' L k l' : Forest nxt hd L ->
  (forall j, j <> k -> hd' j = hd j) -> hd' k = first l' -> linked nxt' l' -> NoDup l' ->
  (forall t, t ∈ l' -> t ∈ L k \/ forall j, t ∉ L j) ->
  (forall j t, j <> k -> t ∈ L j -> nxt' t = nxt t) -> Forest nxt' hd' (put_list k l' L).
Proof.
  intros HF Hh Hk Hl Hd Hin Hn. constructor.
  - intros j. unfold put_list. case_decide; [by subst|]. rewrite Hh by done. by apply HF.
  - intros j. unfold put_list. case_decide; [done|]. eapply linked_frame; [|by apply HF]. intros t. by apply Hn.
  - intros j. unfold put_list. case_decide; [done|]. by eapply f_nodup.
  - assert (forall i t, i <> k -> t ∈ l' -> t ∉ L i) as Hx.
    { intros i t Hi Ht Ht'. destruct (Hin t Ht) as [H|H]; [|by apply (H i)]. by eapply Hi, (f_disj _ _ _ HF). }
    intros i j t. unfold put_list. repeat case_decide; subst; intros H1 H2; [done|by destruct (Hx j t)|by destruct (Hx i t)|by apply (f_disj _ _ _ HF i j t)].
Qed.

Lemma Forest_remove nxt hd nxt' hd' L k a t b : Forest nxt hd L -> L k = a ++ t :: b ->
  (forall j, j <> k -> hd' j = hd j) -> hd' k = first (a ++ b) ->
  (forall u, u <> t -> last a <> Some u -> nxt' u = nxt u) -> (forall u, last a = Some u -> nxt' u = first b) ->
  Forest nxt' hd' (put_list k (a ++ b) L).
Proof.
  intros HF Ek Hh Hk Hn Hla. pose proof (f_nodup _ _ _ HF k) as Hd. pose proof (f_link _ _ _ HF k) as Hl. rewrite Ek in Hd, Hl.
  apply NoDup_app in Hd as Hd'. destruct Hd' as (Hda & Hab & Hdb). apply NoDup_cons in Hdb as [Htb Hdb].
  assert (t ∉ a) as Hta by (intros H; apply (Hab t H); left).
  apply (Forest_put nxt hd); try done.
  - apply linked_app in Hl as (Hz & (_ & _ & Hb) & Hl). apply linked_app. split_and!; [done| |].
    + eapply linked_frame; [|exact Hb]. intros u Hu. apply Hn; [by intros ->|]. intros H. apply last_Some_elem_of in H. apply (Hab u H). by right.
    + intros l r u ->. destruct r as [|v r _] using rev_ind.
      * rewrite (Hla u) by apply last_snoc. done.
      * rewrite Hn; [|intros ->; apply Hta; apply elem_of_app; right; left|].
        -- rewrite (Hl l (r ++ [v]) u eq_refl). by destruct r.
        -- rewrite app_comm_cons, app_assoc, last_snoc. intros [= ->]. apply NoDup_app in Hda as (_ & _ & Hda). apply NoDup_cons in Hda as [Hu _]. apply Hu, elem_of_app. right. left.
  - apply NoDup_app. split_and!; [done| |done]. intros u Hu Hb. apply (Hab u Hu). by right.
  - intros u Hu. left. rewrite Ek. apply elem_of_app. apply elem_of_app in Hu as [?|?]; [by left|]. right. by right.
  - intros j u Hj Hu. apply Hn.
    + intros ->. apply Hj. apply (f_disj _ _ _ HF j k t Hu). rewrite Ek. apply elem_of_app. right. left.
    + intros H. apply Hj. apply (f_disj _ _ _ HF j k u Hu). rewrite Ek. apply elem_of_app. left. by apply last_Some_elem_of.
Qed.

Lemma Forest_push nxt hd nxt' hd' L k t : Forest nxt hd L -> t <> 0 -> (forall j, t ∉ L j) ->
  (forall j, j <> k -> hd' j = hd j) -> hd' k = t -> (forall u, u <> t -> nxt' u = nxt u) -> nxt' t = hd k ->
  Forest nxt' hd' (put_list k (t :: L k) L).
Proof.
  intros HF Hz Hno Hh Hk Hn Ht. apply (Forest_put nxt hd); try done.
  - cbn. split_and!; [done|rewrite Ht; by apply HF|]. eapply linked_frame; [|by apply HF]. intros u Hu. apply Hn. intros ->. by apply (Hno k).
  - apply NoDup_cons. split; [done|by eapply f_nodup].
  - intros u [->|Hu]%elem_of_cons; auto.
  - intros j u _ Hu. apply Hn. intros ->. by apply (Hno j).
Qed.

Lemma Forest_append nxt hd nxt' hd' L k t : Forest nxt hd L -> t <> 0 -> (forall j, t ∉ L j) ->
  (forall j, j <> k -> hd' j = hd j) -> hd' k = first (L k ++ [t]) ->
  (forall u, u <> t -> last (L k) <> Some u -> nxt' u = nxt u) -> (forall u, last (L k) = Some u -> nxt' u = t) -> nxt' t = 0 ->
  Forest nxt' hd' (put_list k (L k ++ [t]) L).
Proof.
  intros HF Hz Hno Hh Hk Hn Hla Ht. pose proof (f_link _ _ _ HF k) as Hl. pose proof (f_nodup _ _ _ HF k) as Hd. apply (Forest_put nxt hd); try done.
  - apply linked_app. split_and!; [intros u; by apply (linked_nz nxt)|done|]. intros l r u E. destruct r as [|v r _] using rev_ind.
    + apply Hla. rewrite E. apply last_snoc.
    + rewrite <- (app_nil_r (L k)) in Hl. apply linked_app in Hl as (_ & _ & Hl). rewrite Hn.
      * rewrite (Hl l (r ++ [v]) u E). by destruct r.
      * intros ->. apply (Hno k). rewrite E. apply elem_of_app. right. left.
      * rewrite E, app_comm_cons, app_assoc, last_snoc. intros [= ->]. rewrite E in Hd. apply NoDup_app in Hd as (_ & _ & Hd). apply NoDup_cons in Hd as [Hu _]. apply Hu, elem_of_app. right. left.
  - apply NoDup_app. split_and!; [done| |apply NoDup_singleton]. intros u Hu ->%list_elem_of_singleton. by apply (Hno k).
  - intros u [Hu|Hu]%elem_of_app; [by left|]. apply list_elem_of_singleton in Hu as ->. by right.
  - intros j u Hj Hu. apply Hn; [intros ->; by apply (Hno j)|]. intros H. apply Hj, (f_disj _ _ _ HF j k u Hu). by apply last_Some_elem_of.
Qed.

(** Only the listed threads and the heads matter. *)
Lemma Forest_frame nxt hd nxt' hd' L : Forest nxt hd L -> (forall k, hd' k = hd k) -> (forall k t, t ∈ L k -> nxt' t = nxt t) -> Forest nxt' hd' L.
Proof.
  intros HF Hh Hn. constructor; intros; [rewrite Hh; by apply HF| |by eapply f_nodup|by eapply (f_disj _ _ _ HF)].
  eapply linked_frame; [|by apply HF]. intros t. by apply Hn.
Qed.
Lemma Forest_ext nxt hd L L' : Forest nxt hd L -> (forall k, L' k = L k) -> Forest nxt hd L'.
Proof.
  intros HF E. constructor; intros; [rewrite E; by apply HF|rewrite E; by apply HF|rewrite E; by eapply f_nodup|]. rewrite E in *. by eapply (f_disj _ _ _ HF).
Qed.
End Forest.

(** ** The walks *)
Lemma walk_found nxt th b a : forall fuel prev, linked nxt (a ++ th :: b) -> th ∉ a -> (length a <= fuel)%nat ->
  seek fuel nxt (first (a ++ th :: b)) prev th = Some (default prev (last a), th).
Proof.
  induction a as [|u a IH]; intros fuel prev Hl Ha Hf; cbn [app] in *.
  - change (first (th :: b)) with th. destruct fuel; cbn; by rewrite Z.eqb_refl, orb_true_r.
  - destruct Hl as (Hz & Hn & Hl). apply not_elem_of_cons in Ha as [Hu Ha]. destruct fuel as [|fuel]; [cbn in Hf; lia|]. change (first (u :: a ++ th :: b)) with u. cbn [seek].
    rewrite (proj2 (Z.eqb_neq u 0) Hz), (proj2 (Z.eqb_neq u th)) by done. cbn [orb]. rewrite Hn, IH by (try done; cbn in Hf; lia).
    rewrite last_cons. by destruct (last a).
Qed.
Lemma walk_missing nxt th l : forall fuel prev, linked nxt l -> th ∉ l -> (length l <= fuel)%nat -> exists p, seek fuel nxt (first l) prev th = Some (p, 0).
Proof.
  induction l as [|u l IH]; intros fuel prev Hl Ha Hf; [exists prev; by destruct fuel|].
  destruct Hl as (Hz & Hn & Hl). apply not_elem_of_cons in Ha as [Hu Ha]. destruct fuel as [|fuel]; [cbn in Hf; lia|]. change (first (u :: l)) with u. cbn [seek].
  rewrite (proj2 (Z.eqb_neq u 0) Hz), (proj2 (Z.eqb_neq u th)) by done. cbn [orb]. rewrite Hn. apply IH; try done. cbn in Hf. lia.
Qed.
Lemma seek_before_found nxt th b a : forall fuel, a <> [] -> linked nxt (a ++ th :: b) -> NoDup (a ++ th :: b) -> (length a <= fuel)%nat ->
  exists u, last a = Some u /\ seek_before fuel nxt (first a) th = Some u.
Proof.
  induction a as [|u a IH]; intros fuel Hne Hl Hd Hf; [done|]. cbn [app] in *. destruct Hl as (Hz & Hn & Hl). apply NoDup_cons in Hd as [Hu Hd]. change (first (u :: a)) with u.
  destruct fuel as [|fuel]; [cbn in Hf; lia|]. cbn [seek_before]. rewrite (proj2 (Z.eqb_neq u 0) Hz). cbn [orb]. rewrite Hn. destruct a as [|v a].
  - exists u. cbn. by rewrite Z.eqb_refl.
  - change (first ((v :: a) ++ th :: b)) with v. rewrite (proj2 (Z.eqb_neq v th)).
    + destruct (IH fuel) as (x & E & Es); [done|done|done|cbn in *; lia|]. exists x. rewrite last_cons, E. done.
    + intros ->. cbn in Hd. apply NoDup_cons in Hd as [Hd _]. apply Hd, elem_of_app. right. left.
Qed.
Lemma seek_tail_found nxt l : forall fuel, l <> [] -> linked nxt l -> (length l <= fuel)%nat -> exists u, last l = Some u /\ seek_tail fuel nxt (first l) = Some u.
Proof.
  induction l as [|u l IH]; intros fuel Hne Hl Hf; [done|]. destruct Hl as (Hz & Hn & Hl). change (first (u :: l)) with u. destruct fuel as [|fuel]; [cbn in Hf; lia|]. cbn [seek_tail]. rewrite Hn.
  destruct l as [|v l]; [exists u; done|]. assert (v <> 0) as Hv by apply Hl. change (first (v :: l)) with v at 1. rewrite (proj2 (Z.eqb_neq v 0) Hv).
  destruct (IH fuel) as (x & E & Es); [done|done|cbn in *; lia|]. exists x. rewrite last_cons, E. done.
Qed.
