(* ===== verification/MessageProof.v ===== *)
(** * Messages: the invariant of the queues

    The send queues and the private lists of dropped senders share one link; so do the wait lists and
    the private lists of woken receivers.  A thread is in the queue of [r] exactly when it sends to
    [r].  Following the sends from any thread ends. *)
From S2P Require Import Prelude Sched DeviceEvents Message MessageLists.

(** ** Chains that end *)
Lemma linked_det nxt : forall l l', linked nxt l -> linked nxt l' -> first l = first l' -> l = l'.
Proof.
  induction l as [|t l IH]; intros l' H H' E.
  - symmetry. by apply (first_zero nxt).
  - destruct l' as [|t' l']; [by destruct (proj1 H)|]. change (t = t') in E. subst t'. destruct H as (_ & Hn & H), H' as (_ & Hn' & H'). f_equal. apply IH; try done. congruence.
Qed.
Lemma linked_suffix nxt a b : linked nxt (a ++ b) -> linked nxt b.
Proof. by intros (_ & H & _)%linked_app. Qed.
Lemma linked_nodup nxt l : linked nxt l -> NoDup l.
Proof.
  induction l as [|t l IH]; intros H; [constructor|]. apply NoDup_cons. split; [|by apply IH, H]. intros (r & b & ->)%list_elem_of_split.
  assert (t :: r ++ t :: b = t :: b) as E by (apply (linked_det nxt); [done| |done]; apply (linked_suffix nxt (t :: r)), H).
  apply (f_equal length) in E. cbn in E. rewrite length_app in E. cbn in E. lia.
Qed.
(** Cutting links keeps chains finite. *)
Lemma linked_cut nxt nxt' l : (forall u, nxt' u = nxt u \/ nxt' u = 0) -> linked nxt l -> exists l', linked nxt' l' /\ first l' = first l.
Proof.
  intros H. induction l as [|t l IH]; intros Hl; [by exists []|]. destruct Hl as (Hz & Hn & Hl). destruct (H t) as [E|E].
  - destruct (IH Hl) as (l' & Hl' & Ef). exists (t :: l'). split; [|done]. cbn. split_and!; [done| |done]. congruence.
  - exists [t]. done.
Qed.
(** A link from the end of a chain to the start of another one. *)
Lemma linked_join nxt nxt' fo to l l2 : nxt fo = 0 -> nxt' fo = to -> (forall u, u <> fo -> nxt' u = nxt u) ->
  linked nxt l2 -> first l2 = to -> fo ∉ l2 -> linked nxt l -> exists l', linked nxt' l' /\ first l' = first l.
Proof.
  intros H0 Ht Hn H2 E2 Hno Hl. destruct (decide (fo ∈ l)) as [(a & b & ->)%list_elem_of_split|Hl'].
  - exists (a ++ fo :: l2). split; [|by destruct a]. pose proof (linked_nodup _ _ Hl) as Hd. apply NoDup_app in Hd as (_ & Ha & _). apply linked_app in Hl as (Hz & (Hfz & Hb & Hlb) & Hl).
    assert (fo ∉ a) as Hfa by (intros H; apply (Ha fo H); left). apply linked_app. split_and!; [done| |].
    + cbn. rewrite Ht. split_and!; [done|done|]. eapply linked_frame; [|exact H2]. intros u Hu. apply Hn. by intros ->.
    + intros p r u ->. rewrite Hn, (Hl p r u eq_refl); [by destruct r|]. intros ->. apply Hfa, elem_of_app. right. left.
  - exists l. split; [|done]. eapply linked_frame; [|exact Hl]. intros u Hu. apply Hn. by intros ->.
Qed.

Inductive Key := QueueOf (r : Z) | Private (a : Z).
#[global] Instance Key_eq : EqDecision Key.
Proof. solve_decision. Defined.

(** Real threads; the other values of [recv_fo_whom] are markers. *)
Definition thread_ok (t : Z) : Prop := 0 < t < INTRUPT.
Lemma thread_ok_nz t : thread_ok t -> t <> 0.
Proof. unfold thread_ok. lia. Qed.
Lemma thread_ok_special t : thread_ok t -> special t = false.
Proof. unfold thread_ok, special, INTRUPT, ANYPROC, UMAX. intros. apply orb_false_iff. split; lia. Qed.

(** What a thread is doing, for the communication fields. *)
Inductive Role := Idle | Sending (to : Z) | Receiving.
#[global] Instance Role_eq : EqDecision Role.
Proof. solve_decision. Defined.

Section Proof.
Context {M : Type} `{!IpcMemory M} {C : Type} `{!AsyncChain C} `{!AsyncChainLaws C} {Q : Type} `{!FixedQueue DeviceEvent Q}.
Abbreviation Comm := (Comm C Q).
Abbreviation Threads := (gmap Z Comm).

Lemma th_upd t f (ts : Threads) u : th (upd t f ts) u = if decide (u = t) then f (th ts t) else th ts u.
Proof. unfold th, upd. case_decide as E; [subst; by rewrite lookup_insert_eq|by rewrite lookup_insert_ne]. Qed.
Lemma th_upd_eq t f (ts : Threads) : th (upd t f ts) t = f (th ts t).
Proof. by rewrite th_upd, decide_True. Qed.
Lemma th_upd_ne t f (ts : Threads) u : u <> t -> th (upd t f ts) u = th ts u.
Proof. intros. by rewrite th_upd, decide_False. Qed.
Lemma dom_upd t f (ts : Threads) : dom (upd t f ts) = {[t]} ∪ dom ts.
Proof. apply dom_insert_L. Qed.

Definition sto (ts : Threads) (t : Z) : Z := send_to_whom (th ts t).
Definition rfo (ts : Threads) (t : Z) : Z := recv_fo_whom (th ts t).
Definition umsg (ts : Threads) (t : Z) : Z := unsolved_msg (th ts t).
Definition shead (ts : Threads) (t : Z) : Z := queue_send_queuehead (th ts t).
Definition whead (ts : Threads) (t : Z) : Z := queue_wait_queuehead (th ts t).

Definition shd (ts : Threads) (ds : Z -> Z) (k : Key) : Z := match k with QueueOf r => shead ts r | Private a => ds a end.
Definition whd (ts : Threads) (dr : Z -> Z) (k : Key) : Z := match k with QueueOf r => whead ts r | Private a => dr a end.

(** ** Senders *)
Record SendInv (ts : Threads) (hd : Key -> Z) (L : Key -> list Z) : Prop := {
  s_forest : Forest (snext ts) hd L;
  s_queue : forall r t, t ∈ L (QueueOf r) <-> sto ts t = r /\ r <> 0;
  s_private : forall a t, t ∈ L (Private a) -> sto ts t = 0;
  s_known : forall k t, t ∈ L k -> t ∈ dom ts;
  s_ends : forall t, exists l, linked (sto ts) l /\ first l = t;
}.

(** ** Receivers *)
Record WaitInv (ts : Threads) (hd : Key -> Z) (L : Key -> list Z) : Prop := {
  r_forest : Forest (wnext ts) hd L;
  r_queue : forall r t, t ∈ L (QueueOf r) -> rfo ts t = r /\ thread_ok r;
  r_private : forall a t, t ∈ L (Private a) -> rfo ts t = 0;
  r_known : forall k t, t ∈ L k -> t ∈ dom ts;
}.

Record FieldInv (ts : Threads) (role : Z -> Role) : Prop := {
  fi_send : forall t, sto ts t <> 0 -> role t = Sending (sto ts t) /\ umsg ts t <> 0;
  fi_recv : forall t, rfo ts t <> 0 -> role t = Receiving /\ umsg ts t <> 0;
  fi_to : forall t, sto ts t = 0 \/ thread_ok (sto ts t);
  fi_fo : forall t, rfo ts t = 0 \/ special (rfo ts t) = true \/ thread_ok (rfo ts t);
  fi_async : forall t, (length (ac_items (async_messages (th ts t))) <= LIMIT_THREAD_AMSG)%nat;
}.

Lemma list_bound ts hd L k : SendInv ts hd L -> (length (L k) <= size ts)%nat.
Proof.
  intros H. rewrite <- size_dom, <- (size_list_to_set (C := gset Z) (L k)) by (eapply f_nodup, H). apply subseteq_size. intros t Ht%elem_of_list_to_set. by eapply s_known.
Qed.
Lemma wait_bound ts hd L k : WaitInv ts hd L -> (length (L k) <= size ts)%nat.
Proof.
  intros H. rewrite <- size_dom, <- (size_list_to_set (C := gset Z) (L k)) by (eapply f_nodup, H). apply subseteq_size. intros t Ht%elem_of_list_to_set. by eapply r_known.
Qed.

(** *** What the parts depend on *)
Definition same_send (ts ts' : Threads) : Prop := (forall t, snext ts' t = snext ts t /\ sto ts' t = sto ts t) /\ dom ts ⊆ dom ts'.
Definition same_wait (ts ts' : Threads) : Prop := (forall t, wnext ts' t = wnext ts t /\ rfo ts' t = rfo ts t) /\ dom ts ⊆ dom ts'.

Lemma SendInv_frame ts ts' hd hd' L : SendInv ts hd L -> same_send ts ts' -> (forall k, hd' k = hd k) -> SendInv ts' hd' L.
Proof.
  intros H [Hs Hd] Hh. constructor.
  - eapply Forest_frame; [apply H|done|]. intros k t _. apply Hs.
  - intros r t. rewrite (proj2 (Hs t)). apply H.
  - intros a t. rewrite (proj2 (Hs t)). by apply (s_private _ _ _ H).
  - intros k t Ht. by eapply Hd, s_known.
  - intros t. destruct (s_ends _ _ _ H t) as (l & Hl & E). exists l. split; [|done]. eapply linked_frame; [|exact Hl]. intros u _. apply Hs.
Qed.
Lemma WaitInv_frame ts ts' hd hd' L : WaitInv ts hd L -> same_wait ts ts' -> (forall k, hd' k = hd k) -> WaitInv ts' hd' L.
Proof.
  intros H [Hs Hd] Hh. constructor.
  - eapply Forest_frame; [apply H|done|]. intros k t _. apply Hs.
  - intros r t. rewrite (proj2 (Hs t)). apply H.
  - intros a t. rewrite (proj2 (Hs t)). by apply (r_private _ _ _ H).
  - intros k t Ht. by eapply Hd, r_known.
Qed.

(** *** One sender leaves its queue *)
Lemma SendInv_remove ts ts' hd hd' L r a t b : SendInv ts hd L -> L (QueueOf r) = a ++ t :: b ->
  (forall j, j <> QueueOf r -> hd' j = hd j) -> hd' (QueueOf r) = first (a ++ b) ->
  (forall u, u <> t -> last a <> Some u -> snext ts' u = snext ts u) -> (forall u, last a = Some u -> snext ts' u = first b) ->
  sto ts' t = 0 -> (forall u, u <> t -> sto ts' u = sto ts u) -> dom ts ⊆ dom ts' ->
  SendInv ts' hd' (put_list (QueueOf r) (a ++ b) L).
Proof.
  intros H Ek Hh Hk Hn Hl Ht Ho Hd. pose proof (f_nodup _ _ _ (s_forest _ _ _ H) (QueueOf r)) as Hnd. rewrite Ek in Hnd. apply NoDup_app in Hnd as (_ & Hab & Hb). apply NoDup_cons in Hb as [Hb _].
  assert (t ∉ a) as Hta by (intros Hx; apply (Hab t Hx); left). assert (t ∈ L (QueueOf r)) as Hin by (rewrite Ek; apply elem_of_app; right; left).
  assert (forall k u, u ∈ put_list (QueueOf r) (a ++ b) L k <-> u ∈ L k /\ u <> t) as Hm.
  { intros k u. unfold put_list. case_decide as E; [subst; rewrite Ek, !elem_of_app, elem_of_cons|].
    - split; [|tauto]. intros [Hu|Hu]; (split; [tauto|intros ->; done]).
    - split; [|tauto]. intros Hu. split; [done|]. intros ->. by apply E, (f_disj _ _ _ (s_forest _ _ _ H) k (QueueOf r) t). }
  constructor.
  - eapply Forest_remove; [apply H|exact Ek|done|done|done|done].
  - intros r' u. rewrite Hm, (s_queue _ _ _ H). destruct (decide (u = t)) as [->|Hu]; [rewrite Ht|rewrite Ho by done]; naive_solver.
  - intros x u [Hu Hne]%Hm. rewrite Ho by done. by apply (s_private _ _ _ H x).
  - intros k u [Hu _]%Hm. by eapply Hd, s_known.
  - intros u. destruct (s_ends _ _ _ H u) as (l & Hl0 & <-). apply (linked_cut (sto ts)); [|done]. intros v. destruct (decide (v = t)) as [->|Hv]; [by right|left; by apply Ho].
Qed.

(** *** A sender joins the end of a queue *)
Lemma SendInv_append ts ts' hd hd' L fo to l : SendInv ts hd L -> fo <> 0 -> to <> 0 -> sto ts fo = 0 -> (forall a, fo ∉ L (Private a)) ->
  linked (sto ts) l -> first l = to -> fo ∉ l ->
  (forall j, j <> QueueOf to -> hd' j = hd j) -> hd' (QueueOf to) = first (L (QueueOf to) ++ [fo]) ->
  (forall u, u <> fo -> last (L (QueueOf to)) <> Some u -> snext ts' u = snext ts u) -> (forall u, last (L (QueueOf to)) = Some u -> snext ts' u = fo) ->
  snext ts' fo = 0 -> sto ts' fo = to -> (forall u, u <> fo -> sto ts' u = sto ts u) -> dom ts ⊆ dom ts' -> fo ∈ dom ts' ->
  SendInv ts' hd' (put_list (QueueOf to) (L (QueueOf to) ++ [fo]) L).
Proof.
  intros H Hf Ht H0 Hq Hl El Hfl Hh Hk Hn Hla Hz Hto Ho Hd Hdf.
  assert (forall j, fo ∉ L j) as Hno by (intros [r|a]; [rewrite (s_queue _ _ _ H), H0; naive_solver|done]).
  assert (forall k u, u ∈ put_list (QueueOf to) (L (QueueOf to) ++ [fo]) L k <-> u ∈ L k \/ u = fo /\ k = QueueOf to) as Hm.
  { intros k u. unfold put_list. case_decide as E; [subst k; rewrite elem_of_app, list_elem_of_singleton; tauto|tauto]. }
  constructor.
  - eapply Forest_append; try done. apply H.
  - intros r u. rewrite Hm, (s_queue _ _ _ H). destruct (decide (u = fo)) as [->|Hu]; [rewrite Hto, H0; naive_solver|rewrite Ho by done; naive_solver].
  - intros a u [Hu|[_ ?]]%Hm; [|done]. rewrite Ho; [by eapply (s_private _ _ _ H)|]. intros ->. by apply (Hq a).
  - intros k u [Hu|[-> _]]%Hm; [|done]. by eapply Hd, s_known.
  - intros u. destruct (s_ends _ _ _ H u) as (l' & Hl' & <-). by apply (linked_join (sto ts) _ fo to l' l).
Qed.

(** *** Private lists of dropped senders *)
Lemma SendInv_push ts ts' hd hd' L a t : SendInv ts hd L -> t <> 0 -> (forall k, t ∉ L k) -> t ∈ dom ts ->
  (forall j, j <> Private a -> hd' j = hd j) -> hd' (Private a) = t -> (forall u, u <> t -> snext ts' u = snext ts u) -> snext ts' t = hd (Private a) ->
  (forall u, sto ts' u = sto ts u) -> dom ts ⊆ dom ts' -> SendInv ts' hd' (put_list (Private a) (t :: L (Private a)) L).
Proof.
  intros H Hz Hno Hin Hh Hk Hn Ht Ho Hd.
  assert (sto ts t = 0) as H0 by (destruct (decide (sto ts t = 0)); [done|]; destruct (Hno (QueueOf (sto ts t))); by apply (s_queue _ _ _ H)).
  assert (forall k u, u ∈ put_list (Private a) (t :: L (Private a)) L k <-> u ∈ L k \/ u = t /\ k = Private a) as Hm.
  { intros k u. unfold put_list. case_decide as E; [subst k; rewrite elem_of_cons; tauto|tauto]. }
  constructor.
  - eapply Forest_push; try done. apply H.
  - intros r u. rewrite Hm, (s_queue _ _ _ H), Ho. naive_solver.
  - intros x u Hu. rewrite Ho. apply Hm in Hu as [Hu|[-> _]]; [by eapply (s_private _ _ _ H)|done].
  - intros k u [Hu|[-> _]]%Hm; [by eapply Hd, s_known|by apply Hd].
  - intros u. destruct (s_ends _ _ _ H u) as (l' & Hl' & <-). apply (linked_cut (sto ts)); [|done]. intros v. left. apply Ho.
Qed.
Lemma SendInv_pop ts ts' hd hd' L a t l : SendInv ts hd L -> L (Private a) = t :: l ->
  (forall j, j <> Private a -> hd' j = hd j) -> hd' (Private a) = first l -> (forall u, u <> t -> snext ts' u = snext ts u) ->
  (forall u, sto ts' u = sto ts u) -> dom ts ⊆ dom ts' -> SendInv ts' hd' (put_list (Private a) l L).
Proof.
  intros H Ek Hh Hk Hn Ho Hd.
  assert (forall k u, u ∈ put_list (Private a) l L k -> u ∈ L k) as Hm by (intros k u; unfold put_list; case_decide; [subst; rewrite Ek; by right|done]).
  constructor.
  - eapply (Forest_remove _ _ _ _ _ _ [] t l); [apply H|exact Ek|done|done|by intros u ? _; apply Hn|done].
  - intros r u. rewrite Ho, put_list_ne by done. apply H.
  - intros x u Hu%Hm. rewrite Ho. by eapply (s_private _ _ _ H).
  - intros k u Hu%Hm. by eapply Hd, s_known.
  - intros u. destruct (s_ends _ _ _ H u) as (l' & Hl' & <-). apply (linked_cut (sto ts)); [|done]. intros v. left. apply Ho.
Qed.

(** ** The check for deadlocks *)
Lemma will_deadlock_walk ts fo l : (forall t, sto ts t <> 0 -> umsg ts t <> 0) -> forall fuel to, linked (sto ts) (to :: l) -> (length l <= fuel)%nat ->
  will_deadlock fuel ts fo to = Some (bool_decide (fo ∈ l)).
Proof.
  intros Hu. induction l as [|v l IH]; intros fuel to (Hz & Hn & Hl) Hf.
  - assert (send_to_whom (th ts to) = 0) as E by exact Hn. destruct fuel; cbn [will_deadlock]; rewrite E; done.
  - assert (v <> 0) as Hv by apply Hl. change (send_to_whom (th ts to) = v) in Hn. destruct fuel as [|fuel]; [cbn in Hf; lia|]. cbn [will_deadlock]. rewrite Hn.
    assert (unsolved_msg (th ts to) <> 0) as Hun by (apply Hu; unfold sto; by rewrite Hn). unfold truthy. rewrite (proj2 (Z.eqb_neq v 0) Hv), (proj2 (Z.eqb_neq _ 0) Hun). cbn [negb andb].
    destruct (Z.eqb_spec v fo) as [->|Hne]; [by rewrite bool_decide_true by left|]. rewrite (IH fuel v Hl) by (cbn in Hf; lia). f_equal. apply bool_decide_ext. rewrite elem_of_cons. naive_solver.
Qed.
(** All threads of a chain but the last one are in a queue. *)
Lemma chain_bound ts hd L to l : SendInv ts hd L -> linked (sto ts) (to :: l) -> (length l <= size ts)%nat.
Proof.
  intros H Hl. pose proof (linked_nodup _ _ Hl) as Hd. destruct l as [|x l _] using rev_ind; [cbn; lia|].
  assert (forall u, u ∈ to :: l -> u ∈ dom ts) as Hin.
  { intros u (p & q & E)%list_elem_of_split. rewrite app_comm_cons, E, <- app_assoc in Hl. apply linked_app in Hl as (_ & (_ & Hn & Hq) & _).
    assert (first (q ++ [x]) <> 0) as Hz by (intros Hf; apply (first_zero (sto ts)) in Hf; [by destruct q|done]). eapply (s_known _ _ _ H (QueueOf (sto ts u))). apply (s_queue _ _ _ H). by rewrite Hn. }
  rewrite length_app. cbn. rewrite app_comm_cons in Hd. apply NoDup_app in Hd as (Hd & _ & _).
  transitivity (length (to :: l)); [cbn; lia|]. rewrite <- size_dom, <- (size_list_to_set (C := gset Z) (to :: l)) by done. apply subseteq_size. intros t Ht%elem_of_list_to_set. by apply Hin.
Qed.
Lemma deadlock_exact ts hd L fo to : SendInv ts hd L -> (forall t, sto ts t <> 0 -> umsg ts t <> 0) -> to <> 0 ->
  exists l, linked (sto ts) (to :: l) /\ msg_send_will_deadlock ts fo to = Ok (bool_decide (fo ∈ l)).
Proof.
  intros H Hu Hz. destruct (s_ends _ _ _ H to) as (l & Hl & E). destruct l as [|x l]; [done|]. change (x = to) in E. subst x. exists l. split; [done|].
  unfold msg_send_will_deadlock, walk_fuel. rewrite (will_deadlock_walk ts fo l Hu) by (try done; pose proof (chain_bound _ _ _ _ _ H Hl); lia). done.
Qed.
End Proof.
