(* ===== verification/MessageQueues.v ===== *)
(** * Messages: what the operations do to the queues *)
From S2P Require Import Prelude Sched DeviceEvents Message MessageLists MessageProof.

Section Queues.
Context {M : Type} `{!IpcMemory M} {C : Type} `{!AsyncChain C} `{!AsyncChainLaws C} {Q : Type} `{!FixedQueue DeviceEvent Q}.
Abbreviation Comm := (Comm C Q).
Abbreviation Threads := (gmap Z Comm).
Implicit Types ts : Threads.

(** ** What an operation leaves alone *)

Definition items (ts : Threads) (t : Z) : list CommMsg := ac_items (async_messages (th ts t)).

(** Threads stop sending, receiving and waiting; they do not start. *)
Definition Calm (ts ts' : Threads) : Prop :=
  (forall u, (sto ts' u = sto ts u \/ sto ts' u = 0) /\ (rfo ts' u = rfo ts u \/ rfo ts' u = 0) /\
    (umsg ts' u = umsg ts u \/ umsg ts' u <> 0 \/ sto ts' u = 0 /\ rfo ts' u = 0) /\ (length (items ts' u) <= length (items ts u))%nat) /\ dom ts ⊆ dom ts'.
Definition KeepWait (ts ts' : Threads) : Prop := same_wait ts ts' /\ forall u, whead ts' u = whead ts u.
Definition KeepSend (ts ts' : Threads) : Prop := same_send ts ts' /\ forall u, shead ts' u = shead ts u.
(** No thread sends and receives at once. *)
Definition Excl (ts : Threads) : Prop := forall u, sto ts u = 0 \/ rfo ts u = 0.

#[global] Instance Calm_pre : PreOrder Calm.
Proof.
  split; [intros ts; split; [intros u; split_and!; auto|done]|]. intros x y z [H1 D1] [H2 D2]. split; [|by etrans]. intros u. destruct (H1 u) as (A1 & B1 & E1 & F1), (H2 u) as (A2 & B2 & E2 & F2).
  split_and!; [destruct A2 as [->| ->]; [exact A1|by right]|destruct B2 as [->| ->]; [exact B1|by right]| |lia]. destruct E2 as [E2|[E2|E2]]; [|by right; left|by right; right]. rewrite E2. destruct E1 as [E1|[E1|[E1 E1']]]; [by left|by right; left|right; right]. rewrite E1 in A2. rewrite E1' in B2. split; [by destruct A2|by destruct B2].
Qed.
#[global] Instance KeepWait_pre : PreOrder KeepWait.
Proof.
  split; [by intros ts|]. intros x y z [[H1 D1] E1] [[H2 D2] E2]. split; [split; [|by etrans]|]; intros u; [destruct (H1 u), (H2 u); split; congruence|by rewrite E2].
Qed.
#[global] Instance KeepSend_pre : PreOrder KeepSend.
Proof.
  split; [by intros ts|]. intros x y z [[H1 D1] E1] [[H2 D2] E2]. split; [split; [|by etrans]|]; intros u; [destruct (H1 u), (H2 u); split; congruence|by rewrite E2].
Qed.

Lemma FieldInv_calm ts ts' role : FieldInv ts role -> Calm ts ts' -> FieldInv ts' role.
Proof.
  intros [H1 H2 H3 H4 H5] [Hc _]. constructor; intros t; destruct (Hc t) as (A & B & E & F).
  - intros Hs. destruct A as [A|A]; [|done]. rewrite A in *. destruct (H1 t Hs) as [Hr Hu]. split; [done|]. destruct E as [E|[E|[E _]]]; [by rewrite E|done|done].
  - intros Hs. destruct B as [B|B]; [|done]. rewrite B in *. destruct (H2 t Hs) as [Hr Hu]. split; [done|]. destruct E as [E|[E|[_ E]]]; [by rewrite E|done|done].
  - destruct A as [->| ->]; [apply H3|by left].
  - destruct B as [->| ->]; [apply H4|by left].
  - unfold items in F. specialize (H5 t). lia.
Qed.
Lemma FieldInv_excl ts role : FieldInv ts role -> Excl ts.
Proof.
  intros H u. destruct (decide (sto ts u = 0)) as [|Hs]; [by left|]. right. destruct (decide (rfo ts u = 0)) as [|Hr]; [done|]. apply H in Hs as [Hs _], Hr as [Hr _]. congruence.
Qed.
Lemma Excl_calm ts ts' : Excl ts -> Calm ts ts' -> Excl ts'.
Proof. intros He [Hc _] u. destruct (Hc u) as (A & B & _). destruct (He u) as [E|E]; [left; destruct A as [->|A]|right; destruct B as [->|B]]; done. Qed.
Lemma FieldInv_role ts role role' : FieldInv ts role -> (forall u, sto ts u <> 0 \/ rfo ts u <> 0 -> role' u = role u) -> FieldInv ts role'.
Proof. intros [H1 H2 H3 H4 H5] Hr. constructor; [| |done..]; intros t Ht; rewrite Hr by tauto; auto. Qed.
Lemma Wait_keep ts ts' dr dr' L : WaitInv ts (whd ts dr) L -> KeepWait ts ts' -> (forall a, dr' a = dr a) -> WaitInv ts' (whd ts' dr') L.
Proof. intros H [Hs Hh] Hd. eapply WaitInv_frame; [exact H|done|]. intros [r|a]; [apply Hh|apply Hd]. Qed.
Lemma Send_keep ts ts' ds ds' L : SendInv ts (shd ts ds) L -> KeepSend ts ts' -> (forall a, ds' a = ds a) -> SendInv ts' (shd ts' ds') L.
Proof. intros H [Hs Hh] Hd. eapply SendInv_frame; [exact H|done|]. intros [r|a]; [apply Hh|apply Hd]. Qed.

(** Writes to one thread. *)
Lemma upd_calm t f ts :
  (let c := th ts t in let c' := f c in
   (send_to_whom c' = send_to_whom c \/ send_to_whom c' = 0) /\ (recv_fo_whom c' = recv_fo_whom c \/ recv_fo_whom c' = 0) /\
   (unsolved_msg c' = unsolved_msg c \/ unsolved_msg c' <> 0 \/ send_to_whom c' = 0 /\ recv_fo_whom c' = 0) /\
   (length (ac_items (async_messages c')) <= length (ac_items (async_messages c)))%nat) -> Calm ts (upd t f ts).
Proof.
  intros H. split; [|rewrite dom_upd; set_solver]. intros u. unfold sto, rfo, umsg, items. rewrite th_upd. case_decide; [subst; exact H|]. split_and!; auto.
Qed.
Lemma upd_keep_wait t f ts :
  (let c := th ts t in let c' := f c in queue_wait_queuenext c' = queue_wait_queuenext c /\ recv_fo_whom c' = recv_fo_whom c /\ queue_wait_queuehead c' = queue_wait_queuehead c) ->
  KeepWait ts (upd t f ts).
Proof.
  intros (H1 & H2 & H3). split; [split; [|rewrite dom_upd; set_solver]|]; intros u; unfold wnext, rfo, whead; rewrite th_upd; case_decide; subst; auto.
Qed.
Lemma upd_keep_send t f ts :
  (let c := th ts t in let c' := f c in queue_send_queuenext c' = queue_send_queuenext c /\ send_to_whom c' = send_to_whom c /\ queue_send_queuehead c' = queue_send_queuehead c) ->
  KeepSend ts (upd t f ts).
Proof.
  intros (H1 & H2 & H3). split; [split; [|rewrite dom_upd; set_solver]|]; intros u; unfold snext, sto, shead; rewrite th_upd; case_decide; subst; auto.
Qed.

(** ** A thread leaves a send queue *)

(** The links after [t] was cut out of the queue of [r], between [a] and [b]. *)
Record Cut (ts ts1 : Threads) (r : Z) (a : list Z) (t : Z) (b : list Z) : Prop := {
  c_head : shead ts1 r = first (a ++ b);
  c_heads : forall j, j <> r -> shead ts1 j = shead ts j;
  c_next : forall u, last a <> Some u -> snext ts1 u = snext ts u;
  c_last : forall u, last a = Some u -> snext ts1 u = first b;
  c_to : forall u, sto ts1 u = sto ts u;
  c_calm : Calm ts ts1;
  c_wait : KeepWait ts ts1;
}.
Definition cut (r prev t : Z) (ts : Threads) : Threads := if truthy prev then upd prev (w_snext (snext ts t)) ts else upd r (w_shead (snext ts t)) ts.

Lemma cut_ok ts ds L r a t b : SendInv ts (shd ts ds) L -> L (QueueOf r) = a ++ t :: b -> Cut ts (cut r (default 0 (last a)) t ts) r a t b.
Proof.
  intros H Ek. pose proof (f_link _ _ _ (s_forest _ _ _ H) (QueueOf r)) as Hl. pose proof (f_head _ _ _ (s_forest _ _ _ H) (QueueOf r)) as Hh. change (shead ts r = first (L (QueueOf r))) in Hh. rewrite Ek in Hl, Hh.
  assert (snext ts t = first b) as Et by apply (linked_suffix _ a _ Hl).
  unfold cut, truthy. destruct a as [|u a _] using rev_ind; [change (default 0 (last [])) with 0; rewrite Z.eqb_refl|rewrite last_snoc; change (default 0 (Some u)) with u; rewrite (proj2 (Z.eqb_neq u 0))]; cbn [negb].
  - constructor; try (intros u; unfold shead, snext, sto; rewrite th_upd; case_decide; subst; done).
    + unfold shead. by rewrite th_upd_eq.
    + apply upd_calm. cbn. auto.
    + apply upd_keep_wait. done.
  - constructor; try (intros v; unfold shead, snext, sto; rewrite th_upd; case_decide; subst; done).
    + unfold shead in *. rewrite th_upd. case_decide; subst; cbn; rewrite Hh; by destruct a.
    + intros v. rewrite last_snoc. intros Hv. unfold snext. rewrite th_upd_ne; [done|]. by intros ->.
    + intros v. rewrite last_snoc. intros [= ->]. unfold snext. by rewrite th_upd_eq.
    + apply upd_calm. cbn. auto.
    + apply upd_keep_wait. done.
  - apply (linked_nz (snext ts) _ _ Hl). apply elem_of_app. left. apply elem_of_app. right. left.
Qed.

(** After the cut, [t] stops sending; its link is free. *)
Lemma SendInv_cut ts ts1 ts' ds L r a t b : SendInv ts (shd ts ds) L -> L (QueueOf r) = a ++ t :: b -> Cut ts ts1 r a t b ->
  (forall u, shead ts' u = shead ts1 u) -> (forall u, u <> t -> snext ts' u = snext ts1 u /\ sto ts' u = sto ts1 u) -> sto ts' t = 0 -> dom ts1 ⊆ dom ts' ->
  SendInv ts' (shd ts' ds) (put_list (QueueOf r) (a ++ b) L).
Proof.
  intros H Ek [K1 K2 K3 K4 K5 K6 K7] Hh Ho Ht Hd. pose proof (f_nodup _ _ _ (s_forest _ _ _ H) (QueueOf r)) as Hn. rewrite Ek in Hn. apply NoDup_app in Hn as (_ & Hn & _).
  eapply SendInv_remove; [exact H|exact Ek| | | | |done| |].
  - intros [j|x] Hj; cbn; [|done]. rewrite Hh. apply K2. congruence.
  - cbn. by rewrite Hh.
  - intros u Hu Hl. by rewrite (proj1 (Ho u Hu)), K3.
  - intros u Hu. assert (u <> t) as Hne by (intros ->; apply (Hn t); [by apply last_Some_elem_of|left]). by rewrite (proj1 (Ho u Hne)), (K4 u Hu).
  - intros u Hu. by rewrite (proj2 (Ho u Hu)).
  - etrans; [apply K6|done].
Qed.

(** A thread that sends is in the queue it sends to. *)
Lemma in_queue ts hd L t r : SendInv ts hd L -> sto ts t = r -> r <> 0 -> exists a b, L (QueueOf r) = a ++ t :: b /\ t ∉ a /\ t ∉ b /\ (length a <= size ts)%nat.
Proof.
  intros H E Hr. assert (t ∈ L (QueueOf r)) as Ht by (by apply (s_queue _ _ _ H)). apply list_elem_of_split in Ht as (a & b & Ek). exists a, b. split; [done|].
  pose proof (f_nodup _ _ _ (s_forest _ _ _ H) (QueueOf r)) as Hn. rewrite Ek in Hn. apply NoDup_app in Hn as (_ & Hn & Hb). apply NoDup_cons in Hb as [Hb _].
  pose proof (list_bound ts hd L (QueueOf r) H) as Hlen. rewrite Ek, length_app in Hlen. cbn in Hlen. split_and!; [|done|lia]. intros Hx. apply (Hn t Hx). left.
Qed.
Lemma queue_head ts ds L r : SendInv ts (shd ts ds) L -> shead ts r = first (L (QueueOf r)).
Proof. intros H. apply (f_head _ _ _ (s_forest _ _ _ H) (QueueOf r)). Qed.

Lemma unlink_sender_cut ts ds L r a t b : SendInv ts (shd ts ds) L -> L (QueueOf r) = a ++ t :: b -> unlink_sender t r ts = Ok (cut r (default 0 (last a)) t ts).
Proof.
  intros H Ek. pose proof (queue_head ts ds L r H) as Hh. pose proof (f_link _ _ _ (s_forest _ _ _ H) (QueueOf r)) as Hl. pose proof (f_nodup _ _ _ (s_forest _ _ _ H) (QueueOf r)) as Hn.
  pose proof (list_bound ts _ L (QueueOf r) H) as Hlen. rewrite Ek in *. rewrite length_app in Hlen. cbn in Hlen. unfold unlink_sender. change (queue_send_queuehead (th ts r)) with (shead ts r). rewrite Hh.
  destruct (decide (a = [])) as [->|Ha].
  - change (first ([] ++ t :: b)) with t. by rewrite Z.eqb_refl.
  - rewrite first_app by done. destruct (seek_before_found (snext ts) t b a (walk_fuel ts)) as (u & Eu & Es); [done|done|done|unfold walk_fuel; lia|]. rewrite (proj2 (Z.eqb_neq (first a) t)).
    + rewrite Es, Eu. cbn. unfold cut, truthy. rewrite (proj2 (Z.eqb_neq u 0)); [done|]. apply (linked_nz _ _ _ Hl), elem_of_app. left. by apply last_Some_elem_of.
    + intros E. apply NoDup_app in Hn as (_ & Hn & _). apply (Hn t); [|left]. destruct a as [|v a]; [done|]. change (v = t) in E. subst. left.
Qed.

(** Any way a thread gives up its send, with the queue repaired: *)
Lemma stop_sending ts ds L t f :
  SendInv ts (shd ts ds) L -> Excl ts -> sto ts t <> 0 ->
  (forall c, send_to_whom (f c) = 0 /\ recv_fo_whom (f c) = recv_fo_whom c /\ queue_send_queuehead (f c) = queue_send_queuehead c /\
     queue_wait_queuehead (f c) = queue_wait_queuehead c /\ queue_wait_queuenext (f c) = queue_wait_queuenext c /\ async_messages (f c) = async_messages c) ->
  exists ts1 L', unlink_sender t (sto ts t) ts = Ok ts1 /\ SendInv (upd t f ts1) (shd (upd t f ts1) ds) L' /\ Calm ts (upd t f ts1) /\ KeepWait ts (upd t f ts1) /\
    (forall k u, u ∈ L' k <-> u ∈ L k /\ u <> t).
Proof.
  intros H He Hs Hf. destruct (in_queue ts _ L t _ H eq_refl Hs) as (a & b & Ek & Ha & Hb & _). pose proof (cut_ok _ _ _ _ _ _ _ H Ek) as Hc. pose proof (unlink_sender_cut _ _ _ _ _ _ _ H Ek) as Eu.
  eexists _, (put_list (QueueOf (sto ts t)) (a ++ b) L). split; [exact Eu|]. set (ts1 := cut _ _ _ _) in *. split_and!.
  - eapply SendInv_cut; [exact H|exact Ek|exact Hc| | | |].
    + intros u. unfold shead. rewrite th_upd. case_decide; [subst; apply Hf|done].
    + intros u Hu. unfold snext, sto. by rewrite th_upd_ne.
    + unfold sto. rewrite th_upd_eq. apply Hf.
    + rewrite dom_upd. set_solver.
  - etrans; [apply Hc|]. apply upd_calm. cbv zeta. destruct (Hf (th ts1 t)) as (F1 & F2 & F3 & F4 & F5 & F6). rewrite F1, F2, F6. split_and!; auto. right. right. split; [done|].
    destruct (c_wait _ _ _ _ _ _ Hc) as [[Hw _] _]. destruct (Hw t) as [_ Hw2]. change (rfo ts1 t = 0). rewrite Hw2. destruct (He t); [done|done].
  - etrans; [apply Hc|]. apply upd_keep_wait. cbn. destruct (Hf (th ts1 t)) as (F1 & F2 & F3 & F4 & F5 & F6). auto.
  - intros k u. unfold put_list. case_decide as E; [subst; rewrite Ek, !elem_of_app, elem_of_cons|].
    + split; [|tauto]. intros [Hu|Hu]; (split; [tauto|intros ->; done]).
    + split; [|tauto]. intros Hu. split; [done|]. intros ->. apply E, (f_disj _ _ _ (s_forest _ _ _ H) k _ t Hu). rewrite Ek. apply elem_of_app. right. left.
Qed.
End Queues.
