(* ===== verification/MessageDrops.v ===== *)
(** * Messages: dropping, taking and adding senders *)
From S2P Require Import Prelude Sched DeviceEvents Message MessageLists MessageProof MessageQueues.

(** A function changed in one place. *)
Definition over {A} `{EqDecision A} (f : A -> Z) (a : A) (x : Z) : A -> Z := fun b => if decide (b = a) then x else f b.
Lemma over_eq {A} `{EqDecision A} (f : A -> Z) a x : over f a x a = x.
Proof. unfold over. by rewrite decide_True. Qed.
Lemma over_ne {A} `{EqDecision A} (f : A -> Z) a x b : b <> a -> over f a x b = f b.
Proof. intros. unfold over. by rewrite decide_False. Qed.

Section Drops.
Context {M : Type} `{!IpcMemory M} {C : Type} `{!AsyncChain C} `{!AsyncChainLaws C} {Q : Type} `{!FixedQueue DeviceEvent Q}.
Abbreviation Comm := (Comm C Q).
Abbreviation Threads := (gmap Z Comm).
Implicit Types ts : Threads.

(** ** Joining a queue *)
Lemma append_sender_spec ts ds L fo to l m ker : SendInv ts (shd ts ds) L -> fo <> 0 -> sto ts fo = 0 -> (forall a, fo ∉ L (Private a)) ->
  linked (sto ts) (to :: l) -> fo ∉ to :: l ->
  exists ts' L', append_sender fo to (upd fo (fun c => w_kernel ker (w_unsolved m (w_to to c))) ts) = Ok ts' /\ SendInv ts' (shd ts' ds) L' /\ KeepWait ts ts' /\
    sto ts' fo = to /\ umsg ts' fo = m /\ (forall u, u <> fo -> sto ts' u = sto ts u /\ umsg ts' u = umsg ts u) /\ (forall u, items ts' u = items ts u) /\
    (forall a, L' (Private a) = L (Private a)).
Proof.
  intros H Hf H0 Hp Hl Hfl. set (g := fun c : Comm => _). set (ts1 := upd fo g ts). assert (to <> 0) as Hto by apply Hl.
  assert (forall u, snext ts1 u = snext ts u) as E1 by (intros u; unfold snext, ts1; rewrite th_upd; case_decide; subst; done).
  assert (forall u, shead ts1 u = shead ts u) as E2 by (intros u; unfold shead, ts1; rewrite th_upd; case_decide; subst; done).
  pose proof (queue_head ts ds L to H) as Hh. pose proof (f_link _ _ _ (s_forest _ _ _ H) (QueueOf to)) as Hq. pose proof (list_bound ts _ L (QueueOf to) H) as Hlen.
  assert (size ts <= size ts1)%nat as Hsz by (rewrite <- !size_dom; apply subseteq_size; unfold ts1; rewrite dom_upd; set_solver).
  assert (KeepWait ts ts1) as Hk1 by (by apply upd_keep_wait).
  assert (exists ts2, (if queue_send_queuehead (th ts1 to) =? 0 then Ok (upd to (w_shead fo) ts1)
              else obind (ended (seek_tail (walk_fuel ts1) (snext ts1) (queue_send_queuehead (th ts1 to)))) (fun crt => Ok (upd crt (w_snext fo) ts1))) = Ok ts2 /\
     shead ts2 to = first (L (QueueOf to) ++ [fo]) /\ (forall u, u <> to -> shead ts2 u = shead ts u) /\ (forall u, last (L (QueueOf to)) <> Some u -> snext ts2 u = snext ts u) /\
     (forall u, last (L (QueueOf to)) = Some u -> snext ts2 u = fo) /\ (forall u, sto ts2 u = sto ts1 u /\ umsg ts2 u = umsg ts1 u /\ items ts2 u = items ts1 u) /\ KeepWait ts1 ts2) as (ts2 & E & Sh & Sh' & Sn & Sl & Sf & Sw).
  { change (queue_send_queuehead (th ts1 to)) with (shead ts1 to). rewrite E2, Hh. destruct (L (QueueOf to)) as [|v q] eqn:Eq.
    - cbn. eexists. split; [done|]. split_and!; try (intros u; unfold shead, snext, sto, umsg, items; rewrite th_upd; case_decide; subst; done).
      + unfold shead. by rewrite th_upd_eq.
      + intros u Hu. rewrite <- E2. unfold shead. by rewrite th_upd_ne.
      + intros u _. rewrite <- E1. unfold snext. rewrite th_upd. case_decide; subst; done.
      + by apply upd_keep_wait.
    - rewrite <- Eq in *. assert (L (QueueOf to) <> []) as Hne by (by rewrite Eq). rewrite (proj2 (Z.eqb_neq (first (L (QueueOf to))) 0)) by (intros Hz; apply (first_zero (snext ts)) in Hz; done).
      destruct (seek_tail_found (snext ts1) (L (QueueOf to)) (walk_fuel ts1) Hne) as (u & Eu & Es); [eapply linked_frame; [|exact Hq]; intros; apply E1|unfold walk_fuel; lia|]. rewrite Es. cbn. eexists. split; [done|].
      split_and!; try (intros x; unfold sto, umsg, items; rewrite th_upd; case_decide; subst; done).
      + transitivity (shead ts1 to); [unfold shead; rewrite th_upd; case_decide; subst; done|]. by rewrite E2, Hh, first_app.
      + intros x _. rewrite <- E2. unfold shead. rewrite th_upd. case_decide; subst; done.
      + intros x Hx. rewrite <- E1. unfold snext. rewrite th_upd_ne; [done|]. congruence.
      + intros x Hx. assert (x = u) as -> by congruence. unfold snext. by rewrite th_upd_eq.
      + by apply upd_keep_wait. }
  unfold append_sender. rewrite E. cbn [obind]. set (ts' := upd fo (w_snext 0) ts2).
  assert (forall u, sto ts' u = sto ts2 u /\ umsg ts' u = umsg ts2 u /\ items ts' u = items ts2 u) as E3 by (intros u; unfold sto, umsg, items, ts'; rewrite th_upd; case_decide; subst; done).
  assert (forall u, shead ts' u = shead ts2 u) as E4 by (intros u; unfold shead, ts'; rewrite th_upd; case_decide; subst; done).
  assert (forall u, u <> fo -> snext ts' u = snext ts2 u) as E5 by (intros u Hu; unfold snext, ts'; by rewrite th_upd_ne).
  assert (sto ts1 fo = to /\ umsg ts1 fo = m) as [G1 G2] by (unfold sto, umsg, ts1; by rewrite th_upd_eq).
  assert (forall u, u <> fo -> sto ts1 u = sto ts u /\ umsg ts1 u = umsg ts u) as G3 by (intros u Hu; unfold sto, umsg, ts1; by rewrite th_upd_ne).
  assert (KeepWait ts ts') as Hkw by (etrans; [exact Hk1|]; etrans; [exact Sw|]; by apply upd_keep_wait).
  assert (sto ts' fo = to) as Hst by (rewrite (proj1 (E3 fo)), (proj1 (Sf fo)); done).
  assert (forall u, u <> fo -> sto ts' u = sto ts u) as Hso by (intros u Hu; rewrite (proj1 (E3 u)), (proj1 (Sf u)); by apply G3).
  exists ts', (put_list (QueueOf to) (L (QueueOf to) ++ [fo]) L). split; [done|]. split_and!; try done.
  - eapply SendInv_append; [exact H|done|exact Hto|exact H0|exact Hp|exact Hl|done|exact Hfl| | | | | |exact Hst|exact Hso|apply Hkw|unfold ts'; rewrite dom_upd; set_solver].
    + intros [j|x] Hj; cbn; [|done]. rewrite E4. apply Sh'. congruence.
    + cbn. by rewrite E4.
    + intros u Hu Hx. rewrite E5 by done. by apply Sn.
    + intros u Hu. rewrite E5; [by apply Sl|]. intros ->. assert (fo ∈ L (QueueOf to)) as Hin by (by apply last_Some_elem_of). apply (s_queue _ _ _ H) in Hin as [Hin _]. by rewrite H0 in Hin.
    + unfold ts', snext. by rewrite th_upd_eq.
  - destruct (E3 fo) as (_ & -> & _), (Sf fo) as (_ & -> & _). done.
  - intros u Hu. split; [by apply Hso|]. destruct (E3 u) as (_ & -> & _), (Sf u) as (_ & -> & _). by apply G3.
  - intros u. destruct (E3 u) as (_ & _ & ->), (Sf u) as (_ & _ & ->). unfold items, ts1. rewrite th_upd. case_decide as E'; [by rewrite E'|done].
Qed.

(** ** Dropping one sender *)
Lemma DropQueuedSender_spec vs ts ds L to a t b : SendInv ts (shd ts ds) L -> Excl ts -> to <> 0 -> L (QueueOf to) = a ++ t :: b ->
  exists ts', DropQueuedSender vs to (default 0 (last a)) t ts = (if gone (v_state (vs t)) then 0 else t, ts') /\
    SendInv ts' (shd ts' ds) (put_list (QueueOf to) (a ++ b) L) /\ Calm ts ts' /\ KeepWait ts ts' /\ t <> 0 /\ t ∈ dom ts' /\ sto ts' t = 0 /\ rfo ts' t = 0 /\
    (forall k, t ∉ put_list (QueueOf to) (a ++ b) L k).
Proof.
  intros H He Hto Ek. pose proof (f_link _ _ _ (s_forest _ _ _ H) (QueueOf to)) as Hl. rewrite Ek in Hl. assert (t <> 0) as Hz by apply (linked_suffix _ a _ Hl).
  assert (sto ts t = to) as Est by (apply (s_queue _ _ _ H to t); rewrite Ek; apply elem_of_app; right; left).
  assert (rfo ts t = 0) as Er by (destruct (He t) as [E|E]; [congruence|done]).
  destruct (in_queue _ _ _ t to H Est Hto) as (a' & b' & Ek' & Ha & Hb & _). rewrite Ek in Ek'. pose proof (f_nodup _ _ _ (s_forest _ _ _ H) (QueueOf to)) as Hn. rewrite Ek in Hn. apply NoDup_app in Hn as (_ & Hab & Hn). apply NoDup_cons in Hn as [Htb _].
  assert (t ∉ a) as Hta by (intros Hx; apply (Hab t Hx); left). clear a' b' Ek' Ha Hb.
  pose proof (cut_ok _ _ _ _ _ _ _ H Ek) as Hc. set (ts1 := cut to (default 0 (last a)) t ts) in *.
  assert ((if t =? queue_send_queuehead (th ts to) then upd to (w_shead (snext ts t)) ts else if truthy (default 0 (last a)) then upd (default 0 (last a)) (w_snext (snext ts t)) ts else ts) = ts1) as Ec.
  { unfold ts1, cut. change (queue_send_queuehead (th ts to)) with (shead ts to). rewrite (queue_head _ _ _ to H), Ek. destruct a as [|v a _] using rev_ind.
    - change (first ([] ++ t :: b)) with t. rewrite Z.eqb_refl. done.
    - rewrite last_snoc. change (default 0 (Some v)) with v. rewrite (proj2 (Z.eqb_neq t (first ((a ++ [v]) ++ t :: b)))).
      + unfold truthy. rewrite (proj2 (Z.eqb_neq v 0)); [done|]. apply (linked_nz _ _ _ Hl), elem_of_app. left. apply elem_of_app. right. left.
      + intros E. apply Hta. destruct a as [|w a]; cbn in E; subst; [left|by left]. }
  unfold DropQueuedSender. rewrite (proj2 (Z.eqb_neq to 0) Hto), (proj2 (Z.eqb_neq t 0) Hz). cbn [orb]. rewrite Ec. clear Ec. set (ts2 := upd t _ ts1). set (ts3 := if has _ _ then _ else ts2).
  assert (KeepWait ts1 ts2) as W2 by (by apply upd_keep_wait). assert (KeepWait ts2 ts3) as W3 by (unfold ts3; case_match; [by apply upd_keep_wait|done]).
  assert (KeepWait ts ts3) as W by (etrans; [apply Hc|]; by etrans). assert (rfo ts3 t = 0) as Er3 by (destruct W as [[W _] _]; rewrite (proj2 (W t)); done).
  assert (sto ts2 t = 0) as Es2 by (unfold ts2, sto; by rewrite th_upd_eq). assert (sto ts3 t = 0) as Es3 by (unfold ts3; case_match; [unfold sto; by rewrite th_upd_eq|done]).
  assert (Calm ts1 ts2) as C2 by (apply upd_calm; cbn; auto).
  assert (Calm ts2 ts3) as C3. { unfold ts3. case_match; [|done]. apply upd_calm. cbn. split_and!; auto. right. right. split; [exact Es2|]. destruct W2 as [[W2 _] _]. destruct (c_wait _ _ _ _ _ _ Hc) as [[W1 _] _]. change (rfo ts2 t = 0). by rewrite (proj2 (W2 t)), (proj2 (W1 t)). }
  exists ts3. split; [done|]. split_and!; try done.
  - eapply SendInv_cut; [exact H|exact Ek|exact Hc| | |done|etrans; [apply C2|apply C3]].
    + intros u. transitivity (shead ts2 u); [unfold ts3; case_match; [|done]|]; unfold shead, ts2; rewrite ?th_upd; repeat case_decide; subst; done.
    + intros u Hu. assert (th ts3 u = th ts1 u) as E; [|unfold snext, sto; by rewrite E]. unfold ts3, ts2. case_match; rewrite ?th_upd_ne by done; done.
  - etrans; [apply Hc|]. by etrans.
  - apply C3. unfold ts2. rewrite dom_upd. set_solver.
  - intros k. unfold put_list. case_decide as E; [subst; rewrite elem_of_app; tauto|]. intros Hk. apply E, (f_disj _ _ _ (s_forest _ _ _ H) k _ t Hk). rewrite Ek. apply elem_of_app. right. left.
Qed.

(** A thread of no list goes to the private list of [x]. *)
Lemma push_private ts ds L x t : SendInv ts (shd ts ds) L -> t <> 0 -> (forall k, t ∉ L k) -> t ∈ dom ts ->
  SendInv (upd t (w_snext (ds x)) ts) (shd (upd t (w_snext (ds x)) ts) (over ds x t)) (put_list (Private x) (t :: L (Private x)) L).
Proof.
  intros H Hz Hno Hin. eapply SendInv_push; [exact H|done|done|done| | | | | |].
  - intros [j|y] Hj; cbn; [unfold shead; rewrite th_upd; case_decide; subst; done|]. rewrite over_ne by congruence. done.
  - cbn. apply over_eq.
  - intros u Hu. unfold snext. by rewrite th_upd_ne.
  - unfold snext. by rewrite th_upd_eq.
  - intros u. unfold sto. rewrite th_upd. case_decide; subst; done.
  - rewrite dom_upd. set_solver.
Qed.
Lemma snext_calm t x ts : Calm ts (upd t (w_snext x) ts).
Proof. apply upd_calm. cbn. auto. Qed.
Lemma snext_keep t x ts : KeepWait ts (upd t (w_snext x) ts).
Proof. by apply upd_keep_wait. Qed.
End Drops.
