(* ===== verification/MessageSelect.v ===== *)
(** * Messages: the choice of a sender, and the senders of a thread that ends *)
From S2P Require Import Prelude Sched DeviceEvents Message MessageLists MessageProof MessageQueues MessageDrops.

Section Select.
Context {M : Type} `{!IpcMemory M} {C : Type} `{!AsyncChain C} `{!AsyncChainLaws C} {Q : Type} `{!FixedQueue DeviceEvent Q}.
Abbreviation Comm := (Comm C Q).
Abbreviation Threads := (gmap Z Comm).
Implicit Types ts : Threads.

Lemma Send_over_ext ts ds ds' L : SendInv ts (shd ts ds) L -> (forall a, ds' a = ds a) -> SendInv ts (shd ts ds') L.
Proof. intros H E. eapply Send_keep; [exact H|done|exact E]. Qed.

Lemma drop_stale_spec vs to l : to <> 0 -> forall fuel ts ds L, (length l <= fuel)%nat -> L (QueueOf to) = l -> SendInv ts (shd ts ds) L -> Excl ts ->
  exists drop ts' L', drop_stale fuel vs to (ds to) ts = Some (drop, ts') /\ SendInv ts' (shd ts' (over ds to drop)) L' /\ Calm ts ts' /\ KeepWait ts ts' /\
    (shead ts' to = 0 \/ CanUseSyncMsgState vs ts' (shead ts' to) = true).
Proof.
  intros Hto. induction l as [|t l IH]; intros fuel ts ds L Hf Ek H He.
  - assert (shead ts to = 0) as Eh by (rewrite (queue_head _ _ _ to H), Ek; done). exists (ds to), ts, L. assert (drop_stale fuel vs to (ds to) ts = Some (ds to, ts)) as ->.
    { destruct fuel; cbn [drop_stale]; change (queue_send_queuehead (th ts to)) with (shead ts to); rewrite Eh; done. }
    split_and!; try done; [|by left]. eapply Send_over_ext; [exact H|]. intros a. unfold over. case_decide; by subst.
  - assert (shead ts to = t) as Eh by (rewrite (queue_head _ _ _ to H), Ek; done). destruct fuel as [|fuel]; [cbn in Hf; lia|]. cbn [drop_stale]. change (queue_send_queuehead (th ts to)) with (shead ts to). rewrite Eh.
    destruct (DropQueuedSender_spec vs ts ds L to [] t l H He Hto Ek) as (ts1 & Ed & H1 & C1 & W1 & Hz & Hin & Hs & Hr & Hno). cbn [app] in *. change (default 0 (last [])) with 0 in Ed.
    unfold truthy at 1. rewrite (proj2 (Z.eqb_neq t 0) Hz). cbn [negb andb]. destruct (CanUseSyncMsgState vs ts t) eqn:Eu; cbn [negb].
    { exists (ds to), ts, L. split_and!; try done; [|right; by rewrite Eh]. eapply Send_over_ext; [exact H|]. intros a. unfold over. case_decide; by subst. }
    rewrite Ed. cbn in Hf. destruct (gone (v_state (vs t))).
    + change (truthy 0) with false. cbv iota. destruct (IH fuel ts1 ds (put_list (QueueOf to) l L)) as (drop & ts' & L' & E & H' & C' & W' & Hu); [lia|apply put_list_eq|done|by eapply Excl_calm|].
      exists drop, ts', L'. split_and!; try done; [by etrans|by etrans].
    + unfold truthy. rewrite (proj2 (Z.eqb_neq t 0) Hz). cbn [negb]. pose proof (push_private ts1 ds _ to t H1 Hz Hno Hin) as H2. set (ts2 := upd t (w_snext (ds to)) ts1) in *.
      assert (Calm ts1 ts2) as C2 by apply snext_calm. assert (KeepWait ts1 ts2) as W2 by apply snext_keep.
      destruct (IH fuel ts2 (over ds to t) (put_list (Private to) (t :: put_list (QueueOf to) l L (Private to)) (put_list (QueueOf to) l L))) as (drop & ts' & L' & E & H' & C' & W' & Hu);
        [lia|rewrite put_list_ne by done; apply put_list_eq|done|eapply Excl_calm; [|done]; by eapply Excl_calm|].
      rewrite over_eq in E. exists drop, ts', L'. split_and!; try done; [|etrans; [done|]; by etrans|etrans; [done|]; by etrans].
      eapply Send_over_ext; [exact H'|]. intros a. unfold over. by case_decide.
Qed.

(** What a receiver selects is a thread in its queue, that can be served. *)
Definition selected vs ts L (to : Z) (sel : option (Z * Z)) : Prop :=
  match sel with
  | None => True
  | Some (fo, prev) => exists a b, L (QueueOf to) = a ++ fo :: b /\ prev = default 0 (last a) /\ CanUseSyncMsgState vs ts fo = true
  end.

Lemma select_sender_spec vs to r ts ds L : to <> 0 -> SendInv ts (shd ts ds) L -> Excl ts -> ds to = 0 ->
  exists sel drop ts' L', select_sender vs to r ts = Ok (sel, drop, ts') /\ SendInv ts' (shd ts' (over ds to drop)) L' /\ Calm ts ts' /\ KeepWait ts ts' /\ selected vs ts' L' to sel.
Proof.
  intros Hto H He Hds. unfold select_sender.
  assert (SendInv ts (shd ts (over ds to 0)) L) as H0 by (eapply Send_over_ext; [exact H|]; intros a; unfold over; case_decide; by subst).
  destruct (foo r =? ANYPROC).
  { destruct (drop_stale_spec vs to (L (QueueOf to)) Hto (walk_fuel ts) ts ds L) as (drop & ts' & L' & E & H' & C' & W' & Hu); try done; [pose proof (list_bound ts _ L (QueueOf to) H); unfold walk_fuel; lia|].
    rewrite Hds in E. rewrite E. cbn [ended obind]. change (queue_send_queuehead (th ts' to)) with (shead ts' to). destruct (Z.eqb_spec (shead ts' to) 0) as [Ez|Hz].
    - exists None, drop, ts', L'. done.
    - destruct Hu as [Hu|Hu]; [done|]. pose proof (queue_head _ _ _ to H') as Eh. destruct (L' (QueueOf to)) as [|t l] eqn:Ek; [done|]. change (first (t :: l)) with t in Eh. rewrite Eh in *.
      assert (sto ts' t = to) as Est by (apply (s_queue _ _ _ H' to t); rewrite Ek; left). change (send_to_whom (th ts' t)) with (sto ts' t). rewrite Est, Z.eqb_refl.
      exists (Some (t, 0)), drop, ts', L'. split_and!; try done. exists [], l. done. }
  destruct (foo r =? INTRUPT); [by exists None, 0, ts, L|]. destruct (truthy (lookup r) && _) eqn:Ec; [|by exists None, 0, ts, L]. apply andb_true_iff in Ec as [Ez Est%Z.eqb_eq]. set (t := lookup r) in *.
  destruct (in_queue ts _ L t to H Est Hto) as (a & b & Ek & Ha & Hb & Hlen). change (queue_send_queuehead (th ts to)) with (shead ts to). rewrite (queue_head _ _ _ to H), Ek.
  pose proof (f_link _ _ _ (s_forest _ _ _ H) (QueueOf to)) as Hl. rewrite Ek in Hl. rewrite (walk_found (snext ts) t b a (walk_fuel ts) 0 Hl Ha) by (unfold walk_fuel; lia). cbn [ended obind].
  unfold truthy in Ez. apply negb_true_iff in Ez. rewrite Ez. destruct (CanUseSyncMsgState vs ts t) eqn:Eu.
  { exists (Some (t, default 0 (last a))), 0, ts, L. split_and!; try done. by exists a, b. }
  destruct (DropQueuedSender_spec vs ts ds L to a t b H He Hto Ek) as (ts1 & Ed & H1 & C1 & W1 & Hz & Hin & Hs & Hr & Hno). rewrite Ed. destruct (gone (v_state (vs t))).
  { exists None, 0, ts1, (put_list (QueueOf to) (a ++ b) L). split_and!; try done. eapply Send_over_ext; [exact H1|]. intros x. unfold over. case_decide; by subst. }
  rewrite Ez. set (ts2 := if has _ _ then _ else ts1).
  assert (KeepSend ts1 ts2) as S2 by (unfold ts2; case_match; [by apply upd_keep_send|done]). assert (KeepWait ts1 ts2) as W2 by (unfold ts2; case_match; [by apply upd_keep_wait|done]).
  assert (Calm ts1 ts2) as C2 by (unfold ts2; case_match; [apply upd_calm; cbn; split_and!; auto; by right; left|done]).
  assert (SendInv ts2 (shd ts2 ds) (put_list (QueueOf to) (a ++ b) L)) as H2 by (by eapply Send_keep).
  assert (t ∈ dom ts2) as Hin2 by (by apply C2). pose proof (push_private ts2 ds _ to t H2 Hz Hno Hin2) as H3. rewrite Hds in H3. exists None, t. eexists _, _. split; [done|]. split; [exact H3|].
  split_and!; [|etrans; [done|]; etrans; [done|]; apply snext_keep|done]. etrans; [done|]. etrans; [done|]. apply snext_calm.
Qed.

Lemma take_sender_cut ts ds L to a t b : SendInv ts (shd ts ds) L -> L (QueueOf to) = a ++ t :: b ->
  take_sender to t (default 0 (last a)) ts = Some (upd t (w_snext 0) (cut to (default 0 (last a)) t ts)).
Proof.
  intros H Ek. pose proof (f_link _ _ _ (s_forest _ _ _ H) (QueueOf to)) as Hl. pose proof (f_nodup _ _ _ (s_forest _ _ _ H) (QueueOf to)) as Hn. rewrite Ek in Hl, Hn. apply NoDup_app in Hn as (_ & Hn & _).
  unfold take_sender, cut. change (queue_send_queuehead (th ts to)) with (shead ts to). rewrite (queue_head _ _ _ to H), Ek. destruct a as [|v a _] using rev_ind.
  - change (first ([] ++ t :: b)) with t. by rewrite Z.eqb_refl.
  - rewrite last_snoc. change (default 0 (Some v)) with v. rewrite (proj2 (Z.eqb_neq t (first ((a ++ [v]) ++ t :: b)))).
    + unfold truthy. rewrite (proj2 (Z.eqb_neq v 0)); [done|]. apply (linked_nz _ _ _ Hl), elem_of_app. left. apply elem_of_app. right. left.
    + intros E. apply (Hn t); [|left]. destruct a as [|w a]; cbn in E; subst; [left|by left].
Qed.

Lemma umsg_upd t f ts u : (forall c, unsolved_msg (f c) = unsolved_msg c) -> umsg (upd t f ts) u = umsg ts u.
Proof. intros H. unfold umsg. rewrite th_upd. case_decide; [subst; apply H|done]. Qed.

(** The sender that was served is free. *)
Lemma serve_sender ts ds L to a t b : SendInv ts (shd ts ds) L -> Excl ts -> to <> 0 -> L (QueueOf to) = a ++ t :: b ->
  let ts1 := upd t (w_snext 0) (cut to (default 0 (last a)) t ts) in let ts2 := upd t (fun c => w_to 0 (w_unsolved 0 c)) ts1 in
  SendInv ts2 (shd ts2 ds) (put_list (QueueOf to) (a ++ b) L) /\ Calm ts ts2 /\ KeepWait ts ts1 /\ KeepWait ts ts2 /\ (forall u, umsg ts1 u = umsg ts u).
Proof.
  intros H He Hto Ek ts1 ts2. pose proof (cut_ok _ _ _ _ _ _ _ H Ek) as Hc. set (ts0 := cut _ _ _ _) in *. assert (KeepWait ts ts1) as W1 by (etrans; [apply Hc|apply snext_keep]).
  assert (sto ts t = to) as Est by (apply (s_queue _ _ _ H to t); rewrite Ek; apply elem_of_app; right; left). assert (rfo ts t = 0) as Er by (destruct (He t) as [E|E]; [congruence|done]).
  split_and!; [| |done|etrans; [exact W1|by apply upd_keep_wait]|].
  - eapply SendInv_cut; [exact H|exact Ek|exact Hc| | | |].
    + intros u. unfold shead, ts2, ts1. rewrite !th_upd. repeat case_decide; subst; done.
    + intros u Hu. unfold snext, sto, ts2, ts1. by rewrite !th_upd_ne.
    + unfold sto, ts2. by rewrite th_upd_eq.
    + unfold ts2, ts1. rewrite !dom_upd. set_solver.
  - etrans; [apply Hc|]. etrans; [apply snext_calm|]. apply upd_calm. cbn. split_and!; auto. right. right. split; [done|]. change (rfo ts1 t = 0). destruct W1 as [[W1 _] _]. by rewrite (proj2 (W1 t)).
  - intros u. unfold ts1, ts0, cut. rewrite umsg_upd by done. case_match; by rewrite umsg_upd.
Qed.

(** ** All senders of a thread *)
Lemma drop_senders_spec vs r x l : r <> 0 -> forall fuel ts hd L, (length l <= fuel)%nat -> L (QueueOf r) = l -> SendInv ts hd L -> Excl ts ->
  exists drop ts' L', drop_senders fuel vs (first l) (hd (Private x)) ts = Some (drop, ts') /\ SendInv ts' (over (over hd (Private x) drop) (QueueOf r) 0) L' /\
    Calm ts ts' /\ KeepWait ts ts' /\ (forall u, shead ts' u = shead ts u).
Proof.
  intros Hr. induction l as [|t l IH]; intros fuel ts hd L Hf Ek H He.
  - exists (hd (Private x)), ts, L. split_and!; try done; [by destruct fuel|]. eapply SendInv_frame; [exact H|done|]. intros k. unfold over. repeat case_decide; subst; try done. by rewrite (f_head _ _ _ (s_forest _ _ _ H)), Ek.
  - destruct fuel as [|fuel]; [cbn in Hf; lia|]. pose proof (f_link _ _ _ (s_forest _ _ _ H) (QueueOf r)) as Hl. rewrite Ek in Hl. destruct Hl as (Hz & Hnx & Hl).
    assert (sto ts t = r) as Est by (apply (s_queue _ _ _ H r t); rewrite Ek; left). assert (rfo ts t = 0) as Er by (destruct (He t) as [E|E]; [congruence|done]).
    change (first (t :: l)) with t. cbn [drop_senders]. rewrite (proj2 (Z.eqb_neq t 0) Hz). set (ts1 := upd t _ ts). set (ts2 := if has _ _ then _ else ts1). rewrite Hnx.
    assert (Calm ts ts1) as C1 by (apply upd_calm; cbn; auto). assert (KeepWait ts ts1) as W1 by (by apply upd_keep_wait).
    assert (KeepWait ts1 ts2) as W2 by (unfold ts2; case_match; [by apply upd_keep_wait|done]).
    assert (Calm ts1 ts2) as C2. { unfold ts2. case_match; [|done]. apply upd_calm. cbn. split_and!; auto. right. right. unfold ts1. rewrite th_upd_eq. done. }
    assert (forall u, u <> t -> th ts2 u = th ts u) as Eo by (intros u Hu; unfold ts2, ts1; case_match; by rewrite ?th_upd_ne).
    assert (sto ts2 t = 0 /\ snext ts2 t = hd (Private x) /\ shead ts2 t = shead ts t) as (E1 & E2 & E3) by (unfold sto, snext, shead, ts2, ts1; case_match; rewrite ?th_upd_eq; done).
    assert (t ∈ dom ts2) as Hin by (apply C2; unfold ts1; rewrite dom_upd; set_solver).
    assert (SendInv ts2 (over hd (QueueOf r) (first l)) (put_list (QueueOf r) l L)) as H1.
    { apply (SendInv_remove ts ts2 hd _ L r [] t l H Ek); cbn [app]; try done.
      - intros j Hj. by apply over_ne.
      - apply over_eq.
      - intros u Hu _. unfold snext. by rewrite Eo.
      - intros u Hu. unfold sto. by rewrite Eo.
      - etrans; [apply C1|apply C2]. }
    assert (forall k, t ∉ put_list (QueueOf r) l L k) as Hno.
    { intros k. pose proof (f_nodup _ _ _ (s_forest _ _ _ H) (QueueOf r)) as Hn. rewrite Ek in Hn. apply NoDup_cons in Hn as [Hn _]. unfold put_list. case_decide as E; [done|]. intros Hk. apply E, (f_disj _ _ _ (s_forest _ _ _ H) k _ t Hk). rewrite Ek. left. }
    assert (SendInv ts2 (over (over hd (QueueOf r) (first l)) (Private x) t) (put_list (Private x) (t :: put_list (QueueOf r) l L (Private x)) (put_list (QueueOf r) l L))) as H2.
    { eapply (SendInv_push ts2 ts2); [exact H1|done|done|done|intros j Hj; by apply over_ne|apply over_eq|done|rewrite over_ne by done; exact E2|done|done]. }
    destruct (IH fuel ts2 (over (over hd (QueueOf r) (first l)) (Private x) t) (put_list (Private x) (t :: put_list (QueueOf r) l L (Private x)) (put_list (QueueOf r) l L))) as (drop & ts' & L' & E & H' & C' & W' & Sh); [cbn in Hf; lia|rewrite put_list_ne by done; apply put_list_eq|exact H2|eapply Excl_calm; [|exact C2]; by eapply Excl_calm|].
    rewrite over_eq in E. exists drop, ts', L'. split_and!; try done.
    + eapply SendInv_frame; [exact H'|done|]. intros k. unfold over. repeat case_decide; congruence.
    + etrans; [done|]. by etrans.
    + etrans; [done|]. by etrans.
    + intros u. rewrite Sh. destruct (decide (u = t)) as [->|Hu]; [done|]. unfold shead. by rewrite Eo.
Qed.

Lemma sever_senders_spec r l : r <> 0 -> forall fuel ts hd L, (length l <= fuel)%nat -> L (QueueOf r) = l -> SendInv ts hd L -> Excl ts ->
  exists ts' L', sever_senders fuel (first l) ts = Some ts' /\ SendInv ts' (over hd (QueueOf r) 0) L' /\ Calm ts ts' /\ KeepWait ts ts' /\ (forall u, shead ts' u = shead ts u).
Proof.
  intros Hr. induction l as [|t l IH]; intros fuel ts hd L Hf Ek H He.
  - exists ts, L. split_and!; try done; [by destruct fuel|]. eapply SendInv_frame; [exact H|done|]. intros k. unfold over. case_decide; subst; try done. by rewrite (f_head _ _ _ (s_forest _ _ _ H)), Ek.
  - destruct fuel as [|fuel]; [cbn in Hf; lia|]. pose proof (f_link _ _ _ (s_forest _ _ _ H) (QueueOf r)) as Hl. rewrite Ek in Hl. destruct Hl as (Hz & Hnx & Hl).
    assert (sto ts t = r) as Est by (apply (s_queue _ _ _ H r t); rewrite Ek; left). assert (rfo ts t = 0) as Er by (destruct (He t) as [E|E]; [congruence|done]).
    change (first (t :: l)) with t. cbn [sever_senders]. rewrite (proj2 (Z.eqb_neq t 0) Hz). set (ts1 := upd t _ ts). rewrite Hnx.
    assert (Calm ts ts1) as C1 by (apply upd_calm; cbn; split_and!; [by right|by left|by right; right|done]). assert (KeepWait ts ts1) as W1 by (by apply upd_keep_wait).
    assert (SendInv ts1 (over hd (QueueOf r) (first l)) (put_list (QueueOf r) l L)) as H1.
    { apply (SendInv_remove ts ts1 hd _ L r [] t l H Ek); cbn [app]; try done.
      - intros j Hj. by apply over_ne.
      - apply over_eq.
      - intros u Hu _. unfold snext, ts1. by rewrite th_upd_ne.
      - unfold sto, ts1. by rewrite th_upd_eq.
      - intros u Hu. unfold sto, ts1. by rewrite th_upd_ne.
      - apply C1. }
    destruct (IH fuel ts1 (over hd (QueueOf r) (first l)) (put_list (QueueOf r) l L)) as (ts' & L' & E & H' & C' & W' & Sh); [cbn in Hf; lia|apply put_list_eq|exact H1|by eapply Excl_calm|].
    exists ts', L'. split_and!; try done; [|by etrans|by etrans|].
    + eapply SendInv_frame; [exact H'|done|]. intros k. unfold over. repeat case_decide; congruence.
    + intros u. rewrite Sh. unfold shead, ts1. rewrite th_upd. case_decide as E'; [by rewrite E'|done].
Qed.

(** The head of a queue is reset once the queue is empty. *)
Lemma reset_head ts ds L r : SendInv ts (over (shd ts ds) (QueueOf r) 0) L -> SendInv (upd r (w_shead 0) ts) (shd (upd r (w_shead 0) ts) ds) L.
Proof.
  intros H. eapply SendInv_frame; [exact H| |].
  - split; [|rewrite dom_upd; set_solver]. intros u. unfold snext, sto. rewrite th_upd. case_decide; subst; done.
  - intros [j|a]; cbn; [|by rewrite over_ne by done]. unfold shead. rewrite th_upd. case_decide; subst; [by rewrite over_eq|]. rewrite over_ne by congruence. done.
Qed.
Lemma wake_sender_spec ts ds L x : SendInv ts (shd ts ds) L -> ds x <> 0 ->
  let '(h, ts') := wake_sender (ds x) ts in exists L', SendInv ts' (shd ts' (over ds x h)) L' /\ Calm ts ts' /\ KeepWait ts ts'.
Proof.
  intros H Hz. unfold wake_sender. pose proof (f_head _ _ _ (s_forest _ _ _ H) (Private x)) as Hh. pose proof (f_link _ _ _ (s_forest _ _ _ H) (Private x)) as Hl. change (ds x = first (L (Private x))) in Hh.
  destruct (L (Private x)) as [|t l] eqn:Ek; [done|]. change (first (t :: l)) with t in Hh. rewrite Hh. destruct Hl as (_ & Hn & _). exists (put_list (Private x) l L). split_and!; [|apply snext_calm|apply snext_keep].
  eapply SendInv_pop; [exact H|exact Ek| | | | |].
  - intros [j|y] Hj; cbn; [unfold shead; rewrite th_upd; case_decide; subst; done|]. rewrite over_ne by congruence. done.
  - cbn. by rewrite over_eq.
  - intros u Hu. unfold snext. by rewrite th_upd_ne.
  - intros u. unfold sto. rewrite th_upd. case_decide; subst; done.
  - rewrite dom_upd. set_solver.
Qed.
End Select.
