(* ===== verification/MessageWaits.v ===== *)
(** * Messages: the receivers that wait for a thread *)
From S2P Require Import Prelude Sched DeviceEvents Message MessageLists MessageProof MessageQueues MessageDrops.

Section Waits.
Context {M : Type} `{!IpcMemory M} {C : Type} `{!AsyncChain C} `{!AsyncChainLaws C} {Q : Type} `{!FixedQueue DeviceEvent Q}.
Abbreviation Comm := (Comm C Q).
Abbreviation Threads := (gmap Z Comm).
Implicit Types ts : Threads.

Lemma WaitInv_remove ts ts' hd hd' L k a t b : WaitInv ts hd L -> L k = a ++ t :: b ->
  (forall j, j <> k -> hd' j = hd j) -> hd' k = first (a ++ b) ->
  (forall u, u <> t -> last a <> Some u -> wnext ts' u = wnext ts u) -> (forall u, last a = Some u -> wnext ts' u = first b) ->
  (forall u, u <> t -> rfo ts' u = rfo ts u) -> dom ts ⊆ dom ts' -> WaitInv ts' hd' (put_list k (a ++ b) L) /\ (forall j, t ∉ put_list k (a ++ b) L j).
Proof.
  intros H Ek Hh Hk Hn Hl Ho Hd. pose proof (f_nodup _ _ _ (r_forest _ _ _ H) k) as Hnd. rewrite Ek in Hnd. apply NoDup_app in Hnd as (_ & Hab & Hb). apply NoDup_cons in Hb as [Hb _].
  assert (t ∉ a) as Hta by (intros Hx; apply (Hab t Hx); left).
  assert (forall j, t ∉ put_list k (a ++ b) L j) as Hno.
  { intros j. unfold put_list. case_decide as E; [subst; rewrite elem_of_app; tauto|]. intros Hj. apply E, (f_disj _ _ _ (r_forest _ _ _ H) j k t Hj). rewrite Ek. apply elem_of_app. right. left. }
  assert (forall j u, u ∈ put_list k (a ++ b) L j -> u ∈ L j /\ u <> t) as Hm.
  { intros j u Hu. split; [|intros ->; by apply (Hno j)]. revert Hu. unfold put_list. case_decide; [subst; rewrite Ek, !elem_of_app, elem_of_cons; tauto|done]. }
  split; [|done]. constructor.
  - eapply Forest_remove; [apply H|exact Ek|done|done|done|done].
  - intros r u [Hu Hne]%Hm. rewrite Ho by done. by apply H.
  - intros x u [Hu Hne]%Hm. rewrite Ho by done. by apply (r_private _ _ _ H x).
  - intros j u [Hu _]%Hm. by eapply Hd, r_known.
Qed.

Definition waits_as (k : Key) (x : Z) : Prop := match k with QueueOf r => x = r /\ thread_ok r | Private _ => x = 0 end.
Lemma WaitInv_push ts ts' hd hd' L k t : WaitInv ts hd L -> t <> 0 -> (forall j, t ∉ L j) -> t ∈ dom ts' ->
  (forall j, j <> k -> hd' j = hd j) -> hd' k = t -> (forall u, u <> t -> wnext ts' u = wnext ts u) -> wnext ts' t = hd k ->
  (forall u, u <> t -> rfo ts' u = rfo ts u) -> waits_as k (rfo ts' t) -> dom ts ⊆ dom ts' -> WaitInv ts' hd' (put_list k (t :: L k) L).
Proof.
  intros H Hz Hno Hin Hh Hk Hn Ht Ho Hw Hd.
  assert (forall j u, u ∈ put_list k (t :: L k) L j -> u ∈ L j /\ u <> t \/ u = t /\ j = k) as Hm.
  { intros j u. unfold put_list. case_decide as E; [subst j; rewrite elem_of_cons|]; intros Hu; destruct (decide (u = t)) as [->|Hne]; try tauto. by destruct (Hno j). }
  constructor.
  - eapply Forest_push; try done. apply H.
  - intros r u [[Hu Hne]|[-> <-]]%Hm; [rewrite Ho by done; by apply H|exact Hw].
  - intros x u [[Hu Hne]|[-> <-]]%Hm; [rewrite Ho by done; by apply (r_private _ _ _ H x)|exact Hw].
  - intros j u [[Hu Hne]|[-> _]]%Hm; [by eapply Hd, r_known|done].
Qed.

(** ** Leaving *)
Lemma UnlinkWaitEntry_spec ts dr L t : WaitInv ts (whd ts dr) L -> (rfo ts t = 0 \/ special (rfo ts t) = true \/ thread_ok (rfo ts t)) ->
  exists ts' L', UnlinkWaitEntry t ts = Ok ts' /\ WaitInv ts' (whd ts' dr) L' /\ KeepSend ts ts' /\ (forall u, rfo ts' u = rfo ts u /\ umsg ts' u = umsg ts u /\ items ts' u = items ts u) /\
    dom ts ⊆ dom ts' /\ (forall r, t ∉ L' (QueueOf r)).
Proof.
  intros H Hfo. unfold UnlinkWaitEntry. change (recv_fo_whom (th ts t)) with (rfo ts t). set (p := rfo ts t) in *.
  assert ((forall r, t ∉ L (QueueOf r)) -> exists ts' L', Ok ts = Ok ts' /\ WaitInv ts' (whd ts' dr) L' /\ KeepSend ts ts' /\ (forall u, rfo ts' u = rfo ts u /\ umsg ts' u = umsg ts u /\ items ts' u = items ts u) /\
    dom ts ⊆ dom ts' /\ (forall r, t ∉ L' (QueueOf r))) as Hsame by (intros Hr; by exists ts, L).
  destruct ((p =? 0) || (p =? ANYPROC) || (p =? INTRUPT)) eqn:Ep.
  { apply Hsame. intros r Hr. apply (r_queue _ _ _ H) in Hr as [Er Hok]. fold p in Er. rewrite <- Er in Hok. apply thread_ok_nz in Hok as Hz. apply thread_ok_special in Hok. unfold special in Hok. apply orb_false_iff in Hok as [E1 E2]. rewrite E1, E2 in Ep. cbn in Ep. rewrite !orb_false_r in Ep. lia. }
  apply orb_false_iff in Ep as [Ep E2]. apply orb_false_iff in Ep as [E0 E1]. destruct Hfo as [Hfo|[Hfo|Hok]]; [lia|unfold special in Hfo; by rewrite E1, E2 in Hfo|].
  pose proof (f_link _ _ _ (r_forest _ _ _ H) (QueueOf p)) as Hl. pose proof (f_head _ _ _ (r_forest _ _ _ H) (QueueOf p)) as Hh. change (whead ts p = first (L (QueueOf p))) in Hh. pose proof (wait_bound ts _ L (QueueOf p) H) as Hlen.
  change (queue_wait_queuehead (th ts p)) with (whead ts p). rewrite Hh. destruct (decide (t ∈ L (QueueOf p))) as [Hin|Hno].
  2: { destruct (walk_missing (wnext ts) t (L (QueueOf p)) (walk_fuel ts) 0 Hl Hno) as [q ->]; [unfold walk_fuel; lia|]. cbn. apply Hsame. intros r Hr. apply (r_queue _ _ _ H) in Hr as Hq. destruct Hq as [Hq _]. fold p in Hq. by subst r. }
  apply list_elem_of_split in Hin as (a & b & Ek). rewrite Ek in *. pose proof (f_nodup _ _ _ (r_forest _ _ _ H) (QueueOf p)) as Hn. rewrite Ek in Hn. apply NoDup_app in Hn as (_ & Hn & _).
  assert (t ∉ a) as Hta by (intros Hx; apply (Hn t Hx); left). rewrite length_app in Hlen. cbn in Hlen. rewrite (walk_found (wnext ts) t b a (walk_fuel ts) 0 Hl Hta) by (unfold walk_fuel; lia). cbn [ended obind].
  assert (t <> 0 /\ wnext ts t = first b) as [Hz Et] by (destruct (linked_suffix _ a _ Hl) as (? & ? & ?); done). rewrite (proj2 (Z.eqb_neq t 0) Hz), Et. set (ts1 := if truthy _ then _ else _).
  assert (whead ts1 p = first (a ++ b) /\ (forall j, j <> p -> whead ts1 j = whead ts j) /\ (forall u, last a <> Some u -> wnext ts1 u = wnext ts u) /\ (forall u, last a = Some u -> wnext ts1 u = first b) /\
    (forall u, rfo ts1 u = rfo ts u /\ umsg ts1 u = umsg ts u /\ items ts1 u = items ts u) /\ KeepSend ts ts1) as (P1 & P2 & P3 & P4 & P5 & P6).
  { unfold ts1, truthy. destruct a as [|v a _] using rev_ind; [change (default 0 (last [])) with 0; rewrite Z.eqb_refl|rewrite last_snoc; change (default 0 (Some v)) with v; rewrite (proj2 (Z.eqb_neq v 0))]; cbn [negb].
    - split_and!; try (intros u; unfold whead, wnext, rfo, umsg, items; rewrite th_upd; case_decide as E'; [rewrite E'|]; done); [unfold whead; by rewrite th_upd_eq|by apply upd_keep_send].
    - split_and!; try (intros u; unfold whead, rfo, umsg, items; rewrite th_upd; case_decide as E'; [rewrite E'|]; done); [|intros u Hu; unfold wnext; rewrite th_upd_ne; [done|congruence]|intros u [= ->]; unfold wnext; by rewrite th_upd_eq|by apply upd_keep_send].
      transitivity (whead ts p); [unfold whead; rewrite th_upd; case_decide as E'; [by rewrite E'|done]|]. rewrite Hh. by destruct a.
    - apply (linked_nz _ _ _ Hl), elem_of_app. left. apply elem_of_app. right. left. }
  set (ts2 := upd t (w_wnext 0) ts1). assert (forall u, rfo ts2 u = rfo ts1 u /\ umsg ts2 u = umsg ts1 u /\ items ts2 u = items ts1 u /\ whead ts2 u = whead ts1 u) as Q1 by (intros u; unfold rfo, umsg, items, whead, ts2; rewrite th_upd; case_decide as E'; [rewrite E'|]; done).
  assert (dom ts ⊆ dom ts2) as Hd by (etrans; [apply P6|]; unfold ts2; rewrite dom_upd; set_solver).
  destruct (WaitInv_remove ts ts2 (whd ts dr) (whd ts2 dr) L (QueueOf p) a t b H Ek) as [H' Hno].
  - intros [j|x] Hj; cbn; [|done]. destruct (Q1 j) as (_ & _ & _ & ->). apply P2. congruence.
  - cbn. destruct (Q1 p) as (_ & _ & _ & ->). done.
  - intros u Hu Hx. unfold wnext, ts2. rewrite th_upd_ne by done. by apply P3.
  - intros u Hu. unfold wnext, ts2. rewrite th_upd_ne; [by apply P4|]. intros ->. by apply Hta, last_Some_elem_of.
  - intros u _. destruct (Q1 u) as (-> & _). apply P5.
  - done.
  - exists ts2, (put_list (QueueOf p) (a ++ b) L). split_and!; try done.
    + etrans; [exact P6|]. by apply upd_keep_send.
    + intros u. destruct (Q1 u) as (-> & -> & -> & _). apply P5.
Qed.

(** A thread of no wait list stops receiving. *)
Lemma WaitInv_clear ts dr L t f : WaitInv ts (whd ts dr) L -> (forall r, t ∉ L (QueueOf r)) ->
  (forall c, recv_fo_whom (f c) = 0 /\ queue_wait_queuehead (f c) = queue_wait_queuehead c /\ queue_wait_queuenext (f c) = queue_wait_queuenext c) ->
  WaitInv (upd t f ts) (whd (upd t f ts) dr) L.
Proof.
  intros H Hno Hf. assert (rfo (upd t f ts) t = 0) as R2 by (unfold rfo; rewrite th_upd_eq; apply Hf). constructor.
  - eapply Forest_frame; [apply H| |].
    + intros [j|x]; cbn; [|done]. unfold whead. rewrite th_upd. case_decide; [subst; apply Hf|done].
    + intros k u _. unfold wnext. rewrite th_upd. case_decide; [subst; apply Hf|done].
  - intros r u Hu. assert (u <> t) as Hne by (intros ->; by apply (Hno r)). unfold rfo. rewrite th_upd_ne by done. by apply (r_queue _ _ _ H).
  - intros x u Hu. destruct (decide (u = t)) as [->|Hne]; [done|]. unfold rfo. rewrite th_upd_ne by done. by apply (r_private _ _ _ H x).
  - intros k u Hu. rewrite dom_upd. apply elem_of_union_r. by eapply r_known.
Qed.

(** A receiver leaves its wait list, whatever becomes of its message. *)
Lemma stop_receiving ts dr L t f : WaitInv ts (whd ts dr) L -> Excl ts -> (rfo ts t = 0 \/ special (rfo ts t) = true \/ thread_ok (rfo ts t)) -> sto ts t = 0 ->
  (forall c, recv_fo_whom (f c) = 0 /\ send_to_whom (f c) = send_to_whom c /\ queue_send_queuehead (f c) = queue_send_queuehead c /\ queue_send_queuenext (f c) = queue_send_queuenext c /\
     queue_wait_queuehead (f c) = queue_wait_queuehead c /\ queue_wait_queuenext (f c) = queue_wait_queuenext c /\ async_messages (f c) = async_messages c) ->
  exists ts1 L', UnlinkWaitEntry t ts = Ok ts1 /\ (forall u, umsg ts1 u = umsg ts u /\ rfo ts1 u = rfo ts u) /\ KeepSend ts ts1 /\
    WaitInv (upd t f ts1) (whd (upd t f ts1) dr) L' /\ Calm ts (upd t f ts1) /\ KeepSend ts (upd t f ts1) /\ rfo (upd t f ts1) t = 0.
Proof.
  intros H He Hfo Hs Hf. destruct (UnlinkWaitEntry_spec ts dr L t H Hfo) as (ts1 & L' & E & H1 & S1 & F1 & D1 & Hno). exists ts1, L'. split; [done|]. split; [intros u; split; apply F1|]. split; [done|].
  assert (KeepSend ts (upd t f ts1)) as S2 by (etrans; [exact S1|]; apply upd_keep_send; cbn; destruct (Hf (th ts1 t)) as (_ & ? & ? & ? & _); auto).
  assert (rfo (upd t f ts1) t = 0) as R2 by (unfold rfo; rewrite th_upd_eq; apply Hf). split_and!; try done.
  - apply WaitInv_clear; [done|done|]. intros c. destruct (Hf c) as (? & _ & _ & _ & ? & ? & _). done.
  - split; [|etrans; [exact D1|]; rewrite dom_upd; set_solver]. destruct S2 as [[S2 _] _]. intros u. rewrite (proj2 (S2 u)). destruct (F1 u) as (A1 & A2 & A3). unfold rfo, umsg, items in *. rewrite th_upd. case_decide as E'.
    + subst u. destruct (Hf (th ts1 t)) as (F2 & _ & _ & _ & _ & _ & F3). rewrite F2, F3, A3. split_and!; auto.
    + rewrite A1, A2, A3. split_and!; auto.
Qed.

Lemma items_upd t f ts u : (forall c, async_messages (f c) = async_messages c) -> items (upd t f ts) u = items ts u.
Proof. intros H. unfold items. rewrite th_upd. case_decide; [subst; by rewrite H|done]. Qed.

(** ** Joining *)
Lemma arm_spec ts dr L t peer m ker : WaitInv ts (whd ts dr) L -> t <> 0 -> rfo ts t = 0 -> (forall a, t ∉ L (Private a)) -> thread_ok peer ->
  let ts' := upd t (fun c => w_fo peer (w_kernel ker (w_unsolved m c))) (LinkWaitEntry t peer ts) in
  exists L', WaitInv ts' (whd ts' dr) L' /\ KeepSend ts ts' /\ rfo ts' t = peer /\ umsg ts' t = m /\ (forall u, u <> t -> rfo ts' u = rfo ts u /\ umsg ts' u = umsg ts u) /\ (forall u, items ts' u = items ts u).
Proof.
  intros H Hz H0 Hp Hok. unfold LinkWaitEntry. set (ts1 := upd t (w_wnext _) ts). set (ts2 := upd peer (w_whead t) ts1). set (g := fun c : Comm => _). set (ts3 := upd t g ts2). cbv zeta.
  assert (forall j, t ∉ L j) as Hno by (intros [r|a]; [|done]; intros Hr; apply (r_queue _ _ _ H) in Hr as [Hr Hrk]; rewrite H0 in Hr; subst r; by apply thread_ok_nz in Hrk).
  assert (KeepSend ts ts1) as S1 by (by apply upd_keep_send). assert (KeepSend ts1 ts2) as S2 by (by apply upd_keep_send). assert (KeepSend ts2 ts3) as S3 by (by apply upd_keep_send).
  assert (KeepSend ts ts3) as S by (etrans; [exact S1|]; by etrans).
  assert (forall u, u <> t -> rfo ts3 u = rfo ts u /\ umsg ts3 u = umsg ts u /\ wnext ts3 u = wnext ts u) as Ho.
  { intros u Hu. unfold rfo, umsg, wnext, ts3, ts2, ts1. rewrite th_upd_ne by done. rewrite th_upd. case_decide as E; [subst u|]; rewrite th_upd_ne by done; done. }
  assert (wnext ts3 t = whead ts peer /\ rfo ts3 t = peer /\ umsg ts3 t = m) as (E1 & E2 & E3).
  { unfold rfo, umsg, wnext, ts3, ts2. rewrite th_upd_eq, th_upd. case_decide as E; [rewrite <- E|]; unfold ts1; rewrite th_upd_eq; cbn; rewrite <- ?E; done. }
  assert (forall u, u <> peer -> whead ts3 u = whead ts u) as Hw.
  { intros u Hu. unfold whead, ts3. rewrite th_upd. case_decide as E; [subst u; cbn|]; unfold ts2; rewrite th_upd_ne by done; unfold ts1; rewrite th_upd; case_decide as E'; [|done| |done]; [done|by rewrite E']. }
  exists (put_list (QueueOf peer) (t :: L (QueueOf peer)) L). split_and!; try done.
  - eapply WaitInv_push; [exact H|done|done| | | | |exact E1| | |].
    + unfold ts3. rewrite dom_upd. set_solver.
    + intros [j|x] Hj; cbn; [|done]. apply Hw. congruence.
    + cbn. unfold whead, ts3, ts2. rewrite th_upd. case_decide as E; [rewrite <- E; cbn|]; by rewrite th_upd_eq.
    + intros u Hu. by apply Ho.
    + intros u Hu. by apply Ho.
    + rewrite E2. done.
    + apply S.
  - intros u Hu. split; by apply Ho.
  - intros u. unfold ts3, ts2, ts1. by rewrite !items_upd.
Qed.

(** A receive from anyone or from an interrupt: no list. *)
Lemma arm_special ts dr L t x m ker : WaitInv ts (whd ts dr) L -> rfo ts t = 0 -> (forall a, t ∉ L (Private a)) ->
  let ts' := upd t (fun c => w_fo x (w_kernel ker (w_unsolved m c))) ts in
  WaitInv ts' (whd ts' dr) L /\ KeepSend ts ts' /\ rfo ts' t = x /\ umsg ts' t = m /\ (forall u, u <> t -> rfo ts' u = rfo ts u /\ umsg ts' u = umsg ts u) /\ (forall u, items ts' u = items ts u).
Proof.
  intros H H0 Hp ts'. assert (forall j, t ∉ L j) as Hno by (intros [r|a]; [|done]; intros Hr; apply (r_queue _ _ _ H) in Hr as [Hr Hrk]; rewrite H0 in Hr; subst r; by apply thread_ok_nz in Hrk).
  assert (forall u, wnext ts' u = wnext ts u /\ whead ts' u = whead ts u /\ items ts' u = items ts u) as E by (intros u; unfold wnext, whead, items, ts'; rewrite th_upd; case_decide; subst; done).
  assert (forall u, u <> t -> rfo ts' u = rfo ts u /\ umsg ts' u = umsg ts u) as Ho by (intros u Hu; unfold rfo, umsg, ts'; by rewrite th_upd_ne).
  split_and!; [|by apply upd_keep_send|unfold rfo, ts'; by rewrite th_upd_eq|unfold umsg, ts'; by rewrite th_upd_eq|done|intros u; apply E]. constructor.
  - eapply Forest_frame; [apply H| |]; [intros [j|y]; cbn; [apply E|done]|intros k u _; apply E].
  - intros r u Hu. rewrite (proj1 (Ho u ltac:(intros ->; by apply (Hno (QueueOf r))))). by apply H.
  - intros y u Hu. rewrite (proj1 (Ho u ltac:(intros ->; by apply (Hno (Private y))))). by apply (r_private _ _ _ H y).
  - intros k u Hu. unfold ts'. rewrite dom_upd. apply elem_of_union_r. by eapply r_known.
Qed.

(** ** The receivers that wait for a thread that dies *)
Lemma wake_waiters_spec vs r x l : forall fuel ts hd L, (length l <= fuel)%nat -> L (QueueOf r) = l -> WaitInv ts hd L ->
  exists wake ts' L', wake_waiters fuel vs r (first l) (hd (Private x)) ts = Some (wake, ts') /\ WaitInv ts' (over (over hd (Private x) wake) (QueueOf r) 0) L' /\
    Calm ts ts' /\ KeepSend ts ts' /\ (forall u, whead ts' u = whead ts u).
Proof.
  induction l as [|t l IH]; intros fuel ts hd L Hf Ek H.
  - exists (hd (Private x)), ts, L. split_and!; try done; [by destruct fuel|]. eapply WaitInv_frame; [exact H|done|]. intros k. unfold over. repeat case_decide; subst; try done. by rewrite (f_head _ _ _ (r_forest _ _ _ H)), Ek.
  - destruct fuel as [|fuel]; [cbn in Hf; lia|]. pose proof (f_link _ _ _ (r_forest _ _ _ H) (QueueOf r)) as Hl. rewrite Ek in Hl. destruct Hl as (Hz & Hnx & Hl).
    change (first (t :: l)) with t. cbn [wake_waiters]. rewrite (proj2 (Z.eqb_neq t 0) Hz), Hnx. set (ts1 := upd t (w_wnext 0) ts).
    assert (Calm ts ts1) as C1 by (apply upd_calm; cbn; auto). assert (KeepSend ts ts1) as S1 by (by apply upd_keep_send). assert (forall u, whead ts1 u = whead ts u) as Wh1 by (intros u; unfold whead, ts1; rewrite th_upd; case_decide as E'; [by rewrite E'|done]).
    assert (WaitInv ts1 (over hd (QueueOf r) (first l)) (put_list (QueueOf r) l L) /\ (forall j, t ∉ put_list (QueueOf r) l L j)) as [H1 Hno].
    { apply (WaitInv_remove ts ts1 hd _ L (QueueOf r) [] t l H Ek); cbn [app]; try done.
      - intros j Hj. by apply over_ne.
      - apply over_eq.
      - intros u Hu _. unfold wnext, ts1. by rewrite th_upd_ne.
      - intros u _. unfold rfo, ts1. rewrite th_upd. case_decide as E'; [by rewrite E'|done].
      - apply C1. }
    case_match.
    + set (ts2 := upd t _ ts1). assert (Calm ts1 ts2) as C2 by (apply upd_calm; cbn; split_and!; auto; by right; left). assert (KeepSend ts1 ts2) as S2 by (by apply upd_keep_send).
      assert (WaitInv ts2 (over (over hd (QueueOf r) (first l)) (Private x) t) (put_list (Private x) (t :: put_list (QueueOf r) l L (Private x)) (put_list (QueueOf r) l L))) as H2.
      { eapply (WaitInv_push ts1 ts2); [exact H1|done|done|unfold ts2; rewrite dom_upd; set_solver|intros j Hj; by apply over_ne|apply over_eq|intros u Hu; unfold wnext, ts2; by rewrite th_upd_ne|
          rewrite over_ne by done; unfold wnext, ts2; by rewrite th_upd_eq|intros u Hu; unfold rfo, ts2; by rewrite th_upd_ne|unfold rfo, ts2; by rewrite th_upd_eq|apply C2]. }
      destruct (IH fuel ts2 (over (over hd (QueueOf r) (first l)) (Private x) t) (put_list (Private x) (t :: put_list (QueueOf r) l L (Private x)) (put_list (QueueOf r) l L))) as (wake & ts' & L' & E & H' & C' & S' & Wh);
        [cbn in Hf; lia|rewrite put_list_ne by done; apply put_list_eq|exact H2|].
      rewrite over_eq in E. exists wake, ts', L'. split_and!; try done; [|etrans; [exact C1|]; by etrans|etrans; [exact S1|]; by etrans|].
      * eapply WaitInv_frame; [exact H'|done|]. intros k. unfold over. repeat case_decide; congruence.
      * intros u. rewrite Wh, <- Wh1. unfold whead, ts2. rewrite th_upd. case_decide as E'; [by rewrite E'|done].
    + destruct (IH fuel ts1 (over hd (QueueOf r) (first l)) (put_list (QueueOf r) l L)) as (wake & ts' & L' & E & H' & C' & S' & Wh); [cbn in Hf; lia|apply put_list_eq|exact H1|].
      rewrite over_ne in E by done. exists wake, ts', L'. split_and!; try done; [|by etrans|by etrans|intros u; by rewrite Wh].
      eapply WaitInv_frame; [exact H'|done|]. intros k. unfold over. repeat case_decide; congruence.
Qed.
Lemma wake_receiver_spec ts dr L x : WaitInv ts (whd ts dr) L -> dr x <> 0 ->
  let '(h, ts') := wake_receiver (dr x) ts in exists L', WaitInv ts' (whd ts' (over dr x h)) L' /\ Calm ts ts' /\ KeepSend ts ts'.
Proof.
  intros H Hz. unfold wake_receiver. pose proof (f_head _ _ _ (r_forest _ _ _ H) (Private x)) as Hh. pose proof (f_link _ _ _ (r_forest _ _ _ H) (Private x)) as Hl. change (dr x = first (L (Private x))) in Hh.
  destruct (L (Private x)) as [|t l] eqn:Ek; [done|]. change (first (t :: l)) with t in Hh. rewrite Hh. destruct Hl as (_ & Hn & _). exists (put_list (Private x) l L). split_and!; [|apply upd_calm; cbn; auto|by apply upd_keep_send].
  apply (WaitInv_remove ts _ (whd ts dr) _ L (Private x) [] t l H Ek); cbn [app]; try done.
  - intros [j|y] Hj; cbn; [unfold whead; rewrite th_upd; case_decide; subst; done|]. rewrite over_ne by congruence. done.
  - cbn. by rewrite over_eq.
  - intros u Hu _. unfold wnext. by rewrite th_upd_ne.
  - intros u _. unfold rfo. rewrite th_upd. case_decide; subst; done.
  - rewrite dom_upd. set_solver.
Qed.
End Waits.
