(* ===== verification/MessageSteps.v ===== *)
(** * Messages: the steps, and the invariant of the whole state *)
From S2P Require Import Prelude Sched DeviceEvents Message MessageLists MessageProof MessageQueues MessageDrops MessageSelect MessageWaits.

Section Steps.
Context {M : Type} `{!IpcMemory M} {C : Type} `{!AsyncChain C} `{!AsyncChainLaws C} {Q : Type} `{!FixedQueue DeviceEvent Q}.
Abbreviation Comm := (Comm C Q).
Abbreviation Threads := (gmap Z Comm).
Abbreviation Ipc := (Ipc M C Q).
Implicit Types (ts : Threads) (s : Ipc).

(** What may happen next. *)
Inductive Label :=
  | LSend (d : Directory) (vs vs' : Views) (new_amsg : bool) (payload fo too msg : Z) (msg_in_kernel is_async : bool)
  | LRecv (d : Directory) (vs vs' : Views) (to foo msg : Z) (msg_in_kernel : bool)
  | LAdvance (vs : Views) (t : Z)
  | LCleanup (vs : Views) (a t : Z) (dying : bool)
  | LRupt (d : Directory) (vs : Views) (tid rupt_no : Z)
  | LEvent (d : Directory) (vs : Views) (tid : Z) (event : DeviceEvent)
  | LPrepare (t : Z) (q : DeviceEventQueue Q)
  | LRelease (t : Z)
  | LCancel (d : Directory) (tid handle generation : Z)
  | LWaitDirect (vs : Views) (parent taskman pending : Z) (ker : bool) (prepared : CommMsg) (current : option CommMsg) (copy_args copy_back : CommMsg -> M -> bool * M)
  | LWaitAsync (vs : Views) (parent taskman : Z) (new_amsg : bool) (payload : Z) (fill : M -> M)
  | LSever (vs : Views) (t p : Z)
  | LSenders (main : Z).

Definition exec (l : Label) (s : Ipc) : Outcome Ipc :=
  match l with
  | LSend d vs vs' n p fo too m k a => msg_send d vs vs' n p fo too m k a s
  | LRecv d vs vs' to foo m k => msg_recv d vs vs' to foo m k s
  | LAdvance vs t => advance vs t s
  | LCleanup vs a t dying => msg_cleanup_thread vs a t dying s
  | LRupt d vs tid n => Ok (rupt_proc d vs tid n s)
  | LEvent d vs tid e => Ok (device_event_proc d vs tid e s).2
  | LPrepare t q => Ok (device_event_install t q s)
  | LRelease t => Ok (device_event_release t s)
  | LCancel d tid h g => Ok (device_event_cancel_at d tid h g s)
  | LWaitDirect vs p tm m k pr cur ca cb => obind (deliver_wait_direct vs p tm m k pr cur ca cb s) (fun x => Ok x.2)
  | LWaitAsync vs p tm n a f => Ok (deliver_wait_async vs p tm n a f s).2
  | LSever vs t p => obind (exit_sever vs t p (ths s)) (fun ts => Ok (set_ths ts s))
  | LSenders main => obind (exit_drop_senders main (ths s)) (fun ts => Ok (set_ths ts s))
  end.

(** The heads of the private lists of a thread, and what it is doing. *)
Definition sh (x : Pc) : Z := match x with Waking h _ _ => h | _ => 0 end.
Definition rh (x : Pc) : Z := match x with Waking _ g _ => g | _ => 0 end.
Definition dsend (s : Ipc) (a : Z) : Z := sh (pc s a).
Definition drecv (s : Ipc) (a : Z) : Z := rh (pc s a).
Fixpoint role_of (x : Pc) : Role :=
  match x with
  | Outside _ => Idle
  | SendBlock to | SendSlept to | SendCheck to | SendAbort to => Sending to
  | Waking _ _ k => role_of k
  | _ => Receiving
  end.
Definition role (s : Ipc) (t : Z) : Role := role_of (pc s t).

(** [t] is on no private list of threads that are being woken up. *)
Fixpoint chain (fuel : nat) (nxt : Z -> Z) (h : Z) : list Z :=
  match fuel with O => [] | S fuel => if h =? 0 then [] else h :: chain fuel nxt (nxt h) end.
Definition quiet (s : Ipc) (t : Z) : Prop :=
  forall a, t ∉ chain (walk_fuel (ths s)) (snext (ths s)) (dsend s a) /\ t ∉ chain (walk_fuel (ths s)) (wnext (ths s)) (drecv s a).

(** Lookups return threads; calls are made by threads that are in no call; a thread does not send to
    itself, nor a null message; a thread that is being woken up does not use its links before. *)
Definition directory_ok (d : Directory) : Prop := forall z, (LocateThread d z = 0 \/ thread_ok (LocateThread d z)) /\ (LocateMain d z = 0 \/ thread_ok (LocateMain d z)).
Definition outside (s : Ipc) (t : Z) : Prop := match pc s t with Outside _ => True | _ => False end.
Definition allowed (s : Ipc) (l : Label) : Prop :=
  match l with
  | LSend d _ _ _ _ fo too m _ is_async =>
    directory_ok d /\ thread_ok fo /\ outside s fo /\ (is_async = false -> m <> 0 /\ resolve d too <> fo /\ quiet s fo)
  | LRecv d _ _ to _ _ _ => directory_ok d /\ thread_ok to /\ outside s to /\ quiet s to
  | LAdvance _ t => thread_ok t /\ match pc s t with SendAbort _ => quiet s t | _ => True end
  | LCleanup _ a t _ => thread_ok a /\ thread_ok t /\ outside s a
  | LRupt d _ _ _ | LEvent d _ _ _ | LCancel d _ _ _ => directory_ok d
  | LPrepare t _ | LRelease t | LWaitAsync _ t _ _ _ _ | LSever _ t _ | LSenders t => thread_ok t
  | LWaitDirect _ t taskman _ _ _ _ _ _ => thread_ok t /\ thread_ok taskman
  end.

(** Nothing but a call follows a wake-up. *)
Definition wf_pc (x : Pc) : Prop := match x with Waking _ _ (Waking _ _ _) => False | _ => True end.
Definition Inv (s : Ipc) : Prop :=
  (exists Ls Lw, SendInv (ths s) (shd (ths s) (dsend s)) Ls /\ WaitInv (ths s) (whd (ths s) (drecv s)) Lw /\ FieldInv (ths s) (role s)) /\
  forall t, wf_pc (pc s t).

(** ** Putting the parts together *)
Lemma chain_linked nxt l : forall fuel, linked nxt l -> (length l <= fuel)%nat -> chain fuel nxt (first l) = l.
Proof.
  induction l as [|t l IH]; intros fuel Hl Hf; [by destruct fuel|]. destruct Hl as (Hz & Hn & Hl). destruct fuel as [|fuel]; [cbn in Hf; lia|]. change (first (t :: l)) with t. cbn [chain].
  rewrite (proj2 (Z.eqb_neq t 0) Hz), Hn, IH; [done|done|cbn in Hf; lia].
Qed.
Lemma quiet_send s t Ls : quiet s t -> SendInv (ths s) (shd (ths s) (dsend s)) Ls -> forall a, t ∉ Ls (Private a).
Proof.
  intros Hq H a. pose proof (f_head _ _ _ (s_forest _ _ _ H) (Private a)) as Hh. change (dsend s a = first (Ls (Private a))) in Hh. destruct (Hq a) as [Ha _]. rewrite Hh, chain_linked in Ha; [done|by apply H|].
  pose proof (list_bound _ _ _ (Private a) H). unfold walk_fuel. lia.
Qed.
Lemma quiet_wait s t Lw : quiet s t -> WaitInv (ths s) (whd (ths s) (drecv s)) Lw -> forall a, t ∉ Lw (Private a).
Proof.
  intros Hq H a. pose proof (f_head _ _ _ (r_forest _ _ _ H) (Private a)) as Hh. change (drecv s a = first (Lw (Private a))) in Hh. destruct (Hq a) as [_ Ha]. rewrite Hh, chain_linked in Ha; [done|by apply H|].
  pose proof (wait_bound _ _ _ (Private a) H). unfold walk_fuel. lia.
Qed.
Lemma outside_heads s t : outside s t -> dsend s t = 0 /\ drecv s t = 0 /\ role s t = Idle.
Proof. unfold outside, dsend, drecv, role. by destruct (pc s t). Qed.
Lemma over_id {A} `{EqDecision A} (f : A -> Z) a x : f a = x -> forall b, over f a x b = f b.
Proof. intros <- b. unfold over. case_decide; by subst. Qed.

Lemma idle_fields ts ro t : FieldInv ts ro -> ro t = Idle -> sto ts t = 0 /\ rfo ts t = 0.
Proof.
  intros H Hr. split; [destruct (decide (sto ts t = 0)) as [|E]|destruct (decide (rfo ts t = 0)) as [|E]]; try done; apply H in E as [E _]; congruence.
Qed.

(** The new position [x] of [t], with the threads [ts']. *)
Lemma finish_role s ts' t x s' Ls Lw :
  (forall u, wf_pc (pc s u)) -> wf_pc x -> ths s' = ts' -> pcs s' = <[t := x]> (pcs s) ->
  SendInv ts' (shd ts' (over (dsend s) t (sh x))) Ls -> WaitInv ts' (whd ts' (over (drecv s) t (rh x))) Lw ->
  FieldInv ts' (fun u => if decide (u = t) then role_of x else role s u) -> Inv s'.
Proof.
  intros Hp Hx Et Ep Hs Hw Hf. assert (forall u, pc s' u = if decide (u = t) then x else pc s u) as Epc.
  { intros u. unfold pc. rewrite Ep. case_decide; [subst; by rewrite lookup_insert_eq|by rewrite lookup_insert_ne]. }
  split; [|intros u; rewrite Epc; by case_decide]. exists Ls, Lw. rewrite Et. split_and!.
  - eapply Send_keep; [exact Hs|done|]. intros a. unfold dsend, over. rewrite Epc. by case_decide.
  - eapply Wait_keep; [exact Hw|done|]. intros a. unfold drecv, over. rewrite Epc. by case_decide.
  - eapply FieldInv_role; [exact Hf|]. intros u Hu. unfold role. rewrite Epc. by case_decide.
Qed.
Lemma finish s ts' t x s' Ls Lw :
  (forall u, wf_pc (pc s u)) -> wf_pc x -> ths s' = ts' -> pcs s' = <[t := x]> (pcs s) ->
  SendInv ts' (shd ts' (over (dsend s) t (sh x))) Ls -> WaitInv ts' (whd ts' (over (drecv s) t (rh x))) Lw -> FieldInv ts' (role s) ->
  (role_of x = role s t \/ sto ts' t = 0 /\ rfo ts' t = 0) -> Inv s'.
Proof.
  intros Hp Hx Et Ep Hs Hw Hf Hr. eapply finish_role; try done. eapply FieldInv_role; [exact Hf|]. intros u Hu. cbn. case_decide; [|done]. subst u. destruct Hr as [Hr|[Hr1 Hr2]]; [done|]. by destruct Hu.
Qed.
(** The common case: the lists of [t] stay. *)
Lemma finish_plain s ts' t x s' Ls Lw :
  (forall u, wf_pc (pc s u)) -> wf_pc x -> ths s' = ts' -> pcs s' = <[t := x]> (pcs s) -> sh x = dsend s t -> rh x = drecv s t ->
  SendInv ts' (shd ts' (dsend s)) Ls -> WaitInv ts' (whd ts' (drecv s)) Lw -> FieldInv ts' (role s) ->
  (role_of x = role s t \/ sto ts' t = 0 /\ rfo ts' t = 0) -> Inv s'.
Proof.
  intros Hp Hx Et Ep E1 E2 Hs Hw. apply (finish s ts' t x s' Ls Lw Hp Hx Et Ep).
  - eapply Send_keep; [exact Hs|done|]. intros a. apply over_id. done.
  - eapply Wait_keep; [exact Hw|done|]. intros a. apply over_id. done.
Qed.
(** The position and fields that no list depends on change. *)
Lemma finish_keep s ts' t x s' : Inv s -> wf_pc x -> ths s' = ts' -> pcs s' = <[t := x]> (pcs s) -> sh x = dsend s t -> rh x = drecv s t ->
  Calm (ths s) ts' -> KeepSend (ths s) ts' -> KeepWait (ths s) ts' -> (role_of x = role s t \/ sto (ths s) t = 0 /\ rfo (ths s) t = 0) -> Inv s'.
Proof.
  intros [(Ls & Lw & Hs & Hw & Hf) Hp] Hx E1 E2 E3 E4 HC HS HW Hr.
  apply (finish_plain s ts' t x _ Ls Lw); try done; [by eapply Send_keep|by eapply Wait_keep|by eapply FieldInv_calm|]. destruct HS as [[HS _] _], HW as [[HW _] _]. by rewrite (proj2 (HS t)), (proj2 (HW t)).
Qed.
Lemma pc_only s t x : Inv s -> wf_pc x -> sh x = dsend s t -> rh x = drecv s t -> (role_of x = role s t \/ sto (ths s) t = 0 /\ rfo (ths s) t = 0) -> Inv (set_pc t x s).
Proof. intros HI Hx E1 E2 Hr. by apply (finish_keep s (ths s) t x). Qed.
(** Nothing but the threads changes. *)
Lemma ths_only s ts' s' : Inv s -> ths s' = ts' -> pcs s' = pcs s -> Calm (ths s) ts' -> KeepSend (ths s) ts' -> KeepWait (ths s) ts' -> Inv s'.
Proof.
  intros [(Ls & Lw & Hs & Hw & Hf) Hp] E1 E2 HC HS HW. assert (forall u, pc s' u = pc s u) as Ep by (intros u; unfold pc; by rewrite E2). split; [|intros t; by rewrite Ep]. exists Ls, Lw. rewrite E1. split_and!.
  - eapply Send_keep; [exact Hs|exact HS|]. intros a. unfold dsend. by rewrite Ep.
  - eapply Wait_keep; [exact Hw|exact HW|]. intros a. unfold drecv. by rewrite Ep.
  - eapply FieldInv_role; [by eapply FieldInv_calm|]. intros u _. unfold role. by rewrite Ep.
Qed.

Lemma CanComm_nz vs t : CanCommThread vs t = true -> t <> 0.
Proof. unfold CanCommThread, truthy. destruct (Z.eqb_spec t 0); [done|done]. Qed.
Lemma resolve_ok d z : directory_ok d -> resolve d z <> 0 -> thread_ok (resolve d z).
Proof. intros H. destruct (H z) as [H1 H2]. unfold resolve, truthy. destruct (Z.eqb_spec (LocateThread d z) 0); cbn; intros; naive_solver. Qed.

(** A receiver is given its message, or its wait is ended otherwise. *)
Lemma deliver ts ds dr Ls Lw ro t f : SendInv ts (shd ts ds) Ls -> WaitInv ts (whd ts dr) Lw -> FieldInv ts ro -> sto ts t = 0 ->
  (forall c, recv_fo_whom (f c) = 0 /\ send_to_whom (f c) = send_to_whom c /\ queue_send_queuehead (f c) = queue_send_queuehead c /\ queue_send_queuenext (f c) = queue_send_queuenext c /\
     queue_wait_queuehead (f c) = queue_wait_queuehead c /\ queue_wait_queuenext (f c) = queue_wait_queuenext c /\ async_messages (f c) = async_messages c) ->
  exists ts1 Lw', UnlinkWaitEntry t ts = Ok ts1 /\ SendInv (upd t f ts1) (shd (upd t f ts1) ds) Ls /\ WaitInv (upd t f ts1) (whd (upd t f ts1) dr) Lw' /\ FieldInv (upd t f ts1) ro /\
    sto (upd t f ts1) t = 0 /\ rfo (upd t f ts1) t = 0 /\ KeepSend ts (upd t f ts1).
Proof.
  intros Hs Hw Hf H0 Hff. destruct (stop_receiving ts dr Lw t f Hw (FieldInv_excl _ _ Hf) (fi_fo _ _ Hf t) H0 Hff) as (ts1 & Lw' & E & _ & _ & Hw' & HC & HS & Hr).
  exists ts1, Lw'. split_and!; try done; [by eapply Send_keep|by eapply FieldInv_calm|]. destruct HS as [[HS _] _]. by rewrite (proj2 (HS t)).
Qed.

(** One more asynchronous message, below the limit. *)
Lemma append_async ts ro t a : FieldInv ts ro -> (length (ac_items (async_messages (th ts t))) < LIMIT_THREAD_AMSG)%nat ->
  let ts' := upd t (fun c => w_async (ac_append a (async_messages c)) c) ts in KeepSend ts ts' /\ KeepWait ts ts' /\ FieldInv ts' ro.
Proof.
  intros Hf Hl ts'. assert (KeepSend ts ts') as KS by (by apply upd_keep_send). assert (KeepWait ts ts') as KW by (by apply upd_keep_wait). split_and!; [done|done|].
  destruct KS as [[KS _] _], KW as [[KW _] _]. assert (forall u, umsg ts' u = umsg ts u) as KU by (intros u; by apply umsg_upd).
  constructor; intros u; rewrite ?(proj2 (KS u)), ?(proj2 (KW u)), ?KU; [apply Hf..|]. unfold ts'. rewrite th_upd. case_decide; [|apply Hf]. cbn. rewrite ac_append_items, length_app. cbn. lia.
Qed.

(** ** Sending *)
Lemma msg_send_inv d vs vs' n p fo too m k is_async s : Inv s -> allowed s (LSend d vs vs' n p fo too m k is_async) ->
  exists s', msg_send d vs vs' n p fo too m k is_async s = Ok s' /\ Inv s'.
Proof.
  intros HI (Hd & Hok & Ho & Hsync). destruct (outside_heads s fo Ho) as (D1 & D2 & Hrole).
  assert (sto (ths s) fo = 0 /\ rfo (ths s) fo = 0) as [F1 F2] by (destruct HI as [(? & ? & _ & _ & Hf) _]; by eapply idle_fields).
  assert (forall x, exists s', Ok (set_pc fo (Outside x) s) = Ok s' /\ Inv s') as Hret by (intros x; eexists; split; [done|]; apply pc_only; try done; by right).
  unfold msg_send. case_match; [apply Hret|]. case_match; [apply Hret|]. destruct (negb (CanCommThread vs' fo) || _) eqn:Ecan; [apply Hret|]. apply orb_false_iff in Ecan as [_ Eto%negb_false_iff]. set (to := resolve d too) in *.
  assert (thread_ok to) as Htok by (apply resolve_ok; [done|by apply CanComm_nz in Eto]). apply thread_ok_nz in Htok as Htz. destruct HI as [(Ls & Lw & Hs & Hw & Hf) Hp].
  destruct (deadlock_exact (ths s) _ Ls fo to Hs (fun t Ht => proj2 (fi_send _ _ Hf t Ht)) Htz) as (l & Hl & Ed).
  assert (exists b, (if is_async then Ok false else msg_send_will_deadlock (ths s) fo to) = Ok b /\ (is_async = false -> b = bool_decide (fo ∈ l))) as (b & -> & Hb) by (destruct is_async; [by exists false|by eexists]). cbn [obind]. destruct b; [apply Hret|].
  destruct (armed_for (ths s) to fo) eqn:Ea.
  { unfold armed_for in Ea. apply andb_true_iff in Ea as [_ Ea]. assert (rfo (ths s) to <> 0) as Hr.
    { unfold rfo. apply orb_true_iff in Ea as [Ea%Z.eqb_eq|Ea%Z.eqb_eq]; rewrite Ea; [by apply thread_ok_nz|done]. }
    assert (sto (ths s) to = 0) as Hst by (destruct (FieldInv_excl _ _ Hf to); done).
    destruct (deliver (ths s) _ _ Ls Lw _ to (fun c => w_fo 0 (w_unsolved 0 c)) Hs Hw Hf Hst) as (ts1 & Lw' & E & Hs' & Hw' & Hf' & E1 & E2 & HS); [done|]. rewrite E. cbn [obind]. eexists. split; [done|].
    eapply (finish_plain s (upd to (fun c => w_fo 0 (w_unsolved 0 c)) ts1) fo (Outside 0) _ Ls Lw'); try done. right. split; [destruct HS as [[HS _] _]; by rewrite (proj2 (HS fo))|].
    destruct (decide (fo = to)) as [->|Hne]; [done|]. pose proof (fi_recv _ _ Hf' fo) as Hx. destruct (decide (rfo (upd to (fun c => w_fo 0 (w_unsolved 0 c)) ts1) fo = 0)) as [|Hx']; [done|]. apply Hx in Hx' as [Hx' _]. congruence. }
  destruct is_async.
  { case_match; [apply Hret|]. case_match; [apply Hret|]. case_match; [apply Hret|]. eexists. split; [done|]. set (a := MkMsg _ _ _ _).
    destruct (append_async (ths s) (role s) to a Hf) as (KS & KW & Hf'); [by apply Nat.leb_gt|]. set (ts' := upd to _ _) in *.
    eapply (finish_plain s ts' fo (Outside 0) _ Ls Lw); try done; [by eapply Send_keep|by eapply Wait_keep|right]. destruct KS as [[KS _] _], KW as [[KW _] _]. by rewrite (proj2 (KS fo)), (proj2 (KW fo)). }
  destruct (interrupted (vs' fo)); [apply Hret|]. destruct (Hsync eq_refl) as (Hm & Hne & Hq). assert (fo ∉ to :: l) as Hfl.
  { apply not_elem_of_cons. split; [done|]. specialize (Hb eq_refl). symmetry in Hb. by apply bool_decide_eq_false in Hb. }
  clear Hb Ed.
  destruct (append_sender_spec (ths s) _ Ls fo to l m k Hs (thread_ok_nz _ Hok) F1 (quiet_send s fo Ls Hq Hs) Hl Hfl) as (ts' & Ls' & E & Hs' & HW & E1 & E2 & E3 & E4 & _). rewrite E. cbn [obind]. eexists. split; [done|].
  apply (finish_role s ts' fo (SendBlock to) _ Ls' Lw); try done.
  - eapply Send_keep; [exact Hs'|done|]. intros a. by apply over_id.
  - eapply Wait_keep; [exact Hw|exact HW|]. intros a. by apply over_id.
  - destruct HW as [[HW _] _]. constructor; intros u; cbn.
    + case_decide as Eu; [subst u; rewrite E1, E2; done|]. destruct (E3 u Eu) as [-> ->]. apply Hf.
    + rewrite (proj2 (HW u)). case_decide as Eu; [subst u; by rewrite F2|]. destruct (E3 u Eu) as [_ ->]. apply Hf.
    + destruct (decide (u = fo)) as [->|Eu]; [rewrite E1; by right|]. destruct (E3 u Eu) as [-> _]. apply Hf.
    + rewrite (proj2 (HW u)). apply Hf.
    + specialize (E4 u). unfold items in E4. rewrite E4. apply Hf.
Qed.
End Steps.
