(* ===== verification/MessageRecv.v ===== *)
(** * Messages: receiving, and the wait loops *)
From S2P Require Import Prelude Sched DeviceEvents Message MessageLists MessageProof MessageQueues MessageDrops MessageSelect MessageWaits MessageSteps.

Section Recv.
Context {M : Type} `{!IpcMemory M} {C : Type} `{!AsyncChain C} `{!AsyncChainLaws C} {Q : Type} `{!FixedQueue DeviceEvent Q}.
Abbreviation Comm := (Comm C Q).
Abbreviation Threads := (gmap Z Comm).
Abbreviation Ipc := (Ipc M C Q).
Implicit Types (ts : Threads) (s : Ipc).

Lemma events_calm t q ts : Calm ts (upd t (w_events q) ts) /\ KeepSend ts (upd t (w_events q) ts) /\ KeepWait ts (upd t (w_events q) ts).
Proof. split_and!; [apply upd_calm; cbn; auto|by apply upd_keep_send|by apply upd_keep_wait]. Qed.

Lemma delete_length {A} (l : list A) : forall i, (length (delete i l) <= length l)%nat.
Proof. induction l as [|x l IH]; intros [|i]; simpl; try specialize (IH i); lia. Qed.
Lemma take_async_spec vs to r s s' : take_async vs to r s = Some s' ->
  exists ts', ths s' = ts' /\ pcs s' = pcs s /\ Calm (ths s) ts' /\ KeepSend (ths s) ts' /\ KeepWait (ths s) ts'.
Proof.
  unfold take_async. case_match; [|done]. intros [= <-]. eexists. split; [done|]. split; [done|]. split_and!; [|by apply upd_keep_send|by apply upd_keep_wait].
  apply upd_calm. cbn. split_and!; auto. rewrite ac_remove_items. apply delete_length.
Qed.

(** A selected sender is served by a receiver that is not waiting. *)
Lemma serve_idle vs ts ds dr Ls Lw ro to fo prev : SendInv ts (shd ts ds) Ls -> WaitInv ts (whd ts dr) Lw -> FieldInv ts ro -> to <> 0 -> selected vs ts Ls to (Some (fo, prev)) ->
  exists ts1, take_sender to fo prev ts = Some ts1 /\ CanUseSyncMsgState vs ts1 fo = true /\
    let ts2 := upd fo (fun c => w_to 0 (w_unsolved 0 c)) ts1 in exists Ls', SendInv ts2 (shd ts2 ds) Ls' /\ WaitInv ts2 (whd ts2 dr) Lw /\ FieldInv ts2 ro.
Proof.
  intros Hs Hw Hf Hto (a & b & Ek & -> & Hu). destruct (serve_sender ts ds Ls to a fo b Hs (FieldInv_excl _ _ Hf) Hto Ek) as (H1 & H2 & H3 & H4 & H5). eexists. split; [by eapply take_sender_cut|].
  split; [|eexists; split; [exact H1|]; split; [by eapply Wait_keep|by eapply FieldInv_calm]]. unfold CanUseSyncMsgState in *. apply andb_true_iff in Hu as [-> Hu]. specialize (H5 fo). unfold umsg in H5. rewrite H5. done.
Qed.

Lemma recv_or_wait_inv vs to r drop s ts Ls Lw : (forall u, wf_pc (pc s u)) -> ths s = ts -> SendInv ts (shd ts (over (dsend s) to drop)) Ls -> WaitInv ts (whd ts (drecv s)) Lw -> FieldInv ts (role s) ->
  thread_ok to -> role s to = Idle -> drecv s to = 0 -> (forall a, to ∉ Lw (Private a)) -> (special (foo r) = true \/ thread_ok (lookup r)) -> Inv (recv_or_wait vs to r drop s).
Proof.
  intros Hp Ets Hs Hw Hf Hok Hr Hd Hq Hlk. unfold recv_or_wait. destruct (idle_fields _ _ to Hf Hr) as [F1 F2].
  assert (forall ts' x s', ths s' = ts' -> pcs s' = <[to := Waking drop 0 (Outside x)]> (pcs s) -> Calm ts ts' -> KeepSend ts ts' -> KeepWait ts ts' -> Inv s') as Hout.
  { intros ts' x s' E1 E2 HC HS HW. apply (finish s ts' to (Waking drop 0 (Outside x)) s' Ls Lw); try done; [by eapply Send_keep| |by eapply FieldInv_calm|by left].
    eapply Wait_keep; [exact Hw|done|]. intros a. by apply over_id. }
  assert (forall x, Inv (set_pc to (Waking drop 0 (Outside x)) s)) as Hsame by (intros x; by apply (Hout ts x)).
  destruct (take_async vs to r s) as [s1|] eqn:Ea.
  { apply take_async_spec in Ea as (ts' & E1 & E2 & HC & HS & HW). rewrite Ets in *. apply (Hout ts' 0); try done. cbn. by rewrite E2. }
  case_match; [apply Hsame|]. case_match; [apply Hsame|]. rewrite Ets. apply Z.eqb_neq in H.
  assert (forall ts' Lw' x, WaitInv ts' (whd ts' (drecv s)) Lw' -> KeepSend ts ts' -> rfo ts' to = x -> umsg ts' to = msg r -> (forall u, u <> to -> rfo ts' u = rfo ts u /\ umsg ts' u = umsg ts u) -> (forall u, items ts' u = items ts u) ->
    (special x = true \/ thread_ok x) -> Inv (set_pc to (Waking drop 0 (RecvBlock r)) (set_ths ts' s))) as Harm.
  { intros ts' Lw' x Hw' HS E1 E2 E3 E4 Hx. apply (finish_role s ts' to (Waking drop 0 (RecvBlock r)) _ Ls Lw'); try done.
    - by eapply Send_keep.
    - eapply Wait_keep; [exact Hw'|done|]. intros a. by apply over_id.
    - destruct HS as [[HS _] _]. constructor; intros u; cbn; rewrite ?(proj2 (HS u)).
      + case_decide as Eu; [subst u; by rewrite F1|]. destruct (E3 u Eu) as [_ ->]. apply Hf.
      + case_decide as Eu; [subst u; rewrite E2; done|]. destruct (E3 u Eu) as [-> ->]. apply Hf.
      + apply Hf.
      + destruct (decide (u = to)) as [->|Eu]; [rewrite E1; tauto|]. destruct (E3 u Eu) as [-> _]. apply Hf.
      + specialize (E4 u). unfold items in E4. rewrite E4. apply Hf. }
  destruct (special (foo r)) eqn:Esp.
  - destruct (arm_special ts (drecv s) Lw to (foo r) (msg r) (msg_in_kernel r) Hw F2 Hq) as (H1 & H2 & H3 & H4 & H5 & H6). apply (Harm _ Lw (foo r)); auto.
  - destruct Hlk as [Hlk|Hlk]; [done|]. destruct (arm_spec ts (drecv s) Lw to (lookup r) (msg r) (msg_in_kernel r) Hw (thread_ok_nz _ Hok) F2 Hq Hlk) as (Lw' & H1 & H2 & H3 & H4 & H5 & H6). apply (Harm _ Lw' (lookup r)); auto.
Qed.

Lemma msg_recv_inv d vs vs' to foo m k s : Inv s -> allowed s (LRecv d vs vs' to foo m k) -> exists s', msg_recv d vs vs' to foo m k s = Ok s' /\ Inv s'.
Proof.
  intros HI (Hd & Hok & Ho & Hq). destruct (outside_heads s to Ho) as (D1 & D2 & Hrole). pose proof HI as [(Ls & Lw & Hs & Hw & Hf) Hp]. destruct (idle_fields _ _ to Hf Hrole) as [F1 F2].
  assert (forall x ts' s', ths s' = ts' -> pcs s' = <[to := Outside x]> (pcs s) -> Calm (ths s) ts' -> KeepSend (ths s) ts' -> KeepWait (ths s) ts' -> Inv s') as Hout by (intros x ts' s' E1 E2 HC HS HW; apply (finish_keep s ts' to (Outside x)); try done; by right).
  assert (forall x, exists s', Ok (set_pc to (Outside x) s) = Ok s' /\ Inv s') as Hret by (intros x; eexists; split; [done|]; by apply (Hout x (ths s))).
  unfold msg_recv. case_match; [apply Hret|]. destruct (negb (special foo) && _) eqn:Ec; [apply Hret|]. set (lk := if special foo then 0 else resolve d foo) in *.
  assert (special foo = true \/ thread_ok lk) as Hlk.
  { unfold lk in *. destruct (special foo); [by left|]. right. apply andb_false_iff in Ec as [Ec|Ec]; [done|]. apply negb_false_iff, CanComm_nz in Ec. by apply resolve_ok. }
  destruct (if special foo then _ else None) as [q|].
  { unfold recv_event. destruct (DequeueDeviceEvent q) as [[e|] q']; [destruct (WriteDeviceEventMessage _ _ _ _ _) as [ok m']; destruct ok|]; eexists; (split; [done|]); (eapply Hout; [done|done|apply events_calm..]). }
  case_match.
  { eexists. split; [done|]. eapply Hout; [done|done|apply upd_calm; cbn; auto|by apply upd_keep_send|by apply upd_keep_wait]. }
  destruct (CanCommThread vs' to); [|apply Hret]. cbn [negb]. set (r := MkRecv foo lk m k).
  destruct (select_sender_spec vs' to r (ths s) (dsend s) Ls (thread_ok_nz _ Hok) Hs (FieldInv_excl _ _ Hf) D1) as (sel & drop & ts1 & Ls1 & E & Hs1 & C1 & W1 & Hsel). rewrite E. cbn [obind].
  assert (WaitInv ts1 (whd ts1 (drecv s)) Lw) as Hw1 by (by eapply Wait_keep). assert (FieldInv ts1 (role s)) as Hf1 by (by eapply FieldInv_calm). destruct sel as [[fo prev]|].
  - destruct (serve_idle vs' ts1 _ _ Ls1 Lw _ to fo prev Hs1 Hw1 Hf1 (thread_ok_nz _ Hok) Hsel) as (ts2 & Et & Eu & Ls2 & Hs2 & Hw2 & Hf2). rewrite Et, Eu. eexists. split; [done|].
    apply (finish s (upd fo (fun c => w_to 0 (w_unsolved 0 c)) ts2) to (Waking drop 0 (Outside 0)) _ Ls2 Lw); try done; [|by left]. eapply Wait_keep; [exact Hw2|done|]. intros a. by apply over_id.
  - eexists. split; [done|]. apply (recv_or_wait_inv vs' to r drop (set_ths ts1 s) ts1 Ls1 Lw); try done. by apply (quiet_wait s to Lw Hq).
Qed.

(** *** Queued senders, in the wait loop *)
Lemma serve_waiting vs ts ds dr Ls Lw ro to fo prev : SendInv ts (shd ts ds) Ls -> WaitInv ts (whd ts dr) Lw -> FieldInv ts ro -> to <> 0 -> sto ts to = 0 -> selected vs ts Ls to (Some (fo, prev)) ->
  exists ts1 ts2, take_sender to fo prev ts = Some ts1 /\ UnlinkWaitEntry to ts1 = Ok ts2 /\
    let ts4 := upd to (fun c => w_fo 0 (w_unsolved 0 c)) (upd fo (fun c => w_to 0 (w_unsolved 0 c)) ts2) in
    exists Ls' Lw', SendInv ts4 (shd ts4 ds) Ls' /\ WaitInv ts4 (whd ts4 dr) Lw' /\ FieldInv ts4 ro /\ sto ts4 to = 0 /\ rfo ts4 to = 0.
Proof.
  intros Hs Hw Hf Hto H0 (a & b & Ek & -> & Hu). pose proof (FieldInv_excl _ _ Hf) as He. pose proof (cut_ok _ _ _ _ _ _ _ Hs Ek) as Hc. set (ts0 := cut to (default 0 (last a)) fo ts) in *. set (ts1 := upd fo (w_snext 0) ts0).
  assert (sto ts fo = to) as Est by (apply (s_queue _ _ _ Hs to fo); rewrite Ek; apply elem_of_app; right; left). assert (rfo ts fo = 0) as Er by (destruct (He fo) as [E|E]; [congruence|done]).
  assert (fo <> to) as Hne by (intros ->; congruence).
  assert (KeepWait ts ts1) as W1 by (etrans; [apply Hc|apply snext_keep]). assert (Calm ts ts1) as C1 by (etrans; [apply Hc|apply snext_calm]).
  destruct (UnlinkWaitEntry_spec ts1 dr Lw to) as (ts2 & Lw' & E & Hw2 & S2 & F2 & D2 & Hno); [by eapply Wait_keep|apply (fi_fo ts1 ro); by eapply FieldInv_calm|].
  exists ts1, ts2. split; [by eapply take_sender_cut|]. split; [exact E|]. set (ts3 := upd fo _ ts2). set (ts4 := upd to _ ts3). cbv zeta.
  assert (Calm ts1 ts2) as C2. { split; [|done]. destruct S2 as [[S2 _] _]. intros u. destruct (F2 u) as (-> & -> & ->). rewrite (proj2 (S2 u)). split_and!; auto. }
  destruct W1 as [[W1 W1d] W1h]. assert (rfo ts2 fo = 0) as Er2 by (destruct (F2 fo) as (-> & _); by rewrite (proj2 (W1 fo))).
  assert (sto ts2 to = 0) as Es2 by (destruct (proj1 C1 to) as ([E1|E1] & _), (proj1 C2 to) as ([E2|E2] & _); congruence).
  assert (Calm ts2 ts3) as C3 by (apply upd_calm; cbn; split_and!; [by right|by left|by right; right|done]).
  assert (sto ts3 to = 0) as Es3 by (unfold sto, ts3; by rewrite th_upd_ne). assert (Calm ts3 ts4) as C4 by (apply upd_calm; cbn; split_and!; [by left|by right|by right; right|done]).
  exists (put_list (QueueOf to) (a ++ b) Ls), Lw'. split_and!.
  - eapply SendInv_cut; [exact Hs|exact Ek|exact Hc| | | |].
    + intros u. transitivity (shead ts1 u); [rewrite <- (proj2 S2 u); unfold shead, ts4, ts3|unfold shead, ts1]; rewrite !th_upd; repeat case_decide; subst; done.
    + intros u Hx. destruct S2 as [[S2 _] _]. destruct (S2 u) as [S2a S2b]. assert (snext ts1 u = snext ts0 u /\ sto ts1 u = sto ts0 u) as [<- <-] by (unfold snext, sto, ts1; by rewrite th_upd_ne).
      rewrite <- S2a, <- S2b. unfold snext, sto, ts4, ts3. rewrite !th_upd. repeat case_decide; subst; done.
    + unfold sto, ts4, ts3. rewrite th_upd_ne by done. by rewrite th_upd_eq.
    + transitivity (dom ts1); [unfold ts1; rewrite dom_upd; set_solver|]. etrans; [exact D2|]. unfold ts4, ts3. rewrite !dom_upd. set_solver.
  - apply WaitInv_clear; [|done|done]. eapply Wait_keep; [exact Hw2|by apply upd_keep_wait|done].
  - eapply FieldInv_calm; [exact Hf|]. etrans; [exact C1|]. etrans; [exact C2|]. etrans; [exact C3|exact C4].
  - unfold sto, ts4. rewrite th_upd_eq. exact Es3.
  - unfold rfo, ts4. by rewrite th_upd_eq.
Qed.
End Recv.
