(* ===== verification/MessageInv.v ===== *)
(** * Messages: every step preserves the invariant *)
From S2P Require Import Prelude Sched DeviceEvents Message MessageLists MessageProof MessageQueues MessageDrops MessageSelect MessageWaits MessageSteps MessageRecv.

Section Inv.
Context {M : Type} `{!IpcMemory M} {C : Type} `{!AsyncChain C} `{!AsyncChainLaws C} {Q : Type} `{!FixedQueue DeviceEvent Q}.
Abbreviation Comm := (Comm C Q).
Abbreviation Threads := (gmap Z Comm).
Abbreviation Ipc := (Ipc M C Q).
Implicit Types (ts : Threads) (s : Ipc).

Lemma receiving_sto ts ro t : FieldInv ts ro -> ro t = Receiving -> sto ts t = 0.
Proof. intros H Hr. destruct (decide (sto ts t = 0)) as [|E]; [done|]. apply H in E as [E _]. congruence. Qed.
Lemma sending_rfo ts ro t to : FieldInv ts ro -> ro t = Sending to -> rfo ts t = 0.
Proof. intros H Hr. destruct (decide (rfo ts t = 0)) as [|E]; [done|]. apply H in E as [E _]. congruence. Qed.
Lemma no_message ts ro t : FieldInv ts ro -> umsg ts t = 0 -> sto ts t = 0 /\ rfo ts t = 0.
Proof. intros H Hu. split; [destruct (decide (sto ts t = 0)) as [|E]|destruct (decide (rfo ts t = 0)) as [|E]]; try done; by apply H in E as [_ E]. Qed.

(** A thread of no list may do what it likes with its link. *)
Lemma free_link ts ds L t f : SendInv ts (shd ts ds) L -> sto ts t = 0 -> (forall a, t ∉ L (Private a)) ->
  (forall c, send_to_whom (f c) = 0 /\ queue_send_queuehead (f c) = queue_send_queuehead c) -> SendInv (upd t f ts) (shd (upd t f ts) ds) L.
Proof.
  intros H H0 Hp Hf. assert (forall k, t ∉ L k) as Hno by (intros [r|a]; [rewrite (s_queue _ _ _ H), H0; naive_solver|done]).
  assert (forall u, sto (upd t f ts) u = sto ts u) as Es by (intros u; unfold sto in *; rewrite th_upd; case_decide; [subst; rewrite H0; apply Hf|done]). constructor.
  - eapply Forest_frame; [apply H| |].
    + intros [j|a]; cbn; [|done]. unfold shead. rewrite th_upd. case_decide; [subst; apply Hf|done].
    + intros k u Hu. unfold snext. rewrite th_upd_ne; [done|]. intros ->. by apply (Hno k).
  - intros r u. rewrite Es. apply H.
  - intros a u. rewrite Es. by apply (s_private _ _ _ H).
  - intros k u Hu. rewrite dom_upd. apply elem_of_union_r. by eapply s_known.
  - intros u. destruct (s_ends _ _ _ H u) as (l & Hl & E). exists l. split; [|done]. eapply linked_frame; [|exact Hl]. intros; apply Es.
Qed.

Lemma send_abort_inv t to s : Inv s -> pc s t = SendAbort to -> quiet s t -> exists ts', send_abort t to (ths s) = Ok ts' /\ Inv (set_pc t (Outside (-4)) (set_ths ts' s)).
Proof.
  intros [(Ls & Lw & Hs & Hw & Hf) Hp] Epc Hq. assert (role s t = Sending to) as Hr by (unfold role; by rewrite Epc). pose proof (sending_rfo _ _ t to Hf Hr) as Erf. unfold send_abort. set (f := fun c : Comm => _).
  assert (sh (Outside (-4)) = dsend s t /\ rh (Outside (-4)) = drecv s t) as [D1 D2] by (unfold dsend, drecv; by rewrite Epc).
  change (send_to_whom (th (ths s) t)) with (sto (ths s) t). destruct (decide (sto (ths s) t = 0)) as [E0|E0].
  - assert (truthy to && (sto (ths s) t =? to) = false) as -> by (rewrite E0; unfold truthy; destruct (Z.eqb_spec to 0); [done|]; cbn [negb andb]; by apply Z.eqb_neq, not_eq_sym). cbn [obind]. eexists. split; [done|].
    apply (finish_plain s (upd t f (ths s)) t (Outside (-4)) _ Ls Lw); try done.
    + apply free_link; [done|done|by apply (quiet_send s t Ls)|done].
    + eapply Wait_keep; [exact Hw|by apply upd_keep_wait|done].
    + eapply FieldInv_calm; [exact Hf|]. apply upd_calm. cbn. split_and!; [by right|by left|by right; right|done].
    + right. unfold sto, rfo in *. rewrite th_upd_eq. done.
  - pose proof (proj1 (fi_send _ _ Hf t E0)) as Hr'. rewrite Hr in Hr'. injection Hr' as Eto. rewrite <- Eto, Z.eqb_refl. assert (truthy to && true = true) as -> by (unfold truthy; rewrite (proj2 (Z.eqb_neq to 0)) by congruence; done). rewrite Eto.
    destruct (stop_sending (ths s) (dsend s) Ls t f Hs (FieldInv_excl _ _ Hf) E0) as (ts1 & L' & E & Hs' & HC & HW & _); [done|]. rewrite E. cbn [obind]. eexists. split; [done|].
    apply (finish_plain s (upd t f ts1) t (Outside (-4)) _ L' Lw); try done; [by eapply Wait_keep|by eapply FieldInv_calm|]. right. split; [unfold sto; by rewrite th_upd_eq|]. destruct HW as [[HW _] _]. by rewrite (proj2 (HW t)).
Qed.

Lemma recv_sync_inv vs t r s : Inv s -> thread_ok t -> pc s t = RecvSync r -> exists s', recv_sync vs t r s = Ok s' /\ Inv s'.
Proof.
  intros [(Ls & Lw & Hs & Hw & Hf) Hp] Hok Epc. assert (dsend s t = 0 /\ drecv s t = 0) as [D1 D2] by (unfold dsend, drecv; by rewrite Epc). assert (role s t = Receiving) as Hr by (unfold role; by rewrite Epc).
  unfold recv_sync. destruct (select_sender_spec vs t r (ths s) (dsend s) Ls (thread_ok_nz _ Hok) Hs (FieldInv_excl _ _ Hf) D1) as (sel & drop & ts1 & Ls1 & E & Hs1 & C1 & W1 & Hsel). rewrite E. cbn [obind].
  assert (WaitInv ts1 (whd ts1 (drecv s)) Lw) as Hw1 by (by eapply Wait_keep). assert (FieldInv ts1 (role s)) as Hf1 by (by eapply FieldInv_calm). destruct sel as [[fo prev]|].
  - destruct (serve_waiting vs ts1 _ _ Ls1 Lw _ t fo prev Hs1 Hw1 Hf1 (thread_ok_nz _ Hok) (receiving_sto _ _ t Hf1 Hr) Hsel) as (ts2 & ts3 & Et & Eu & Ls2 & Lw2 & Hs2 & Hw2 & Hf2 & G1 & G2). rewrite Et. change (default ts1 (Some ts2)) with ts2. rewrite Eu. cbn [obind]. eexists. split; [done|].
    eapply (finish s _ t (Waking drop 0 (Outside 0)) _ Ls2 Lw2); [done|done|reflexivity|done|exact Hs2| |exact Hf2|by right]. eapply Wait_keep; [exact Hw2|done|]. intros a. by apply over_id.
  - eexists. split; [done|]. apply (finish s ts1 t (Waking drop 0 (RecvAsync r)) _ Ls1 Lw); try done; [|by left]. eapply Wait_keep; [exact Hw1|done|]. intros a. by apply over_id.
Qed.

Lemma disarm_inv x t s ts : Inv s -> (forall u, wf_pc (pc s u)) -> dsend s t = 0 -> drecv s t = 0 -> role s t = Receiving -> Calm (ths s) ts -> KeepSend (ths s) ts -> KeepWait (ths s) ts ->
  exists ts', recv_disarm t ts = Ok ts' /\ forall s', ths s' = ts' -> pcs s' = <[t := Outside x]> (pcs s) -> Inv s'.
Proof.
  intros [(Ls & Lw & Hs & Hw & Hf) _] Hp D1 D2 Hr HC HS HW. assert (FieldInv ts (role s)) as Hf1 by (by eapply FieldInv_calm). unfold recv_disarm.
  destruct (deliver ts (dsend s) (drecv s) Ls Lw (role s) t (fun c => w_fo 0 (w_unsolved 0 c))) as (ts1 & Lw' & E & Hs' & Hw' & Hf' & G1 & G2 & _); try done; [by eapply Send_keep|by eapply Wait_keep|by eapply receiving_sto|].
  rewrite E. cbn [obind]. eexists. split; [done|]. intros s' E1 E2. eapply (finish_plain s _ t (Outside x) s' Ls Lw'); [done|done|exact E1|done|done|done|done|done|done|by right].
Qed.

Lemma advance_inv vs t s : Inv s -> allowed s (LAdvance vs t) -> exists s', advance vs t s = Ok s' /\ Inv s'.
Proof.
  intros HI [Hok Hq]. pose proof HI as [(Ls & Lw & Hs & Hw & Hf) Hp]. unfold advance, advance_send, advance_recv, advance_wake. destruct (pc s t) as [x|to|to|to|to|r|r|r|r|r|r|h g k] eqn:Epc.
  - by exists s.
  - eexists. split; [done|]. apply pc_only; unfold dsend, drecv, role; rewrite ?Epc; [done|by case_match..|left; by case_match].
  - eexists. split; [done|]. apply pc_only; unfold dsend, drecv, role; rewrite ?Epc; [done|by case_match..|left; by case_match].
  - eexists. split; [done|]. apply pc_only; unfold dsend, drecv, role; rewrite ?Epc; [done|by repeat case_match..|]. destruct (Z.eqb_spec (unsolved_msg (th (ths s) t)) 0) as [E|_]; [right; by eapply no_message|left; by case_match].
  - destruct (send_abort_inv t to s HI Epc Hq) as (ts' & -> & H'). cbn [obind]. by eexists.
  - eexists. split; [done|]. apply pc_only; unfold dsend, drecv, role; rewrite ?Epc; [done|by case_match..|left; by case_match].
  - eexists. split; [done|]. apply pc_only; unfold dsend, drecv, role; rewrite ?Epc; [done|by case_match..|left; by case_match].
  - eexists. split; [done|]. apply pc_only; unfold dsend, drecv, role; rewrite ?Epc; [done|by repeat case_match..|]. destruct (Z.eqb_spec (unsolved_msg (th (ths s) t)) 0) as [E|_]; [right; by eapply no_message|left; by case_match].
  - destruct (disarm_inv (-4) t s (ths s) HI Hp) as (ts' & -> & H'); unfold dsend, drecv, role; rewrite ?Epc; try done. cbn [obind]. eexists. split; [done|]. by apply H'.
  - by apply recv_sync_inv.
  - unfold recv_async. destruct (take_async vs t r s) as [s1|] eqn:Ea.
    + apply take_async_spec in Ea as (ts1 & E1 & E2 & HC & HS & HW). destruct (disarm_inv 0 t s ts1 HI Hp) as (ts' & E & H'); unfold dsend, drecv, role; rewrite ?Epc; try done. rewrite E1, E. cbn [obind]. eexists. split; [done|]. apply H'; [done|]. cbn. by rewrite E2.
    + eexists. split; [done|]. apply pc_only; unfold dsend, drecv, role; rewrite ?Epc; [done..|by left].
  - pose proof (Hp t) as Hk. rewrite Epc in Hk. assert (sh k = 0 /\ rh k = 0 /\ wf_pc k) as (K1 & K2 & K3) by (by destruct k). assert (dsend s t = h /\ drecv s t = g) as [D1 D2] by (unfold dsend, drecv; by rewrite Epc). unfold truthy.
    destruct (Z.eqb_spec h 0) as [Eh|Eh]; cbn [negb]; [destruct (Z.eqb_spec g 0) as [Eg|Eg]; cbn [negb]|].
    + eexists. split; [done|]. apply pc_only; [done|exact K3|congruence|congruence|left; unfold role; by rewrite Epc].
    + pose proof (wake_receiver_spec (ths s) (drecv s) Lw t Hw ltac:(congruence)) as Hx. rewrite D2 in Hx. destruct (wake_receiver g (ths s)) as [g' ts']. destruct Hx as (Lw' & Hw' & HC & HS). eexists. split; [done|].
      apply (finish s ts' t (Waking 0 g' k) _ Ls Lw'); try done; [|by eapply FieldInv_calm|left; unfold role; by rewrite Epc]. eapply Send_keep; [exact Hs|exact HS|]. intros a. apply over_id. cbn. congruence.
    + pose proof (wake_sender_spec (ths s) (dsend s) Ls t Hs ltac:(congruence)) as Hx. rewrite D1 in Hx. destruct (wake_sender h (ths s)) as [h' ts']. destruct Hx as (Ls' & Hs' & HC & HW). eexists. split; [done|].
      apply (finish s ts' t (Waking h' g k) _ Ls' Lw); try done; [|by eapply FieldInv_calm|left; unfold role; by rewrite Epc]. eapply Wait_keep; [exact Hw|exact HW|]. intros a. by apply over_id.
Qed.

(** ** The end of threads and processes *)
Lemma ths_inv s s' Ls Lw : (forall u, wf_pc (pc s u)) -> pcs s' = pcs s -> SendInv (ths s') (shd (ths s') (dsend s)) Ls -> WaitInv (ths s') (whd (ths s') (drecv s)) Lw -> FieldInv (ths s') (role s) -> Inv s'.
Proof.
  intros Hp E Hs Hw Hf. assert (forall u, pc s' u = pc s u) as Ep by (intros u; unfold pc; by rewrite E). split; [|intros u; by rewrite Ep]. exists Ls, Lw. split_and!.
  - eapply Send_keep; [exact Hs|done|]. intros a. unfold dsend. by rewrite Ep.
  - eapply Wait_keep; [exact Hw|done|]. intros a. unfold drecv. by rewrite Ep.
  - eapply FieldInv_role; [exact Hf|]. intros u _. unfold role. by rewrite Ep.
Qed.

Lemma waiters_part vs a t (dying : bool) ts dr Lw : WaitInv ts (whd ts dr) Lw -> dr a = 0 ->
  exists recv ts1 Lw1, (if dying then ended (wake_waiters (walk_fuel ts) vs t (queue_wait_queuehead (th ts t)) 0 (upd t (w_whead 0) ts)) else Ok (0, ts)) = Ok (recv, ts1) /\
    WaitInv ts1 (whd ts1 (over dr a recv)) Lw1 /\ Calm ts ts1 /\ KeepSend ts ts1.
Proof.
  intros H Hd. destruct dying.
  2: { exists 0, ts, Lw. split_and!; try done. eapply Wait_keep; [exact H|done|]. intros x. by apply over_id. }
  set (ts0 := upd t (w_whead 0) ts). assert (Calm ts ts0) as C0 by (apply upd_calm; cbn; auto). assert (KeepSend ts ts0) as S0 by (by apply upd_keep_send).
  assert (WaitInv ts0 (whd ts dr) Lw) as H0.
  { eapply WaitInv_frame; [exact H| |done]. split; [|apply C0]. intros u. unfold wnext, rfo, ts0. rewrite th_upd. case_decide as E; [by rewrite E|done]. }
  destruct (wake_waiters_spec vs t a (Lw (QueueOf t)) (walk_fuel ts) ts0 (whd ts dr) Lw) as (wake & ts1 & Lw1 & E & H1 & C1 & S1 & W1); [pose proof (wait_bound _ _ _ (QueueOf t) H); unfold walk_fuel; lia|done|done|].
  rewrite <- (f_head _ _ _ (r_forest _ _ _ H) (QueueOf t)) in E. cbn [whd] in E. rewrite Hd in E. unfold whead in E. rewrite E. exists wake, ts1, Lw1. split_and!; [done| |by etrans|by etrans].
  eapply WaitInv_frame; [exact H1|done|]. intros [j|x]; cbn.
  - rewrite W1. unfold whead, ts0. rewrite th_upd. unfold over. repeat case_decide; subst; try done; congruence.
  - unfold over. repeat case_decide; try done; congruence.
Qed.
Lemma senders_part vs a t ts ds Ls : SendInv ts (shd ts ds) Ls -> Excl ts -> t <> 0 -> ds a = 0 ->
  exists drop ts1 Ls1, ended (drop_senders (walk_fuel ts) vs (queue_send_queuehead (th ts t)) 0 ts) = Ok (drop, ts1) /\
    let ts2 := upd t (w_shead 0) ts1 in SendInv ts2 (shd ts2 (over ds a drop)) Ls1 /\ Calm ts ts2 /\ KeepWait ts ts2.
Proof.
  intros H He Ht Hd. destruct (drop_senders_spec vs t a (Ls (QueueOf t)) Ht (walk_fuel ts) ts (shd ts ds) Ls) as (drop & ts1 & Ls1 & E & H1 & C1 & W1 & Sh); [pose proof (list_bound _ _ _ (QueueOf t) H); unfold walk_fuel; lia|done|done|done|].
  rewrite <- (f_head _ _ _ (s_forest _ _ _ H) (QueueOf t)) in E. cbn [shd] in E. rewrite Hd in E. unfold shead in E. rewrite E. exists drop, ts1, Ls1. split; [done|]. cbv zeta. split_and!.
  - apply reset_head. eapply SendInv_frame; [exact H1|done|]. intros [j|x]; unfold over; cbn; repeat case_decide; try done; try congruence; apply Sh.
  - etrans; [exact C1|]. apply upd_calm. cbn. auto.
  - etrans; [exact W1|]. by apply upd_keep_wait.
Qed.

Lemma msg_cleanup_inv vs a t dying s : Inv s -> allowed s (LCleanup vs a t dying) -> exists s', msg_cleanup_thread vs a t dying s = Ok s' /\ Inv s'.
Proof.
  intros [(Ls & Lw & Hs & Hw & Hf) Hp] (Hoka & Hokt & Ho). destruct (outside_heads s a Ho) as (D1 & D2 & Hrole). unfold msg_cleanup_thread.
  destruct (waiters_part vs a t dying (ths s) (drecv s) Lw Hw D2) as (recv & ts1 & Lw1 & E1 & Hw1 & C1 & S1). rewrite E1. cbn [obind].
  assert (FieldInv ts1 (role s)) as Hf1 by (by eapply FieldInv_calm). assert (SendInv ts1 (shd ts1 (dsend s)) Ls) as Hs1 by (by eapply Send_keep).
  destruct (senders_part vs a t ts1 (dsend s) Ls Hs1 (FieldInv_excl _ _ Hf1) (thread_ok_nz _ Hokt) D1) as (drop & ts2 & Ls2 & E2 & Hs2 & C2 & W2). rewrite E2. cbn [obind]. cbv zeta in Hs2, C2, W2. set (ts3 := upd t (w_shead 0) ts2) in *.
  assert (FieldInv ts3 (role s)) as Hf3 by (by eapply FieldInv_calm). assert (WaitInv ts3 (whd ts3 (over (drecv s) a recv)) Lw1) as Hw3 by (by eapply Wait_keep).
  assert (exists ts4 Ls4, (if truthy (send_to_whom (th ts3 t)) then obind (unlink_sender t (send_to_whom (th ts3 t)) ts3) (fun ts => Ok (upd t (fun c => w_unsolved DEAD (w_snext 0 (w_to 0 c))) ts)) else Ok ts3) = Ok ts4 /\
    SendInv ts4 (shd ts4 (over (dsend s) a drop)) Ls4 /\ WaitInv ts4 (whd ts4 (over (drecv s) a recv)) Lw1 /\ FieldInv ts4 (role s) /\ sto ts4 t = 0) as (ts4 & Ls4 & E4 & Hs4 & Hw4 & Hf4 & Es4).
  { unfold truthy. change (send_to_whom (th ts3 t)) with (sto ts3 t). destruct (Z.eqb_spec (sto ts3 t) 0) as [Ez|Ez]; cbn [negb]; [by exists ts3, Ls2|].
    destruct (stop_sending ts3 (over (dsend s) a drop) Ls2 t (fun c => w_unsolved DEAD (w_snext 0 (w_to 0 c))) Hs2 (FieldInv_excl _ _ Hf3) Ez) as (ts4 & Ls4 & E & Hs4 & C4 & W4 & _); [done|].
    rewrite E. cbn [obind]. eexists _, Ls4. split; [done|]. split_and!; [exact Hs4|by eapply Wait_keep|by eapply FieldInv_calm|unfold sto; by rewrite th_upd_eq]. }
  rewrite E4. cbn [obind].
  assert (exists ts5 Lw5, (if has (v_reason (vs t)) BR_RecvMsg then obind (UnlinkWaitEntry t ts4) (fun ts => Ok (upd t (fun c => w_unsolved DEAD (w_fo 0 c)) ts)) else Ok ts4) = Ok ts5 /\
    SendInv ts5 (shd ts5 (over (dsend s) a drop)) Ls4 /\ WaitInv ts5 (whd ts5 (over (drecv s) a recv)) Lw5 /\ FieldInv ts5 (role s)) as (ts5 & Lw5 & E5 & Hs5 & Hw5 & Hf5).
  { destruct (has (v_reason (vs t)) BR_RecvMsg); [|by exists ts4, Lw1]. destruct (deliver ts4 _ _ Ls4 Lw1 _ t (fun c => w_unsolved DEAD (w_fo 0 c)) Hs4 Hw4 Hf4 Es4) as (ts5 & Lw5 & E & A1 & A2 & A3 & _); [done|]. rewrite E. cbn [obind]. by eexists _, Lw5. }
  rewrite E5. cbn [obind]. eexists. split; [done|]. set (ts6 := upd t _ ts5). apply (finish s ts6 a (Waking drop recv (pc s a)) _ Ls4 Lw5); try done.
  - unfold outside in Ho. cbn. by destruct (pc s a).
  - eapply Send_keep; [exact Hs5|by apply upd_keep_send|done].
  - eapply Wait_keep; [exact Hw5|by apply upd_keep_wait|done].
  - eapply FieldInv_calm; [exact Hf5|]. apply upd_calm. cbn. rewrite ac_clear_items. cbn. split_and!; [by left|by left|by left|lia].
  - by left.
Qed.

Lemma exit_sever_inv vs t p s : Inv s -> thread_ok t -> exists ts', exit_sever vs t p (ths s) = Ok ts' /\ Inv (set_ths ts' s).
Proof.
  intros [(Ls & Lw & Hs & Hw & Hf) Hp] Hok. unfold exit_sever. set (w := send_to_whom (th (ths s) t)).
  assert (exists ts1 Ls1, (if has (v_reason (vs t)) BR_SendMsg && truthy w && negb (special w) && (v_process (vs w) =? p) then obind (unlink_sender t w (ths s)) (fun ts => Ok (upd t (fun c => w_unsolved 0 (w_snext 0 (w_to 0 c))) ts)) else Ok (ths s)) = Ok ts1 /\
    SendInv ts1 (shd ts1 (dsend s)) Ls1 /\ WaitInv ts1 (whd ts1 (drecv s)) Lw /\ FieldInv ts1 (role s)) as (ts1 & Ls1 & E1 & Hs1 & Hw1 & Hf1).
  { case_match eqn:Ec; [|by exists (ths s), Ls]. assert (sto (ths s) t <> 0) as Hz. { apply andb_true_iff in Ec as [Ec _]. apply andb_true_iff in Ec as [Ec _]. apply andb_true_iff in Ec as [_ Ec]. unfold truthy in Ec. fold w in Ec. unfold sto. fold w. destruct (Z.eqb_spec w 0); done. }
    destruct (stop_sending (ths s) (dsend s) Ls t (fun c => w_unsolved 0 (w_snext 0 (w_to 0 c))) Hs (FieldInv_excl _ _ Hf) Hz) as (ts1 & L' & E & Hs' & HC & HW & _); [done|]. unfold sto in E. fold w in E. rewrite E. cbn [obind].
    eexists _, L'. split; [done|]. split_and!; [done|by eapply Wait_keep|by eapply FieldInv_calm]. }
  rewrite E1. clear E1. cbn [obind]. set (fo := recv_fo_whom (th ts1 t)). case_match eqn:Ec.
  2: { eexists. split; [done|]. by apply (ths_inv s _ Ls1 Lw). }
  assert (rfo ts1 t <> 0) as Hz. { apply andb_true_iff in Ec as [Ec _]. apply andb_true_iff in Ec as [Ec _]. apply andb_true_iff in Ec as [_ Ec]. unfold truthy in Ec. unfold rfo. fold fo. destruct (Z.eqb_spec fo 0); done. }
  destruct (deliver ts1 _ _ Ls1 Lw _ t (fun c => w_unsolved 0 (w_fo 0 c)) Hs1 Hw1 Hf1) as (ts2 & Lw2 & E & A1 & A2 & A3 & _); [by destruct (FieldInv_excl _ _ Hf1 t)|done|].
  rewrite E. cbn [obind]. eexists. split; [done|]. by apply (ths_inv s _ Ls1 Lw2).
Qed.
Lemma exit_drop_inv t s : Inv s -> thread_ok t -> exists ts', exit_drop_senders t (ths s) = Ok ts' /\ Inv (set_ths ts' s).
Proof.
  intros [(Ls & Lw & Hs & Hw & Hf) Hp] Hok. unfold exit_drop_senders.
  destruct (sever_senders_spec t (Ls (QueueOf t)) (thread_ok_nz _ Hok) (walk_fuel (ths s)) (ths s) (shd (ths s) (dsend s)) Ls) as (ts1 & Ls1 & E & H1 & C1 & W1 & Sh); [pose proof (list_bound _ _ _ (QueueOf t) Hs); unfold walk_fuel; lia|done|done|by eapply FieldInv_excl|].
  rewrite <- (f_head _ _ _ (s_forest _ _ _ Hs) (QueueOf t)) in E. cbn [shd] in E. unfold shead in E. rewrite E. cbn [ended obind]. eexists. split; [done|]. apply (ths_inv s _ Ls1 Lw); try done.
  - apply reset_head. eapply SendInv_frame; [exact H1|done|]. intros [j|x]; unfold over; cbn; repeat case_decide; try done; apply Sh.
  - eapply Wait_keep; [exact Hw|etrans; [exact W1|by apply upd_keep_wait]|done].
  - eapply FieldInv_calm; [exact Hf|]. etrans; [exact C1|]. apply upd_calm. cbn. auto.
Qed.

(** ** Interrupts and device events *)
(** A receive from anyone is ended without the lists. *)
Lemma end_special s t f s' : Inv s -> special (rfo (ths s) t) = true -> ths s' = upd t f (ths s) -> pcs s' = pcs s ->
  (forall c, recv_fo_whom (f c) = 0 /\ send_to_whom (f c) = send_to_whom c /\ queue_send_queuehead (f c) = queue_send_queuehead c /\ queue_send_queuenext (f c) = queue_send_queuenext c /\
     queue_wait_queuehead (f c) = queue_wait_queuehead c /\ queue_wait_queuenext (f c) = queue_wait_queuenext c /\ async_messages (f c) = async_messages c) -> Inv s'.
Proof.
  intros [(Ls & Lw & Hs & Hw & Hf) Hp] Hsp E1 E2 Hff. assert (rfo (ths s) t <> 0) as Hz by (intros E; by rewrite E in Hsp).
  assert (sto (ths s) t = 0) as Hst by (by destruct (FieldInv_excl _ _ Hf t)). destruct (deliver (ths s) _ _ Ls Lw _ t f Hs Hw Hf Hst Hff) as (ts1 & Lw' & E & A1 & A2 & A3 & _).
  unfold UnlinkWaitEntry in E. change (recv_fo_whom (th (ths s) t)) with (rfo (ths s) t) in E. unfold special in Hsp. rewrite <- orb_assoc, Hsp, orb_true_r in E. injection E as <-. rewrite <- E1 in *. by apply (ths_inv s s' Ls Lw').
Qed.
Lemma rupt_proc_inv d vs tid n s : Inv s -> directory_ok d -> Inv (rupt_proc d vs tid n s).
Proof.
  intros HI Hd. unfold rupt_proc. case_match; [done|]. set (t := LocateThread d tid) in *. case_match eqn:Ec.
  - apply andb_true_iff in Ec as [_ Ec]. by eapply (end_special s t).
  - eapply (ths_only s); [done|done|done|apply upd_calm; cbn; auto|by apply upd_keep_send|by apply upd_keep_wait].
Qed.
Lemma device_event_proc_inv d vs tid e s : Inv s -> directory_ok d -> Inv (device_event_proc d vs tid e s).2.
Proof.
  intros HI Hd. unfold device_event_proc. case_match; [done|]. set (t := LocateThread d tid) in *. case_match; [|done]. destruct (_ && special _) eqn:Ec.
  - apply andb_true_iff in Ec as [_ Ec]. destruct (WriteDeviceEventMessage _ _ _ _ _) as [ok m]. destruct ok; [by eapply (end_special s t)|]. case_match. cbn [snd].
    eapply (ths_only s); [done|done|done|apply events_calm..].
  - case_match. cbn [snd]. eapply (ths_only s); [done|done|done|apply events_calm..].
Qed.

Lemma events_inv s t q s' : Inv s -> ths s' = upd t (w_events q) (ths s) -> pcs s' = pcs s -> Inv s'.
Proof. intros HI E1 E2. eapply (ths_only s); [done|exact E1|exact E2|apply events_calm..]. Qed.

(** ** The result of a child *)
Lemma deliver_wait_direct_inv vs p tm m k pr cur ca cb s : Inv s -> thread_ok tm ->
  exists b s', deliver_wait_direct vs p tm m k pr cur ca cb s = Ok (b, s') /\ Inv s'.
Proof.
  intros HI Htm. unfold deliver_wait_direct. destruct (_ || negb (Bool.eqb _ _)) eqn:Ec; [by exists false, s|]. destruct cur as [cur|]; [|by exists false, s]. case_match; [by exists false, s|].
  assert (forall m', Inv (set_mem m' s)) as Hmem by (intros m'; by apply (ths_only s (ths s))).
  destruct (if truthy (Z.min 16 (m_length pr)) then ca cur (mem s) else (true, mem s)) as [ok m1]. destruct ok; [|by eexists _, _]. cbn [negb]. destruct (cb _ m1) as [ok m2]. destruct ok; [|by eexists _, _]. cbn [negb].
  apply orb_false_iff in Ec as [Ec _]. apply orb_false_iff in Ec as [Ec _]. apply orb_false_iff in Ec as [_ Ec%negb_false_iff]. assert (rfo (ths s) p <> 0) as Hz.
  { unfold rfo. apply orb_true_iff in Ec as [Ec%Z.eqb_eq|Ec%Z.eqb_eq]; rewrite Ec; [by apply thread_ok_nz|done]. }
  destruct HI as [(Ls & Lw & Hs & Hw & Hf) Hp]. destruct (deliver (ths s) _ _ Ls Lw _ p (fun c => w_fo 0 (w_unsolved 0 c)) Hs Hw Hf) as (ts1 & Lw1 & E & A1 & A2 & A3 & _); [by destruct (FieldInv_excl _ _ Hf p)|done|].
  rewrite E. cbn [obind]. eexists _, _. split; [done|]. by apply (ths_inv s _ Ls Lw1).
Qed.
Lemma deliver_wait_async_inv vs p tm n a f s : Inv s -> Inv (deliver_wait_async vs p tm n a f s).2.
Proof.
  intros HI. unfold deliver_wait_async. case_match; [done|]. case_match eqn:El; [done|]. case_match; [done|]. cbn [snd]. destruct HI as [(Ls & Lw & Hs & Hw & Hf) Hp].
  destruct (append_async (ths s) (role s) p (MkMsg a 16 0 (v_tid (vs tm))) Hf) as (KS & KW & Hf'); [by apply Nat.leb_gt|]. apply (ths_inv s _ Ls Lw); try done; [by eapply Send_keep|by eapply Wait_keep].
Qed.

(** ** All steps *)
Lemma exec_inv l s : Inv s -> allowed s l -> exists s', exec l s = Ok s' /\ Inv s'.
Proof.
  intros HI Ha. destruct l; cbn [exec].
  - by apply msg_send_inv.
  - by apply msg_recv_inv.
  - by apply advance_inv.
  - by apply msg_cleanup_inv.
  - eexists. split; [done|]. by apply rupt_proc_inv.
  - eexists. split; [done|]. by apply device_event_proc_inv.
  - eexists. split; [done|]. unfold device_event_install. case_match; [done|]. by eapply (events_inv s).
  - eexists. split; [done|]. by eapply (events_inv s).
  - eexists. split; [done|]. unfold device_event_cancel_at. case_match; [done|]. case_match; [|done]. by eapply (events_inv s).
  - destruct Ha as [_ Ha]. destruct (deliver_wait_direct_inv vs parent taskman pending ker prepared current copy_args copy_back s HI Ha) as (b & s' & -> & H). by eexists.
  - eexists. split; [done|]. by apply deliver_wait_async_inv.
  - destruct (exit_sever_inv vs t p s HI Ha) as (ts' & -> & H). by eexists.
  - destruct (exit_drop_inv main s HI Ha) as (ts' & -> & H). by eexists.
Qed.
End Inv.
