(* ===== verification/MessageClaims.v ===== *)
(** * Messages: the properties *)
From S2P Require Import Prelude Sched DeviceEvents Message MessageLists MessageProof MessageQueues MessageDrops MessageSelect MessageWaits MessageSteps MessageRecv MessageInv.

Section Claims.
Context {M : Type} `{!IpcMemory M} {C : Type} `{!AsyncChain C} `{!AsyncChainLaws C} {Q : Type} `{!FixedQueue DeviceEvent Q}.
Abbreviation Comm := (Comm C Q).
Abbreviation Threads := (gmap Z Comm).
Abbreviation Ipc := (Ipc M C Q).
Implicit Types (ts : Threads) (s : Ipc).

(** No thread communicates. *)
Definition initial (m : M) : Ipc := MkIpc ∅ m ∅.

(** Any interleaving of allowed steps. *)
Inductive Run (m : M) : Ipc -> Prop :=
  | run_start : Run m (initial m)
  | run_step s l s' : Run m s -> allowed s l -> exec l s = Ok s' -> Run m s'.

Lemma initial_inv m : Inv (initial m).
Proof.
  assert (forall t, th (∅ : Threads) t = no_comm) as E by (intros t; unfold th; by rewrite lookup_empty).
  split; [|done]. exists (fun _ => []), (fun _ => []). cbn [ths initial]. split_and!; constructor; unfold shd, whd, shead, whead, snext, wnext, sto, rfo, umsg.
  - constructor; [|done|constructor|by intros ? ? ? ?%elem_of_nil]. intros [r|a]; [by rewrite E|done].
  - intros r t. rewrite E. split; [by intros ?%elem_of_nil|]. cbn. naive_solver.
  - by intros ? ? ?%elem_of_nil.
  - by intros ? ? ?%elem_of_nil.
  - intros t. destruct (decide (t = 0)) as [->|Hz]; [by exists []|]. exists [t]. split; [|done]. cbn. by rewrite E.
  - constructor; [|done|constructor|by intros ? ? ? ?%elem_of_nil]. intros [r|a]; [by rewrite E|done].
  - by intros ? ? ?%elem_of_nil.
  - by intros ? ? ?%elem_of_nil.
  - by intros ? ? ?%elem_of_nil.
  - intros t. by rewrite E.
  - intros t. by rewrite E.
  - intros t. rewrite E. by left.
  - intros t. rewrite E. by left.
  - intros t. rewrite E. cbn. rewrite ac_new_items. cbn. lia.
Qed.
Lemma run_inv m s : Run m s -> Inv s.
Proof. induction 1 as [|s l s' _ IH Ha E]; [apply initial_inv|]. destruct (exec_inv l s IH Ha) as (s2 & E2 & H). congruence. Qed.

(** The queue of senders, and the list of the waiting receivers, as the code walks along them. *)
Definition senders (s : Ipc) (r : Z) : list Z := chain (walk_fuel (ths s)) (snext (ths s)) (queue_send_queuehead (th (ths s) r)).
Definition waiters (s : Ipc) (r : Z) : list Z := chain (walk_fuel (ths s)) (wnext (ths s)) (queue_wait_queuehead (th (ths s) r)).

Lemma senders_list s Ls r : SendInv (ths s) (shd (ths s) (dsend s)) Ls -> senders s r = Ls (QueueOf r).
Proof.
  intros H. unfold senders. change (queue_send_queuehead (th (ths s) r)) with (shead (ths s) r). rewrite (queue_head _ _ _ r H). apply chain_linked; [apply H|]. pose proof (list_bound _ _ _ (QueueOf r) H). unfold walk_fuel. lia.
Qed.
Lemma waiters_list s Lw r : WaitInv (ths s) (whd (ths s) (drecv s)) Lw -> waiters s r = Lw (QueueOf r).
Proof.
  intros H. unfold waiters. pose proof (f_head _ _ _ (r_forest _ _ _ H) (QueueOf r)) as Hh. change (queue_wait_queuehead (th (ths s) r) = first (Lw (QueueOf r))) in Hh. rewrite Hh. apply chain_linked; [apply H|].
  pose proof (wait_bound _ _ _ (QueueOf r) H). unfold walk_fuel. lia.
Qed.


(** [a] is sending to [b]. *)
Definition sends (s : Ipc) (a b : Z) : Prop := send_to_whom (th (ths s) a) = b /\ b <> 0.

Lemma linked_tc s l : forall a, linked (sto (ths s)) (a :: l) -> forall b, tc (sends s) a b <-> b ∈ l.
Proof.
  induction l as [|x l IH]; intros a (Hz & Hn & Hl) b.
  - split; [|by intros ?%elem_of_nil]. intros H. exfalso. change (send_to_whom (th (ths s) a) = 0) in Hn. destruct H as [? ? [E Hz']|? ? ? [E Hz']]; congruence.
  - assert (x <> 0) as Hx by apply Hl. change (send_to_whom (th (ths s) a) = x) in Hn. specialize (IH x Hl). rewrite elem_of_cons, <- IH. split.
    + intros H. inversion H as [? ? [E _]|? y ? [E _] H']; subst; [by left|by right].
    + intros [->|H]; [by apply tc_once|]. eapply tc_l; [|exact H]. done.
Qed.


(** ** A sender and a receiver meet *)

(** [fo] and [to] can communicate, nothing else is pending at [to]. *)
Record Ready (d : Directory) (vs : Views) (s : Ipc) (fo to : Z) : Prop := {
  rd_fo : thread_ok fo; rd_to : thread_ok to; rd_ne : to <> fo;
  rd_fo_out : outside s fo; rd_to_out : outside s to; rd_fo_quiet : quiet s fo; rd_to_quiet : quiet s to;
  rd_dir : directory_ok d; rd_find_fo : resolve d (v_tid (vs fo)) = fo; rd_find_to : resolve d (v_tid (vs to)) = to;
  rd_tid_fo : special (v_tid (vs fo)) = false; rd_tid_to : v_tid (vs to) <> 0; rd_tid_to' : special (v_tid (vs to)) = false;
  rd_comm_fo : CanCommThread vs fo = true; rd_comm_to : CanCommThread vs to = true;
  rd_sig_fo : interrupted (vs fo) = false; rd_sig_to : interrupted (vs to) = false;
  rd_queue : queue_send_queuehead (th (ths s) to) = 0;
  rd_async : find_src (v_tid (vs fo)) (ac_items (async_messages (th (ths s) to))) = None;
}.

Lemma no_deadlock ts fo to : send_to_whom (th ts to) = 0 -> msg_send_will_deadlock ts fo to = Ok false.
Proof. intros E. unfold msg_send_will_deadlock, walk_fuel. cbn [will_deadlock]. by rewrite E. Qed.

(** The receiver arms itself. *)
Lemma recv_arms d vs s fo to mt kt : Ready d vs s fo to -> Inv s -> mt <> 0 ->
  let r := MkRecv (v_tid (vs fo)) fo mt kt in
  let ts := upd to (fun c => w_fo fo (w_kernel kt (w_unsolved mt c))) (LinkWaitEntry to fo (ths s)) in
  msg_recv d vs vs to (v_tid (vs fo)) mt kt s = Ok (set_pc to (Waking 0 0 (RecvBlock r)) (set_ths ts s)).
Proof.
  intros HR HI Hm r. destruct HI as [(Ls & Lw & Hs & Hw & Hf) _]. destruct (outside_heads s fo (rd_fo_out _ _ _ _ _ HR)) as (_ & _ & Hr). destruct (idle_fields _ _ fo Hf Hr) as [F1 _].
  unfold msg_recv. rewrite (rd_comm_to _ _ _ _ _ HR), (rd_tid_fo _ _ _ _ _ HR), (rd_find_fo _ _ _ _ _ HR), (rd_comm_fo _ _ _ _ _ HR). cbn [negb andb]. rewrite andb_false_r.
  unfold select_sender. cbn [foo lookup]. pose proof (rd_tid_fo _ _ _ _ _ HR) as Hsp. unfold special in Hsp. apply orb_false_iff in Hsp as [-> ->]. unfold sto in F1. rewrite F1.
  rewrite (proj2 (Z.eqb_neq 0 to)) by (pose proof (rd_to _ _ _ _ _ HR) as Ht; apply thread_ok_nz in Ht; congruence). rewrite andb_false_r. cbn [obind]. unfold recv_or_wait, take_async, find_async. cbn [foo lookup msg msg_in_kernel ths set_ths].
  pose proof (rd_tid_fo _ _ _ _ _ HR) as Hsp. rewrite Hsp. unfold special in Hsp. apply orb_false_iff in Hsp as [-> ->]. rewrite (rd_async _ _ _ _ _ HR), (rd_sig_to _ _ _ _ _ HR), (proj2 (Z.eqb_neq mt 0) Hm). done.
Qed.

(** The sender queues itself. *)
Lemma send_queues d vs s fo to mf kf n p : Ready d vs s fo to -> Inv s ->
  let ts := upd fo (w_snext 0) (upd to (w_shead fo) (upd fo (fun c => w_kernel kf (w_unsolved mf (w_to to c))) (ths s))) in
  msg_send d vs vs n p fo (v_tid (vs to)) mf kf false s = Ok (set_pc fo (SendBlock to) (set_ths ts s)).
Proof.
  intros HR HI. destruct HI as [(Ls & Lw & Hs & Hw & Hf) _]. destruct (outside_heads s to (rd_to_out _ _ _ _ _ HR)) as (_ & _ & Hr). destruct (idle_fields _ _ to Hf Hr) as [F1 F2].
  unfold msg_send. pose proof (rd_tid_to' _ _ _ _ _ HR) as Hsp. unfold special in Hsp. apply orb_false_iff in Hsp as [-> _]. rewrite (proj2 (Z.eqb_neq _ 0) (rd_tid_to _ _ _ _ _ HR)), (rd_find_to _ _ _ _ _ HR), (rd_comm_fo _ _ _ _ _ HR), (rd_comm_to _ _ _ _ _ HR). cbn [orb negb].
  rewrite (no_deadlock _ fo to F1). cbn [obind]. assert (armed_for (ths s) to fo = false) as ->.
  { unfold armed_for. unfold rfo in F2. rewrite F2. rewrite (proj2 (Z.eqb_neq 0 fo)) by (pose proof (rd_fo _ _ _ _ _ HR) as Ht; apply thread_ok_nz in Ht; congruence). cbn. apply andb_false_r. }
  rewrite (rd_sig_fo _ _ _ _ _ HR). unfold append_sender. rewrite th_upd_ne by apply (rd_ne _ _ _ _ _ HR). rewrite (rd_queue _ _ _ _ _ HR). done.
Qed.

End Claims.
