(* ===== verification/MessageWitness.v ===== *)
(** * Messages: concrete runs *)
From S2P Require Import Prelude Sched DeviceEvents Message MessageLists MessageProof MessageQueues MessageDrops MessageSelect MessageWaits MessageSteps MessageRecv MessageInv MessageClaims.

Module MessageWitness.

(** A memory of words, the last write first; addresses are translated to themselves. *)
Abbreviation Log := (list (Z * Z)).
Definition word (a : Z) (m : Log) : Z := default 8 (snd <$> find (fun x => x.1 =? a) m).
#[local] Instance log_memory : IpcMemory Log := {
  SeekAddress := fun _ a _ _ => a;
  MccaMemCopyP := fun d _ _ s _ _ _ m => (d, word s m) :: m;
  load_word := word;
  store_word := fun a x m => (a, x) :: m;
  read_msg := fun a _ _ m => MkMsg (word a m) (word (a + 8) m) (word (a + 16) m) (word (a + 24) m);
  write_msg := fun a _ _ x m => (a + 24, m_src x) :: m;
  write_event := fun a _ _ e m => (a, device_handle e) :: m;
  delete_bytes := fun _ m => m;
  off_address := 0; off_length := 8; off_type := 16; off_src := 24;
}.
#[local] Instance list_chain : AsyncChain (list CommMsg) := {
  ac_new := []; ac_items := fun c => c; ac_append := fun x c => c ++ [x]; ac_remove := fun i c => delete i c; ac_clear := fun _ => [];
}.
#[local] Instance list_chain_laws : AsyncChainLaws (list CommMsg).
Proof. by constructor. Qed.
#[local] Instance list_queue : FixedQueue DeviceEvent (list DeviceEvent) := {
  fq_count := @length DeviceEvent; fq_enqueue := fun x q => (true, q ++ [x]); fq_dequeue := fun q => (hd_error q, tl q);
}.
Abbreviation World := (Ipc Log (list CommMsg) (list DeviceEvent)).

(** Threads 1 to 9, with their own numbers as ids; [b] are the threads that are blocked in a send. *)
Definition dir : Directory := MkDirectory (fun z => if (0 <? z) && (z <? 10) then z else 0) (fun _ => 0).
Definition view (reason : Z) : Views := fun t => MkView t State.Running reason 1 true 0 0.

Lemma dir_ok : directory_ok dir.
Proof. intros z. unfold thread_ok, INTRUPT, UMAX. cbn. destruct ((0 <? z) && (z <? 10)) eqn:E; lia. Qed.

Inductive Op := Send (fo to m : Z) | Recv (to foo m : Z) | Go (t : Z) | Clean (reason a t : Z).
Definition label (o : Op) : Label (M := Log) (Q := list DeviceEvent) :=
  match o with
  | Send fo to m => LSend dir (view 0) (view 0) true 0 fo to m true false
  | Recv to foo m => LRecv dir (view 0) (view 0) to foo m true
  | Go t => LAdvance (view 0) t
  | Clean reason a t => LCleanup (view reason) a t true
  end.
Definition okb (t : Z) : bool := (0 <? t) && (t <? 10).
Definition outb (s : World) (t : Z) : bool := match pc s t with Outside _ => true | _ => false end.
Definition no_waking (s : World) : bool := bool_decide (map_Forall (fun _ x => sh x = 0 /\ rh x = 0) (pcs s)).
Definition op_ok (s : World) (o : Op) : bool :=
  match o with
  | Send fo to m => okb fo && outb s fo && negb (m =? 0) && okb to && negb (to =? fo) && no_waking s
  | Recv to _ _ => okb to && outb s to && no_waking s
  | Go t => okb t && match pc s t with SendAbort _ => no_waking s | _ => true end
  | Clean _ a t => okb a && okb t && outb s a
  end.
(** Run the operations; [strict] stops at one that is not allowed. *)
Fixpoint runs (strict : bool) (l : list Op) (s : World) : option World :=
  match l with
  | [] => Some s
  | o :: l => if strict && negb (op_ok s o) then None else match exec (label o) s with Ok s => runs strict l s | _ => None end
  end.

Lemma no_waking_quiet s t : no_waking s = true -> quiet s t.
Proof.
  intros H%bool_decide_eq_true a. unfold dsend, drecv, pc. destruct (pcs s !! a) as [x|] eqn:E; cbn; [destruct (H a x E) as [-> ->]|]; split; apply not_elem_of_nil.
Qed.
Lemma okb_ok t : okb t = true -> thread_ok t.
Proof. unfold okb, thread_ok, INTRUPT, UMAX. lia. Qed.
Lemma outb_ok s t : outb s t = true -> outside s t.
Proof. unfold outb, outside. by destruct (pc s t). Qed.
Lemma op_ok_allowed s o : op_ok s o = true -> allowed s (label o).
Proof.
  destruct o; cbn [op_ok label allowed]; rewrite ?andb_true_iff, ?negb_true_iff; intros H.
  - destruct H as (((((H1 & H2) & H3) & H4) & H5) & H6). split_and!; [apply dir_ok|by apply okb_ok|by apply outb_ok|]. intros _. split; [lia|]. split; [|by apply no_waking_quiet].
    unfold resolve, truthy. cbn. unfold okb in H4. rewrite H4. destruct (Z.eqb_spec to 0); cbn; lia.
  - destruct H as ((H1 & H2) & H3). split_and!; [apply dir_ok|by apply okb_ok|by apply outb_ok|by apply no_waking_quiet].
  - destruct H as (H1 & H2). split; [by apply okb_ok|]. destruct (pc s t); try done; by apply no_waking_quiet.
  - destruct H as ((H1 & H2) & H3). split_and!; [by apply okb_ok..|by apply outb_ok].
Qed.
Lemma runs_run m l : forall s s', Run m s -> runs true l s = Some s' -> Run m s'.
Proof.
  induction l as [|o l IH]; intros s s' Hr; cbn [runs andb]; [by intros [= <-]|]. destruct (op_ok s o) eqn:E; [|done]. cbn [negb]. destruct (exec (label o) s) as [s1| |] eqn:Ex; [|done..]. apply IH. eapply run_step; [exact Hr|by apply op_ok_allowed|exact Ex].
Qed.
Definition after (strict : bool) (l : list Op) : World := default (initial []) (runs strict l (initial [])).
Lemma after_run l : is_Some (runs true l (initial [])) -> Run [] (after true l).
Proof. intros [s E]. unfold after. rewrite E. cbn. eapply runs_run; [apply run_start|exact E]. Qed.

(** ** The properties at work *)

(** 1 and 3 send to 2; 4 waits for 1. *)
Definition traffic : list Op := [Send 1 2 100; Send 3 2 300; Recv 4 1 400; Go 4].

(** 1 sends to 2 and 2 to 3: a send of 3 to 1 would close the circle, one of 4 to 1 would not. *)
Definition line : list Op := [Send 1 2 100; Send 2 3 200].

Lemma ready_12 : Ready dir (view 0) (initial [] : World) 1 2.
Proof.
  assert (forall t, quiet (initial [] : World) t) as Hq by (intros t; by apply no_waking_quiet).
  constructor; try apply Hq; try apply dir_ok; try (vm_compute; reflexivity); try (vm_compute; exact I); vm_compute; try (split; reflexivity); discriminate.
Qed.

(** ** What goes wrong otherwise *)

(** A thread that sends to itself is queued at itself; the next check for a deadlock that meets it
    never ends, whatever the fuel, with the lock of the message system held. *)
Theorem self_send_hangs : let s := after false [Send 1 1 100] in
  pc s 1 = SendBlock 1 /\ forall fuel, will_deadlock fuel (ths s) 2 1 = None.
Proof.
  cbv zeta. split; [vm_compute; reflexivity|]. set (ts := ths _). assert (send_to_whom (th ts 1) = 1 /\ unsolved_msg (th ts 1) = 100) as [E1 E2] by (split; vm_compute; reflexivity).
  induction fuel as [|fuel IH]; cbn [will_deadlock]; rewrite E1, E2; [done|exact IH].
Qed.

(** A synchronous send of a null message returns 0 while the thread is still in the queue. *)
Theorem null_send_returns_queued : let s := after false [Send 1 2 0; Go 1; Go 1; Go 1] in
  pc s 1 = Outside 0 /\ send_to_whom (th (ths s) 1) = 2 /\ senders s 2 = [1].
Proof. vm_compute. split_and!; reflexivity. Qed.

(** The look for queued senders in the wait loop does not check again whether the receiver was served:
    2 leaves its sleep without a message, 1 delivers into its buffer and returns 0, 3 queues, and 2
    takes the message of 3 into the same buffer.  One receive has returned, two messages are gone. *)
Theorem message_overwritten : let s := after true [Recv 2 ANYPROC 200; Go 2; Go 2; Go 2; Go 2; Send 1 2 100; Send 3 2 300; Go 2; Go 2] in
  Run [] s /\ pc s 1 = Outside 0 /\ pc s 2 = Outside 0 /\ unsolved_msg (th (ths s) 3) = 0 /\ senders s 2 = [] /\
  filter (fun x => x.1 = 224) (mem s) = [(224, 3); (224, 1)].
Proof. cbv zeta. split; [apply after_run; vm_compute; by eexists|]. vm_compute. split_and!; reflexivity. Qed.

(** The private list of [msg_cleanup_thread] is linked through the queues' field: 1, dropped from the
    queue of 2 but not yet woken, returns and queues at 4 before 6; the wake-up then cuts the queue of
    4 behind 1, and 6 is not found any more. *)
Theorem wake_list_cuts_queue : let s := after false [Send 1 2 100; Send 3 2 300; Clean BR_SendMsg 5 2; Go 1; Go 1; Send 1 4 100; Send 6 4 600; Go 5; Go 5] in
  send_to_whom (th (ths s) 6) = 4 /\ unsolved_msg (th (ths s) 6) = 600 /\ senders s 4 = [1].
Proof. vm_compute. split_and!; reflexivity. Qed.

(** A receiver that is armed but not yet blocked when its peer dies is taken off the list without a
    sign: it goes to sleep, waiting for the dead thread, and is on no list. *)
Theorem cleanup_strands_receiver : let s := after true [Recv 2 1 200; Go 2; Clean 0 5 1; Go 5; Go 2] in
  Run [] s /\ recv_fo_whom (th (ths s) 2) = 1 /\ unsolved_msg (th (ths s) 2) = 200 /\ waiters s 1 = [] /\ pc s 5 = Outside 0 /\
  pc s 2 = RecvSlept (MkRecv 1 1 200 true).
Proof. cbv zeta. split; [apply after_run; vm_compute; by eexists|]. vm_compute. split_and!; reflexivity. Qed.

(** Replacing the image of a process forgets the senders in the queue of its main thread. *)
Theorem exec_strands_senders : let s := after true [Send 1 2 100] in
  exists ts, exec_reset 2 (ths s) = Ok ts /\ send_to_whom (th ts 1) = 2 /\ unsolved_msg (th ts 1) = 100 /\ senders (set_ths ts s) 2 = [].
Proof. vm_compute. eexists. split_and!; reflexivity. Qed.
End MessageWitness.
